(* ===== verification/_CoqProject ===== *)
-Q . S2P
Prelude.v
RustStr.v
Tools.v
Errors.v
Program.v
Names.v
Json.v
Uids.v
ToolCall.v
McpErrors.v
Redact.v
Wire.v
Breaker.v
Authz.v
ImapErrors.v
UidSet.v
Fetch.v
Session.v
Mailbox.v
Validation.v
SearchKey.v
Content.v
Unicode.v
MimeScrub.v
SearchTool.v
AuditTime.v
AuditRecord.v
AuditWriter.v
Worker.v
AuditLocks.v
Recent.v
AuditFiles.v
AuditReader.v
Mbox.v
Sandbox.v
Filename.v
ContentMeta.v
Lookalike.v
Html.v
HtmlText.v
Parse.v
Runner.v
HtmlOracle.v
OracleRun.v
ContainerGate.v
Retrieval.v
Attachments.v
Folders.v
MailTools.v
Config.v
Credentials.v
Connect.v
Smtp.v
Compose.v
Connection.v
Registry.v
Startup.v
Export.v
Provenance.v
Envelope.v
Drain.v
Catalog.v
Server.v
AuthLog.v
Audited.v
