(* ===== verification/Prelude.v ===== *)
(** * A Rocq model of rusty-imap-mcp

    rusty-imap-mcp is an MCP server that gives a language model a mailbox: tool
    calls come in as JSON-RPC, pass an authorization guard, become IMAP or SMTP
    commands for one of several accounts, and leave a record in an audit log;
    what comes back from the mail server is treated as hostile.  This library
    models the crates under src/crates, and the oracle under src/html-oracle, as
    pure functions and step relations and proves what makes them correct.  Every
    definition that models code carries the lines it translates in the comment
    above it.

    ** How a call travels, and where each part is modelled

    - Start-up.  Config validates the file (rimap-config: loader.rs, model.rs,
      validate/): defaults, per-key inheritance and every rule, in the order
      tried.  Credentials finds each password (credential.rs, login.rs,
      cli/migrate_keyring.rs).  Registry resolves an account's folder policy
      (boot/discovery.rs, tool_matrix.rs) and keeps the active one
      (boot/registry.rs, tools/admin/accounts.rs).  Startup is the run of the
      program (main.rs, boot/audit_init.rs, cli/): opening the log, its first
      record, booting every account, the transport's end, the last record, and
      the dry run.
    - The wire.  Wire is the filter between standard input and the protocol
      library (mcp/wire_validator, mcp/preinit.rs).
    - The request.  Server is the whole call, from its name to its answer
      (mcp/server.rs, dispatch.rs), and the session as a sequence of calls;
      Catalog what the server lists (mcp/tool_catalog.rs, resources.rs).
      Audited joins a call with the log its two records are written to: no
      handler runs before its start record is in the open file, or in the fresh
      one where the log was due to rotate.
      ToolCall splits the tool's name and promotes it (mcp/tool_name.rs); Uids decodes the integers and UID lists
      (rimap-core/lenient_int.rs, uid_selector.rs); Json is the value type.
    - The guard.  Tools holds the enumerations and the posture matrix; Authz the
      effective matrix, the rate limiter and the seam that runs a handler under
      them (rimap-authz, mcp/dispatch.rs); Breaker the circuit breaker; Names
      folder names and the folder guard.
    - The envelope.  Envelope pairs the audit records of a call
      (mcp/audit_envelope.rs), Provenance says what of its result is recorded,
      Redact what of its arguments (rimap-audit/redact.rs), McpErrors how an
      error is answered, Drain how the process ends (mcp/drain.rs, main.rs,
      wire_validator/supervisor.rs), with the waits that have no timer.
    - The handlers.  SearchTool, Retrieval (fetch_message), Attachments (list
      and download), Export, MailTools (flags, labels, move, delete, folders),
      Folders (list_folders), Compose (create_draft, send_email, forward), with
      the checks of Validation and the file system of Sandbox and Mbox.
    - IMAP.  Fetch, UidSet, SearchKey, Mailbox and Folders model the operations
      of rimap-imap/ops; Session the cached connection
      (connection/mod.rs, dispatch.rs) and Connection every call on it, over the
      operations of those files; Connect its set-up with TLS, login,
      deadlines and audit record, whose write lies outside the deadline
      (connection/, tls.rs, auth.rs, preflight.rs);
      ImapErrors its errors; Smtp the client of rimap-smtp.
    - Hostile content.  Unicode sanitises text; MimeScrub, ContentMeta, Filename
      and Parse are the parser's pipeline (rimap-content/parse), Html and
      Lookalike the HTML body and its links, HtmlText the reference for the text
      extracted from it; Content holds the output types.
    - The audit log.  AuditRecord the payloads, AuditTime the texts of their
      times (record/ids.rs), AuditWriter the write path, AuthLog an attempt to
      connect with the log it is recorded in (writer/log.rs),
      Worker the thread it runs on and its callers (writer/deadline.rs), Recent
      the buffer of message identifiers, AuditFiles rotation and self-check,
      AuditLocks the locks and modes of the file between processes (fs.rs),
      AuditReader the reader and the merge.
    - Beside the server.  Runner is the corpus runner of rimap-content;
      HtmlOracle and OracleRun the program that reads documents with a second
      tokenizer and compares (src/html-oracle); ContainerGate the choice of a
      container runtime by the test harnesses.
    - RustStr holds strings and the functions of the standard library on them,
      Errors the error type of the server, Program the monad of the handlers;
      this file the [result] type, lists, and the automation shared by all.

    ** How code becomes definitions

    A fallible function returns [result]; a handler that talks to a server is a
    program: the calls it makes, in order, and its result (Program), or a
    conversation that sends commands and reads replies (Mailbox), with a clock
    and deadlines where the code sets them (Connect).  State is
    passed explicitly; concurrent parts (Session, Drain, Breaker, Worker) are
    step relations whose steps are the code's critical sections.  Machine integers
    are [Z] with their wrap-around, saturation or checks written out; a string is
    the list of its scalar values, with byte lengths by UTF-8.

    What is not under src/ is a parameter: the mail parser, HTML parser and
    cleaner, charset decoding, NFKC and segmentation ([UnicodeLib], [DomainLib],
    [FolderText]), the JSON encoding of records, SHA-256, TOML, the token
    buckets ([Limiter]), the keyring, the file system's and the servers'
    answers.  Laws are stated only for what the code relies on, and each is met
    by a concrete instance used in the witnesses.  Where one component promises
    something to another it is a class: [ExportSource] (the fetch operations the
    export uses, met by [account_source]) and [ImapApi] (the operations the
    mailbox tools use, met by [mailbox_api] from the conversations of Mailbox and
    by [connection_api] on the cached session),
    [AccountLike] (what the registry needs of an account, met by the booted
    accounts of Startup).

    ** The theorems

    - The whole: in any session started from a validated configuration, a
      handler runs only behind every gate and for a tool its account's
      configuration allows; what the list advertises can be called; paging the
      list leaves nothing out; malformed lines never reach the protocol library.
    - Authorization: the guard runs a handler only for an allowed tool, within
      the rate, with the breaker closed; the breaker refines its three-state
      specification; promoted calls need the promoted tool; redacted arguments
      tell no more than a stated table of fields, lengths and salted digests
      (the hash beside them is of the arguments as they came).
    - Mailbox: moving and deleting touch the messages asked for and no other,
      for every way a server can answer and a session can break, and keep a copy
      of what they take even where a refused STORE or EXPUNGE goes unheard (which
      commands hear the tagged answer is a parameter of Mailbox, for async-imap
      does not look at it in every stream); no value a caller chooses leaves its
      place in a command; protected folders are beyond every folder tool; flag
      tools never delete; reports say what happened.
    - Search, export and fetch: what was asked for is what is searched for,
      written and shown; an export is complete or leaves no file.
    - Mail out: blind recipients stay out of the bytes; a send is reported as it
      went, or as of unknown fate; limits and header safety of composed messages.
    - Content: the texts shown are bounded and free of the code points listed in
      Unicode (body_html is the cleaner's and apart), hidden text is left out
      and what else is left out is stated, smuggled headers are dropped, file names are safe.
    - Files: downloads stay in the sandbox; mbox files read back to the messages
      written.
    - Audit: no handler runs and no session is used before its record is
      written; records form whole lines in sequence, however callers and the
      worker interleave; one process holds a log file and only its owner reads
      it; failures are counted, each started call is ended, nothing is written after a process_end
      that counts nothing left over, the shutdown waits for its timers and for
      standard input and output only; the reader and the merge lose nothing they do not report, and print each record
      as this build writes it; texts of times sort as times.
    - Beside the server: the runner accounts for every sample it looks at and
      exits with 0 only when all parsed; the oracle's verdict is exact, and it
      exits with 0 only when it compared something and no word or link was
      dropped in silence; a named runtime is probed alone, the
      wait for a probe ends, a pinned image belongs to its service.
    - Start-up: validated accounts satisfy the rules the rest relies on,
      inheritance is per key, passwords come from the first source that has one,
      the recorded folder policy is the one in force; a start continues the log
      it finds and a run's end is recorded as it was; passwords are sent only
      on a verified channel, every attempt to connect comes to its verdict
      in time and leaves one record, written after it.

    Lemmas outside these groups that contradict a comment or a document of the
    repository, or exhibit a defect, are collected in the findings of the
    manifest.

    ** Bounds and fuel

    Recursion on strings, lists and trees is structural.  Fuel is used where the
    code loops on an index or a cursor: the readers of printed keys and sets
    (fuel: the length of the text, each round takes a character), decimal and
    hexadecimal printing (the binary logarithm of the number), the spans of the
    scrubber (twice the number of lines, each round advances the cursor),
    placing an attachment (1001 rounds, the code's own limit of 1000 attempts),
    the walk of raw parts (65 rounds, its depth cap of 64), the depth of MIME
    parts (8, where the code stops), following page cursors (a page for every 25 tools and
    one more), trimming [www.] labels (the length of the
    name).  Each has a lemma that its fuel is enough, or the fuel is the code's
    own bound.

    ** Not modelled

    Cryptography and the bytes of TLS; the parsing of responses by imap-proto;
    the protocol library rmcp between Wire and Server; command-line parsing and
    logging; permissions of the log's directory; UUIDs; serde and schema derivations; Debug and
    Display code that only feeds logs; test servers and build scripts.  These
    are input and output, generated, or belong to the libraries the source
    calls. *)

From Stdlib Require Import ZArith Lia.
From stdpp Require Import base option list numbers strings gmap sorting.

Declare Scope imap_scope.
Delimit Scope imap_scope with imap.
Open Scope imap_scope.
Local Open Scope Z_scope.

(** ** Fallible code: [Result<T, E>] *)

Inductive result (E A : Type) : Type :=
  | Ok (a : A)
  | Err (e : E).
Arguments Ok {E A} _.
Arguments Err {E A} _.

#[export] Instance result_ret E : MRet (result E) := fun A a => Ok a.
#[export] Instance result_bind E : MBind (result E) := fun A B f r =>
  match r with Ok a => f a | Err e => Err e end.
#[export] Instance result_fmap E : FMap (result E) := fun A B f r =>
  match r with Ok a => Ok (f a) | Err e => Err e end.
#[export] Instance result_eq_dec E A `{EqDecision E} `{EqDecision A} :
  EqDecision (result E A).
Proof. solve_decision. Defined.

Lemma bind_ok {E A B} (m : result E A) (f : A -> result E B) b :
  (m ≫= f) = Ok b -> exists a, m = Ok a /\ f a = Ok b.
Proof. destruct m as [a|]; [|done]. cbn. eauto. Qed.

Definition is_ok {E A} (r : result E A) : bool :=
  match r with Ok _ => true | Err _ => false end.

Definition map_err {E F A} (f : E -> F) (r : result E A) : result F A :=
  match r with Ok a => Ok a | Err e => Err (f e) end.

(** [ensure b e] is the early return [if !b { return Err(e) }]. *)
Definition ensure {E} (b : bool) (e : E) : result E unit :=
  if b then Ok tt else Err e.

(** ** Machine integers *)

Definition u32_max : Z := 2 ^ 32 - 1.
Definition u64_max : Z := 2 ^ 64 - 1.
Definition i64_max : Z := 2 ^ 63 - 1.
Definition i64_min : Z := - 2 ^ 63.

Definition in_u32 (n : Z) : Prop := 0 <= n <= u32_max.
Definition in_u64 (n : Z) : Prop := 0 <= n <= u64_max.

Definition u64_saturating_add (a b : Z) : Z := Z.min u64_max (a + b).

(** ** [std::time::Duration], in nanoseconds

    A duration holds a [u64] of whole seconds and the nanoseconds below
    one second, so its maximum is [2^64 * 10^9 - 1] nanoseconds. *)

Definition duration := Z.
Definition nanos_per_sec : Z := 1000000000.
Definition nanos_per_milli : Z := 1000000.
Definition duration_max : Z := 2 ^ 64 * nanos_per_sec - 1.
Definition from_secs (s : Z) : duration := s * nanos_per_sec.
Definition as_millis (d : duration) : Z := d / nanos_per_milli.
Definition dur_saturating_sub (a b : duration) : duration := Z.max 0 (a - b).
Definition dur_saturating_mul (a : duration) (k : Z) : duration :=
  Z.min duration_max (a * k).
(** [Duration + Duration] panics on overflow: [None] is the panic. *)
Definition dur_add (a b : duration) : option duration :=
  if a + b <=? duration_max then Some (a + b) else None.

(** ** Automation *)

Create HintDb imap.

(** Turn the boolean comparisons in the context and the goal into
    propositions. *)
Ltac zify_bool :=
  repeat match goal with
  | H : (_ <=? _) = true |- _ => apply Z.leb_le in H
  | H : (_ <=? _) = false |- _ => apply Z.leb_gt in H
  | H : (_ <? _) = true |- _ => apply Z.ltb_lt in H
  | H : (_ <? _) = false |- _ => apply Z.ltb_ge in H
  | H : (_ =? _) = true |- _ => apply Z.eqb_eq in H
  | H : (_ =? _) = false |- _ => apply Z.eqb_neq in H
  | H : (_ && _)%bool = true |- _ => apply andb_true_iff in H; destruct H
  | H : (_ || _)%bool = false |- _ => apply orb_false_iff in H; destruct H
  | H : negb _ = true |- _ => apply negb_true_iff in H
  | H : negb _ = false |- _ => apply negb_false_iff in H
  end.

(** Case on the innermost [if]/[match] of the goal, keeping the equation. *)
Ltac case_goal :=
  match goal with
  | |- context [match ?x with _ => _ end] =>
      lazymatch x with
      | context [match _ with _ => _ end] => fail
      | _ => let E := fresh "E" in destruct x eqn:E
      end
  end.
Ltac case_hyp H :=
  match type of H with
  | context [match ?x with _ => _ end] =>
      lazymatch x with
      | context [match _ with _ => _ end] => fail
      | _ => let E := fresh "E" in destruct x eqn:E
      end
  end.

(** ** Lists *)

Section lists.
  Context {A : Type}.
  Implicit Types (l : list A).

Lemma filter_all (P : A -> Prop) `{!forall x, Decision (P x)} l :
    Forall P l -> filter P l = l.
  Proof.
    induction 1 as [|x l Hx _ IH]; [done|].
    rewrite filter_cons, decide_True by done. by f_equal.
  Qed.

Lemma filter_none (P : A -> Prop) `{!forall x, Decision (P x)} l :
    Forall (fun x => ~ P x) l -> filter P l = [].
  Proof.
    induction 1 as [|x l Hx _ IH]; [done|].
    rewrite filter_cons, decide_False by done. done.
  Qed.

Lemma filter_ext_Forall (P Q : A -> Prop)
      `{!forall x, Decision (P x), !forall x, Decision (Q x)} l :
    Forall (fun x => P x <-> Q x) l -> filter P l = filter Q l.
  Proof.
    induction 1 as [|x l Hx _ IH]; [done|]. rewrite !filter_cons, IH.
    destruct (decide (P x)), (decide (Q x)); naive_solver.
  Qed.

Lemma StronglySorted_filter (R : A -> A -> Prop) (P : A -> Prop)
      `{!forall x, Decision (P x)} l :
    StronglySorted R l -> StronglySorted R (filter P l).
  Proof.
    induction 1 as [|t q Hs IH Hall]; [constructor|]. rewrite filter_cons.
    case_decide; [|done]. constructor; [done|]. apply Forall_forall. intros x.
    rewrite list_elem_of_filter. rewrite Forall_forall in Hall. naive_solver.
  Qed.

Lemma StronglySorted_snoc (R : A -> A -> Prop) l x :
    StronglySorted R l -> Forall (fun y => R y x) l -> StronglySorted R (l ++ [x]).
  Proof.
    induction 1 as [|y q Hs IH Hall]; intros Hf; cbn; [repeat constructor|].
    inv Hf. constructor; [auto|]. apply Forall_app. auto.
  Qed.
Lemma sublist_filter_bool (p : A -> bool) l : sublist (List.filter p l) l.
  Proof. induction l as [|x l IH]; cbn; [constructor|]. destruct (p x); by constructor. Qed.

Lemma NoDup_reverse_rev l : NoDup l -> NoDup (rev l).
  Proof. intros H. by rewrite <- Permutation_rev. Qed.
End lists.
