(* ===== verification/RustStr.v ===== *)
(** * Rust strings and characters

    A [char] is its Unicode scalar value, a [&str] the list of its
    characters; the byte length and the bytes are those of its UTF-8
    encoding.  The operations of the standard library the source calls are
    defined here; the ones that need Unicode tables beyond a fixed list
    (full case mapping) are parameters where they are used. *)

From Stdlib Require Import ZArith Lia Ascii String.
From stdpp Require Import base option list numbers sets.
From S2P Require Import Prelude.
Local Open Scope Z_scope.

Notation rstr := (list Z).

(** A string literal of the source (ASCII). *)
Fixpoint lit (s : string) : rstr :=
  match s with
  | EmptyString => []
  | String c s' => Z.of_N (N_of_ascii c) :: lit s'
  end.
Arguments lit s%_string : simpl never.

(** ** UTF-8 *)

Definition is_scalar (c : Z) : Prop := 0 <= c < 0xD800 \/ 0xE000 <= c < 0x110000.

Definition utf8_len (c : Z) : Z :=
  if c <? 0x80 then 1 else if c <? 0x800 then 2 else if c <? 0x10000 then 3 else 4.

Definition utf8_encode (c : Z) : list Z :=
  if c <? 0x80 then [c]
  else if c <? 0x800 then [0xC0 + c / 64; 0x80 + c mod 64]
  else if c <? 0x10000 then [0xE0 + c / 4096; 0x80 + c / 64 mod 64; 0x80 + c mod 64]
  else [0xF0 + c / 262144; 0x80 + c / 4096 mod 64; 0x80 + c / 64 mod 64; 0x80 + c mod 64].

(** [str::len], in bytes, and [str::as_bytes]. *)
Definition str_len (s : rstr) : Z := foldr (fun c n => utf8_len c + n) 0 s.
Definition str_bytes (s : rstr) : list Z := concat (map utf8_encode s).

(** The longest prefix of whole characters within [n] bytes. *)
Fixpoint char_prefix (n : Z) (s : rstr) : rstr :=
  match s with
  | [] => []
  | c :: s' => if utf8_len c <=? n then c :: char_prefix (n - utf8_len c) s' else []
  end.

(** [str::from_utf8]: the well-formed byte sequences of the Unicode standard. *)
Fixpoint utf8_valid (bs : list Z) : bool :=
  let cont c := (0x80 <=? c) && (c <=? 0xBF) in
  match bs with
  | [] => true
  | b :: r =>
      if (0 <=? b) && (b <? 0x80) then utf8_valid r
      else if (0xC2 <=? b) && (b <=? 0xDF) then
        match r with c :: r => cont c && utf8_valid r | _ => false end
      else if (0xE0 <=? b) && (b <=? 0xEF) then
        match r with
        | c :: d :: r =>
            (if b =? 0xE0 then (0xA0 <=? c) && (c <=? 0xBF)
             else if b =? 0xED then (0x80 <=? c) && (c <=? 0x9F) else cont c)
            && cont d && utf8_valid r
        | _ => false
        end
      else if (0xF0 <=? b) && (b <=? 0xF4) then
        match r with
        | c :: d :: e :: r =>
            (if b =? 0xF0 then (0x90 <=? c) && (c <=? 0xBF)
             else if b =? 0xF4 then (0x80 <=? c) && (c <=? 0x8F) else cont c)
            && cont d && cont e && utf8_valid r
        | _ => false
        end
      else false
  end.

(** The characters of well-formed bytes. *)
Fixpoint utf8_chars (bs : list Z) : rstr :=
  match bs with
  | [] => []
  | b :: r =>
      if b <? 0x80 then b :: utf8_chars r
      else if b <? 0xE0 then
        match r with c :: r => ((b - 0xC0) * 64 + (c - 0x80)) :: utf8_chars r | _ => [] end
      else if b <? 0xF0 then
        match r with c :: d :: r => ((b - 0xE0) * 4096 + (c - 0x80) * 64 + (d - 0x80)) :: utf8_chars r | _ => [] end
      else
        match r with
        | c :: d :: e :: r =>
            ((b - 0xF0) * 262144 + (c - 0x80) * 4096 + (d - 0x80) * 64 + (e - 0x80)) :: utf8_chars r
        | _ => []
        end
  end.
Definition from_utf8 (bs : list Z) : option rstr := if utf8_valid bs then Some (utf8_chars bs) else None.

(** ** Character classes *)

Definition between (lo hi c : Z) : bool := (lo <=? c) && (c <=? hi).
Definition is_ascii_digit (c : Z) : bool := between 48 57 c.
Definition is_ascii_uppercase (c : Z) : bool := between 65 90 c.
Definition is_ascii_lowercase (c : Z) : bool := between 97 122 c.
Definition is_ascii_alphabetic (c : Z) : bool := is_ascii_uppercase c || is_ascii_lowercase c.
Definition is_ascii_alphanumeric (c : Z) : bool := is_ascii_alphabetic c || is_ascii_digit c.
Definition is_ascii_graphic (c : Z) : bool := between 33 126 c.
Definition is_ascii (c : Z) : bool := between 0 127 c.
Definition is_ascii_hexdigit (c : Z) : bool :=
  is_ascii_digit c || between 65 70 c || between 97 102 c.
Definition is_ascii_whitespace (c : Z) : bool :=
  (c =? 9) || (c =? 10) || (c =? 12) || (c =? 13) || (c =? 32).

(** [char::is_whitespace]: the White_Space property. *)
Definition is_whitespace (c : Z) : bool :=
  between 9 13 c || (c =? 32) || (c =? 0x85) || (c =? 0xA0) || (c =? 0x1680)
  || between 0x2000 0x200A c || (c =? 0x2028) || (c =? 0x2029) || (c =? 0x202F)
  || (c =? 0x205F) || (c =? 0x3000).

(** [char::is_control]: the general category Cc. *)
Definition is_control (c : Z) : bool := between 0 0x1F c || between 0x7F 0x9F c.
Definition is_ascii_control (c : Z) : bool := between 0 0x1F c || (c =? 0x7F).

Definition ascii_lower (c : Z) : Z := if is_ascii_uppercase c then c + 32 else c.
Definition ascii_upper (c : Z) : Z := if is_ascii_lowercase c then c - 32 else c.
Definition to_ascii_lowercase (s : rstr) : rstr := map ascii_lower s.
Definition to_ascii_uppercase (s : rstr) : rstr := map ascii_upper s.
Definition eq_ignore_ascii_case (a b : rstr) : bool :=
  bool_decide (to_ascii_lowercase a = to_ascii_lowercase b).

(** ** Slices *)

Definition str_eqb (a b : rstr) : bool := bool_decide (a = b).

(** The order of strings. *)
Fixpoint str_leb (a b : rstr) : bool :=
  match a, b with
  | [], _ => true
  | _, [] => false
  | x :: a', y :: b' => if x <? y then true else if y <? x then false else str_leb a' b'
  end.

Fixpoint drop_while (p : Z -> bool) (s : rstr) : rstr :=
  match s with
  | c :: s' => if p c then drop_while p s' else s
  | [] => []
  end.
Definition trim_start_matches := drop_while.
Definition trim_end_matches (p : Z -> bool) (s : rstr) : rstr := rev (drop_while p (rev s)).
Definition trim_matches (p : Z -> bool) (s : rstr) : rstr :=
  trim_end_matches p (trim_start_matches p s).
(** [str::trim]. *)
Definition trim (s : rstr) : rstr := trim_matches is_whitespace s.

(** [str::split(c)]: one piece more than there are separators. *)
Fixpoint split_on (sep : Z) (s : rstr) : list rstr :=
  match s with
  | [] => [[]]
  | c :: s' =>
      if c =? sep then [] :: split_on sep s'
      else match split_on sep s' with
           | p :: ps => (c :: p) :: ps
           | [] => [[c]]
           end
  end.

Fixpoint join (sep : rstr) (ps : list rstr) : rstr :=
  match ps with
  | [] => []
  | [p] => p
  | p :: ps' => p ++ sep ++ join sep ps'
  end.

(** [str::strip_prefix] and [str::starts_with]. *)
Fixpoint strip_prefix (p s : rstr) : option rstr :=
  match p, s with
  | [], _ => Some s
  | a :: p', b :: s' => if a =? b then strip_prefix p' s' else None
  | _ :: _, [] => None
  end.
Definition starts_with (p s : rstr) : bool :=
  match strip_prefix p s with Some _ => true | None => false end.
Definition strip_suffix (p s : rstr) : option rstr :=
  match strip_prefix (rev p) (rev s) with Some r => Some (rev r) | None => None end.
Definition ends_with (p s : rstr) : bool :=
  match strip_suffix p s with Some _ => true | None => false end.

(** [str::contains(&str)]. *)
Fixpoint contains (p s : rstr) : bool :=
  starts_with p s || match s with [] => false | _ :: s' => contains p s' end.

(** [str::split_once(c)]. *)
Fixpoint split_once (sep : Z) (s : rstr) : option (rstr * rstr) :=
  match s with
  | [] => None
  | c :: s' =>
      if c =? sep then Some ([], s')
      else '(a, b) ← split_once sep s'; Some (c :: a, b)
  end.

(** [str::rsplit_once(c)]. *)
Definition rsplit_once (sep : Z) (s : rstr) : option (rstr * rstr) :=
  '(b, a) ← split_once sep (rev s); Some (rev a, rev b).

(** ** Decimal numbers: [u32::to_string], [str::parse] on digits *)

Definition digit_val (c : Z) : Z := c - 48.
Definition parse_digits (s : rstr) : Z := fold_left (fun n c => n * 10 + digit_val c) s 0.

Fixpoint digits_fuel (fuel : nat) (n : Z) : rstr :=
  match fuel with
  | O => []
  | S f => if n <? 10 then [48 + n] else digits_fuel f (n / 10) ++ [48 + n mod 10]
  end.
(** Enough fuel for any integer of at most 64 bits (20 digits) and far beyond. *)
Definition to_decimal (n : Z) : rstr := digits_fuel (S (Z.to_nat (Z.log2 n))) n.

Arguments to_decimal : simpl never.

(** A [match] on string literals. *)
Fixpoint match_str {A} (table : list (rstr * A)) (s : rstr) : option A :=
  match table with
  | [] => None
  | (k, v) :: t => if str_eqb k s then Some v else match_str t s
  end.

(** ** Lemmas *)

Lemma str_eqb_eq a b : str_eqb a b = true <-> a = b.
Proof. unfold str_eqb. apply bool_decide_eq_true. Qed.

Lemma match_str_Some {A} (t : list (rstr * A)) s v :
  match_str t s = Some v -> (s, v) ∈ t.
Proof.
  induction t as [|[k w] t IH]; cbn; [done|]. case_goal; intros H.
  - apply str_eqb_eq in E. simplify_eq. left.
  - right. auto.
Qed.

Lemma strip_prefix_Some p s r : strip_prefix p s = Some r <-> s = p ++ r.
Proof.
  revert s. induction p as [|a p IH]; intros s; cbn; [naive_solver|].
  destruct s as [|b s]; [naive_solver|]. destruct (a =? b) eqn:E; zify_bool.
  - subst. rewrite IH. naive_solver.
  - naive_solver.
Qed.

Lemma strip_prefix_app p r : strip_prefix p (p ++ r) = Some r.
Proof. by apply strip_prefix_Some. Qed.

Lemma starts_with_spec p s : starts_with p s = true <-> exists r, s = p ++ r.
Proof.
  unfold starts_with. destruct (strip_prefix p s) as [r|] eqn:E.
  - apply strip_prefix_Some in E. naive_solver.
  - split; [done|]. intros [r ->]. by rewrite strip_prefix_app in E.
Qed.

Lemma split_on_nonempty sep s : split_on sep s <> [].
Proof. destruct s; cbn; [done|]. repeat case_goal; done. Qed.

Lemma join_split sep s : join [sep] (split_on sep s) = s.
Proof.
  induction s as [|c s IH]; [done|]. cbn [split_on].
  pose proof (split_on_nonempty sep s) as Hne.
  destruct (c =? sep) eqn:E; zify_bool.
  - subst. destruct (split_on sep s); [done|]. cbn in *. by rewrite IH.
  - destruct (split_on sep s) as [|p [|p' ps]]; [done|..]; cbn in *; by rewrite IH.
Qed.

Lemma split_on_no_sep sep s : Forall (fun p => ~ sep ∈ p) (split_on sep s).
Proof.
  induction s as [|c s IH]; cbn; [repeat constructor; set_solver|].
  destruct (c =? sep) eqn:E; zify_bool; [constructor; [set_solver|done]|].
  destruct (split_on sep s); inversion IH; subst; repeat constructor; set_solver.
Qed.

Lemma split_once_Some sep s a b :
  split_once sep s = Some (a, b) <-> s = a ++ sep :: b /\ ~ sep ∈ a.
Proof.
  revert a. induction s as [|c s IH]; intros a; cbn.
  - split; [done|]. intros [H _]. by destruct a.
  - destruct (c =? sep) eqn:E; zify_bool.
    + subst. split; intros H; simplify_eq; [set_solver|].
      destruct H as [H Hn]. destruct a as [|x a]; cbn in *; simplify_eq; [done|set_solver].
    + destruct (split_once sep s) as [[a' b']|] eqn:Es; cbn.
      * split; intros H; simplify_eq.
        -- destruct (proj1 (IH a') eq_refl) as [-> Hn]. set_solver.
        -- destruct H as [H Hn]. destruct a as [|x a]; cbn in *; simplify_eq.
           assert (Some (a', b') = Some (a, b)) by (apply IH; set_solver). by simplify_eq.
      * split; [done|]. intros [H Hn]. destruct a as [|x a]; cbn in *; simplify_eq.
        assert (None = Some (a, b)) by (apply IH; set_solver). done.
Qed.

Lemma split_once_None sep s : split_once sep s = None <-> ~ sep ∈ s.
Proof.
  induction s as [|c s IH]; cbn; [set_solver|].
  destruct (c =? sep) eqn:E; zify_bool; [set_solver|].
  destruct (split_once sep s) as [[a' b']|]; cbn; [|set_solver].
  split; [done|]. intros H. exfalso. apply H. right.
  destruct (decide (sep ∈ s)); [done|]. by apply IH in n.
Qed.

Lemma utf8_len_pos c : 1 <= utf8_len c <= 4.
Proof. unfold utf8_len. repeat case_goal; lia. Qed.

Lemma str_len_app a b : str_len (a ++ b) = str_len a + str_len b.
Proof. unfold str_len. induction a as [|c a IH]; cbn; [done|]. rewrite IH. lia. Qed.

Lemma str_len_nonneg s : 0 <= str_len s.
Proof. induction s as [|c s IH]; cbn; [lia|]. pose proof (utf8_len_pos c). unfold str_len in IH. lia. Qed.

Lemma char_prefix_within n s : 0 <= n -> str_len (char_prefix n s) <= n.
Proof.
  revert n. induction s as [|c s IH]; intros n Hn; cbn [char_prefix]; [done|].
  destruct (Z.leb_spec (utf8_len c) n); [|done]. specialize (IH (n - utf8_len c) ltac:(lia)).
  change (utf8_len c + str_len (char_prefix (n - utf8_len c) s) <= n). lia.
Qed.
Lemma char_prefix_prefix n s : char_prefix n s `prefix_of` s.
Proof.
  revert n. induction s as [|c s IH]; intros n; cbn [char_prefix]; [done|].
  destruct (utf8_len c <=? n); [|by apply prefix_nil]. by apply prefix_cons.
Qed.
Lemma char_prefix_keeps a b : forall n, str_len a <= n -> char_prefix n (a ++ b) = a ++ char_prefix (n - str_len a) b.
Proof.
  induction a as [|c a IH]; intros n Hn; cbn [app].
  - by replace (n - str_len []) with n by (cbn; lia).
  - change (str_len (c :: a)) with (utf8_len c + str_len a) in *. pose proof (str_len_nonneg a). cbn [char_prefix].
    rewrite (proj2 (Z.leb_le _ _)) by lia. rewrite IH by lia. do 3 f_equal. lia.
Qed.
Lemma str_len_bytes s : str_len s = Z.of_nat (length (str_bytes s)).
Proof.
  unfold str_bytes, str_len. induction s as [|c s IH]; cbn; [done|].
  rewrite length_app, Nat2Z.inj_add, IH. f_equal.
  unfold utf8_len, utf8_encode. by repeat case_goal.
Qed.

Lemma str_len_ascii s : Forall (fun c => 0 <= c < 128) s -> str_len s = Z.of_nat (length s).
Proof.
  induction 1 as [|c s Hc _ IH]; cbn; [done|]. unfold str_len in IH. rewrite IH.
  unfold utf8_len. destruct (c <? 128) eqn:E; zify_bool; lia.
Qed.

Lemma ascii_char_byte c s : c ∈ s -> c < 128 -> c ∈ str_bytes s.
Proof.
  intros Hc Hlt. unfold str_bytes. apply list_elem_of_In, in_concat.
  exists (utf8_encode c). split; [by apply in_map, list_elem_of_In|].
  unfold utf8_encode. destruct (c <? 0x80) eqn:E; zify_bool; [by left|lia].
Qed.

Lemma ascii_lower_idem c : ascii_lower (ascii_lower c) = ascii_lower c.
Proof.
  unfold ascii_lower, is_ascii_uppercase, between.
  repeat (case_goal; zify_bool); lia.
Qed.

Lemma to_ascii_lowercase_idem s :
  to_ascii_lowercase (to_ascii_lowercase s) = to_ascii_lowercase s.
Proof. unfold to_ascii_lowercase. rewrite map_map. apply map_ext, ascii_lower_idem. Qed.

Lemma split_on_plain sep s : ~ sep ∈ s -> split_on sep s = [s].
Proof.
  induction s as [|c s IH]; [done|]. intros Hn. cbn.
  destruct (c =? sep) eqn:E; zify_bool; [set_solver|]. rewrite IH by set_solver. done.
Qed.

Lemma split_on_app sep a b :
  split_on sep (a ++ sep :: b) = split_on sep a ++ split_on sep b.
Proof.
  induction a as [|c a IH]; cbn; [by rewrite Z.eqb_refl|].
  destruct (c =? sep); [by rewrite IH|]. rewrite IH.
  pose proof (split_on_nonempty sep a). by destruct (split_on sep a).
Qed.

Lemma join_cons sep p ps : ps <> [] -> join sep (p :: ps) = p ++ sep ++ join sep ps.
Proof. by destruct ps. Qed.

Lemma join_app sep l1 l2 :
  l1 <> [] -> l2 <> [] -> join sep (l1 ++ l2) = join sep l1 ++ sep ++ join sep l2.
Proof.
  induction l1 as [|p l1 IH]; [done|]. intros _ H2.
  destruct l1 as [|q l1]; [by apply join_cons|].
  change ((p :: q :: l1) ++ l2) with (p :: ((q :: l1) ++ l2)).
  rewrite (join_cons _ p (q :: l1)) by done. rewrite join_cons by done.
  rewrite IH by done. by rewrite <- !app_assoc.
Qed.

(** A piece is a maximal stretch without separators. *)
Lemma split_on_elem sep s p :
  p ∈ split_on sep s <->
  ~ sep ∈ p /\ exists pre post, s = pre ++ p ++ post /\
    (pre = [] \/ exists x, pre = x ++ [sep]) /\ (post = [] \/ exists y, post = sep :: y).
Proof.
  split.
  - intros Hp. split.
    { pose proof (split_on_no_sep sep s) as Hf. rewrite Forall_forall in Hf. auto. }
    pose proof (join_split sep s) as Hj. apply list_elem_of_split in Hp as (l1 & l2 & Hs).
    rewrite Hs in Hj.
    exists (match l1 with [] => [] | _ => join [sep] l1 ++ [sep] end),
           (match l2 with [] => [] | _ => sep :: join [sep] l2 end).
    split; [|by destruct l1, l2; eauto 10]. rewrite <- Hj.
    assert (Hp : join [sep] (p :: l2) = p ++ match l2 with [] => [] | _ => sep :: join [sep] l2 end)
      by (destruct l2; [by cbn; rewrite app_nil_r|by rewrite join_cons by done]).
    destruct l1 as [|a l1]; [exact Hp|]. rewrite join_app by done. rewrite Hp.
    by rewrite <- app_assoc.
  - intros (Hn & pre & post & -> & Hpre & Hpost).
    assert (Hmid : p ∈ split_on sep (p ++ post)).
    { destruct Hpost as [->|[y ->]].
      - rewrite app_nil_r, split_on_plain by done. by left.
      - rewrite split_on_app, split_on_plain by done. by left. }
    destruct Hpre as [->|[x ->]]; [done|].
    rewrite <- app_assoc. cbn [app]. rewrite split_on_app, elem_of_app. by right.
Qed.

Lemma drop_while_nil p s : drop_while p s = [] <-> Forall (fun c => p c = true) s.
Proof.
  induction s as [|c s IH]; cbn; [split; [constructor|done]|].
  rewrite Forall_cons. destruct (p c); naive_solver.
Qed.

Lemma drop_while_suffix p s : exists pre, s = pre ++ drop_while p s /\ Forall (fun c => p c = true) pre.
Proof.
  induction s as [|c s IH]; cbn; [by exists []|]. destruct (p c) eqn:E; [|by exists []].
  destruct IH as (pre & Hs & Hp). exists (c :: pre). cbn. rewrite <- Hs. auto.
Qed.

Lemma Forall_rev_iff {A} (P : A -> Prop) l : Forall P (rev l) <-> Forall P l.
Proof.
  split; intros Hl; [|by apply List.Forall_rev].
  rewrite <- (rev_involutive l). by apply List.Forall_rev.
Qed.

Lemma trim_nil s : trim s = [] <-> Forall (fun c => is_whitespace c = true) s.
Proof.
  unfold trim, trim_matches, trim_end_matches, trim_start_matches. split.
  - intros Hr. apply (f_equal (@rev Z)) in Hr. rewrite rev_involutive in Hr. cbn in Hr.
    apply drop_while_nil in Hr. rewrite Forall_rev_iff in Hr.
    destruct (drop_while_suffix is_whitespace s) as (pre & -> & Hp).
    by apply Forall_app.
  - intros Hs. by rewrite (proj2 (drop_while_nil _ s) Hs).
Qed.

(** ** Decimal round trip *)

Lemma parse_digits_snoc s c : parse_digits (s ++ [c]) = parse_digits s * 10 + digit_val c.
Proof. unfold parse_digits. by rewrite fold_left_app. Qed.

Lemma digits_fuel_spec f n :
  0 <= n < 10 ^ Z.of_nat f ->
  parse_digits (digits_fuel f n) = n /\
  Forall (fun c => is_ascii_digit c = true) (digits_fuel f n) /\
  ((0 < f)%nat -> digits_fuel f n <> []).
Proof.
  revert n. induction f as [|f IH]; intros n Hn; cbn [digits_fuel].
  { rewrite Z.pow_0_r in Hn. split; [cbn; lia|]. split; [constructor|lia]. }
  assert (Hdig : forall d, 0 <= d < 10 -> is_ascii_digit (48 + d) = true).
  { intros d Hd. unfold is_ascii_digit, between. apply andb_true_iff. rewrite !Z.leb_le. lia. }
  destruct (n <? 10) eqn:E; zify_bool.
  - split; [cbn; unfold digit_val; lia|]. split; [|done]. repeat constructor. apply Hdig. lia.
  - rewrite Nat2Z.inj_succ, Z.pow_succ_r in Hn by lia.
    pose proof (Z.div_mod n 10 ltac:(lia)). pose proof (Z.mod_pos_bound n 10 ltac:(lia)).
    destruct (IH (n / 10)) as (Hv & Hd & _).
    { split; [apply Z.div_pos; lia|]. apply Z.div_lt_upper_bound; lia. }
    rewrite parse_digits_snoc, Hv. split; [unfold digit_val; lia|]. split.
    + apply Forall_app. split; [done|]. repeat constructor. apply Hdig. lia.
    + by destruct (digits_fuel f (n / 10)).
Qed.

Lemma to_decimal_spec n :
  0 <= n ->
  parse_digits (to_decimal n) = n /\
  Forall (fun c => is_ascii_digit c = true) (to_decimal n) /\ to_decimal n <> [].
Proof.
  intros Hn. unfold to_decimal.
  assert (Hlt : 0 <= n < 10 ^ Z.of_nat (S (Z.to_nat (Z.log2 n)))).
  { split; [done|]. pose proof (Z.log2_nonneg n).
    rewrite Nat2Z.inj_succ, Z2Nat.id by lia.
    destruct (decide (n = 0)) as [->|]; [by vm_compute|].
    apply Z.lt_le_trans with (2 ^ Z.succ (Z.log2 n)); [by apply Z.log2_spec; lia|].
    apply Z.pow_le_mono_l. lia. }
  destruct (digits_fuel_spec _ n Hlt) as (? & ? & ?). split; [done|]. split; [done|].
  auto with lia.
Qed.

Lemma to_decimal_inj n m : 0 <= n -> 0 <= m -> to_decimal n = to_decimal m -> n = m.
Proof.
  intros Hn Hm He. destruct (to_decimal_spec n Hn) as [<- _].
  destruct (to_decimal_spec m Hm) as [<- _]. by rewrite He.
Qed.

Lemma digits_no_char n c : 0 <= n -> is_ascii_digit c = false -> ~ c ∈ to_decimal n.
Proof.
  intros Hn Hc Hin. destruct (to_decimal_spec n Hn) as (_ & Hd & _).
  rewrite Forall_forall in Hd. apply Hd in Hin. congruence.
Qed.

Lemma parse_digits_nonneg s : Forall (fun c => is_ascii_digit c = true) s -> 0 <= parse_digits s.
Proof.
  induction s as [|c s IH] using rev_ind; [by cbn|]. rewrite Forall_app.
  intros [Hs Hc]. inversion Hc as [|? ? Hd]; subst. rewrite parse_digits_snoc.
  unfold digit_val, is_ascii_digit, between in *. zify_bool. specialize (IH Hs). lia.
Qed.

Lemma split_join sep ps :
  ps <> [] -> Forall (fun p => ~ sep ∈ p) ps -> split_on sep (join [sep] ps) = ps.
Proof.
  intros Hne Hps. induction Hps as [|p ps Hp Hps IH]; [done|].
  destruct ps as [|q ps]; [by apply split_on_plain|].
  rewrite join_cons by done. cbn [app]. rewrite split_on_app, split_on_plain, IH by done. done.
Qed.

Lemma utf8_valid_ascii bs : Forall (fun b => 0 <= b < 128) bs -> utf8_valid bs = true.
Proof.
  induction 1 as [|b bs Hb _ IH]; [done|]. cbn [utf8_valid].
  rewrite (proj2 (Z.leb_le 0 b)), (proj2 (Z.ltb_lt b 0x80)) by lia. exact IH.
Qed.

(** Decoding well-formed bytes and encoding them again gives them back. *)
Lemma encode_two b c : 0xC2 <= b <= 0xDF -> 0x80 <= c <= 0xBF -> utf8_encode ((b - 0xC0) * 64 + (c - 0x80)) = [b; c].
Proof.
  intros Hb Hc. unfold utf8_encode. remember ((b - 0xC0) * 64 + (c - 0x80)) as v eqn:Hv.
  destruct (Z.ltb_spec v 0x80), (Z.ltb_spec v 0x800); try lia.
  assert (E : v / 64 = b - 0xC0) by (symmetry; apply (Z.div_unique v 64 _ (c - 0x80)); lia).
  assert (F : v mod 64 = c - 0x80) by (symmetry; apply (Z.mod_unique v 64 (b - 0xC0)); lia).
  rewrite E, F. repeat f_equal; lia.
Qed.
Lemma encode_three b c d : 0xE0 <= b <= 0xEF -> 0x80 <= c <= 0xBF -> 0x80 <= d <= 0xBF -> (b = 0xE0 -> 0xA0 <= c) ->
  utf8_encode ((b - 0xE0) * 4096 + (c - 0x80) * 64 + (d - 0x80)) = [b; c; d].
Proof.
  intros Hb Hc Hd Hlow. unfold utf8_encode. remember ((b - 0xE0) * 4096 + (c - 0x80) * 64 + (d - 0x80)) as v eqn:Hv.
  destruct (Z.ltb_spec v 0x80), (Z.ltb_spec v 0x800), (Z.ltb_spec v 0x10000); try lia.
  assert (E1 : v / 4096 = b - 0xE0) by (symmetry; apply (Z.div_unique v 4096 _ ((c - 0x80) * 64 + (d - 0x80))); lia).
  assert (E2 : v / 64 = (b - 0xE0) * 64 + (c - 0x80)) by (symmetry; apply (Z.div_unique v 64 _ (d - 0x80)); lia).
  assert (E3 : v mod 64 = d - 0x80) by (symmetry; apply (Z.mod_unique v 64 ((b - 0xE0) * 64 + (c - 0x80))); lia).
  assert (E4 : (v / 64) mod 64 = c - 0x80) by (rewrite E2; symmetry; apply (Z.mod_unique _ 64 (b - 0xE0)); lia).
  rewrite E1, E3, E4. repeat f_equal; lia.
Qed.
Lemma encode_four b c d e : 0xF0 <= b <= 0xF4 -> 0x80 <= c <= 0xBF -> 0x80 <= d <= 0xBF -> 0x80 <= e <= 0xBF ->
  (b = 0xF0 -> 0x90 <= c) ->
  utf8_encode ((b - 0xF0) * 262144 + (c - 0x80) * 4096 + (d - 0x80) * 64 + (e - 0x80)) = [b; c; d; e].
Proof.
  intros Hb Hc Hd He Hlow. unfold utf8_encode.
  remember ((b - 0xF0) * 262144 + (c - 0x80) * 4096 + (d - 0x80) * 64 + (e - 0x80)) as v eqn:Hv.
  destruct (Z.ltb_spec v 0x80), (Z.ltb_spec v 0x800), (Z.ltb_spec v 0x10000); try lia.
  assert (E1 : v / 262144 = b - 0xF0)
    by (symmetry; apply (Z.div_unique v 262144 _ ((c - 0x80) * 4096 + (d - 0x80) * 64 + (e - 0x80))); lia).
  assert (E2 : v / 4096 = (b - 0xF0) * 64 + (c - 0x80))
    by (symmetry; apply (Z.div_unique v 4096 _ ((d - 0x80) * 64 + (e - 0x80))); lia).
  assert (E3 : v / 64 = (b - 0xF0) * 4096 + (c - 0x80) * 64 + (d - 0x80))
    by (symmetry; apply (Z.div_unique v 64 _ (e - 0x80)); lia).
  assert (E4 : v mod 64 = e - 0x80)
    by (symmetry; apply (Z.mod_unique v 64 ((b - 0xF0) * 4096 + (c - 0x80) * 64 + (d - 0x80))); lia).
  assert (E5 : (v / 4096) mod 64 = c - 0x80) by (rewrite E2; symmetry; apply (Z.mod_unique _ 64 (b - 0xF0)); lia).
  assert (E6 : (v / 64) mod 64 = d - 0x80)
    by (rewrite E3; symmetry; apply (Z.mod_unique _ 64 ((b - 0xF0) * 64 + (c - 0x80))); lia).
  rewrite E1, E4, E5, E6. repeat f_equal; lia.
Qed.

Ltac split_byte_checks :=
  repeat match goal with
  | H : _ && _ = true |- _ => apply andb_true_iff in H as [? ?]
  | H : (_ <=? _) = true |- _ => apply Z.leb_le in H
  | H : (_ =? _) = true |- _ => apply Z.eqb_eq in H
  | H : (_ =? _) = false |- _ => apply Z.eqb_neq in H
  end.

Lemma from_utf8_bytes bs s : from_utf8 bs = Some s -> str_bytes s = bs.
Proof.
  unfold from_utf8. destruct (utf8_valid bs) eqn:Hv; [|done]. intros [= <-]. revert Hv.
  induction bs as [bs IH] using (induction_ltof1 _ (@length Z)). unfold ltof in IH.
  destruct bs as [|b r]; [done|]. cbn [utf8_valid utf8_chars].
  destruct ((0 <=? b) && (b <? 0x80)) eqn:E1.
  { apply andb_true_iff in E1 as [_ E1]. rewrite E1. intros Hr. change (str_bytes (b :: utf8_chars r))
      with (utf8_encode b ++ str_bytes (utf8_chars r)). rewrite IH by (done || cbn; lia). unfold utf8_encode. by rewrite E1. }
  assert (Hge : forall x y, (x <=? b) && (b <=? y) = true -> 0x80 <= x -> (b <? 0x80) = false).
  { intros x y Hxy Hx. apply andb_true_iff in Hxy as [Hxy _]. apply Z.leb_le in Hxy. apply Z.ltb_ge. lia. }
  destruct ((0xC2 <=? b) && (b <=? 0xDF)) eqn:E2.
  { rewrite (Hge _ _ E2) by lia. split_byte_checks. rewrite (proj2 (Z.ltb_lt b 0xE0)) by lia.
    destruct r as [|c r]; [done|]. intros Hr. split_byte_checks.
    change (str_bytes (?x :: utf8_chars r)) with (utf8_encode x ++ str_bytes (utf8_chars r)).
    rewrite IH by (done || cbn; lia). by rewrite encode_two by lia. }
  destruct ((0xE0 <=? b) && (b <=? 0xEF)) eqn:E3.
  { rewrite (Hge _ _ E3) by lia. split_byte_checks. rewrite (proj2 (Z.ltb_ge b 0xE0)), (proj2 (Z.ltb_lt b 0xF0)) by lia.
    destruct r as [|c [|d r]]; [done..|]. intros Hr. split_byte_checks.
    change (str_bytes (?x :: utf8_chars r)) with (utf8_encode x ++ str_bytes (utf8_chars r)).
    rewrite IH by (done || cbn; lia).
    destruct (b =? 0xE0) eqn:Eb, (b =? 0xED) eqn:Ed; split_byte_checks; by rewrite encode_three by lia. }
  destruct ((0xF0 <=? b) && (b <=? 0xF4)) eqn:E4; [|done].
  rewrite (Hge _ _ E4) by lia. split_byte_checks. rewrite (proj2 (Z.ltb_ge b 0xE0)), (proj2 (Z.ltb_ge b 0xF0)) by lia.
  destruct r as [|c [|d [|e r]]]; [done..|]. intros Hr. split_byte_checks.
  change (str_bytes (?x :: utf8_chars r)) with (utf8_encode x ++ str_bytes (utf8_chars r)).
  rewrite IH by (done || cbn; lia).
  destruct (b =? 0xF0) eqn:Eb, (b =? 0xF4) eqn:Ed; split_byte_checks; by rewrite encode_four by lia.
Qed.
