(* ===== verification/Tools.v ===== *)
(** * Postures, tools and the posture matrix

    crates/rimap-core/src/posture.rs, tool.rs and posture_matrix.rs: the
    enumerations with their string forms, the quota and annotation
    classifications, and the table every authorization decision starts
    from. *)

From Stdlib Require Import ZArith.
From stdpp Require Import base option list strings countable.
From S2P Require Import Prelude RustStr.
Local Open Scope Z_scope.

(* [crates/rimap-core/src/posture.rs:11-22] Posture *)
Inductive Posture := Readonly | DraftSafe | Full | Destructive.
#[export] Instance Posture_eq_dec : EqDecision Posture.
Proof. solve_decision. Defined.

(* [crates/rimap-core/src/posture.rs:27-34] Posture::as_str *)
Definition posture_as_str (p : Posture) : rstr :=
  match p with
  | Readonly => lit "readonly"
  | DraftSafe => lit "draft-safe"
  | Full => lit "full"
  | Destructive => lit "destructive"
  end.

(* [crates/rimap-core/src/posture.rs:38-45] Posture::all *)
Definition all_postures : list Posture := [Readonly; DraftSafe; Full; Destructive].

(* [crates/rimap-core/src/posture.rs:59-71] Posture::from_str *)
Definition posture_from_str (s : rstr) : result rstr Posture :=
  match match_str [(lit "readonly", Readonly); (lit "draft-safe", DraftSafe);
                   (lit "full", Full); (lit "destructive", Destructive)] s with
  | Some p => Ok p
  | None => Err s
  end.

(* [crates/rimap-core/src/tool.rs:16-76] ToolName *)
Inductive ToolName :=
  | ListFolders
  | Search
  | SearchAdvanced
  | FetchMessage
  | FetchMessageHtml
  | ListAttachments
  | DownloadAttachment
  | ExportMessages
  | MarkRead
  | MarkUnread
  | Flag
  | Unflag
  | AddLabel
  | RemoveLabel
  | ListLabels
  | MoveMessage
  | CreateDraft
  | CreateDraftHtml
  | SendEmail
  | Forward
  | DeleteMessage
  | Expunge
  | CreateFolder
  | RenameFolder
  | DeleteFolder
  | UseAccount
  | ListAccounts.
#[export] Instance ToolName_eq_dec : EqDecision ToolName.
Proof. solve_decision. Defined.

(* [crates/rimap-core/src/tool.rs:83-113] ToolName::as_str *)
Definition as_str (t : ToolName) : rstr :=
  match t with
  | ListFolders => lit "list_folders"
  | Search => lit "search"
  | SearchAdvanced => lit "search.advanced_query"
  | FetchMessage => lit "fetch_message"
  | FetchMessageHtml => lit "fetch_message.include_html"
  | ListAttachments => lit "list_attachments"
  | DownloadAttachment => lit "download_attachment"
  | ExportMessages => lit "export_messages"
  | MarkRead => lit "mark_read"
  | MarkUnread => lit "mark_unread"
  | Flag => lit "flag"
  | Unflag => lit "unflag"
  | AddLabel => lit "add_label"
  | RemoveLabel => lit "remove_label"
  | ListLabels => lit "list_labels"
  | MoveMessage => lit "move_message"
  | CreateDraft => lit "create_draft"
  | CreateDraftHtml => lit "create_draft.include_html"
  | SendEmail => lit "send_email"
  | Forward => lit "forward"
  | DeleteMessage => lit "delete_message"
  | Expunge => lit "expunge"
  | CreateFolder => lit "create_folder"
  | RenameFolder => lit "rename_folder"
  | DeleteFolder => lit "delete_folder"
  | UseAccount => lit "use_account"
  | ListAccounts => lit "list_accounts"
  end.

(* [crates/rimap-core/src/tool.rs:120-122] ToolName::all *)
Definition all_tools : list ToolName := [
  ListFolders;
  Search;
  SearchAdvanced;
  FetchMessage;
  FetchMessageHtml;
  ListAttachments;
  DownloadAttachment;
  ExportMessages;
  MarkRead;
  MarkUnread;
  Flag;
  Unflag;
  AddLabel;
  RemoveLabel;
  ListLabels;
  MoveMessage;
  CreateDraft;
  CreateDraftHtml;
  SendEmail;
  Forward;
  DeleteMessage;
  Expunge;
  CreateFolder;
  RenameFolder;
  DeleteFolder;
  UseAccount;
  ListAccounts].

(* [crates/rimap-core/src/tool.rs:129-161] ToolName::is_infrastructure *)
Definition is_infrastructure (t : ToolName) : bool :=
  match t with
  | UseAccount | ListAccounts => true
  | _ => false
  end.

(* [crates/rimap-core/src/tool.rs:168-197] ToolName::is_draft_quota_gated *)
Definition is_draft_quota_gated (t : ToolName) : bool :=
  match t with
  | CreateDraft | CreateDraftHtml => true
  | _ => false
  end.

(* [crates/rimap-core/src/tool.rs:204-233] ToolName::is_send_quota_gated *)
Definition is_send_quota_gated (t : ToolName) : bool :=
  match t with
  | SendEmail | Forward => true
  | _ => false
  end.

(* [crates/rimap-core/src/tool.rs:256-269] ToolAnnotationHints *)
Record ToolAnnotationHints := mkHints {
  read_only : bool;
  destructive : bool;
  idempotent : bool;
  open_world : bool;
}.

(* [crates/rimap-core/src/tool.rs:277-341] ToolName::annotation_hints *)
Definition annotation_hints (t : ToolName) : ToolAnnotationHints :=
  match t with
  | ListFolders | Search | SearchAdvanced | FetchMessage | FetchMessageHtml
  | ListAttachments | ListLabels => mkHints true false false true
  | ListAccounts => mkHints true false false false
  | UseAccount => mkHints false false true false
  | MarkRead | MarkUnread | Flag | Unflag | AddLabel | RemoveLabel
  | DownloadAttachment => mkHints false false true true
  | MoveMessage | CreateDraft | CreateDraftHtml | RenameFolder | CreateFolder
  | ExportMessages => mkHints false false false true
  | SendEmail | Forward | DeleteMessage | Expunge | DeleteFolder =>
      mkHints false true false true
  end.

(* [crates/rimap-core/src/tool.rs:358-369] ToolName::from_str *)
Definition tool_from_str (s : rstr) : result rstr ToolName :=
  match List.find (fun t => str_eqb (as_str t) s) all_tools with
  | Some t => Ok t
  | None => Err s
  end.

(* [crates/rimap-core/src/posture_matrix.rs:14-48] POSTURE_MATRIX *)
Definition POSTURE_MATRIX : list (ToolName * list bool) := [
  (ListFolders, [true; true; true; true]);
  (Search, [true; true; true; true]);
  (SearchAdvanced, [false; false; true; true]);
  (FetchMessage, [true; true; true; true]);
  (FetchMessageHtml, [false; false; true; true]);
  (ListAttachments, [true; true; true; true]);
  (DownloadAttachment, [true; true; true; true]);
  (ExportMessages, [false; false; false; false]);
  (MarkRead, [false; true; true; true]);
  (MarkUnread, [false; true; true; true]);
  (Flag, [false; true; true; true]);
  (Unflag, [false; true; true; true]);
  (AddLabel, [false; true; true; true]);
  (RemoveLabel, [false; true; true; true]);
  (ListLabels, [true; true; true; true]);
  (MoveMessage, [false; true; true; true]);
  (CreateDraft, [false; true; true; true]);
  (CreateDraftHtml, [false; false; true; true]);
  (SendEmail, [false; false; true; true]);
  (Forward, [false; false; true; true]);
  (DeleteMessage, [false; false; true; true]);
  (CreateFolder, [false; false; true; true]);
  (RenameFolder, [false; false; true; true]);
  (Expunge, [false; false; false; true]);
  (DeleteFolder, [false; false; false; true])].

(* [crates/rimap-core/src/posture_matrix.rs:50-57] posture_index *)
Definition posture_index (p : Posture) : nat :=
  match p with Readonly => 0 | DraftSafe => 1 | Full => 2 | Destructive => 3 end%nat.

(* [crates/rimap-core/src/posture_matrix.rs:65-75] base_allows *)
Definition base_allows (p : Posture) (tool : ToolName) : bool :=
  match List.find (fun '(t, _) => bool_decide (t = tool)) POSTURE_MATRIX with
  | Some (_, row) => nth (posture_index p) row false
  | None => false
  end.

(** ** Lemmas *)

Lemma all_tools_complete t : t ∈ all_tools.
Proof. apply (bool_decide_unpack _). by destruct t. Qed.

Lemma as_str_inj t u : as_str t = as_str u -> t = u.
Proof. by destruct t, u. Qed.

Lemma tool_name_iff s t : tool_from_str s = Ok t <-> s = as_str t.
Proof.
  split.
  - unfold tool_from_str. destruct (List.find _ _) as [u|] eqn:E; [|done].
    intros H. simplify_eq. apply List.find_some in E as [_ E]. by apply str_eqb_eq in E.
  - intros ->. by destruct t.
Qed.

Lemma posture_roundtrip s p : posture_from_str s = Ok p <-> s = posture_as_str p.
Proof.
  split.
  - unfold posture_from_str. destruct (match_str _ s) as [c'|] eqn:E; [|done].
    intros H. simplify_eq. apply match_str_Some in E.
    repeat (apply elem_of_cons in E; destruct E as [E|E]; [by simplify_eq|]).
    by apply elem_of_nil in E.
  - intros ->. by destruct p.
Qed.

(** The order of postures: each row of the matrix only grows along it. *)
Definition posture_le (p q : Posture) : bool := (posture_index p <=? posture_index q)%nat.

Lemma base_allows_monotone p q t :
  posture_le p q = true -> base_allows p t = true -> base_allows q t = true.
Proof. by destruct p, q, t. Qed.

Lemma base_allows_infrastructure p t : is_infrastructure t = true -> base_allows p t = false.
Proof. by destruct p, t. Qed.

(** Positions in declaration order: [ToolName] is the key of a [BTreeMap]. *)
Fixpoint index_of (t : ToolName) (l : list ToolName) : nat :=
  match l with
  | [] => 0
  | u :: l' => if decide (t = u) then 0 else S (index_of t l')
  end.
#[export] Instance ToolName_countable : Countable ToolName.
Proof.
  refine (inj_countable (fun t => index_of t all_tools) (fun n => all_tools !! n) _).
  by intros [].
Defined.

(* [crates/rimap-core/src/credential.rs:21-29] CredentialSource *)
Inductive CredentialSource := Keyring | LegacyKeyring | EnvVar.
