(* ===== verification/Errors.v ===== *)
(** * Error codes and error types

    The stable codes of crates/rimap-core/src/error.rs, the top-level
    [RimapError] and the authorization errors of
    crates/rimap-authz/src/error.rs with their conversion.  The boxed
    [source] errors, which only reporters walk, are left out. *)

From Stdlib Require Import ZArith.
From stdpp Require Import base option list strings.
From S2P Require Import Prelude RustStr Tools.
Local Open Scope Z_scope.

(* [crates/rimap-core/src/error.rs:17-59] ErrorCode *)
Inductive ErrorCode :=
  | EInvalidInput
  | EPostureDenied
  | ERateLimited
  | ECircuitOpen
  | ENotFound
  | EImapProtocol
  | ESmtpProtocol
  | ETls
  | EAuth
  | EConnectionLost
  | ETimeout
  | EAttachmentTooLarge
  | EProtectedFolder
  | EExpungeDenied
  | EConfig
  | EInternal
  | ENoAccount
  | EUnknownAccount
  | ECancelled
  | EUidValidityChanged.
#[export] Instance ErrorCode_eq_dec : EqDecision ErrorCode.
Proof. solve_decision. Defined.

(* [crates/rimap-core/src/error.rs:64-87] ErrorCode::as_str *)
Definition code_as_str (c : ErrorCode) : rstr :=
  match c with
  | EInvalidInput => lit "ERR_INVALID_INPUT"
  | EPostureDenied => lit "ERR_POSTURE_DENIED"
  | ERateLimited => lit "ERR_RATE_LIMITED"
  | ECircuitOpen => lit "ERR_CIRCUIT_OPEN"
  | ENotFound => lit "ERR_NOT_FOUND"
  | EImapProtocol => lit "ERR_IMAP_PROTOCOL"
  | ESmtpProtocol => lit "ERR_SMTP_PROTOCOL"
  | ETls => lit "ERR_TLS"
  | EAuth => lit "ERR_AUTH"
  | EConnectionLost => lit "ERR_CONNECTION_LOST"
  | ETimeout => lit "ERR_TIMEOUT"
  | EAttachmentTooLarge => lit "ERR_ATTACHMENT_TOO_LARGE"
  | EProtectedFolder => lit "ERR_PROTECTED_FOLDER"
  | EExpungeDenied => lit "ERR_EXPUNGE_DENIED"
  | EConfig => lit "ERR_CONFIG"
  | EInternal => lit "ERR_INTERNAL"
  | ENoAccount => lit "ERR_NO_ACCOUNT"
  | EUnknownAccount => lit "ERR_UNKNOWN_ACCOUNT"
  | ECancelled => lit "ERR_CANCELLED"
  | EUidValidityChanged => lit "ERR_UID_VALIDITY_CHANGED"
  end.

(* [crates/rimap-core/src/error.rs:104-129] ErrorCode::from_str *)
Definition code_from_str (s : rstr) : result rstr ErrorCode :=
  match match_str [
    (lit "ERR_INVALID_INPUT", EInvalidInput);
    (lit "ERR_POSTURE_DENIED", EPostureDenied);
    (lit "ERR_RATE_LIMITED", ERateLimited);
    (lit "ERR_CIRCUIT_OPEN", ECircuitOpen);
    (lit "ERR_NOT_FOUND", ENotFound);
    (lit "ERR_IMAP_PROTOCOL", EImapProtocol);
    (lit "ERR_SMTP_PROTOCOL", ESmtpProtocol);
    (lit "ERR_TLS", ETls);
    (lit "ERR_AUTH", EAuth);
    (lit "ERR_CONNECTION_LOST", EConnectionLost);
    (lit "ERR_TIMEOUT", ETimeout);
    (lit "ERR_ATTACHMENT_TOO_LARGE", EAttachmentTooLarge);
    (lit "ERR_PROTECTED_FOLDER", EProtectedFolder);
    (lit "ERR_EXPUNGE_DENIED", EExpungeDenied);
    (lit "ERR_CONFIG", EConfig);
    (lit "ERR_INTERNAL", EInternal);
    (lit "ERR_NO_ACCOUNT", ENoAccount);
    (lit "ERR_UNKNOWN_ACCOUNT", EUnknownAccount);
    (lit "ERR_CANCELLED", ECancelled);
    (lit "ERR_UID_VALIDITY_CHANGED", EUidValidityChanged)] s with
  | Some c => Ok c
  | None => Err s
  end.

(* [crates/rimap-core/src/error.rs:153-315] RimapError *)
Inductive RimapError :=
  | RAuthz (code : ErrorCode) (message : rstr)
  | RImap (code : ErrorCode) (message : rstr)
  | RSmtp (code : ErrorCode) (message : rstr)
  | RAudit (code : ErrorCode) (message : rstr)
  | RConfig (message : rstr)
  | RInternal (message : rstr)
  | RInternalSourced (message : rstr)
  | RNoAccount (available : list rstr)
  | RUnknownAccount (name : rstr) (available : list rstr)
  | RUidValidityChanged (folder : rstr) (expected actual : Z)
  | RRateLimited (retry_after_ms : Z)
  | RCircuitOpen (retry_after_ms : Z)
  | RAttachmentTooLarge (kind : rstr) (limit : Z).

(* [crates/rimap-core/src/error.rs:322-327] RimapError::invalid_input *)
Definition invalid_input (message : rstr) : RimapError := RAuthz EInvalidInput message.

(* [crates/rimap-core/src/error.rs:329-346] RimapError::code *)
Definition rimap_code (e : RimapError) : ErrorCode :=
  match e with
  | RAuthz code _ | RImap code _ | RSmtp code _ | RAudit code _ => code
  | RConfig _ => EConfig
  | RInternal _ | RInternalSourced _ => EInternal
  | RNoAccount _ => ENoAccount
  | RUnknownAccount _ _ => EUnknownAccount
  | RUidValidityChanged _ _ _ => EUidValidityChanged
  | RRateLimited _ => ERateLimited
  | RCircuitOpen _ => ECircuitOpen
  | RAttachmentTooLarge _ _ => EAttachmentTooLarge
  end.

(* [crates/rimap-core/src/error.rs:152-312] Display for RimapError *)
Definition rimap_to_string (e : RimapError) : rstr :=
  match e with
  | RAuthz code message | RImap code message | RSmtp code message | RAudit code message =>
      code_as_str code ++ lit ": " ++ message
  | RConfig message => lit "ERR_CONFIG: " ++ message
  | RInternal message | RInternalSourced message => lit "ERR_INTERNAL: " ++ message
  | RNoAccount available =>
      lit "multiple accounts configured; call `use_account` or pass `account` parameter. Available: "
      ++ join (lit ", ") available
  | RUnknownAccount name available =>
      lit "account '" ++ name ++ lit "' not found. Available: " ++ join (lit ", ") available
  | RUidValidityChanged folder expected actual =>
      lit "UIDVALIDITY changed for `" ++ folder ++ lit "`: expected " ++ to_decimal expected
      ++ lit ", server reports " ++ to_decimal actual
  | RRateLimited ms => lit "rate limited; retry after " ++ to_decimal ms ++ lit " ms"
  | RCircuitOpen ms => lit "circuit breaker open; retry after " ++ to_decimal ms ++ lit " ms"
  | RAttachmentTooLarge kind limit =>
      lit "content limit exceeded: " ++ kind ++ lit " (limit=" ++ to_decimal limit ++ lit ")"
  end.

(* [crates/rimap-authz/src/error.rs:9-80] AuthzError *)
Inductive AuthzError :=
  | APostureDenied (tool : ToolName)
  | ARateLimited (retry_after_ms : Z)
  | ACircuitOpen (retry_after_ms : Z)
  | AConfigBuild (message : rstr)
  | AProtectedFolder (folder operation : rstr)
  | AExpungeDenied (folder : rstr)
  | AInvalidFolderName (reason : rstr).
#[export] Instance AuthzError_eq_dec : EqDecision AuthzError.
Proof. solve_decision. Defined.

(* [crates/rimap-authz/src/error.rs:83-96] AuthzError::code *)
Definition authz_code (e : AuthzError) : ErrorCode :=
  match e with
  | APostureDenied _ => EPostureDenied
  | ARateLimited _ => ERateLimited
  | ACircuitOpen _ => ECircuitOpen
  | AConfigBuild _ => EConfig
  | AProtectedFolder _ _ => EProtectedFolder
  | AExpungeDenied _ => EExpungeDenied
  | AInvalidFolderName _ => EInvalidInput
  end.

(** The [Display] form of the error, from its [#[error(...)]] attributes. *)
(* [crates/rimap-authz/src/error.rs:13-80] AuthzError::to_string *)
Definition authz_to_string (e : AuthzError) : rstr :=
  match e with
  | APostureDenied t => lit "tool `" ++ as_str t ++ lit "` denied by current posture"
  | ARateLimited ms => lit "rate limited; retry after " ++ to_decimal ms ++ lit " ms"
  | ACircuitOpen ms => lit "circuit breaker open; retry after " ++ to_decimal ms ++ lit " ms"
  | AConfigBuild m => lit "authz config build failed: " ++ m
  | AProtectedFolder f op =>
      lit "folder `" ++ f ++ lit "` is protected and cannot be " ++ op
      ++ lit "d; remove it from protected_folders to allow this"
  | AExpungeDenied f =>
      lit "expunge denied for folder `" ++ f
      ++ lit "`; add it to expunge_folders in your config to allow permanent deletion"
  | AInvalidFolderName r => lit "invalid folder name: " ++ r
  end.

(* [crates/rimap-authz/src/error.rs:98-117] From<AuthzError> for RimapError *)
Definition rimap_of_authz (e : AuthzError) : RimapError :=
  match e with
  | ARateLimited ms => RRateLimited ms
  | ACircuitOpen ms => RCircuitOpen ms
  | other => RAuthz (authz_code other) (authz_to_string other)
  end.

Definition all_codes : list ErrorCode := [
  EInvalidInput;
  EPostureDenied;
  ERateLimited;
  ECircuitOpen;
  ENotFound;
  EImapProtocol;
  ESmtpProtocol;
  ETls;
  EAuth;
  EConnectionLost;
  ETimeout;
  EAttachmentTooLarge;
  EProtectedFolder;
  EExpungeDenied;
  EConfig;
  EInternal;
  ENoAccount;
  EUnknownAccount;
  ECancelled;
  EUidValidityChanged].

(** ** Lemmas *)

Lemma rimap_of_authz_code e : rimap_code (rimap_of_authz e) = authz_code e.
Proof. by destruct e. Qed.

(** The wire form of an error code is a bijection onto the strings
    [from_str] accepts: a code survives printing and parsing, and every
    accepted string is the wire form of the code it parses to. *)
Theorem error_code_roundtrip s c : code_from_str s = Ok c <-> s = code_as_str c.
Proof.
  split.
  - unfold code_from_str. destruct (match_str _ s) as [c'|] eqn:E; [|done].
    intros H. simplify_eq. apply match_str_Some in E.
    repeat (apply elem_of_cons in E; destruct E as [E|E]; [by simplify_eq|]). by apply elem_of_nil in E.
  - intros ->. by destruct c.
Qed.
