(* ===== verification/Program.v ===== *)
(** * Handlers as programs over calls

    A tool's handler as the calls it makes on the outside world, in order, and
    the result it ends in; what a call answers is in the answer's place. *)

From stdpp Require Import base option list.
From S2P Require Import Prelude Errors.

Definition logged (C A : Type) : Type := list C * result RimapError A.
#[export] Instance logged_ret {C} : MRet (logged C) := fun A a => ([], Ok a).
#[export] Instance logged_bind {C} : MBind (logged C) := fun A B f m =>
  match m with
  | (cs, Ok a) => let '(cs', r) := f a in (cs ++ cs', r)
  | (cs, Err e) => (cs, Err e)
  end.
#[export] Instance logged_fmap {C} : FMap (logged C) := fun A B f m => (m.1, f <$> m.2).

(** A step that makes no call. *)
Definition check {C A} (r : result RimapError A) : logged C A := ([], r).

Section laws.
Context {C : Type}.

(** The calls of a bind are those of its parts, and it succeeds when both do. *)
Lemma logged_bind_ok {A B} (m : logged C A) (f : A -> logged C B) cs b :
  m ≫= f = (cs, Ok b) <->
  exists cs1 a cs2, m = (cs1, Ok a) /\ f a = (cs2, Ok b) /\ cs = cs1 ++ cs2.
Proof.
  destruct m as [cs1 [a|e]]; unfold mbind, logged_bind.
  - destruct (f a) as [cs2 r] eqn:E. split.
    + intros [= <- ->]. by exists cs1, a, cs2.
    + intros (? & ? & ? & [= <- <-] & E' & ->). rewrite E in E'. by injection E' as -> ->.
  - split; [done|]. by intros (? & ? & ? & [=] & _).
Qed.
Lemma logged_bind_err {A B} (m : logged C A) (f : A -> logged C B) cs e :
  m ≫= f = (cs, Err e) <->
  m = (cs, Err e) \/ exists cs1 a cs2, m = (cs1, Ok a) /\ f a = (cs2, Err e) /\ cs = cs1 ++ cs2.
Proof.
  destruct m as [cs1 [a|e1]]; unfold mbind, logged_bind.
  - destruct (f a) as [cs2 r] eqn:E. split.
    + intros [= <- ->]. right. by exists cs1, a, cs2.
    + intros [[=]|(? & ? & ? & [= <- <-] & E' & ->)]. rewrite E in E'. by injection E' as -> ->.
  - split; [intros [= <- <-]; by left|]. intros [[= <- <-]|(? & ? & ? & [=] & _)]. done.
Qed.
Lemma check_bind {A B} (r : result RimapError A) (f : A -> logged C B) :
  check r ≫= f = match r with Ok a => f a | Err e => ([], Err e) end.
Proof. destruct r; unfold mbind, logged_bind, check; [by destruct (f a)|done]. Qed.

(** What holds of every call of the parts holds of every call of a bind. *)
Lemma calls_bind {A B} (P : C -> Prop) (m : logged C A) (f : A -> logged C B) :
  Forall P m.1 -> (forall a, m.2 = Ok a -> Forall P (f a).1) -> Forall P (m ≫= f).1.
Proof.
  destruct m as [cs [a|e]]; unfold mbind, logged_bind; cbn; [|done]. intros Hcs Hf. specialize (Hf a eq_refl).
  destruct (f a) as [cs' r]. by apply Forall_app.
Qed.
End laws.
