(* ===== verification/Names.v ===== *)
(** * Folder names, account names and the folder guard

    crates/rimap-core/src/folder_name.rs and account.rs, and
    crates/rimap-authz/src/folder_guard.rs.  Modified UTF-7 decoding (the
    utf7_imap crate) and full Unicode lower-casing are the operations of the
    class [FolderText], with the documented laws the guard relies on. *)

From Stdlib Require Import ZArith Lia.
From stdpp Require Import base option list strings sets.
From S2P Require Import Prelude RustStr Tools Errors.
Local Open Scope Z_scope.

(** ** [FolderName] *)

(* [crates/rimap-core/src/folder_name.rs:173-185] is_rejected_display_codepoint *)
Definition is_rejected_display_codepoint (c : Z) : bool :=
  between 0x202a 0x202e c || between 0x2066 0x2069 c
  || (c =? 0x200b) || (c =? 0x200c) || (c =? 0x200d) || (c =? 0x2060) || (c =? 0xfeff)
  || between 0xe0000 0xe007f c.

(** The byte loop: the first offending byte decides the reason. *)
(* [crates/rimap-core/src/folder_name.rs:111-126] validate *)
Fixpoint check_bytes (bs : list Z) : result rstr unit :=
  match bs with
  | [] => Ok tt
  | b :: bs' =>
      if b =? 0 then Err (lit "folder name contains NUL byte")
      else if between 1 0x1F b || (b =? 0x7F)
      then Err (lit "folder name contains control character")
      else check_bytes bs'
  end.

(* [crates/rimap-core/src/folder_name.rs:99-148] validate *)
Definition validate (raw : rstr) : result rstr unit :=
  match raw with
  | [] => Err (lit "folder name must not be empty")
  | _ =>
      if bool_decide (trim raw = []) then Err (lit "folder name must not be whitespace-only")
      else if 255 <? str_len raw then Err (lit "folder name exceeds 255-byte limit")
      else
        _ ← check_bytes (str_bytes raw);
        if existsb (fun seg => str_eqb seg (lit ".") || str_eqb seg (lit ".."))
             (split_on 47 raw)
        then Err (lit "folder name contains path traversal segment")
        else if existsb is_rejected_display_codepoint raw
        then Err (lit "folder name contains disallowed Unicode character")
        else Ok tt
  end.

(* [crates/rimap-core/src/folder_name.rs:80-83] FolderName::new *)
Definition folder_name_new (raw : rstr) : result rstr rstr :=
  _ ← validate raw; Ok raw.

(** ** [AccountId] *)

(* [crates/rimap-core/src/account.rs:8-11] MAX_ACCOUNT_NAME_LEN *)
Definition MAX_ACCOUNT_NAME_LEN : Z := 64.
Definition DEFAULT_ACCOUNT_NAME : rstr := lit "default".

Definition account_char (c : Z) : bool := is_ascii_alphanumeric c || (c =? 45).

(* [crates/rimap-core/src/account.rs:89-97] InvalidAccountName *)
Record InvalidAccountName := mkInvalidAccount { bad_name : rstr; reason : rstr }.

(* [crates/rimap-core/src/account.rs:30-56] AccountId::new *)
Definition account_id_new (name : rstr) : result InvalidAccountName rstr :=
  if bool_decide (name = []) then Err (mkInvalidAccount name (lit "must not be empty"))
  else if MAX_ACCOUNT_NAME_LEN <? str_len name
  then Err (mkInvalidAccount name
              (lit "must be at most " ++ to_decimal MAX_ACCOUNT_NAME_LEN ++ lit " characters"))
  else match List.find (fun c => negb (account_char c)) name with
  | Some bad => Err (mkInvalidAccount name
      (lit "contains invalid character '" ++ [bad]
       ++ lit "'; only ASCII alphanumerics and hyphens allowed"))
  | None => Ok (to_ascii_lowercase name)
  end.

(* [crates/rimap-core/src/account.rs:78-80] AccountId::as_optional *)
Definition as_optional (id : rstr) : option rstr :=
  if str_eqb id DEFAULT_ACCOUNT_NAME then None else Some id.

(** ** [FolderGuard] *)

(** What lies outside the repository, with the laws it documents: text
    without ["&"] is its own modified UTF-7 form, and lower-casing agrees with
    the ASCII mapping on ASCII text. *)
Class FolderText := {
  decode_utf7_imap : rstr -> rstr;
  to_lowercase : rstr -> rstr;
  decode_utf7_plain : forall s, Forall (fun c => 0x20 <= c <= 0x7e /\ c <> 38) s ->
    decode_utf7_imap s = s;
  to_lowercase_ascii : forall s, Forall (fun c => 0 <= c < 128) s ->
    to_lowercase s = to_ascii_lowercase s;
}.

Section folder_guard.
Context `{FolderText}.

(* [crates/rimap-authz/src/folder_guard.rs:22-25] normalize_folder_name *)
Definition normalize_folder_name (folder : rstr) : rstr := to_lowercase (decode_utf7_imap folder).

(* [crates/rimap-authz/src/folder_guard.rs:31-34] validate_and_normalize *)
Definition validate_and_normalize (folder : rstr) : result AuthzError rstr :=
  _ ← map_err AInvalidFolderName (folder_name_new folder);
  Ok (normalize_folder_name folder).

(* [crates/rimap-authz/src/folder_guard.rs:8-11] FolderGuard *)
Record FolderGuard := mkFolderGuard { protected : list rstr; expunge_allowed : list rstr }.

(* [crates/rimap-authz/src/folder_guard.rs:41-52] FolderGuard::new *)
Definition folder_guard_new (protected_folders expunge_folders : list rstr) : FolderGuard :=
  mkFolderGuard (map normalize_folder_name protected_folders)
    (map normalize_folder_name expunge_folders).

Definition contains_name (names : list rstr) (n : rstr) : bool := existsb (str_eqb n) names.

(* [crates/rimap-authz/src/folder_guard.rs:62-71] FolderGuard::check_protected *)
Definition check_protected (g : FolderGuard) (folder operation : rstr) : result AuthzError unit :=
  norm ← validate_and_normalize folder;
  if str_eqb norm (lit "inbox") || contains_name (protected g) norm
  then Err (AProtectedFolder folder operation)
  else Ok tt.

(* [crates/rimap-authz/src/folder_guard.rs:81-85] FolderGuard::check_rename *)
Definition check_rename (g : FolderGuard) (old_name new_name : rstr) : result AuthzError unit :=
  _ ← check_protected g old_name (lit "rename");
  _ ← check_protected g new_name (lit "rename");
  Ok tt.

(* [crates/rimap-authz/src/folder_guard.rs:94-102] FolderGuard::check_expunge *)
Definition check_expunge (g : FolderGuard) (folder : rstr) : result AuthzError unit :=
  norm ← validate_and_normalize folder;
  if negb (contains_name (expunge_allowed g) norm) then Err (AExpungeDenied folder)
  else Ok tt.
End folder_guard.

(** ** Which names are accepted *)

Lemma utf8_encode_bytes c b :
  is_scalar c -> b ∈ utf8_encode c -> (b = c /\ c < 0x80) \/ (0x80 <= b /\ 0x80 <= c).
Proof.
  unfold is_scalar, utf8_encode. intros Hc.
  pose proof (Z.mod_pos_bound c 64 ltac:(lia)). pose proof (Z.mod_pos_bound (c / 64) 64 ltac:(lia)).
  pose proof (Z.mod_pos_bound (c / 4096) 64 ltac:(lia)).
  assert (0 <= c / 64 /\ 0 <= c / 4096 /\ 0 <= c / 262144)
    by (repeat split; apply Z.div_pos; lia).
  repeat case_goal; zify_bool; rewrite ?elem_of_cons, elem_of_nil; naive_solver lia.
Qed.

Definition bad_byte (b : Z) : bool := between 0 0x1F b || (b =? 0x7F).

Lemma check_bytes_ok bs :
  Forall (fun b => 0 <= b) bs -> is_ok (check_bytes bs) = forallb (fun b => negb (bad_byte b)) bs.
Proof.
  induction 1 as [|b bs Hb _ IH]; [done|]. cbn. unfold bad_byte, between in *.
  destruct (b =? 0) eqn:E0; zify_bool; [subst; done|].
  replace (1 <=? b) with (0 <=? b) by (destruct (0 <=? b) eqn:E1, (1 <=? b) eqn:E2; zify_bool; lia).
  destruct (_ || _); cbn; [done|]. exact IH.
Qed.

Lemma forallb_bytes raw :
  Forall is_scalar raw ->
  forallb (fun b => negb (bad_byte b)) (str_bytes raw) = true <->
  Forall (fun c => bad_byte c = false) raw.
Proof.
  intros Hs. unfold str_bytes. rewrite List.forallb_forall, Forall_forall. split.
  - intros Hb c Hc. rewrite Forall_forall in Hs. apply Hs in Hc as Hsc.
    destruct (decide (c < 0x80)) as [Hlt|Hge].
    + apply negb_true_iff, Hb, List.in_concat. exists (utf8_encode c). split.
      * apply List.in_map. by apply list_elem_of_In.
      * unfold utf8_encode. apply Z.ltb_lt in Hlt. rewrite Hlt. by left.
    + unfold bad_byte, between. apply orb_false_iff. split; [|apply Z.eqb_neq; lia].
      apply andb_false_iff. right. apply Z.leb_gt. lia.
  - intros Hc b Hb. apply List.in_concat in Hb as (bs & Hbs & Hb).
    apply List.in_map_iff in Hbs as (c & <- & Hin). apply list_elem_of_In in Hin, Hb.
    rewrite Forall_forall in Hs. apply Hs in Hin as Hsc. apply Hc in Hin.
    apply utf8_encode_bytes in Hb; [|done]. apply negb_true_iff.
    destruct Hb as [[-> _]|[Hb _]]; [done|].
    unfold bad_byte, between. apply orb_false_iff. split; [|apply Z.eqb_neq; lia].
    apply andb_false_iff. right. apply Z.leb_gt. lia.
Qed.

Lemma str_bytes_nonneg raw : Forall is_scalar raw -> Forall (fun b => 0 <= b) (str_bytes raw).
Proof.
  intros Hs. apply Forall_forall. intros b Hb. unfold str_bytes in Hb.
  apply list_elem_of_In, List.in_concat in Hb as (bs & Hbs & Hb).
  apply List.in_map_iff in Hbs as (c & <- & Hin). apply list_elem_of_In in Hin, Hb.
  rewrite Forall_forall in Hs. apply Hs in Hin. apply utf8_encode_bytes in Hb as Hb'; [|done].
  unfold is_scalar in Hin. lia.
Qed.

(** The documented invariants of [FolderName]: some visible character, at most
    255 bytes of UTF-8, no C0 control nor DEL, no ["."] or [".."] between
    slashes, and no invisible or direction-changing character. *)
Record folder_name_spec (raw : rstr) : Prop := {
  spec_visible : exists c, c ∈ raw /\ is_whitespace c = false;
  spec_length : Z.of_nat (length (str_bytes raw)) <= 255;
  spec_no_control : forall c, c ∈ raw -> 0x20 <= c /\ c <> 0x7F;
  spec_no_traversal : forall pre seg post, raw = pre ++ seg ++ post ->
    (pre = [] \/ exists x, pre = x ++ [47]) -> (post = [] \/ exists y, post = 47 :: y) ->
    seg <> [46] /\ seg <> [46; 46];
  spec_displayable : forall c, c ∈ raw -> is_rejected_display_codepoint c = false;
}.

Lemma traversal_segments raw :
  existsb (fun seg => str_eqb seg (lit ".") || str_eqb seg (lit "..")) (split_on 47 raw) = false <->
  (forall pre seg post, raw = pre ++ seg ++ post ->
    (pre = [] \/ exists x, pre = x ++ [47]) -> (post = [] \/ exists y, post = 47 :: y) ->
    seg <> [46] /\ seg <> [46; 46]).
Proof.
  rewrite <- not_true_iff_false, List.existsb_exists. split.
  - intros Hno pre seg post Hraw Hpre Hpost.
    assert (Hin : ~ 47 ∈ seg -> List.In seg (split_on 47 raw)).
    { intros Hn. apply list_elem_of_In, split_on_elem. eauto 6. }
    split; intros ->; apply Hno; eexists; (split; [apply Hin; set_solver|done]).
  - intros Hall (seg & Hin & Hseg). apply list_elem_of_In, split_on_elem in Hin
      as (_ & pre & post & Hraw & Hpre & Hpost).
    destruct (Hall pre seg post Hraw Hpre Hpost) as [H1 H2].
    apply orb_true_iff in Hseg as [Hseg|Hseg]; apply str_eqb_eq in Hseg; subst; done.
Qed.

Lemma validate_checks raw :
  validate raw = Ok tt <->
  trim raw <> [] /\ str_len raw <= 255 /\ is_ok (check_bytes (str_bytes raw)) = true /\
  existsb (fun seg => str_eqb seg (lit ".") || str_eqb seg (lit "..")) (split_on 47 raw) = false /\
  existsb is_rejected_display_codepoint raw = false.
Proof.
  unfold validate. destruct raw as [|c raw]; [split; [done|]; by intros [? _]|].
  case_bool_decide; [naive_solver|]. destruct (255 <? _) eqn:El; zify_bool; [split; [done|]; lia|].
  destruct (check_bytes _) as [[]|]; cbn [mbind result_bind is_ok]; [|naive_solver].
  destruct (existsb (fun seg => _) _); [naive_solver|].
  destruct (existsb _ _); naive_solver.
Qed.

Lemma folder_name_new_ok raw : is_ok (folder_name_new raw) = true <-> validate raw = Ok tt.
Proof. unfold folder_name_new. by destruct (validate raw) as [[]|]. Qed.

Lemma trim_visible raw : trim raw <> [] <-> exists c, c ∈ raw /\ is_whitespace c = false.
Proof.
  rewrite trim_nil. split.
  - intros (c & Hc & Hw)%not_Forall_Exists%Exists_exists; [|apply _].
    exists c. split; [done|]. by apply not_true_iff_false.
  - intros (c & Hc & Hw) Hall. rewrite Forall_forall in Hall. apply Hall in Hc. congruence.
Qed.

Lemma existsb_false {A} (p : A -> bool) l :
  existsb p l = false <-> forall x, x ∈ l -> p x = false.
Proof.
  rewrite <- not_true_iff_false, List.existsb_exists. setoid_rewrite <- list_elem_of_In.
  split; [intros Hn x Hx; apply not_true_iff_false; eauto|].
  intros Hf (x & Hx & Hp). by rewrite Hf in Hp.
Qed.

(** A folder name is accepted exactly when the documented invariants
    hold, and an accepted name is kept as it was given. *)
Theorem folder_name_new_spec raw :
  Forall is_scalar raw ->
  (is_ok (folder_name_new raw) = true <-> folder_name_spec raw) /\
  (forall kept, folder_name_new raw = Ok kept -> kept = raw).
Proof.
  intros Hs. split.
  - rewrite folder_name_new_ok, validate_checks, trim_visible, str_len_bytes,
      check_bytes_ok, forallb_bytes, traversal_segments, existsb_false, Forall_forall
      by auto using str_bytes_nonneg.
    assert (Hbad : forall c, c ∈ raw -> bad_byte c = false <-> 0x20 <= c /\ c <> 0x7F).
    { intros c Hc. rewrite Forall_forall in Hs. apply Hs in Hc. unfold is_scalar in Hc.
      unfold bad_byte, between. rewrite orb_false_iff, andb_false_iff, !Z.leb_gt, Z.eqb_neq. lia. }
    split.
    + intros (? & ? & Hb & ? & ?). constructor; [auto..| |auto|auto].
      intros x Hx. by apply Hbad, Hb.
    + intros [? ? Hb ? ?]. refine (conj _ (conj _ (conj _ (conj _ _)))); auto.
      intros x Hx. by apply Hbad, Hb.
  - unfold folder_name_new. destruct (validate raw); intros kept Hk; by inversion Hk.
Qed.

Lemma folder_name_new_spec_witness :
  folder_name_spec (lit "Receipts..2024/INBOX") /\ ~ folder_name_spec (lit "Work/../etc").
Proof.
  split.
  - apply (folder_name_new_spec (lit "Receipts..2024/INBOX")); [|vm_compute; reflexivity].
    repeat constructor; vm_compute; intuition discriminate.
  - rewrite <- (proj1 (folder_name_new_spec (lit "Work/../etc") ltac:(repeat constructor; vm_compute; intuition discriminate))).
    vm_compute. discriminate.
Defined.

(** The type's documentation also rules out the C1 controls; they pass. *)
Lemma c1_control_accepted : folder_name_new [73; 0x85; 73] = Ok [73; 0x85; 73].
Proof. reflexivity. Qed.

(** ** The folder guard *)

Section folder_guard_facts.
Context `{FolderText}.

Lemma contains_name_iff names n : contains_name names n = true <-> n ∈ names.
Proof.
  unfold contains_name. rewrite List.existsb_exists, list_elem_of_In.
  setoid_rewrite str_eqb_eq. naive_solver.
Qed.

Lemma contains_name_map (f : rstr -> rstr) names n :
  contains_name (map f names) n = true <-> exists p, p ∈ names /\ n = f p.
Proof.
  rewrite contains_name_iff, list_elem_of_In, List.in_map_iff.
  setoid_rewrite list_elem_of_In. naive_solver.
Qed.

Lemma validate_and_normalize_spec f :
  (exists r, folder_name_new f = Err r /\ validate_and_normalize f = Err (AInvalidFolderName r)) \/
  (folder_name_new f = Ok f /\ validate_and_normalize f = Ok (normalize_folder_name f)).
Proof.
  unfold validate_and_normalize, folder_name_new.
  destruct (validate f) as [[]|r]; cbn; [by right|left; eauto].
Qed.

Lemma check_protected_ok prot exp f op :
  check_protected (folder_guard_new prot exp) f op = Ok tt <->
  folder_name_new f = Ok f /\ normalize_folder_name f <> lit "inbox" /\
  forall p, p ∈ prot -> normalize_folder_name f <> normalize_folder_name p.
Proof.
  unfold check_protected.
  destruct (validate_and_normalize_spec f) as [(r & -> & ->)|[-> ->]]; cbn [mbind result_bind];
    [naive_solver|].
  destruct (str_eqb _ _) eqn:E1; cbn [orb].
  { apply str_eqb_eq in E1. naive_solver. }
  destruct (contains_name _ _) eqn:E2.
  - apply contains_name_map in E2 as (p & Hp & He). naive_solver.
  - split; [intros _|done]. split; [done|]. split.
    + intros He. by apply str_eqb_eq in He; rewrite He in E1.
    + intros p Hp He. assert (contains_name (protected (folder_guard_new prot exp))
        (normalize_folder_name f) = true) by (apply contains_name_map; eauto). congruence.
Qed.

Lemma check_rename_ok g f f' : check_rename g f f' = Ok tt <->
  check_protected g f (lit "rename") = Ok tt /\ check_protected g f' (lit "rename") = Ok tt.
Proof.
  unfold check_rename. destruct (check_protected _ f _) as [[]|]; cbn; [|naive_solver].
  destruct (check_protected _ f' _) as [[]|]; naive_solver.
Qed.

Lemma check_expunge_ok prot exp f : check_expunge (folder_guard_new prot exp) f = Ok tt <->
  folder_name_new f = Ok f /\ exists p, p ∈ exp /\ normalize_folder_name f = normalize_folder_name p.
Proof.
  unfold check_expunge.
  destruct (validate_and_normalize_spec f) as [(r & -> & ->)|[-> ->]]; cbn [mbind result_bind];
    [naive_solver|].
  rewrite <- contains_name_map. destruct (contains_name _ _); cbn [negb]; naive_solver.
Qed.

(** The folder guard decides on normalised names.  Deleting or renaming
    is allowed exactly for a well-formed name whose normal form is neither
    "inbox" nor that of a protected folder, for both names of a rename; an
    expunge exactly for a well-formed name whose normal form is that of an
    allow-listed folder; so no spelling with the same normal form escapes. *)
Theorem folder_guard_spec prot exp f f' op :
  (check_protected (folder_guard_new prot exp) f op = Ok tt <->
     folder_name_new f = Ok f /\ normalize_folder_name f <> lit "inbox" /\
     forall p, p ∈ prot -> normalize_folder_name f <> normalize_folder_name p) /\
  (check_rename (folder_guard_new prot exp) f f' = Ok tt <->
     check_protected (folder_guard_new prot exp) f (lit "rename") = Ok tt /\
     check_protected (folder_guard_new prot exp) f' (lit "rename") = Ok tt) /\
  (check_expunge (folder_guard_new prot exp) f = Ok tt <->
     folder_name_new f = Ok f /\
     exists p, p ∈ exp /\ normalize_folder_name f = normalize_folder_name p).
Proof. split; [apply check_protected_ok|]. split; [apply check_rename_ok|apply check_expunge_ok]. Qed.

(** INBOX is out of reach in every spelling: any ASCII case variant of
    "inbox" is refused for deletion and for either side of a rename, whatever
    the configured lists. *)
Theorem inbox_always_protected g f other op :
  to_ascii_lowercase f = lit "inbox" ->
  check_protected g f op = Err (AProtectedFolder f op) /\
  is_ok (check_rename g f other) = false /\ is_ok (check_rename g other f) = false.
Proof.
  intros Hf.
  assert (Hchars : Forall (fun c => 0x20 <= c <= 0x7e /\ c <> 38) f).
  { assert (Hl : Forall (fun c => 97 <= c <= 122) (to_ascii_lowercase f))
      by (rewrite Hf; repeat constructor; vm_compute; intuition discriminate).
    unfold to_ascii_lowercase in Hl. rewrite Forall_map in Hl.
    eapply Forall_impl; [exact Hl|]. intros c Hc. cbn in Hc.
    unfold ascii_lower, is_ascii_uppercase, between in Hc.
    destruct ((65 <=? c) && (c <=? 90)) eqn:E; zify_bool; lia. }
  assert (Hn : normalize_folder_name f = lit "inbox").
  { unfold normalize_folder_name. rewrite decode_utf7_plain by done.
    rewrite to_lowercase_ascii; [done|]. eapply Forall_impl; [exact Hchars|]. cbn; lia. }
  assert (Hv : folder_name_new f = Ok f).
  { assert (Hlen : length f = 5%nat) by (apply (f_equal length) in Hf;
      unfold to_ascii_lowercase in Hf; by rewrite length_map in Hf).
    unfold to_ascii_lowercase in Hf. change (lit "inbox") with [105; 110; 98; 111; 120] in Hf.
    destruct f as [|a [|b [|c [|d [|e [|]]]]]]; try done.
    cbn in Hf. simplify_eq. unfold ascii_lower, is_ascii_uppercase, between in *.
    assert (Hab : (a = 105 \/ a = 73) /\ (b = 110 \/ b = 78) /\ (c = 98 \/ c = 66) /\
                  (d = 111 \/ d = 79) /\ (e = 120 \/ e = 88)).
    { repeat match goal with
      | H : (if ?b then _ else _) = _ |- _ => destruct b eqn:?; zify_bool end; lia. }
    destruct Hab as ([->| ->] & [->| ->] & [->| ->] & [->| ->] & [->| ->]); reflexivity. }
  assert (Hp : forall op, check_protected g f op = Err (AProtectedFolder f op)).
  { intros op'. unfold check_protected, validate_and_normalize. rewrite Hv. cbn. by rewrite Hn. }
  split; [apply Hp|]. unfold check_rename. rewrite !Hp. cbn. split; [done|].
  by destruct (check_protected g other _).
Qed.
End folder_guard_facts.

(** An instance for examples: names in plain ASCII. *)
#[export] Program Instance plain_folder_text : FolderText := {
  decode_utf7_imap := fun s => s;
  to_lowercase := to_ascii_lowercase;
}.
Solve Obligations with done.

Lemma inbox_always_protected_witness :
  check_protected (folder_guard_new [] []) (lit "InBox") (lit "delete") =
    Err (AProtectedFolder (lit "InBox") (lit "delete")) /\
  is_ok (check_rename (folder_guard_new [] []) (lit "InBox") (lit "x")) = false /\
  is_ok (check_rename (folder_guard_new [] []) (lit "x") (lit "InBox")) = false.
Proof.
  apply (inbox_always_protected (folder_guard_new [] []) (lit "InBox") (lit "x") (lit "delete")).
  reflexivity.
Defined.

(** A folder guard at work: aliases by case are refused, others pass. *)
Lemma folder_guard_spec_witness :
  check_protected (folder_guard_new [lit "Sent"] [lit "Trash"]) (lit "Drafts") (lit "delete") = Ok tt /\
  check_expunge (folder_guard_new [lit "Sent"] [lit "Trash"]) (lit "TRASH") = Ok tt.
Proof.
  destruct (folder_guard_spec [lit "Sent"] [lit "Trash"] (lit "Drafts") (lit "x") (lit "delete"))
    as (Hp & _).
  destruct (folder_guard_spec [lit "Sent"] [lit "Trash"] (lit "TRASH") (lit "x") (lit "delete"))
    as (_ & _ & He).
  split.
  - apply Hp. split; [reflexivity|]. split; [vm_compute; discriminate|].
    intros p Hin. apply list_elem_of_singleton in Hin as ->. vm_compute. discriminate.
  - apply He. split; [reflexivity|]. exists (lit "Trash"). split; [by left|reflexivity].
Defined.

(** ** Account names *)

Lemma find_none_forall (p : Z -> bool) l :
  List.find p l = None <-> Forall (fun c => p c = false) l.
Proof.
  induction l as [|c l IH]; cbn; [split; [constructor|done]|].
  rewrite Forall_cons. destruct (p c); naive_solver.
Qed.

Lemma account_id_new_ok name id :
  account_id_new name = Ok id <->
  name <> [] /\ str_len name <= 64 /\ Forall (fun c => account_char c = true) name /\
  id = to_ascii_lowercase name.
Proof.
  unfold account_id_new, MAX_ACCOUNT_NAME_LEN. case_bool_decide; [naive_solver|].
  destruct (64 <? _) eqn:El; zify_bool; [split; [done|]; lia|].
  destruct (List.find _ _) eqn:Ef.
  - split; [done|]. intros (_ & _ & Hf & _). exfalso.
    assert (Hn : List.find (fun c => negb (account_char c)) name = None).
    { apply find_none_forall. eapply Forall_impl; [exact Hf|]. cbn. by intros c ->. }
    congruence.
  - apply find_none_forall in Ef. split; [|naive_solver]. intros Hok. simplify_eq.
    repeat split; auto. eapply Forall_impl; [exact Ef|]. cbn. intros c. by destruct (account_char c).
Qed.
