(* ===== verification/Json.v ===== *)
(** * JSON values

    [serde_json::Value] as the source uses it.  A number is an integer (what
    fits a [u64] or an [i64]) or something else, kept as its text; an object
    is the list of its entries in key order. *)

From Stdlib Require Import ZArith.
From stdpp Require Import base option list strings.
From S2P Require Import Prelude RustStr.
Local Open Scope Z_scope.

Inductive json :=
  | JNull
  | JBool (b : bool)
  | JInt (n : Z)
  | JFloat (text : rstr)
  | JStr (s : rstr)
  | JArr (items : list json)
  | JObj (entries : list (rstr * json)).

Notation jmap := (list (rstr * json)).

(** [Map::get]. *)
Definition jget (m : jmap) (k : rstr) : option json :=
  match List.find (fun '(k', _) => str_eqb k' k) m with
  | Some (_, v) => Some v
  | None => None
  end.

Definition as_json_str (v : json) : option rstr := match v with JStr s => Some s | _ => None end.
Definition as_bool (v : json) : option bool := match v with JBool b => Some b | _ => None end.
Definition as_array (v : json) : option (list json) :=
  match v with JArr l => Some l | _ => None end.
Definition as_u64 (v : json) : option Z :=
  match v with
  | JInt n => if (0 <=? n) && (n <=? u64_max) then Some n else None
  | _ => None
  end.
Definition is_u64 (v : json) : bool := match as_u64 v with Some _ => true | None => false end.
Definition is_string (v : json) : bool := match v with JStr _ => true | _ => false end.
