(* ===== verification/Uids.v ===== *)
(** * Lenient integers and UID selectors

    crates/rimap-core/src/lenient_int.rs and uid_selector.rs: how the
    integers and UID batches of a request are decoded, and the schema that is
    advertised for them. *)

From Stdlib Require Import ZArith Lia.
From stdpp Require Import base option list strings sets.
From S2P Require Import Prelude RustStr Json.
Local Open Scope Z_scope.

(** serde's [de::Error]: what was found, what was expected. *)
Inductive de_error :=
  | InvalidValue (found expected : rstr)
  | NoVariantMatched
  | InvalidType (expected : rstr)
  | Custom (message : rstr).

(** An integer type is its name and its largest value; [usize] is 64 bits. *)
Record int_type := mkInt { label : rstr; int_max : Z }.
Definition t_usize : int_type := mkInt (lit "usize") u64_max.
Definition t_u32 : int_type := mkInt (lit "u32") u32_max.
Definition t_u64 : int_type := mkInt (lit "u64") u64_max.

(* [crates/rimap-core/src/lenient_int.rs:63-68] IntOrStr *)
Inductive IntOrStr := Int (n : Z) | Str (s : rstr).

(** The derived untagged decoder: an [i64], else a string, else an error. *)
(* [crates/rimap-core/src/lenient_int.rs:63-68] IntOrStr *)
Definition deserialize_int_or_str (v : json) : result de_error IntOrStr :=
  match v with
  | JInt n => if (i64_min <=? n) && (n <=? i64_max) then Ok (Int n) else Err NoVariantMatched
  | JStr s => Ok (Str s)
  | _ => Err NoVariantMatched
  end.

(* [crates/rimap-core/src/lenient_int.rs:74-89] parse_int_str *)
Definition parse_int_str (T : int_type) (s : rstr) : result de_error Z :=
  if bool_decide (s = []) || negb (forallb is_ascii_digit s)
  then Err (InvalidValue s (lit "integer in string form (digits only)"))
  else
    let n := parse_digits s in
    if n <=? int_max T then Ok n
    else Err (InvalidValue s (lit "integer in " ++ label T ++ lit " range")).

(* [crates/rimap-core/src/lenient_int.rs:94-109] i64_to_int *)
Definition i64_to_int (T : int_type) (n : Z) : result de_error Z :=
  if n <? 0 then Err (InvalidValue (lit "-" ++ to_decimal (- n)) (lit "non-negative integer"))
  else if n <=? int_max T then Ok n
  else Err (InvalidValue (lit "integer") (lit "integer in " ++ label T ++ lit " range")).

(* [crates/rimap-core/src/lenient_int.rs:114-123] intorstr_to_int *)
Definition intorstr_to_int (T : int_type) (v : IntOrStr) : result de_error Z :=
  match v with Int n => i64_to_int T n | Str s => parse_int_str T s end.

(** A field's value, [None] when the field is absent ([serde(default)]). *)
(* [crates/rimap-core/src/lenient_int.rs:126-135] deserialize_opt_int *)
Definition deserialize_opt_int (T : int_type) (v : option json) : result de_error (option Z) :=
  match v with
  | None | Some JNull => Ok None
  | Some v =>
      i ← deserialize_int_or_str v;
      n ← intorstr_to_int T i;
      Ok (Some n)
  end.

(* [crates/rimap-core/src/lenient_int.rs:145-147] deserialize_opt_usize *)
Definition deserialize_opt_usize := deserialize_opt_int t_usize.
(* [crates/rimap-core/src/lenient_int.rs:154-156] deserialize_opt_u32 *)
Definition deserialize_opt_u32 := deserialize_opt_int t_u32.
(* [crates/rimap-core/src/lenient_int.rs:166-168] deserialize_opt_u64 *)
Definition deserialize_opt_u64 := deserialize_opt_int t_u64.

Definition nonzero (n : Z) : result de_error Z :=
  if n =? 0 then Err (InvalidValue (lit "0") (lit "nonzero u32")) else Ok n.

(* [crates/rimap-core/src/lenient_int.rs:177-182] deserialize_nonzero_u32 *)
Definition deserialize_nonzero_u32 (v : json) : result de_error Z :=
  i ← deserialize_int_or_str v;
  n ← intorstr_to_int t_u32 i;
  nonzero n.

(* [crates/rimap-core/src/lenient_int.rs:191-201] deserialize_opt_nonzero_u32 *)
Definition deserialize_opt_nonzero_u32 (v : option json) : result de_error (option Z) :=
  match v with
  | None | Some JNull => Ok None
  | Some v => n ← deserialize_nonzero_u32 v; Ok (Some n)
  end.

(** ** The advertised schemas *)

(** The [oneOf] branches: an integer range, a string pattern, null. *)
Record int_schema := mkIntSchema {
  minimum : Z;
  maximum : Z;
  pattern : rstr;
  nullable : bool;
}.

(* [crates/rimap-core/src/lenient_int.rs:217-226] lenient_schema *)
Definition lenient_schema := mkIntSchema.
(* [crates/rimap-core/src/lenient_int.rs:239-241] schema_opt_usize *)
Definition schema_opt_usize := lenient_schema 0 i64_max (lit "^[0-9]+$") true.
(* [crates/rimap-core/src/lenient_int.rs:244-246] schema_opt_u32 *)
Definition schema_opt_u32 := lenient_schema 0 u32_max (lit "^[0-9]+$") true.
(* [crates/rimap-core/src/lenient_int.rs:257-259] schema_opt_u64 *)
Definition schema_opt_u64 := lenient_schema 0 i64_max (lit "^[0-9]+$") true.
(* [crates/rimap-core/src/lenient_int.rs:263-265] schema_nonzero_u32 *)
Definition schema_nonzero_u32 := lenient_schema 1 u32_max (lit "^[1-9][0-9]*$") false.
(* [crates/rimap-core/src/lenient_int.rs:269-271] schema_opt_nonzero_u32 *)
Definition schema_opt_nonzero_u32 := lenient_schema 1 u32_max (lit "^[1-9][0-9]*$") true.

Definition in_schema_range (s : int_schema) (n : Z) : bool :=
  (minimum s <=? n) && (n <=? maximum s).

(** ** UID selectors *)

(* [crates/rimap-core/src/uid_selector.rs:24-25] MAX_BATCH_UIDS *)
Definition MAX_BATCH_UIDS : Z := 100.

(* [crates/rimap-core/src/uid_selector.rs:35-50] UidSelector *)
Inductive UidSelector := Single (uid : Z) | Batch (uids : list Z).

(* [crates/rimap-core/src/uid_selector.rs:70-75] UidSelector::into_uids *)
Definition into_uids (s : UidSelector) : list Z :=
  match s with Single u => [u] | Batch us => us end.

(* [crates/rimap-core/src/uid_selector.rs:94-105] BoundedUids::try_from *)
Definition bounded_uids_try_from (value : list Z) : result rstr (list Z) :=
  match value with
  | [] => Err (lit "uids batch must not be empty")
  | _ =>
      if MAX_BATCH_UIDS <? Z.of_nat (length value)
      then Err (lit "uids batch size " ++ to_decimal (Z.of_nat (length value))
                ++ lit " exceeds maximum of " ++ to_decimal MAX_BATCH_UIDS)
      else Ok value
  end.

Fixpoint mapM_result {E A B} (f : A -> result E B) (l : list A) : result E (list B) :=
  match l with
  | [] => Ok []
  | a :: l' => b ← f a; bs ← mapM_result f l'; Ok (b :: bs)
  end.

(* [crates/rimap-core/src/uid_selector.rs:119-125] BoundedUids::deserialize *)
Definition deserialize_bounded_uids (v : json) : result de_error (list Z) :=
  match v with
  | JArr items =>
      raw ← mapM_result deserialize_nonzero_u32 items;
      map_err Custom (bounded_uids_try_from raw)
  | _ => Err (InvalidType (lit "a sequence"))
  end.

(** [Option<BoundedUids>] with [serde(default)]. *)
Definition deserialize_opt_bounded_uids (v : option json) : result de_error (option (list Z)) :=
  match v with
  | None | Some JNull => Ok None
  | Some v => us ← deserialize_bounded_uids v; Ok (Some us)
  end.

(* [crates/rimap-core/src/uid_selector.rs:127-136] UidSelectorWire *)
Definition deserialize_wire (m : jmap) : result de_error (option Z * option (list Z)) :=
  uid ← deserialize_opt_nonzero_u32 (jget m (lit "uid"));
  uids ← deserialize_opt_bounded_uids (jget m (lit "uids"));
  Ok (uid, uids).

(* [crates/rimap-core/src/uid_selector.rs:138-155] UidSelector::deserialize *)
Definition deserialize_uid_selector (m : jmap) : result de_error UidSelector :=
  wire ← deserialize_wire m;
  match wire with
  | (Some uid, None) => Ok (Single uid)
  | (None, Some uids) => Ok (Batch uids)
  | (Some _, Some _) =>
      Err (InvalidValue (lit "both `uid` and `uids`") (lit "exactly one of `uid` or `uids`"))
  | (None, None) =>
      Err (InvalidValue (lit "neither `uid` nor `uids`") (lit "exactly one of `uid` or `uids`"))
  end.

(** ** What is decoded *)

Definition int_type_ok (T : int_type) : Prop := 0 <= int_max T.

Lemma i64_to_int_ok T n m : i64_to_int T n = Ok m <-> n = m /\ 0 <= n <= int_max T.
Proof.
  unfold i64_to_int. repeat (case_goal; zify_bool); split; intros H; simplify_eq;
    try lia; destruct H as [-> ?]; (done || lia).
Qed.

Lemma parse_int_str_ok T s m :
  parse_int_str T s = Ok m <->
  s <> [] /\ Forall (fun c => is_ascii_digit c = true) s /\ parse_digits s = m /\ m <= int_max T.
Proof.
  unfold parse_int_str. rewrite Forall_forall. setoid_rewrite list_elem_of_In.
  rewrite <- List.forallb_forall.
  case_bool_decide; cbn [orb]; [naive_solver|].
  destruct (forallb _ s); cbn [negb]; [|naive_solver].
  destruct (_ <=? _) eqn:E; zify_bool; split; intros Hs; simplify_eq; auto; naive_solver lia.
Qed.

(** The wire forms of an integer. *)
Definition denotes_int (T : int_type) (v : json) (n : Z) : Prop :=
  (v = JInt n /\ 0 <= n <= Z.min i64_max (int_max T)) \/
  (exists s, v = JStr s /\ s <> [] /\ Forall (fun c => is_ascii_digit c = true) s /\
     parse_digits s = n /\ n <= int_max T).

Lemma decode_int_spec T v n :
  (i ← deserialize_int_or_str v; intorstr_to_int T i) = Ok n <-> denotes_int T v n.
Proof.
  unfold denotes_int. destruct v as [|b|k|f|s|l|o]; cbn; try naive_solver.
  - destruct (_ && _) eqn:E; cbn.
    + zify_bool. rewrite i64_to_int_ok. split.
      * intros [-> ?]. left. split; [done|]. lia.
      * intros [[? ?]|(s & ? & _)]; [|done]. simplify_eq. lia.
    + split; [done|]. intros [[? ?]|(s & ? & _)]; [|done]. simplify_eq.
      apply andb_false_iff in E. rewrite !Z.leb_gt in E.
      unfold i64_min, i64_max in *. lia.
  - rewrite parse_int_str_ok. naive_solver.
Qed.

(** An optional integer field decodes to [n] exactly for the integer [n]
    (up to [i64::MAX] and the type's maximum) or a digit string of value [n]
    within the type; every value of the type has its decimal form accepted,
    and nothing out of range or negative is ever produced. *)
Theorem lenient_int_spec T v n :
  int_type_ok T ->
  (deserialize_opt_int T (Some v) = Ok (Some n) <-> denotes_int T v n) /\
  (deserialize_opt_int T (Some v) = Ok (Some n) -> 0 <= n <= int_max T) /\
  (0 <= n <= int_max T -> deserialize_opt_int T (Some (JStr (to_decimal n))) = Ok (Some n)).
Proof.
  intros HT.
  assert (Hspec : forall v, deserialize_opt_int T (Some v) = Ok (Some n) <-> denotes_int T v n).
  { intros w. rewrite <- decode_int_spec. unfold deserialize_opt_int.
    destruct w; cbn; try done; try (destruct (_ && _); cbn; [|done]);
      try destruct (intorstr_to_int _ _); try destruct (i64_to_int _ _);
      try destruct (parse_int_str _ _); cbn; naive_solver. }
  split; [apply Hspec|]. split.
  - rewrite Hspec. intros [[-> ?]|(s & -> & _ & Hd & <- & ?)]; [lia|].
    split; [by apply parse_digits_nonneg|done].
  - intros Hn. apply Hspec. right. exists (to_decimal n).
    destruct (to_decimal_spec n) as (? & ? & ?); [lia|]. repeat split; auto. lia.
Qed.

Lemma lenient_int_spec_witness :
  deserialize_opt_u64 (Some (JStr (to_decimal u64_max))) = Ok (Some u64_max) /\
  deserialize_opt_u64 (Some (JInt 7)) = Ok (Some 7).
Proof.
  split.
  - apply (lenient_int_spec t_u64 JNull u64_max); vm_compute; intuition discriminate.
  - refine (proj2 (proj1 (lenient_int_spec t_u64 (JInt 7) 7 _)) _); [vm_compute; discriminate|].
    left. vm_compute. intuition discriminate.
Defined.

Lemma decode_jint_ok T n :
  is_ok (i ← deserialize_int_or_str (JInt n); intorstr_to_int T i) = true <->
  0 <= n <= Z.min i64_max (int_max T).
Proof.
  split.
  - destruct (_ ≫= _) as [m|] eqn:E; [|done]. intros _.
    apply decode_int_spec in E as [[? ?]|(? & ? & _)]; simplify_eq; done.
  - intros Hn. assert (Hd : denotes_int T (JInt n) n) by (by left).
    apply decode_int_spec in Hd. by rewrite Hd.
Qed.

Lemma opt_jint_ok T n :
  is_ok (deserialize_opt_int T (Some (JInt n))) = true <-> 0 <= n <= Z.min i64_max (int_max T).
Proof.
  rewrite <- decode_jint_ok. unfold deserialize_opt_int.
  destruct (deserialize_int_or_str _) as [i|]; cbn; [|done].
  by destruct (intorstr_to_int T i).
Qed.

Lemma nonzero_jint_ok n :
  is_ok (deserialize_nonzero_u32 (JInt n)) = true <-> 1 <= n <= u32_max.
Proof.
  pose proof (decode_jint_ok t_u32 n) as Hd. unfold deserialize_nonzero_u32.
  pose proof (decode_int_spec t_u32 (JInt n)) as Hs.
  destruct (deserialize_int_or_str _) as [i|]; cbn in *.
  - destruct (intorstr_to_int t_u32 i) as [m|]; cbn in *; unfold i64_max, u32_max in *.
    + destruct (proj1 (Hs m) eq_refl) as [[? ?]|(? & ? & _)]; simplify_eq. unfold nonzero.
      destruct (m =? 0) eqn:E; zify_bool; cbn; split; intros; try done; lia.
    + split; [done|]. intros. apply Hd. lia.
  - split; [done|]. intros. apply Hd. unfold i64_max, u32_max in *. lia.
Qed.

Lemma in_schema_range_true s n : in_schema_range s n = true <-> minimum s <= n <= maximum s.
Proof. unfold in_schema_range. by rewrite andb_true_iff, !Z.leb_le. Qed.

(** The integer branch of every advertised schema is exactly what the
    decoder accepts: an integer is in the schema's range if and only if the
    field decodes, so a host that validates first neither rejects a good
    request nor forwards a bad one. *)
Theorem schema_range_exact n :
  in_schema_range schema_opt_usize n = is_ok (deserialize_opt_usize (Some (JInt n))) /\
  in_schema_range schema_opt_u32 n = is_ok (deserialize_opt_u32 (Some (JInt n))) /\
  in_schema_range schema_opt_u64 n = is_ok (deserialize_opt_u64 (Some (JInt n))) /\
  in_schema_range schema_nonzero_u32 n = is_ok (deserialize_nonzero_u32 (JInt n)) /\
  in_schema_range schema_opt_nonzero_u32 n =
    is_ok (deserialize_opt_nonzero_u32 (Some (JInt n))).
Proof.
  assert (Ho : is_ok (deserialize_opt_nonzero_u32 (Some (JInt n))) =
               is_ok (deserialize_nonzero_u32 (JInt n)))
    by (unfold deserialize_opt_nonzero_u32; by destruct (deserialize_nonzero_u32 _)).
  rewrite Ho. unfold deserialize_opt_usize, deserialize_opt_u32, deserialize_opt_u64.
  refine (conj _ (conj _ (conj _ (conj _ _)))); apply eq_true_iff_eq;
    rewrite ?opt_jint_ok, ?nonzero_jint_ok, in_schema_range_true;
    cbn; unfold i64_max, u32_max, u64_max; lia.
Qed.

(** The string branch of the non-zero schemas asks for no leading zero; the
    decoder does not. *)
Lemma nonzero_leading_zeros : deserialize_nonzero_u32 (JStr (lit "007")) = Ok 7.
Proof. reflexivity. Qed.

(** ** Selectors *)

Lemma deserialize_nonzero_bounds v n : deserialize_nonzero_u32 v = Ok n -> 1 <= n <= u32_max.
Proof.
  unfold deserialize_nonzero_u32. intros H.
  assert (exists m, (i ← deserialize_int_or_str v; intorstr_to_int t_u32 i) = Ok m /\ nonzero m = Ok n)
    as (m & Hm & Hn).
  { destruct (deserialize_int_or_str v) as [i|]; cbn in *; [|done].
    destruct (intorstr_to_int t_u32 i) as [m|]; cbn in *; [|done]. eauto. }
  apply decode_int_spec in Hm. unfold nonzero in Hn.
  destruct (m =? 0) eqn:E; [done|]. simplify_eq. zify_bool.
  destruct Hm as [[_ Hb]|(s & _ & _ & Hd & <- & Hb)]; cbn in *; [lia|].
  pose proof (parse_digits_nonneg s Hd). lia.
Qed.

Lemma mapM_result_Ok {E A B} (f : A -> result E B) l bs :
  mapM_result f l = Ok bs -> Forall2 (fun a b => f a = Ok b) l bs.
Proof.
  revert bs. induction l as [|a l IH]; intros bs; cbn; [intros; simplify_eq; constructor|].
  destruct (f a) as [b|] eqn:Ef; cbn; [|done].
  destruct (mapM_result f l) as [bs'|]; cbn; [|done]. intros. simplify_eq.
  constructor; [done|]. by apply IH.
Qed.

Lemma deserialize_bounded_uids_ok v us :
  deserialize_bounded_uids v = Ok us ->
  (1 <= length us <= 100)%nat /\ Forall (fun u => 1 <= u <= u32_max) us.
Proof.
  destruct v as [| | | | |items|]; cbn; try done.
  destruct (mapM_result _ items) as [raw|] eqn:E; cbn; [|done].
  apply mapM_result_Ok in E. unfold bounded_uids_try_from, MAX_BATCH_UIDS.
  destruct raw as [|u raw']; [done|]. destruct (100 <? _) eqn:El; cbn [map_err]; [done|].
  zify_bool. intros. simplify_eq. split; [cbn in *; lia|].
  clear -E. induction E; constructor; eauto using deserialize_nonzero_bounds.
Qed.

Definition present (m : jmap) (k : rstr) : Prop := exists v, jget m k = Some v /\ v <> JNull.

(** A field that decodes to something was present and not null. *)
Lemma opt_field_present {A} (f : json -> result de_error A) v r :
  match v with None | Some JNull => Ok None | Some w => a ← f w; Ok (Some a) end = Ok r ->
  match r with
  | Some a => exists w, v = Some w /\ w <> JNull /\ f w = Ok a
  | None => v = None \/ v = Some JNull
  end.
Proof.
  intros H. destruct v as [w|]; [|simplify_eq; auto].
  destruct w; try (simplify_eq; by auto);
    match type of H with context [f ?w] => destruct (f w) eqn:E end; cbn in H; simplify_eq; eauto.
Qed.

(** A decoded selector targets one to a hundred UIDs, each a non-zero
    [u32], and exactly one of "uid" and "uids" was given; a request with both
    or with neither never decodes. *)
Theorem uid_selector_spec m sel :
  deserialize_uid_selector m = Ok sel ->
  (1 <= length (into_uids sel) <= 100)%nat /\
  Forall (fun u => 1 <= u <= u32_max) (into_uids sel) /\
  (present m (lit "uid") /\ ~ present m (lit "uids") \/
   ~ present m (lit "uid") /\ present m (lit "uids")).
Proof.
  unfold deserialize_uid_selector, deserialize_wire, present.
  destruct (deserialize_opt_nonzero_u32 _) as [u|] eqn:Eu; cbn; [|done].
  destruct (deserialize_opt_bounded_uids _) as [us|] eqn:Eus; cbn; [|done].
  apply opt_field_present in Eu, Eus. intros H.
  destruct u as [u|], us as [us|]; simplify_eq.
  - destruct Eu as (w & Hw & Hn & Hd). apply deserialize_nonzero_bounds in Hd.
    split; [cbn; lia|]. split; [by apply Forall_singleton|]. left. naive_solver.
  - destruct Eus as (w & Hw & Hn & Hd). apply deserialize_bounded_uids_ok in Hd as [? ?].
    split; [done|]. split; [done|]. right. naive_solver.
Qed.

Lemma uid_selector_spec_witness :
  present [(lit "uids", JArr [JInt 4; JStr (lit "12")])] (lit "uids") /\
  deserialize_uid_selector [(lit "uids", JArr [JInt 4; JStr (lit "12")])] = Ok (Batch [4; 12]).
Proof.
  destruct (uid_selector_spec [(lit "uids", JArr [JInt 4; JStr (lit "12")])] (Batch [4; 12]))
    as (_ & _ & [[(v & Hv & _) _]|[_ H]]).
  - reflexivity.
  - discriminate Hv.
  - split; [exact H|reflexivity].
Defined.
