(* ===== verification/ToolCall.v ===== *)
(** * Naming a tool on the wire

    crates/rimap-server/src/mcp/tool_name.rs: the account namespace, the
    promotion of a call to its gated sub-capability, and the part of
    [dispatch_call_tool] (server.rs) that turns a request into the tool the
    guard sees. *)

From Stdlib Require Import ZArith Lia.
From stdpp Require Import base option list strings sets.
From S2P Require Import Prelude RustStr Tools Names Json.
Local Open Scope Z_scope.

(* [crates/rimap-server/src/mcp/tool_name.rs:197-199] is_valid_account_prefix *)
Definition is_valid_account_prefix (s : rstr) : bool :=
  negb (bool_decide (s = [])) && (str_len s <=? 64)
  && forallb (fun c => is_ascii_alphanumeric c || (c =? 45)) s.

(* [crates/rimap-server/src/mcp/tool_name.rs:180-192] split_tool_name *)
Definition split_tool_name (raw : rstr) : option rstr * rstr :=
  if is_ok (tool_from_str raw) then (None, raw)
  else match split_once 46 raw with
  | Some (prefix, rest) =>
      if is_valid_account_prefix prefix && is_ok (tool_from_str rest)
      then (Some prefix, rest) else (None, raw)
  | None => (None, raw)
  end.

(* [crates/rimap-server/src/mcp/tool_name.rs:145-153] is_bare_simple_tool_name *)
Definition is_bare_simple_tool_name (raw : rstr) : bool :=
  if existsb (Z.eqb 46) raw then false
  else match tool_from_str raw with
  | Err _ => false
  | Ok UseAccount | Ok ListAccounts => false
  | Ok _ => true
  end.

(** The [accounts] argument is the key list of the registry's map. *)
(* [crates/rimap-server/src/mcp/tool_name.rs:19-27] is_legacy_single_account *)
Definition is_legacy_single_account (accounts : list rstr) : bool :=
  match accounts with
  | [id] => match as_optional id with None => true | Some _ => false end
  | _ => false
  end.

(* [crates/rimap-server/src/mcp/tool_name.rs:159-173] validate_bare_tool_namespace *)
Definition validate_bare_tool_namespace (legacy_single_account : bool) (raw_name : rstr)
    : result rstr unit :=
  if negb legacy_single_account && is_bare_simple_tool_name raw_name
  then Err (lit "tool name must be namespaced in multi-account mode: <account>." ++ raw_name)
  else Ok tt.

(* [crates/rimap-server/src/tools/compose/message_builder.rs:349-351] body_html_is_present *)
Definition body_html_is_present (value : rstr) : bool := negb (bool_decide (trim value = [])).

(* [crates/rimap-server/src/mcp/tool_name.rs:89-93] promotes_draft_to_html *)
Definition promotes_draft_to_html (args : jmap) : bool :=
  match jget args (lit "body_html") ≫= as_json_str with
  | Some s => body_html_is_present s
  | None => false
  end.

Definition has_str (args : jmap) (k : rstr) : bool :=
  match jget args k ≫= as_json_str with Some _ => true | None => false end.

(* [crates/rimap-server/src/mcp/tool_name.rs:102-132] promotes_search_to_advanced *)
Definition promotes_search_to_advanced (args : jmap) : bool :=
  if has_str args (lit "advanced_query") || has_str args (lit "body")
     || has_str args (lit "text") || has_str args (lit "bcc")
  then true
  else match jget args (lit "headers") ≫= as_array with
  | Some arr => negb (match arr with [] => true | _ => false end)
  | None => false
  end.

(* [crates/rimap-server/src/mcp/tool_name.rs:32-81] refine_tool_name *)
Definition refine_tool_name (base : ToolName) (args : option jmap) : ToolName :=
  match args with
  | None => base
  | Some args =>
      match base with
      | FetchMessage =>
          if bool_decide (jget args (lit "include_html") ≫= as_bool = Some true)
          then FetchMessageHtml else base
      | Search => if promotes_search_to_advanced args then SearchAdvanced else base
      | CreateDraft => if promotes_draft_to_html args then CreateDraftHtml else base
      | _ => base
      end
  end.

(** ** Round trip of the namespace *)

Lemma account_char_no_dot a :
  forallb (fun c => is_ascii_alphanumeric c || (c =? 45)) a = true -> ~ 46 ∈ a.
Proof. intros Ha Hin%list_elem_of_In. rewrite List.forallb_forall in Ha. by apply Ha in Hin. Qed.

(** No wire name is another wire name behind a namespace. *)
Lemma dotted_tool_not_namespaced a t u :
  ~ 46 ∈ a -> as_str u <> a ++ 46 :: as_str t.
Proof.
  intros Ha Heq. assert (Hs : split_once 46 (as_str u) = Some (a, as_str t))
    by (by apply split_once_Some).
  destruct u; vm_compute in Hs; try done; injection Hs as _ Ht; by destruct t.
Qed.

Lemma tool_from_str_err s : (forall t, s <> as_str t) -> is_ok (tool_from_str s) = false.
Proof.
  intros Hn. destruct (tool_from_str s) as [t|] eqn:E; [|done].
  apply tool_name_iff in E. by apply Hn in E.
Qed.

Lemma tool_from_str_as_str t : tool_from_str (as_str t) = Ok t.
Proof. by destruct t. Qed.

Lemma account_id_is_prefix name id : account_id_new name = Ok id -> is_valid_account_prefix id = true.
Proof.
  intros (Hne & Hlen & Hch & ->)%account_id_new_ok. unfold is_valid_account_prefix.
  assert (Hch' : Forall (fun c => account_char c = true /\ 0 <= c < 128) (to_ascii_lowercase name)).
  { unfold to_ascii_lowercase. rewrite Forall_map. eapply Forall_impl; [exact Hch|].
    intros c Hc. cbn. unfold account_char, ascii_lower, is_ascii_alphanumeric, is_ascii_alphabetic,
      is_ascii_uppercase, is_ascii_lowercase, is_ascii_digit, between in *.
    rewrite !orb_true_iff, !andb_true_iff, !Z.leb_le, Z.eqb_eq in *.
    destruct ((65 <=? c) && (c <=? 90)) eqn:E; zify_bool; lia. }
  assert (Hasc : Forall (fun c => 0 <= c < 128) name).
  { eapply Forall_impl; [exact Hch|]. intros c Hc. cbn.
    unfold account_char, is_ascii_alphanumeric, is_ascii_alphabetic,
      is_ascii_uppercase, is_ascii_lowercase, is_ascii_digit, between in *.
    rewrite !orb_true_iff, !andb_true_iff, !Z.leb_le, Z.eqb_eq in Hc. lia. }
  rewrite !andb_true_iff. split; [split|].
  - apply negb_true_iff, bool_decide_eq_false. by destruct name.
  - apply Z.leb_le. rewrite str_len_ascii in *; [|done|].
    + unfold to_ascii_lowercase. by rewrite length_map.
    + eapply Forall_impl; [exact Hch'|]. cbn; tauto.
  - apply List.forallb_forall. intros c Hc%list_elem_of_In.
    rewrite Forall_forall in Hch'. by apply Hch' in Hc as [? _].
Qed.

Lemma split_namespaced name id t : account_id_new name = Ok id -> split_tool_name (id ++ lit "." ++ as_str t) = (Some id, as_str t).
Proof.
  intros Hid%account_id_is_prefix.
  assert (Hdot : ~ 46 ∈ id).
  { apply account_char_no_dot. unfold is_valid_account_prefix in Hid. rewrite !andb_true_iff in Hid. tauto. }
  unfold split_tool_name. rewrite tool_from_str_err; [|intros u Hu; by apply (dotted_tool_not_namespaced id t u Hdot)].
  change (lit "." ++ as_str t) with (46 :: as_str t).
  replace (split_once 46 (id ++ 46 :: as_str t)) with (Some (id, as_str t)) by (symmetry; by apply split_once_Some).
  by rewrite Hid, tool_from_str_as_str.
Qed.

Lemma account_id_idempotent name id : account_id_new name = Ok id -> account_id_new id = Ok id.
Proof.
  intros Hid. pose proof (account_id_is_prefix _ _ Hid) as Hp. apply account_id_new_ok in Hid as (Hne & Hlen & Hch & ->).
  unfold is_valid_account_prefix in Hp. rewrite !andb_true_iff in Hp. destruct Hp as [[Hn Hl] Hc].
  apply account_id_new_ok. split_and!; [by destruct name|by apply Z.leb_le in Hl| |by rewrite to_ascii_lowercase_idem].
  apply Forall_forall. intros c Hin%list_elem_of_In. rewrite List.forallb_forall in Hc. by apply Hc.
Qed.
(** Wire names are unambiguous.  The namespaced name of a tool for any
    registered account splits back into that account and that tool; every wire
    name of a tool, dotted or not, is read bare; and whatever is split off was
    really there, in front of a tool name. *)
Theorem split_tool_name_spec name id t raw a rest :
  account_id_new name = Ok id ->
  split_tool_name (id ++ lit "." ++ as_str t) = (Some id, as_str t) /\
  split_tool_name (as_str t) = (None, as_str t) /\
  (split_tool_name raw = (Some a, rest) ->
     raw = a ++ lit "." ++ rest /\ is_valid_account_prefix a = true /\ exists u, rest = as_str u) /\
  (split_tool_name raw = (None, rest) -> rest = raw).
Proof.
  intros Hid. split; [by eapply split_namespaced|split; [|split]].
  - unfold split_tool_name. by rewrite tool_from_str_as_str.
  - unfold split_tool_name. destruct (tool_from_str raw); cbn [is_ok]; [done|].
    destruct (split_once 46 raw) as [[p r]|] eqn:Es; [|done].
    destruct (is_valid_account_prefix p) eqn:Ep; cbn [andb]; [|done].
    destruct (tool_from_str r) as [u|] eqn:Er; cbn [is_ok]; [|done].
    intros Hs. simplify_eq. apply split_once_Some in Es as [-> _]. apply tool_name_iff in Er.
    eauto.
  - unfold split_tool_name. repeat case_goal; naive_solver.
Qed.

Lemma split_tool_name_spec_witness :
  split_tool_name (lit "work.search.advanced_query") =
    (Some (lit "work"), lit "search.advanced_query").
Proof.
  apply (split_tool_name_spec (lit "Work") (lit "work") SearchAdvanced [] [] []).
  reflexivity.
Defined.

(** ** Promotion *)

(** The gated variants cannot be reached below [full].  With no override,
    under [readonly] or [draft-safe], a [search], [fetch_message] or
    [create_draft] whose refined name the posture allows carries none of the
    arguments the sub-capability stands for: no content criterion, no raw
    query, no non-empty header list, no HTML request, no visible HTML body. *)
Theorem promotion_guards_low_postures p base args :
  posture_le p DraftSafe = true ->
  base_allows p (refine_tool_name base (Some args)) = true ->
  match base with
  | Search =>
      (forall k, k ∈ [lit "advanced_query"; lit "body"; lit "text"; lit "bcc"] ->
         forall s, jget args k <> Some (JStr s)) /\
      (forall h hs, jget args (lit "headers") <> Some (JArr (h :: hs)))
  | FetchMessage => jget args (lit "include_html") <> Some (JBool true)
  | CreateDraft =>
      forall s, jget args (lit "body_html") = Some (JStr s) ->
      Forall (fun c => is_whitespace c = true) s
  | _ => refine_tool_name base (Some args) = base
  end.
Proof.
  intros Hp Hb. destruct base; try done; cbn [refine_tool_name] in Hb.
  - destruct (promotes_search_to_advanced args) eqn:E; [by destruct p|].
    unfold promotes_search_to_advanced in E.
    destruct (_ || _) eqn:Eo; [done|]. rewrite !orb_false_iff in Eo. split.
    + intros k Hk s Hs. unfold has_str in Eo.
      repeat (apply elem_of_cons in Hk as [->|Hk]; [rewrite Hs in Eo; cbn in Eo; naive_solver|]).
      by apply elem_of_nil in Hk.
    + intros h hs Hh. by rewrite Hh in E.
  - case_bool_decide as Hi; [by destruct p|]. intros Hh. apply Hi. by rewrite Hh.
  - destruct (promotes_draft_to_html args) eqn:E; [by destruct p|].
    intros s Hs. unfold promotes_draft_to_html, body_html_is_present in E. rewrite Hs in E.
    cbn in E. apply negb_false_iff, bool_decide_eq_true in E. by apply trim_nil.
Qed.

Lemma promotion_guards_low_postures_witness :
  Forall (fun c => is_whitespace c = true) (lit "  ").
Proof.
  apply (promotion_guards_low_postures DraftSafe CreateDraft [(lit "body_html", JStr (lit "  "))]).
  - reflexivity.
  - vm_compute. reflexivity.
  - reflexivity.
Defined.
