(* ===== verification/McpErrors.v ===== *)
(** * Errors on the wire (crates/rimap-server/src/mcp/error.rs)

    How a tool's error reaches the client: inside the result or as a JSON-RPC
    error, with which message and which typed fields. *)

From Stdlib Require Import ZArith.
From stdpp Require Import base option list strings.
From S2P Require Import Prelude RustStr Tools Errors Json.
Local Open Scope Z_scope.

(* [crates/rimap-server/src/mcp/error.rs:15-15] POSTURE_DENIED *)
Definition POSTURE_DENIED : Z := -32001.
(* [crates/rimap-server/src/mcp/error.rs:18-18] RATE_LIMITED *)
Definition RATE_LIMITED : Z := -32003.
(* [crates/rimap-server/src/mcp/error.rs:21-21] CIRCUIT_OPEN *)
Definition CIRCUIT_OPEN : Z := -32004.
(* [crates/rimap-server/src/mcp/error.rs:24-24] ATTACHMENT_TOO_LARGE *)
Definition ATTACHMENT_TOO_LARGE : Z := -32005.
(* [crates/rimap-server/src/mcp/error.rs:30-30] NOT_INITIALIZED *)
Definition NOT_INITIALIZED : Z := -32002.

(** The codes the rmcp crate defines. *)
Record rmcp_codes := mkRmcpCodes { INVALID_PARAMS : Z; INTERNAL_ERROR : Z; RESOURCE_NOT_FOUND : Z }.

(** [rmcp]'s error object and call result, as far as this code fills them. *)
Record ErrorData := mkErrorData { ed_code : Z; ed_message : rstr; ed_data : option json }.
Record CallToolResult := mkCallResult { cr_text : list rstr; cr_structured : option json; cr_is_error : bool }.

(* [crates/rimap-server/src/mcp/error.rs:48-71] is_tool_execution_error *)
Definition is_tool_execution_error (err : RimapError) : bool :=
  match rimap_code err with
  | ENotFound | EUidValidityChanged | ERateLimited | ECircuitOpen | EAttachmentTooLarge
  | EImapProtocol | ESmtpProtocol | ETls | EAuth | EConnectionLost | ETimeout
  | EPostureDenied | EProtectedFolder | EExpungeDenied => true
  | EInvalidInput | ENoAccount | EUnknownAccount | EConfig | EInternal | ECancelled => false
  end.

(* [crates/rimap-server/src/mcp/error.rs:78-85] wire_message *)
Definition wire_message (err : RimapError) : rstr :=
  match rimap_code err with
  | EProtectedFolder | EExpungeDenied => lit "operation denied for this folder"
  | _ => rimap_to_string err
  end.

Definition json_strings (l : list rstr) : json := JArr (map JStr l).
Definition code_field (c : ErrorCode) : rstr * json := (lit "error_code", JStr (code_as_str c)).

(* [crates/rimap-server/src/mcp/error.rs:92-130] structured_error_data *)
Definition structured_error_data (err : RimapError) : option json :=
  match err with
  | RNoAccount available => Some (JObj [
      (lit "available", json_strings available); code_field ENoAccount;
      (lit "hint", JStr (lit "call use_account or pass account argument"))])
  | RUnknownAccount name available => Some (JObj [
      (lit "available", json_strings available); code_field EUnknownAccount; (lit "name", JStr name)])
  | RUidValidityChanged folder expected actual => Some (JObj [
      (lit "actual", JInt actual); code_field EUidValidityChanged; (lit "expected", JInt expected);
      (lit "folder", JStr folder)])
  | RRateLimited ms => Some (JObj [code_field ERateLimited; (lit "retry_after_ms", JInt ms)])
  | RCircuitOpen ms => Some (JObj [code_field ECircuitOpen; (lit "retry_after_ms", JInt ms)])
  | RAttachmentTooLarge kind limit => Some (JObj [
      code_field EAttachmentTooLarge; (lit "kind", JStr kind); (lit "limit", JInt limit)])
  | _ => None
  end.

(* [crates/rimap-server/src/mcp/error.rs:141-151] to_error_call_result *)
Definition to_error_call_result (err : RimapError) : CallToolResult :=
  mkCallResult [wire_message err]
    (Some (default (JObj [code_field (rimap_code err)]) (structured_error_data err))) true.

(* [crates/rimap-server/src/mcp/error.rs:161-187] to_mcp_error *)
Definition to_mcp_error (rc : rmcp_codes) (err : RimapError) : ErrorData :=
  let code := match rimap_code err with
    | EInvalidInput | ENoAccount | EUnknownAccount | EUidValidityChanged => INVALID_PARAMS rc
    | ENotFound => RESOURCE_NOT_FOUND rc
    | EPostureDenied | EProtectedFolder | EExpungeDenied => POSTURE_DENIED
    | ERateLimited => RATE_LIMITED
    | ECircuitOpen => CIRCUIT_OPEN
    | EAttachmentTooLarge => ATTACHMENT_TOO_LARGE
    | EImapProtocol | ESmtpProtocol | ETls | EAuth | EConnectionLost | ETimeout
    | EConfig | EInternal | ECancelled => INTERNAL_ERROR rc
    end in
  mkErrorData code (wire_message err) (structured_error_data err).

(** What the envelope answers for a failed call. *)
(* [crates/rimap-server/src/mcp/audit_envelope.rs:111-117] run_with_audit_envelope *)
Definition error_answer (rc : rmcp_codes) (err : RimapError) : ErrorData + CallToolResult :=
  if is_tool_execution_error err then inr (to_error_call_result err) else inl (to_mcp_error rc err).

(** The text and the data a client sees, through whichever channel. *)
Definition answer_text (a : ErrorData + CallToolResult) : list rstr :=
  match a with inl e => [ed_message e] | inr r => cr_text r end.
Definition answer_data (a : ErrorData + CallToolResult) : option json :=
  match a with inl e => ed_data e | inr r => cr_structured r end.

(** ** Theorems *)

Lemma error_code_field err : option_map (fun d => match d with JObj m => jget m (lit "error_code") | _ => None end)
    (structured_error_data err) =
  match structured_error_data err with Some _ => Some (Some (JStr (code_as_str (rimap_code err)))) | None => None end.
Proof. by destruct err. Qed.

(** A folder denied by policy stays unnamed. Two denials that differ only in
    the folder, or in being a protected folder's deletion, renaming or
    expunging, give the client the same answer up to the stable code, inside the
    result: neither text nor data depends on the folder. And every failed tool
    call answers as a tool error carrying exactly its own stable code, while
    every typed payload, on either channel, names the error's own code. *)
Theorem wire_errors rc :
  (forall f g op op', error_answer rc (rimap_of_authz (AProtectedFolder f op)) =
     error_answer rc (rimap_of_authz (AProtectedFolder g op'))) /\
  (forall f g, error_answer rc (rimap_of_authz (AExpungeDenied f)) = error_answer rc (rimap_of_authz (AExpungeDenied g))) /\
  (forall f g op, answer_text (error_answer rc (rimap_of_authz (AProtectedFolder f op))) =
     answer_text (error_answer rc (rimap_of_authz (AExpungeDenied g)))) /\
  (forall err r, error_answer rc err = inr r -> cr_is_error r = true /\
     exists m, cr_structured r = Some (JObj m) /\ jget m (lit "error_code") = Some (JStr (code_as_str (rimap_code err)))) /\
  (forall err m, answer_data (error_answer rc err) = Some (JObj m) ->
     jget m (lit "error_code") = Some (JStr (code_as_str (rimap_code err)))) /\
  (forall err e, error_answer rc err = inl e ->
     rimap_code err ∈ [EInvalidInput; ENoAccount; EUnknownAccount; EConfig; EInternal; ECancelled]).
Proof.
  assert (Hdata : forall err, exists m, cr_structured (to_error_call_result err) = Some (JObj m) /\
    jget m (lit "error_code") = Some (JStr (code_as_str (rimap_code err)))).
  { intros err. destruct err; eexists; (split; [reflexivity|]); try reflexivity. }
  split_and!; try done.
  - intros err r. unfold error_answer. destruct (is_tool_execution_error err); [|done]. intros [= <-]. split; [done|].
    apply Hdata.
  - intros err m. unfold error_answer. destruct (is_tool_execution_error err); cbn [answer_data].
    + intros Hm. destruct (Hdata err) as (m' & Hm' & Hj). congruence.
    + cbn [to_mcp_error ed_data]. intros Hm. pose proof (error_code_field err) as H. rewrite Hm in H. cbn in H. by simplify_eq.
  - intros err e. unfold error_answer, is_tool_execution_error.
    destruct (rimap_code err); intros [=]; by repeat (left || right).
Qed.

Lemma wire_errors_witness :
  jget [code_field ERateLimited; (lit "retry_after_ms", JInt 5)] (lit "error_code") = Some (JStr (lit "ERR_RATE_LIMITED")).
Proof.
  refine (proj1 (proj2 (proj2 (proj2 (proj2 (wire_errors (mkRmcpCodes 1 2 3)))))) (RRateLimited 5) _ _). reflexivity.
Defined.
