(* ===== verification/Redact.v ===== *)
(** * Redaction of tool arguments for the audit log

    crates/rimap-audit/src/redact.rs: the field policies, the redactor and
    the schema of every tool.  SHA-256 and the JSON serialiser are other
    crates' code, behind the class [Digest].  The [tracing::warn!] on a
    forbidden field is a log line and is left out. *)

From Stdlib Require Import ZArith Lia.
From stdpp Require Import base option list strings gmap sets.
From S2P Require Import Prelude RustStr Tools Json.
Local Open Scope Z_scope.

(* [crates/rimap-audit/src/redact.rs:54-83] VerbatimType *)
Inductive VerbatimType :=
  | VString
  | VDateString
  | VU64
  | VBool
  | VU64Array
  | VU64ArrayMax (max : Z)
  | VStringArray.

(* [crates/rimap-audit/src/redact.rs:27-48] FieldPolicy *)
Inductive FieldPolicy :=
  | Verbatim (vt : VerbatimType)
  | RedactString
  | SaltedHash
  | Forbidden.

(* [crates/rimap-audit/src/redact.rs:89-89] DATE_STRING_MAX_BYTES *)
Definition DATE_STRING_MAX_BYTES : Z := 32.

(* [crates/rimap-audit/src/redact.rs:94-100] RedactionSchema *)
Record RedactionSchema := mkSchema {
  schema_tool : ToolName;
  policies : gmap rstr FieldPolicy;
}.

(* [crates/rimap-audit/src/redact.rs:105-111] RedactionSchema::new *)
Definition schema_new (tool : ToolName) (rules : list (rstr * FieldPolicy)) : RedactionSchema :=
  mkSchema tool (foldl (fun m '(name, policy) => <[name := policy]> m) ∅ rules).

(* [crates/rimap-audit/src/redact.rs:125-130] RedactionSchema::policy_for *)
Definition policy_for (s : RedactionSchema) (name : rstr) : FieldPolicy :=
  match policies s !! name with Some p => p | None => RedactString end.

(** What the redactor calls: a hash function and the serialiser. *)
Class Digest := {
  sha256 : list Z -> list Z;
  json_to_vec : json -> list Z;
}.

(* [crates/rimap-audit/src/redact.rs:224-246] Redactor::verbatim_check *)
Definition verbatim_check (value : json) (vt : VerbatimType) : option json :=
  match vt with
  | VString => _ ← as_json_str value; Some value
  | VDateString =>
      s ← as_json_str value;
      if str_len s <=? DATE_STRING_MAX_BYTES then Some value else None
  | VU64 => _ ← as_u64 value; Some value
  | VBool => _ ← as_bool value; Some value
  | VU64Array =>
      arr ← as_array value; if forallb is_u64 arr then Some value else None
  | VU64ArrayMax max =>
      arr ← as_array value;
      if (Z.of_nat (length arr) <=? max) && forallb is_u64 arr then Some value else None
  | VStringArray =>
      arr ← as_array value; if forallb is_string arr then Some value else None
  end.

(* [crates/rimap-audit/src/redact.rs:248-254] Redactor::redact_string *)
Definition redact_string (value : json) : json :=
  match value with
  | JStr s => JStr (lit "<redacted:" ++ to_decimal (str_len s) ++ lit ">")
  | _ => JStr (lit "<redacted:?>")
  end.

Definition hex_digit (n : Z) : Z := if n <? 10 then 48 + n else 87 + n.
Definition hex_byte (b : Z) : rstr := [hex_digit (b / 16); hex_digit (b mod 16)].

Section redactor.
Context `{Digest}.

(* [crates/rimap-audit/src/redact.rs:260-275] Redactor::salted_hash *)
Definition salted_hash (salt : list Z) (value : json) : json :=
  let digest := sha256 (salt ++ json_to_vec value) in
  JStr (lit "salted:" ++ concat (map hex_byte (take 8 digest))).

(** The entry a field contributes, [None] when it is dropped. *)
(* [crates/rimap-audit/src/redact.rs:189-213] Redactor::apply *)
Definition redact_field (p : FieldPolicy) (salt : list Z) (value : json) : option json :=
  match p with
  | Verbatim vt =>
      match verbatim_check value vt with
      | Some v => Some v
      | None => Some (redact_string value)
      end
  | RedactString => Some (redact_string value)
  | SaltedHash => Some (salted_hash salt value)
  | Forbidden => None
  end.

(* [crates/rimap-audit/src/redact.rs:179-216] Redactor::apply *)
Definition redact_apply (schema : RedactionSchema) (salt : list Z) (args : json) : json :=
  match args with
  | JObj m =>
      JObj (omap (fun '(name, value) =>
              v ← redact_field (policy_for schema name) salt value; Some (name, v)) m)
  | _ => JObj [(lit "_non_object", JStr (lit "<redacted:?>"))]
  end.

(* [crates/rimap-audit/src/redact.rs:285-289] hash_arguments *)
Definition hash_arguments (args : json) : rstr := concat (map hex_byte (sha256 (json_to_vec args))).
End redactor.

(** ** The schema of each tool *)

(* [crates/rimap-audit/src/redact.rs:392-424] SEARCH_POLICIES *)
Definition SEARCH_POLICIES : list (rstr * FieldPolicy) := [
    (lit "folder", Verbatim VString);
    (lit "limit", Verbatim VU64);
    (lit "offset", Verbatim VU64);
    (lit "larger", Verbatim VU64);
    (lit "smaller", Verbatim VU64);
    (lit "since", Verbatim VDateString);
    (lit "before", Verbatim VDateString);
    (lit "sent_since", Verbatim VDateString);
    (lit "sent_before", Verbatim VDateString);
    (lit "seen", Verbatim VBool);
    (lit "answered", Verbatim VBool);
    (lit "flagged", Verbatim VBool);
    (lit "draft", Verbatim VBool);
    (lit "has_attachment", Verbatim VBool);
    (lit "from", RedactString);
    (lit "to", RedactString);
    (lit "cc", RedactString);
    (lit "bcc", RedactString);
    (lit "subject", RedactString);
    (lit "body", RedactString);
    (lit "text", RedactString);
    (lit "advanced_query", RedactString);
    (lit "headers", SaltedHash);
    (lit "password", Forbidden);
    (lit "token", Forbidden)].

(* [crates/rimap-audit/src/redact.rs:487-487] EXPORT_UIDS_REDACT_CAP *)
Definition EXPORT_UIDS_REDACT_CAP : Z := 100.

(* [crates/rimap-audit/src/redact.rs:372-375] list_folders_schema *)
Definition list_folders_schema (tool : ToolName) : RedactionSchema :=
  schema_new tool [
    (lit "password", Forbidden);
    (lit "token", Forbidden)].

(* [crates/rimap-audit/src/redact.rs:426-428] search_schema *)
Definition search_schema (tool : ToolName) : RedactionSchema :=
  schema_new tool SEARCH_POLICIES.

(* [crates/rimap-audit/src/redact.rs:430-432] search_advanced_schema *)
Definition search_advanced_schema (tool : ToolName) : RedactionSchema :=
  schema_new tool SEARCH_POLICIES.

(* [crates/rimap-audit/src/redact.rs:434-447] fetch_message_schema *)
Definition fetch_message_schema (tool : ToolName) : RedactionSchema :=
  schema_new tool [
    (lit "folder", Verbatim VString);
    (lit "uid", Verbatim VU64);
    (lit "include_html", Verbatim VBool);
    (lit "password", Forbidden);
    (lit "token", Forbidden)].

(* [crates/rimap-audit/src/redact.rs:452-464] folder_uid_schema *)
Definition folder_uid_schema (tool : ToolName) : RedactionSchema :=
  schema_new tool [
    (lit "folder", Verbatim VString);
    (lit "uid", Verbatim VU64);
    (lit "password", Forbidden);
    (lit "token", Forbidden)].

(* [crates/rimap-audit/src/redact.rs:466-479] download_attachment_schema *)
Definition download_attachment_schema (tool : ToolName) : RedactionSchema :=
  schema_new tool [
    (lit "folder", Verbatim VString);
    (lit "uid", Verbatim VU64);
    (lit "part", Verbatim VString);
    (lit "password", Forbidden);
    (lit "token", Forbidden)].

(* [crates/rimap-audit/src/redact.rs:489-506] export_messages_schema *)
Definition export_messages_schema (tool : ToolName) : RedactionSchema :=
  schema_new tool [
    (lit "folder", Verbatim VString);
    (lit "uids", Verbatim (VU64ArrayMax EXPORT_UIDS_REDACT_CAP));
    (lit "expected_uidvalidity", Verbatim VU64);
    (lit "max_total_bytes", Verbatim VU64);
    (lit "allow_partial", Verbatim VBool);
    (lit "dest_dir", RedactString);
    (lit "filename", RedactString);
    (lit "password", Forbidden);
    (lit "token", Forbidden)].

(* [crates/rimap-audit/src/redact.rs:508-521] flag_schema *)
Definition flag_schema (tool : ToolName) : RedactionSchema :=
  schema_new tool [
    (lit "folder", Verbatim VString);
    (lit "uid", Verbatim VU64);
    (lit "flag", Verbatim VString);
    (lit "password", Forbidden);
    (lit "token", Forbidden)].

(* [crates/rimap-audit/src/redact.rs:523-536] move_message_schema *)
Definition move_message_schema (tool : ToolName) : RedactionSchema :=
  schema_new tool [
    (lit "folder", Verbatim VString);
    (lit "uid", Verbatim VU64);
    (lit "destination", Verbatim VString);
    (lit "password", Forbidden);
    (lit "token", Forbidden)].

(* [crates/rimap-audit/src/redact.rs:538-560] create_draft_schema *)
Definition create_draft_schema (tool : ToolName) : RedactionSchema :=
  schema_new tool [
    (lit "folder", Verbatim VString);
    (lit "in_reply_to_uid", Verbatim VU64);
    (lit "to", SaltedHash);
    (lit "cc", SaltedHash);
    (lit "bcc", SaltedHash);
    (lit "subject", RedactString);
    (lit "body_text", RedactString);
    (lit "body_html", RedactString);
    (lit "attachments", RedactString);
    (lit "password", Forbidden);
    (lit "token", Forbidden)].

(* [crates/rimap-audit/src/redact.rs:566-582] forward_schema *)
Definition forward_schema (tool : ToolName) : RedactionSchema :=
  schema_new tool [
    (lit "folder", Verbatim VString);
    (lit "uid", Verbatim VU64);
    (lit "to", SaltedHash);
    (lit "cc", SaltedHash);
    (lit "bcc", SaltedHash);
    (lit "comment", RedactString);
    (lit "password", Forbidden);
    (lit "token", Forbidden)].

(* [crates/rimap-audit/src/redact.rs:584-610] send_email_schema *)
Definition send_email_schema (tool : ToolName) : RedactionSchema :=
  schema_new tool [
    (lit "to", SaltedHash);
    (lit "cc", SaltedHash);
    (lit "bcc", SaltedHash);
    (lit "subject", RedactString);
    (lit "body", RedactString);
    (lit "body_text", RedactString);
    (lit "body_html", RedactString);
    (lit "attachments", RedactString);
    (lit "in_reply_to", Verbatim VString);
    (lit "references", Verbatim VStringArray);
    (lit "message_id", Verbatim VString);
    (lit "smtp_response", RedactString);
    (lit "sent_copy_uid", Verbatim VU64);
    (lit "folder", Verbatim VString);
    (lit "password", Forbidden);
    (lit "token", Forbidden)].

(* [crates/rimap-audit/src/redact.rs:612-626] delete_message_schema *)
Definition delete_message_schema (tool : ToolName) : RedactionSchema :=
  schema_new tool [
    (lit "folder", Verbatim VString);
    (lit "uid", Verbatim VU64);
    (lit "message_id", Verbatim VString);
    (lit "destination", Verbatim VString);
    (lit "password", Forbidden);
    (lit "token", Forbidden)].

(* [crates/rimap-audit/src/redact.rs:628-641] expunge_schema *)
Definition expunge_schema (tool : ToolName) : RedactionSchema :=
  schema_new tool [
    (lit "folder", Verbatim VString);
    (lit "expunged_count", Verbatim VU64);
    (lit "expunged_uids", Verbatim VU64Array);
    (lit "password", Forbidden);
    (lit "token", Forbidden)].

(* [crates/rimap-audit/src/redact.rs:643-654] create_folder_schema *)
Definition create_folder_schema (tool : ToolName) : RedactionSchema :=
  schema_new tool [
    (lit "name", Verbatim VString);
    (lit "password", Forbidden);
    (lit "token", Forbidden)].

(* [crates/rimap-audit/src/redact.rs:656-668] rename_folder_schema *)
Definition rename_folder_schema (tool : ToolName) : RedactionSchema :=
  schema_new tool [
    (lit "old_name", Verbatim VString);
    (lit "new_name", Verbatim VString);
    (lit "password", Forbidden);
    (lit "token", Forbidden)].

(* [crates/rimap-audit/src/redact.rs:670-682] delete_folder_schema *)
Definition delete_folder_schema (tool : ToolName) : RedactionSchema :=
  schema_new tool [
    (lit "name", Verbatim VString);
    (lit "message_count", Verbatim VU64);
    (lit "password", Forbidden);
    (lit "token", Forbidden)].

(* [crates/rimap-audit/src/redact.rs:684-696] add_remove_label_schema *)
Definition add_remove_label_schema (tool : ToolName) : RedactionSchema :=
  schema_new tool [
    (lit "folder", Verbatim VString);
    (lit "uid", Verbatim VU64);
    (lit "uids", Verbatim VU64Array);
    (lit "label", Verbatim VString)].

(* [crates/rimap-audit/src/redact.rs:698-705] list_labels_schema *)
Definition list_labels_schema (tool : ToolName) : RedactionSchema :=
  schema_new tool [
    (lit "folder", Verbatim VString);
    (lit "uid", Verbatim VU64)].

(* [crates/rimap-audit/src/redact.rs:707-718] use_account_schema *)
Definition use_account_schema (tool : ToolName) : RedactionSchema :=
  schema_new tool [
    (lit "account", RedactString)].

(* [crates/rimap-audit/src/redact.rs:720-722] list_accounts_schema *)
Definition list_accounts_schema (tool : ToolName) : RedactionSchema :=
  schema_new tool [].

(* [crates/rimap-audit/src/redact.rs:339-370] ToolRedactionSchema::redaction_schema *)
Definition redaction_schema (t : ToolName) : RedactionSchema :=
  match t with
  | ListFolders => list_folders_schema t
  | Search => search_schema t
  | SearchAdvanced => search_advanced_schema t
  | FetchMessage | FetchMessageHtml => fetch_message_schema t
  | ListAttachments | MarkRead | MarkUnread => folder_uid_schema t
  | DownloadAttachment => download_attachment_schema t
  | ExportMessages => export_messages_schema t
  | Flag | Unflag => flag_schema t
  | MoveMessage => move_message_schema t
  | CreateDraft | CreateDraftHtml => create_draft_schema t
  | SendEmail => send_email_schema t
  | Forward => forward_schema t
  | DeleteMessage => delete_message_schema t
  | Expunge => expunge_schema t
  | CreateFolder => create_folder_schema t
  | RenameFolder => rename_folder_schema t
  | DeleteFolder => delete_folder_schema t
  | AddLabel | RemoveLabel => add_remove_label_schema t
  | ListLabels => list_labels_schema t
  | UseAccount => use_account_schema t
  | ListAccounts => list_accounts_schema t
  end.

(* [crates/rimap-audit/src/redact.rs:728-733] schemas *)
Definition schemas : list RedactionSchema := map redaction_schema all_tools.

(** ** What the redactor lets through *)

Section redactor_facts.
Context `{Digest}.

(** What an observer of the record may learn of a field's value. *)
Inductive observation :=
  | Whole (v : json)
  | LengthOf (bytes : Z)
  | NotAString
  | HashOf (v : json)
  | Nothing.

Definition observe_marker (v : json) : observation :=
  match v with JStr s => LengthOf (str_len s) | _ => NotAString end.

Definition observe (p : FieldPolicy) (v : json) : observation :=
  match p with
  | Verbatim vt =>
      match verbatim_check v vt with Some _ => Whole v | None => observe_marker v end
  | RedactString => observe_marker v
  | SaltedHash => HashOf v
  | Forbidden => Nothing
  end.

Lemma verbatim_check_id v vt w : verbatim_check v vt = Some w -> w = v.
Proof.
  destruct vt, v; cbn; try done; repeat (case_goal; cbn); intros; by simplify_eq.
Qed.

Lemma redact_string_observe v v' :
  observe_marker v = observe_marker v' -> redact_string v = redact_string v'.
Proof.
  unfold redact_string, observe_marker.
  destruct v, v'; intros Ho; try discriminate; try reflexivity; injection Ho as Ho; by rewrite Ho.
Qed.

Lemma redact_field_observe p salt v v' :
  observe p v = observe p v' -> redact_field p salt v = redact_field p salt v'.
Proof.
  destruct p as [vt| | |]; cbn; intros Ho; [|by rewrite (redact_string_observe v v' Ho)|by simplify_eq|done].
  destruct (verbatim_check v vt) as [w|] eqn:E, (verbatim_check v' vt) as [w'|] eqn:E'.
  - simplify_eq. congruence.
  - by destruct v'.
  - by destruct v.
  - by rewrite (redact_string_observe v v' Ho).
Qed.

Lemma redact_entries_observe tool salt m m' :
  Forall2 (fun '(k, v) '(k', v') =>
    k = k' /\ observe (policy_for (redaction_schema tool) k) v
            = observe (policy_for (redaction_schema tool) k) v') m m' ->
  redact_apply (redaction_schema tool) salt (JObj m) =
  redact_apply (redaction_schema tool) salt (JObj m').
Proof.
  intros Hm. cbn. f_equal. induction Hm as [|[k v] [k' v'] m m' [-> Ho] _ IH]; [done|].
  cbn. by rewrite (redact_field_observe _ salt v v' Ho), IH.
Qed.

(** The audit log's promise, stated apart from the schemas: the fields that may
    be read in clear, in what shape, and for which tools. *)
Inductive shape := Text | ShortText | Number | Boolean | Numbers | HundredNumbers | Texts.

Definition number (v : json) : Prop := exists n, v = JInt n /\ 0 <= n < 2 ^ 64.
Definition has_shape (s : shape) (v : json) : Prop :=
  match s with
  | Text => exists t, v = JStr t
  | ShortText => exists t, v = JStr t /\ str_len t <= 32
  | Number => number v
  | Boolean => exists b, v = JBool b
  | Numbers => exists l, v = JArr l /\ Forall number l
  | HundredNumbers => exists l, v = JArr l /\ Forall number l /\ (length l <= 100)%nat
  | Texts => exists l, v = JArr l /\ Forall (fun x => exists t, x = JStr t) l
  end.

Definition searches : list ToolName := [Search; SearchAdvanced].
Definition on_one_message : list ToolName :=
  [FetchMessage; FetchMessageHtml; ListAttachments; MarkRead; MarkUnread; DownloadAttachment; Flag; Unflag; MoveMessage;
   Forward; DeleteMessage; AddLabel; RemoveLabel; ListLabels].

Definition readable_fields : list (rstr * shape * list ToolName) := [
  (lit "folder", Text, searches ++ on_one_message ++ [ExportMessages; CreateDraft; CreateDraftHtml; SendEmail; Expunge]);
  (lit "uid", Number, on_one_message);
  (lit "limit", Number, searches); (lit "offset", Number, searches); (lit "larger", Number, searches); (lit "smaller", Number, searches);
  (lit "since", ShortText, searches); (lit "before", ShortText, searches);
  (lit "sent_since", ShortText, searches); (lit "sent_before", ShortText, searches);
  (lit "seen", Boolean, searches); (lit "answered", Boolean, searches); (lit "flagged", Boolean, searches);
  (lit "draft", Boolean, searches); (lit "has_attachment", Boolean, searches);
  (lit "include_html", Boolean, [FetchMessage; FetchMessageHtml]);
  (lit "part", Text, [DownloadAttachment]);
  (lit "uids", HundredNumbers, [ExportMessages]); (lit "uids", Numbers, [AddLabel; RemoveLabel]);
  (lit "expected_uidvalidity", Number, [ExportMessages]); (lit "max_total_bytes", Number, [ExportMessages]);
  (lit "allow_partial", Boolean, [ExportMessages]);
  (lit "flag", Text, [Flag; Unflag]); (lit "label", Text, [AddLabel; RemoveLabel]);
  (lit "destination", Text, [MoveMessage; DeleteMessage]);
  (lit "in_reply_to_uid", Number, [CreateDraft; CreateDraftHtml]);
  (lit "in_reply_to", Text, [SendEmail]); (lit "references", Texts, [SendEmail]); (lit "sent_copy_uid", Number, [SendEmail]);
  (lit "message_id", Text, [SendEmail; DeleteMessage]);
  (lit "expunged_count", Number, [Expunge]); (lit "expunged_uids", Numbers, [Expunge]);
  (lit "name", Text, [CreateFolder; DeleteFolder]); (lit "message_count", Number, [DeleteFolder]);
  (lit "old_name", Text, [RenameFolder]); (lit "new_name", Text, [RenameFolder])].

(** Recipients and searched headers are seen through eight bytes of a salted
    digest. *)
Definition hashed_fields : list (rstr * list ToolName) :=
  let drafts := [CreateDraft; CreateDraftHtml; SendEmail; Forward] in
  [(lit "to", drafts); (lit "cc", drafts); (lit "bcc", drafts); (lit "headers", searches)].

(** Credentials are not seen at all; five tools whose schema does not list them
    show their length. *)
Definition hidden (tool : ToolName) (k : rstr) : bool :=
  bool_decide (k = lit "password" \/ k = lit "token") &&
  negb (bool_decide (tool ∈ [AddLabel; RemoveLabel; ListLabels; UseAccount; ListAccounts])).

Definition readable (tool : ToolName) (k : rstr) : option shape :=
  head (omap (fun '(f, s, tools) => if bool_decide (f = k /\ tool ∈ tools) then Some s else None) readable_fields).
Definition hashed (tool : ToolName) (k : rstr) : bool :=
  existsb (fun '(f, tools) => bool_decide (f = k /\ tool ∈ tools)) hashed_fields.

(** Of any other value the length is seen, if it is a string. *)
Definition same_length (v v' : json) : Prop :=
  match v, v' with
  | JStr s, JStr s' => str_len s = str_len s'
  | JStr _, _ | _, JStr _ => False
  | _, _ => True
  end.
Definition digest8 (salt : list Z) (v : json) : list Z := take 8 (sha256 (salt ++ json_to_vec v)).

Definition looks_same (tool : ToolName) (salt : list Z) (k : rstr) (v v' : json) : Prop :=
  match readable tool k with
  | Some s => v = v' \/ ~ has_shape s v /\ ~ has_shape s v' /\ same_length v v'
  | None =>
      if hashed tool k then digest8 salt v = digest8 salt v'
      else if hidden tool k then True else same_length v v'
  end.

(** The promise and the schemas say the same of every field. *)
Definition type_of (s : shape) : VerbatimType :=
  match s with
  | Text => VString | ShortText => VDateString | Number => VU64 | Boolean => VBool | Numbers => VU64Array
  | HundredNumbers => VU64ArrayMax 100 | Texts => VStringArray
  end.
Definition promised (tool : ToolName) (k : rstr) : FieldPolicy :=
  match readable tool k with
  | Some s => Verbatim (type_of s)
  | None => if hashed tool k then SaltedHash else if hidden tool k then Forbidden else RedactString
  end.

Definition policy_eqb (p q : FieldPolicy) : bool :=
  match p, q with
  | RedactString, RedactString | SaltedHash, SaltedHash | Forbidden, Forbidden => true
  | Verbatim VString, Verbatim VString | Verbatim VDateString, Verbatim VDateString | Verbatim VU64, Verbatim VU64
  | Verbatim VBool, Verbatim VBool | Verbatim VU64Array, Verbatim VU64Array | Verbatim VStringArray, Verbatim VStringArray => true
  | Verbatim (VU64ArrayMax n), Verbatim (VU64ArrayMax m) => n =? m
  | _, _ => false
  end.
Lemma policy_eqb_eq p q : policy_eqb p q = true -> p = q.
Proof. destruct p as [[]| | |], q as [[]| | |]; cbn; intros Hq; try done. by apply Z.eqb_eq in Hq as ->. Qed.

Definition listed : list rstr := map (fun x => x.1.1) readable_fields ++ map fst hashed_fields ++ [lit "password"; lit "token"].

Lemma unlisted tool k : k ∉ listed -> promised tool k = RedactString.
Proof.
  unfold listed. rewrite !not_elem_of_app. intros (Hr & Hh & Hc). unfold promised.
  assert (readable tool k = None) as ->.
  { unfold readable. replace (omap _ readable_fields) with (@nil shape); [done|]. symmetry. apply elem_of_nil_inv. intros s.
    rewrite list_elem_of_omap. intros ([[f s'] tools] & Hin & Hs). case_bool_decide as Hf; [|done]. destruct Hf as [-> _]. apply Hr.
    apply list_elem_of_fmap. by exists (k, s', tools). }
  assert (hashed tool k = false) as ->.
  { apply not_true_iff_false. unfold hashed. rewrite existsb_exists. intros ([f tools] & Hin & [-> _]%bool_decide_eq_true). apply Hh.
    apply list_elem_of_fmap. exists (k, tools). split; [done|]. by apply list_elem_of_In. }
  replace (hidden tool k) with false; [done|]. unfold hidden. rewrite bool_decide_eq_false_2; [done|].
  rewrite !not_elem_of_cons in Hc. tauto.
Qed.

Lemma schema_keys tool k p : policies (redaction_schema tool) !! k = Some p -> policy_eqb (promised tool k) p = true.
Proof.
  assert (Hall : forallb (fun '(k, p) => policy_eqb (promised tool k) p) (map_to_list (policies (redaction_schema tool))) = true)
    by (destruct tool; vm_compute; reflexivity).
  intros Hk%elem_of_map_to_list%list_elem_of_In. rewrite forallb_forall in Hall. exact (Hall _ Hk).
Qed.

Lemma policy_promised tool k : policy_for (redaction_schema tool) k = promised tool k.
Proof.
  destruct (decide (k ∈ listed)) as [Hk|Hk].
  - assert (Hall : forallb (fun k => policy_eqb (policy_for (redaction_schema tool) k) (promised tool k)) listed = true)
      by (destruct tool; vm_compute; reflexivity).
    rewrite forallb_forall in Hall. apply policy_eqb_eq, Hall. by apply list_elem_of_In.
  - rewrite unlisted by done. unfold policy_for. destruct (policies (redaction_schema tool) !! k) as [p|] eqn:Ep; [|done].
    apply schema_keys, policy_eqb_eq in Ep. by rewrite <- Ep, unlisted.
Qed.

Lemma is_u64_number v : is_u64 v = true <-> number v.
Proof.
  unfold is_u64, as_u64, number. split.
  - destruct v as [| |n| | | |]; try done. destruct (_ && _) eqn:E; [|done]. intros _. exists n. split; [done|]. apply andb_true_iff in E. rewrite !Z.leb_le in E. unfold u64_max in E. lia.
  - intros (n & -> & Hn). destruct (_ && _) eqn:E; [done|]. apply andb_false_iff in E. rewrite !Z.leb_gt in E. unfold u64_max in E. lia.
Qed.

Lemma all_numbers l : forallb is_u64 l = true <-> Forall number l.
Proof. rewrite forallb_forall, List.Forall_forall. setoid_rewrite is_u64_number. done. Qed.
Lemma all_texts l : forallb is_string l = true <-> Forall (fun x => exists t, x = JStr t) l.
Proof.
  rewrite forallb_forall, List.Forall_forall. apply forall_proper. intros x. split; intros Hx Hin; specialize (Hx Hin).
  - destruct x; try done. by eexists.
  - by destruct Hx as [t ->].
Qed.

Lemma verbatim_shape v s : is_Some (verbatim_check v (type_of s)) <-> has_shape s v.
Proof.
  destruct s; cbn.
  - destruct v; cbn; split; first [by intros [? ?]|eauto].
  - destruct v; cbn; try (split; [by intros [? ?]|by intros (? & ? & _)]). unfold DATE_STRING_MAX_BYTES. destruct (_ <=? 32) eqn:E.
    + split; [intros _; eexists; split; [done|by apply Z.leb_le]|by eexists].
    + split; [by intros [? ?]|]. intros (t & [= <-] & Ht). apply Z.leb_gt in E. lia.
  - rewrite <- is_u64_number. unfold is_u64. destruct (as_u64 v); cbn; split; first [by intros [? ?]|by eauto|done].
  - destruct v; cbn; split; first [by intros [? ?]|eauto].
  - destruct v as [| | | | |l|]; cbn; try (split; [by intros [? ?]|by intros (? & ? & _)]). 
    pose proof (all_numbers l) as Hl. destruct (forallb is_u64 l); split; intros Hv; try by destruct Hv as [? ?].
    + exists l. split; [done|by apply Hl].
    + destruct Hv as (l' & [= <-] & Hf). by apply Hl in Hf.
  - destruct v as [| | | | |l|]; cbn; try (split; [by intros [? ?]|by intros (? & ? & _)]).
    pose proof (all_numbers l) as Hl. destruct (Z.leb_spec (Z.of_nat (length l)) 100), (forallb is_u64 l); cbn; split; intros Hv; try by destruct Hv as [? ?].
    + exists l. split; [done|]. split; [by apply Hl|lia].
    + destruct Hv as (l' & [= <-] & Hf & _). by apply Hl in Hf.
    + destruct Hv as (l' & [= <-] & _ & Hf). lia.
    + destruct Hv as (l' & [= <-] & _ & Hf). lia.
  - destruct v as [| | | | |l|]; cbn; try (split; [by intros [? ?]|by intros (? & ? & _)]).
    pose proof (all_texts l) as Hl. destruct (forallb is_string l); split; intros Hv; try by destruct Hv as [? ?].
    + exists l. split; [done|by apply Hl].
    + destruct Hv as (l' & [= <-] & Hf). by apply Hl in Hf.
Qed.

Lemma same_length_redact v v' : same_length v v' -> redact_string v = redact_string v'.
Proof. destruct v, v'; cbn; try done. by intros ->. Qed.

Lemma looks_same_redact tool salt k v v' : looks_same tool salt k v v' ->
  redact_field (policy_for (redaction_schema tool) k) salt v = redact_field (policy_for (redaction_schema tool) k) salt v'.
Proof.
  rewrite policy_promised. unfold looks_same, promised. destruct (readable tool k) as [s|].
  - intros [->|(Hv & Hv' & Hl)]; [done|]. cbn. rewrite <- verbatim_shape in Hv, Hv'.
    destruct (verbatim_check v _); [by destruct Hv; eexists|]. destruct (verbatim_check v' _); [by destruct Hv'; eexists|].
    by rewrite (same_length_redact v v').
  - destruct (hashed tool k); [cbn; unfold salted_hash; by unfold digest8; intros ->|]. destruct (hidden tool k); [done|].
    cbn. intros Hl. by rewrite (same_length_redact v v').
Qed.

(** C6: non-interference of the redacted arguments.  Take two calls of a tool
    whose arguments have the same field names, and whose values look the same:
    equal in a field of the table of readable ones, where the value has the
    shape given there (a text; a date text of at most 32 bytes; a number below
    2^64; a boolean; an array of numbers, of at most 100 for an export; an
    array of texts); with the same first eight bytes of the salted digest in the
    recipients of a draft, sent or forwarded mail and the searched headers;
    whatever the value in a password or token; and in other fields, or where the
    shape is not the one given, of the same byte length if strings.  Then
    arguments_redacted is the same.  Five tools do not list password and token
    and show their length: add_label, remove_label, list_labels, use_account and
    list_accounts.  This is about arguments_redacted alone: the start record
    also has arguments_hash_sha256, the unsalted SHA-256 of all the arguments,
    which can confirm a guess. *)
Theorem redaction_noninterference tool salt m m' :
  Forall2 (fun '(k, v) '(k', v') => k = k' /\ looks_same tool salt k v v') m m' ->
  redact_apply (redaction_schema tool) salt (JObj m) = redact_apply (redaction_schema tool) salt (JObj m').
Proof.
  intros Hm. cbn. f_equal. induction Hm as [|[k v] [k' v'] m m' [<- Ho] _ IH]; [done|].
  cbn. by rewrite (looks_same_redact _ _ _ _ _ Ho), IH.
Qed.

(** The markers the redactor writes. *)
Definition marker (v : json) : Prop :=
  (exists n, v = JStr (lit "<redacted:" ++ to_decimal n ++ lit ">")) \/
  v = JStr (lit "<redacted:?>").

Lemma redact_string_marker v : marker (redact_string v).
Proof. destruct v; cbn; unfold marker; eauto. Qed.

Definition credential : list rstr := [lit "password"; lit "token"].

Lemma credential_policy tool k :
  k ∈ credential -> policy_for (redaction_schema tool) k = Forbidden \/
                    policy_for (redaction_schema tool) k = RedactString.
Proof.
  intros Hk. repeat (apply elem_of_cons in Hk as [->|Hk];
    [destruct tool; (left; by vm_compute) || (right; by vm_compute)|]).
  by apply elem_of_nil in Hk.
Qed.

Lemma redact_apply_entries tool salt m k w :
  (k, w) ∈ (match redact_apply (redaction_schema tool) salt (JObj m) with
            | JObj out => out | _ => [] end) ->
  exists v, (k, v) ∈ m /\ redact_field (policy_for (redaction_schema tool) k) salt v = Some w.
Proof.
  cbn. rewrite list_elem_of_omap. intros ([k' v] & Hin & Hf).
  destruct (redact_field _ salt v) as [w'|] eqn:E; cbn in Hf; simplify_eq. eauto.
Qed.

(** Every entry of a redacted record comes from an argument of the same
    name and is either that argument's own value, under a verbatim policy
    whose type it has, or a length marker, or a salted hash; and for every
    tool the value under "password" or "token" is at most its length. *)
Theorem redacted_entries tool salt m k w :
  (k, w) ∈ (match redact_apply (redaction_schema tool) salt (JObj m) with
            | JObj out => out | _ => [] end) ->
  (exists v, (k, v) ∈ m /\
    ((exists vt, policy_for (redaction_schema tool) k = Verbatim vt /\
                 verbatim_check v vt = Some v /\ w = v) \/
     marker w \/
     (policy_for (redaction_schema tool) k = SaltedHash /\ w = salted_hash salt v))) /\
  (k ∈ credential -> marker w).
Proof.
  intros (v & Hin & Hf)%redact_apply_entries. split.
  - exists v. split; [done|].
    destruct (policy_for _ k) as [vt| | |]; cbn in Hf; simplify_eq; auto using redact_string_marker.
    destruct (verbatim_check v vt) as [x|] eqn:E; simplify_eq; [|auto using redact_string_marker].
    pose proof (verbatim_check_id _ _ _ E) as ->. eauto 6.
  - intros [Hp|Hp]%(credential_policy tool); rewrite Hp in Hf; cbn in Hf; simplify_eq.
    apply redact_string_marker.
Qed.
End redactor_facts.

(** An instance for examples: the hash shows its input's first bytes. *)
#[export] Instance sample_digest : Digest :=
  { sha256 := fun bs => take 32 (bs ++ repeat 0 32); json_to_vec := fun _ => [1; 2; 3] }.

Lemma redaction_noninterference_witness :
  redact_apply (redaction_schema CreateDraft) [7]
    (JObj [(lit "body_text", JStr (lit "meet at 5")); (lit "token", JStr (lit "abc"));
           (lit "folder", JStr (lit "Drafts")); (lit "to", JStr (lit "a@b.c")); (lit "in_reply_to_uid", JStr (lit "x"))]) =
  redact_apply (redaction_schema CreateDraft) [7]
    (JObj [(lit "body_text", JStr (lit "meet at 9")); (lit "token", JNull);
           (lit "folder", JStr (lit "Drafts")); (lit "to", JStr (lit "d@e.f")); (lit "in_reply_to_uid", JStr (lit "y"))]).
Proof.
  apply (redaction_noninterference CreateDraft [7]).
  repeat first [apply List.Forall2_nil | apply List.Forall2_cons; [split; [reflexivity|]|]]; cbn; try reflexivity.
  - left. reflexivity.
  - right. split; [|split; [|reflexivity]]; intros (n & Hn & _); discriminate.
Defined.

Lemma redacted_entries_witness :
  marker (JStr (lit "<redacted:5>")).
Proof.
  refine (proj2 (redacted_entries AddLabel [7] [(lit "password", JStr (lit "hunte"))]
    (lit "password") (JStr (lit "<redacted:5>")) _) _).
  - left.
  - left.
Defined.

(** [U64ArrayMax] is documented as the policy for caller-supplied UID arrays,
    because arguments are recorded before the handler rejects them; the label
    tools' [uids], which the handler caps at 100, is declared [U64Array]. *)
Lemma label_uids_uncapped n :
  let uids := JArr (repeat (JInt 1) n) in
  redact_apply (redaction_schema AddLabel) [] (JObj [(lit "uids", uids)]) =
  JObj [(lit "uids", uids)].
Proof.
  intros uids. cbn [redact_apply omap list_omap].
  replace (policy_for (redaction_schema AddLabel) (lit "uids")) with (Verbatim VU64Array)
    by (by vm_compute).
  unfold redact_field, verbatim_check, uids. cbn [as_array mbind option_bind].
  assert (Hr : forallb is_u64 (repeat (JInt 1) n) = true) by (by induction n).
  by rewrite Hr.
Qed.
