(* ===== verification/Wire.v ===== *)
(** * The wire validator (crates/rimap-server/src/mcp: wire_validator/, preinit.rs)

    Each line from the client is classified before the protocol library sees
    it: forwarded, skipped, or answered with an error.  Parsing and printing
    JSON is the serde_json crate's, behind [JsonText]: [read_tree] is the first
    value of a line as it is written, repeated keys included, [read_value] the
    value of the whole line. *)

From Stdlib Require Import ZArith Lia.
From stdpp Require Import base option list numbers strings sets.
From S2P Require Import Prelude RustStr Json McpErrors.
Local Open Scope Z_scope.

(** ** JSON text *)

(** [BTreeMap::insert]. *)
Fixpoint map_insert (k : rstr) (v : json) (m : jmap) : jmap :=
  match m with
  | [] => [(k, v)]
  | (k', v') :: m' =>
      if str_eqb k' k then (k, v) :: m' else if str_leb k k' then (k, v) :: m else (k', v') :: map_insert k v m'
  end.

(** What a [Value] keeps of a tree: of a repeated key, the last. *)
Fixpoint collapse (t : json) : json :=
  match t with
  | JArr items => JArr (map collapse items)
  | JObj es => JObj (fold_left (fun m '(k, v) => map_insert k (collapse v) m) es [])
  | _ => t
  end.
Definition collapse_entries (es : jmap) : jmap := fold_left (fun m '(k, v) => map_insert k (collapse v) m) es [].

Class JsonText := {
  read_tree : rstr -> option json;
  read_value : rstr -> option json;
  print_json : json -> rstr;
  value_of_tree : forall line v, read_value line = Some v -> exists t, read_tree line = Some t /\ v = collapse t;
  print_one_line : forall v, ~ 10 ∈ print_json v;
}.

(** ** Shapes *)

(* [crates/rimap-server/src/mcp/wire_validator/mod.rs:50-54] ErrorEnvelope *)
Record ErrorEnvelope := mkEnvelopeError { ee_code : Z; ee_message : rstr; ee_id : json }.
(* [crates/rimap-server/src/mcp/wire_validator/mod.rs:39-46] ValidationOutcome *)
Inductive ValidationOutcome := Forward | Skip | Reject (e : ErrorEnvelope).

Definition as_i64 (v : json) : option Z :=
  match v with JInt n => if (- 2 ^ 63 <=? n) && (n <? 2 ^ 63) then Some n else None | _ => None end.
Definition as_object (v : json) : option jmap := match v with JObj m => Some m | _ => None end.
Definition is_null (v : json) : bool := match v with JNull => true | _ => false end.

(* [crates/rimap-server/src/mcp/wire_validator/envelope.rs:17-22] is_forwardable_id *)
Definition is_forwardable_id (v : json) : bool :=
  if is_string v then true else match as_i64 v with Some _ => true | None => false end.

(* [crates/rimap-server/src/mcp/wire_validator/envelope.rs:42-49] is_valid_params *)
Definition is_valid_params (v : json) : bool :=
  match as_object v with
  | Some obj =>
      match jget obj (lit "_meta") with
      | None => true
      | Some meta => match as_object meta with Some _ => true | None => is_null meta end
      end
  | None => is_null v
  end.

(* [crates/rimap-server/src/mcp/wire_validator/envelope.rs:55-65] is_well_formed_error *)
Definition is_well_formed_error (v : json) : bool :=
  match as_object v with
  | None => false
  | Some obj =>
      match jget obj (lit "code") ≫= as_i64 with Some n => (- 2 ^ 31 <=? n) && (n <? 2 ^ 31) | None => false end
      && match jget obj (lit "message") with Some m => is_string m | None => false end
  end.

(* [crates/rimap-server/src/mcp/wire_validator/envelope.rs:83-88] extract_id *)
Definition extract_id (obj : jmap) : json :=
  match jget obj (lit "id") with Some v => if is_forwardable_id v then v else JNull | None => JNull end.

(* [crates/rimap-server/src/mcp/wire_validator/envelope.rs:90-96] parse_error *)
Definition parse_error : ErrorEnvelope := mkEnvelopeError (-32700) (lit "Parse error") JNull.
(* [crates/rimap-server/src/mcp/wire_validator/envelope.rs:98-104] invalid_request *)
Definition invalid_request (id : json) : ErrorEnvelope := mkEnvelopeError (-32600) (lit "Invalid Request") id.

(** ** Repeated keys *)

(** [seen] is the hash set of the keys so far. *)
(* [crates/rimap-server/src/mcp/wire_validator/envelope.rs:150-161] OneLevelDupCheck::visit_map *)
Fixpoint level_dup (only : option rstr) (seen : list rstr) (es : jmap) : bool :=
  match es with
  | [] => false
  | (key, _) :: es' =>
      let counted := match only with None => true | Some o => str_eqb o key end in
      (bool_decide (key ∈ seen) && counted) || level_dup only (key :: seen) es'
  end.
(* [crates/rimap-server/src/mcp/wire_validator/envelope.rs:143-192] OneLevelDupCheck *)
Definition one_level_dup (only : option rstr) (v : json) : bool :=
  match v with JObj es => level_dup only [] es | _ => false end.

(* [crates/rimap-server/src/mcp/wire_validator/envelope.rs:196-202] DuplicateKeys *)
Record DuplicateKeys := mkDuplicates { dk_envelope : bool; dk_params_meta : bool }.

(* [crates/rimap-server/src/mcp/wire_validator/envelope.rs:232-260] TopAndErrorDupCheck::visit_map *)
Fixpoint top_dup (seen : list rstr) (es : jmap) (found : DuplicateKeys) : DuplicateKeys :=
  match es with
  | [] => found
  | (key, v) :: es' =>
      let found :=
        if str_eqb key (lit "error") then mkDuplicates (dk_envelope found || one_level_dup None v) (dk_params_meta found)
        else if str_eqb key (lit "params")
        then mkDuplicates (dk_envelope found) (dk_params_meta found || one_level_dup (Some (lit "_meta")) v)
        else found in
      let found := if bool_decide (key ∈ seen) then mkDuplicates true (dk_params_meta found) else found in
      top_dup (key :: seen) es' found
  end.

Section text.
Context `{JsonText}.

(** A line that does not read reports no duplicates; what follows the first
    value is not looked at. *)
(* [crates/rimap-server/src/mcp/wire_validator/envelope.rs:328-332] scan_duplicate_keys *)
Definition scan_duplicate_keys (line : rstr) : DuplicateKeys :=
  match read_tree line with Some (JObj es) => top_dup [] es (mkDuplicates false false) | _ => mkDuplicates false false end.

(* [crates/rimap-server/src/mcp/wire_validator/envelope.rs:335-392] validate *)
Definition validate (line : rstr) : ValidationOutcome :=
  if bool_decide (trim line = []) then Skip
  else
    let duplicates := scan_duplicate_keys line in
    if dk_envelope duplicates then Reject (invalid_request JNull)
    else match read_value line with
    | None => Reject parse_error
    | Some parsed =>
        match as_object parsed with
        | None => Reject (invalid_request JNull)
        | Some obj =>
            if negb (bool_decide (jget obj (lit "jsonrpc") ≫= as_json_str = Some (lit "2.0")))
            then Reject (invalid_request (extract_id obj))
            else
              let id := jget obj (lit "id") in
              if match id with Some v => negb (is_forwardable_id v) | None => false end
              then Reject (invalid_request JNull)
              else
                  let id_present_and_valid := match id with Some _ => true | None => false end in
                  let params_ok := negb (dk_params_meta duplicates) &&
                    match jget obj (lit "params") with Some p => is_valid_params p | None => true end in
                  let forwarded :=
                    match jget obj (lit "method"), jget obj (lit "result"), jget obj (lit "error") with
                    | Some m, None, None => is_string m && params_ok
                    | None, Some _, None => id_present_and_valid
                    | None, None, Some err => id_present_and_valid && is_well_formed_error err
                    | _, _, _ => false
                    end in
                  if forwarded then Forward else Reject (invalid_request (extract_id obj))
        end
    end.

(** An object's members are in key order. *)
(* [crates/rimap-server/src/mcp/wire_validator/envelope.rs:407-430] synthesize_error_line *)
Definition synthesize_error_line (env : ErrorEnvelope) : rstr :=
  let error := JObj [(lit "code", JInt (ee_code env)); (lit "message", JStr (ee_message env))] in
  let body :=
    if is_null (ee_id env) then JObj [(lit "error", error); (lit "jsonrpc", JStr (lit "2.0"))]
    else JObj [(lit "error", error); (lit "id", ee_id env); (lit "jsonrpc", JStr (lit "2.0"))] in
  print_json body ++ [10].

(** ** Before initialization *)

(** What the protocol library reads of a request. *)
Inductive request_kind := InitializeRequest | PingRequest | OtherRequest.
Record client_request := mkRequest { cr_id : json; cr_kind : request_kind; cr_complete_metadata : bool }.
Inductive client_message := Request (r : client_request) | Notification | Response | ErrorResponse.

(* [crates/rimap-server/src/mcp/preinit.rs:22-41] synthesize_pre_init_error_envelope *)
Definition synthesize_pre_init_error_envelope (msg : client_message) : option rstr :=
  match msg with
  | Request req =>
      Some (print_json (JObj [
        (lit "error", JObj [(lit "code", JInt NOT_INITIALIZED);
           (lit "message", JStr (lit "Server not initialized: send `initialize` before any other request"))]);
        (lit "id", cr_id req); (lit "jsonrpc", JStr (lit "2.0"))]) ++ [10])
  | Notification | Response | ErrorResponse => None
  end.

(** ** The inbound bridge *)

(** [Refuse] writes to standard output too, its failure under a text of its own. *)
Inductive action := ToRmcp (bytes : list Z) | ToStdout (text : rstr) | Refuse (text : rstr) | RaiseIntercepted | CloseRmcp.

Context (client_message_of : rstr -> option client_message).

(* [crates/rimap-server/src/mcp/wire_validator/inbound.rs:85-93] validate_inbound *)
Definition strip_line_end (buf : list Z) : list Z :=
  let strip c bs := match strip_suffix [c] bs with Some bs' => bs' | None => bs end in
  strip 13 (strip 10 buf).

(** What is done for one line, and whether the loop goes on, with the flag. *)
(* [crates/rimap-server/src/mcp/wire_validator/inbound.rs:99-207] validate_inbound *)
Definition bridge_line (initialized : bool) (buf : list Z) : list action * option bool :=
  match from_utf8 (strip_line_end buf) with
  | None => ([ToStdout (synthesize_error_line parse_error)], Some initialized)
  | Some line =>
      let request := if initialized then None
                     else match client_message_of line with Some (Request req) => Some req | _ => None end in
      let is_initialize := match request with Some r => match cr_kind r with InitializeRequest => true | _ => false end | None => false end in
      let is_ping := match request with Some r => match cr_kind r with PingRequest => true | _ => false end | None => false end in
      let complete := match request with Some r => cr_complete_metadata r | None => false end in
      match request with
      | Some req =>
          if negb is_initialize && negb is_ping && negb complete
          then (match synthesize_pre_init_error_envelope (Request req) with Some envelope => [Refuse envelope] | None => [] end
                ++ [RaiseIntercepted; CloseRmcp], None)
          else
            let modern_first_request := negb is_initialize && negb is_ping && complete in
            let initialized := initialized || is_initialize in
            match validate line with
            | Forward => ([ToRmcp buf], Some (initialized || modern_first_request))
            | Skip => ([], Some initialized)
            | Reject env => ([ToStdout (synthesize_error_line env)], Some initialized)
            end
      | None =>
          match validate line with
          | Forward => ([ToRmcp buf], Some initialized)
          | Skip => ([], Some initialized)
          | Reject env => ([ToStdout (synthesize_error_line env)], Some initialized)
          end
      end
  end.

(** The actions of each line read, in order. *)
(* [crates/rimap-server/src/mcp/wire_validator/inbound.rs:69-208] validate_inbound *)
Fixpoint bridge (initialized : bool) (lines : list (list Z)) : list (list action) :=
  match lines with
  | [] => []
  | buf :: lines' =>
      let '(acts, next) := bridge_line initialized buf in
      acts :: match next with Some initialized => bridge initialized lines' | None => [] end
  end.

(** What the error [e] of an action's write becomes; [None]: it writes nothing. *)
(* [crates/rimap-server/src/mcp/wire_validator/inbound.rs:146-159] validate_inbound *)
Definition write_error (a : action) (e : rstr) : option rstr :=
  match a with
  | ToRmcp _ | ToStdout _ => Some e
  | Refuse _ => Some (lit "writing pre-init error envelope to stdout: " ++ e)
  | RaiseIntercepted | CloseRmcp => None
  end.

(** [fails n] is the error of the [n]-th action; the first ends the task. *)
Fixpoint execute (fails : nat -> option rstr) (n : nat) (acts : list action) : list action * result rstr unit :=
  match acts with
  | [] => ([], Ok tt)
  | a :: acts' =>
      match fails n ≫= write_error a with
      | Some e => ([], Err e)
      | None => let '(done, r) := execute fails (S n) acts' in (a :: done, r)
      end
  end.

(** [lines] is what is read, cut after each line feed, before the end of
    standard input or the error [read_end]. *)
(* [crates/rimap-server/src/mcp/wire_validator/inbound.rs:55-209] validate_inbound *)
Definition validate_inbound (fails : nat -> option rstr) (read_end : result rstr unit) (lines : list (list Z)) :
    list action * result rstr unit :=
  let '(done, r) := execute fails 0 (concat (bridge false lines)) in
  (done, match r with
         | Err e => Err e
         | Ok _ => if existsb (fun a => match a with CloseRmcp => true | _ => false end) done then Ok tt else read_end
         end).

(* [crates/rimap-server/src/mcp/wire_validator/outbound.rs:27-45] passthrough_outbound *)
Fixpoint passthrough_outbound (fails : nat -> option rstr) (n : nat) (frames : list (list Z)) : list (list Z) * result rstr unit :=
  match frames with
  | [] => ([], Ok tt)
  | frame :: frames' =>
      match fails n with
      | Some e => ([], Err e)
      | None => let '(out, r) := passthrough_outbound fails (S n) frames' in (frame :: out, r)
      end
  end.
End text.

(** ** The supervisor of the two bridge tasks *)

(** How a task ends for the one who awaits it. *)
Inductive join_result := Joined (r : result rstr unit) | Cancelled | TaskPanic (message : rstr).

(* [crates/rimap-server/src/mcp/wire_validator/supervisor.rs:118-124] ValidatorSupervisor::flatten *)
Definition flatten (r : join_result) : result rstr unit :=
  match r with Joined inner => inner | Cancelled => Ok tt | TaskPanic je => Err (lit "bridge task panic: " ++ je) end.

(** A handle that was awaited is [None]; awaiting it again panics. *)
(* [crates/rimap-server/src/mcp/wire_validator/mod.rs:90-95] ValidatorSupervisor *)
Record ValidatorSupervisor := mkSupervisor {
  sv_inbound : option join_result; sv_outbound : option join_result; inbound_consumed : bool; outbound_consumed : bool }.

Inductive bridge_side := Inbound | Outbound.
Inductive progress := Pending | Polled (r : result rstr unit) | PollPanic.

Definition consume (side : bridge_side) (s : ValidatorSupervisor) : ValidatorSupervisor :=
  match side with
  | Inbound => mkSupervisor None (sv_outbound s) true (outbound_consumed s)
  | Outbound => mkSupervisor (sv_inbound s) None (inbound_consumed s) true
  end.
Definition handle_of (side : bridge_side) (s : ValidatorSupervisor) : option join_result :=
  match side with Inbound => sv_inbound s | Outbound => sv_outbound s end.
Definition consumed (side : bridge_side) (s : ValidatorSupervisor) : bool :=
  match side with Inbound => inbound_consumed s | Outbound => outbound_consumed s end.
Definition other (side : bridge_side) : bridge_side := match side with Inbound => Outbound | Outbound => Inbound end.

(** [ready] is the order in which the handles become ready. *)
(* [crates/rimap-server/src/mcp/wire_validator/supervisor.rs:27-50] ValidatorSupervisor::watch_for_error *)
Fixpoint watch_for_error (ready : list bridge_side) (s : ValidatorSupervisor) : progress * ValidatorSupervisor :=
  if inbound_consumed s && outbound_consumed s then (Polled (Ok tt), s)
  else match ready with
  | [] => (Pending, s)
  | side :: ready' =>
      if consumed side s then watch_for_error ready' s
      else match handle_of side s with
      | None => (PollPanic, s)
      | Some r =>
          let s' := consume side s in
          match flatten r with
          | Ok _ => if consumed (other side) s then (Polled (Ok tt), s') else watch_for_error ready' s'
          | Err e => (Polled (Err e), s')
          end
      end
  end.

(* [crates/rimap-server/src/mcp/wire_validator/supervisor.rs:107-116] ValidatorSupervisor::take_or_await *)
Definition take_or_await (side : bridge_side) (s : ValidatorSupervisor) : progress * ValidatorSupervisor :=
  if consumed side s then (Polled (Ok tt), s)
  else match handle_of side s with None => (PollPanic, s) | Some r => (Polled (flatten r), consume side s) end.

(* [crates/rimap-server/src/mcp/wire_validator/supervisor.rs:67-71] ValidatorSupervisor::drain *)
Definition drain (s : ValidatorSupervisor) : progress :=
  let '(in_r, s) := take_or_await Inbound s in
  match in_r with
  | Polled in_r =>
      match (take_or_await Outbound s).1 with
      | Polled out_r => Polled (_ ← in_r; out_r)
      | p => p
      end
  | p => p
  end.

(** [aborted] is how the inbound task ends when it was still running. *)
(* [crates/rimap-server/src/mcp/wire_validator/supervisor.rs:92-102] ValidatorSupervisor::shutdown_after_failure *)
Definition shutdown_after_failure (aborted : join_result) (s : ValidatorSupervisor) : progress :=
  let s := mkSupervisor (match sv_inbound s with Some _ => Some aborted | None => None end) (sv_outbound s)
             (inbound_consumed s) (outbound_consumed s) in
  let '(in_r, s) := take_or_await Inbound s in
  match in_r with Polled _ => (take_or_await Outbound s).1 | p => p end.

(** ** Members of objects *)

Abbreviation keys es := (map (@fst rstr json) es).

Lemma jget_cons k v (es : jmap) j : jget ((k, v) :: es) j = if str_eqb k j then Some v else jget es j.
Proof. unfold jget. cbn. by destruct (str_eqb k j). Qed.
Lemma jget_map_insert k v m j : jget (map_insert k v m) j = if str_eqb k j then Some v else jget m j.
Proof.
  induction m as [|[k' v'] m IH]; cbn [map_insert]; [by rewrite jget_cons|].
  destruct (str_eqb k' k) eqn:E; [apply str_eqb_eq in E as ->; rewrite !jget_cons; by destruct (str_eqb k j)|].
  destruct (str_leb k k'); rewrite !jget_cons; [done|]. rewrite IH.
  destruct (str_eqb k' j) eqn:E1, (str_eqb k j) eqn:E2; try done.
  apply str_eqb_eq in E1 as ->. apply str_eqb_eq in E2 as ->. unfold str_eqb in E. by rewrite bool_decide_eq_true_2 in E.
Qed.

Lemma jget_Some es k v : NoDup (keys es) -> jget es k = Some v <-> (k, v) ∈ es.
Proof.
  induction es as [|[k' v'] es IH]; cbn [map fst]; intros Hn; [split; [done|by intros ?%elem_of_nil]|].
  apply NoDup_cons in Hn as [Hk Hn]. rewrite jget_cons, elem_of_cons. destruct (str_eqb k' k) eqn:E.
  - apply str_eqb_eq in E as ->. split; [intros [= ->]; by left|]. intros [[= ->]|Hin]; [done|].
    exfalso. apply Hk. apply list_elem_of_fmap. by exists (k, v).
  - rewrite IH by done. split; [by right|]. intros [[= -> ->]|?]; [|done]. unfold str_eqb in E.
    by rewrite bool_decide_eq_true_2 in E.
Qed.
Lemma jget_None es k : jget es k = None <-> k ∉ keys es.
Proof.
  induction es as [|[k' v'] es IH]; cbn [map fst]; [split; [intros _ ?%elem_of_nil|]; done|].
  rewrite jget_cons, not_elem_of_cons. destruct (str_eqb k' k) eqn:E.
  - apply str_eqb_eq in E as ->. split; [done|]. by intros [? _].
  - rewrite IH. split; [|tauto]. intros Hk. split; [|done]. intros ->. unfold str_eqb in E. by rewrite bool_decide_eq_true_2 in E.
Qed.

Lemma jget_app es es' k : jget (es ++ es') k = match jget es k with Some v => Some v | None => jget es' k end.
Proof. induction es as [|[k' v'] es IH]; [done|]. cbn [app]. rewrite !jget_cons. by destruct (str_eqb k' k). Qed.
Lemma jget_fold es m k :
  jget (fold_left (fun m '(k, v) => map_insert k (collapse v) m) es m) k =
  match jget (rev es) k with Some v => Some (collapse v) | None => jget m k end.
Proof.
  revert m. induction es as [|[k' v'] es IH]; intros m; cbn [fold_left rev]; [done|].
  rewrite IH, jget_app, jget_cons. destruct (jget (rev es) k); [done|]. rewrite jget_map_insert. by destruct (str_eqb k' k).
Qed.

(** A key that does not repeat keeps its one value. *)
Definition at_most_once (k : rstr) (es : jmap) : Prop :=
  forall es1 v es2, es = es1 ++ (k, v) :: es2 -> k ∉ keys es2.
Lemma once_tail k x es : at_most_once k (x :: es) -> at_most_once k es.
Proof. intros Ho es1 v es2 ->. apply (Ho (x :: es1) v es2). done. Qed.
Lemma jget_rev_once es k : at_most_once k es -> jget (rev es) k = jget es k.
Proof.
  induction es as [|[k' v'] es IH]; intros Ho; [done|]. cbn [rev]. rewrite jget_app, jget_cons, (IH (once_tail _ _ _ Ho)), jget_cons.
  destruct (str_eqb k' k) eqn:E; [|by destruct (jget es k)]. apply str_eqb_eq in E as ->.
  assert (Hk : jget es k = None) by (apply jget_None, (Ho [] v' es); done). by rewrite Hk.
Qed.
Lemma nodup_once k es : NoDup (keys es) -> at_most_once k es.
Proof. intros Hn es1 v es2 ->. rewrite map_app in Hn. cbn in Hn. apply NoDup_app in Hn as (_ & _ & Hn). by apply NoDup_cons in Hn as [? _]. Qed.
Lemma jget_collapse es k : at_most_once k es -> jget (collapse_entries es) k = collapse <$> jget es k.
Proof. intros Ho. unfold collapse_entries. rewrite jget_fold, jget_rev_once by done. by destruct (jget es k). Qed.

(** ** The scan finds exactly the repetitions *)

Lemma level_dup_all es : forall seen, level_dup None seen es = false <-> NoDup (keys es) /\ Forall (fun k => k ∉ seen) (keys es).
Proof.
  induction es as [|[k v] es IH]; intros seen; cbn [level_dup map fst].
  - split; [|done]. intros _. split; constructor.
  - rewrite orb_false_iff, andb_true_r, IH, NoDup_cons, Forall_cons, bool_decide_eq_false. rewrite !Forall_forall.
    split.
    + intros (Hk & Hn & Hs). split; [split; [|done]|split; [done|]].
      * intros Hin. by apply (Hs k Hin), elem_of_cons; left.
      * intros x Hx Hin. apply (Hs x Hx). by right.
    + intros ((Hk & Hn) & Hs & Hf). split; [done|]. split; [done|]. intros x Hx [->|Hin]%elem_of_cons; [done|]. by apply (Hf x).
Qed.
Lemma level_dup_one o es : forall seen,
  level_dup (Some o) seen es = false <-> at_most_once o es /\ (o ∈ seen -> o ∉ keys es).
Proof.
  induction es as [|[k v] es IH]; intros seen; cbn [level_dup].
  - split; [|done]. intros _. split; [|by intros _ ?%elem_of_nil]. intros es1 w es2 E. by destruct es1.
  - rewrite orb_false_iff, andb_false_iff, bool_decide_eq_false, IH. cbn [map fst].
    destruct (decide (o = k)) as [->|Hne].
    + assert (Ek : str_eqb k k = true) by by apply str_eqb_eq. rewrite Ek. split.
      * intros ([Hk|?] & Ho & Hs); [|done]. split; [|by intros ?].
        intros [|x es1] w es2; cbn; [intros [= -> ->]; apply Hs; by left|]. intros [= _ ->]. by apply (Ho es1 w).
      * intros [Ho Hs]. split; [|split].
        -- left. intros Hin. apply (Hs Hin). by left.
        -- by apply (once_tail k (k, v)).
        -- intros _. apply (Ho [] v es). done.
    + assert (Ek : str_eqb o k = false) by by apply bool_decide_eq_false. rewrite Ek. rewrite not_elem_of_cons, elem_of_cons. split.
      * intros (_ & Ho & Hs). split.
        -- intros [|x es1] w es2; cbn; [intros [= ->]; done|]. intros [= _ ->]. by apply (Ho es1 w).
        -- intros Hin. split; [done|]. apply Hs. by right.
      * intros [Ho Hs]. split; [by right|]. split; [by apply (once_tail o (k, v))|]. intros [?|Hin]; [done|]. by apply Hs.
Qed.

Lemma top_dup_envelope es : forall seen found, dk_envelope (top_dup seen es found) = false <->
  dk_envelope found = false /\ NoDup (keys es) /\ Forall (fun k => k ∉ seen) (keys es) /\
  Forall (fun '(k, v) => k = lit "error" -> one_level_dup None v = false) es.
Proof.
  induction es as [|[k v] es IH]; intros seen found; cbn [top_dup map fst].
  - split; [|tauto]. intros Hf. split; [done|]. split_and!; constructor.
  - rewrite IH, NoDup_cons, !Forall_cons. rewrite !Forall_forall.
    assert (Hstep : forall f, dk_envelope (if bool_decide (k ∈ seen) then mkDuplicates true (dk_params_meta f) else f) = false <->
      k ∉ seen /\ dk_envelope f = false).
    { intros f. case_bool_decide; [split; [done|tauto]|tauto]. }
    rewrite Hstep.
    assert (Herr : dk_envelope (if str_eqb k (lit "error") then mkDuplicates (dk_envelope found || one_level_dup None v) (dk_params_meta found)
        else if str_eqb k (lit "params") then mkDuplicates (dk_envelope found) (dk_params_meta found || one_level_dup (Some (lit "_meta")) v)
        else found) = false <-> dk_envelope found = false /\ (k = lit "error" -> one_level_dup None v = false)).
    { destruct (str_eqb k (lit "error")) eqn:E1; cbn [dk_envelope].
      - apply str_eqb_eq in E1. rewrite orb_false_iff. tauto.
      - apply bool_decide_eq_false in E1. destruct (str_eqb k (lit "params")); tauto. }
    rewrite Herr. split.
    + intros ((Hk & Hf & He) & Hn & Hs & Hrest). split; [done|]. split; [split; [|done]|].
      * intros Hin. by apply (Hs k Hin), elem_of_cons; left.
      * split; [split; [done|]|by split]. intros x Hx Hin. apply (Hs x Hx). by right.
    + intros (Hf & (Hk & Hn) & (Hks & Hs) & He & Hrest). split; [done|]. split; [done|]. split; [|done].
      intros x Hx [->|Hin]%elem_of_cons; [done|]. by apply (Hs x).
Qed.
Lemma top_dup_meta es : forall seen found, dk_params_meta (top_dup seen es found) = false <->
  dk_params_meta found = false /\ Forall (fun '(k, v) => k = lit "params" -> one_level_dup (Some (lit "_meta")) v = false) es.
Proof.
  induction es as [|[k v] es IH]; intros seen found; cbn [top_dup].
  - split; [|tauto]. intros Hf. split; [done|constructor].
  - rewrite IH, Forall_cons.
    assert (Hm : forall f, dk_params_meta (if bool_decide (k ∈ seen) then mkDuplicates true (dk_params_meta f) else f) = dk_params_meta f)
      by (intros f; by destruct (bool_decide _)).
    rewrite Hm. destruct (str_eqb k (lit "error")) eqn:E1; cbn [dk_params_meta].
    + apply str_eqb_eq in E1 as ->. split; [|tauto]. intros [? ?]. split; [done|]. split; [by intros [=]|done].
    + destruct (str_eqb k (lit "params")) eqn:E2; cbn [dk_params_meta].
      * apply str_eqb_eq in E2 as ->. rewrite orb_false_iff. tauto.
      * apply bool_decide_eq_false in E2. tauto.
Qed.

(** ** What the protocol library can read *)

Definition id_ok (i : json) : Prop := (exists s, i = JStr s) \/ (exists n, i = JInt n /\ - 2 ^ 63 <= n < 2 ^ 63).
Definition structured (v : json) : Prop := v = JNull \/ exists m, v = JObj m.
Definition params_ok (es : jmap) : Prop := forall p, (lit "params", p) ∈ es ->
  p = JNull \/ exists ps, p = JObj ps /\ at_most_once (lit "_meta") ps /\ forall meta, jget ps (lit "_meta") = Some meta -> structured meta.
Definition error_ok (e : json) : Prop := exists body, e = JObj body /\ NoDup (keys body) /\
  (exists n, (lit "code", JInt n) ∈ body /\ - 2 ^ 31 <= n < 2 ^ 31) /\ exists m, (lit "message", JStr m) ∈ body.

(** The four messages of JSON-RPC, as the protocol library's types have them. *)
Inductive rpc_shape (es : jmap) : Prop :=
  | shape_request i m : (lit "id", i) ∈ es -> id_ok i -> (lit "method", JStr m) ∈ es ->
      lit "result" ∉ keys es -> lit "error" ∉ keys es -> params_ok es -> rpc_shape es
  | shape_notification m : lit "id" ∉ keys es -> (lit "method", JStr m) ∈ es ->
      lit "result" ∉ keys es -> lit "error" ∉ keys es -> params_ok es -> rpc_shape es
  | shape_response i r : (lit "id", i) ∈ es -> id_ok i -> (lit "result", r) ∈ es ->
      lit "method" ∉ keys es -> lit "error" ∉ keys es -> rpc_shape es
  | shape_error i e : (lit "id", i) ∈ es -> id_ok i -> (lit "error", e) ∈ es -> error_ok e ->
      lit "method" ∉ keys es -> lit "result" ∉ keys es -> rpc_shape es.
Definition rpc_message (es : jmap) : Prop :=
  NoDup (keys es) /\ (lit "jsonrpc", JStr (lit "2.0")) ∈ es /\ rpc_shape es.

(** Collapsing keeps what the checks look at. *)
Lemma collapse_str v : as_json_str (collapse v) = as_json_str v.
Proof. by destruct v. Qed.
Lemma collapse_is_string v : is_string (collapse v) = is_string v.
Proof. by destruct v. Qed.
Lemma collapse_id v : is_forwardable_id (collapse v) = is_forwardable_id v.
Proof. by destruct v. Qed.
Lemma forwardable_id_ok v : is_forwardable_id v = true <-> id_ok v.
Proof.
  unfold is_forwardable_id, id_ok. destruct v as [|b|n|t|s|l|m]; cbn [is_string as_i64]; try (split; [done|]; by intros [[? ?]|(? & ? & _)]).
  - destruct (Z.leb_spec (- 2 ^ 63) n), (Z.ltb_spec n (2 ^ 63)); cbn [andb]; split; try done.
    + intros _. right. exists n. split; [done|lia].
    + intros [[? ?]|(n' & [= <-] & ?)]; [done|lia].
    + intros [[? ?]|(n' & [= <-] & ?)]; [done|lia].
    + intros [[? ?]|(n' & [= <-] & ?)]; [done|lia].
  - split; [|done]. intros _. left. by exists s.
Qed.
Lemma collapse_id_ok v : id_ok v -> collapse v = v.
Proof. by intros [[s ->]|(n & -> & _)]. Qed.

Lemma params_checked es : NoDup (keys es) ->
  Forall (fun '(k, v) => k = lit "params" -> one_level_dup (Some (lit "_meta")) v = false) es /\
  match jget (collapse_entries es) (lit "params") with Some p => is_valid_params p | None => true end = true <-> params_ok es.
Proof.
  intros Hn. rewrite jget_collapse by by apply nodup_once. rewrite Forall_forall. unfold params_ok. split.
  - intros [Hd Hp] p Hin. assert (Eg : jget es (lit "params") = Some p) by by apply jget_Some. rewrite Eg in Hp. cbn in Hp.
    specialize (Hd _ Hin eq_refl). destruct p as [| | | | | |ps]; try done; [by left|right]. exists ps. split; [done|].
    apply level_dup_one in Hd as [Ho _]. split; [done|]. intros meta Em. cbn [is_valid_params collapse as_object] in Hp.
    unfold is_valid_params in Hp. cbn [collapse as_object] in Hp. fold (collapse_entries ps) in Hp.
    rewrite jget_collapse, Em in Hp by done. cbn in Hp. destruct meta; try done; [by left|right; by eexists].
  - intros Hp. split.
    + intros [k v] Hin ->. destruct (Hp v Hin) as [->|(ps & -> & Ho & _)]; [done|]. apply level_dup_one. split; [done|].
      by intros ?%elem_of_nil.
    + destruct (jget es (lit "params")) as [p|] eqn:Eg; [|done]. cbn. apply jget_Some in Eg; [|done].
      destruct (Hp p Eg) as [->|(ps & -> & Ho & Hm)]; [done|]. unfold is_valid_params. cbn [collapse as_object].
      fold (collapse_entries ps). rewrite jget_collapse by done.
      destruct (jget ps (lit "_meta")) as [meta|]; [|done]. by destruct (Hm meta eq_refl) as [->|[m ->]].
Qed.

Lemma error_checked e : one_level_dup None e = false /\ is_well_formed_error (collapse e) = true <-> error_ok e.
Proof.
  unfold error_ok. split.
  - intros [Hd He]. destruct e as [| | | | | |body]; try done. exists body. apply level_dup_all in Hd as [Hn _].
    unfold is_well_formed_error in He. cbn [collapse as_object] in He. fold (collapse_entries body) in He.
    rewrite !jget_collapse in He by by apply nodup_once. apply andb_true_iff in He as [Hc Hm].
    split; [done|]. split; [done|]. split.
    + destruct (jget body (lit "code")) as [c|] eqn:Ec; [|done]. cbn in Hc. apply jget_Some in Ec; [|done].
      destruct c as [| |n| | | |]; try done. cbn in Hc. destruct (_ && _) in Hc at 1; [|done]. exists n. split; [done|].
      apply andb_true_iff in Hc as [?%Z.leb_le ?%Z.ltb_lt]. lia.
    + destruct (jget body (lit "message")) as [m|] eqn:Em; [|done]. cbn in Hm. apply jget_Some in Em; [|done].
      destruct m as [| | | |s| |]; try done. by exists s.
  - intros (body & -> & Hn & (n & Hc & Hr) & m & Hm). split.
    + apply level_dup_all. split; [done|]. apply Forall_forall. by intros x _ ?%elem_of_nil.
    + unfold is_well_formed_error. cbn [collapse as_object]. fold (collapse_entries body).
      rewrite !jget_collapse by by apply nodup_once.
      apply (jget_Some _ _ _ Hn) in Hc. apply (jget_Some _ _ _ Hn) in Hm. rewrite Hc, Hm. cbn [fmap option_fmap option_map collapse].
      change (Some (JInt n) ≫= as_i64) with (as_i64 (JInt n)). unfold as_i64.
      rewrite (proj2 (Z.leb_le _ _)), (proj2 (Z.ltb_lt _ _)) by lia. cbn [andb].
      rewrite (proj2 (Z.leb_le _ _)), (proj2 (Z.ltb_lt _ _)) by lia. done.
Qed.

(** The booleans of the final decision, on the members as written. *)
Definition decision (es : jmap) : bool :=
  match jget es (lit "method"), jget es (lit "result"), jget es (lit "error") with
  | Some m, None, None => is_string m
  | None, Some _, None => match jget es (lit "id") with Some _ => true | None => false end
  | None, None, Some _ => match jget es (lit "id") with Some _ => true | None => false end
  | _, _, _ => false
  end.

Lemma shape_decided es : NoDup (keys es) ->
  (forall i, jget es (lit "id") = Some i -> id_ok i) ->
  rpc_shape es <-> decision es = true /\
    (is_Some (jget es (lit "method")) -> params_ok es) /\ (forall e, jget es (lit "error") = Some e -> error_ok e).
Proof.
  intros Hn Hid. assert (Hin : forall k v, (k, v) ∈ es -> jget es k = Some v) by (intros; by apply jget_Some).
  assert (Hno : forall k, k ∉ keys es -> jget es k = None) by (intros; by apply jget_None). unfold decision. split.
  - intros [i m Hi Hiok Hm Hr He Hp|m Hi Hm Hr He Hp|i r Hi Hiok Hr Hm He|i e Hi Hiok He Heok Hm Hr].
    + rewrite (Hin _ _ Hm), (Hno _ Hr), (Hno _ He). split; [done|]. split; done.
    + rewrite (Hin _ _ Hm), (Hno _ Hr), (Hno _ He). split; [done|]. split; done.
    + rewrite (Hin _ _ Hr), (Hno _ Hm), (Hno _ He), (Hin _ _ Hi). split; [done|]. split; [by intros [? ?]|done].
    + rewrite (Hin _ _ He), (Hno _ Hm), (Hno _ Hr), (Hin _ _ Hi). split; [done|]. split; [by intros [? ?]|]. by intros ? [= <-].
  - intros (Hd & Hp & He). assert (Hget : forall k v, jget es k = Some v -> (k, v) ∈ es) by (intros; by apply jget_Some).
    assert (Hnone : forall k, jget es k = None -> k ∉ keys es) by (intros; by apply jget_None).
    destruct (jget es (lit "method")) as [m|] eqn:Em, (jget es (lit "result")) as [r|] eqn:Er,
      (jget es (lit "error")) as [e|] eqn:Ee; try done.
    + destruct m as [| | | |s| |]; try done. destruct (jget es (lit "id")) as [i|] eqn:Ei.
      * apply (shape_request es i s); auto.
      * apply (shape_notification es s); auto.
    + destruct (jget es (lit "id")) as [i|] eqn:Ei; [|done]. apply (shape_response es i r); auto.
    + destruct (jget es (lit "id")) as [i|] eqn:Ei; [|done]. apply (shape_error es i e); auto.
Qed.

Section exact.
Context `{JsonText}.

Lemma no_envelope_dup line es : read_tree line = Some (JObj es) ->
  dk_envelope (scan_duplicate_keys line) = false <->
  NoDup (keys es) /\ Forall (fun '(k, v) => k = lit "error" -> one_level_dup None v = false) es.
Proof.
  intros Et. unfold scan_duplicate_keys. rewrite Et, top_dup_envelope. split; [tauto|].
  intros [Hn He]. split_and!; try done. apply Forall_forall. by intros k _ ?%elem_of_nil.
Qed.

Lemma forwarded_decided line es : read_tree line = Some (JObj es) -> NoDup (keys es) ->
  Forall (fun '(k, v) => k = lit "error" -> one_level_dup None v = false) es ->
  (lit "jsonrpc", JStr (lit "2.0")) ∈ es -> (forall i, jget es (lit "id") = Some i -> id_ok i) ->
  (let params_ok := negb (dk_params_meta (scan_duplicate_keys line)) &&
      match jget (collapse_entries es) (lit "params") with Some p => is_valid_params p | None => true end in
   let present := match jget es (lit "id") with Some _ => true | None => false end in
   match collapse <$> jget es (lit "method"), collapse <$> jget es (lit "result"), collapse <$> jget es (lit "error") with
   | Some m, None, None => is_string m && params_ok
   | None, Some _, None => present
   | None, None, Some err => present && is_well_formed_error err
   | _, _, _ => false
   end) = true <-> rpc_message es.
Proof.
  intros Et Hn He Hj Hid. cbv zeta. unfold rpc_message. rewrite (shape_decided es Hn Hid).
  assert (Hp : negb (dk_params_meta (scan_duplicate_keys line)) &&
      match jget (collapse_entries es) (lit "params") with Some p => is_valid_params p | None => true end = true <-> params_ok es).
  { rewrite <- (params_checked es Hn), andb_true_iff, negb_true_iff. unfold scan_duplicate_keys. rewrite Et, top_dup_meta. tauto. }
  assert (Herr : forall e, jget es (lit "error") = Some e -> is_well_formed_error (collapse e) = true <-> error_ok e).
  { intros e Ee. apply jget_Some in Ee; [|done]. rewrite Forall_forall in He. specialize (He _ Ee eq_refl).
    rewrite <- error_checked. tauto. }
  unfold decision. destruct (jget es (lit "method")) as [m|], (jget es (lit "result")) as [r|], (jget es (lit "error")) as [e|];
    cbn [fmap option_fmap option_map]; try (split; [done|]; intros (_ & _ & ? & _); done).
  - rewrite collapse_is_string, andb_true_iff, Hp. split; [|naive_solver]. intros [Hs Hps]. by split_and!.
  - rewrite andb_true_iff, (Herr e eq_refl). split; [|naive_solver]. intros [Hi Hok]. split_and!; try done. by intros ? [= <-].
Qed.

(** The checks after parsing, on the members as written. *)
Lemma validate_object line es : trim line <> [] -> read_tree line = Some (JObj es) -> read_value line = Some (JObj (collapse_entries es)) ->
  dk_envelope (scan_duplicate_keys line) = false ->
  validate line = Forward <-> rpc_message es.
Proof.
  intros Hne Et Ev Hd. pose proof (proj1 (no_envelope_dup line es Et) Hd) as [Hn He].
  unfold validate. rewrite bool_decide_eq_false_2, Hd, Ev by done. cbn [as_object]. unfold rpc_message.
  rewrite !jget_collapse by by apply nodup_once.
  assert (Hv : jget es (lit "jsonrpc") ≫= as_json_str = (collapse <$> jget es (lit "jsonrpc")) ≫= as_json_str).
  { destruct (jget es (lit "jsonrpc")) as [v|]; [|done]. cbn. by rewrite collapse_str. }
  rewrite <- Hv. case_bool_decide as Hj; cbn [negb].
  2: { split; [done|]. intros (_ & Hin & _). exfalso. apply Hj. apply jget_Some in Hin; [|done]. by rewrite Hin. }
  assert (Hjin : (lit "jsonrpc", JStr (lit "2.0")) ∈ es).
  { apply jget_Some; [done|]. destruct (jget es (lit "jsonrpc")) as [[]|]; try done. cbn in Hj. by injection Hj as ->. }
  destruct (jget es (lit "id")) as [i|] eqn:Ei; cbn [fmap option_fmap option_map].
  - rewrite collapse_id. destruct (is_forwardable_id i) eqn:Ef; cbn [negb].
    2: { split; [done|]. intros (_ & _ & Hs). exfalso. apply not_true_iff_false in Ef. apply Ef, forwardable_id_ok.
         destruct Hs as [i' m Hi Hok|m Hi|i' r Hi Hok|i' e Hi Hok]; try (apply jget_Some in Hi; [|done]; rewrite Ei in Hi; by injection Hi as ->).
         apply jget_None in Hi. by rewrite Ei in Hi. }
    apply forwardable_id_ok in Ef. rewrite <- (forwarded_decided line es) by (try done; rewrite Ei; by intros ? [= <-]).
    rewrite Ei, (jget_collapse es (lit "params")) by by apply nodup_once. cbv zeta. by case_match.
  - rewrite <- (forwarded_decided line es) by (try done; by rewrite Ei).
    rewrite Ei, (jget_collapse es (lit "params")) by by apply nodup_once. cbv zeta. by case_match.
Qed.
Lemma as_object_collapse t obj : as_object (collapse t) = Some obj -> exists es, t = JObj es /\ obj = collapse_entries es.
Proof. destruct t as [| | | | | |es]; try done. intros [= <-]. by exists es. Qed.

(** A line that was parsed to something other than a well-formed object is
    never forwarded. *)
Lemma forward_reads line : validate line = Forward -> trim line <> [] /\ dk_envelope (scan_duplicate_keys line) = false /\
  exists es, read_tree line = Some (JObj es) /\ read_value line = Some (JObj (collapse_entries es)).
Proof.
  unfold validate. case_bool_decide as Ht; [done|]. destruct (dk_envelope _) eqn:Ed; [done|].
  destruct (read_value line) as [v|] eqn:Ev; [|done]. destruct (as_object v) as [obj|] eqn:Eo; [|done]. intros _.
  split; [done|]. split; [done|]. destruct (value_of_tree line v Ev) as (t & Et & ->).
  apply as_object_collapse in Eo as (es & -> & _). by exists es.
Qed.

Lemma rejection_spec line e : validate line = Reject e ->
  (e = parse_error /\ read_value line = None) \/
  (exists i, e = invalid_request i /\
     (i = JNull \/ (id_ok i /\ exists es, read_tree line = Some (JObj es) /\ (lit "id", i) ∈ es))).
Proof.
  unfold validate. case_bool_decide; [done|]. destruct (dk_envelope _) eqn:Ed.
  { intros [= <-]. right. exists JNull. split; [done|]. by left. }
  destruct (read_value line) as [v|] eqn:Ev; [|intros [= <-]; by left].
  destruct (as_object v) as [obj|] eqn:Eo; [|intros [= <-]; right; exists JNull; split; [done|]; by left].
  destruct (value_of_tree line v Ev) as (t & Et & ->). apply as_object_collapse in Eo as (es & -> & ->).
  destruct (proj1 (no_envelope_dup line es Et) Ed) as [Hn _].
  assert (Hid : extract_id (collapse_entries es) = JNull \/
    (id_ok (extract_id (collapse_entries es)) /\ exists es', read_tree line = Some (JObj es') /\ (lit "id", extract_id (collapse_entries es)) ∈ es')).
  { unfold extract_id. rewrite jget_collapse by by apply nodup_once. destruct (jget es (lit "id")) as [i|] eqn:Ei; [|by left].
    cbn [fmap option_fmap option_map]. rewrite collapse_id. destruct (is_forwardable_id i) eqn:Ef; [|by left]. right.
    apply forwardable_id_ok in Ef. rewrite collapse_id_ok by done. split; [done|]. exists es. split; [done|]. by apply jget_Some. }
  repeat case_match; intros [= <-]; right; eexists; (split; [reflexivity|]); first [exact Hid | by left].
Qed.

(** The first value of the line is an object that repeats a member, or the
    object under its error does. *)
Definition repeats (line : rstr) : Prop := exists es, read_tree line = Some (JObj es) /\
  (~ NoDup (keys es) \/ exists body, (lit "error", JObj body) ∈ es /\ ~ NoDup (keys body)).

Lemma repeats_found line : dk_envelope (scan_duplicate_keys line) = true <-> repeats line.
Proof.
  unfold repeats. destruct (read_tree line) as [t|] eqn:Et.
  2: { unfold scan_duplicate_keys. rewrite Et. split; [done|]. by intros (? & ? & _). }
  destruct (as_object t) as [es|] eqn:Eo.
  2: { unfold scan_duplicate_keys. rewrite Et. destruct t; try done; split; try done; by intros (? & ? & _). }
  destruct t; try done. injection Eo as ->. pose proof (no_envelope_dup line es Et) as Hd.
  assert (Hall : Forall (fun '(k, v) => k = lit "error" -> one_level_dup None v = false) es <->
    ~ exists body, (lit "error", JObj body) ∈ es /\ ~ NoDup (keys body)).
  { rewrite Forall_forall. split.
    - intros Hf (body & Hin & Hn). apply Hn. specialize (Hf _ Hin eq_refl). by apply level_dup_all in Hf as [? _].
    - intros Hno [k v] Hin ->. destruct v as [| | | | | |body]; try done. apply level_dup_all.
      destruct (decide (NoDup (keys body))) as [Hb|Hb]; [|by destruct Hno; exists body].
      split; [done|]. apply Forall_forall. by intros x _ ?%elem_of_nil. }
  rewrite Hall in Hd. split.
  - intros Ht. exists es. split; [done|]. destruct (decide (NoDup (keys es))); [|by left]. right.
    destruct (List.find (fun '(k, v) => str_eqb k (lit "error") && one_level_dup None v) es) as [[k v]|] eqn:Ef.
    + apply List.find_some in Ef as [Hin [->%str_eqb_eq Hv]%andb_prop]. destruct v as [| | | | | |body]; try done. exists body.
      split; [by apply list_elem_of_In|]. intros Hb. cbn in Hv. assert (Hf : level_dup None [] body = false); [|congruence].
      apply level_dup_all. split; [done|]. apply Forall_forall. by intros x _ ?%elem_of_nil.
    + exfalso. enough (dk_envelope (scan_duplicate_keys line) = false) by congruence. apply Hd. split; [done|].
      intros (body & Hin%list_elem_of_In & Hb). apply (List.find_none _ _ Ef) in Hin.
      assert (Hk : str_eqb (lit "error") (lit "error") = true) by by apply str_eqb_eq.
      rewrite Hk in Hin. cbn in Hin. by apply level_dup_all in Hin as [? _].
  - intros (es' & Hes & Hr). injection Hes as <-. apply not_false_iff_true. intros [Hn Hb]%Hd. by destruct Hr.
Qed.

(** C28: what is forwarded is exactly what the protocol library can read.  A line
    is skipped when it is blank, and forwarded when it is one JSON object
    without repeated members where that library refuses them, says jsonrpc
    2.0, and is a request, a notification, a response or an error response
    with the members and types its variant has.  Every other line is answered.
    The answer is the parse error, code -32700, exactly when the line is no JSON
    and does not begin with an object that repeats a member (or whose error
    does); else it is the invalid request, code -32600, which carries the line's
    id only when that is a string or a 64-bit integer.  (A line that begins with
    such an object and goes on with something that does not parse is answered
    as an invalid request: see unparsable_duplicates.) *)
Theorem validate_exact line :
  (validate line = Skip <-> trim line = []) /\
  (validate line = Forward <-> trim line <> [] /\
     exists es, read_tree line = Some (JObj es) /\ read_value line = Some (collapse (JObj es)) /\ rpc_message es) /\
  (validate line = Reject (mkEnvelopeError (-32700) (lit "Parse error") JNull) <->
     trim line <> [] /\ read_value line = None /\ ~ repeats line) /\
  (forall e, validate line = Reject e ->
     e = mkEnvelopeError (-32700) (lit "Parse error") JNull \/
     (exists i, e = mkEnvelopeError (-32600) (lit "Invalid Request") i /\
        (i = JNull \/ (id_ok i /\ exists es, read_tree line = Some (JObj es) /\ (lit "id", i) ∈ es)))).
Proof.
  split; [|split; [|split]].
  - unfold validate. case_bool_decide; [done|]. split; [|done]. repeat case_match; done.
  - split.
    + intros Hf. destruct (forward_reads line Hf) as (Ht & Hd & es & Et & Ev). split; [done|]. exists es.
      split; [done|]. split; [done|]. by apply (validate_object line).
    + intros (Ht & es & Et & Ev & Hm). apply (validate_object line es Ht Et Ev); [|done].
      apply (no_envelope_dup line es Et). destruct Hm as (Hn & _ & Hs). split; [done|]. apply Forall_forall.
      intros [k v] Hin ->. destruct Hs as [? ? _ _ _ _ He _|? _ _ _ He _|? ? _ _ _ _ He|? e _ _ He Hok _ _].
      4: { apply jget_Some in He, Hin; try done. rewrite He in Hin. injection Hin as ->. by apply error_checked in Hok as [? _]. }
      all: exfalso; apply He, list_elem_of_fmap; by eexists (_, v).
  - rewrite <- repeats_found, not_true_iff_false. split.
    + intros Hr. destruct (rejection_spec _ _ Hr) as [[_ Hv]|(i & [=] & _)]. unfold validate in Hr. case_bool_decide; [done|].
      destruct (dk_envelope _); [discriminate Hr|done].
    + intros (Ht & Hv & Hd). unfold validate. by rewrite bool_decide_eq_false_2, Hd, Hv.
  - intros e He. destruct (rejection_spec _ _ He) as [[-> _]|H']; [by left|by right].
Qed.

(** ** The inbound bridge *)

Context (client_message_of : rstr -> option client_message).
Definition text_of (buf : list Z) : option rstr := from_utf8 (strip_line_end buf).
(** A request that has to wait, and a line after which none has to: an
    initialize, or a complete request that is forwarded. *)
Definition early (line : rstr) (r : client_request) : Prop := client_message_of line = Some (Request r) /\
  cr_kind r = OtherRequest /\ cr_complete_metadata r = false.
Definition opens (line : rstr) : Prop := exists r, client_message_of line = Some (Request r) /\
  (cr_kind r = InitializeRequest \/ (cr_kind r = OtherRequest /\ cr_complete_metadata r = true /\ validate line = Forward)).

(** The lines the bridge writes itself. *)
Definition rpc_error_line (code : Z) (message : rstr) (id : list (rstr * json)) : rstr :=
  print_json (JObj ((lit "error", JObj [(lit "code", JInt code); (lit "message", JStr message)]) :: id ++ [(lit "jsonrpc", JStr (lit "2.0"))])) ++ [10].
Definition shown_id (id : json) : list (rstr * json) := match id with JNull => [] | _ => [(lit "id", id)] end.
Definition refusal (id : json) : rstr :=
  rpc_error_line (-32002) (lit "Server not initialized: send `initialize` before any other request") [(lit "id", id)].

Definition one_line (s : rstr) : Prop := exists t, s = t ++ [10] /\ ~ 10 ∈ t.
Lemma error_line_one code message id : one_line (rpc_error_line code message id).
Proof. eexists. split; [reflexivity|]. apply print_one_line. Qed.

Lemma error_line_of e : synthesize_error_line e = rpc_error_line (ee_code e) (ee_message e) (shown_id (ee_id e)).
Proof. unfold synthesize_error_line, rpc_error_line. by destruct (ee_id e). Qed.

(** What becomes of a line, by whether one before it opened the session. *)
Definition reaction (opened : Prop) (buf : list Z) (acts : list action) : Prop :=
  match text_of buf with
  | None => acts = [ToStdout (rpc_error_line (-32700) (lit "Parse error") [])]
  | Some line =>
      (exists r, early line r /\ ~ opened /\ acts = [Refuse (refusal (cr_id r)); RaiseIntercepted; CloseRmcp]) \/
      ((forall r, early line r -> opened) /\
       match validate line with
       | Skip => acts = []
       | Forward => acts = [ToRmcp buf]
       | Reject e => acts = [ToStdout (rpc_error_line (ee_code e) (ee_message e) (shown_id (ee_id e)))]
       end)
  end.

Lemma reaction_proper opened opened' buf acts : (opened <-> opened') -> reaction opened buf acts -> reaction opened' buf acts.
Proof. unfold reaction. intros Ho. destruct (text_of buf); [|done]. setoid_rewrite Ho. done. Qed.

(** One line: the reaction, and what the flag says once it is done. *)
Lemma bridge_line_exact initialized buf acts next : bridge_line client_message_of initialized buf = (acts, next) ->
  reaction (initialized = true) buf acts /\
  match next with
  | None => exists s, acts = [Refuse s; RaiseIntercepted; CloseRmcp]
  | Some i => (forall s, ~ Refuse s ∈ acts) /\ (i = true <-> initialized = true \/ exists line, text_of buf = Some line /\ opens line)
  end.
Proof.
  unfold bridge_line, reaction. change (from_utf8 (strip_line_end buf)) with (text_of buf). destruct (text_of buf) as [line|].
  2: { intros [= <- <-]. rewrite error_line_of. split; [done|]. split; [by intros s ?%list_elem_of_singleton|].
       split; [by left|]. by intros [|(? & ? & _)]. }
  assert (Hcheck : forall (i i' : bool) (acts : list action) (next : option bool),
    (match validate line with
     | Forward => ([ToRmcp buf], Some i') | Skip => ([], Some i) | Reject env => ([ToStdout (synthesize_error_line env)], Some i) end) = (acts, next) ->
    match validate line with
    | Skip => acts = [] | Forward => acts = [ToRmcp buf]
    | Reject e => acts = [ToStdout (rpc_error_line (ee_code e) (ee_message e) (shown_id (ee_id e)))] end /\
    (forall s, ~ Refuse s ∈ acts) /\ next = Some (match validate line with Forward => i' | _ => i end)).
  { intros i i' acts' next'. destruct (validate line) as [| |e]; intros [= <- <-]; rewrite ?error_line_of; (split; [done|]); (split; [|done]);
      intros s Hs%list_elem_of_In; cbn in Hs; naive_solver. }
  destruct initialized.
  { intros E. apply Hcheck in E as (Ha & Hn & ->). split; [right; by split|]. split; [done|].
    split; [by left|]. by destruct (validate line). }
  destruct (client_message_of line) as [[req| | |]|] eqn:Ec.
  2-5: intros E; apply Hcheck in E as (Ha & Hn & ->); (split; [right; split; [|exact Ha]; by intros r (Er & _); rewrite Ec in Er|]);
    (split; [exact Hn|]); (split; [by destruct (validate line)|]); intros [?|(l & [= <-] & r & Er & _)]; [done|by rewrite Ec in Er].
  assert (Hreq : forall P : client_request -> Prop, (exists r, client_message_of line = Some (Request r) /\ P r) <-> P req).
  { intros P. rewrite Ec. split; [by intros (r & [= <-] & ?)|]. intros HP. by exists req. }
  assert (Hop : (exists l, Some line = Some l /\ opens l) <-> (cr_kind req = InitializeRequest \/
      (cr_kind req = OtherRequest /\ cr_complete_metadata req = true /\ validate line = Forward))).
  { split; [intros (l & [= <-] & Hl); by apply (Hreq (fun r => cr_kind r = InitializeRequest \/
      cr_kind r = OtherRequest /\ cr_complete_metadata r = true /\ validate line = Forward)) in Hl|].
    intros Hl. exists line. split; [done|]. by exists req. }
  assert (Hne : cr_kind req <> OtherRequest \/ cr_complete_metadata req = true -> forall r, ~ early line r).
  { intros Hk r (Er & Hr & Hc). rewrite Ec in Er. injection Er as <-. destruct Hk; congruence. }
  destruct (cr_kind req) eqn:Ek; cbn [negb andb orb].
  - intros E. apply Hcheck in E as (Ha & Hn & ->). split; [right; split; [|exact Ha]; intros r Hr; by destruct (Hne ltac:(by left) r)|].
    split; [exact Hn|]. rewrite Hop. split; [by right; left|]. by destruct (validate line).
  - intros E. apply Hcheck in E as (Ha & Hn & ->). split; [right; split; [|exact Ha]; intros r Hr; by destruct (Hne ltac:(by left) r)|].
    split; [exact Hn|]. rewrite Hop. split; [by destruct (validate line)|]. by intros [|[|[]]].
  - destruct (cr_complete_metadata req) eqn:Em; cbn [negb andb orb].
    + intros E. apply Hcheck in E as (Ha & Hn & ->). split; [right; split; [|exact Ha]; intros r Hr; by destruct (Hne ltac:(by right) r)|].
      split; [exact Hn|]. rewrite Hop. destruct (validate line); naive_solver.
    + intros [= <- <-]. split; [|by eexists]. left. exists req. split; [by split|]. split; [done|]. reflexivity.
Qed.

Lemma bridge_cons initialized buf lines :
  bridge client_message_of initialized (buf :: lines) =
  (bridge_line client_message_of initialized buf).1 ::
    match (bridge_line client_message_of initialized buf).2 with Some i => bridge client_message_of i lines | None => [] end.
Proof. cbn [bridge]. by destruct (bridge_line _ _ _). Qed.

(** Some line opened the session. *)
Definition opened (before : list (list Z)) : Prop := exists buf line, buf ∈ before /\ text_of buf = Some line /\ opens line.

Lemma bridge_nth lines : forall initialized k acts, bridge client_message_of initialized lines !! k = Some acts ->
  exists buf, lines !! k = Some buf /\ reaction (initialized = true \/ opened (take k lines)) buf acts /\
    ((exists s, Refuse s ∈ acts) -> length (bridge client_message_of initialized lines) = S k).
Proof.
  induction lines as [|buf lines IH]; intros initialized k acts; [done|]. rewrite bridge_cons.
  destruct (bridge_line _ _ _) as [acts0 next] eqn:El. apply bridge_line_exact in El as [Hr Hn].
  destruct k as [|k]; cbn [lookup list_lookup fst snd].
  - intros [= <-]. exists buf. split; [done|]. split.
    + eapply reaction_proper; [|exact Hr]. split; [by left|]. intros [?|(? & ? & ?%elem_of_nil & _)]; done.
    + intros [s Hs]. destruct next as [i|]; [|done]. destruct Hn as [Hn _]. by apply Hn in Hs.
  - destruct next as [i|]; [|done]. destruct Hn as [_ Hi]. intros Hk. destruct (IH i k acts Hk) as (buf' & Hl & Hr' & Hlen).
    exists buf'. split; [done|]. split; [|intros Hs; cbn; by rewrite Hlen].
    eapply reaction_proper; [|exact Hr']. rewrite Hi. unfold opened. split.
    + intros [[?|(l & Hl' & Ho)]|(b & l & Hb & Hrest)]; [by left|right; exists buf, l; split; [left|done]|right; exists b, l; split; [by right|done]].
    + intros [?|(b & l & [->|Hb]%elem_of_cons & Ht & Ho)]; [by left; left|left; right; by exists l|right; by exists b, l].
Qed.

(** The loop stops early only when it intercepts. *)
Lemma bridge_reads_on lines : forall initialized,
  length (bridge client_message_of initialized lines) = length lines \/
  exists k s, bridge client_message_of initialized lines !! k = Some [Refuse s; RaiseIntercepted; CloseRmcp].
Proof.
  induction lines as [|buf lines IH]; intros initialized; [by left|]. rewrite bridge_cons.
  destruct (bridge_line _ _ _) as [acts next] eqn:El. apply bridge_line_exact in El as [_ Hn]. cbn [fst snd].
  destruct next as [i|].
  - destruct (IH i) as [Hl|(k & s & Hk)]; [left; cbn; by rewrite Hl|]. right. by exists (S k), s.
  - right. destruct Hn as [s ->]. by exists 0%nat, s.
Qed.

Lemma execute_prefix fails acts : forall n, (execute fails n acts).1 `prefix_of` acts /\
  ((execute fails n acts).2 = Ok tt -> (execute fails n acts).1 = acts).
Proof.
  induction acts as [|a acts IH]; intros n; cbn [execute]; [done|].
  destruct (fails n ≫= write_error a); [split; [apply prefix_nil|done]|].
  destruct (IH (S n)) as [Hp Ho]. destruct (execute fails (S n) acts) as [done r]. cbn [fst snd] in *.
  split; [by apply prefix_cons|]. intros E. by rewrite Ho.
Qed.

(** C27: the inbound bridge, line by line.  A line that is no UTF-8 is answered
    on standard output with the parse error, code -32700.  A request that is
    neither initialize nor ping nor complete, when no earlier line was an
    initialize request or a complete request that was forwarded, gets one
    answer, code -32002 and its own id, "Server not initialized: send
    `initialize` before any other request"; the library's input is closed and no
    line after it is read.  Every other line goes by the validator: skipped,
    it leads to nothing; forwarded, it reaches the protocol library as the very
    bytes that were read; rejected, it is answered on standard output with the
    validator's code, message and id.  So once a line has opened the session
    every forwardable request is forwarded.  Each answer is one line of text.
    Whatever write fails, what was written is an initial part of this. *)
Theorem bridge_contract fails read_end lines :
  (forall k acts, bridge client_message_of false lines !! k = Some acts ->
     exists buf, lines !! k = Some buf /\
       (let opened_before := exists buf' line', buf' ∈ take k lines /\ text_of buf' = Some line' /\ opens line' in
        match text_of buf with
        | None => acts = [ToStdout (rpc_error_line (-32700) (lit "Parse error") [])]
        | Some line =>
            (exists r, early line r /\ ~ opened_before /\ acts = [Refuse (refusal (cr_id r)); RaiseIntercepted; CloseRmcp] /\
               length (bridge client_message_of false lines) = S k) \/
            ((forall r, early line r -> opened_before) /\
             match validate line with
             | Skip => acts = []
             | Forward => acts = [ToRmcp buf]
             | Reject e => acts = [ToStdout (rpc_error_line (ee_code e) (ee_message e) (shown_id (ee_id e)))]
             end)
        end) /\
       Forall (fun a => match a with ToStdout text | Refuse text => one_line text | _ => True end) acts) /\
  (length (bridge client_message_of false lines) = length lines \/
     exists k s, bridge client_message_of false lines !! k = Some [Refuse s; RaiseIntercepted; CloseRmcp]) /\
  (validate_inbound client_message_of fails read_end lines).1 `prefix_of` concat (bridge client_message_of false lines) /\
  ((validate_inbound client_message_of fails read_end lines).2 = Ok tt ->
     (validate_inbound client_message_of fails read_end lines).1 = concat (bridge client_message_of false lines)).
Proof.
  split; [|split; [apply bridge_reads_on|]].
  - intros k acts Hk. destruct (bridge_nth lines false k acts Hk) as (buf & Hl & Hr & Hlen).
    exists buf. split; [done|]. apply (reaction_proper _ (opened (take k lines))) in Hr; [|split; [by intros [|]|by right]].
    unfold reaction in Hr. cbv zeta. destruct (text_of buf) as [line|].
    2: { subst acts. split; [done|]. apply Forall_singleton, error_line_one. }
    destruct Hr as [(r & He & Ho & ->)|[He Ha]].
    + split; [left; exists r; split; [done|]; split; [done|]; split; [done|]; apply Hlen; eexists; by left|].
      repeat constructor. apply error_line_one.
    + split; [by right|]. destruct (validate line); subst acts; repeat constructor. apply error_line_one.
  - unfold validate_inbound. destruct (execute_prefix fails (concat (bridge client_message_of false lines)) 0) as [Hp Ho].
    destruct (execute _ _ _) as [done r]. cbn [fst snd] in *. split; [done|]. destruct r as [[]|e]; [|done]. intros _. by apply Ho.
Qed.
End exact.

(** ** The supervisor polls no handle twice and loses no error *)

Definition task (a b : join_result) (side : bridge_side) : join_result := match side with Inbound => a | Outbound => b end.

(** A supervisor of tasks that end as [a] and [b], all of whose awaited tasks
    ended well. *)
Definition watched (a b : join_result) (s : ValidatorSupervisor) : Prop :=
  forall side, if consumed side s then handle_of side s = None /\ flatten (task a b side) = Ok tt
  else handle_of side s = Some (task a b side).

Lemma watched_consume a b s side : watched a b s -> consumed side s = false ->
  flatten (task a b side) = Ok tt -> watched a b (consume side s).
Proof. intros Hw Hc Hr [|]; [specialize (Hw Inbound)|specialize (Hw Outbound)]; destruct side; cbn in *; rewrite ?Hc in *; done. Qed.

Lemma both_consumed a b s : watched a b s -> inbound_consumed s && outbound_consumed s = true -> flatten a = Ok tt /\ flatten b = Ok tt.
Proof.
  intros Hw [Hi Ho]%andb_prop. pose proof (Hw Inbound) as H1. pose proof (Hw Outbound) as H2. cbn in H1, H2.
  rewrite Hi in H1. rewrite Ho in H2. tauto.
Qed.

Lemma watch_spec a b ready : forall s, watched a b s ->
  match watch_for_error ready s with
  | (Pending, s') => watched a b s'
  | (Polled (Ok _), s') => watched a b s' /\ flatten a = Ok tt /\ flatten b = Ok tt
  | (Polled (Err e), s') => exists side s0, watched a b s0 /\ consumed side s0 = false /\ s' = consume side s0 /\
      flatten (task a b side) = Err e
  | (PollPanic, _) => False
  end.
Proof.
  induction ready as [|side ready IH]; intros s Hw; cbn [watch_for_error]; destruct (inbound_consumed s && outbound_consumed s) eqn:Eb;
    try (split; [done|by apply (both_consumed _ _ s)]); [done|].
  destruct (consumed side s) eqn:Ec; [by apply IH|]. pose proof (Hw side) as Hs. rewrite Ec in Hs. rewrite Hs.
  destruct (flatten (task a b side)) as [[]|e] eqn:Er; [|cbv beta iota; by exists side, s].
  pose proof (watched_consume a b s side Hw Ec Er) as Hw'. destruct (consumed (other side) s) eqn:Eo; [|by apply IH].
  split; [done|]. apply (both_consumed _ _ _ Hw'). destruct side; cbn in *; by rewrite Eo, ?andb_true_r.
Qed.

Lemma take_spec a b s side : watched a b s ->
  take_or_await side s = (Polled (flatten (task a b side)),
                          if consumed side s then s else consume side s).
Proof.
  intros Hw. specialize (Hw side). unfold take_or_await. destruct (consumed side s); [|by rewrite Hw].
  destruct Hw as [_ ->]. done.
Qed.

(** The supervisor of the two bridges awaits no task twice, and no error
    of a bridge is lost.  However long the watch ran before it was dropped,
    the drain that follows it ends with the inbound task's error, else the
    outbound one's, as if there had been no watch; a watch that ends well saw
    both tasks end well; the error it ends with is one of the bridges', and
    the failure path after it ends too. *)
Theorem supervisor_sound a b aborted ready :
  match watch_for_error ready (mkSupervisor (Some a) (Some b) false false) with
  | (Pending, s) => drain s = Polled (_ ← flatten a; flatten b) /\ shutdown_after_failure aborted s = Polled (flatten b)
  | (Polled (Ok _), s) => flatten a = Ok tt /\ flatten b = Ok tt /\ drain s = Polled (Ok tt)
  | (Polled (Err e), s) => (flatten a = Err e /\ shutdown_after_failure aborted s = Polled (flatten b)) \/
      (flatten b = Err e /\ shutdown_after_failure aborted s = Polled (Ok tt))
  | (PollPanic, _) => False
  end.
Proof.
  assert (Hdrain : forall s, watched a b s -> drain s = Polled (_ ← flatten a; flatten b)).
  { intros s Hw. unfold drain. rewrite (take_spec a b) by done. cbn [fst].
    pose proof (Hw Outbound) as Ho. unfold take_or_await. cbn in Ho. destruct (consumed Inbound s); cbn [consumed handle_of consume outbound_consumed sv_outbound];
      (destruct (outbound_consumed s); [destruct Ho as [_ ->]|rewrite Ho]); done. }
  assert (Hshut : forall s, (if consumed Inbound s then True else is_Some (sv_inbound s)) -> 
     (if outbound_consumed s then True else sv_outbound s = Some b) ->
     shutdown_after_failure aborted s = Polled (if outbound_consumed s then Ok tt else flatten b)).
  { intros s Hi Ho. unfold shutdown_after_failure, take_or_await. cbn in *. destruct (inbound_consumed s) eqn:Ei; cbn.
    - destruct (outbound_consumed s); [done|]. by rewrite Ho.
    - destruct Hi as [r ->]. cbn. destruct (outbound_consumed s); [done|]. by rewrite Ho. }
  assert (Hside : forall s, watched a b s -> (if consumed Inbound s then True else is_Some (sv_inbound s)) /\
     (if outbound_consumed s then flatten b = Ok tt else sv_outbound s = Some b)).
  { intros s Hw. pose proof (Hw Inbound) as H1. pose proof (Hw Outbound) as H2. cbn in *. destruct (inbound_consumed s), (outbound_consumed s);
      rewrite ?H1; split; try done; try tauto. }
  pose proof (watch_spec a b ready (mkSupervisor (Some a) (Some b) false false)) as Hspec.
  destruct (watch_for_error _ _) as [p s]. destruct p as [|[[]|e]|].
  - assert (Hw : watched a b s) by by apply Hspec; intros [|]. split; [by apply Hdrain|]. destruct (Hside s Hw) as [Hi Ho].
    rewrite Hshut; [|done|by destruct (outbound_consumed s)]. by destruct (outbound_consumed s); [rewrite Ho|].
  - destruct Hspec as (Hw & Ha & Hb); [by intros [|]|]. split; [done|]. split; [done|]. rewrite Hdrain, Ha, Hb by done. done.
  - destruct Hspec as (side & s0 & Hw & Hc & -> & Hr); [by intros [|]|]. destruct (Hside s0 Hw) as [Hi Ho]. destruct side; [left|right]; (split; [done|]).
    + rewrite Hshut; cbn; [|done|by destruct (outbound_consumed s0)]. by destruct (outbound_consumed s0); [rewrite Ho|].
    + rewrite Hshut; cbn; done.
  - apply Hspec. by intros [|].
Qed.

(** ** A reader of JSON, to run the validator *)

Module Plain.
Fixpoint take_while (p : Z -> bool) (s : rstr) : rstr * rstr :=
  match s with c :: s' => if p c then let '(a, b) := take_while p s' in (c :: a, b) else ([], s) | [] => ([], []) end.
Abbreviation skip s := (drop_while is_ascii_whitespace s).

(** Strings without escapes, integers, objects, arrays and the constants. *)
Fixpoint value (fuel : nat) (s : rstr) : option (json * rstr) :=
  match fuel with
  | O => None
  | S fuel =>
      let entries := fix entries (n : nat) (s : rstr) : option (jmap * rstr) :=
        match n, value fuel s with
        | S n, Some (JStr k, s) =>
            match skip s with
            | 58 :: s =>
                match value fuel s with
                | Some (v, s) =>
                    match skip s with
                    | 125 :: s => Some ([(k, v)], s)
                    | 44 :: s => '(es, s) ← entries n s; Some ((k, v) :: es, s)
                    | _ => None
                    end
                | None => None
                end
            | _ => None
            end
        | _, _ => None
        end in
      match skip s with
      | 34 :: s =>
          match take_while (fun c => negb (c =? 34) && negb (c =? 92) && (32 <=? c)) s with
          | (t, 34 :: s) => Some (JStr t, s) | _ => None end
      | 123 :: s => match skip s with 125 :: s => Some (JObj [], s) | s => '(es, s) ← entries fuel s; Some (JObj es, s) end
      | 91 :: s => match skip s with 93 :: s => Some (JArr [], s) | _ => None end
      | s => match strip_prefix (lit "null") s with
             | Some s => Some (JNull, s)
             | None => match take_while is_ascii_digit s with ([], _) => None | (ds, s) => Some (JInt (parse_digits ds), s) end
             end
      end
  end.

Fixpoint show (v : json) : rstr :=
  match v with
  | JNull => lit "null"
  | JBool b => lit (if b then "true" else "false")
  | JInt n => if n <? 0 then lit "-" ++ to_decimal (- n) else to_decimal n
  | JFloat t => t
  | JStr t => [34] ++ t ++ [34]
  | JArr vs => lit "[" ++ join (lit ",") (map show vs) ++ lit "]"
  | JObj es => lit "{" ++ join (lit ",") (map (fun '(k, v) => [34] ++ k ++ [34; 58] ++ show v) es) ++ lit "}"
  end.

#[local, program] Instance plain_text : JsonText := {|
  read_tree line := fst <$> value (length line) line;
  read_value line := '(t, rest) ← value (length line) line; if bool_decide (trim rest = []) then Some (collapse t) else None;
  print_json v := List.filter (fun c => negb (c =? 10)) (show v);
|}.
Next Obligation.
  intros line v. cbn beta. destruct (value (length line) line) as [[t rest]|]; [|done]. cbn. case_bool_decide; [|done]. intros [= <-]. by exists t.
Qed.
Next Obligation. intros v [_ Hf]%list_elem_of_In%List.filter_In. done. Qed.

(** Text with its quotes written as apostrophes. *)
Definition js (s : string) : rstr := map (fun c => if c =? 39 then 34 else c) (lit s).
Definition request : rstr := js "{'id':1,'jsonrpc':'2.0','method':'tools/list'}".
Definition hello : rstr := js "{'id':0,'jsonrpc':'2.0','method':'initialize','params':{}}".
Definition client_message_of (line : rstr) : option client_message :=
  obj ← read_value line ≫= as_object;
  match jget obj (lit "method") ≫= as_json_str, jget obj (lit "id") with
  | Some m, Some i => Some (Request (mkRequest i (if str_eqb m (lit "initialize") then InitializeRequest
                                                  else if str_eqb m (lit "ping") then PingRequest else OtherRequest) false))
  | Some _, None => Some Notification
  | None, _ => Some Response
  end.

Example refuses_before :
  bridge client_message_of false [request ++ [10]; hello ++ [10]] =
  [[Refuse (js "{'error':{'code':-32002,'message':'Server not initialized: send `initialize` before any other request'},'id':1,'jsonrpc':'2.0'}" ++ [10]);
    RaiseIntercepted; CloseRmcp]].
Proof. vm_compute. reflexivity. Qed.
Example forwards_after :
  bridge client_message_of false [hello ++ [13; 10]; [10]; lit "{" ++ [10]; request] =
  [[ToRmcp (hello ++ [13; 10])]; [];
   [ToStdout (js "{'error':{'code':-32700,'message':'Parse error'},'jsonrpc':'2.0'}" ++ [10])]; [ToRmcp request]].
Proof. vm_compute. reflexivity. Qed.
Example keeps_the_id :
  validate (js "{'jsonrpc':'2.0','id':'a','method':'x','params':{'_meta':{},'_meta':null}}") = Reject (invalid_request (JStr (lit "a"))) /\
  validate (js "{'jsonrpc':'2.0','id':7,'result':null,'id':7}") = Reject (invalid_request JNull) /\
  validate (js "{'jsonrpc':'2.0','id':9223372036854775808,'method':'x'}") = Reject (invalid_request JNull).
Proof. vm_compute. auto. Qed.

Lemma validate_exact_witness : exists es, read_tree request = Some (JObj es) /\ rpc_message es.
Proof.
  destruct (validate_exact request) as (_ & [Hf _] & _ & _). destruct Hf as (_ & es & Ht & _ & Hm); [vm_compute; reflexivity|].
  exists es. split; [exact Ht|exact Hm].
Defined.
Lemma bridge_contract_witness :
  length (bridge client_message_of false [hello; request]) = 2%nat \/
  exists k s, bridge client_message_of false [hello; request] !! k = Some [Refuse s; RaiseIntercepted; CloseRmcp].
Proof. exact (proj1 (proj2 (bridge_contract client_message_of (fun _ => None) (Ok tt) [hello; request]))). Defined.

(** A line that does not parse is to report no repeated keys, and to be
    answered as a parse error; when the rest of it is what does not parse, the
    repetition is found and the answer is another. *)
Lemma unparsable_duplicates : exists line, read_value line = None /\
  dk_envelope (scan_duplicate_keys line) = true /\ validate line = Reject (invalid_request JNull).
Proof. exists (js "{'id':1,'id':1} x"). vm_compute. auto. Qed.
End Plain.
