(* ===== verification/Breaker.v ===== *)
(** * The circuit breaker (crates/rimap-authz/src/breaker.rs)

    One record for the mutex-protected [Inner], one function per method
    ([pre_call], [on_success], [on_failure], [trip_open], [prune_expired]),
    each a whole critical section.  The clock is an argument: the reading
    the method takes.  [None] is the panic of [Duration + Duration]. *)

From Stdlib Require Import ZArith Lia.
From stdpp Require Import base option list numbers sorting.
From S2P Require Import Prelude.
Local Open Scope Z_scope.

(* [crates/rimap-authz/src/breaker.rs:31-42] FailureReason *)
Inductive FailureReason := ConnectionLost | Auth | Timeout | Protocol | Tls.
#[export] Instance FailureReason_eq_dec : EqDecision FailureReason.
Proof. solve_decision. Defined.

(* [crates/rimap-authz/src/breaker.rs:106-113] State *)
Inductive State := Closed | Open | HalfOpen.
#[export] Instance State_eq_dec : EqDecision State.
Proof. solve_decision. Defined.

(* [crates/rimap-authz/src/breaker.rs:116-122] Inner *)
Record Inner := mkInner {
  state : State;
  failures : list duration;
  open_until : duration;
  current_cooldown : duration;
  last_trip_was_auth : bool;
}.

(* [crates/rimap-authz/src/breaker.rs:134-147] BreakerConfig *)
Record BreakerConfig := mkBreakerConfig {
  error_threshold : Z;
  window : duration;
  starting_cooldown : duration;
  max_cooldown : duration;
  auth_starting_cooldown : duration;
  auth_max_cooldown : duration;
}.

(* [crates/rimap-authz/src/breaker.rs:152-161] BreakerConfig::default_spec *)
Definition default_spec : BreakerConfig := {|
  error_threshold := 5;
  window := from_secs 30;
  starting_cooldown := from_secs 15;
  max_cooldown := from_secs 300;
  auth_starting_cooldown := from_secs 60;
  auth_max_cooldown := from_secs 600;
|}.

(* [crates/rimap-authz/src/breaker.rs:176-188] CircuitBreaker::new *)
Definition new (cfg : BreakerConfig) : Inner := {|
  state := Closed;
  failures := [];
  open_until := 0;
  current_cooldown := starting_cooldown cfg;
  last_trip_was_auth := false;
|}.

(** The payload of [AuthzError::CircuitOpen]. *)
(* [crates/rimap-authz/src/breaker.rs:216-219] CircuitOpen *)
Definition retry_after_ms (s : Inner) (now : duration) : Z :=
  Z.min u64_max (as_millis (dur_saturating_sub (open_until s) now)).

(* [crates/rimap-authz/src/breaker.rs:201-224] CircuitBreaker::pre_call *)
Definition pre_call (s : Inner) (now : duration) : Inner * result Z unit :=
  match state s with
  | Closed => (s, Ok tt)
  | Open =>
      if open_until s <=? now then
        (mkInner HalfOpen (failures s) (open_until s) (current_cooldown s)
           (last_trip_was_auth s), Ok tt)
      else (s, Err (retry_after_ms s now))
  | HalfOpen => (s, Err (retry_after_ms s now))
  end.

(* [crates/rimap-authz/src/breaker.rs:288-293] CircuitBreaker::prune_expired *)
Fixpoint prune_while_before (cutoff : duration) (q : list duration) : list duration :=
  match q with
  | t :: q' => if t <? cutoff then prune_while_before cutoff q' else q
  | [] => []
  end.
(* [crates/rimap-authz/src/breaker.rs:288-293] CircuitBreaker::prune_expired *)
Definition prune_expired (q : list duration) (now window : duration) : list duration :=
  prune_while_before (dur_saturating_sub now window) q.

(* [crates/rimap-authz/src/breaker.rs:227-242] CircuitBreaker::on_success *)
Definition on_success (cfg : BreakerConfig) (s : Inner) (now : duration) : Inner :=
  match state s with
  | Closed =>
      mkInner Closed (prune_expired (failures s) now (window cfg))
        (open_until s) (current_cooldown s) (last_trip_was_auth s)
  | Open | HalfOpen => mkInner Closed [] 0 (starting_cooldown cfg) false
  end.

(* [crates/rimap-authz/src/breaker.rs:269-281] CircuitBreaker::trip_open *)
Definition next_cooldown (cfg : BreakerConfig) (s : Inner) (reason : FailureReason)
    (doubling : bool) : duration :=
  let is_auth := bool_decide (reason = Auth) in
  let '(start, cap) :=
    if is_auth then (auth_starting_cooldown cfg, auth_max_cooldown cfg)
    else (starting_cooldown cfg, max_cooldown cfg) in
  if doubling then Z.min (dur_saturating_mul (current_cooldown s) 2) cap else start.

(* [crates/rimap-authz/src/breaker.rs:269-286] CircuitBreaker::trip_open *)
Definition trip_open (cfg : BreakerConfig) (s : Inner) (now : duration)
    (reason : FailureReason) (doubling : bool) : option Inner :=
  let next := next_cooldown cfg s reason doubling in
  until ← dur_add now next;
  Some (mkInner Open [] until next (bool_decide (reason = Auth))).

(* [crates/rimap-authz/src/breaker.rs:245-267] CircuitBreaker::on_failure *)
Definition on_failure (cfg : BreakerConfig) (s : Inner) (now : duration)
    (reason : FailureReason) : option Inner :=
  match state s with
  | Open => Some s
  | HalfOpen => trip_open cfg s now reason true
  | Closed =>
      if bool_decide (reason = Auth) then trip_open cfg s now reason false
      else
        let q := prune_expired (failures s) now (window cfg) ++ [now] in
        if error_threshold cfg <=? Z.of_nat (length q)
        then trip_open cfg s now reason false
        else Some (mkInner Closed q (open_until s) (current_cooldown s)
                     (last_trip_was_auth s))
  end.

(** ** Traces of breaker calls

    Every call is a critical section, so any interleaving of concurrent
    dispatches is a sequence of these events, each with its clock
    reading. *)

Inductive event :=
  | Pre (t : duration)
  | Succ (t : duration)
  | Fail (t : duration) (r : FailureReason).

Definition time_of (e : event) : duration :=
  match e with Pre t | Succ t | Fail t _ => t end.

(** The new state and the verdict of a [pre_call], [None] after a panic. *)
Definition step (cfg : BreakerConfig) (s : Inner) (e : event)
    : option (Inner * list (result Z unit)) :=
  match e with
  | Pre t => let '(s', v) := pre_call s t in Some (s', [v])
  | Succ t => Some (on_success cfg s t, [])
  | Fail t r => s' ← on_failure cfg s t r; Some (s', [])
  end.

Fixpoint run (cfg : BreakerConfig) (s : Inner) (es : list event)
    : option (Inner * list (result Z unit)) :=
  match es with
  | [] => Some (s, [])
  | e :: es' =>
      '(s1, vs) ← step cfg s e;
      '(s2, ws) ← run cfg s1 es';
      Some (s2, vs ++ ws)
  end.

(** Clock readings are taken in order, starting no earlier than [t0]. *)
Fixpoint in_order (t0 : duration) (es : list event) : Prop :=
  match es with
  | [] => True
  | e :: es' => t0 <= time_of e /\ in_order (time_of e) es'
  end.

(** ** What the module documentation promises

    The abstract breaker remembers every failure since it last closed and
    counts those inside the window; it has no queue to prune. *)

Inductive spec_state :=
  | SClosed (history : list duration)
  | SOpen (until cooldown : duration)
  | SHalfOpen (until cooldown : duration).

Definition spec_start (cfg : BreakerConfig) (r : FailureReason) : duration :=
  match r with Auth => auth_starting_cooldown cfg | _ => starting_cooldown cfg end.
Definition spec_cap (cfg : BreakerConfig) (r : FailureReason) : duration :=
  match r with Auth => auth_max_cooldown cfg | _ => max_cooldown cfg end.

Definition in_window (now w : duration) (history : list duration) : list duration :=
  filter (fun t => now - w <= t) history.

Definition spec_trips (cfg : BreakerConfig) (h : list duration) (now : duration)
    (r : FailureReason) : bool :=
  bool_decide (r = Auth)
  || (error_threshold cfg <=? Z.of_nat (length (in_window now (window cfg) (h ++ [now])))).

Definition spec_open (now cooldown : duration) : option spec_state :=
  if now + cooldown <=? duration_max then Some (SOpen (now + cooldown) cooldown)
  else None.

Definition spec_reject (until now : duration) : result Z unit :=
  Err (Z.min u64_max (Z.max 0 (until - now) / 1000000)).

Definition spec_step (cfg : BreakerConfig) (s : spec_state) (e : event)
    : option (spec_state * list (result Z unit)) :=
  match s, e with
  | SClosed h, Pre _ => Some (SClosed h, [Ok tt])
  | SClosed h, Succ _ => Some (SClosed h, [])
  | SClosed h, Fail t r =>
      if spec_trips cfg h t r
      then s' ← spec_open t (spec_start cfg r); Some (s', [])
      else Some (SClosed (h ++ [t]), [])
  | SOpen u c, Pre t =>
      if u <=? t then Some (SHalfOpen u c, [Ok tt]) else Some (s, [spec_reject u t])
  | SOpen u c, Fail _ _ => Some (s, [])
  | SHalfOpen u c, Pre t => Some (s, [spec_reject u t])
  | SHalfOpen u c, Fail t r =>
      s' ← spec_open t (Z.min (Z.min duration_max (c * 2)) (spec_cap cfg r)); Some (s', [])
  | _, Succ _ => Some (SClosed [], [])
  end.

Fixpoint spec_run (cfg : BreakerConfig) (s : spec_state) (es : list event)
    : option (spec_state * list (result Z unit)) :=
  match es with
  | [] => Some (s, [])
  | e :: es' =>
      '(s1, vs) ← spec_step cfg s e;
      '(s2, ws) ← spec_run cfg s1 es';
      Some (s2, vs ++ ws)
  end.

(** ** The failure queue *)

Lemma prune_while_before_filter c q :
  StronglySorted Z.le q -> prune_while_before c q = filter (fun t => c <= t) q.
Proof.
  induction 1 as [|t q Hs IH Hall]; [done|]. cbn [prune_while_before].
  rewrite filter_cons. destruct (t <? c) eqn:E; zify_bool.
  - rewrite decide_False by lia. exact IH.
  - rewrite decide_True by lia. f_equal. symmetry.
    apply filter_all. eapply Forall_impl; [exact Hall|]. cbn. lia.
Qed.

Lemma filter_ge_ge (c c' : Z) (l : list Z) :
  c <= c' -> filter (fun t => c' <= t) (filter (fun t => c <= t) l)
             = filter (fun t => c' <= t) l.
Proof. intros Hc. apply list_filter_filter_l. intros. lia. Qed.

Lemma filter_ge_sat (c : Z) (l : list Z) :
  Forall (Z.le 0) l -> filter (fun t => Z.max 0 c <= t) l = filter (fun t => c <= t) l.
Proof.
  intros Hl. apply filter_ext_Forall. eapply Forall_impl; [exact Hl|]. cbn. lia.
Qed.

Lemma prune_expired_filter q now w :
  StronglySorted Z.le q -> Forall (Z.le 0) q ->
  prune_expired q now w = filter (fun t => now - w <= t) q.
Proof.
  intros Hs H0. unfold prune_expired, dur_saturating_sub.
  rewrite prune_while_before_filter by done. by apply filter_ge_sat.
Qed.

(** ** The breaker implements the abstract breaker

    The queue is the part of the history no older than some cutoff that
    every later window has already passed. *)
Definition simulates (cfg : BreakerConfig) (last : duration) (s : Inner)
    (sp : spec_state) : Prop :=
  match sp with
  | SClosed h =>
      state s = Closed /\ StronglySorted Z.le h /\ Forall (fun t => 0 <= t <= last) h /\
      exists c, c <= last - window cfg /\ failures s = filter (fun t => c <= t) h
  | SOpen u c => state s = Open /\ open_until s = u /\ current_cooldown s = c
  | SHalfOpen u c => state s = HalfOpen /\ open_until s = u /\ current_cooldown s = c
  end.

Lemma simulates_init cfg : simulates cfg 0 (new cfg) (SClosed []).
Proof.
  repeat split; [constructor|constructor|]. exists (0 - window cfg). by split; [lia|].
Qed.

Lemma simulates_closed_queue cfg last now s h :
  simulates cfg last s (SClosed h) -> last <= now ->
  prune_expired (failures s) now (window cfg) = in_window now (window cfg) h.
Proof.
  intros (_ & Hs & Hh & c & Hc & ->) Hn.
  rewrite prune_expired_filter.
  - apply filter_ge_ge. lia.
  - by apply StronglySorted_filter.
  - apply Forall_forall. intros x [_ Hx]%list_elem_of_filter.
    rewrite Forall_forall in Hh. apply Hh in Hx. lia.
Qed.

Lemma in_window_snoc now w h :
  0 <= w -> in_window now w (h ++ [now]) = in_window now w h ++ [now].
Proof.
  intros Hw. unfold in_window. rewrite filter_app. f_equal.
  apply filter_all. repeat constructor. lia.
Qed.

(** Equal verdicts, equal panics, related states. *)
Definition agree (cfg : BreakerConfig) (now : duration)
    (a : option (Inner * list (result Z unit)))
    (b : option (spec_state * list (result Z unit))) : Prop :=
  match a, b with
  | Some (s', vs), Some (sp', ws) => vs = ws /\ simulates cfg now s' sp'
  | None, None => True
  | _, _ => False
  end.

Lemma agree_trip cfg s now r d :
  agree cfg now (s' ← trip_open cfg s now r d; Some (s', []))
                (sp' ← spec_open now (next_cooldown cfg s r d); Some (sp', [])).
Proof.
  unfold trip_open, spec_open, dur_add. case_goal; cbn; auto.
Qed.

Lemma next_cooldown_start cfg s r : next_cooldown cfg s r false = spec_start cfg r.
Proof. by destruct r. Qed.

Lemma next_cooldown_double cfg s r :
  next_cooldown cfg s r true =
  Z.min (Z.min duration_max (current_cooldown s * 2)) (spec_cap cfg r).
Proof. by destruct r. Qed.

Lemma simulates_reset cfg now : simulates cfg now
  (mkInner Closed [] 0 (starting_cooldown cfg) false) (SClosed []).
Proof.
  repeat split; [constructor..|]. exists (now - window cfg). split; [lia|done].
Qed.

Lemma simulates_step_closed cfg last s h e :
  0 <= window cfg -> 0 <= last <= time_of e -> simulates cfg last s (SClosed h) ->
  agree cfg (time_of e) (step cfg s e) (spec_step cfg (SClosed h) e).
Proof.
  intros Hw Ht Hsim.
  pose proof (simulates_closed_queue cfg last (time_of e) s h Hsim ltac:(lia)) as Hq.
  destruct Hsim as (Hst & Hs & Hh & c & Hc & Hf).
  assert (Hh' : Forall (fun t => 0 <= t <= time_of e) h)
    by (eapply Forall_impl; [exact Hh|]; cbn; lia).
  destruct e as [t|t|t r]; cbn in *.
  - unfold pre_call. rewrite Hst. split; [done|]. repeat split; try done.
    exists c. split; [lia|done].
  - unfold on_success. rewrite Hst. split; [done|]. repeat split; try done.
    exists (t - window cfg). split; [lia|done].
  - unfold on_failure, spec_trips. rewrite Hst, in_window_snoc, Hq by done.
    pose proof (agree_trip cfg s t r false) as Htr. rewrite next_cooldown_start in Htr.
    destruct (bool_decide (r = Auth)); [exact Htr|]. cbn [orb].
    case_goal; [exact Htr|]. cbn. split; [done|]. repeat split.
    + apply StronglySorted_snoc; [done|]. eapply Forall_impl; [exact Hh'|]. cbn; lia.
    + apply Forall_app. split; [done|]. repeat constructor; lia.
    + exists (t - window cfg). split; [lia|].
      symmetry. by apply in_window_snoc.
Qed.

Lemma simulates_step cfg last s sp e :
  0 <= window cfg -> 0 <= last <= time_of e -> simulates cfg last s sp ->
  agree cfg (time_of e) (step cfg s e) (spec_step cfg sp e).
Proof.
  intros Hw Ht Hsim. destruct sp as [h|u c|u c]; [by eapply simulates_step_closed| |];
    destruct Hsim as (Hst & Hu & Hc); destruct e as [t|t|t r]; cbn in *;
    unfold pre_call, on_success, on_failure, retry_after_ms; rewrite Hst, ?Hu;
    try (split; [done|apply simulates_reset]); try by cbn.
  - case_goal; cbn; [done|]. by rewrite Hu.
  - pose proof (agree_trip cfg s t r true) as Htr.
    by rewrite next_cooldown_double, Hc in Htr.
Qed.

Lemma simulates_run cfg es last s sp :
  0 <= window cfg -> 0 <= last -> in_order last es -> simulates cfg last s sp ->
  option_map snd (run cfg s es) = option_map snd (spec_run cfg sp es).
Proof.
  intros Hw. revert last s sp.
  induction es as [|e es IH]; intros last s sp Hl Hord Hsim; [done|].
  destruct Hord as [Ht Hord]. pose proof (simulates_step cfg last s sp e Hw ltac:(lia) Hsim) as Ha.
  cbn. unfold agree in Ha.
  destruct (step cfg s e) as [[s1 vs]|], (spec_step cfg sp e) as [[sp1 ws]|]; try done.
  destruct Ha as [-> Ha]. specialize (IH (time_of e) _ _ ltac:(lia) Hord Ha). cbn.
  destruct (run cfg s1 es) as [[s2 vs2]|], (spec_run cfg sp1 es) as [[sp2 ws2]|];
    cbn in *; congruence.
Qed.

(** ** Bounds: every reachable state, whatever the order of the clock
    readings *)

Definition cooldown_bound (cfg : BreakerConfig) : duration :=
  Z.max (Z.max (starting_cooldown cfg) (max_cooldown cfg))
        (Z.max (auth_starting_cooldown cfg) (auth_max_cooldown cfg)).

Definition config_ok (cfg : BreakerConfig) : Prop :=
  0 <= error_threshold cfg <= u32_max /\ 0 <= window cfg /\
  0 <= starting_cooldown cfg /\ 0 <= max_cooldown cfg /\
  0 <= auth_starting_cooldown cfg /\ 0 <= auth_max_cooldown cfg.

(** [latest] bounds every clock reading so far. *)
Record bounded (cfg : BreakerConfig) (latest : duration) (s : Inner) : Prop := {
  bounded_cooldown : 0 <= current_cooldown s <= cooldown_bound cfg;
  bounded_deadline : 0 <= open_until s <= latest + cooldown_bound cfg;
  bounded_queue : Z.of_nat (length (failures s)) < Z.max 1 (error_threshold cfg);
  bounded_closed : state s = Closed -> open_until s = 0;
  bounded_tripped : state s <> Closed -> failures s = [];
}.

Lemma prune_while_before_length c q :
  (length (prune_while_before c q) <= length q)%nat.
Proof. induction q as [|t q IH]; cbn; [lia|]. case_goal; cbn; lia. Qed.

Lemma next_cooldown_bound cfg s r d :
  config_ok cfg -> 0 <= current_cooldown s ->
  0 <= next_cooldown cfg s r d <= cooldown_bound cfg.
Proof.
  intros Hc Hs. unfold config_ok, cooldown_bound in *. destruct d.
  - rewrite next_cooldown_double. assert (0 <= spec_cap cfg r <= cooldown_bound cfg)
      by (unfold cooldown_bound; destruct r; cbn; lia).
    unfold cooldown_bound, duration_max, nanos_per_sec in *. lia.
  - rewrite next_cooldown_start. destruct r; cbn; lia.
Qed.

Lemma bounded_new cfg : config_ok cfg -> bounded cfg 0 (new cfg).
Proof.
  intros Hc. unfold config_ok in Hc. split; cbn; unfold cooldown_bound; try done; lia.
Qed.

Lemma bounded_trip cfg latest s now r d :
  config_ok cfg -> bounded cfg latest s -> 0 <= now <= latest ->
  latest + cooldown_bound cfg <= duration_max ->
  exists s', trip_open cfg s now r d = Some s' /\ bounded cfg latest s' /\ state s' = Open.
Proof.
  intros Hc [Hcd _ _ _ _] Hn Hmax.
  pose proof (next_cooldown_bound cfg s r d Hc ltac:(lia)) as Hb.
  unfold trip_open, dur_add. destruct (_ <=? _) eqn:E; zify_bool; [|lia].
  cbn. eexists. repeat split; cbn; try lia; done.
Qed.

Lemma bounded_step cfg latest s e :
  config_ok cfg -> bounded cfg latest s -> 0 <= time_of e <= latest ->
  latest + cooldown_bound cfg <= duration_max ->
  exists s' vs, step cfg s e = Some (s', vs) /\ bounded cfg latest s'.
Proof.
  intros Hc Hb Ht Hmax. pose proof Hb as [H1 H2 H3 H4 H5].
  destruct e as [t|t|t r]; cbn in *.
  - unfold pre_call. destruct (state s) eqn:Es; eauto. case_goal; [|eauto].
    do 2 eexists. split; [done|]. split; cbn; try done. intros _. apply H5. congruence.
  - do 2 eexists. split; [done|]. unfold on_success. unfold config_ok in Hc.
    destruct (state s) eqn:Es; split; cbn; unfold cooldown_bound in *; try done; try lia.
    unfold prune_expired. pose proof (prune_while_before_length
      (dur_saturating_sub t (window cfg)) (failures s)). lia.
  - pose proof (bounded_trip cfg latest s t r) as Htrip.
    unfold on_failure. destruct (state s) eqn:Es; [|by eauto|].
    + destruct (bool_decide _); [|destruct (_ <=? _) eqn:Eth; zify_bool].
      * destruct (Htrip false) as (s' & -> & ? & _); cbn; eauto.
      * destruct (Htrip false) as (s' & -> & ? & _); cbn; eauto.
      * cbn. do 2 eexists. split; [done|]. split; cbn; try done; auto; lia.
    + destruct (Htrip true) as (s' & -> & ? & _); cbn; eauto.
Qed.

Lemma bounded_run cfg latest es s :
  config_ok cfg -> latest + cooldown_bound cfg <= duration_max ->
  bounded cfg latest s -> Forall (fun e => 0 <= time_of e <= latest) es ->
  exists s' vs, run cfg s es = Some (s', vs) /\ bounded cfg latest s'.
Proof.
  intros Hc Hmax Hb Hes. revert s Hb.
  induction Hes as [|e es He _ IH]; intros s Hb; cbn; [eauto|].
  destruct (bounded_step cfg latest s e) as (s1 & vs & -> & Hb1); try done. cbn.
  destruct (IH s1 Hb1) as (s2 & ws & -> & Hb2). cbn. eauto.
Qed.

(** ** Properties *)

(** C5: on every in-order trace from a fresh breaker, the admissions, the
    rejections with their retry hints and the panics are exactly those of the
    abstract breaker, which counts the failures of the last window since it
    last closed: the bounded queue loses nothing. *)
Theorem breaker_refines_spec cfg es :
  0 <= window cfg -> in_order 0 es ->
  option_map snd (run cfg (new cfg) es) = option_map snd (spec_run cfg (SClosed []) es).
Proof.
  intros Hw Hord. eapply simulates_run; [done| |done|apply simulates_init]. lia.
Qed.

Definition five_failures : list event :=
  [Fail 1 Timeout; Fail 2 Protocol; Succ 3; Fail 4 Tls; Fail 5 Timeout;
   Fail 6 ConnectionLost; Pre 7; Pre (6 + from_secs 15); Pre (6 + from_secs 15)].

Lemma breaker_refines_spec_witness :
  option_map snd (run default_spec (new default_spec) five_failures) =
    Some [Err 14999; Ok tt; Err 0] /\
  option_map snd (spec_run default_spec (SClosed []) five_failures) =
    Some [Err 14999; Ok tt; Err 0].
Proof.
  rewrite <- (breaker_refines_spec default_spec five_failures).
  - split; vm_compute; reflexivity.
  - vm_compute; discriminate.
  - vm_compute. repeat split; discriminate.
Defined.

(** No interleaving of calls makes the breaker panic or escape its
    bounds: with a sound configuration and clock readings below the
    representable maximum less the largest cooldown, every trace runs to the
    end, the cooldown stays within the configured maxima, the open deadline is
    at most that far away, and the queue never reaches the threshold. *)
Theorem breaker_never_panics cfg latest es :
  config_ok cfg -> 0 <= latest -> latest + cooldown_bound cfg <= duration_max ->
  Forall (fun e => 0 <= time_of e <= latest) es ->
  exists s vs, run cfg (new cfg) es = Some (s, vs) /\ bounded cfg latest s.
Proof.
  intros Hc Hl Hmax Hes. apply bounded_run; try done.
  destruct (bounded_new cfg Hc) as [? ? ? ? ?]. split; cbn in *; try done; lia.
Qed.

Lemma breaker_never_panics_witness :
  exists s vs, run default_spec (new default_spec) five_failures = Some (s, vs) /\
    bounded default_spec (from_secs 1000) s.
Proof.
  apply (breaker_never_panics default_spec (from_secs 1000) five_failures).
  - vm_compute. repeat split; discriminate.
  - vm_compute. discriminate.
  - vm_compute. discriminate.
  - repeat constructor; vm_compute; discriminate.
Defined.

(** Calls that admit nothing: the state is Open and the deadline is ahead. *)
Lemma open_rejects cfg s es :
  state s = Open ->
  Forall (fun e => time_of e < open_until s /\ forall t, e <> Succ t) es ->
  run cfg s es = Some (s, omap (fun e => match e with
    | Pre t => Some (Err (retry_after_ms s t)) | _ => None end) es).
Proof.
  intros Hst. induction 1 as [|e es [Ht Hne] _ IH]; [done|].
  destruct e as [t|t|t r]; [|by destruct (Hne t)|]; cbn in *;
    unfold pre_call, on_failure; rewrite Hst; cbn.
  - destruct (_ <=? _) eqn:E; zify_bool; [lia|]. cbn. by rewrite IH.
  - by rewrite IH.
Qed.

(** The cooldown is honoured.  When a failure observed at time [t] opens
    the breaker, the deadline is exactly [t] plus the new cooldown, and until
    a success is reported every call before the deadline is rejected with the
    time left, whatever other calls and failures interleave. *)
Theorem open_until_deadline cfg s t r s' es :
  on_failure cfg s t r = Some s' -> state s <> Open -> state s' = Open ->
  Forall (fun e => time_of e < t + current_cooldown s' /\ forall u, e <> Succ u) es ->
  open_until s' = t + current_cooldown s' /\
  run cfg s' es = Some (s', omap (fun e => match e with
    | Pre u => Some (Err (Z.min u64_max ((t + current_cooldown s' - u) / nanos_per_milli)))
    | _ => None end) es).
Proof.
  intros Hf Hs Hs' Hes.
  assert (Hu : open_until s' = t + current_cooldown s').
  { unfold on_failure, trip_open, dur_add in Hf.
    repeat (case_hyp Hf; cbn in Hf; try done); by inv Hf. }
  split; [done|]. rewrite <- Hu in *. rewrite open_rejects by done. do 2 f_equal.
  clear Hf Hs Hs' Hu. induction Hes as [|e es [He _] _ IH]; [done|].
  destruct e; cbn in *; rewrite ?IH; try done.
  unfold retry_after_ms, dur_saturating_sub, as_millis. by rewrite Z.max_r by lia.
Qed.

Definition tripped : Inner := mkInner Open [] (100 + from_secs 60) (from_secs 60) true.

Lemma open_until_deadline_witness :
  open_until tripped = 100 + current_cooldown tripped /\
  run default_spec tripped [Pre 200; Fail 300 Timeout; Pre (from_secs 60)] =
    Some (tripped, [Err 59999; Err 0]).
Proof.
  apply (open_until_deadline default_spec (new default_spec) 100 Auth tripped
           [Pre 200; Fail 300 Timeout; Pre (from_secs 60)]).
  - vm_compute. reflexivity.
  - discriminate.
  - reflexivity.
  - repeat constructor; try discriminate; vm_compute; reflexivity.
Defined.

Definition admitted (vs : list (result Z unit)) : nat := length (List.filter is_ok vs).

Lemma half_open_rejects cfg s ts :
  state s = HalfOpen ->
  run cfg s (map Pre ts) = Some (s, map (fun t => Err (retry_after_ms s t)) ts).
Proof.
  intros Hs. induction ts as [|t ts IH]; [done|]. cbn.
  unfold pre_call. rewrite Hs. cbn. by rewrite IH.
Qed.

Lemma admitted_errs {B} (f : B -> Z) l : admitted (map (fun t => Err (f t)) l) = 0%nat.
Proof. unfold admitted. by induction l. Qed.

(** Exactly one probe.  However many calls reach an open breaker, at
    whatever times, none is admitted if all come before the deadline, and
    otherwise exactly one is, the first at or after it; the breaker then waits
    in the half-open state for that probe's outcome. *)
Theorem exactly_one_probe cfg s ts :
  state s = Open ->
  exists s' vs, run cfg s (map Pre ts) = Some (s', vs) /\ length vs = length ts /\
    (if existsb (fun t => open_until s <=? t) ts
     then admitted vs = 1%nat /\ state s' = HalfOpen
     else admitted vs = 0%nat /\ s' = s).
Proof.
  intros Hs. induction ts as [|t ts IH]; cbn; [by exists s, []|].
  unfold pre_call. rewrite Hs. destruct (open_until s <=? t); cbn.
  - rewrite half_open_rejects by done. cbn. do 2 eexists. split; [done|].
    cbn. split; [by rewrite length_map|].
    pose proof (admitted_errs (retry_after_ms (mkInner HalfOpen (failures s) (open_until s)
      (current_cooldown s) (last_trip_was_auth s))) ts) as Ha.
    unfold admitted in *. cbn. by rewrite Ha.
  - destruct IH as (s' & vs & -> & Hl & Hv). cbn. do 2 eexists. split; [done|].
    split; [cbn; lia|]. by unfold admitted.
Qed.

Lemma exactly_one_probe_witness :
  exists s' vs, run default_spec tripped (map Pre [5; from_secs 61; from_secs 62]) = Some (s', vs) /\
    length vs = 3%nat /\ admitted vs = 1%nat /\ state s' = HalfOpen.
Proof. apply (exactly_one_probe default_spec tripped [5; from_secs 61; from_secs 62]). reflexivity. Defined.

(** [n] times: the probe admitted at the deadline fails at once. *)
Fixpoint failing_probes (cfg : BreakerConfig) (r : FailureReason) (n : nat) (s : Inner)
    : option Inner :=
  match n with
  | O => Some s
  | S n' =>
      let '(s1, _) := pre_call s (open_until s) in
      s2 ← on_failure cfg s1 (open_until s) r;
      failing_probes cfg r n' s2
  end.

Lemma failing_probe_step cfg r n s :
  state s = Open -> 0 <= open_until s ->
  open_until s + spec_cap cfg r <= duration_max ->
  let c := Z.min (current_cooldown s * 2) (spec_cap cfg r) in
  0 <= current_cooldown s -> 0 <= spec_cap cfg r ->
  failing_probes cfg r (S n) s =
    failing_probes cfg r n (mkInner Open [] (open_until s + c) c (bool_decide (r = Auth))).
Proof.
  intros Hs Hu Hmax c H0 H1. cbn [failing_probes]. unfold pre_call, on_failure.
  rewrite Hs, Z.leb_refl. cbn [state open_until].
  unfold trip_open, dur_add. rewrite next_cooldown_double. cbn [current_cooldown].
  replace (Z.min (Z.min duration_max (current_cooldown s * 2)) (spec_cap cfg r)) with c by lia.
  destruct (_ <=? _) eqn:E; zify_bool; [|lia]. by cbn.
Qed.

(** Exponential backoff.  [n] failed probes in a row, the trip caused by
    a failure of the same class, put the cooldown at [start * 2^n] capped at
    the class maximum, without overflow while the deadlines stay representable. *)
Theorem backoff_doubles_to_cap cfg r n s :
  state s = Open -> 0 <= open_until s ->
  current_cooldown s = spec_start cfg r -> 0 <= spec_start cfg r <= spec_cap cfg r ->
  open_until s + Z.of_nat n * spec_cap cfg r <= duration_max ->
  exists s', failing_probes cfg r n s = Some s' /\ state s' = Open /\
    current_cooldown s' = Z.min (spec_start cfg r * 2 ^ Z.of_nat n) (spec_cap cfg r) /\
    open_until s + Z.of_nat n * spec_start cfg r <= open_until s'.
Proof.
  intros Hs Hu Hc Hcap Hmax.
  assert (Hgen : forall k n s, state s = Open -> 0 <= open_until s ->
    current_cooldown s = Z.min (spec_start cfg r * 2 ^ Z.of_nat k) (spec_cap cfg r) ->
    open_until s + Z.of_nat n * spec_cap cfg r <= duration_max ->
    exists s', failing_probes cfg r n s = Some s' /\ state s' = Open /\
    current_cooldown s' = Z.min (spec_start cfg r * 2 ^ Z.of_nat (k + n)) (spec_cap cfg r) /\
    open_until s + Z.of_nat n * spec_start cfg r <= open_until s').
  { clear s n Hs Hu Hc Hmax. intros k n. revert k. induction n as [|n IH]; intros k s Hs Hu Hc Hmax.
    - exists s. rewrite Nat.add_0_r. repeat split; try done; lia.
    - assert (Hp : 1 <= 2 ^ Z.of_nat k) by (apply (Z.pow_le_mono_r 2 0); lia).
      rewrite failing_probe_step by (done || nia).
      edestruct (IH (S k)) as (s' & He & ? & Hcc & Hlo); cycle 4.
      + exists s'. split; [exact He|]. split; [done|]. replace (k + S n)%nat with (S k + n)%nat by lia.
        split; [exact Hcc|]. cbn [open_until] in Hlo. nia.
      + done.
      + cbn. nia.
      + cbn [current_cooldown]. rewrite Hc, Nat2Z.inj_succ, Z.pow_succ_r by lia. nia.
      + cbn [open_until]. nia. }
  apply (Hgen 0%nat); try done. rewrite Z.mul_1_r. lia.
Qed.

Lemma backoff_doubles_to_cap_witness :
  exists s', failing_probes default_spec Auth 5 tripped = Some s' /\ state s' = Open /\
    current_cooldown s' = Z.min (from_secs 60 * 2 ^ 5) (from_secs 600) /\
    100 + from_secs 60 + 5 * from_secs 60 <= open_until s'.
Proof.
  apply (backoff_doubles_to_cap default_spec Auth 5 tripped).
  - reflexivity.
  - vm_compute. discriminate.
  - reflexivity.
  - vm_compute. split; discriminate.
  - vm_compute. discriminate.
Defined.

(** The retry hint is exact to the millisecond: a call rejected with hint
    [ms] is rejected at every instant less than [ms] milliseconds later and
    admitted from [ms + 1] milliseconds later on (hints below the [u64]
    ceiling, no other call in between). *)
Theorem retry_hint_exact s now ms later :
  state s = Open -> pre_call s now = (s, Err ms) -> ms < u64_max -> now <= later ->
  (later - now < ms * nanos_per_milli -> exists ms', pre_call s later = (s, Err ms')) /\
  ((ms + 1) * nanos_per_milli <= later - now -> snd (pre_call s later) = Ok tt).
Proof.
  unfold pre_call. intros -> Hp Hms Hl. destruct (open_until s <=? now) eqn:E; inv Hp; zify_bool.
  unfold retry_after_ms, as_millis, dur_saturating_sub, nanos_per_milli in *.
  rewrite Z.max_r in * by lia.
  pose proof (Z.div_mod (open_until s - now) 1000000 ltac:(lia)).
  pose proof (Z.mod_pos_bound (open_until s - now) 1000000 ltac:(lia)).
  split; intros ?; destruct (open_until s <=? later) eqn:E2; zify_bool; cbn; eauto; lia.
Qed.

Lemma retry_hint_exact_witness :
  (400 - 200 < 59999 * nanos_per_milli -> exists ms', pre_call tripped 400 = (tripped, Err ms')) /\
  (60000 * nanos_per_milli <= 400 - 200 -> snd (pre_call tripped 400) = Ok tt).
Proof.
  apply (retry_hint_exact tripped 200 59999 400).
  - reflexivity.
  - vm_compute. reflexivity.
  - vm_compute. reflexivity.
  - vm_compute. discriminate.
Defined.
