(* ===== verification/Authz.v ===== *)
(** * The dispatch guard and the seam that uses it

    crates/rimap-authz: [EffectiveMatrix] (matrix.rs), [Governor]
    (rate_limit.rs) and [DispatchGuard] (guard.rs); and from
    crates/rimap-server/src/mcp: [dispatch_account_scoped] (server.rs) with
    [rimap_error_to_breaker_reason] and [with_tool_call_ceiling]
    (dispatch.rs).  The token buckets are the governor crate's, behind the
    class [Limiter]. *)

From Stdlib Require Import ZArith Lia.
From stdpp Require Import base option list strings gmap.
From S2P Require Import Prelude RustStr Tools Errors Breaker.
Local Open Scope Z_scope.

(** ** The effective matrix *)

(* [crates/rimap-config/src/model.rs:251-256] Verdict *)
Inductive Verdict := Allow | Deny.

(* [crates/rimap-authz/src/matrix.rs:21-24] EffectiveMatrix *)
Record EffectiveMatrix := mkMatrix {
  allowed : gmap ToolName bool;
  matrix_posture : Posture;
}.

(* [crates/rimap-authz/src/matrix.rs:33-40] EffectiveMatrix::build *)
Definition effective (p : Posture) (overrides : gmap ToolName Verdict) (t : ToolName) : bool :=
  match overrides !! t with
  | None => base_allows p t
  | Some Allow => true
  | Some Deny => false
  end.

(* [crates/rimap-authz/src/matrix.rs:30-42] EffectiveMatrix::build *)
Definition matrix_build (p : Posture) (overrides : gmap ToolName Verdict) : EffectiveMatrix :=
  mkMatrix (foldl (fun m t => <[t := effective p overrides t]> m) ∅ all_tools) p.

Definition matrix_allows (m : EffectiveMatrix) (t : ToolName) : bool :=
  match allowed m !! t with Some b => b | None => false end.

(* [crates/rimap-authz/src/matrix.rs:54-60] EffectiveMatrix::check *)
Definition matrix_check (m : EffectiveMatrix) (t : ToolName) : result AuthzError unit :=
  if matrix_allows m t then Ok tt else Err (APostureDenied t).

(* [crates/rimap-authz/src/matrix.rs:65-70] EffectiveMatrix::advertised *)
Definition advertised (m : EffectiveMatrix) : list ToolName :=
  List.filter (matrix_allows m) all_tools.

(* [crates/rimap-authz/src/matrix.rs:74-78] EffectiveMatrix::rows *)
Definition matrix_rows (m : EffectiveMatrix) : list (ToolName * bool) :=
  map (fun t => (t, matrix_allows m t)) all_tools.

(** ** The rate limiter *)

(** The quotas the source builds with the governor crate. *)
Inductive quota := PerSecond (n burst : Z) | PerMinute (n : Z).

(** A direct rate limiter of the governor crate: [check] at a reading of its
    own clock either takes a cell or answers the time to wait. *)
Class Limiter (L : Type) := {
  direct : quota -> L;
  limiter_check : L -> duration -> L * option duration;
}.

Section governor.
Context {L : Type} `{Limiter L}.

(* [crates/rimap-authz/src/rate_limit.rs:56-61] Governor *)
Record Governor := mkGovernor { global : L; drafts : L; sends : L }.

(* [crates/rimap-authz/src/rate_limit.rs:45-53] rate_limited *)
Definition rate_limited (wait : duration) : AuthzError :=
  ARateLimited (Z.min u64_max (as_millis wait)).

(* [crates/rimap-authz/src/rate_limit.rs:70-93] Governor::new *)
Definition governor_new (cps dpm spm : Z) : result AuthzError Governor :=
  if cps =? 0 then Err (AConfigBuild (lit "commands_per_second must be > 0"))
  else if dpm =? 0 then Err (AConfigBuild (lit "drafts_per_minute must be > 0"))
  else if spm =? 0 then Err (AConfigBuild (lit "sends_per_minute must be > 0"))
  else
    let burst := Z.max 1 (Z.min u32_max (cps * 2)) in
    Ok (mkGovernor (direct (PerSecond cps burst)) (direct (PerMinute dpm))
          (direct (PerMinute spm))).

(** One bucket, if the tool is gated by it. *)
(* [crates/rimap-authz/src/rate_limit.rs:101-113] Governor::check *)
Definition bucket_check (gated : bool) (l : L) (now : duration) : L * result AuthzError unit :=
  if gated then
    match limiter_check l now with
    | (l', None) => (l', Ok tt)
    | (l', Some wait) => (l', Err (rate_limited wait))
    end
  else (l, Ok tt).

(* [crates/rimap-authz/src/rate_limit.rs:100-115] Governor::check *)
Definition governor_check (g : Governor) (t : ToolName) (now : duration)
    : Governor * result AuthzError unit :=
  let '(global', r) := bucket_check true (global g) now in
  let g := mkGovernor global' (drafts g) (sends g) in
  match r with
  | Err e => (g, Err e)
  | Ok _ =>
      let '(drafts', r) := bucket_check (is_draft_quota_gated t) (drafts g) now in
      let g := mkGovernor (global g) drafts' (sends g) in
      match r with
      | Err e => (g, Err e)
      | Ok _ =>
          let '(sends', r) := bucket_check (is_send_quota_gated t) (sends g) now in
          (mkGovernor (global g) (drafts g) sends', r)
      end
  end.

(** ** The composed guard *)

(* [crates/rimap-authz/src/guard.rs:19-23] DispatchGuard *)
Record DispatchGuard := mkGuard {
  matrix : EffectiveMatrix;
  cfg : BreakerConfig;
  breaker : Inner;
  governor : Governor;
}.

Definition with_breaker (g : DispatchGuard) (b : Inner) : DispatchGuard :=
  mkGuard (matrix g) (cfg g) b (governor g).

(* [crates/rimap-authz/src/guard.rs:40-45] DispatchGuard::pre_dispatch *)
Definition pre_dispatch (g : DispatchGuard) (t : ToolName) (now : duration)
    : DispatchGuard * result AuthzError unit :=
  match matrix_check (matrix g) t with
  | Err e => (g, Err e)
  | Ok _ =>
      let '(b, r) := pre_call (breaker g) now in
      let g := with_breaker g b in
      match r with
      | Err ms => (g, Err (ACircuitOpen ms))
      | Ok _ =>
          let '(gov, r) := governor_check (governor g) t now in
          (mkGuard (matrix g) (cfg g) (breaker g) gov, r)
      end
  end.

(* [crates/rimap-authz/src/guard.rs:48-50] DispatchGuard::on_success *)
Definition guard_on_success (g : DispatchGuard) (now : duration) : DispatchGuard :=
  with_breaker g (on_success (cfg g) (breaker g) now).

(* [crates/rimap-authz/src/guard.rs:53-55] DispatchGuard::on_failure *)
Definition guard_on_failure (g : DispatchGuard) (r : FailureReason) (now : duration)
    : option DispatchGuard :=
  b ← on_failure (cfg g) (breaker g) now r; Some (with_breaker g b).

(** ** The dispatch seam *)

(* [crates/rimap-server/src/mcp/dispatch.rs:83-119] rimap_error_to_breaker_reason *)
Definition rimap_error_to_breaker_reason (err : RimapError) : option FailureReason :=
  match err with
  | RSmtp _ _ => None
  | _ =>
      match rimap_code err with
      | EConnectionLost => Some ConnectionLost
      | EAuth => Some Breaker.Auth
      | ETimeout => Some Timeout
      | EImapProtocol | ESmtpProtocol => Some Protocol
      | ETls => Some Tls
      | EInvalidInput | EPostureDenied | ERateLimited | ECircuitOpen | ENotFound
      | EAttachmentTooLarge | EProtectedFolder | EExpungeDenied | EConfig | EInternal
      | ENoAccount | EUnknownAccount | ECancelled | EUidValidityChanged => None
      end
  end.

(** What becomes of the handler's future: it finishes, the per-call ceiling
    cuts it, or the whole dispatch is dropped (the client cancelled, the
    runtime is shutting down). *)
Inductive dispatch_future (A : Type) :=
  | Finishes (r : result RimapError A)
  | Elapses
  | IsDropped.
Arguments Finishes {A} _.
Arguments Elapses {A}.
Arguments IsDropped {A}.

(* [crates/rimap-server/src/mcp/dispatch.rs:196-205] with_tool_call_ceiling *)
Definition ceiling_error (ceiling : duration) : RimapError :=
  RImap ETimeout (lit "tool call exceeded the " ++ to_decimal (ceiling / nanos_per_sec)
    ++ lit "s ceiling (limits.tool_call_timeout_seconds)").

(** The answer, [None] when nobody is left to receive it, and whether the
    IMAP session was poisoned. *)
(* [crates/rimap-server/src/mcp/dispatch.rs:184-208] with_tool_call_ceiling *)
Definition with_tool_call_ceiling {A} (ceiling : duration) (f : dispatch_future A)
    : option (result RimapError A) * bool :=
  match f with
  | Finishes r => (Some r, false)
  | Elapses => (Some (Err (ceiling_error ceiling)), true)
  | IsDropped => (None, false)
  end.

(** What one account-scoped call did. *)
Record call_report (A : Type) := mkReport {
  handler_ran : bool;
  poisoned : bool;
  answer : option (result RimapError A);
}.
Arguments mkReport {A} _ _ _.
Arguments handler_ran {A} _.
Arguments poisoned {A} _.
Arguments answer {A} _.

(* [crates/rimap-server/src/mcp/server.rs:172-193] dispatch_account_scoped *)
Definition dispatch_account_scoped {A} (g : DispatchGuard) (ceiling : duration)
    (t : ToolName) (t_pre t_post : duration) (f : dispatch_future A)
    : option (DispatchGuard * call_report A) :=
  match pre_dispatch g t t_pre with
  | (g, Err e) => Some (g, mkReport false false (Some (Err (rimap_of_authz e))))
  | (g, Ok _) =>
      let '(res, poison) := with_tool_call_ceiling ceiling f in
      match res with
      | None => Some (g, mkReport true poison None)
      | Some (Ok a) => Some (guard_on_success g t_post, mkReport true poison (Some (Ok a)))
      | Some (Err e) =>
          match rimap_error_to_breaker_reason e with
          | Some reason =>
              g' ← guard_on_failure g reason t_post;
              Some (g', mkReport true poison (Some (Err e)))
          | None => Some (g, mkReport true poison (Some (Err e)))
          end
      end
  end.
End governor.
Arguments Governor : clear implicits.
Arguments DispatchGuard : clear implicits.
Arguments Finishes {A} _.
Arguments Elapses {A}.
Arguments IsDropped {A}.
Arguments mkReport {A} _ _ _.
Arguments handler_ran {A} _.
Arguments poisoned {A} _.
Arguments answer {A} _.

(** ** The effective matrix, characterised *)

Lemma matrix_build_lookup p ov t :
  allowed (matrix_build p ov) !! t = Some (effective p ov t).
Proof.
  unfold matrix_build. cbn [allowed].
  assert (Hg : forall l (m : gmap ToolName bool), (t ∈ l \/ m !! t = Some (effective p ov t)) ->
    foldl (fun m t => <[t := effective p ov t]> m) m l !! t = Some (effective p ov t)).
  { induction l as [|u l IH]; intros m Hm; cbn; [set_solver|].
    apply IH. destruct (decide (u = t)) as [->|Hne].
    - right. apply lookup_insert_eq.
    - rewrite lookup_insert_ne by done. set_solver. }
  apply Hg. left. apply all_tools_complete.
Qed.

Lemma matrix_allows_build p ov t : matrix_allows (matrix_build p ov) t = effective p ov t.
Proof. unfold matrix_allows. by rewrite matrix_build_lookup. Qed.

(** The built matrix is the posture table corrected by the overrides and
    nothing else: a tool passes [check] exactly when it is allowed explicitly,
    or not mentioned and allowed by the base posture; the advertised list is
    exactly the passing tools in declaration order; and an infrastructure tool
    or [export_messages] passes only by an explicit override. *)
Theorem matrix_check_spec p ov t :
  (matrix_check (matrix_build p ov) t = Ok tt <->
     ov !! t = Some Allow \/ (ov !! t = None /\ base_allows p t = true)) /\
  (t ∈ advertised (matrix_build p ov) <-> matrix_check (matrix_build p ov) t = Ok tt) /\
  sublist (advertised (matrix_build p ov)) all_tools /\
  (is_infrastructure t = true \/ t = ExportMessages ->
     matrix_check (matrix_build p ov) t = Ok tt -> ov !! t = Some Allow).
Proof.
  assert (Hc : matrix_check (matrix_build p ov) t = Ok tt <-> effective p ov t = true).
  { unfold matrix_check. rewrite matrix_allows_build. by destruct (effective p ov t). }
  assert (He : effective p ov t = true <->
    ov !! t = Some Allow \/ (ov !! t = None /\ base_allows p t = true)).
  { unfold effective. destruct (ov !! t) as [[]|]; naive_solver. }
  split; [by rewrite Hc|]. split; [|split].
  - rewrite Hc. unfold advertised. rewrite list_elem_of_In, List.filter_In, matrix_allows_build.
    rewrite <- list_elem_of_In. pose proof (all_tools_complete t). naive_solver.
  - unfold advertised. induction all_tools as [|u l IH]; cbn; [constructor|].
    case_goal; by constructor.
  - intros Ht. rewrite Hc, He. intros [?|[_ Hb]]; [done|].
    destruct Ht as [Ht| ->]; [by rewrite base_allows_infrastructure in Hb|by destruct p].
Qed.

Definition export_only : gmap ToolName Verdict := {[ExportMessages := Allow]}.

Lemma matrix_check_spec_witness :
  ExportMessages ∈ advertised (matrix_build Readonly export_only) /\
  export_only !! ExportMessages = Some Allow.
Proof.
  destruct (matrix_check_spec Readonly export_only ExportMessages) as (_ & Hadv & _ & Hexp).
  split; [apply Hadv; vm_compute; reflexivity|].
  apply Hexp; [right; reflexivity|vm_compute; reflexivity].
Defined.

Lemma effective_monotone p q ov t :
  posture_le p q = true -> effective p ov t = true -> effective q ov t = true.
Proof. unfold effective. destruct (ov !! t) as [[]|]; auto. apply base_allows_monotone. Qed.

Lemma matrix_check_build p ov t :
  matrix_check (matrix_build p ov) t =
    if effective p ov t then Ok tt else Err (APostureDenied t).
Proof. unfold matrix_check. by rewrite matrix_allows_build. Qed.

(** Postures are ordered: under the same overrides, raising the posture
    never takes a tool away, and the lower posture's catalogue is a sublist of
    the higher one's. *)
Theorem matrix_monotone p q ov :
  posture_le p q = true ->
  (forall t, matrix_check (matrix_build p ov) t = Ok tt ->
             matrix_check (matrix_build q ov) t = Ok tt) /\
  sublist (advertised (matrix_build p ov)) (advertised (matrix_build q ov)).
Proof.
  intros Hle. split.
  - intros t. rewrite !matrix_check_build.
    pose proof (effective_monotone p q ov t Hle). destruct (effective p ov t); [|done].
    by rewrite H.
  - unfold advertised. induction all_tools as [|u l IH]; cbn; [constructor|].
    rewrite !matrix_allows_build. pose proof (effective_monotone p q ov u Hle) as Hu.
    destruct (effective p ov u); [rewrite Hu by done; by constructor|].
    case_goal; [by constructor|done].
Qed.

Lemma matrix_monotone_witness :
  (forall t, matrix_check (matrix_build DraftSafe export_only) t = Ok tt ->
             matrix_check (matrix_build Full export_only) t = Ok tt) /\
  sublist (advertised (matrix_build DraftSafe export_only))
          (advertised (matrix_build Full export_only)).
Proof. apply (matrix_monotone DraftSafe Full export_only). reflexivity. Defined.

(** ** The guard's decisions *)

Section guard_facts.
Context {L A : Type} `{Limiter L}.
Implicit Types (g : DispatchGuard L) (b : Inner).

Definition bucket_full (gated : bool) (l : L) (now : duration) : bool :=
  if gated then match limiter_check l now with (_, None) => true | _ => false end else true.

Lemma bucket_check_ok gated l now l' :
  bucket_check gated l now = (l', Ok tt) -> bucket_full gated l now = true.
Proof.
  unfold bucket_check, bucket_full. destruct gated; [|done].
  destruct (limiter_check l now) as [? []]; naive_solver.
Qed.

Lemma bucket_check_full gated l now :
  bucket_full gated l now = true -> exists l', bucket_check gated l now = (l', Ok tt).
Proof.
  unfold bucket_check, bucket_full. destruct gated; [|by eauto].
  destruct (limiter_check l now) as [? []]; naive_solver.
Qed.

Lemma bucket_check_err gated l now l' e :
  bucket_check gated l now = (l', Err e) ->
  bucket_full gated l now = false /\ exists wait, e = rate_limited wait.
Proof.
  unfold bucket_check, bucket_full. destruct gated; [|done].
  destruct (limiter_check l now) as [? []]; naive_solver.
Qed.

(** Whether every bucket the tool is gated by has a cell. *)
Definition buckets_admit (gov : Governor L) (t : ToolName) (now : duration) : bool :=
  bucket_full true (global gov) now
  && bucket_full (is_draft_quota_gated t) (drafts gov) now
  && bucket_full (is_send_quota_gated t) (sends gov) now.

Lemma governor_check_spec gov t now :
  match governor_check gov t now with
  | (_, Ok _) => buckets_admit gov t now = true
  | (_, Err e) => buckets_admit gov t now = false /\ exists wait, e = rate_limited wait
  end.
Proof.
  unfold governor_check, buckets_admit.
  destruct (bucket_check true _ _) as [l1 [[]|e1]] eqn:E1; cbn [drafts sends];
    [apply bucket_check_ok in E1 as ->
    |apply bucket_check_err in E1 as [-> ?]; by cbn].
  destruct (bucket_check _ (drafts gov) now) as [l2 [[]|e2]] eqn:E2; cbn [sends];
    [apply bucket_check_ok in E2 as ->
    |apply bucket_check_err in E2 as [-> ?]; by cbn].
  destruct (bucket_check _ (sends gov) now) as [l3 [[]|e3]] eqn:E3;
    [by apply bucket_check_ok in E3 as ->
    |apply bucket_check_err in E3 as [-> ?]; by cbn].
Qed.

Definition breaker_admits b (now : duration) : bool :=
  match state b with
  | Closed => true
  | Open => open_until b <=? now
  | HalfOpen => false
  end.

Lemma pre_call_spec b now :
  match pre_call b now with
  | (b', Ok _) => breaker_admits b now = true /\ (state b = Open -> state b' = HalfOpen)
                  /\ (state b = Closed -> b' = b)
  | (b', Err ms) => breaker_admits b now = false /\ b' = b /\ ms = retry_after_ms b now
  end.
Proof.
  unfold pre_call, breaker_admits. destruct (state b) eqn:E; [|case_goal|]; cbn; naive_solver.
Qed.

(** What an admitted call was admitted by. *)
Lemma pre_dispatch_admits g t now :
  (pre_dispatch g t now).2 = Ok tt <->
  matrix_allows (matrix g) t = true /\ breaker_admits (breaker g) now = true /\ buckets_admit (governor g) t now = true.
Proof.
  unfold pre_dispatch, matrix_check. destruct (matrix_allows (matrix g) t); [|by split; [|intros [? _]]].
  pose proof (pre_call_spec (breaker g) now) as Hb.
  destruct (pre_call (breaker g) now) as [b [[]|ms]]; cbn [with_breaker governor].
  - destruct Hb as [-> _]. pose proof (governor_check_spec (governor g) t now) as Hg.
    destruct (governor_check (governor g) t now) as [gov [[]|e]]; cbn; split; first [done | by intros (_ & _ & ?); destruct Hg; congruence | by split_and!; destruct Hg].
  - destruct Hb as (-> & _ & _). by split; [|intros (_ & ? & _)].
Qed.

(** The guard decides by its three stages in order and nothing else.  A
    call is admitted exactly when the matrix allows the tool, the breaker
    admits a call now and every bucket the tool is gated by has a cell; a tool
    the posture denies touches neither the breaker nor a bucket, and a call
    the breaker rejects takes no cell. *)
Theorem pre_dispatch_spec g t now :
  match pre_dispatch g t now with
  | (g', Ok _) =>
      matrix_allows (matrix g) t = true /\ breaker_admits (breaker g) now = true /\
      buckets_admit (governor g) t now = true
  | (g', Err e) =>
      (e = APostureDenied t /\ matrix_allows (matrix g) t = false /\ g' = g) \/
      (e = ACircuitOpen (retry_after_ms (breaker g) now) /\
       matrix_allows (matrix g) t = true /\ breaker_admits (breaker g) now = false /\ g' = g) \/
      ((exists wait, e = rate_limited wait) /\ matrix_allows (matrix g) t = true /\
       breaker_admits (breaker g) now = true /\ buckets_admit (governor g) t now = false)
  end.
Proof.
  unfold pre_dispatch, matrix_check.
  destruct (matrix_allows (matrix g) t); [|by left].
  pose proof (pre_call_spec (breaker g) now) as Hb.
  destruct (pre_call (breaker g) now) as [b [[]|ms]]; cbn [with_breaker governor].
  - destruct Hb as [Hb _]. pose proof (governor_check_spec (governor g) t now) as Hg.
    destruct (governor_check (governor g) t now) as [gov [[]|e]]; naive_solver.
  - destruct Hb as (Hb & -> & ->). right. left. repeat split; try done. by destruct g.
Qed.
End guard_facts.

(** ** Sequences of calls *)

Section dispatch_facts.
Context {L A : Type} `{Limiter L}.
Implicit Types (g : DispatchGuard L).

Record call := mkCall {
  c_tool : ToolName;
  c_pre : duration;
  c_post : duration;
  c_future : dispatch_future A;
}.

Fixpoint dispatch_calls g (ceiling : duration) (cs : list call)
    : option (DispatchGuard L * list (call_report A)) :=
  match cs with
  | [] => Some (g, [])
  | c :: cs' =>
      '(g1, r) ← dispatch_account_scoped g ceiling (c_tool c) (c_pre c) (c_post c) (c_future c);
      '(g2, rs) ← dispatch_calls g1 ceiling cs';
      Some (g2, r :: rs)
  end.

(** A future whose end says nothing about the service. *)
Definition neutral (ceiling : duration) (f : dispatch_future A) : bool :=
  match f with
  | Finishes (Ok _) => false
  | Finishes (Err e) => bool_decide (rimap_error_to_breaker_reason e = None)
  | Elapses => false
  | IsDropped => true
  end.

Lemma pre_dispatch_frame g t now g' r :
  pre_dispatch g t now = (g', r) ->
  matrix g' = matrix g /\ cfg g' = cfg g /\
  (breaker g' = breaker g \/
   state (breaker g) = Open /\ open_until (breaker g) <= now /\ state (breaker g') = HalfOpen).
Proof.
  unfold pre_dispatch, pre_call. intros Hp. repeat (case_hyp Hp; cbn in Hp); simplify_eq; cbn;
    zify_bool; auto 6.
Qed.

(** A rejected call leaves a half-open or closed breaker as it found it. *)
Lemma dispatch_half_open g ceiling t t1 t2 f :
  state (breaker g) = HalfOpen ->
  exists e, dispatch_account_scoped g ceiling t t1 t2 f =
    Some (g, mkReport (A := A) false false (Some (Err (rimap_of_authz e)))) /\
    (e = APostureDenied t \/ e = ACircuitOpen (retry_after_ms (breaker g) t1)).
Proof.
  intros Hs. unfold dispatch_account_scoped.
  pose proof (pre_dispatch_spec g t t1) as Hp.
  destruct (pre_dispatch g t t1) as [g' [[]|e]].
  - destruct Hp as (_ & Hb & _). unfold breaker_admits in Hb. by rewrite Hs in Hb.
  - destruct Hp as [(-> & _ & ->)|[(-> & _ & _ & ->)|(_ & _ & Hb & _)]]; [eauto..|].
    unfold breaker_admits in Hb. by rewrite Hs in Hb.
Qed.

Lemma dispatch_calls_half_open g ceiling cs :
  state (breaker g) = HalfOpen ->
  exists rs, dispatch_calls g ceiling cs = Some (g, rs) /\
    Forall (fun r => handler_ran r = false) rs.
Proof.
  intros Hs. induction cs as [|c cs IH]; cbn; [by eauto|].
  destruct (dispatch_half_open g ceiling (c_tool c) (c_pre c) (c_post c) (c_future c) Hs)
    as (e & -> & _). cbn. destruct IH as (rs & -> & Hrs). cbn. eauto.
Qed.

(** C8: the probe slot can be lost.  When the cooldown of an open breaker is
    over and the probe that takes the half-open slot is then refused by the
    rate limiter, is dropped, or ends in an error the breaker does not count,
    no outcome is ever reported: the breaker stays half open and no later
    call, however many and however much later, reaches its handler. *)
Theorem probe_slot_leak g ceiling t t1 t2 f cs :
  state (breaker g) = Open -> open_until (breaker g) <= t1 -> matrix_allows (matrix g) t = true ->
  (buckets_admit (governor g) t t1 = false \/ neutral ceiling f = true) ->
  exists g' r rs,
    dispatch_account_scoped g ceiling t t1 t2 f = Some (g', r) /\
    state (breaker g') = HalfOpen /\
    dispatch_calls g' ceiling cs = Some (g', rs) /\
    Forall (fun r => handler_ran r = false) rs.
Proof.
  intros Hs Hu Hm Hcase.
  cut (exists g' r, dispatch_account_scoped g ceiling t t1 t2 f = Some (g', r) /\
         state (breaker g') = HalfOpen).
  { intros (g' & r & Hd & Hh). destruct (dispatch_calls_half_open g' ceiling cs Hh) as (rs & Hc & Hf).
    by exists g', r, rs. }
  unfold dispatch_account_scoped.
  pose proof (pre_dispatch_spec g t t1) as Hp.
  assert (Hh : state (breaker (fst (pre_dispatch g t t1))) = HalfOpen).
  { unfold pre_dispatch, matrix_check, pre_call. rewrite Hm, Hs. apply Z.leb_le in Hu.
    rewrite Hu. cbn. by destruct (governor_check _ _ _). }
  destruct (pre_dispatch g t t1) as [g' [[]|e]]; cbn in Hh; [|by eauto].
  destruct Hp as (_ & _ & Hb). rewrite Hb in Hcase. destruct Hcase as [|Hn]; [done|].
  destruct f as [[a|e]| |]; cbn in *; try done; [|by eauto].
  apply bool_decide_eq_true in Hn. rewrite Hn. eauto.
Qed.

(** The caller's own mistakes never open the breaker.  From a closed
    breaker, any sequence of calls that end in errors the breaker does not
    count (bad input, missing message, denied, SMTP failures, ...), are
    refused by the guard, or are dropped leaves the breaker exactly as it was. *)
Theorem neutral_calls_keep_closed g ceiling cs :
  state (breaker g) = Closed -> Forall (fun c => neutral ceiling (c_future c) = true) cs ->
  exists g' rs, dispatch_calls g ceiling cs = Some (g', rs) /\ breaker g' = breaker g.
Proof.
  intros Hs Hn. revert g Hs. induction Hn as [|c cs Hc _ IH]; intros g Hs; cbn; [by eauto|].
  unfold dispatch_account_scoped.
  destruct (pre_dispatch g (c_tool c) (c_pre c)) as [g1 r] eqn:Hp.
  apply pre_dispatch_frame in Hp as (_ & _ & Hb).
  assert (Hb1 : breaker g1 = breaker g) by (destruct Hb as [?|(? & _)]; congruence).
  assert (Hs1 : state (breaker g1) = Closed) by congruence.
  destruct (IH g1 Hs1) as (g' & rs & Hd & Hb').
  exists g'. destruct r as [[]|e]; cbn; [|rewrite Hd; cbn; eexists; split; [done|congruence]].
  destruct (c_future c) as [[a|e]| |]; cbn in *; try done.
  - apply bool_decide_eq_true in Hc. rewrite Hc. cbn. rewrite Hd. cbn.
    eexists. split; [done|congruence].
  - rewrite Hd. cbn. eexists. split; [done|congruence].
Qed.
End dispatch_facts.
Arguments call : clear implicits.

(** A counting bucket, enough to run examples: [n] cells, one second to wait
    when they are gone. *)
Definition counting_direct (q : quota) : Z :=
  match q with PerSecond _ b => b | PerMinute n => n end.
Definition counting_check (l : Z) (now : duration) : Z * option duration :=
  if 0 <? l then (l - 1, None) else (l, Some nanos_per_sec).
#[export] Instance counting_limiter : Limiter Z :=
  { direct := counting_direct; limiter_check := counting_check }.

Definition sample_guard (b : Inner) (cells : Z) : DispatchGuard Z :=
  mkGuard (matrix_build Readonly ∅) default_spec b (mkGovernor cells cells cells).

Lemma probe_slot_leak_witness :
  exists g' r rs,
    dispatch_account_scoped (A := unit) (sample_guard tripped 0) (from_secs 60) Search
      (from_secs 100) (from_secs 101) Elapses = Some (g', r) /\
    state (breaker g') = HalfOpen /\
    dispatch_calls g' (from_secs 60)
      [mkCall Search (from_secs 100000) (from_secs 100001) (Finishes (Ok tt))] = Some (g', rs) /\
    Forall (fun r => handler_ran r = false) rs.
Proof.
  apply (probe_slot_leak (sample_guard tripped 0) (from_secs 60) Search (from_secs 100)
    (from_secs 101) Elapses
    [mkCall Search (from_secs 100000) (from_secs 100001) (Finishes (Ok tt))]).
  - reflexivity.
  - vm_compute. discriminate.
  - vm_compute. reflexivity.
  - left. vm_compute. reflexivity.
Defined.

Lemma neutral_calls_keep_closed_witness :
  exists g' rs,
    dispatch_calls (A := unit) (sample_guard (new default_spec) 9) (from_secs 60)
      [mkCall Search 1 2 (Finishes (Err (invalid_input [])));
       mkCall FetchMessage 3 4 (Finishes (Err (RSmtp EAuth []))); mkCall Search 5 6 IsDropped]
    = Some (g', rs) /\ breaker g' = new default_spec.
Proof.
  apply (neutral_calls_keep_closed (sample_guard (new default_spec) 9) (from_secs 60)
      [mkCall Search 1 2 (Finishes (Err (invalid_input [])));
       mkCall FetchMessage 3 4 (Finishes (Err (RSmtp EAuth []))); mkCall Search 5 6 IsDropped]).
  - reflexivity.
  - repeat constructor; vm_compute; reflexivity.
Defined.
