(* ===== verification/ImapErrors.v ===== *)
(** * Errors of the IMAP layer (crates/rimap-imap/src/error.rs)

    The variants with their display texts, their stable codes and their
    conversion into the top-level error.  The error values of other crates
    (rustls, std::io, async-imap) are carried as their display text. *)

From Stdlib Require Import ZArith.
From stdpp Require Import base option list strings.
From S2P Require Import Prelude RustStr Tools Errors.
Local Open Scope Z_scope.

(* [crates/rimap-imap/src/error.rs:146-162] AuthFailure *)
Inductive AuthFailure :=
  | LoginRejected
  | AuthCapabilityMissing (needed : rstr)
  | ServerRejected
  | CredentialUnavailable (reason : rstr).

(* [crates/rimap-imap/src/error.rs:167-172] StarttlsRefusal *)
Inductive StarttlsRefusal := RefusedNo | RefusedBad.

(* [crates/rimap-imap/src/error.rs:186-201] StarttlsFailure *)
Inductive StarttlsFailure :=
  | StarttlsCapabilityMissing
  | ServerRefused (tagged_status : StarttlsRefusal)
  | UnexpectedBye
  | UnexpectedPreauth.

(* [crates/rimap-imap/src/error.rs:10-139] ImapError *)
Inductive ImapError :=
  | ITls (observed expected : rstr)
  | ITlsHandshake (source : rstr)
  | IStarttls (reason : StarttlsFailure)
  | IConnect (source : rstr)
  | ITimeout (op : rstr)
  | IAuth (reason : AuthFailure)
  | ISizeLimit (limit : Z)
  | IProtocol (source : rstr)
  | ICapabilitiesUnknown (op : rstr)
  | IFolderNotFound (name : rstr)
  | IConnectionLost
  | IInvalidInput (field reason : rstr)
  | IBatchTooLarge (count limit : Z)
  | IUidValidityChanged (folder : rstr) (expected actual : Z)
  | IUidValidityUnavailable (folder : rstr)
  | IAudit (op message : rstr).

(* [crates/rimap-imap/src/error.rs:203-216] StarttlsFailure::fmt *)
Definition starttls_to_string (f : StarttlsFailure) : rstr :=
  match f with
  | StarttlsCapabilityMissing => lit "server did not advertise STARTTLS capability"
  | ServerRefused s =>
      lit "server refused STARTTLS with tagged "
      ++ match s with RefusedNo => lit "NO" | RefusedBad => lit "BAD" end
  | UnexpectedBye => lit "server sent BYE greeting"
  | UnexpectedPreauth =>
      lit "server sent PREAUTH greeting; STARTTLS requires pre-auth state"
  end.

(* [crates/rimap-imap/src/error.rs:218-227] AuthFailure::fmt *)
Definition auth_to_string (f : AuthFailure) : rstr :=
  match f with
  | LoginRejected => lit "LOGIN rejected"
  | AuthCapabilityMissing needed => lit "missing capability `" ++ needed ++ lit "`"
  | ServerRejected => lit "server BYE greeting"
  | CredentialUnavailable reason => lit "credential unavailable: " ++ reason
  end.

(* [crates/rimap-imap/src/error.rs:12-138] ImapError::to_string *)
Definition imap_to_string (e : ImapError) : rstr :=
  match e with
  | ITls observed expected =>
      lit "fingerprint mismatch (observed=" ++ observed ++ lit ", expected=" ++ expected ++ lit ")"
  | ITlsHandshake _ => lit "handshake failed"
  | IStarttls r => lit "STARTTLS failed: " ++ starttls_to_string r
  | IConnect _ => lit "connect failed"
  | ITimeout op => op ++ lit " exceeded deadline"
  | IAuth r => lit "auth failed: " ++ auth_to_string r
  | ISizeLimit limit => lit "body size exceeded limit of " ++ to_decimal limit ++ lit " bytes"
  | IProtocol s => lit "IMAP protocol error: " ++ s
  | ICapabilitiesUnknown op =>
      lit "server capabilities unknown: the post-login CAPABILITY probe returned no usable advertisement, so "
      ++ op
      ++ lit " is refused rather than fall back to a folder-wide EXPUNGE that would remove every \Deleted message in the mailbox"
  | IFolderNotFound name => lit "mailbox does not exist: " ++ name
  | IConnectionLost => lit "connection torn down mid-command"
  | IInvalidInput field reason => lit "invalid input: " ++ field ++ lit ": " ++ reason
  | IBatchTooLarge count limit =>
      lit "batch too large: " ++ to_decimal count ++ lit " UIDs exceeds limit of " ++ to_decimal limit
  | IUidValidityChanged folder expected actual =>
      lit "UIDVALIDITY changed for `" ++ folder ++ lit "`: expected " ++ to_decimal expected
      ++ lit ", server reports " ++ to_decimal actual
  | IUidValidityUnavailable folder =>
      lit "server omitted UIDVALIDITY for folder " ++ folder ++ lit " on a guarded fetch"
  | IAudit _ message => lit "audit failure: " ++ message
  end.

(* [crates/rimap-imap/src/error.rs:235-254] ImapError::code *)
Definition imap_code (e : ImapError) : ErrorCode :=
  match e with
  | ITls _ _ | ITlsHandshake _ | IStarttls _ => ETls
  | IConnect _ | IConnectionLost => EConnectionLost
  | ITimeout _ => ETimeout
  | IAuth _ => EAuth
  | ISizeLimit _ => EAttachmentTooLarge
  | IProtocol _ | ICapabilitiesUnknown _ => EImapProtocol
  | IFolderNotFound _ => ENotFound
  | IInvalidInput _ _ | IBatchTooLarge _ _ => EInvalidInput
  | IUidValidityChanged _ _ _ | IUidValidityUnavailable _ => EUidValidityChanged
  | IAudit _ _ => EInternal
  end.

(* [crates/rimap-imap/src/error.rs:256-302] From<ImapError> for RimapError *)
Definition rimap_of_imap (e : ImapError) : RimapError :=
  match e with
  | IUidValidityChanged folder expected actual => RUidValidityChanged folder expected actual
  | ISizeLimit limit => RAttachmentTooLarge (lit "fetch_body_bytes") limit
  | _ => RImap (imap_code e) (imap_to_string e)
  end.

Lemma rimap_of_imap_code e : rimap_code (rimap_of_imap e) = imap_code e.
Proof. by destruct e. Qed.
