(* ===== verification/UidSet.v ===== *)
(** * IMAP sequence sets (crates/rimap-imap/src/ops/fetch.rs)

    [compress_uid_set] turns UIDs into the [sequence-set] of RFC 3501; the
    grammar's reading of such a set is [parse_uid_set], used only to state
    that nothing is lost or added. *)

From Stdlib Require Import ZArith Lia.
From stdpp Require Import base option list strings sorting sets.
From S2P Require Import Prelude RustStr.
Local Open Scope Z_scope.

(** [Vec::dedup]: drop an element equal to its predecessor. *)
Fixpoint dedup (l : list Z) : list Z :=
  match l with
  | x :: ((y :: _) as l') => if x =? y then dedup l' else x :: dedup l'
  | _ => l
  end.

(* [crates/rimap-imap/src/ops/fetch.rs:61-71] emit_run *)
Definition emit_run (out : rstr) (first last : Z) : rstr :=
  out ++ (match out with [] => [] | _ => lit "," end)
      ++ (if first =? last then to_decimal first
          else to_decimal first ++ lit ":" ++ to_decimal last).

(** The loop over [sorted[1..]] with the current run. *)
(* [crates/rimap-imap/src/ops/fetch.rs:44-58] compress_uid_set *)
Fixpoint emit_runs (out : rstr) (run_start run_end : Z) (rest : list Z) : rstr :=
  match rest with
  | [] => emit_run out run_start run_end
  | uid :: rest' =>
      (* [run_end.checked_add(1) != Some(uid)] on [u32] *)
      if (run_end <? u32_max) && (run_end + 1 =? uid)
      then emit_runs out run_start uid rest'
      else emit_runs (emit_run out run_start run_end) uid uid rest'
  end.

(* [crates/rimap-imap/src/ops/fetch.rs:31-59] compress_uid_set *)
Definition compress_uid_set (uids : list Z) : rstr :=
  match dedup (merge_sort Z.le uids) with
  | [] => []
  | u :: rest => emit_runs [] u u rest
  end.

(** ** The RFC 3501 reading: comma-separated numbers and ranges *)

Definition parse_number (s : rstr) : option Z :=
  if negb (bool_decide (s = [])) && forallb is_ascii_digit s then Some (parse_digits s) else None.

Definition parse_range (s : rstr) : option (Z * Z) :=
  match split_once 58 s with
  | None => n ← parse_number s; Some (n, n)
  | Some (a, b) => n ← parse_number a; m ← parse_number b; Some (n, m)
  end.

Definition parse_uid_set (s : rstr) : option (list (Z * Z)) := mapM parse_range (split_on 44 s).

(** A UID is named by a set of ranges. *)
Definition named (rs : list (Z * Z)) (u : Z) : Prop := exists r, r ∈ rs /\ r.1 <= u <= r.2.

(** The runs the loop emits. *)
Fixpoint runs (run_start run_end : Z) (rest : list Z) : list (Z * Z) :=
  match rest with
  | [] => [(run_start, run_end)]
  | uid :: rest' =>
      if (run_end <? u32_max) && (run_end + 1 =? uid)
      then runs run_start uid rest'
      else (run_start, run_end) :: runs uid uid rest'
  end.

Definition show_run (r : Z * Z) : rstr :=
  if r.1 =? r.2 then to_decimal r.1 else to_decimal r.1 ++ lit ":" ++ to_decimal r.2.

Lemma emit_run_join out rs r :
  out = join (lit ",") (map show_run rs) -> (rs = [] \/ out <> []) ->
  emit_run out r.1 r.2 = join (lit ",") (map show_run (rs ++ [r])).
Proof.
  intros Ho Hne. rewrite map_app. destruct rs as [|r0 rs]; [by rewrite Ho|].
  rewrite join_app by done. rewrite <- Ho. unfold emit_run.
  change (join (lit ",") (map show_run [r])) with (show_run r).
  destruct out; [naive_solver|done].
Qed.

Lemma show_run_nonempty r : 0 <= r.1 -> show_run r <> [].
Proof.
  intros Hr. destruct (to_decimal_spec r.1 Hr) as (_ & _ & Hne). unfold show_run.
  case_goal; [done|]. by destruct (to_decimal r.1).
Qed.

Lemma join_nonempty sep p ps : p <> [] -> join sep (p :: ps) <> [].
Proof. destruct p; [done|]. by destruct ps. Qed.

Lemma emit_runs_join out rs s e rest :
  out = join (lit ",") (map show_run rs) -> Forall (fun r => 0 <= r.1) rs ->
  0 <= s -> Forall (fun u => 0 <= u) rest ->
  emit_runs out s e rest = join (lit ",") (map show_run (rs ++ runs s e rest)).
Proof.
  intros Ho Hrs Hs Hrest. revert out rs s e Ho Hrs Hs.
  induction Hrest as [|u rest Hu _ IH]; intros out rs s e Ho Hrs Hs; cbn.
  - apply (emit_run_join out rs (s, e) Ho). destruct rs as [|r rs]; [by left|right].
    inversion Hrs; subst. by apply join_nonempty, show_run_nonempty.
  - destruct (_ && _); [by apply IH|].
    rewrite (IH (emit_run out s e) (rs ++ [(s, e)])).
    + by rewrite <- app_assoc.
    + apply (emit_run_join out rs (s, e) Ho). destruct rs as [|r rs]; [by left|right].
      inversion Hrs; subst. by apply join_nonempty, show_run_nonempty.
    + apply Forall_app. auto.
    + done.
Qed.

Lemma parse_number_decimal n : 0 <= n -> parse_number (to_decimal n) = Some n.
Proof.
  intros Hn. destruct (to_decimal_spec n Hn) as (Hv & Hd & Hne). unfold parse_number.
  rewrite bool_decide_eq_false_2 by done. rewrite Hv.
  assert (Hf : forallb is_ascii_digit (to_decimal n) = true).
  { apply List.forallb_forall. intros c Hc%list_elem_of_In. rewrite Forall_forall in Hd. auto. }
  by rewrite Hf.
Qed.

Lemma parse_show_run r : 0 <= r.1 -> 0 <= r.2 -> parse_range (show_run r) = Some r.
Proof.
  intros H1 H2. unfold parse_range, show_run. destruct r as [a b]. cbn in *.
  destruct (a =? b) eqn:E; zify_bool.
  - subst. rewrite (proj2 (split_once_None 58 (to_decimal b))) by (by apply digits_no_char).
    by rewrite parse_number_decimal.
  - rewrite (proj2 (split_once_Some 58 _ (to_decimal a) (to_decimal b))).
    + by rewrite !parse_number_decimal.
    + split; [done|]. by apply digits_no_char.
Qed.

Lemma show_run_no_comma r : 0 <= r.1 -> 0 <= r.2 -> ~ 44 ∈ show_run r.
Proof.
  intros H1 H2. pose proof (digits_no_char r.1 44 H1 eq_refl).
  pose proof (digits_no_char r.2 44 H2 eq_refl). unfold show_run.
  case_goal; [done|]. rewrite !elem_of_app. change (lit ":") with [58]. set_solver.
Qed.

Lemma parse_uid_set_join rs :
  rs <> [] -> Forall (fun r => 0 <= r.1 /\ 0 <= r.2) rs ->
  parse_uid_set (join (lit ",") (map show_run rs)) = Some rs.
Proof.
  intros Hne Hrs. unfold parse_uid_set. change (lit ",") with [44]. rewrite split_join.
  - clear Hne. induction Hrs as [|r rs [? ?] _ IH]; [done|]. cbn.
    rewrite parse_show_run by done. cbn. by rewrite IH.
  - by destruct rs.
  - rewrite Forall_map. eapply Forall_impl; [exact Hrs|]. cbn. intros r [? ?].
    by apply show_run_no_comma.
Qed.

(** ** The runs of a strictly increasing list *)

Lemma dedup_elem l u : u ∈ dedup l <-> u ∈ l.
Proof.
  induction l as [|x [|y l] IH]; [done..|]. cbn [dedup] in *.
  destruct (x =? y) eqn:E; zify_bool; [subst|]; rewrite ?elem_of_cons, IH, ?elem_of_cons;
    naive_solver.
Qed.

Lemma dedup_head x l : exists l', dedup (x :: l) = x :: l'.
Proof.
  revert x. induction l as [|y l IH]; intros x; [by eexists|]. cbn [dedup].
  destruct (x =? y) eqn:E; zify_bool; [|by eexists]. subst. apply IH.
Qed.

Lemma dedup_cons x y l :
  dedup (x :: y :: l) = if x =? y then dedup (y :: l) else x :: dedup (y :: l).
Proof. done. Qed.

Lemma dedup_sorted l : StronglySorted Z.le l -> StronglySorted Z.lt (dedup l).
Proof.
  induction l as [|x l IH]; intros Hs; [constructor|].
  apply StronglySorted_inv in Hs as [Hs Hx]. specialize (IH Hs).
  destruct l as [|y l]; [repeat constructor|]. rewrite dedup_cons.
  destruct (x =? y) eqn:E; zify_bool; [done|]. constructor; [exact IH|].
  apply Forall_forall. intros u Hu. rewrite dedup_elem in Hu.
  assert (Hxy : x <= y) by (inversion Hx; subst; done).
  apply StronglySorted_inv in Hs as [_ Hy].
  apply elem_of_cons in Hu as [->|Hu]; [lia|]. rewrite Forall_forall in Hy.
  specialize (Hy u Hu). lia.
Qed.

(** Ranges in order, none empty, none touching the next. *)
Fixpoint separated (rs : list (Z * Z)) : Prop :=
  match rs with
  | [] => True
  | r :: rs' => r.1 <= r.2 /\ match rs' with [] => True | r' :: _ => r.2 + 1 < r'.1 end
                /\ separated rs'
  end.

Lemma runs_head s e rest : exists e' rs, runs s e rest = (s, e') :: rs.
Proof.
  revert s e. induction rest as [|u rest IH]; intros s e; cbn; [by eauto|].
  case_goal; eauto.
Qed.

Lemma runs_spec s e rest :
  s <= e -> StronglySorted Z.lt (e :: rest) -> Forall (fun u => u <= u32_max) rest ->
  separated (runs s e rest) /\
  forall u, named (runs s e rest) u <-> s <= u <= e \/ u ∈ rest.
Proof.
  intros Hse Hs Hmax. revert s e Hse Hs. unfold named.
  induction Hmax as [|v rest Hv _ IH]; intros s e Hse Hs; cbn [runs].
  { split; [cbn; auto|]. intros u. setoid_rewrite list_elem_of_singleton.
    rewrite elem_of_nil. split; [intros (r & -> & ?); auto|]. intros [?|[]]. by exists (s, e). }
  apply StronglySorted_inv in Hs as [Hs He]. apply Forall_cons in He as [Hev He].
  destruct (_ && _) eqn:E.
  - zify_bool. destruct (IH s v) as [Hsep Hn]; [lia|done|]. split; [done|].
    intros u. rewrite Hn, elem_of_cons. split; [|naive_solver lia].
    intros [?|?]; [|auto]. destruct (decide (u = v)); [auto|]. left. lia.
  - assert (Hgap : e + 1 <> v).
    { intros <-. apply andb_false_iff in E. rewrite Z.ltb_ge, Z.eqb_neq in E. lia. }
    destruct (IH v v) as [Hsep Hn]; [lia|done|].
    destruct (runs_head v v rest) as (e' & rs & Hr). rewrite Hr in *. split.
    + cbn in *. split; [done|]. split; [lia|done].
    + intros u. setoid_rewrite elem_of_cons. split.
      * intros (r & [->|Hin] & Hu); [by left|right].
        assert (Hnu : v <= u <= v \/ u ∈ rest) by (apply Hn; eauto).
        destruct Hnu; [left; lia|by right].
      * intros [Hu|Hu]; [by exists (s, e); auto|].
        assert (Hnu : v <= u <= v \/ u ∈ rest) by (destruct Hu; [left; lia|by right]).
        apply Hn in Hnu as (r & Hin & ?). eauto.
Qed.

Lemma separated_le rs : separated rs -> Forall (fun r => r.1 <= r.2) rs.
Proof. induction rs as [|r rs IH]; [constructor|]. intros (? & _ & ?). auto. Qed.

(** The compressed sequence set means exactly the requested UIDs.  For a
    non-empty list of [u32] UIDs in any order, with any duplicates, the text
    reads back under the RFC 3501 grammar as ranges that name every requested
    UID and no other, in increasing order and with no two adjacent, so no
    shorter set of ranges says the same. *)
Theorem compress_uid_set_exact uids :
  uids <> [] -> Forall (fun u => 1 <= u <= u32_max) uids ->
  exists rs, parse_uid_set (compress_uid_set uids) = Some rs /\ separated rs /\
    forall u, named rs u <-> u ∈ uids.
Proof.
  intros Hne Hu. unfold compress_uid_set.
  pose proof (StronglySorted_merge_sort Z.le uids) as Hs.
  apply dedup_sorted in Hs.
  assert (Hin : forall u, u ∈ dedup (merge_sort Z.le uids) <-> u ∈ uids)
    by (intros u; by rewrite dedup_elem, merge_sort_Permutation).
  destruct (dedup _) as [|v rest].
  { destruct uids as [|u uids]; [done|]. exfalso. eapply elem_of_nil, (Hin u). by left. }
  assert (Hb : Forall (fun u => 1 <= u <= u32_max) (v :: rest)).
  { rewrite Forall_forall in *. intros u Hv. by apply Hu, Hin. }
  apply Forall_cons in Hb as [Hv Hb].
  destruct (runs_spec v v rest) as [Hsep Hn];
    [lia|done|eapply Forall_impl; [exact Hb|]; cbn; lia|].
  exists (runs v v rest). split; [|split; [done|]].
  - rewrite (emit_runs_join [] [] v v rest);
      [|done|constructor|lia|eapply Forall_impl; [exact Hb|]; cbn; lia].
    apply parse_uid_set_join.
    + by destruct (runs_head v v rest) as (? & ? & ->).
    + apply separated_le in Hsep. rewrite Forall_forall in Hsep |- *. intros r Hr.
      assert (Hr1 : r.1 ∈ v :: rest).
      { apply elem_of_cons. destruct (proj1 (Hn r.1)); [exists r; auto with lia|left; lia|by right]. }
      rewrite Hin in Hr1. rewrite Forall_forall in Hu. apply Hu in Hr1. specialize (Hsep r Hr). lia.
  - intros u. rewrite Hn, <- Hin, elem_of_cons. naive_solver lia.
Qed.

Lemma compress_uid_set_exact_witness :
  exists rs, parse_uid_set (compress_uid_set [9; 2; 3; 1; 3; 5; 8; 7]) = Some rs /\ separated rs /\
    forall u, named rs u <-> u ∈ [9; 2; 3; 1; 3; 5; 8; 7].
Proof.
  apply (compress_uid_set_exact [9; 2; 3; 1; 3; 5; 8; 7]); [discriminate|].
  repeat (apply List.Forall_cons; [split; apply Z.leb_le; reflexivity|]). constructor.
Defined.

Example compress_example : compress_uid_set [1; 2; 3; 5; 7; 8; 9] = lit "1:3,5,7:9".
Proof. reflexivity. Qed.
