(* ===== verification/Fetch.v ===== *)
(** * Fetching messages (crates/rimap-imap/src/ops/fetch.rs and the part
    walker of crates/rimap-server/src/tools/retrieval/part_walker.rs)

    The server is what the session answers: the UIDVALIDITY of the read-only
    SELECT and, for a command's text, the stream of its FETCH responses.
    [tracing] lines are left out. *)

From Stdlib Require Import ZArith Lia.
From stdpp Require Import base option list strings sets.
From S2P Require Import Prelude RustStr Tools Errors ImapErrors UidSet.
Local Open Scope Z_scope.

(* [crates/rimap-imap/src/types.rs:172-187] Flag *)
Inductive Flag := Seen | Answered | Flagged | Deleted | Draft | Recent | Keyword (k : rstr).
#[export] Instance flag_eq_dec : EqDecision Flag.
Proof. solve_decision. Defined.

(* [crates/rimap-imap/src/types.rs:303-336] BodyStructure *)
Inductive BodyStructure :=
  | Single (mime_type mime_subtype : rstr) (params disposition_params : list (rstr * rstr))
      (encoding : rstr) (size : Z)
  | Multipart (subtype : rstr) (parts : list BodyStructure)
  | Message (mime_subtype : rstr) (body : BodyStructure).

(** The parser's structure, as far as the conversion reads it: the [Basic]
    and [Text] variants are treated alike. *)
Inductive ContentEncoding :=
  SevenBit | EightBit | Binary | Base64 | QuotedPrintable | OtherEncoding (s : rstr).
Inductive ProtoBody :=
  | PSingle (ty subtype : rstr) (params disposition : option (list (rstr * rstr)))
      (transfer : ContentEncoding) (octets : Z)
  | PMultipart (subtype : rstr) (bodies : list ProtoBody)
  | PMessage (subtype : rstr) (body : ProtoBody).

(* [crates/rimap-imap/src/ops/fetch.rs:10-18] MAX_BODYSTRUCTURE_DEPTH, MAX_MULTIPART_PARTS *)
Definition MAX_BODYSTRUCTURE_DEPTH : Z := 64.
Definition MAX_MULTIPART_PARTS : nat := 1024.

(* [crates/rimap-imap/src/ops/fetch.rs:395-406] convert_bs_inner *)
Definition truncated_leaf : BodyStructure :=
  Single (lit "application") (lit "octet-stream") [] [] (lit "7bit") 0.

(* [crates/rimap-imap/src/ops/fetch.rs:449-458] convert_bs_inner *)
Definition encoding_name (e : ContentEncoding) : rstr :=
  match e with
  | SevenBit => lit "7bit" | EightBit => lit "8bit" | Binary => lit "binary"
  | Base64 => lit "base64" | QuotedPrintable => lit "quoted-printable"
  | OtherEncoding s => s
  end.

(* [crates/rimap-imap/src/ops/fetch.rs:389-483] convert_bs_inner *)
Fixpoint convert_bs_inner (bs : ProtoBody) (depth : Z) : BodyStructure :=
  if MAX_BODYSTRUCTURE_DEPTH <=? depth then truncated_leaf
  else match bs with
  | PMultipart subtype bodies =>
      Multipart subtype
        ((fix take_map (n : nat) (l : list ProtoBody) : list BodyStructure :=
            match n, l with
            | S n', b :: l' => convert_bs_inner b (depth + 1) :: take_map n' l'
            | _, _ => []
            end) MAX_MULTIPART_PARTS bodies)
  | PSingle ty subtype params disposition transfer octets =>
      Single ty subtype (default [] params) (default [] disposition) (encoding_name transfer) octets
  | PMessage subtype body => Message subtype (convert_bs_inner body (depth + 1))
  end.

(* [crates/rimap-imap/src/ops/fetch.rs:375-379] convert_bodystructure *)
Definition convert_bodystructure (bs : option ProtoBody) : option BodyStructure :=
  option_map (fun b => convert_bs_inner b 0) bs.

(** ** The UIDVALIDITY guards *)

(* [crates/rimap-imap/src/ops/fetch.rs:79-104] check_uidvalidity *)
Definition check_uidvalidity (folder : rstr) (expected observed : option Z)
    : result ImapError unit :=
  match expected with
  | None => Ok tt
  | Some expected =>
      match observed with
      | Some actual =>
          if negb (actual =? expected) then Err (IUidValidityChanged folder expected actual)
          else Ok tt
      | None => Ok tt
      end
  end.

(* [crates/rimap-imap/src/ops/fetch.rs:108-127] require_uidvalidity *)
Definition require_uidvalidity (folder : rstr) (expected observed : option Z)
    : result ImapError unit :=
  match expected with
  | None => Ok tt
  | Some expected =>
      match observed with
      | Some actual =>
          if actual =? expected then Ok tt else Err (IUidValidityChanged folder expected actual)
      | None => Err (IUidValidityUnavailable folder)
      end
  end.

(** ** Commands *)

(* [crates/rimap-imap/src/types.rs:458-469] FetchSpec *)
Record FetchSpec := mkSpec {
  want_envelope : bool; want_bodystructure : bool; want_uid : bool;
  want_flags : bool; want_size : bool }.

(** An envelope as the protocol library gives it. *)
Record ProtoAddress := mkProtoAddress {
  pa_name : option (list Z); pa_adl : option (list Z); pa_mailbox : option (list Z); pa_host : option (list Z) }.
Record ProtoEnvelope := mkProtoEnvelope {
  pe_date : option (list Z); pe_subject : option (list Z);
  pe_from : option (list ProtoAddress); pe_sender : option (list ProtoAddress); pe_reply_to : option (list ProtoAddress);
  pe_to : option (list ProtoAddress); pe_cc : option (list ProtoAddress); pe_bcc : option (list ProtoAddress);
  pe_in_reply_to : option (list Z); pe_message_id : option (list Z) }.

(* [crates/rimap-imap/src/types.rs:270-286] Address *)
Record Address := mkAddress {
  a_name : option (list Z); a_adl : option (list Z); a_mailbox : option (list Z); a_host : option (list Z) }.
(* [crates/rimap-imap/src/types.rs:223-253] Envelope *)
Record Envelope := mkEnvelope {
  e_date : option (list Z); e_subject_raw : option (list Z);
  e_from : list Address; e_sender : list Address; e_reply_to : list Address;
  e_to : list Address; e_cc : list Address; e_bcc : list Address;
  e_in_reply_to : option (list Z); e_message_id : option (list Z) }.

(* [crates/rimap-imap/src/ops/fetch.rs:360-371] convert_addresses *)
Definition convert_addresses (addrs : option (list ProtoAddress)) : list Address :=
  map (fun a => mkAddress (pa_name a) (pa_adl a) (pa_mailbox a) (pa_host a)) (default [] addrs).

(* [crates/rimap-imap/src/ops/fetch.rs:344-358] convert_envelope *)
Definition convert_envelope (env : option ProtoEnvelope) : option Envelope :=
  env ← env;
  Some (mkEnvelope (pe_date env) (pe_subject env)
    (convert_addresses (pe_from env)) (convert_addresses (pe_sender env)) (convert_addresses (pe_reply_to env))
    (convert_addresses (pe_to env)) (convert_addresses (pe_cc env)) (convert_addresses (pe_bcc env))
    (pe_in_reply_to env) (pe_message_id env)).

(** A flag as the protocol library gives it. *)
Inductive ProtoFlag := PSeen | PAnswered | PFlagged | PDeleted | PDraft | PRecent | PMayCreate | PCustom (s : rstr).

(* [crates/rimap-imap/src/ops/fetch.rs:486-499] convert_flag *)
Definition convert_flag (f : ProtoFlag) : Flag :=
  match f with
  | PSeen => Seen | PAnswered => Answered | PFlagged => Flagged | PDeleted => Deleted | PDraft => Draft | PRecent => Recent
  | PMayCreate => Keyword [92; 42]
  | PCustom s => Keyword s
  end.

(** One parsed FETCH response. *)
Record fetch_item := mkItem {
  item_uid : option Z;
  item_envelope : option ProtoEnvelope;
  item_bodystructure : option ProtoBody;
  item_flags : list ProtoFlag;
  item_size : option Z;
  item_body : option (list Z) }.

(** The server, for one folder: its answer to EXAMINE (the UIDVALIDITY), and
    to [UID FETCH set items]. *)
Record server := mkServer {
  examine : rstr -> result ImapError (option Z);
  uid_fetch : rstr -> rstr -> result ImapError (list (result ImapError fetch_item)) }.

(* [crates/rimap-imap/src/types.rs:474-486] FetchedMessage *)
Record FetchedMessage := mkFetched {
  f_uid : Z;
  f_envelope : option Envelope;
  f_bodystructure : option BodyStructure;
  f_flags : option (list Flag);
  f_size : option Z }.

(* [crates/rimap-imap/src/ops/fetch.rs:326-341] build_fetch_items *)
Definition build_fetch_items (spec : FetchSpec) : rstr :=
  lit "(" ++ join (lit " ")
    ([lit "UID"]
     ++ (if want_envelope spec then [lit "ENVELOPE"] else [])
     ++ (if want_bodystructure spec then [lit "BODYSTRUCTURE"] else [])
     ++ (if want_flags spec then [lit "FLAGS"] else [])
     ++ (if want_size spec then [lit "RFC822.SIZE"] else [])) ++ lit ")".

Section fetch.
Implicit Types (srv : server).

(** A response without a usable UID is skipped. *)
(* [crates/rimap-imap/src/ops/fetch.rs:172-205] fetch *)
Definition fetched_of_item (spec : FetchSpec) (m : fetch_item) : option FetchedMessage :=
  uid ← item_uid m;
  if uid =? 0 then None
  else Some (mkFetched uid
    (if want_envelope spec then convert_envelope (item_envelope m) else None)
    (if want_bodystructure spec then convert_bodystructure (item_bodystructure m) else None)
    (if want_flags spec then Some (map convert_flag (item_flags m)) else None)
    (if want_size spec then item_size m else None)).

(* [crates/rimap-imap/src/ops/fetch.rs:168-206] fetch *)
Fixpoint collect (spec : FetchSpec) (stream : list (result ImapError fetch_item))
    : result ImapError (list FetchedMessage) :=
  match stream with
  | [] => Ok []
  | Err e :: _ => Err e
  | Ok m :: stream' =>
      rest ← collect spec stream';
      Ok (match fetched_of_item spec m with Some f => f :: rest | None => rest end)
  end.

(* [crates/rimap-imap/src/ops/fetch.rs:129-216] fetch *)
Definition fetch srv (folder : rstr) (uids : list Z) (spec : FetchSpec)
    (expected_uidvalidity : option Z)
    : result ImapError (list FetchedMessage * option Z) :=
  uid_validity ← examine srv folder;
  _ ← check_uidvalidity folder expected_uidvalidity uid_validity;
  match uids with
  | [] => Ok ([], uid_validity)
  | _ =>
      stream ← uid_fetch srv (compress_uid_set uids) (build_fetch_items spec);
      out ← collect spec stream;
      Ok (out, uid_validity)
  end.

(* [crates/rimap-imap/src/ops/fetch.rs:277-285] project_size *)
Definition project_size (total chunk limit : Z) : result ImapError Z :=
  let projected := u64_saturating_add total (Z.min u64_max chunk) in
  if limit <? projected then Err (ISizeLimit limit) else Ok projected.

(* [crates/rimap-imap/src/ops/fetch.rs:250-262] fetch_body *)
Fixpoint accumulate (limit total : Z) (acc : list Z) (found : bool)
    (stream : list (result ImapError fetch_item)) : result ImapError (list Z * bool) :=
  match stream with
  | [] => Ok (acc, found)
  | Err e :: _ => Err e
  | Ok m :: stream' =>
      match item_body m with
      | Some body =>
          new_total ← project_size total (Z.of_nat (length body)) limit;
          accumulate limit new_total (acc ++ body) true stream'
      | None => accumulate limit total acc found stream'
      end
  end.

(* [crates/rimap-imap/src/ops/fetch.rs:236-271] fetch_body *)
Definition fetch_body srv (folder : rstr) (uid limit : Z) (expected_uidvalidity : option Z)
    : result ImapError (list Z) :=
  uid_validity ← examine srv folder;
  _ ← require_uidvalidity folder expected_uidvalidity uid_validity;
  stream ← uid_fetch srv (to_decimal uid) (lit "BODY.PEEK[]");
  '(acc, found) ← accumulate limit 0 [] false stream;
  if negb found then Err (IProtocol (lit "FETCH BODY[] returned no body")) else Ok acc.

(* [crates/rimap-imap/src/ops/fetch.rs:291-298] preflight_size_check *)
Definition preflight_size_check (server_size : option Z) (limit : Z) : result ImapError unit :=
  match server_size with
  | Some size => if limit <? size then Err (ISizeLimit limit) else Ok tt
  | None => Ok tt
  end.

(* [crates/rimap-imap/src/ops/fetch.rs:316-323] preflight_fetch_size *)
Fixpoint last_size (uid : Z) (size : option Z) (stream : list (result ImapError fetch_item))
    : result ImapError (option Z) :=
  match stream with
  | [] => Ok size
  | Err e :: _ => Err e
  | Ok m :: stream' =>
      last_size uid (if bool_decide (item_uid m = Some uid) then item_size m else size) stream'
  end.

(* [crates/rimap-imap/src/ops/fetch.rs:302-324] preflight_fetch_size *)
Definition preflight_fetch_size srv (folder : rstr) (uid : Z) (expected_uidvalidity : option Z)
    : result ImapError (option Z) :=
  uid_validity ← examine srv folder;
  _ ← require_uidvalidity folder expected_uidvalidity uid_validity;
  stream ← uid_fetch srv (to_decimal uid) (lit "RFC822.SIZE");
  last_size uid None stream.

(** The body run by [Connection::fetch_body_with_limit]; the two SELECTs may
    see different servers states. *)
(* [crates/rimap-imap/src/connection/dispatch.rs:399-427] Connection::fetch_body_with_limit *)
Definition fetch_body_with_limit (srv1 srv2 : server) (folder : rstr) (uid : Z)
    (expected_uidvalidity : option Z) (limit : Z) : result ImapError (list Z) :=
  server_size ← preflight_fetch_size srv1 folder uid expected_uidvalidity;
  _ ← preflight_size_check server_size limit;
  fetch_body srv2 folder uid limit expected_uidvalidity.
End fetch.

(** ** The part walker *)

(* [crates/rimap-server/src/tools/retrieval/part_walker.rs:12-14] MAX_PART_DEPTH *)
Definition MAX_PART_DEPTH : Z := 64.

(* [crates/rimap-server/src/tools/retrieval/part_walker.rs:53-59] leaf_part_id *)
Definition leaf_part_id (prefix : rstr) : rstr :=
  match prefix with [] => lit "1" | _ => prefix end.

(* [crates/rimap-server/src/tools/retrieval/part_walker.rs:64-70] child_part_id *)
Definition child_part_id (prefix : rstr) (index : Z) : rstr :=
  match prefix with [] => to_decimal index | _ => prefix ++ lit "." ++ to_decimal index end.

(** The visits, in order: the part identifier and the node. *)
(* [crates/rimap-server/src/tools/retrieval/part_walker.rs:25-49] walk_inner *)
Fixpoint walk_inner (bs : BodyStructure) (prefix : rstr) (depth : Z)
    : list (rstr * BodyStructure) :=
  if MAX_PART_DEPTH <? depth then []
  else match bs with
  | Single _ _ _ _ _ _ => [(leaf_part_id prefix, bs)]
  | Multipart _ parts =>
      (fix children (i : Z) (l : list BodyStructure) : list (rstr * BodyStructure) :=
         match l with
         | [] => []
         | child :: l' =>
             walk_inner child (child_part_id prefix (i + 1)) (depth + 1) ++ children (i + 1) l'
         end) 0 parts
  | Message _ body =>
      (leaf_part_id prefix, bs) :: walk_inner body (leaf_part_id prefix) (depth + 1)
  end.

(* [crates/rimap-server/src/tools/retrieval/part_walker.rs:18-23] walk_body_structure *)
Definition walk_body_structure (bs : BodyStructure) : list (rstr * BodyStructure) :=
  walk_inner bs [] 0.

(** ** Guards *)

Lemma require_uidvalidity_ok folder v o :
  require_uidvalidity folder (Some v) o = Ok tt <-> o = Some v.
Proof.
  cbn. destruct o as [a|]; [|done]. destruct (a =? v) eqn:E; zify_bool; [|naive_solver].
  split; naive_solver.
Qed.

Section fetch_facts.
Implicit Types (srv : server).

Definition bodies_of (stream : list (result ImapError fetch_item)) : list Z :=
  concat (map (fun r => match r with Ok m => default [] (item_body m) | Err _ => [] end) stream).

Lemma accumulate_ok limit stream acc found bytes found' :
  limit < u64_max -> 0 <= Z.of_nat (length acc) <= limit ->
  accumulate limit (Z.of_nat (length acc)) acc found stream = Ok (bytes, found') ->
  Z.of_nat (length bytes) <= limit /\ bytes = acc ++ bodies_of stream.
Proof.
  intros Hl. revert acc found. induction stream as [|[m|e] stream IH]; intros acc found Hacc; cbn.
  - intros. simplify_eq. unfold bodies_of. cbn. rewrite app_nil_r. split; [lia|done].
  - unfold bodies_of. cbn. destruct (item_body m) as [body|] eqn:Eb; cbn [default].
    + unfold project_size, u64_saturating_add.
      destruct (limit <? _) eqn:El; cbn [mbind result_bind]; [done|]. zify_bool.
      assert (Hsum : Z.min u64_max (Z.of_nat (length acc) + Z.min u64_max (Z.of_nat (length body)))
        = Z.of_nat (length (acc ++ body))) by (rewrite length_app; lia).
      rewrite Hsum in *. intros (? & ->)%IH; [|lia]. split; [done|]. unfold bodies_of.
      by rewrite <- app_assoc.
    + intros Hr. by apply IH in Hr.
  - done.
Qed.

Lemma fetch_body_ok srv1 srv2 folder uid expected limit bytes : 0 <= limit < u64_max ->
  fetch_body_with_limit srv1 srv2 folder uid expected limit = Ok bytes ->
  (forall v, expected = Some v -> examine srv1 folder = Ok (Some v) /\ examine srv2 folder = Ok (Some v)) /\
  Z.of_nat (length bytes) <= limit /\
  exists stream, uid_fetch srv2 (to_decimal uid) (lit "BODY.PEEK[]") = Ok stream /\ bytes = bodies_of stream.
Proof.
  intros Hl. unfold fetch_body_with_limit, preflight_fetch_size, fetch_body.
  destruct (examine srv1 folder) as [o1|]; cbn; [|done].
  destruct (require_uidvalidity folder expected o1) as [[]|] eqn:E1; cbn; [|done].
  destruct (uid_fetch srv1 _ _); cbn; [|done]. destruct (last_size _ _ _) as [sz|]; cbn; [|done].
  destruct (preflight_size_check sz limit); cbn; [|done].
  destruct (examine srv2 folder) as [o2|]; cbn; [|done].
  destruct (require_uidvalidity folder expected o2) as [[]|] eqn:E2; cbn; [|done].
  destruct (uid_fetch srv2 _ _) as [stream|] eqn:Es; cbn; [|done].
  destruct (accumulate limit 0 [] false stream) as [[acc found]|] eqn:Ea; cbn; [|done].
  destruct found; cbn; [|done]. intros. simplify_eq.
  apply (accumulate_ok limit stream []) in Ea as [? ->]; [|lia|cbn; lia].
  split; [|eauto]. intros v ->. apply require_uidvalidity_ok in E1 as ->, E2 as ->. done.
Qed.

(** A guarded body fetch is fail-closed and bounded.  Bytes come back
    only if both read-only SELECTs, of the size preflight and of the fetch,
    reported exactly the expected UIDVALIDITY; they are the concatenated body
    sections of the responses and never exceed the limit; and when the server
    reports a larger size the result is the size error whatever it would have
    answered to the body fetch. *)
Theorem guarded_fetch_body srv1 srv2 folder uid expected limit :
  0 <= limit < u64_max ->
  (forall bytes, fetch_body_with_limit srv1 srv2 folder uid expected limit = Ok bytes ->
     (forall v, expected = Some v ->
        examine srv1 folder = Ok (Some v) /\ examine srv2 folder = Ok (Some v)) /\
     Z.of_nat (length bytes) <= limit /\
     exists stream, uid_fetch srv2 (to_decimal uid) (lit "BODY.PEEK[]") = Ok stream /\
       bytes = bodies_of stream) /\
  (forall size, preflight_fetch_size srv1 folder uid expected = Ok (Some size) -> limit < size ->
     fetch_body_with_limit srv1 srv2 folder uid expected limit = Err (ISizeLimit limit)).
Proof.
  intros Hl. split.
  - intros bytes Hb. by apply fetch_body_ok in Hb.
  - intros size Hp Hs. unfold fetch_body_with_limit. rewrite Hp. cbn.
    apply Z.ltb_lt in Hs. by rewrite Hs.
Qed.
End fetch_facts.

(** A server with one message: UID 7, UIDVALIDITY 3, three bytes. *)
Definition sample_server : server := mkServer
  (fun _ => Ok (Some 3))
  (fun _ _ => Ok [Ok (mkItem (Some 7) None None [] (Some 3) (Some [104; 105; 33]))]).

Lemma guarded_fetch_body_witness :
  Z.of_nat (length [104; 105; 33]) <= 1000 /\
  fetch_body_with_limit sample_server sample_server (lit "INBOX") 7 (Some 3) 2 =
    Err (ISizeLimit 2).
Proof.
  split.
  - refine (proj1 (proj2 (proj1 (guarded_fetch_body sample_server sample_server (lit "INBOX") 7
      (Some 3) 1000 _) [104; 105; 33] _))); [split; [discriminate|reflexivity]|reflexivity].
  - refine (proj2 (guarded_fetch_body sample_server sample_server (lit "INBOX") 7
      (Some 3) 2 _) 3 _ _); [split; [discriminate|reflexivity]|reflexivity|reflexivity].
Defined.

(** ** Structures *)

Section proto_ind.
Context (P : ProtoBody -> Prop).
Hypothesis Hsingle : forall t s p d e o, P (PSingle t s p d e o).
Hypothesis Hmulti : forall s bs, Forall P bs -> P (PMultipart s bs).
Hypothesis Hmsg : forall s b, P b -> P (PMessage s b).

Fixpoint proto_ind' (b : ProtoBody) : P b :=
  match b with
  | PSingle t s p d e o => Hsingle t s p d e o
  | PMultipart s bs =>
      Hmulti s bs ((fix all (l : list ProtoBody) : Forall P l :=
        match l with [] => List.Forall_nil P | x :: l' => List.Forall_cons P x l' (proto_ind' x) (all l') end) bs)
  | PMessage s b' => Hmsg s b' (proto_ind' b')
  end.
End proto_ind.

Section body_ind.
Context (P : BodyStructure -> Prop).
Hypothesis Hsingle : forall t s p d e o, P (Single t s p d e o).
Hypothesis Hmulti : forall s bs, Forall P bs -> P (Multipart s bs).
Hypothesis Hmsg : forall s b, P b -> P (Message s b).

Fixpoint body_ind' (b : BodyStructure) : P b :=
  match b with
  | Single t s p d e o => Hsingle t s p d e o
  | Multipart s bs =>
      Hmulti s bs ((fix all (l : list BodyStructure) : Forall P l :=
        match l with [] => List.Forall_nil P | x :: l' => List.Forall_cons P x l' (body_ind' x) (all l') end) bs)
  | Message s b' => Hmsg s b' (body_ind' b')
  end.
End body_ind.

(** Levels below the root, and the largest number of children of a node. *)
Fixpoint height (b : BodyStructure) : Z :=
  match b with
  | Single _ _ _ _ _ _ => 0
  | Multipart _ parts => 1 + foldr (fun p h => Z.max (height p) h) 0 parts
  | Message _ body => 1 + height body
  end.
Fixpoint breadth (b : BodyStructure) : Z :=
  match b with
  | Single _ _ _ _ _ _ => 0
  | Multipart _ parts =>
      Z.max (Z.of_nat (length parts)) (foldr (fun p h => Z.max (breadth p) h) 0 parts)
  | Message _ body => breadth body
  end.

(** The structure without caps. *)
Fixpoint image (b : ProtoBody) : BodyStructure :=
  match b with
  | PSingle ty subtype params disposition transfer octets =>
      Single ty subtype (default [] params) (default [] disposition) (encoding_name transfer) octets
  | PMultipart subtype bodies => Multipart subtype (map image bodies)
  | PMessage subtype body => Message subtype (image body)
  end.

Lemma convert_multipart s bs d :
  d < 64 ->
  convert_bs_inner (PMultipart s bs) d =
    Multipart s (map (fun b => convert_bs_inner b (d + 1)) (take MAX_MULTIPART_PARTS bs)).
Proof.
  intros Hd. cbn -[MAX_MULTIPART_PARTS]. unfold MAX_BODYSTRUCTURE_DEPTH.
  destruct (64 <=? d) eqn:E; zify_bool; [lia|]. f_equal.
  generalize MAX_MULTIPART_PARTS as n. clear.
  induction bs as [|b bs IH]; intros [|n]; cbn; try done. f_equal. by apply IH.
Qed.

Lemma convert_truncated b d : 64 <= d -> convert_bs_inner b d = truncated_leaf.
Proof.
  intros Hd. assert (E : (MAX_BODYSTRUCTURE_DEPTH <=? d) = true) by (by apply Z.leb_le).
  destruct b; cbn; by rewrite E.
Qed.

Lemma convert_message s b d :
  d < 64 -> convert_bs_inner (PMessage s b) d = Message s (convert_bs_inner b (d + 1)).
Proof.
  intros Hd. cbn. unfold MAX_BODYSTRUCTURE_DEPTH. destruct (64 <=? d) eqn:E; zify_bool; [lia|done].
Qed.

Lemma foldr_max_le (f : BodyStructure -> Z) l m :
  0 <= m -> foldr (fun p h => Z.max (f p) h) 0 l <= m <-> Forall (fun p => f p <= m) l.
Proof.
  intros Hm. induction l as [|p l IH]; cbn; [split; [constructor|lia]|].
  rewrite Forall_cons, <- IH. lia.
Qed.

Lemma foldr_max_nonneg (f : BodyStructure -> Z) l : 0 <= foldr (fun p h => Z.max (f p) h) 0 l.
Proof. induction l; cbn; lia. Qed.

Lemma convert_bounded b d :
  0 <= d -> height (convert_bs_inner b d) <= Z.max 0 (64 - d) /\
            breadth (convert_bs_inner b d) <= 1024.
Proof.
  revert d. induction b as [t s p di e o|s bs IH|s b IH] using proto_ind'; intros d Hd;
    destruct (decide (64 <= d)); try (rewrite convert_truncated by done; cbn; lia).
  - cbn. case_goal; cbn; lia.
  - rewrite convert_multipart by lia. cbn -[MAX_MULTIPART_PARTS].
    assert (Hall : Forall (fun b => height b <= 64 - (d + 1) /\ breadth b <= 1024)
      (map (fun b => convert_bs_inner b (d + 1)) (take MAX_MULTIPART_PARTS bs))).
    { rewrite Forall_map. apply Forall_take. eapply Forall_impl; [exact IH|].
      intros b Hb. cbn. destruct (Hb (d + 1)); lia. }
    rewrite Forall_and in Hall. destruct Hall as [Hh Hb].
    apply foldr_max_le in Hh; [|lia]. apply foldr_max_le in Hb; [|lia].
    rewrite length_map, length_take.
    assert (Z.of_nat (Nat.min MAX_MULTIPART_PARTS (length bs)) <= 1024)
      by (unfold MAX_MULTIPART_PARTS; lia). lia.
  - rewrite convert_message by lia. cbn. destruct (IH (d + 1)); lia.
Qed.

Lemma height_nonneg b : 0 <= height b.
Proof.
  induction b as [t s p di e o|s bs IH|s b IH] using body_ind'; cbn; [lia| |lia].
  pose proof (foldr_max_nonneg height bs). lia.
Qed.

Lemma convert_faithful b d :
  height (image b) <= 63 - d -> breadth (image b) <= 1024 -> convert_bs_inner b d = image b.
Proof.
  revert d. induction b as [t s p di e o|s bs IH|s b IH] using proto_ind'; intros d Hh Hb.
  - cbn in *. unfold MAX_BODYSTRUCTURE_DEPTH. destruct (64 <=? d) eqn:E; zify_bool; [lia|done].
  - cbn in Hh, Hb.
    pose proof (foldr_max_nonneg height (map image bs)).
    rewrite convert_multipart by lia. cbn [image]. f_equal. rewrite length_map in Hb.
    rewrite take_ge by (unfold MAX_MULTIPART_PARTS; lia).
    assert (Hhs : Forall (fun p => height p <= 63 - (d + 1)) (map image bs))
      by (apply foldr_max_le; lia).
    assert (Hbs : Forall (fun p => breadth p <= 1024) (map image bs)) by (apply foldr_max_le; lia).
    rewrite Forall_map in Hhs, Hbs. clear Hh Hb. induction IH as [|b bs Hx _ IHl]; [done|].
    inversion Hhs; inversion Hbs; subst. cbn. f_equal; auto. apply IHl; auto.
    clear; induction (map image bs); cbn; lia.
  - cbn in Hh, Hb. pose proof (height_nonneg (image b)).
    rewrite convert_message by lia. cbn [image]. f_equal. apply IH; lia.
Qed.

(** The converted BODYSTRUCTURE is bounded whatever the server sends,
    at most 64 levels and 1024 children per node, and exact when the server
    stays within the caps (fewer than 64 levels): nothing of an ordinary
    message is lost. *)
Theorem convert_bounded_and_faithful b :
  height (convert_bs_inner b 0) <= 64 /\ breadth (convert_bs_inner b 0) <= 1024 /\
  (height (image b) < 64 -> breadth (image b) <= 1024 ->
     convert_bodystructure (Some b) = Some (image b)).
Proof.
  destruct (convert_bounded b 0); [lia|]. split; [lia|]. split; [done|].
  intros Hh Hb. cbn [convert_bodystructure option_map]. by rewrite convert_faithful by lia.
Qed.

Definition sample_body : ProtoBody :=
  PMultipart (lit "mixed")
    [PSingle (lit "text") (lit "plain") None None SevenBit 5;
     PMessage (lit "rfc822") (PMultipart (lit "alternative")
       [PSingle (lit "text") (lit "html") None None Base64 9])].

Lemma convert_bounded_and_faithful_witness :
  convert_bodystructure (Some sample_body) = Some (image sample_body).
Proof.
  refine (proj2 (proj2 (convert_bounded_and_faithful sample_body)) _ _);
    [reflexivity|vm_compute; discriminate].
Defined.

(** ** Part identifiers

    A part's path is its list of child numbers, outermost first; the walker's
    identifier is the dotted form of the path. *)

Definition path_id (p : list Z) : rstr := join (lit ".") (map to_decimal p).

Lemma path_id_inj p q :
  Forall (Z.le 0) p -> Forall (Z.le 0) q -> p <> [] -> q <> [] -> path_id p = path_id q -> p = q.
Proof.
  intros Hp Hq Hpn Hqn He.
  assert (Hsplit : forall r, Forall (Z.le 0) r -> r <> [] ->
    split_on 46 (path_id r) = map to_decimal r).
  { intros r Hr Hrn. unfold path_id. change (lit ".") with [46]. apply split_join.
    - by destruct r.
    - rewrite Forall_map. eapply Forall_impl; [exact Hr|]. cbn. intros n Hn.
      by apply digits_no_char. }
  assert (Hm : map to_decimal p = map to_decimal q) by (by rewrite <- !Hsplit, He).
  clear He Hsplit Hpn Hqn. revert q Hq Hm.
  induction Hp as [|n p Hn _ IH]; intros [|m q] Hq Hm; try done.
  inversion Hq; subst. cbn in Hm. injection Hm as Hnm Hm.
  f_equal; [by apply to_decimal_inj|by apply IH].
Qed.

Definition leaf_path (p : list Z) : list Z := match p with [] => [1] | _ => p end.

Lemma path_id_nonempty p : Forall (Z.le 0) p -> p <> [] -> path_id p <> [].
Proof.
  intros Hp Hn. destruct Hp as [|n p Hn0 Hp]; [done|]. unfold path_id. cbn [map].
  apply join_nonempty. by destruct (to_decimal_spec n Hn0) as (_ & _ & ?).
Qed.

Lemma leaf_part_id_path p : Forall (Z.le 0) p -> leaf_part_id (path_id p) = path_id (leaf_path p).
Proof.
  intros Hp. destruct p as [|n p]; [done|]. cbn [leaf_path].
  pose proof (path_id_nonempty (n :: p) Hp ltac:(done)). unfold leaf_part_id.
  by destruct (path_id (n :: p)).
Qed.

Lemma child_part_id_path p i :
  Forall (Z.le 0) p -> child_part_id (path_id p) i = path_id (p ++ [i]).
Proof.
  intros Hp. destruct p as [|n p]; [done|].
  pose proof (path_id_nonempty (n :: p) Hp ltac:(done)) as Hne.
  unfold child_part_id, path_id in *. rewrite map_app, join_app by done. cbn [map] in *.
  by destruct (join _ (to_decimal n :: map to_decimal p)).
Qed.

(** The visited paths, without the depth cap. *)
Fixpoint walk_paths (bs : BodyStructure) (p : list Z) : list (list Z * BodyStructure) :=
  match bs with
  | Single _ _ _ _ _ _ => [(leaf_path p, bs)]
  | Multipart _ parts =>
      (fix children (i : Z) (l : list BodyStructure) : list (list Z * BodyStructure) :=
         match l with
         | [] => []
         | child :: l' => walk_paths child (p ++ [i + 1]) ++ children (i + 1) l'
         end) 0 parts
  | Message _ body => (leaf_path p, bs) :: walk_paths body (leaf_path p)
  end.

Definition children_paths (p : list Z) : Z -> list BodyStructure -> list (list Z * BodyStructure) :=
  fix children (i : Z) (l : list BodyStructure) : list (list Z * BodyStructure) :=
    match l with
    | [] => []
    | child :: l' => walk_paths child (p ++ [i + 1]) ++ children (i + 1) l'
    end.

Definition children_ids (prefix : rstr) (depth : Z)
    : Z -> list BodyStructure -> list (rstr * BodyStructure) :=
  fix children (i : Z) (l : list BodyStructure) : list (rstr * BodyStructure) :=
    match l with
    | [] => []
    | child :: l' =>
        walk_inner child (child_part_id prefix (i + 1)) depth ++ children (i + 1) l'
    end.

Lemma leaf_path_nonneg p : Forall (Z.le 0) p -> Forall (Z.le 0) (leaf_path p).
Proof. intros Hp. destruct p; [by repeat constructor|done]. Qed.

(** Below the cap, the walker visits the uncapped paths. *)
Lemma walk_inner_paths bs p d :
  Forall (Z.le 0) p -> d + height bs <= MAX_PART_DEPTH ->
  walk_inner bs (path_id p) d = map (fun v => (path_id v.1, v.2)) (walk_paths bs p).
Proof.
  unfold MAX_PART_DEPTH. revert p d.
  induction bs as [t s q di e o|s bs IH|s b IH] using body_ind'; intros p d Hp Hd;
    match goal with H : _ + height ?x <= _ |- _ => pose proof (height_nonneg x) end;
    cbn [walk_inner walk_paths height] in *; unfold MAX_PART_DEPTH;
    (destruct (64 <? d) eqn:E; zify_bool; [lia|]).
  - cbn [map]. by rewrite leaf_part_id_path.
  - change (children_ids (path_id p) (d + 1) 0 bs =
      map (fun v => (path_id v.1, v.2)) (children_paths p 0 bs)).
    pose proof (foldr_max_nonneg height bs).
    assert (Hhs : Forall (fun b => height b <= 63 - d) bs) by (apply foldr_max_le; lia).
    assert (Hi : 0 <= 0) by lia. revert Hi. generalize 0 at 2 3 4 as i. clear -IH Hhs Hp.
    induction IH as [|b bs Hb _ IHl]; intros i Hi; [done|]. inversion Hhs; subst.
    cbn [children_ids children_paths]. rewrite map_app, child_part_id_path by done.
    f_equal; [|apply IHl; (done || lia)]. apply Hb; [|lia].
    apply Forall_app. split; [done|]. repeat constructor. lia.
  - cbn [map fst snd]. rewrite leaf_part_id_path by done. f_equal.
    apply IH; [by apply leaf_path_nonneg|lia].
Qed.

(** The leaves and embedded messages of a structure, in order. *)
Fixpoint visible_nodes (bs : BodyStructure) : list BodyStructure :=
  match bs with
  | Single _ _ _ _ _ _ => [bs]
  | Multipart _ parts => flat_map visible_nodes parts
  | Message _ body => bs :: visible_nodes body
  end.

Lemma walk_paths_nodes bs p : map snd (walk_paths bs p) = visible_nodes bs.
Proof.
  revert p. induction bs as [t s q di e o|s bs IH|s b IH] using body_ind'; intros p;
    cbn [walk_paths visible_nodes]; [done| |cbn; by rewrite IH].
  change (map snd (children_paths p 0 bs) = flat_map visible_nodes bs).
  generalize 0 as i. induction IH as [|b bs Hb _ IHl]; intros i; [done|].
  cbn [children_paths flat_map]. by rewrite map_app, Hb, IHl.
Qed.

(** Embedded messages whose body is not a multipart give their own number to
    that body; the others number it below. *)
Fixpoint framed (bs : BodyStructure) : bool :=
  match bs with
  | Single _ _ _ _ _ _ => true
  | Multipart _ parts => forallb framed parts
  | Message _ body => match body with Multipart _ _ => framed body | _ => false end
  end.

Lemma walk_paths_below bs p v :
  p <> [] -> v ∈ walk_paths bs p -> exists q, v.1 = p ++ q.
Proof.
  revert p v. induction bs as [t s q di e o|s bs IH|s b IH] using body_ind'; intros p v Hp;
    cbn [walk_paths].
  - intros ->%list_elem_of_singleton. exists []. rewrite app_nil_r. by destruct p.
  - change (v ∈ children_paths p 0 bs -> exists q, v.1 = p ++ q). generalize 0 as i.
    induction IH as [|b bs Hb _ IHl]; intros i; cbn [children_paths]; [by intros ?%elem_of_nil|].
    intros [Hv|Hv]%elem_of_app; [|by eapply IHl].
    apply Hb in Hv as [q ->]; [|by destruct p]. exists ([i + 1] ++ q). by rewrite <- app_assoc.
  - assert (Hl : leaf_path p = p) by (by destruct p). rewrite Hl.
    intros [->|Hv]%elem_of_cons; [exists []; by rewrite app_nil_r|by apply IH].
Qed.

Lemma children_paths_below p i l v :
  v ∈ children_paths p i l -> exists j q, i < j /\ v.1 = p ++ [j] ++ q.
Proof.
  revert i. induction l as [|b l IH]; intros i; cbn [children_paths]; [by intros ?%elem_of_nil|].
  intros [Hv|Hv]%elem_of_app.
  - apply walk_paths_below in Hv as [q ->]; [|by destruct p]. exists (i + 1), q.
    rewrite <- app_assoc. split; [lia|done].
  - destruct (IH (i + 1) Hv) as (j & q & ? & ?). exists j, q. split; [lia|done].
Qed.

Lemma walk_paths_nodup bs p : framed bs = true -> NoDup (map fst (walk_paths bs p)).
Proof.
  revert p. induction bs as [t s q di e o|s bs IH|s b IH] using body_ind'; intros p Hf;
    cbn [walk_paths framed] in *.
  - apply NoDup_singleton.
  - change (NoDup (map fst (children_paths p 0 bs))). generalize 0 as i.
    induction IH as [|b bs Hb _ IHl]; intros i; [constructor|]. cbn [forallb] in Hf.
    apply andb_true_iff in Hf as [Hf1 Hf2]. cbn [children_paths]. rewrite map_app.
    apply NoDup_app. split; [by apply Hb|]. split; [|by apply IHl].
    intros x (v & -> & Hv)%list_elem_of_fmap (w & Hw & Hin)%list_elem_of_fmap.
    apply walk_paths_below in Hv as [q Hq]; [|by destruct p].
    apply children_paths_below in Hin as (j & q' & Hj & Hq').
    rewrite Hq, Hq', <- app_assoc in Hw. apply app_inv_head in Hw. cbn in Hw. simplify_eq. lia.
  - destruct b as [|s' parts|]; try done. cbn [map]. constructor; [|by apply IH].
    intros (w & Hw & Hin)%list_elem_of_fmap.
    apply (children_paths_below (leaf_path p) 0 parts) in Hin as (j & q' & _ & Hq').
    cbn in Hw. rewrite Hq' in Hw. apply (f_equal length) in Hw. rewrite length_app in Hw. cbn in Hw. lia.
Qed.

Lemma walk_paths_nonneg bs p v :
  Forall (Z.le 0) p -> v ∈ walk_paths bs p -> Forall (Z.le 0) v.1 /\ v.1 <> [].
Proof.
  revert p v. induction bs as [t s q di e o|s bs IH|s b IH] using body_ind'; intros p v Hp;
    cbn [walk_paths].
  - intros ->%list_elem_of_singleton. split; [by apply leaf_path_nonneg|by destruct p].
  - change (v ∈ children_paths p 0 bs -> Forall (Z.le 0) v.1 /\ v.1 <> []).
    assert (Hi : 0 <= 0) by lia. revert Hi. generalize 0 at 2 3 as i.
    induction IH as [|b bs Hb _ IHl]; intros i Hi; cbn [children_paths]; [by intros ?%elem_of_nil|].
    intros [Hv|Hv]%elem_of_app; [|apply (IHl (i + 1)); [lia|done]].
    apply (Hb (p ++ [i + 1])); [|done]. apply Forall_app. split; [done|]. repeat constructor. lia.
  - intros [->|Hv]%elem_of_cons; [split; [by apply leaf_path_nonneg|by destruct p]|].
    eapply IH; [|done]. by apply leaf_path_nonneg.
Qed.

Lemma path_ids_nodup (l : list (list Z * BodyStructure)) :
  Forall (fun v => Forall (Z.le 0) v.1 /\ v.1 <> []) l ->
  NoDup (map fst l) -> NoDup (map (fun v => path_id v.1) l).
Proof.
  induction 1 as [|v l [Hv Hne] Hl IH]; cbn; [done|]. intros [Hnv Hnd]%NoDup_cons.
  constructor; [|by apply IH]. intros (w & Hw & Hin)%list_elem_of_fmap. apply Hnv.
  rewrite Forall_forall in Hl. destruct (Hl w Hin) as [? ?].
  apply path_id_inj in Hw as ->; try done. by apply list_elem_of_fmap_2.
Qed.

Lemma walk_body_paths bs : height bs <= MAX_PART_DEPTH ->
  walk_body_structure bs = map (fun v => (path_id v.1, v.2)) (walk_paths bs []).
Proof. intros Hh. apply (walk_inner_paths bs [] 0); [constructor|lia]. Qed.

Lemma walk_ids_nodup bs : height bs <= MAX_PART_DEPTH -> framed bs = true -> NoDup (map fst (walk_body_structure bs)).
Proof.
  intros Hh Hf. rewrite walk_body_paths by done. rewrite map_map. cbn. apply path_ids_nodup; [|by apply walk_paths_nodup].
  apply Forall_forall. intros v Hv. by apply (walk_paths_nonneg bs []).
Qed.

(** On a converted structure the part walker's depth cap never bites: it
    visits every leaf and every embedded message once, in order; and when
    embedded messages have multipart bodies, no two visits share an
    identifier. *)
Theorem walk_complete_and_unique b :
  map snd (walk_body_structure (convert_bs_inner b 0)) = visible_nodes (convert_bs_inner b 0) /\
  (framed (convert_bs_inner b 0) = true ->
     NoDup (map fst (walk_body_structure (convert_bs_inner b 0)))).
Proof.
  destruct (convert_bounded b 0) as [Hh _]; [lia|]. set (bs := convert_bs_inner b 0) in *.
  assert (Hm : height bs <= MAX_PART_DEPTH) by (unfold MAX_PART_DEPTH; lia).
  split; [|by apply walk_ids_nodup]. rewrite walk_body_paths by done. rewrite map_map. apply walk_paths_nodes.
Qed.

Lemma walk_complete_and_unique_witness :
  NoDup [lit "1"; lit "2"; lit "2.1"].
Proof. apply (proj2 (walk_complete_and_unique sample_body)). reflexivity. Defined.

(** RFC 3501 numbers the only part of an embedded message below the message;
    the walker reports both under the same identifier. *)
Lemma embedded_single_part_id t s ps ds e n :
  map fst (walk_body_structure (Message (lit "rfc822") (Single t s ps ds e n))) =
  [lit "1"; lit "1"].
Proof. reflexivity. Qed.
