(* ===== verification/Session.v ===== *)
(** * The cached IMAP session (crates/rimap-imap/src/connection)

    [Connection] keeps one session behind a FIFO lock and a poison flag beside
    it.  A critical section of [attempt] runs from taking the lock to dropping
    [SessionGuard]; [poison] may be called by anyone at any moment.  What the
    network does in a section is its argument: how the lazy connect ends, how
    the command's body ends, whether the whole future is dropped first.

    A session is [synced] when no unread response is buffered on it.  The body
    of a command leaves it synced when it returns anything but a transport
    failure; a body that is cut, elapses or returns one leaves it desynced. *)

From Stdlib Require Import ZArith Lia.
From stdpp Require Import base option list strings.
From S2P Require Import Prelude RustStr Tools Errors ImapErrors.
Local Open Scope Z_scope.

(* [crates/rimap-imap/src/connection/dispatch.rs:22-31] Idempotency *)
Inductive Idempotency := ReadOnly | Mutating.

(* [crates/rimap-imap/src/connection/dispatch.rs:40-45] is_transport_failure *)
Definition is_transport_failure {A} (r : result ImapError A) : bool :=
  match r with
  | Err IConnectionLost | Err (ISizeLimit _) | Err (ITimeout _) => true
  | _ => false
  end.

(* [crates/rimap-imap/src/connection/dispatch.rs:53-55] should_reconnect *)
Definition should_reconnect {A} (i : Idempotency) (r : result ImapError A) : bool :=
  match i, r with ReadOnly, Err IConnectionLost => true | _, _ => false end.

(** What a session's post-login CAPABILITY said. *)

(* [crates/rimap-imap/src/connection/mod.rs:168-185] ServerCapabilities *)
Inductive ServerCapabilities := Known (has_move has_uidplus : bool) | Unknown.

(* [crates/rimap-imap/src/connection/mod.rs:198-206] ServerCapabilities::require_known *)
Definition require_known (c : ServerCapabilities) (op : rstr) : result ImapError (bool * bool) :=
  match c with
  | Known has_move has_uidplus => Ok (has_move, has_uidplus)
  | Unknown => Err (ICapabilitiesUnknown op)
  end.

(** A live session: a name, and whether its stream is at a response boundary.
    [SessionEntry] also carries what the session advertised at login. *)
Record session := mkSession { session_id : Z; synced : bool; capabilities : ServerCapabilities }.

Record conn_state := mkConn { slot : option session; poison_flag : bool }.

(* [crates/rimap-imap/src/connection/mod.rs:695-697] Connection::poison *)
Definition poison (st : conn_state) : conn_state := mkConn (slot st) true.

(* [crates/rimap-imap/src/connection/mod.rs:715-721] Connection::take_poisoned *)
Definition take_poisoned (st : conn_state) : conn_state * bool :=
  if poison_flag st then (mkConn None false, true) else (st, false).

(** [SessionGuard::drop], before the lock is released. *)
(* [crates/rimap-imap/src/connection/mod.rs:389-395] SessionGuard::drop *)
Definition guard_drop (armed : bool) (st : conn_state) : conn_state :=
  if armed && match slot st with Some _ => true | None => false end then poison st else st.

(** How the lazy connect and the command body end. *)
Inductive connect_end := Connected (id : Z) (caps : ServerCapabilities) | ConnectFails (e : ImapError)
  | ConnectDropped.
Inductive body_end (A : Type) := Returns (r : result ImapError A) | BodyElapses | BodyDropped.
Arguments Returns {A} _.
Arguments BodyElapses {A}.
Arguments BodyDropped {A}.

(** What a section did: the session its body ran on, if it got that far, and
    the caller's result, [None] when the future was dropped. *)
Record section_report (A : Type) := mkSection {
  ran_on : option session;
  outcome : option (result ImapError A) }.
Arguments mkSection {A} _ _.
Arguments ran_on {A} _.
Arguments outcome {A} _.

(** The environment of one section: the lock wait elapses, the connect, the
    body, and whether somebody poisons the connection while the body runs. *)
Record section_env (A : Type) := mkEnv {
  lock_elapses : bool;
  connects : connect_end;
  body : session -> body_end A;
  poisoned_meanwhile : bool }.
Arguments lock_elapses {A} _.
Arguments connects {A} _.
Arguments body {A} _ _.
Arguments poisoned_meanwhile {A} _.

(* [crates/rimap-imap/src/time.rs:13-22] with_timeout *)
Definition body_result {A} (op : rstr) (b : body_end A) : option (result ImapError A) :=
  match b with
  | Returns r => Some r
  | BodyElapses => Some (Err (ITimeout op))
  | BodyDropped => None
  end.

(** Whether the body left the stream at a response boundary. *)
Definition ends_synced {A} (b : body_end A) : bool :=
  match b with Returns r => negb (is_transport_failure r) | BodyElapses | BodyDropped => false end.

(** The command on the session in the slot. *)
(* [crates/rimap-imap/src/connection/dispatch.rs:171-189] Connection::attempt *)
Definition run_body {A} (op : rstr) (env : section_env A) (st : conn_state) (s : session)
    : conn_state * section_report A :=
  let b := body env s in
  let st := mkConn (Some (mkSession (session_id s) (ends_synced b) (capabilities s)))
              (poison_flag st || poisoned_meanwhile env) in
  let armed := match body_result op b with
               | Some r => is_transport_failure r
               | None => true
               end in
  (guard_drop armed st, mkSection (Some s) (body_result op b)).

(* [crates/rimap-imap/src/connection/dispatch.rs:139-190] Connection::attempt *)
Definition attempt {A} (op : rstr) (env : section_env A) (st : conn_state)
    : conn_state * section_report A :=
  if lock_elapses env then (st, mkSection None (Some (Err (ITimeout op))))
  else
    let '(st, _) := take_poisoned st in
    match slot st with
    | Some s => run_body op env st s
    | None =>
        match connects env with
        | Connected id caps =>
            let s := mkSession id true caps in
            run_body op env (mkConn (Some s) (poison_flag st)) s
        | ConnectFails e => (guard_drop true st, mkSection None (Some (Err e)))
        | ConnectDropped => (guard_drop true st, mkSection None None)
        end
    end.

(** Between the two attempts of one command other sections may run: [between]
    is what they do to the connection. *)
(* [crates/rimap-imap/src/connection/dispatch.rs:97-112] Connection::with_session *)
Definition with_session {A} (op : rstr) (i : Idempotency) (env1 env2 : section_env A)
    (between : conn_state -> conn_state) (st : conn_state)
    : conn_state * list (section_report A) :=
  let '(st1, r1) := attempt op env1 st in
  match outcome r1 with
  | Some r =>
      if should_reconnect i r
      then let '(st2, r2) := attempt op env2 (between st1) in (st2, [r1; r2])
      else (st1, [r1])
  | None => (st1, [r1])
  end.

(** ** Every interleaving *)

Inductive conn_step {A} : conn_state -> option (section_report A) -> conn_state -> Prop :=
  | step_poison st : conn_step st None (poison st)
  | step_attempt op env st st' r : attempt op env st = (st', r) -> conn_step st (Some r) st'.

Inductive conn_trace {A} : conn_state -> list (section_report A) -> conn_state -> Prop :=
  | trace_nil st : conn_trace st [] st
  | trace_cons st st1 st2 o rs :
      conn_step st o st1 -> conn_trace st1 rs st2 ->
      conn_trace st (match o with Some r => r :: rs | None => rs end) st2.

(** A desynced session in the slot is always behind a raised flag. *)
Definition no_stale_session (st : conn_state) : Prop :=
  match slot st with Some s => synced s = true \/ poison_flag st = true | None => True end.

Lemma run_body_invariant {A} op (env : section_env A) st s st' r :
  run_body op env st s = (st', r) -> no_stale_session st'.
Proof.
  unfold run_body, guard_drop, no_stale_session. intros H. injection H as <- _.
  destruct (body env s) as [x| |]; cbn; [|by right..].
  destruct (is_transport_failure x); cbn; auto.
Qed.

Lemma attempt_invariant {A} op (env : section_env A) st st' r :
  no_stale_session st -> attempt op env st = (st', r) ->
  no_stale_session st' /\ forall s, ran_on r = Some s -> synced s = true.
Proof.
  intros Hst. unfold attempt. destruct (lock_elapses env); [intros; by simplify_eq|].
  unfold take_poisoned. destruct (poison_flag st) eqn:Ep; cbn.
  - destruct (connects env); intros H; try (by simplify_eq).
    split; [by eapply run_body_invariant|]. unfold run_body in H. injection H as _ <-.
    cbn. intros s' Hs. by simplify_eq.
  - unfold no_stale_session in Hst. destruct (slot st) as [s|] eqn:Es.
    + intros H. split; [by eapply run_body_invariant|]. unfold run_body in H. injection H as _ <-.
      cbn. intros s' Hs. simplify_eq. destruct Hst; congruence.
    + destruct (connects env); intros H; try (simplify_eq; unfold guard_drop; rewrite Es; cbn;
        unfold no_stale_session; by rewrite Es).
      split; [by eapply run_body_invariant|]. unfold run_body in H. injection H as _ <-.
      cbn. intros s' Hs. by simplify_eq.
Qed.

(** No command ever reads another command's response.  Whatever the
    interleaving of commands, lost connections, elapsed deadlines, cancelled
    futures and calls of [poison], every command body runs on a session that
    is at a response boundary. *)
Theorem commands_run_synced {A} st (rs : list (section_report A)) st' :
  no_stale_session st -> conn_trace st rs st' ->
  no_stale_session st' /\ Forall (fun r => forall s, ran_on r = Some s -> synced s = true) rs.
Proof.
  intros Hst Htr. induction Htr as [st|st st1 st2 o rs Hstep Htr IH]; [by split|].
  destruct Hstep as [st|op env st st1 r Ha].
  - apply IH. unfold no_stale_session, poison in *. destruct (slot st); cbn in *; auto.
  - destruct (attempt_invariant op env st st1 r Hst Ha) as [Hst1 Hr].
    destruct (IH Hst1). split; [done|]. by constructor.
Qed.

Definition cut_env : section_env unit :=
  mkEnv unit false (Connected 1 Unknown) (fun _ => BodyDropped) false.
Definition good_env : section_env unit :=
  mkEnv unit false (Connected 2 Unknown) (fun _ => Returns (Ok tt)) false.

Lemma commands_run_synced_witness :
  Forall (fun r : section_report unit => forall s, ran_on r = Some s -> synced s = true)
    [mkSection (Some (mkSession 1 true Unknown)) None;
     mkSection (Some (mkSession 2 true Unknown)) (Some (Ok tt))].
Proof.
  refine (proj2 (commands_run_synced (mkConn None false)
    [mkSection (Some (mkSession 1 true Unknown)) None;
     mkSection (Some (mkSession 2 true Unknown)) (Some (Ok tt))]
    (mkConn (Some (mkSession 2 true Unknown)) false) I _)).
  eapply (trace_cons _ _ _ (Some _)); [apply (step_attempt [] cut_env); reflexivity|].
  eapply (trace_cons _ _ _ (Some _)); [apply (step_attempt [] good_env); reflexivity|].
  apply trace_nil.
Defined.

(** A body that ends in a transport failure leaves the flag up. *)
Lemma transport_failure_poisons {A} op (env : section_env A) st st' r s x :
  attempt op env st = (st', r) -> ran_on r = Some s -> outcome r = Some x ->
  is_transport_failure x = true -> poison_flag st' = true.
Proof.
  assert (Hrun : forall st s, run_body op env st s = (st', r) -> outcome r = Some x ->
    is_transport_failure x = true -> poison_flag st' = true).
  { intros st0 s0 H Ho Hx. unfold run_body in H. injection H as <- <-. cbn in Ho. rewrite Ho.
    unfold guard_drop. by rewrite Hx. }
  unfold attempt. destruct (lock_elapses env); [intros; by simplify_eq|].
  destruct (take_poisoned st) as [st0 tp]. destruct (slot st0); [intros ? _; by eapply Hrun|].
  destruct (connects env); [intros ? _; by eapply Hrun|intros; by simplify_eq..].
Qed.

Lemma poisoned_attempt_reconnects {A} op (env : section_env A) st st' r s :
  poison_flag st = true -> attempt op env st = (st', r) -> ran_on r = Some s ->
  exists caps, connects env = Connected (session_id s) caps.
Proof.
  intros Hp. unfold attempt. destruct (lock_elapses env); [intros; by simplify_eq|].
  unfold take_poisoned. rewrite Hp. cbn. destruct (connects env) as [id caps| |];
    intros H Hr; try by simplify_eq.
  unfold run_body in H. injection H as _ <-. cbn in Hr. simplify_eq. by exists caps.
Qed.

(** A write is never sent twice, and a retry never reuses the lost
    session.  One call runs its body once for a mutating operation and at most
    twice for a read-only one; a second run only follows a lost connection;
    and if the first body ran and nothing replaced the session in between, the
    second runs on a session freshly connected for it. *)
Theorem retry_policy {A} op i (env1 env2 : section_env A) between st st' rs :
  with_session op i env1 env2 between st = (st', rs) ->
  (1 <= length rs <= 2)%nat /\ (i = Mutating -> length rs = 1%nat) /\
  (forall r1 r2, rs = [r1; r2] ->
     outcome r1 = Some (Err IConnectionLost) /\
     forall s1 s2, ran_on r1 = Some s1 -> ran_on r2 = Some s2 -> between = (fun c => c) ->
       exists caps, connects env2 = Connected (session_id s2) caps).
Proof.
  unfold with_session. destruct (attempt op env1 st) as [st1 r1] eqn:E1.
  destruct (outcome r1) as [r|] eqn:Eo;
    [|intros; simplify_eq; cbn; split; [lia|]; split; [done|]; by intros].
  destruct (should_reconnect i r) eqn:Er;
    [|intros; simplify_eq; cbn; split; [lia|]; split; [done|]; by intros].
  destruct (attempt op env2 (between st1)) as [st2 r2] eqn:E2. intros; simplify_eq. cbn.
  destruct i; [|done]. cbn in Er. destruct r as [|[]]; try done.
  split; [lia|]. split; [done|]. intros r1' r2' Hrs. simplify_eq. split; [done|].
  intros s1 s2 Hs1 Hs2 ->. eapply poisoned_attempt_reconnects; [|exact E2|exact Hs2].
  by eapply transport_failure_poisons.
Qed.

Definition lost_env : section_env unit :=
  mkEnv unit false (Connected 1 Unknown) (fun _ => Returns (Err IConnectionLost)) false.

Lemma retry_policy_witness :
  outcome (mkSection (A := unit) (Some (mkSession 1 true Unknown)) (Some (Err IConnectionLost))) =
    Some (Err IConnectionLost) /\
  snd (with_session (lit "fetch") ReadOnly lost_env good_env (fun c => c) (mkConn None false)) =
    [mkSection (Some (mkSession 1 true Unknown)) (Some (Err IConnectionLost));
     mkSection (Some (mkSession 2 true Unknown)) (Some (Ok tt))].
Proof.
  split; [|reflexivity].
  refine (proj1 (proj2 (proj2 (retry_policy (lit "fetch") ReadOnly lost_env good_env (fun c => c)
    (mkConn None false) (mkConn (Some (mkSession 2 true Unknown)) false)
    [mkSection (Some (mkSession 1 true Unknown)) (Some (Err IConnectionLost));
     mkSection (Some (mkSession 2 true Unknown)) (Some (Ok tt))] _))
    _ (mkSection (Some (mkSession 2 true Unknown)) (Some (Ok tt))) eq_refl)).
  reflexivity.
Defined.
