(* ===== verification/Mailbox.v ===== *)
(** * Mutating a mailbox (crates/rimap-imap/src/ops: store, move_message,
    expunge, delete, and their bodies in connection/dispatch.rs)

    An operation is a conversation: it sends commands and reads the server's
    replies.  The model records the commands in order and takes the replies
    from a list; when the list ends the connection is lost.  [effect] is what
    RFC 3501, 4315 and 6851 make a command do to the selected folder, and
    [triple] a small program logic that carries it through a conversation. *)

From Stdlib Require Import ZArith Lia.
From stdpp Require Import base option list strings sets gmap.
From S2P Require Import Prelude RustStr Tools Errors ImapErrors Names UidSet Fetch Session.
Local Open Scope Z_scope.

(** ** Conversations *)

Inductive command :=
  | CSelect (folder : rstr) (read_only : bool)
  | CStatus (folder items : rstr)
  | CSearch (query : rstr)
  | CStore (set query : rstr)
  | CCopy (set dest : rstr)
  | CMove (set dest : rstr)
  | CUidExpunge (set : rstr)
  | CExpunge.

(** A tagged error, or success with the UIDVALIDITY it carried and the stream
    of untagged items (a UID or sequence number, or an error). *)
Inductive reply :=
  | ReplyErr (e : ImapError)
  | ReplyOk (uid_validity : option Z) (items : list (result ImapError (option Z))).

Definition conv (A : Type) : Type := list reply -> list command * list reply * result ImapError A.

#[export] Instance conv_ret : MRet conv := fun A a rs => ([], rs, Ok a).
#[export] Instance conv_bind : MBind conv := fun A B f m rs =>
  match m rs with
  | (cs, rs1, Ok a) => let '(cs', rs2, r) := f a rs1 in (cs ++ cs', rs2, r)
  | (cs, rs1, Err e) => (cs, rs1, Err e)
  end.

Definition lift {A} (r : result ImapError A) : conv A := fun rs => ([], rs, r).

Definition send (c : command) : conv (option Z * list (result ImapError (option Z))) :=
  fun rs =>
    match rs with
    | [] => ([c], [], Err IConnectionLost)
    | ReplyErr e :: rs' => ([c], rs', Err e)
    | ReplyOk uv items :: rs' => ([c], rs', Ok (uv, items))
    end.

Definition sent {A} (x : list command * list reply * result ImapError A) : list command := x.1.1.
Definition answered {A} (x : list command * list reply * result ImapError A)
  : result ImapError A := x.2.

(** Reading a response stream to its end, or to its first error. *)
Fixpoint drain (items : list (result ImapError (option Z))) : result ImapError (list (option Z)) :=
  match items with
  | [] => Ok []
  | Err e :: _ => Err e
  | Ok i :: items' => rest ← drain items'; Ok (i :: rest)
  end.

(** ** Folder names *)

Definition bad_byte_message (b i : Z) : rstr :=
  lit "server returned mailbox name containing control byte 0x" ++
  (let d n := if n <? 10 then 48 + n else 87 + n in [d (b / 16); d (b mod 16)])
  ++ lit " at offset " ++ to_decimal i.

(* [crates/rimap-imap/src/ops/folders.rs:21-31] validate_server_folder_name *)
Fixpoint validate_server_bytes (i : Z) (bs : list Z) : result ImapError unit :=
  match bs with
  | [] => Ok tt
  | b :: bs' =>
      if (b =? 0) || (b <? 0x20) || (b =? 0x7f)
      then Err (IProtocol (bad_byte_message b i))
      else validate_server_bytes (i + 1) bs'
  end.
(* [crates/rimap-imap/src/ops/folders.rs:21-31] validate_server_folder_name *)
Definition validate_server_folder_name (name : rstr) : result ImapError unit :=
  validate_server_bytes 0 (str_bytes name).

(* [crates/rimap-imap/src/ops/folder_management.rs:20-26] validate_folder_name *)
Definition validate_folder_name (name : rstr) : result ImapError unit :=
  match folder_name_new name with
  | Ok _ => Ok tt
  | Err _ => Err (IInvalidInput (lit "folder_name") (lit "folder name failed structural validation"))
  end.

(** The UIDVALIDITY the folder reported. *)
(* [crates/rimap-imap/src/ops/folders.rs:130-155] select *)
Definition select (folder : rstr) (read_only : bool) : conv (option Z) :=
  _ ← lift (validate_server_folder_name folder);
  '(uv, _) ← send (CSelect folder read_only);
  mret uv.

(** [status] as these operations call it, for UIDVALIDITY alone. *)
(* [crates/rimap-imap/src/ops/folders.rs:70-96] status *)
Definition status_uidvalidity (folder : rstr) : conv (option Z) :=
  _ ← lift (validate_server_folder_name folder);
  '(uv, _) ← send (CStatus folder (lit "(UIDVALIDITY)"));
  mret uv.

(** ** STORE *)

(* [crates/rimap-imap/src/ops/store.rs:8-9] MAX_BATCH *)
Definition MAX_BATCH : Z := 100.

(* [crates/rimap-imap/src/types.rs:191-196] FlagAction *)
Inductive FlagAction := Add | Remove.

(* [crates/rimap-imap/src/ops/store.rs:64-73] uid_set_string *)
Definition uid_set_string (uids : list Z) : rstr := join (lit ",") (map to_decimal uids).

Definition atom_special (b : Z) : bool :=
  existsb (Z.eqb b) [40; 41; 123; 32; 37; 42; 34; 92; 93; 91].

(* [crates/rimap-imap/src/ops/store.rs:89-107] validate_keyword *)
Fixpoint validate_keyword_bytes (bs : list Z) : result ImapError unit :=
  match bs with
  | [] => Ok tt
  | b :: bs' =>
      if between 0 0x1f b || (b =? 0x7f)
      then Err (IInvalidInput (lit "keyword") (lit "contains control characters"))
      else if atom_special b
      then Err (IInvalidInput (lit "keyword") (lit "contains IMAP atom-special characters"))
      else validate_keyword_bytes bs'
  end.
(* [crates/rimap-imap/src/ops/store.rs:82-109] validate_keyword *)
Definition validate_keyword (keyword : rstr) : result ImapError unit :=
  match keyword with
  | [] => Err (IInvalidInput (lit "keyword") (lit "keyword must not be empty"))
  | _ => validate_keyword_bytes (str_bytes keyword)
  end.

(* [crates/rimap-imap/src/ops/store.rs:126-137] flags_string *)
Definition flag_atom (f : Flag) : result ImapError rstr :=
  match f with
  | Seen => Ok (lit "\Seen") | Answered => Ok (lit "\Answered") | Flagged => Ok (lit "\Flagged")
  | Deleted => Ok (lit "\Deleted") | Draft => Ok (lit "\Draft") | Recent => Ok (lit "\Recent")
  | Keyword k => _ ← validate_keyword k; Ok k
  end.

Fixpoint flag_atoms (fs : list Flag) : result ImapError (list rstr) :=
  match fs with
  | [] => Ok []
  | f :: fs' => a ← flag_atom f; rest ← flag_atoms fs'; Ok (a :: rest)
  end.
(* [crates/rimap-imap/src/ops/store.rs:120-140] flags_string *)
Definition flags_string (fs : list Flag) : result ImapError rstr :=
  atoms ← flag_atoms fs; Ok (join (lit " ") atoms).

Definition known_uids (items : list (option Z)) : list Z :=
  omap (fun i => match i with Some u => if u =? 0 then None else Some u | None => None end) items.

(* [crates/rimap-imap/src/ops/store.rs:20-59] store *)
Definition store (uids : list Z) (flags : list Flag) (action : FlagAction) : conv (list Z) :=
  if MAX_BATCH <? Z.of_nat (length uids)
  then lift (Err (IBatchTooLarge (Z.of_nat (length uids)) MAX_BATCH))
  else match uids with
  | [] => mret []
  | _ =>
      flag_str ← lift (flags_string flags);
      let query := match action with
                   | Add => lit "+FLAGS (" ++ flag_str ++ lit ")"
                   | Remove => lit "-FLAGS (" ++ flag_str ++ lit ")"
                   end in
      '(_, items) ← send (CStore (uid_set_string uids) query);
      seen ← lift (drain items);
      mret (known_uids seen)
  end.

(* [crates/rimap-imap/src/connection/dispatch.rs:444-463] Connection::store_flags *)
Definition connection_store (folder : rstr) (uids : list Z) (flags : list Flag)
    (action : FlagAction) (expected : option Z) : conv (list Z * option Z) :=
  uid_validity ← select folder false;
  _ ← lift (check_uidvalidity folder expected uid_validity);
  updated ← store uids flags action;
  mret (updated, uid_validity).

(** ** EXPUNGE *)

(* [crates/rimap-imap/src/ops/expunge.rs:17-31] ExpungeStrategy *)
Inductive ExpungeStrategy := Scoped | FolderWide.

(* [crates/rimap-imap/src/ops/expunge.rs:34-40] expunge_strategy *)
Definition expunge_strategy (has_uidplus : bool) : ExpungeStrategy :=
  if has_uidplus then Scoped else FolderWide.

(* [crates/rimap-imap/src/ops/expunge.rs:54-56] fallback_uses_folder_wide_expunge *)
Definition fallback_uses_folder_wide_expunge (has_move has_uidplus : bool) : bool :=
  negb has_move && negb has_uidplus.

(* [crates/rimap-imap/src/ops/expunge.rs:66-98] run_expunge *)
Definition run_expunge (uid_set : rstr) (strategy : ExpungeStrategy) : conv unit :=
  '(_, items) ← send (match strategy with Scoped => CUidExpunge uid_set | FolderWide => CExpunge end);
  _ ← lift (drain items);
  mret tt.

(* [crates/rimap-imap/src/ops/expunge.rs:108-119] count_deleted *)
Definition count_deleted (folder : rstr) : conv (list Z) :=
  _ ← lift (validate_folder_name folder);
  _ ← select folder true;
  '(_, items) ← send (CSearch (lit "DELETED"));
  found ← lift (drain items);
  mret (known_uids found).

(* [crates/rimap-imap/src/ops/expunge.rs:131-140] expunge *)
Definition expunge : conv Z :=
  '(_, items) ← send CExpunge;
  gone ← lift (drain items);
  mret (Z.min u32_max (Z.of_nat (length gone))).

(* [crates/rimap-imap/src/connection/dispatch.rs:596-607] Connection::expunge *)
Definition connection_expunge (folder : rstr) : conv (list Z * Z) :=
  deleted_uids ← count_deleted folder;
  _ ← select folder false;
  count ← expunge;
  mret (deleted_uids, count).

(** ** MOVE *)

(* [crates/rimap-imap/src/types.rs:200-216] MoveResult *)
Record MoveResult := mkMoveResult {
  old_uid : Z; new_uid : option Z; used_fallback_reason : option rstr }.

(* [crates/rimap-imap/src/ops/move_message.rs:16-38] MoveOutcome *)
Record MoveOutcome := mkMoveOutcome {
  results : list MoveResult;
  used_fallback : bool;
  folder_wide_expunge : bool;
  source_uid_validity : option Z;
  destination_uid_validity : option Z }.

(* [crates/rimap-imap/src/ops/move_message.rs:223-233] build_results *)
Definition build_results (uids : list Z) : list MoveResult :=
  map (fun uid => mkMoveResult uid None (Some (lit "async_imap_copyuid_unavailable"))) uids.

(* [crates/rimap-imap/src/ops/move_message.rs:178-218] copy_delete_fallback *)
Definition copy_delete_fallback (dest : rstr) (uids : list Z) (has_uidplus : bool)
    : conv (list MoveResult * option Z) :=
  _ ← lift (validate_server_folder_name dest);
  let uid_set := uid_set_string uids in
  _ ← send (CCopy uid_set dest);
  destination_uid_validity ← status_uidvalidity dest;
  _ ← store uids [Deleted] Add;
  _ ← run_expunge uid_set (expunge_strategy has_uidplus);
  mret (build_results uids, destination_uid_validity).

(* [crates/rimap-imap/src/ops/move_message.rs:111-140] move_messages *)
Definition source_guard (src : rstr) (expected : option Z) : conv (option Z) :=
  match expected with
  | None => mret None
  | Some expected =>
      status ← status_uidvalidity src;
      match status with
      | Some actual =>
          if negb (actual =? expected) then lift (Err (IUidValidityChanged src expected actual))
          else mret (Some actual)
      | None => mret None
      end
  end.

(* [crates/rimap-imap/src/ops/move_message.rs:70-168] move_messages *)
Definition move_messages (caps : ServerCapabilities) (src dest : rstr) (uids : list Z)
    (expected_source_uidvalidity : option Z) : conv MoveOutcome :=
  _ ← lift (validate_server_folder_name dest);
  if MAX_BATCH <? Z.of_nat (length uids)
  then lift (Err (IBatchTooLarge (Z.of_nat (length uids)) MAX_BATCH))
  else match uids with
  | [] => mret (mkMoveOutcome [] false false None None)
  | _ =>
      '(has_move, has_uidplus) ← lift (require_known caps (lit "move"));
      source_uid_validity ← source_guard src expected_source_uidvalidity;
      if negb has_move then
        '(results, destination_uid_validity) ← copy_delete_fallback dest uids has_uidplus;
        mret (mkMoveOutcome results true (fallback_uses_folder_wide_expunge false has_uidplus)
                source_uid_validity destination_uid_validity)
      else
        _ ← send (CMove (uid_set_string uids) dest);
        mret (mkMoveOutcome (build_results uids) false false source_uid_validity None)
  end.

(* [crates/rimap-imap/src/connection/dispatch.rs:487-508] Connection::move_messages *)
Definition connection_move (caps : ServerCapabilities) (src dest : rstr) (uids : list Z)
    (expected : option Z) : conv MoveOutcome :=
  _ ← select src false;
  move_messages caps src dest uids expected.

(** ** DELETE *)

(* [crates/rimap-imap/src/ops/delete.rs:109-130] DeleteResult *)
Record DeleteResult := mkDeleteResult {
  deleted_uid : Z; moved_to_trash : bool; delete_used_fallback : bool;
  delete_folder_wide : bool }.

(* [crates/rimap-imap/src/ops/delete.rs:39-105] delete_message *)
Definition delete_message (caps : ServerCapabilities) (uid : Z) (source trash : rstr)
    : conv DeleteResult :=
  _ ← lift (validate_folder_name source);
  _ ← lift (validate_folder_name trash);
  if eq_ignore_ascii_case source trash then
    _ ← store [uid] [Deleted] Add;
    mret (mkDeleteResult uid false false false)
  else
    '(has_move, has_uidplus) ← lift (require_known caps (lit "delete_message"));
    _ ← store [uid] [Deleted] Add;
    let uid_set := uid_set_string [uid] in
    _ ← (if has_move : bool then
           _ ← send (CMove uid_set trash); mret tt
         else
           _ ← send (CCopy uid_set trash);
           run_expunge uid_set (expunge_strategy has_uidplus));
    mret (mkDeleteResult uid true (negb has_move)
            (fallback_uses_folder_wide_expunge has_move has_uidplus)).

(* [crates/rimap-imap/src/connection/dispatch.rs:562-583] Connection::delete_message *)
Definition connection_delete (caps : ServerCapabilities) (folder : rstr) (uid : Z) (trash : rstr)
    (expected : option Z) : conv (DeleteResult * option Z) :=
  uid_validity ← select folder false;
  _ ← lift (check_uidvalidity folder expected uid_validity);
  result ← delete_message caps uid folder trash;
  mret (result, uid_validity).

(** ** What the commands do to the selected folder

    The messages of the folder are their UIDs with the \Deleted flag, and
    [copied] are the UIDs that have a copy elsewhere.  The effects are those
    of RFC 3501 (STORE, COPY, EXPUNGE), RFC 4315 (UID EXPUNGE) and RFC 6851
    (MOVE).  A command that fails or is cut short may have been carried out
    for any part of its messages, [partial], except that a failed COPY leaves
    no copies to count on.

    STORE, UID EXPUNGE, EXPUNGE and UID SEARCH are read through async-imap's
    response parsers.  connection/login.rs (on [parse_capabilities], version
    0.11.3) notes that such a parser may end with Ok without looking at the
    tagged status, so a NO or BAD to one of these commands may go [unheard]:
    the operation goes on as if it were done.  COPY, MOVE and SELECT wait for
    the tagged status itself. *)

Record mailbox := mkMailbox { source : gmap Z bool; copied : gset Z }.

Definition in_set (set : rstr) (u : Z) : bool :=
  match parse_uid_set set with
  | Some rs => existsb (fun r : Z * Z => between r.1 r.2 u) rs
  | None => false
  end.

Definition names_deleted (prefix query : rstr) : bool :=
  match strip_prefix prefix query with
  | Some rest =>
      match strip_suffix (lit ")") rest with
      | Some atoms => bool_decide (lit "\Deleted" ∈ split_on 32 atoms)
      | None => false
      end
  | None => false
  end.

(** The flag of a message after a STORE. *)
Definition store_flag (query : rstr) (d : bool) : bool :=
  if names_deleted (lit "+FLAGS (") query then true
  else if names_deleted (lit "-FLAGS (") query then false else d.

Section effects.
  Variable partial : command -> Z -> bool.
  Variable unheard : command -> bool.

Definition keep (p : Z -> bool -> bool) (box : gmap Z bool) : gmap Z bool :=
  map_imap (fun u d => if p u d then Some d else None) box.

Definition effect (c : command) (done : bool) (w : mailbox) : mailbox :=
  let hit u := done || partial c u in
  match c with
  | CStore set query =>
      mkMailbox (map_imap (fun u d => Some (if in_set set u && hit u then store_flag query d else d))
                   (source w)) (copied w)
  | CCopy set _ =>
      mkMailbox (source w) (copied w ∪ dom (keep (fun u _ => in_set set u && done) (source w)))
  | CMove set _ =>
      mkMailbox (keep (fun u _ => negb (in_set set u && hit u)) (source w))
        (copied w ∪ dom (keep (fun u _ => in_set set u && hit u) (source w)))
  | CUidExpunge set =>
      mkMailbox (keep (fun u d => negb (in_set set u && d && hit u)) (source w)) (copied w)
  | CExpunge => mkMailbox (keep (fun u d => negb (d && hit u)) (source w)) (copied w)
  | CSelect _ _ | CStatus _ _ | CSearch _ => w
  end.

(** Whether the server has done a command whose answer reads as a success: a
    streamed one is done if its stream ends without error and hides no refusal. *)
Definition accepted (c : command) (items : list (result ImapError (option Z))) : bool :=
  match c with
  | CStore _ _ | CUidExpunge _ | CExpunge | CSearch _ => is_ok (drain items) && negb (unheard c)
  | _ => true
  end.

(** No refusal goes unheard. *)
Definition all_heard : Prop := forall c, unheard c = false.

Fixpoint replay (cs : list command) (rs : list reply) (w : mailbox) : mailbox :=
  match cs with
  | [] => w
  | c :: cs' =>
      let done := match rs with ReplyOk _ items :: _ => accepted c items | _ => false end in
      replay cs' (tail rs) (effect c done w)
  end.

(** ** A program logic for conversations *)

Definition triple {A} (P : mailbox -> Prop) (m : conv A)
    (Q : result ImapError A -> mailbox -> Prop) : Prop :=
  forall rs w, P w -> let '(cs, rs', r) := m rs in
    rs' = drop (length cs) rs /\ Q r (replay cs rs w).

Lemma replay_app cs1 cs2 rs w :
  replay (cs1 ++ cs2) rs w = replay cs2 (drop (length cs1) rs) (replay cs1 rs w).
Proof.
  revert rs w. induction cs1 as [|c cs1 IH]; intros rs w; cbn; [done|].
  rewrite IH. destruct rs; cbn; [by rewrite drop_nil|done].
Qed.

Lemma triple_bind {A B} P (m : conv A) (f : A -> conv B) Qm Q :
  triple P m Qm -> (forall a, triple (Qm (Ok a)) (f a) Q) ->
  (forall e w, Qm (Err e) w -> Q (Err e) w) -> triple P (m ≫= f) Q.
Proof.
  intros Hm Hf He rs w Hw. unfold mbind, conv_bind. specialize (Hm rs w Hw).
  destruct (m rs) as [[cs rs1] [a|e]], Hm as [-> Hq]; [|by auto].
  specialize (Hf a (drop (length cs) rs) _ Hq). destruct (f a (drop (length cs) rs)) as [[cs' rs2] r], Hf as [-> Hr].
  rewrite replay_app, drop_drop, length_app. split; [f_equal; lia|done].
Qed.

Lemma triple_ret {A} P (a : A) Q : (forall w, P w -> Q (Ok a) w) -> triple P (mret a) Q.
Proof. intros H rs w Hw. cbn. auto. Qed.

Lemma triple_lift {A} P (r : result ImapError A) Q : (forall w, P w -> Q r w) -> triple P (lift r) Q.
Proof. intros H rs w Hw. cbn. auto. Qed.

Lemma triple_send P c Q :
  (forall w uv items, P w -> Q (Ok (uv, items)) (effect c (accepted c items) w)) ->
  (forall w e, P w -> Q (Err e) (effect c false w)) -> triple P (send c) Q.
Proof.
  intros Ho He rs w Hw. unfold send. destruct rs as [|[e|uv items] rs]; cbn; auto.
Qed.

Lemma triple_consequence {A} (P P' : mailbox -> Prop) (m : conv A) (Q Q' : _ -> _ -> Prop) :
  triple P' m Q' -> (forall w, P w -> P' w) -> (forall r w, Q' r w -> Q r w) -> triple P m Q.
Proof.
  intros H HP HQ rs w Hw. specialize (H rs w (HP w Hw)).
  destruct (m rs) as [[cs rs'] r]. naive_solver.
Qed.

(** A lifted check, a command that changes nothing, and a streamed command. *)
Lemma triple_check {A B} P (r : result ImapError A) (f : A -> conv B) Q :
  (forall a, r = Ok a -> triple P (f a) Q) -> (forall e w, r = Err e -> P w -> Q (Err e) w) ->
  triple P (lift r ≫= f) Q.
Proof.
  intros Hf He. destruct r as [a|e]; intros rs w Hw; [|split; [done|by apply He]].
  specialize (Hf a eq_refl rs w Hw). unfold mbind, conv_bind, lift.
  by destruct (f a rs) as [[cs' rs2] r].
Qed.

Lemma triple_stream {B} P c (f : list (option Z) -> conv B) Q R :
  (forall items, accepted c items = is_ok (drain items) && negb (unheard c)) ->
  (forall w, P w -> R (effect c (negb (unheard c)) w)) ->
  (forall w e, P w -> Q (Err e) (effect c false w)) ->
  (forall seen, triple R (f seen) Q) ->
  triple P (x ← send c; let '(_, items) := x in seen ← lift (drain items); f seen) Q.
Proof.
  intros Ha Ho He Hf.
  apply (triple_bind _ _ _ (fun r w => match r with
    | Ok (_, items) => match drain items with Ok _ => R w | Err e => Q (Err e) w end
    | Err e => Q (Err e) w end)); [| |done].
  - apply triple_send; [|auto]. intros w uv items Hw. rewrite Ha.
    destruct (drain items); cbn; auto.
  - intros [uv items]. destruct (drain items) as [seen|e] eqn:E.
    + apply triple_check; [|done]. intros a Ea. simplify_eq. apply Hf.
    + intros rs w Hw. done.
Qed.

Lemma lookup_keep p box u :
  keep p box !! u = d ← box !! u; if p u d then Some d else None.
Proof. apply map_lookup_imap. Qed.

Lemma elem_of_dom_keep p (box : gmap Z bool) u d :
  box !! u = Some d -> p u d = true -> u ∈ dom (keep p box).
Proof. intros Hb Hp. apply elem_of_dom. exists d. rewrite lookup_keep, Hb. cbn. by rewrite Hp. Qed.

(** The operations that change nothing in the folder. *)
Lemma triple_select P folder ro Q :
  (forall r w, P w -> Q r w) -> triple P (select folder ro) Q.
Proof.
  intros HQ. apply triple_check; [|auto]. intros _ _.
  apply (triple_bind _ _ _ (fun _ => P)); [by apply triple_send| |auto].
  intros [uv items]. apply triple_ret; auto.
Qed.

Lemma triple_status P folder Q :
  (forall r w, P w -> Q r w) -> triple P (status_uidvalidity folder) Q.
Proof.
  intros HQ. apply triple_check; [|auto]. intros _ _.
  apply (triple_bind _ _ _ (fun _ => P)); [by apply triple_send| |auto].
  intros [uv items]. apply triple_ret; auto.
Qed.

Lemma triple_source_guard P src expected Q :
  (forall r w, P w -> Q r w) -> triple P (source_guard src expected) Q.
Proof.
  intros HQ. unfold source_guard. destruct expected as [e|]; [|apply triple_ret; auto].
  apply (triple_bind _ _ _ (fun _ => P)); [apply triple_status; auto| |auto].
  intros [a|]; [|apply triple_ret; auto]. case_goal; [apply triple_lift; auto|].
  apply triple_ret; auto.
Qed.

Definition store_query (action : FlagAction) (flag_str : rstr) : rstr :=
  match action with
  | Add => lit "+FLAGS (" ++ flag_str ++ lit ")"
  | Remove => lit "-FLAGS (" ++ flag_str ++ lit ")"
  end.

Lemma triple_store P uids flags action Q :
  uids <> [] -> (forall e w, P w -> Q (Err e) w) ->
  (forall s w e, flags_string flags = Ok s -> P w ->
     Q (Err e) (effect (CStore (uid_set_string uids) (store_query action s)) false w)) ->
  (forall s w a, flags_string flags = Ok s -> P w ->
     let c := CStore (uid_set_string uids) (store_query action s) in
     Q (Ok a) (effect c (negb (unheard c)) w)) ->
  triple P (store uids flags action) Q.
Proof.
  intros Hne He Hf Hs. unfold store. case_goal; [apply triple_lift; auto|].
  destruct uids as [|u uids]; [done|]. apply triple_check; [|auto].
  intros s Es. fold (store_query action s).
  apply triple_stream with (R := fun w => exists w0, P w0 /\
    let c := CStore (uid_set_string (u :: uids)) (store_query action s) in w = effect c (negb (unheard c)) w0); eauto.
  intros seen. apply triple_ret. intros w (w0 & Hw & ->). eauto.
Qed.

Lemma triple_expunge P set strategy Q :
  let c := match strategy with Scoped => CUidExpunge set | FolderWide => CExpunge end in
  (forall w e, P w -> Q (Err e) (effect c false w)) ->
  (forall w, P w -> Q (Ok tt) (effect c (negb (unheard c)) w)) -> triple P (run_expunge set strategy) Q.
Proof.
  intros c He Ho. unfold run_expunge. fold c.
  apply triple_stream with (R := fun w => exists w0, P w0 /\ w = effect c (negb (unheard c)) w0); eauto.
  - by destruct strategy.
  - intros _. apply triple_ret. intros w (w0 & Hw & ->). eauto.
Qed.
End effects.

Arguments store_query : simpl never.
Arguments store_flag : simpl never.

Lemma in_set_uids uids u :
  uids <> [] -> Forall (fun v => 0 <= v) uids -> in_set (uid_set_string uids) u = bool_decide (u ∈ uids).
Proof.
  intros Hne Hp. unfold in_set, uid_set_string.
  replace (map to_decimal uids) with (map show_run (map (fun v => (v, v)) uids)).
  2:{ rewrite map_map. apply map_ext. intros v. unfold show_run. cbn. by rewrite Z.eqb_refl. }
  rewrite parse_uid_set_join; [|by destruct uids|].
  2:{ apply List.Forall_map. eapply Forall_impl; [exact Hp|]. auto. }
  apply eq_bool_prop_intro. rewrite bool_decide_spec, Is_true_true, existsb_exists. split.
  - intros (r & Hr & Hb). apply in_map_iff in Hr as (v & <- & Hv). unfold between in Hb. cbn in Hb.
    zify_bool. apply list_elem_of_In. by replace u with v by lia.
  - intros Hu. exists (u, u). split; [apply in_map_iff; exists u; split; [done|by apply list_elem_of_In]|].
    unfold between. cbn. rewrite Z.leb_refl. done.
Qed.

(** ** MOVE *)

Lemma triple_nonempty {A} partial unheard P (l : list Z) (m1 m2 : conv A) Q :
  l <> [] -> triple partial unheard P m2 Q ->
  triple partial unheard P (match l with [] => m1 | _ => m2 end) Q.
Proof. by destruct l. Qed.

Section move.
  Context (partial : command -> Z -> bool) (unheard : command -> bool) (caps : ServerCapabilities) (uids : list Z)
    (box : gmap Z bool).
  Hypothesis Hne : uids <> [].
  Hypothesis Hpos : Forall (fun v => 0 <= v) uids.

Definition untouched (w : mailbox) : Prop := w = mkMailbox box ∅.

(** Every message is still there, or has a copy if it was named, or was
    already \Deleted and the server has neither MOVE nor UIDPLUS. *)
Definition nothing_lost (w : mailbox) : Prop :=
  forall u d, box !! u = Some d ->
    (source w !! u = None ->
       if bool_decide (u ∈ uids) then u ∈ copied w else d = true /\ caps = Known false false) /\
    (u ∉ uids -> source w !! u = None \/ source w !! u = Some d).

(** The named messages are gone, with a copy; [wide]: so are those that were
    already \Deleted; the others are as they were. *)
Definition moved (wide : bool) (w : mailbox) : Prop :=
  (forall u, source w !! u =
     if bool_decide (u ∈ uids) then None
     else d ← box !! u; if wide && d then None else Some d) /\
  forall u, u ∈ uids -> is_Some (box !! u) -> u ∈ copied w.

(** The named messages have copies. *)
Definition has_copies (w : mailbox) : Prop := forall u, u ∈ uids -> is_Some (box !! u) -> u ∈ copied w.
(** Between COPY and STORE of the fallback. *)
Definition copied_all (w : mailbox) : Prop := source w = box /\ has_copies w.
Definition marked (w : mailbox) : Prop :=
  forall u, source w !! u = if bool_decide (u ∈ uids) then (fun _ => true) <$> box !! u else box !! u.
(** After a STORE that reads as done: nothing has left, only named messages may
    have changed, and they are marked if no refusal goes unheard. *)
Definition marking (w : mailbox) : Prop :=
  (forall u, if bool_decide (u ∈ uids) then is_Some (source w !! u) <-> is_Some (box !! u) else source w !! u = box !! u) /\
  (all_heard unheard -> marked w).
Definition marking_all (w : mailbox) : Prop := marking w /\ has_copies w.

Lemma untouched_nothing_lost w : untouched w -> nothing_lost w.
Proof. intros -> u d Hu. cbn. rewrite Hu. split; [done|auto]. Qed.

Lemma moved_nothing_lost wide w :
  (wide = true -> caps = Known false false) -> moved wide w -> nothing_lost w.
Proof.
  intros Hw [Hs Hc] u d Hu. rewrite Hs, Hu. cbn. case_bool_decide as Hin.
  - split; [|done]. intros _. apply Hc; [done|by exists d].
  - destruct wide, d; cbn; naive_solver.
Qed.

Lemma move_effect_ok dest :
  forall w, untouched w -> moved false (effect partial (CMove (uid_set_string uids) dest) true w).
Proof.
  intros w ->. split; cbn.
  - intros u. rewrite lookup_keep, in_set_uids by done. rewrite andb_true_r.
    destruct (box !! u); cbn; case_bool_decide; done.
  - intros u Hu [d Hd]. apply elem_of_union_r. apply (elem_of_dom_keep _ _ _ d Hd).
    rewrite in_set_uids by done. by rewrite bool_decide_eq_true_2.
Qed.

Lemma move_effect_partial dest :
  forall w, untouched w -> nothing_lost (effect partial (CMove (uid_set_string uids) dest) false w).
Proof.
  intros w -> u d Hu. cbn. rewrite lookup_keep, in_set_uids, Hu by done. cbn.
  case_bool_decide as Hin; cbn; [|by split; auto]. split; [|done]. intros Hk. apply elem_of_union_r.
  apply (elem_of_dom_keep _ _ _ d Hu). rewrite in_set_uids by done.
  rewrite bool_decide_eq_true_2 by done. by destruct (partial _ u).
Qed.

Lemma copied_all_nothing_lost w : copied_all w -> nothing_lost w.
Proof. intros [Hs _] u d Hu. rewrite Hs, Hu. split; [done|auto]. Qed.

Lemma copy_effect_ok dest :
  forall w, untouched w -> copied_all (effect partial (CCopy (uid_set_string uids) dest) true w).
Proof.
  intros w ->. split; [done|]. intros u Hu [d Hd]. cbn. apply elem_of_union_r.
  apply (elem_of_dom_keep _ _ _ d Hd). rewrite in_set_uids by done.
  by rewrite bool_decide_eq_true_2.
Qed.

Lemma copy_effect_failed dest :
  forall w, untouched w -> nothing_lost (effect partial (CCopy (uid_set_string uids) dest) false w).
Proof. intros w -> u d Hu. cbn. rewrite Hu. split; [done|auto]. Qed.

Lemma store_query_deleted s d :
  flags_string [Deleted] = Ok s -> store_flag (store_query Add s) d = true.
Proof. intros H. vm_compute in H. injection H as <-. reflexivity. Qed.

Lemma mark_effect s w :
  flags_string [Deleted] = Ok s -> source w = box ->
  let c := CStore (uid_set_string uids) (store_query Add s) in
  nothing_lost (effect partial c false w) /\ marking (effect partial c (negb (unheard c)) w).
Proof.
  intros Hs Hsrc c.
  assert (Hl : forall done u, source (effect partial c done w) !! u =
    if bool_decide (u ∈ uids) then (fun d => if done || partial c u then true else d) <$> box !! u else box !! u).
  { intros done u. cbn. rewrite map_lookup_imap, Hsrc, in_set_uids by done.
    destruct (box !! u) as [d|]; cbn; rewrite ?(store_query_deleted s) by done; by case_bool_decide. }
  split.
  - intros u d Hu. rewrite Hl, Hu. case_bool_decide; cbn; split; auto; done.
  - split.
    + intros u. rewrite Hl. case_bool_decide; [|done]. by rewrite fmap_is_Some.
    + intros Hh u. rewrite Hl, (Hh c). case_bool_decide; [|done]. by destruct (box !! u).
Qed.

Lemma marking_nothing_lost w : marking w -> nothing_lost w.
Proof.
  intros [Hs _] u d Hu. specialize (Hs u). rewrite Hu in Hs. case_bool_decide; [|rewrite Hs; by split; auto].
  destruct Hs as [_ [d' Hs]]; [by eexists|]. rewrite Hs. by split; [|tauto].
Qed.

(** A message that is not named is as it was. *)
Lemma marking_other w u : marking w -> u ∉ uids -> source w !! u = box !! u.
Proof. intros [Hs _] Hu. specialize (Hs u). by rewrite bool_decide_eq_false_2 in Hs. Qed.

(** The expunge of the fallback: whatever of it is done loses nothing, and all
    of it, after a STORE that was done, removes the named messages. *)
Lemma expunge_effect_safe has_uidplus done w :
  caps = Known false has_uidplus -> marking_all w ->
  let c := match expunge_strategy has_uidplus with Scoped => CUidExpunge (uid_set_string uids) | FolderWide => CExpunge end in
  nothing_lost (effect partial c done w) /\ has_copies (effect partial c done w) /\
  (marked w -> moved (negb has_uidplus) (effect partial c true w)).
Proof.
  intros Hcaps [Hm Hc] c. split; [|split; [destruct has_uidplus; exact Hc|]].
  - intros u d Hu. destruct (decide (u ∈ uids)) as [Hin|Hout].
    + split; [|done]. rewrite bool_decide_eq_true_2 by done. intros _.
      assert (u ∈ copied w) by (apply Hc; [done|by exists d]). by destruct has_uidplus.
    + pose proof (marking_other w u Hm Hout) as Hs. rewrite bool_decide_eq_false_2 by done. rewrite Hu in Hs.
      destruct has_uidplus; cbn; rewrite lookup_keep, Hs; cbn.
      * rewrite in_set_uids, bool_decide_eq_false_2 by done. split; [done|auto].
      * destruct d; cbn; [|split; [done|auto]]. destruct (done || partial CExpunge u); cbn; split; auto; done.
  - intros Hs. split; [|destruct has_uidplus; exact Hc]. intros u. destruct has_uidplus; cbn; rewrite lookup_keep, Hs.
    + rewrite in_set_uids by done. destruct (box !! u) as [[]|]; cbn; by case_bool_decide.
    + destruct (box !! u) as [[]|]; cbn; by case_bool_decide.
Qed.

(** DELETE marks first. *)
Lemma marking_move_effect dest w :
  marking w -> moved false (effect partial (CMove (uid_set_string uids) dest) true w).
Proof.
  intros [Hs _]. split; cbn.
  - intros u. rewrite lookup_keep, in_set_uids, andb_true_r by done. specialize (Hs u).
    case_bool_decide; cbn; [by destruct (source w !! u)|]. rewrite Hs. by destruct (box !! u).
  - intros u Hu Hb. specialize (Hs u). rewrite bool_decide_eq_true_2 in Hs by done. apply Hs in Hb as [d Hd].
    apply elem_of_union_r. apply (elem_of_dom_keep _ _ _ d Hd). by rewrite in_set_uids, bool_decide_eq_true_2.
Qed.

Lemma marking_move_partial dest w :
  marking w -> nothing_lost (effect partial (CMove (uid_set_string uids) dest) false w).
Proof.
  intros [Hs _] u d Hu. cbn. rewrite lookup_keep, in_set_uids by done. specialize (Hs u). rewrite Hu in Hs.
  case_bool_decide as Hin; cbn; [|rewrite Hs; by split; auto].
  destruct Hs as [_ [d' Hs]]; [by eexists|]. rewrite Hs. cbn. split; [|done]. intros Hk. apply elem_of_union_r.
  apply (elem_of_dom_keep _ _ _ d' Hs). rewrite in_set_uids, bool_decide_eq_true_2 by done. by destruct (partial _ u).
Qed.

Lemma marking_copy_effect dest w :
  marking w -> marking_all (effect partial (CCopy (uid_set_string uids) dest) true w).
Proof.
  intros Hm. split; [exact Hm|]. destruct Hm as [Hs _]. intros u Hu Hb. cbn. specialize (Hs u).
  rewrite bool_decide_eq_true_2 in Hs by done. apply Hs in Hb as [d Hd].
  apply elem_of_union_r. apply (elem_of_dom_keep _ _ _ d Hd). by rewrite in_set_uids, bool_decide_eq_true_2.
Qed.

Lemma marking_copy_failed dest w :
  marking w -> nothing_lost (effect partial (CCopy (uid_set_string uids) dest) false w).
Proof. intros Hs. apply marking_nothing_lost. exact Hs. Qed.

Definition outcome_ok (has_move has_uidplus : bool) (o : MoveOutcome) : Prop :=
  used_fallback o = negb has_move /\
  folder_wide_expunge o = negb has_move && negb has_uidplus /\
  map old_uid (results o) = uids.

(** A success is true of the copies; that the originals have left needs a MOVE,
    or that no refusal of the fallback's streamed commands goes unheard. *)
Definition move_post (r : result ImapError MoveOutcome) (w : mailbox) : Prop :=
  nothing_lost w /\ (caps = Unknown -> untouched w) /\
  match r with
  | Ok o => exists has_move has_uidplus, caps = Known has_move has_uidplus /\
      outcome_ok has_move has_uidplus o /\ has_copies w /\
      (has_move = true \/ all_heard unheard -> moved (folder_wide_expunge o) w)
  | Err _ => True
  end.

Lemma move_post_untouched e w : untouched w -> move_post (Err e) w.
Proof. intros H. split; [by apply untouched_nothing_lost|done]. Qed.

Lemma old_uid_build_results l : map old_uid (build_results l) = l.
Proof. unfold build_results. rewrite map_map. apply map_id. Qed.

Lemma fallback_triple dest has_uidplus :
  caps = Known false has_uidplus ->
  triple partial unheard untouched (copy_delete_fallback dest uids has_uidplus)
    (fun r w => nothing_lost w /\
       match r with
       | Ok (rs, _) => map old_uid rs = uids /\ has_copies w /\ (all_heard unheard -> moved (negb has_uidplus) w)
       | Err _ => True
       end).
Proof.
  intros Hcaps. unfold copy_delete_fallback. apply triple_check.
  2:{ intros e w _ Hw. split; [by apply untouched_nothing_lost|done]. }
  intros _ _.
  apply (triple_bind _ _ _ _ _ (fun r w => match r with Ok _ => copied_all w | _ => nothing_lost w end)).
  { apply triple_send; [intros w ? ?; apply copy_effect_ok|intros w ?; apply copy_effect_failed]. }
  2:{ by split. }
  intros _.
  apply (triple_bind _ _ _ _ _ (fun _ => copied_all)); [apply triple_status; auto| |].
  2:{ intros e w Hw. split; [by apply copied_all_nothing_lost|done]. }
  intros uv.
  apply (triple_bind _ _ _ _ _ (fun r w => match r with Ok _ => marking_all w | _ => nothing_lost w end)).
  { apply triple_store; [done| | |].
    - intros _ w. apply copied_all_nothing_lost.
    - intros s w _ Hs [Hw _]. by apply mark_effect.
    - intros s w _ Hs [Hw Hc]. split; [by apply mark_effect|done]. }
  2:{ by split. }
  intros _.
  apply (triple_bind _ _ _ _ _ (fun r w => nothing_lost w /\ match r with
    | Ok _ => has_copies w /\ (all_heard unheard -> moved (negb has_uidplus) w) | _ => True end)).
  { apply triple_expunge; intros w.
    - intros _ Hw. split; [by apply (expunge_effect_safe has_uidplus false)|done].
    - intros Hw. match goal with |- context [negb (unheard ?c)] =>
        destruct (expunge_effect_safe has_uidplus (negb (unheard c)) w Hcaps Hw) as (Hl & Hc & Hm) end.
      split; [exact Hl|]. split; [exact Hc|]. intros Hh. rewrite Hh. apply Hm. by apply Hw. }
  2:{ intros e w [Hl _]. by split. }
  intros []. apply triple_ret. intros w [Hl Hw]. split; [exact Hl|]. split; [by rewrite old_uid_build_results|exact Hw].
Qed.

Lemma move_triple src dest expected :
  triple partial unheard untouched (connection_move caps src dest uids expected) move_post.
Proof.
  apply (triple_bind _ _ _ _ _ (fun _ => untouched));
    [by apply triple_select| |apply move_post_untouched].
  intros uv. unfold move_messages. apply triple_check; [|intros; by apply move_post_untouched].
  intros _ _. case_goal; [by apply triple_lift; apply move_post_untouched|].
  clear E. apply triple_nonempty; [done|].
  apply triple_check; [|intros; by apply move_post_untouched].
  intros [has_move has_uidplus] Hreq.
  assert (Hcaps : caps = Known has_move has_uidplus)
    by (clear - Hreq; destruct caps; cbn in Hreq; congruence).
  apply (triple_bind _ _ _ _ _ (fun _ => untouched));
    [by apply triple_source_guard| |apply move_post_untouched].
  intros suv. destruct has_move; cbn [negb].
  - apply (triple_bind _ _ _ _ _ (fun r w => match r with
      | Ok _ => moved false w | _ => nothing_lost w end)).
    + apply triple_send; [intros w ? ?; apply move_effect_ok|intros w ?; apply move_effect_partial].
    + intros _. apply triple_ret. intros w Hw. split; [by apply (moved_nothing_lost false)|].
      split; [congruence|]. exists true, has_uidplus. split; [done|].
      split; [split; [done|]; split; [done|]; apply old_uid_build_results|]. split; [exact (proj2 Hw)|]. done.
    + intros e w Hw. split; [done|]. split; [congruence|done].
  - eapply triple_bind; [by apply fallback_triple| |].
    + intros [rs duv]. apply triple_ret. intros w (Hl & Hr & Hm). split; [done|].
      split; [congruence|]. exists false, has_uidplus. split; [done|]. split; [done|]. split; [apply Hm|].
      intros [?|Hh]; [done|]. by apply Hm.
    + intros e w [Hl _]. split; [done|]. split; [congruence|done].
Qed.
End move.

(** A move never loses mail.  Whatever the server answers, and wherever
    the conversation stops, a message of the source folder is still there or
    has a copy, unless it was not named, was already marked \Deleted and the
    server advertised neither MOVE nor UIDPLUS.  Without a capability
    advertisement nothing is changed.  When the call succeeds, every named
    message has a copy, the outcome says truly whether the fallback ran and
    whether it swept the folder, and reports each UID in order; and exactly the
    named messages have left if the server has MOVE, or if no refusal of the
    fallback's STORE or EXPUNGE goes unheard. *)
Theorem move_effect partial unheard caps src dest uids expected box rs :
  uids <> [] -> Forall (fun v => 0 <= v) uids ->
  let x := connection_move caps src dest uids expected rs in
  move_post unheard caps uids box (answered x) (replay partial unheard (sent x) rs (mkMailbox box ∅)).
Proof.
  intros Hne Hpos.
  pose proof (move_triple partial unheard caps uids box Hne Hpos src dest expected rs _ eq_refl) as H.
  destruct (connection_move _ _ _ _ _ rs) as [[cs rs'] r]. apply H.
Qed.

Definition sample_box : gmap Z bool := {[1 := true; 2 := false; 4 := false; 7 := false]}.

Definition sample_move : list command * list reply * result ImapError MoveOutcome :=
  connection_move (Known false false) (lit "INBOX") (lit "Archive") [4; 2] (Some 9)
    (repeat (ReplyOk (Some 9) []) 6).

(** A server with neither extension: UID 1 goes with the requested two. *)
Lemma move_effect_witness :
  let w := replay (fun _ _ => false) (fun _ => false) (sent sample_move) (repeat (ReplyOk (Some 9) []) 6)
             (mkMailbox sample_box ∅) in
  move_post (fun _ => false) (Known false false) [4; 2] sample_box (answered sample_move) w /\
  source w = {[7 := false]} /\ is_ok (answered sample_move) = true.
Proof.
  intros w. split; [|split; reflexivity].
  refine (move_effect (fun _ _ => false) (fun _ => false) (Known false false) (lit "INBOX") (lit "Archive") [4; 2]
    (Some 9) sample_box (repeat (ReplyOk (Some 9) []) 6) _ _); [discriminate|].
  apply List.Forall_cons; [lia|]. apply List.Forall_cons; [lia|constructor].
Defined.

(** A refusal of the fallback's EXPUNGE that goes unheard: the call succeeds and
    the message has its copy, but is still in the folder, marked. *)
Example unheard_refusal :
  let w := replay (fun _ _ => false) (fun c => match c with CUidExpunge _ => true | _ => false end)
             (sent (connection_move (Known false true) (lit "INBOX") (lit "Archive") [2] None (repeat (ReplyOk (Some 9) []) 6)))
             (repeat (ReplyOk (Some 9) []) 6) (mkMailbox sample_box ∅) in
  source w !! 2 = Some true /\ 2 ∈ copied w.
Proof. split; [reflexivity|]. apply (bool_decide_unpack _). vm_compute. exact I. Qed.

(** ** DELETE *)

Definition delete_post (unheard : command -> bool) (caps : ServerCapabilities) (uid : Z) (same : bool) (box : gmap Z bool)
    (r : result ImapError (DeleteResult * option Z)) (w : mailbox) : Prop :=
  nothing_lost caps [uid] box w /\
  (caps = Unknown -> same = false -> untouched box w) /\
  match r with
  | Ok (d, _) =>
      deleted_uid d = uid /\ moved_to_trash d = negb same /\
      if moved_to_trash d then
        exists has_move has_uidplus, caps = Known has_move has_uidplus /\
          delete_used_fallback d = negb has_move /\
          delete_folder_wide d = negb has_move && negb has_uidplus /\ has_copies [uid] box w /\
          (has_move = true \/ all_heard unheard -> moved [uid] box (delete_folder_wide d) w)
      else all_heard unheard -> marked [uid] box w
  | Err _ => True
  end.

Section delete.
  Context (partial : command -> Z -> bool) (unheard : command -> bool) (caps : ServerCapabilities) (uid : Z)
    (box : gmap Z bool).
  Hypothesis Huid : 0 <= uid.

Lemma single_nonempty : [uid] <> [].
Proof. done. Qed.
Lemma single_valid : Forall (fun v => 0 <= v) [uid].
Proof. by apply Forall_singleton. Qed.
#[local] Hint Resolve single_nonempty single_valid : core.

Lemma delete_store_triple :
  triple partial unheard (untouched box) (store [uid] [Deleted] Add)
    (fun r w => nothing_lost caps [uid] box w /\ match r with Ok _ => marking unheard [uid] box w | _ => True end).
Proof.
  apply triple_store; [done| | |].
  - intros _ w Hw. split; [by apply untouched_nothing_lost|done].
  - intros s w _ Hs ->. split; [by apply mark_effect|done].
  - intros s w _ Hs -> c.
    assert (Hm : marking unheard [uid] box (effect partial c (negb (unheard c)) (mkMailbox box ∅)))
      by (by apply (mark_effect partial unheard caps [uid] box)).
    split; [by eapply marking_nothing_lost|done].
Qed.

Lemma delete_transfer_triple trash has_move has_uidplus :
  caps = Known has_move has_uidplus ->
  triple partial unheard (marking unheard [uid] box)
    (if has_move
     then _ ← send (CMove (uid_set_string [uid]) trash); mret tt
     else _ ← send (CCopy (uid_set_string [uid]) trash);
          run_expunge (uid_set_string [uid]) (expunge_strategy has_uidplus))
    (fun r w => nothing_lost caps [uid] box w /\
       match r with
       | Ok _ => has_copies [uid] box w /\
           (has_move = true \/ all_heard unheard -> moved [uid] box (negb has_move && negb has_uidplus) w)
       | _ => True
       end).
Proof.
  intros Hcaps. destruct has_move; cbn [negb andb].
  - apply (triple_bind _ _ _ _ _ (fun r w => nothing_lost caps [uid] box w /\
      match r with Ok _ => moved [uid] box false w | _ => True end)).
    + apply triple_send; intros w.
      * intros ? ? Hw. pose proof (marking_move_effect partial unheard [uid] box single_nonempty single_valid trash w Hw) as Hm.
        split; [eapply moved_nothing_lost with (wide := false)|]; eauto; done.
      * intros ? Hw. split; [by eapply marking_move_partial|done].
    + intros _. apply triple_ret. intros w [Hl Hm]. split; [done|]. split; [exact (proj2 Hm)|done].
    + done.
  - apply (triple_bind _ _ _ _ _ (fun r w => match r with
      | Ok _ => marking_all unheard [uid] box w | _ => nothing_lost caps [uid] box w end)).
    + apply triple_send; intros w.
      * intros ? ? Hw. by apply marking_copy_effect.
      * intros ? Hw. by eapply marking_copy_failed.
    + intros _. apply triple_expunge; intros w.
      * intros _ Hw. split; [by apply (expunge_effect_safe partial unheard caps [uid] box single_nonempty single_valid has_uidplus false)|done].
      * intros Hw. match goal with |- context [negb (unheard ?c)] =>
          destruct (expunge_effect_safe partial unheard caps [uid] box single_nonempty single_valid has_uidplus (negb (unheard c)) w Hcaps Hw)
            as (Hl & Hc & Hm) end.
        split; [exact Hl|]. split; [exact Hc|]. intros [?|Hh]; [done|]. rewrite Hh. apply Hm. by apply Hw.
    + by split.
Qed.

Lemma delete_post_untouched same e w : untouched box w -> delete_post unheard caps uid same box (Err e) w.
Proof. intros H. split; [by apply untouched_nothing_lost|done]. Qed.

Lemma delete_triple folder trash expected :
  triple partial unheard (untouched box) (connection_delete caps folder uid trash expected)
    (delete_post unheard caps uid (eq_ignore_ascii_case folder trash) box).
Proof.
  set (same := eq_ignore_ascii_case folder trash).
  apply (triple_bind _ _ _ _ _ (fun _ => untouched box));
    [by apply triple_select| |intros; by apply delete_post_untouched].
  intros uv. apply triple_check; [|intros; by apply delete_post_untouched]. intros _ _.
  apply (triple_bind _ _ _ _ _ (fun r w => delete_post unheard caps uid same box
    (match r with Ok d => Ok (d, uv) | Err e => Err e end) w));
    [|intros d; by apply triple_ret|done].
  apply triple_check; [|intros; by apply delete_post_untouched]. intros _ _.
  apply triple_check; [|intros; by apply delete_post_untouched]. intros _ _.
  fold same. destruct same eqn:Es; unfold delete_post.
  - eapply triple_bind; [apply delete_store_triple|..].
    + intros ?. apply triple_ret. intros w [Hl Hm]. cbn. split_and!; try done. apply Hm.
    + intros e w [Hl _]. by split_and!.
  - apply triple_check; [|intros; by apply delete_post_untouched].
    intros [has_move has_uidplus] Hreq.
    assert (Hcaps : caps = Known has_move has_uidplus)
      by (clear - Hreq; destruct caps; cbn in Hreq; congruence).
    eapply triple_bind; [apply delete_store_triple|..].
    2:{ intros e w [Hl _]. split; [done|]. split; [congruence|done]. }
    intros ?. eapply triple_bind; [eapply triple_consequence; [by apply delete_transfer_triple| |]|..].
    + by intros w [_ Hm].
    + by intros r w H.
    + intros []. apply triple_ret. intros w [Hl Hm]. split; [done|]. split; [congruence|].
      split; [done|]. split; [done|]. cbn. exists has_move, has_uidplus. auto.
    + intros e w [Hl _]. split; [done|]. split; [congruence|done].
Qed.
End delete.

(** Deleting never loses mail.  At every outcome the target is still
    there or has a copy, and any other message is untouched, unless it was
    already \Deleted and the server has neither MOVE nor UIDPLUS.  A success
    from another folder means the target has a copy, and the result says
    whether the folder was swept; the target has left if the server has MOVE or
    no refusal goes unheard.  A success in Trash means, if no refusal goes
    unheard, that it is marked and nothing moved.  An unknown advertisement
    changes nothing. *)
Theorem delete_effect partial unheard caps uid folder trash expected box rs :
  0 <= uid ->
  let x := connection_delete caps folder uid trash expected rs in
  delete_post unheard caps uid (eq_ignore_ascii_case folder trash) box (answered x)
    (replay partial unheard (sent x) rs (mkMailbox box ∅)).
Proof.
  intros Hu. pose proof (delete_triple partial unheard caps uid box Hu folder trash expected rs _ eq_refl) as H.
  destruct (connection_delete _ _ _ _ _ rs) as [[cs rs'] r]. apply H.
Qed.

(** The server supports MOVE and refuses it: UID 2 stays, marked. *)
Definition refused_move : list reply := [ReplyOk (Some 9) []; ReplyOk None []; ReplyErr (IProtocol (lit "NO"))].
Definition sample_delete : list command * list reply * result ImapError (DeleteResult * option Z) :=
  connection_delete (Known true true) (lit "INBOX") 2 (lit "Trash") (Some 9) refused_move.

Lemma delete_effect_witness :
  let w := replay (fun _ _ => false) (fun _ => false) (sent sample_delete) refused_move (mkMailbox sample_box ∅) in
  delete_post (fun _ => false) (Known true true) 2 false sample_box (answered sample_delete) w /\
  source w = {[1 := true; 2 := true; 4 := false; 7 := false]}.
Proof.
  intros w. split; [|reflexivity].
  refine (delete_effect (fun _ _ => false) (fun _ => false) (Known true true) 2 (lit "INBOX") (lit "Trash") (Some 9)
    sample_box refused_move _). lia.
Defined.

(** ** EXPUNGE and STORE *)

Lemma triple_count_deleted partial unheard P folder Q :
  (forall r w, P w -> Q r w) -> triple partial unheard P (count_deleted folder) Q.
Proof.
  intros HQ. unfold count_deleted. apply triple_check; [|auto]. intros _ _.
  apply (triple_bind _ _ _ _ _ (fun _ => P)); [by apply triple_select| |auto]. intros uv.
  apply (triple_stream partial unheard P (CSearch _) _ _ P); [done..|by auto|].
  intros found. apply triple_ret. auto.
Qed.

Definition expunge_post (unheard : command -> bool) (box : gmap Z bool) (r : result ImapError (list Z * Z)) (w : mailbox) : Prop :=
  (forall u, box !! u = Some false -> source w !! u = Some false) /\
  (forall u, source w !! u = None \/ source w !! u = box !! u) /\
  match r with
  | Ok _ => unheard CExpunge = false -> forall u, source w !! u = d ← box !! u; if d : bool then None else Some d
  | Err _ => True
  end.

Lemma expunge_post_untouched unheard box e w : untouched box w -> expunge_post unheard box (Err e) w.
Proof. intros ->. split_and!; auto. Qed.

Lemma expunge_triple partial unheard box folder :
  triple partial unheard (untouched box) (connection_expunge folder) (expunge_post unheard box).
Proof.
  apply (triple_bind _ _ _ _ _ (fun _ => untouched box));
    [by apply triple_count_deleted| |intros; by apply expunge_post_untouched].
  intros uids. apply (triple_bind _ _ _ _ _ (fun _ => untouched box));
    [by apply triple_select| |intros; by apply expunge_post_untouched].
  intros uv. apply (triple_bind _ _ _ _ _ (fun r w => expunge_post unheard box
    (match r with Ok n => Ok (uids, n) | Err e => Err e end) w));
    [|intros n; by apply triple_ret|done].
  assert (Hl : forall done u, source (effect partial CExpunge done (mkMailbox box ∅)) !! u =
    d ← box !! u; if negb (d && (done || partial CExpunge u)) then Some d else None) by (intros done u; apply lookup_keep).
  assert (Hsafe : forall done, (forall u, box !! u = Some false -> source (effect partial CExpunge done (mkMailbox box ∅)) !! u = Some false) /\
    (forall u, source (effect partial CExpunge done (mkMailbox box ∅)) !! u = None \/ source (effect partial CExpunge done (mkMailbox box ∅)) !! u = box !! u)).
  { intros done. split; intros u; rewrite Hl; [by intros ->|]. destruct (box !! u) as [d|]; cbn; [|by left]. case_goal; auto. }
  apply triple_stream with (R := fun w => w = effect partial CExpunge (negb (unheard CExpunge)) (mkMailbox box ∅)).
  - done.
  - by intros w ->.
  - intros w e ->. destruct (Hsafe false). by split_and!.
  - intros seen. apply triple_ret. intros w ->. destruct (Hsafe (negb (unheard CExpunge))). split_and!; [done..|].
    intros Hu u. rewrite Hl, Hu. by destruct (box !! u) as [[]|].
Qed.

(** Expunging removes nothing but \Deleted messages, whatever happens,
    and removes all of them when it succeeds and a refusal is not unheard. *)
Theorem expunge_effect partial unheard folder box rs :
  let x := connection_expunge folder rs in
  expunge_post unheard box (answered x) (replay partial unheard (sent x) rs (mkMailbox box ∅)).
Proof.
  pose proof (expunge_triple partial unheard box folder rs _ eq_refl) as H.
  destruct (connection_expunge _ rs) as [[cs rs'] r]. apply H.
Qed.

(** What a flag may look like on the wire. *)
Definition flag_char (c : Z) : bool :=
  negb (is_ascii_control c) && negb (existsb (Z.eqb c) [40; 41; 123; 32; 37; 42; 34; 93; 91]).

Lemma keyword_bytes_ok bs : validate_keyword_bytes bs = Ok tt ->
  Forall (fun b => is_ascii_control b = false /\ atom_special b = false) bs.
Proof.
  induction bs as [|b bs IH]; cbn [validate_keyword_bytes]; [constructor|].
  destruct (_ || _) eqn:E1; [done|]. destruct (atom_special b) eqn:E2; [done|].
  intros H. constructor; auto.
Qed.

Lemma keyword_chars k c :
  validate_keyword k = Ok tt -> c ∈ k -> flag_char c = true /\ c <> 92.
Proof.
  intros Hk Hc. destruct k as [|c0 k]; [done|]. apply keyword_bytes_ok in Hk.
  rewrite Forall_forall in Hk.
  destruct (decide (c < 128)) as [Hlt|Hge].
  - destruct (Hk c (ascii_char_byte _ _ Hc Hlt)) as [Hctl Hsp].
    unfold atom_special in Hsp. cbn [existsb] in Hsp.
    repeat (apply orb_false_iff in Hsp as [? Hsp]). unfold flag_char. rewrite Hctl. cbn [existsb].
    split; [by repeat match goal with H : (c =? _) = false |- _ => rewrite H; clear H end|].
    by apply Z.eqb_neq.
  - assert (He : forall n, n < 128 -> (c =? n) = false) by (intros; apply Z.eqb_neq; lia).
    unfold flag_char, is_ascii_control, between. cbn. rewrite !He by lia.
    replace (c <=? 31) with false by (symmetry; apply Z.leb_gt; lia).
    rewrite andb_false_r. split; [done|lia].
Qed.

Lemma flag_atom_chars f a : flag_atom f = Ok a ->
  Forall (fun c => flag_char c = true) a /\ (a = lit "\Deleted" <-> f = Deleted).
Proof.
  assert (Hlit : forall s, forallb flag_char s = true -> Forall (fun c => flag_char c = true) s)
    by (intros s Hs; apply List.Forall_forall, forallb_forall, Hs).
  destruct f as [| | | | | |k]; cbn;
    try (intros [= <-]; split; [by apply Hlit|split; first [done|by intros [=]]]).
  destruct (validate_keyword k) as [[]|] eqn:E; cbn; [|done]. intros [= <-]. split.
  - apply Forall_forall. intros c Hc. by apply (keyword_chars k).
  - split; [|done]. intros ->. destruct (keyword_chars _ 92 E) as [_ H]; [by left|done].
Qed.

Lemma flag_atoms_ok fs atoms : flag_atoms fs = Ok atoms ->
  Forall (Forall (fun c => flag_char c = true)) atoms /\ (lit "\Deleted" ∈ atoms <-> Deleted ∈ fs).
Proof.
  revert atoms. induction fs as [|f fs IH]; intros atoms; cbn.
  - intros [= <-]. split; [constructor|]. by rewrite !elem_of_nil.
  - destruct (flag_atom f) as [a|] eqn:Ea; cbn; [|done].
    destruct (flag_atoms fs) as [rest|]; cbn; [|done]. intros [= <-].
    destruct (IH rest eq_refl) as [H1 H2], (flag_atom_chars f a Ea) as [H3 H4].
    split; [by constructor|]. rewrite !elem_of_cons, H2. naive_solver.
Qed.

Lemma flag_char_not_space c : flag_char c = true -> c <> 32 /\ c <> 41.
Proof. intros H. split; intros ->; vm_compute in H; done. Qed.

Lemma flags_string_ok fs s : flags_string fs = Ok s ->
  Forall (fun c => flag_char c = true \/ c = 32) s /\
  (lit "\Deleted" ∈ split_on 32 s <-> Deleted ∈ fs).
Proof.
  unfold flags_string. destruct (flag_atoms fs) as [atoms|] eqn:E; cbn; [|done]. intros [= <-].
  destruct (flag_atoms_ok fs atoms E) as [Hc Hd]. split.
  - clear Hd E. induction Hc as [|a atoms Ha _ IH]; [constructor|].
    assert (Forall (fun c => flag_char c = true \/ c = 32) a)
      by (eapply Forall_impl; [exact Ha|]; auto).
    destruct atoms as [|b atoms]; [done|]. rewrite join_cons by done.
    apply Forall_app. split; [done|]. apply (Forall_cons_2 _ 32); auto.
  - destruct atoms as [|a atoms].
    { cbn. rewrite <- Hd, elem_of_nil, list_elem_of_singleton. by split. }
    change (lit " ") with [32]. rewrite split_join; [done..|].
    eapply Forall_impl; [exact Hc|]. intros b Hb Hin. rewrite Forall_forall in Hb.
    by destruct (flag_char_not_space 32 (Hb 32 Hin)).
Qed.

Lemma strip_suffix_app p s : strip_suffix p (s ++ p) = Some s.
Proof.
  unfold strip_suffix. rewrite rev_app_distr, strip_prefix_app. by rewrite rev_involutive.
Qed.

(** What a STORE of these flags makes of a message's \Deleted flag. *)
Definition new_flag (flags : list Flag) (action : FlagAction) (d : bool) : bool :=
  if bool_decide (Deleted ∈ flags) then match action with Add => true | Remove => false end else d.

Lemma store_flag_query fs action s d : flags_string fs = Ok s ->
  store_flag (store_query action s) d = new_flag fs action d.
Proof.
  intros Hs. destruct (flags_string_ok fs s Hs) as [_ Hd]. unfold store_flag, new_flag, names_deleted.
  destruct action; unfold store_query.
  - rewrite strip_prefix_app, strip_suffix_app.
    change (strip_prefix (lit "-FLAGS (") _) with (@None rstr).
    rewrite (bool_decide_ext _ _ Hd). by case_bool_decide.
  - change (strip_prefix (lit "+FLAGS (") (lit "-FLAGS (" ++ s ++ lit ")")) with (@None rstr).
    rewrite strip_prefix_app, strip_suffix_app, (bool_decide_ext _ _ Hd). by case_bool_decide.
Qed.

Definition store_post (unheard : command -> bool) (uids : list Z) (flags : list Flag) (action : FlagAction) (box : gmap Z bool)
    (r : result ImapError (list Z * option Z)) (w : mailbox) : Prop :=
  (forall u, source w !! u = box !! u \/
     u ∈ uids /\ source w !! u = new_flag flags action <$> box !! u) /\
  match r with
  | Ok _ => all_heard unheard -> forall u, source w !! u =
      if bool_decide (u ∈ uids) then new_flag flags action <$> box !! u else box !! u
  | Err _ => True
  end.

Lemma store_post_untouched unheard uids flags action box e w :
  untouched box w -> store_post unheard uids flags action box (Err e) w.
Proof. intros ->. split; auto. Qed.

Lemma store_triple partial unheard uids flags action box folder expected :
  uids <> [] -> Forall (fun v => 0 <= v) uids ->
  triple partial unheard (untouched box) (connection_store folder uids flags action expected)
    (store_post unheard uids flags action box).
Proof.
  intros Hne Hpos.
  apply (triple_bind _ _ _ _ _ (fun _ => untouched box));
    [by apply triple_select| |intros; by apply store_post_untouched].
  intros uv. apply triple_check; [|intros; by apply store_post_untouched]. intros _ _.
  apply (triple_bind _ _ _ _ _ (fun r w => store_post unheard uids flags action box
    (match r with Ok n => Ok (n, uv) | Err e => Err e end) w));
    [|intros n; by apply triple_ret|done].
  assert (Hl : forall s done u, flags_string flags = Ok s ->
    source (effect partial (CStore (uid_set_string uids) (store_query action s)) done
      (mkMailbox box ∅)) !! u =
    if bool_decide (u ∈ uids) && (done || partial (CStore (uid_set_string uids) (store_query action s)) u)
    then new_flag flags action <$> box !! u else box !! u).
  { intros s done u Hs. cbn. rewrite map_lookup_imap, in_set_uids by done.
    destruct (box !! u) as [d|]; cbn; [|by case_goal].
    rewrite (store_flag_query flags) by done. by case_goal. }
  apply triple_store; [done| | |].
  - intros. by apply store_post_untouched.
  - intros s w e Hs ->. split; [|done]. intros u. rewrite Hl by done.
    case_bool_decide; cbn [andb]; [|by left]. case_goal; auto.
  - intros s w a Hs -> c. split.
    + intros u. unfold c. rewrite Hl by done. case_bool_decide; cbn [andb]; [|by left]. case_goal; auto.
    + intros Hh u. unfold c. rewrite Hl, Hh, orb_true_l, andb_true_r by done. done.
Qed.

(** Storing flags changes what was asked and nothing else.  A success
    sets or clears \Deleted on exactly the named messages (unless a refusal
    went unheard), and only if that flag is in the list, whatever the keywords
    say; a failure may have done so for some of them.  No message is removed. *)
Theorem store_effect partial unheard uids flags action box folder expected rs :
  uids <> [] -> Forall (fun v => 0 <= v) uids ->
  let x := connection_store folder uids flags action expected rs in
  store_post unheard uids flags action box (answered x) (replay partial unheard (sent x) rs (mkMailbox box ∅)).
Proof.
  intros Hne Hpos.
  pose proof (store_triple partial unheard uids flags action box folder expected Hne Hpos rs _ eq_refl) as H.
  destruct (connection_store _ _ _ _ _ rs) as [[cs rs'] r]. apply H.
Qed.

Definition sample_store : list command * list reply * result ImapError (list Z * option Z) :=
  connection_store (lit "INBOX") [4; 1] [Keyword (lit "Todo"); Deleted] Remove None
    (repeat (ReplyOk (Some 9) []) 2).

Lemma store_effect_witness :
  let w := replay (fun _ _ => false) (fun _ => false) (sent sample_store) (repeat (ReplyOk (Some 9) []) 2)
             (mkMailbox sample_box ∅) in
  store_post (fun _ => false) [4; 1] [Keyword (lit "Todo"); Deleted] Remove sample_box (answered sample_store) w /\
  source w = {[1 := false; 2 := false; 4 := false; 7 := false]}.
Proof.
  intros w. split; [|reflexivity].
  refine (store_effect (fun _ _ => false) (fun _ => false) [4; 1] [Keyword (lit "Todo"); Deleted] Remove sample_box
    (lit "INBOX") None (repeat (ReplyOk (Some 9) []) 2) _ _); [discriminate|].
  apply List.Forall_cons; [lia|]. apply List.Forall_cons; [lia|constructor].
Defined.

(** ** No command injection *)

Definition no_control (s : rstr) : Prop := Forall (fun c => is_ascii_control c = false) s.
Definition set_char (c : Z) : bool := is_ascii_digit c || (c =? 44).
Definition query_char (c : Z) : bool := flag_char c || existsb (Z.eqb c) [32; 40; 41].

Definition safe_command (c : command) : Prop :=
  match c with
  | CSelect f _ | CStatus f _ => no_control f
  | CSearch _ | CExpunge => True
  | CStore set query =>
      Forall (fun c => set_char c = true) set /\ Forall (fun c => query_char c = true) query
  | CCopy set f | CMove set f => Forall (fun c => set_char c = true) set /\ no_control f
  | CUidExpunge set => Forall (fun c => set_char c = true) set
  end.

Definition sends_safe {A} (m : conv A) : Prop := forall rs, Forall safe_command (sent (m rs)).

Lemma safe_bind {A B} (m : conv A) (f : A -> conv B) :
  sends_safe m -> (forall a, sends_safe (f a)) -> sends_safe (m ≫= f).
Proof.
  intros Hm Hf rs. unfold mbind, conv_bind. specialize (Hm rs).
  destruct (m rs) as [[cs rs1] [a|e]]; [|done]. specialize (Hf a rs1).
  destruct (f a rs1) as [[cs' rs2] r]. by apply Forall_app.
Qed.
Lemma safe_check {A B} (r : result ImapError A) (f : A -> conv B) :
  (forall a, r = Ok a -> sends_safe (f a)) -> sends_safe (lift r ≫= f).
Proof.
  intros Hf rs. destruct r as [a|e]; [|constructor]. specialize (Hf a eq_refl rs).
  unfold mbind, conv_bind, lift. by destruct (f a rs) as [[cs' rs2] r].
Qed.
Lemma safe_ret {A} (a : A) : sends_safe (mret a).
Proof. intros rs. constructor. Qed.
Lemma safe_lift {A} (r : result ImapError A) : sends_safe (lift r).
Proof. intros rs. constructor. Qed.
Lemma safe_send c : safe_command c -> sends_safe (send c).
Proof. intros Hc rs. unfold send. destruct rs as [|[e|uv items] rs]; repeat constructor; done. Qed.

Lemma control_is_byte (s : rstr) :
  (forall b, b ∈ str_bytes s -> is_ascii_control b = false) -> no_control s.
Proof.
  intros H. apply Forall_forall. intros c Hc. destruct (decide (c < 128)).
  - by apply H, ascii_char_byte.
  - unfold is_ascii_control, between. apply orb_false_iff. rewrite andb_false_iff.
    rewrite !Z.leb_gt, Z.eqb_neq. lia.
Qed.

Lemma server_bytes_ok i bs b : validate_server_bytes i bs = Ok tt -> b ∈ bs -> is_ascii_control b = false.
Proof.
  revert i. induction bs as [|a bs IH]; intros i; cbn; [by rewrite elem_of_nil|].
  destruct (_ || _) eqn:E; [done|]. intros H [->|Hb]%elem_of_cons; [|by eapply IH].
  zify_bool. unfold is_ascii_control, between. apply orb_false_iff.
  rewrite andb_false_iff, !Z.leb_gt, Z.eqb_neq. lia.
Qed.

Lemma check_bytes_control bs b : check_bytes bs = Ok tt -> b ∈ bs -> is_ascii_control b = false.
Proof.
  induction bs as [|a bs IH]; cbn; [by rewrite elem_of_nil|].
  destruct (a =? 0) eqn:E0; [done|]. destruct (_ || _) eqn:E; [done|].
  intros H [->|Hb]%elem_of_cons; [|by eapply IH].
  unfold is_ascii_control, between in *. zify_bool. apply orb_false_iff.
  rewrite andb_false_iff in *. rewrite !Z.leb_gt, Z.eqb_neq in *. lia.
Qed.

Lemma server_name_ok f a : validate_server_folder_name f = Ok a -> no_control f.
Proof. destruct a. intros H. apply control_is_byte. intros b. by eapply server_bytes_ok. Qed.

Lemma folder_name_ok f a : validate_folder_name f = Ok a -> no_control f.
Proof.
  unfold validate_folder_name, folder_name_new. destruct (validate f) as [[]|] eqn:E; [|done].
  intros _. apply validate_checks in E as (_ & _ & Hb & _). apply control_is_byte. intros b.
  apply check_bytes_control. by destruct (check_bytes _) as [[]|].
Qed.

Lemma uid_set_chars uids : Forall (fun v => 0 <= v) uids ->
  Forall (fun c => set_char c = true) (uid_set_string uids).
Proof.
  unfold uid_set_string. induction 1 as [|u uids Hu _ IH]; [constructor|]. cbn [map].
  assert (Forall (fun c => set_char c = true) (to_decimal u)).
  { destruct (to_decimal_spec u Hu) as (_ & Hd & _). eapply Forall_impl; [exact Hd|].
    intros c Hc. unfold set_char. by rewrite Hc. }
  destruct uids as [|v uids]; [done|]. cbn [map] in *. rewrite join_cons by done.
  apply Forall_app. split; [done|]. by apply (Forall_cons_2 _ 44).
Qed.

Lemma store_query_chars action fs s : flags_string fs = Ok s ->
  Forall (fun c => query_char c = true) (store_query action s).
Proof.
  intros Hs. destruct (flags_string_ok fs s Hs) as [Hc _].
  assert (Hq : Forall (fun c => query_char c = true) s).
  { eapply Forall_impl; [exact Hc|]. unfold query_char. intros c [->| ->]; done. }
  destruct action; unfold store_query; repeat (apply Forall_app; split); try done;
    repeat (apply List.Forall_cons; [reflexivity|]); constructor.
Qed.

Section safe.
  Context (uids : list Z).
  Hypothesis Hpos : Forall (fun v => 0 <= v) uids.

Lemma safe_select f ro : sends_safe (select f ro).
Proof.
  apply safe_check. intros ? Hf. apply safe_bind; [by eapply safe_send, server_name_ok|].
  intros [uv items]. apply safe_ret.
Qed.
Lemma safe_status f : sends_safe (status_uidvalidity f).
Proof.
  apply safe_check. intros ? Hf. apply safe_bind; [by eapply safe_send, server_name_ok|].
  intros [uv items]. apply safe_ret.
Qed.
Lemma safe_stream {B} c (f : list (option Z) -> conv B) : safe_command c ->
  (forall seen, sends_safe (f seen)) ->
  sends_safe (x ← send c; let '(_, items) := x in seen ← lift (drain items); f seen).
Proof.
  intros Hc Hf. apply safe_bind; [by apply safe_send|]. intros [uv items].
  apply safe_check. auto.
Qed.
Lemma safe_store flags action : sends_safe (store uids flags action).
Proof.
  unfold store. case_goal; [apply safe_lift|]. destruct uids as [|u l] eqn:Eu; [apply safe_ret|].
  apply safe_check. intros s Hs. apply safe_stream; [|intros; apply safe_ret]. rewrite <- Eu in *.
  split; [by apply uid_set_chars|by apply (store_query_chars action flags)].
Qed.
Lemma safe_expunge strategy : sends_safe (run_expunge (uid_set_string uids) strategy).
Proof.
  apply safe_stream; [|intros; apply safe_ret]. destruct strategy; [by apply uid_set_chars|done].
Qed.
Lemma safe_source_guard f expected : sends_safe (source_guard f expected).
Proof.
  unfold source_guard. destruct expected; [|apply safe_ret]. apply safe_bind; [apply safe_status|].
  intros [a|]; [case_goal; [apply safe_lift|apply safe_ret]|apply safe_ret].
Qed.
End safe.
#[local] Hint Resolve safe_select safe_status safe_store safe_expunge safe_source_guard safe_ret
  safe_lift safe_send uid_set_chars : imap.

Lemma safe_move caps src dest uids expected : Forall (fun v => 0 <= v) uids ->
  sends_safe (connection_move caps src dest uids expected).
Proof.
  intros Hpos. apply safe_bind; [auto with imap|]. intros uv.
  unfold move_messages. apply safe_check. intros ? Hd. case_goal; [auto with imap|].
  destruct uids as [|u l] eqn:Eu; [auto with imap|]. rewrite <- Eu in *. apply safe_check.
  intros [hm hu] _. apply safe_bind; [auto with imap|]. intros suv.
  assert (Hset : Forall (fun c => set_char c = true) (uid_set_string uids)) by auto with imap.
  apply server_name_ok in Hd as Hf. destruct hm; cbn [negb].
  - apply safe_bind; [by apply safe_send|]. auto with imap.
  - apply safe_bind; [|intros []; auto with imap]. unfold copy_delete_fallback.
    apply safe_check. intros _ _. apply safe_bind; [by apply safe_send|]. intros _.
    repeat (apply safe_bind; [auto with imap|intros ?]). auto with imap.
Qed.

Lemma safe_delete caps folder uid trash expected : 0 <= uid ->
  sends_safe (connection_delete caps folder uid trash expected).
Proof.
  intros Hu. assert (Hpos : Forall (fun v => 0 <= v) [uid]) by by apply Forall_singleton.
  apply safe_bind; [auto with imap|]. intros uv. apply safe_check. intros _ _.
  apply safe_bind; [|auto with imap]. unfold delete_message. apply safe_check. intros _ _.
  apply safe_check. intros ? Ht%folder_name_ok. case_goal.
  - apply safe_bind; auto with imap.
  - apply safe_check. intros [hm hu] _. apply safe_bind; [auto with imap|]. intros ?.
    assert (Hset : Forall (fun c => set_char c = true) (uid_set_string [uid])) by auto with imap.
    apply safe_bind; [|auto with imap].
    destruct hm; (apply safe_bind; [by apply safe_send|auto with imap]).
Qed.

Lemma safe_store_flags folder uids flags action expected : Forall (fun v => 0 <= v) uids ->
  sends_safe (connection_store folder uids flags action expected).
Proof.
  intros Hpos. apply safe_bind; [auto with imap|]. intros uv. apply safe_check. intros _ _.
  apply safe_bind; auto with imap.
Qed.

Lemma safe_expunge_folder folder : sends_safe (connection_expunge folder).
Proof.
  apply safe_bind.
  { apply safe_check. intros _ _. apply safe_bind; [auto with imap|]. intros uv.
    apply safe_stream; [done|auto with imap]. }
  intros uids. apply safe_bind; [auto with imap|]. intros uv.
  apply safe_bind; [|auto with imap]. apply safe_stream; [done|auto with imap].
Qed.

(** C11: no argument can smuggle a second IMAP command.  Whatever folder
    names, UIDs and keywords a caller passes, and whatever the server
    answers, every command the four mutating conversations send names only
    folders without control characters, sets of digits and commas, and flag
    lists without control characters, quotes, literals, or list wildcards. *)
Theorem no_command_injection caps folder dest uids uid flags action expected rs :
  Forall (fun v => 0 <= v) uids -> 0 <= uid ->
  Forall safe_command (sent (connection_store folder uids flags action expected rs)) /\
  Forall safe_command (sent (connection_move caps folder dest uids expected rs)) /\
  Forall safe_command (sent (connection_delete caps folder uid dest expected rs)) /\
  Forall safe_command (sent (connection_expunge folder rs)).
Proof.
  intros Hpos Hu. split; [by apply safe_store_flags|]. split; [by apply safe_move|].
  split; [by apply safe_delete|apply safe_expunge_folder].
Qed.

(** A keyword that tries to end the STORE and start another command. *)
Definition smuggled : Flag := Keyword (lit "x)" ++ [13; 10] ++ lit "a EXPUNGE").

Lemma no_command_injection_witness :
  Forall safe_command (sent (connection_store (lit "INBOX") [3] [smuggled] Add None
    (repeat (ReplyOk None []) 3))) /\
  sent (connection_store (lit "INBOX") [3] [smuggled] Add None (repeat (ReplyOk None []) 3)) =
    [CSelect (lit "INBOX") false].
Proof.
  split; [|reflexivity].
  refine (proj1 (no_command_injection Unknown (lit "INBOX") [] [3] 3 [smuggled] Add None
    (repeat (ReplyOk None []) 3) _ _)); [|lia].
  apply List.Forall_cons; [lia|constructor].
Defined.

(** Keywords outside ASCII pass the check that is documented to admit only
    IMAP atom characters. *)
Lemma non_ascii_keyword : validate_keyword [0xE9] = Ok tt.
Proof. reflexivity. Qed.
