(* ===== verification/Validation.v ===== *)
(** * Input validation shared by the tools
    (crates/rimap-server/src/tools/validation.rs) *)

From Stdlib Require Import ZArith Lia.
From stdpp Require Import base option list numbers strings sets.
From S2P Require Import Prelude RustStr Errors Names.
Local Open Scope Z_scope.

(* [crates/rimap-server/src/tools/validation.rs:24-27] validate_folder_input *)
Definition validate_folder_input (label name : rstr) : result RimapError unit :=
  match folder_name_new name with
  | Ok _ => Ok tt
  | Err e => Err (invalid_input (label ++ lit ": invalid folder name: " ++ e))
  end.

(* [crates/rimap-server/src/tools/validation.rs:32-32] MAX_INCLUDE_HEADERS *)
Definition MAX_INCLUDE_HEADERS : Z := 16.

(** How Rust's [{:?}] prints a string depends on Unicode tables. *)
Section headers.
Context (debug_string : rstr -> rstr).

(* [crates/rimap-server/src/tools/validation.rs:71-86] validate_header_name *)
Definition validate_header_name (name : rstr) : result RimapError unit :=
  match name with
  | [] => Err (invalid_input (lit "include_headers: header name must not be empty"))
  | _ =>
      if existsb (fun byte => negb (between 33 126 byte) || (byte =? 58)) (str_bytes name)
      then Err (invalid_input (lit "include_headers: invalid header name " ++ debug_string name ++
        lit " (RFC 5322 field names are printable ASCII without ':' or spaces)"))
      else Ok tt
  end.

(* [crates/rimap-server/src/tools/validation.rs:55-65] validate_include_headers *)
Fixpoint keep_headers (seen_lower : list rstr) (names : list rstr) : result RimapError (list rstr) :=
  match names with
  | [] => Ok []
  | name :: names =>
      _ ← validate_header_name name;
      let lower := to_ascii_lowercase name in
      if bool_decide (lower ∈ seen_lower) then keep_headers seen_lower names
      else rest ← keep_headers (seen_lower ++ [lower]) names; Ok (name :: rest)
  end.

(* [crates/rimap-server/src/tools/validation.rs:46-67] validate_include_headers *)
Definition validate_include_headers (names : list rstr) : result RimapError (list rstr) :=
  if MAX_INCLUDE_HEADERS <? Z.of_nat (length names)
  then Err (invalid_input (lit "include_headers: at most " ++ to_decimal MAX_INCLUDE_HEADERS ++
    lit " names allowed, got " ++ to_decimal (Z.of_nat (length names))))
  else keep_headers [] names.

(** A field name of RFC 5322. *)
Definition field_name (name : rstr) : Prop := name <> [] /\ Forall (fun c => 33 <= c <= 126 /\ c <> 58) name.

Lemma ascii_bytes s : Forall (fun c => 0 <= c < 128) s -> str_bytes s = s.
Proof.
  induction 1 as [|c s Hc _ IH]; [done|]. unfold str_bytes in *. cbn [map concat]. rewrite IH.
  unfold utf8_encode. rewrite (proj2 (Z.ltb_lt c 128)) by lia. done.
Qed.

Lemma nonascii_byte s x : Forall is_scalar s -> x ∈ s -> 128 <= x -> exists b, b ∈ str_bytes s /\ 128 <= b.
Proof.
  rewrite Forall_forall. intros Hs Hx Hge. specialize (Hs x Hx). unfold is_scalar in Hs.
  assert (exists b, b ∈ utf8_encode x /\ 128 <= b) as (b & Hb & Hb').
  { unfold utf8_encode. destruct (Z.ltb_spec x 128); [lia|].
    destruct (x <? 2048), (x <? 65536); eexists; (split; [left|]); Z.to_euclidean_division_equations; lia. }
  exists b. split; [|done]. apply list_elem_of_In, in_concat. exists (utf8_encode x).
  split; [by apply in_map, list_elem_of_In|by apply list_elem_of_In].
Qed.

Lemma header_name_ok name : Forall is_scalar name -> validate_header_name name = Ok tt <-> field_name name.
Proof.
  intros Hs. unfold field_name. destruct name as [|c name]; [cbn; naive_solver|]. unfold validate_header_name.
  destruct (existsb _ _) eqn:E.
  - split; [done|]. intros [_ Hf]. rewrite ascii_bytes in E.
    2:{ eapply Forall_impl; [exact Hf|]. cbn. lia. }
    apply existsb_exists in E as (b & Hb & Ht). apply list_elem_of_In in Hb.
    rewrite Forall_forall in Hf. specialize (Hf b Hb). unfold between in Ht. lia.
  - split; [intros _|done]. split; [done|]. apply Forall_forall. intros x Hx.
    assert (Hlt : x < 128).
    { destruct (Z.ltb_spec x 128); [done|exfalso].
      destruct (nonascii_byte (c :: name) x) as (b & Hb & Hge); [done|done|lia|].
      assert (Hbad : existsb (fun byte => negb (between 33 126 byte) || (byte =? 58)) (str_bytes (c :: name)) = true).
      { apply existsb_exists. exists b. split; [by apply list_elem_of_In|]. unfold between. lia. }
      congruence. }
    assert (H0 : 0 <= x). { rewrite Forall_forall in Hs. specialize (Hs x Hx). unfold is_scalar in Hs. lia. }
    destruct (decide (33 <= x <= 126 /\ x <> 58)) as [|Hno]; [done|exfalso].
    assert (Hb : x ∈ str_bytes (c :: name)) by by apply ascii_char_byte.
    assert (Hbad : existsb (fun byte => negb (between 33 126 byte) || (byte =? 58)) (str_bytes (c :: name)) = true).
    { apply existsb_exists. exists x. split; [by apply list_elem_of_In|]. unfold between. lia. }
    congruence.
Qed.

Lemma keep_headers_ok names : forall seen out, Forall (Forall is_scalar) names ->
  keep_headers seen names = Ok out ->
  out `sublist_of` names /\ Forall field_name names /\ NoDup (map to_ascii_lowercase out) /\
  Forall (fun n => ~ to_ascii_lowercase n ∈ seen) out /\
  (forall n, n ∈ names -> to_ascii_lowercase n ∈ seen \/ to_ascii_lowercase n ∈ map to_ascii_lowercase out).
Proof.
  induction names as [|n names IH]; intros seen out Hs; cbn [keep_headers].
  - intros [= <-]. split_and!; [done|done|constructor|done|]. intros n. by rewrite elem_of_nil.
  - apply Forall_cons in Hs as [Hn Hs]. destruct (validate_header_name n) as [[]|] eqn:Ev; cbn; [|done].
    apply (header_name_ok n Hn) in Ev. destruct (bool_decide_reflect (to_ascii_lowercase n ∈ seen)) as [Hi|Hi].
    + intros (H1 & H2 & H3 & H4 & H5)%IH; [|done]. split_and!; [by constructor|by constructor|done|done|].
      intros m [->|Hm]%elem_of_cons; [by left|by apply H5].
    + intros (rest & Hr & [= <-])%bind_ok. apply IH in Hr as (H1 & H2 & H3 & H4 & H5); [|done].
      split_and!; [by constructor|by constructor| | |].
      * cbn [map]. constructor; [|done]. intros (m & Em & Hm)%list_elem_of_fmap.
        rewrite Forall_forall in H4. apply (H4 m Hm). rewrite <- Em. set_solver.
      * constructor; [done|]. eapply Forall_impl; [exact H4|]. cbn. set_solver.
      * cbn [map]. intros m [->|Hm]%elem_of_cons; [right; left|].
        destruct (H5 m Hm) as [[?|E%list_elem_of_singleton]%elem_of_app|?]; [by left|rewrite E; right; left|right; by right].
Qed.

Lemma keep_headers_total names : forall seen, Forall (Forall is_scalar) names -> Forall field_name names ->
  is_ok (keep_headers seen names) = true.
Proof.
  induction names as [|n names IH]; intros seen Hs Hf; [done|]. cbn [keep_headers].
  apply Forall_cons in Hs as [Hn Hs], Hf as [Hfn Hf]. rewrite (proj2 (header_name_ok n Hn) Hfn). cbn.
  destruct (bool_decide _); [by apply IH|]. specialize (IH (seen ++ [to_ascii_lowercase n]) Hs Hf).
  by destruct (keep_headers _ _).
Qed.

(** The allowlist of header names a caller asks for is accepted exactly when
    it has at most 16 names and each is an RFC 5322 field name. What is kept is
    the caller's list in order with later spellings of a name removed: every
    name asked for is there in some case, none twice. *)
Theorem include_headers_spec names : Forall (Forall is_scalar) names ->
  (is_ok (validate_include_headers names) = true <-> Z.of_nat (length names) <= 16 /\ Forall field_name names) /\
  (forall out, validate_include_headers names = Ok out ->
     out `sublist_of` names /\ NoDup (map to_ascii_lowercase out) /\
     forall n, n ∈ names -> to_ascii_lowercase n ∈ map to_ascii_lowercase out).
Proof.
  intros Hs. unfold validate_include_headers, MAX_INCLUDE_HEADERS.
  destruct (Z.ltb_spec 16 (Z.of_nat (length names))).
  - split; [|done]. split; [done|lia].
  - split.
    + split; [|intros [_ Hf]; by apply keep_headers_total].
      intros Hok. split; [done|]. destruct (keep_headers [] names) as [out|] eqn:E; [|done].
      by apply keep_headers_ok in E as (_ & ? & _).
    + intros out (H1 & _ & H3 & _ & H5)%keep_headers_ok; [|done]. split_and!; [done|done|].
      intros n [?%elem_of_nil|]%H5; done.
Qed.
End headers.

Lemma include_headers_spec_witness :
  validate_include_headers id [lit "List-Id"; lit "X-A"; lit "list-ID"] = Ok [lit "List-Id"; lit "X-A"] /\
  NoDup (map to_ascii_lowercase [lit "List-Id"; lit "X-A"]).
Proof.
  assert (H : validate_include_headers id [lit "List-Id"; lit "X-A"; lit "list-ID"] = Ok [lit "List-Id"; lit "X-A"])
    by (vm_compute; reflexivity).
  split; [exact H|].
  refine (proj1 (proj2 (proj2 (include_headers_spec id _ _) _ H))).
  repeat apply Forall_cons_2; try apply Forall_nil_2; left; cbn; lia.
Defined.
