(* ===== verification/SearchKey.v ===== *)
(** * IMAP SEARCH keys (crates/rimap-imap/src/ops/search.rs)

    [structured_to_key] and [or_join] print a search key; [read_key] is the
    RFC 3501 grammar for the part of the language they use, and the theorems
    say that reading back what was printed gives the filters that were asked
    for: a value never escapes its quotes. *)

From Stdlib Require Import ZArith Lia.
From stdpp Require Import base option list strings sorting sets.
From S2P Require Import Prelude RustStr Tools Errors ImapErrors UidSet.
Local Open Scope Z_scope.

(** [time::Date]. *)
Record date := mkDate { year : Z; month : Z; day : Z }.
Definition date_valid (d : date) : Prop :=
  0 <= year d <= 9999 /\ 1 <= month d <= 12 /\ 1 <= day d <= 31.

(* [crates/rimap-imap/src/types.rs:370-393] HeaderSearch *)
Record HeaderSearch := mkHeaderSearch { header_name : rstr; header_value : rstr }.

(* [crates/rimap-imap/src/types.rs:395-441] StructuredQuery *)
Record StructuredQuery := mkStructuredQuery {
  q_from : option rstr; q_to : option rstr; q_subject : option rstr;
  q_since : option date; q_before : option date;
  q_seen : option bool; q_has_attachment : bool;
  q_cc : option rstr; q_bcc : option rstr; q_body : option rstr; q_text : option rstr;
  q_headers : option (list HeaderSearch);
  q_larger : option Z; q_smaller : option Z;
  q_sent_since : option date; q_sent_before : option date;
  q_answered : option bool; q_flagged : option bool; q_draft : option bool }.

Definition default_query : StructuredQuery :=
  mkStructuredQuery None None None None None None false None None None None None None None
    None None None None None.

(* [crates/rimap-imap/src/ops/search.rs:211-228] quote *)
Fixpoint escape (s : rstr) : rstr :=
  match s with
  | [] => []
  | c :: s' => if (c =? 92) || (c =? 34) then 92 :: c :: escape s' else c :: escape s'
  end.
(* [crates/rimap-imap/src/ops/search.rs:211-228] quote *)
Definition quote (s : rstr) : result ImapError rstr :=
  if existsb (fun b => (b =? 13) || (b =? 10) || (b =? 0)) (str_bytes s)
  then Err (IInvalidInput (lit "search string") (lit "contains forbidden control bytes (CR/LF/NUL)"))
  else Ok (34 :: escape s ++ [34]).

(* [crates/rimap-imap/src/ops/search.rs:242-258] validate_header_name *)
Definition validate_header_name (name : rstr) : result ImapError unit :=
  match name with
  | [] => Err (IInvalidInput (lit "header name") (lit "empty"))
  | _ =>
      if existsb (fun b => negb (between 33 126 b) || (b =? 58)) (str_bytes name)
      then Err (IInvalidInput (lit "header name") (lit "must be printable ASCII without ':'"))
      else Ok tt
  end.

Definition month_names : list rstr :=
  map lit ["Jan"; "Feb"; "Mar"; "Apr"; "May"; "Jun"; "Jul"; "Aug"; "Sep"; "Oct"; "Nov"; "Dec"]%string.
Definition pad2 (n : Z) : rstr := if n <? 10 then 48 :: to_decimal n else to_decimal n.
(** [{}] of an [i32]. *)
Definition show_int (n : Z) : rstr := if n <? 0 then 45 :: to_decimal (- n) else to_decimal n.

(* [crates/rimap-imap/src/ops/search.rs:260-279] format_imap_date *)
Definition format_imap_date (d : date) : rstr :=
  pad2 (day d) ++ lit "-" ++ nth (Z.to_nat (month d - 1)) month_names [] ++ lit "-" ++ show_int (year d).

(** ** Printing

    [clause] is one [if let Some(s) = ... { parts.push(...)? }]. *)

Definition clause {A} (v : option A) (show : A -> result ImapError rstr) : result ImapError (list rstr) :=
  match v with
  | Some a => s ← show a; Ok [s]
  | None => Ok []
  end.
Definition text_clause (name : rstr) (v : option rstr) : result ImapError (list rstr) :=
  clause v (fun s => t ← quote s; Ok (name ++ lit " " ++ t)).
Definition size_clause (name : rstr) (v : option Z) : result ImapError (list rstr) :=
  clause v (fun n => Ok (name ++ lit " " ++ to_decimal n)).
Definition date_clause (name : rstr) (v : option date) : result ImapError (list rstr) :=
  clause v (fun d => Ok (name ++ lit " " ++ format_imap_date d)).

(* [crates/rimap-imap/src/ops/search.rs:155-158] structured_to_key *)
Fixpoint header_clauses (hs : list HeaderSearch) : result ImapError (list rstr) :=
  match hs with
  | [] => Ok []
  | h :: hs' =>
      _ ← validate_header_name (header_name h);
      v ← quote (header_value h);
      rest ← header_clauses hs';
      Ok ((lit "HEADER " ++ header_name h ++ lit " " ++ v) :: rest)
  end.

(* [crates/rimap-imap/src/ops/search.rs:198-209] push_flag_clause *)
Definition flag_clause (v : option bool) (yes no : rstr) : result ImapError (list rstr) :=
  match v with Some true => Ok [yes] | Some false => Ok [no] | None => Ok [] end.

Fixpoint gather (rs : list (result ImapError (list rstr))) : result ImapError (list rstr) :=
  match rs with
  | [] => Ok []
  | r :: rs' => a ← r; rest ← gather rs'; Ok (a ++ rest)
  end.

(* [crates/rimap-imap/src/ops/search.rs:132-193] structured_to_key *)
Definition key_parts (q : StructuredQuery) : result ImapError (list rstr) :=
  gather [
    text_clause (lit "FROM") (q_from q);
    text_clause (lit "TO") (q_to q);
    text_clause (lit "CC") (q_cc q);
    text_clause (lit "BCC") (q_bcc q);
    text_clause (lit "SUBJECT") (q_subject q);
    text_clause (lit "BODY") (q_body q);
    text_clause (lit "TEXT") (q_text q);
    match q_headers q with Some hs => header_clauses hs | None => Ok [] end;
    size_clause (lit "LARGER") (q_larger q);
    size_clause (lit "SMALLER") (q_smaller q);
    date_clause (lit "SINCE") (q_since q);
    date_clause (lit "BEFORE") (q_before q);
    date_clause (lit "SENTSINCE") (q_sent_since q);
    date_clause (lit "SENTBEFORE") (q_sent_before q);
    flag_clause (q_seen q) (lit "SEEN") (lit "UNSEEN");
    flag_clause (q_answered q) (lit "ANSWERED") (lit "UNANSWERED");
    flag_clause (q_flagged q) (lit "FLAGGED") (lit "UNFLAGGED");
    flag_clause (q_draft q) (lit "DRAFT") (lit "UNDRAFT");
    Ok (if q_has_attachment q
        then [lit "BODY " ++ 34 :: lit "Content-Disposition: attachment" ++ [34]] else []) ].
(* [crates/rimap-imap/src/ops/search.rs:132-193] structured_to_key *)
Definition structured_to_key (q : StructuredQuery) : result ImapError rstr :=
  parts ← key_parts q;
  Ok (match parts with [] => lit "ALL" | _ => join (lit " ") parts end).

(* [crates/rimap-imap/src/ops/search.rs:121-130] or_join *)
Fixpoint or_join (clauses : list rstr) : option rstr :=
  match clauses with
  | [] => None
  | [only] => Some only
  | first :: rest => nested ← or_join rest; Some (lit "OR " ++ first ++ lit " (" ++ nested ++ lit ")")
  end.

Fixpoint ancestor_clauses (ids : list rstr) : result ImapError (list rstr) :=
  match ids with
  | [] => Ok []
  | id :: ids' =>
      v ← quote id; rest ← ancestor_clauses ids'; Ok ((lit "HEADER Message-ID " ++ v) :: rest)
  end.
(** [None] when there is nothing to search by. *)
(* [crates/rimap-imap/src/ops/search.rs:91-116] thread_related *)
Definition thread_key (own_message_id : option rstr) (ancestor_ids : list rstr)
    : result ImapError (option rstr) :=
  own ← match own_message_id with
        | Some id => v ← quote id; Ok [lit "HEADER References " ++ v; lit "HEADER In-Reply-To " ++ v]
        | None => Ok []
        end;
  ancestors ← ancestor_clauses ancestor_ids;
  Ok (or_join (own ++ ancestors)).

(** The raw set is [uid_search]'s answer, in any order and without
    repetition; zero is no UID. *)
(* [crates/rimap-imap/src/ops/search.rs:60-64] sorted_uids *)
Definition sorted_uids (raw : list Z) : list Z :=
  merge_sort Z.le (filter (fun u => u <> 0) raw).

(** ** The grammar of RFC 3501, section 6.4.4 *)

Inductive token := TAtom (s : rstr) | TQuoted (s : rstr) | TOpen | TClose.

Definition atom_char (c : Z) : bool :=
  between 33 126 c && negb (existsb (Z.eqb c) [40; 41; 123; 37; 42; 34; 92; 93]).

(** The rest of a quoted string, and what follows it. *)
Fixpoint read_quoted (s : rstr) : option (rstr * rstr) :=
  match s with
  | [] => None
  | c :: s' =>
      if c =? 34 then Some ([], s')
      else if c =? 92 then
        match s' with
        | d :: s'' => '(v, rest) ← read_quoted s''; Some (d :: v, rest)
        | [] => None
        end
      else '(v, rest) ← read_quoted s'; Some (c :: v, rest)
  end.

Fixpoint read_atom (s : rstr) : rstr * rstr :=
  match s with
  | c :: s' => if atom_char c then let '(a, rest) := read_atom s' in (c :: a, rest) else ([], s)
  | [] => ([], [])
  end.

Fixpoint lex (fuel : nat) (s : rstr) : option (list token) :=
  match fuel, s with
  | _, [] => Some []
  | O, _ => None
  | S fuel, c :: s' =>
      if c =? 32 then lex fuel s'
      else if c =? 40 then ts ← lex fuel s'; Some (TOpen :: ts)
      else if c =? 41 then ts ← lex fuel s'; Some (TClose :: ts)
      else if c =? 34 then '(v, rest) ← read_quoted s'; ts ← lex fuel rest; Some (TQuoted v :: ts)
      else match read_atom s with
           | ([], _) => None
           | (a, rest) => ts ← lex fuel rest; Some (TAtom a :: ts)
           end
  end.

Inductive search_key :=
  | KAll
  | KText (field value : rstr)
  | KHeader (name value : rstr)
  | KSize (op : rstr) (n : Z)
  | KDate (op : rstr) (d : date)
  | KFlag (name : rstr)
  | KOr (a b : search_key).

Definition one_of (names : list string) (a : rstr) : bool := existsb (fun n => str_eqb (lit n) a) names.
Definition text_field : rstr -> bool :=
  one_of ["FROM"; "TO"; "CC"; "BCC"; "SUBJECT"; "BODY"; "TEXT"]%string.
Definition date_field : rstr -> bool := one_of ["SINCE"; "BEFORE"; "SENTSINCE"; "SENTBEFORE"]%string.
Definition size_field : rstr -> bool := one_of ["LARGER"; "SMALLER"]%string.
Definition flag_field : rstr -> bool :=
  one_of ["SEEN"; "UNSEEN"; "ANSWERED"; "UNANSWERED"; "FLAGGED"; "UNFLAGGED"; "DRAFT"; "UNDRAFT"]%string.

Fixpoint month_index (names : list rstr) (i : Z) (m : rstr) : option Z :=
  match names with
  | [] => None
  | n :: names' => if str_eqb n m then Some i else month_index names' (i + 1) m
  end.

(** [date-day "-" date-month "-" date-year], the year of four digits. *)
Definition read_date (s : rstr) : option date :=
  '(d, rest) ← split_once 45 s;
  '(m, y) ← split_once 45 rest;
  d ← parse_number d; m ← month_index month_names 1 m;
  if (length y =? 4)%nat then y ← parse_number y; Some (mkDate y m d) else None.

(** The argument of a keyword. *)
Definition read_argument (a : rstr) (ts : list token) : option (search_key * list token) :=
  if text_field a then match ts with TQuoted v :: rest => Some (KText a v, rest) | _ => None end
  else if str_eqb a (lit "HEADER") then
    match ts with TAtom n :: TQuoted v :: rest => Some (KHeader n v, rest) | _ => None end
  else match ts with
  | TAtom n :: rest =>
      if size_field a then n ← parse_number n; Some (KSize a n, rest)
      else if date_field a then d ← read_date n; Some (KDate a d, rest)
      else None
  | _ => None
  end.

(** One key; of parenthesised lists, those with one member. *)
Fixpoint read_key (fuel : nat) (ts : list token) : option (search_key * list token) :=
  match fuel, ts with
  | S fuel, TOpen :: ts' =>
      '(k, rest) ← read_key fuel ts';
      match rest with TClose :: rest' => Some (k, rest') | _ => None end
  | S fuel, TAtom a :: ts' =>
      if str_eqb a (lit "ALL") then Some (KAll, ts')
      else if flag_field a then Some (KFlag a, ts')
      else if str_eqb a (lit "OR") then
        '(k1, rest) ← read_key fuel ts'; '(k2, rest') ← read_key fuel rest; Some (KOr k1 k2, rest')
      else read_argument a ts'
  | _, _ => None
  end.

Fixpoint read_keys (fuel : nat) (ts : list token) : option (list search_key) :=
  match fuel, ts with
  | _, [] => Some []
  | O, _ => None
  | S fuel, _ => '(k, rest) ← read_key (length ts) ts; ks ← read_keys fuel rest; Some (k :: ks)
  end.

(** Reading the argument of a SEARCH command. *)
Definition read_search (s : rstr) : option (list search_key) :=
  ts ← lex (length s) s; read_keys (length ts) ts.

(** The filters a query asks for. *)
Definition opt {A} (v : option A) (k : A -> search_key) : list search_key :=
  match v with Some a => [k a] | None => [] end.
Definition flag_key (v : option bool) (yes no : string) : list search_key :=
  opt v (fun b => KFlag (lit (if b : bool then yes else no))).

Definition criteria (q : StructuredQuery) : list search_key :=
  opt (q_from q) (KText (lit "FROM")) ++ opt (q_to q) (KText (lit "TO"))
  ++ opt (q_cc q) (KText (lit "CC")) ++ opt (q_bcc q) (KText (lit "BCC"))
  ++ opt (q_subject q) (KText (lit "SUBJECT")) ++ opt (q_body q) (KText (lit "BODY"))
  ++ opt (q_text q) (KText (lit "TEXT"))
  ++ match q_headers q with
     | Some hs => map (fun h => KHeader (header_name h) (header_value h)) hs
     | None => []
     end
  ++ opt (q_larger q) (KSize (lit "LARGER")) ++ opt (q_smaller q) (KSize (lit "SMALLER"))
  ++ opt (q_since q) (KDate (lit "SINCE")) ++ opt (q_before q) (KDate (lit "BEFORE"))
  ++ opt (q_sent_since q) (KDate (lit "SENTSINCE")) ++ opt (q_sent_before q) (KDate (lit "SENTBEFORE"))
  ++ flag_key (q_seen q) "SEEN" "UNSEEN" ++ flag_key (q_answered q) "ANSWERED" "UNANSWERED"
  ++ flag_key (q_flagged q) "FLAGGED" "UNFLAGGED" ++ flag_key (q_draft q) "DRAFT" "UNDRAFT"
  ++ if q_has_attachment q then [KText (lit "BODY") (lit "Content-Disposition: attachment")] else [].

(** ** Lexing what was printed *)

Definition lexes (s : rstr) (ts : list token) : Prop :=
  forall f, (length s <= f)%nat -> lex f s = Some ts.

Definition boundary (s : rstr) : Prop :=
  match s with [] => True | c :: _ => atom_char c = false end.

Lemma lexes_nil : lexes [] [].
Proof. intros [|f] _; done. Qed.

Lemma lexes_space s ts : lexes s ts -> lexes (32 :: s) ts.
Proof. intros H [|f] Hf; cbn in *; [lia|]. apply H. lia. Qed.
Lemma lexes_open s ts : lexes s ts -> lexes (40 :: s) (TOpen :: ts).
Proof. intros H [|f] Hf; cbn in *; [lia|]. by rewrite H by lia. Qed.
Lemma lexes_close s ts : lexes s ts -> lexes (41 :: s) (TClose :: ts).
Proof. intros H [|f] Hf; cbn in *; [lia|]. by rewrite H by lia. Qed.

Lemma read_quoted_escape v rest : read_quoted (escape v ++ 34 :: rest) = Some (v, rest).
Proof.
  induction v as [|c v IH]; [done|]. cbn [escape].
  destruct (c =? 92) eqn:E1; cbn [orb].
  - cbn. apply Z.eqb_eq in E1. subst. cbn. by rewrite IH.
  - destruct (c =? 34) eqn:E2; cbn; [apply Z.eqb_eq in E2; subst; cbn; by rewrite IH|].
    rewrite E1, E2. by rewrite IH.
Qed.

Lemma lexes_quoted v rest ts :
  lexes rest ts -> lexes ((34 :: escape v ++ [34]) ++ rest) (TQuoted v :: ts).
Proof.
  intros H [|f] Hf; cbn in *; [lia|]. rewrite <- app_assoc. cbn [app].
  rewrite read_quoted_escape. cbn. rewrite H; [done|].
  rewrite !length_app in Hf. lia.
Qed.

Lemma read_atom_app a rest :
  Forall (fun c => atom_char c = true) a -> boundary rest -> read_atom (a ++ rest) = (a, rest).
Proof.
  intros Ha Hb. induction Ha as [|c a Hc _ IH]; cbn.
  - destruct rest; cbn in *; [done|]. by rewrite Hb.
  - by rewrite Hc, IH.
Qed.

Lemma atom_char_plain c : atom_char c = true -> (c =? 32) = false /\ (c =? 40) = false /\
  (c =? 41) = false /\ (c =? 34) = false.
Proof. intros H. repeat split; apply Z.eqb_neq; intros ->; vm_compute in H; done. Qed.

Lemma lexes_atom a rest ts :
  a <> [] -> Forall (fun c => atom_char c = true) a -> boundary rest -> lexes rest ts ->
  lexes (a ++ rest) (TAtom a :: ts).
Proof.
  intros Hne Ha Hb H [|f] Hf; destruct a as [|c a]; [done|cbn in Hf; lia|done|].
  pose proof (read_atom_app _ _ Ha Hb) as Hr. cbn [app lex] in *. apply Forall_cons in Ha as [Hc _].
  apply atom_char_plain in Hc as (-> & -> & -> & ->). rewrite Hr.
  rewrite H; [done|]. cbn in Hf. rewrite length_app in Hf. lia.
Qed.

(** A printed part, whatever follows it at a boundary. *)
Definition part (p : rstr) (ts : list token) : Prop :=
  forall rest rts, boundary rest -> lexes rest rts -> lexes (p ++ rest) (ts ++ rts).

Lemma part_atom a : a <> [] -> Forall (fun c => atom_char c = true) a -> part a [TAtom a].
Proof. intros Hne Ha rest rts Hb H. by apply lexes_atom. Qed.

Lemma part_quoted v : part (34 :: escape v ++ [34]) [TQuoted v].
Proof. intros rest rts _ H. by apply lexes_quoted. Qed.

Lemma part_space p q ts us : part p ts -> part q us -> part (p ++ lit " " ++ q) (ts ++ us).
Proof.
  intros Hp Hq rest rts Hb H. rewrite <- !app_assoc. apply Hp; [done|].
  apply lexes_space. by apply Hq.
Qed.

Lemma part_parens p ts : part p ts -> part (lit "(" ++ p ++ lit ")") (TOpen :: ts ++ [TClose]).
Proof.
  intros Hp rest rts Hb H.
  change (lexes (40 :: ((p ++ [41]) ++ rest)) (TOpen :: ((ts ++ [TClose]) ++ rts))).
  apply lexes_open. rewrite <- !app_assoc. apply Hp; [done|].
  by apply lexes_close.
Qed.

Lemma part_join ps tss :
  ps <> [] -> Forall2 part ps tss -> part (join (lit " ") ps) (concat tss).
Proof.
  intros Hne H. induction H as [|p ts ps tss Hp Hps IH]; [done|]. destruct Hps as [|q us ps tss Hq Hps].
  - cbn. by rewrite app_nil_r.
  - rewrite join_cons by done. cbn [concat]. apply part_space; [done|]. by apply IH.
Qed.

(** ** Parsing what was lexed *)

(** The tokens of one key, whatever follows. *)
Definition reads (ts : list token) (k : search_key) : Prop :=
  ts <> [] /\ forall f rest, (length ts <= f)%nat -> read_key f (ts ++ rest) = Some (k, rest).

Definition prints (p : rstr) (k : search_key) : Prop := exists ts, part p ts /\ reads ts k.

Lemma read_keys_concat tss ks f :
  Forall2 reads tss ks -> (length (concat tss) <= f)%nat -> read_keys f (concat tss) = Some ks.
Proof.
  intros H. revert f. induction H as [|ts k tss ks [Hne Hts] _ IH]; intros f Hf; [by destruct f|].
  cbn [concat] in *. rewrite length_app in Hf.
  destruct ts as [|t ts]; [done|]. destruct f as [|f]; [cbn in Hf; lia|]. cbn [app read_keys].
  change (t :: ts ++ concat tss) with ((t :: ts) ++ concat tss). rewrite Hts.
  - cbn. rewrite IH; [done|]. cbn in Hf. lia.
  - rewrite length_app. lia.
Qed.

Lemma read_search_join ps ks :
  ps <> [] -> Forall2 prints ps ks -> read_search (join (lit " ") ps) = Some ks.
Proof.
  intros Hne H. assert (Hts : exists tss, Forall2 part ps tss /\ Forall2 reads tss ks).
  { clear Hne. induction H as [|p k ps ks (ts & Hp & Hr) _ (tss & Hps & Hrs)];
      [exists []; auto|]. exists (ts :: tss); auto. }
  destruct Hts as (tss & Hps & Hrs). unfold read_search.
  pose proof (part_join ps tss Hne Hps [] [] I lexes_nil) as Hl. rewrite !app_nil_r in Hl.
  rewrite Hl by lia. cbn. by apply read_keys_concat.
Qed.

(** A keyword with an argument. *)
Definition argument_name (name : rstr) : bool :=
  forallb atom_char name && negb (str_eqb name (lit "ALL") || flag_field name || str_eqb name (lit "OR")
    || str_eqb name []).

Lemma argument_name_spec name : argument_name name = true ->
  part name [TAtom name] /\
  forall f ts, read_key (S f) (TAtom name :: ts) = read_argument name ts.
Proof.
  unfold argument_name. rewrite andb_true_iff, negb_true_iff, !orb_false_iff.
  intros (Ha & ((H1 & H2) & H3) & H4). split.
  - apply part_atom; [by intros ->|]. by apply List.Forall_forall, forallb_forall.
  - intros f ts. cbn [read_key]. by rewrite H1, H2, H3.
Qed.

Lemma prints_argument name p ts k : argument_name name = true -> part p ts ->
  (forall rest, read_argument name (ts ++ rest) = Some (k, rest)) ->
  prints (name ++ lit " " ++ p) k.
Proof.
  intros [Hp Hr]%argument_name_spec Hts Hk. exists ([TAtom name] ++ ts).
  split; [by apply part_space|]. split; [done|].
  intros [|f] rest Hf; [cbn in Hf; lia|]. rewrite <- app_assoc. cbn [app]. by rewrite Hr.
Qed.

Lemma prints_text name v : argument_name name && text_field name = true ->
  prints (name ++ lit " " ++ 34 :: escape v ++ [34]) (KText name v).
Proof.
  intros [Hn Ht]%andb_true_iff. apply (prints_argument _ _ [TQuoted v]); [done|apply part_quoted|].
  intros rest. cbn. unfold read_argument. by rewrite Ht.
Qed.

Lemma prints_header n v : n <> [] -> forallb atom_char n = true ->
  prints (lit "HEADER " ++ n ++ lit " " ++ 34 :: escape v ++ [34]) (KHeader n v).
Proof.
  intros Hne Ha. change (lit "HEADER ") with (lit "HEADER" ++ lit " "). rewrite <- app_assoc.
  apply (prints_argument _ _ ([TAtom n] ++ [TQuoted v])); [done| |done].
  apply part_space, part_quoted. apply part_atom; [done|].
  by apply List.Forall_forall, forallb_forall.
Qed.

Lemma digit_atom s : Forall (fun c => is_ascii_digit c = true) s -> Forall (fun c => atom_char c = true) s.
Proof.
  intros H. eapply Forall_impl; [exact H|]. intros c Hc. unfold atom_char.
  assert (48 <= c <= 57) by (unfold is_ascii_digit, between in Hc; zify_bool; lia).
  assert (He : forall n, n < 48 \/ 57 < n -> (c =? n) = false) by (intros; apply Z.eqb_neq; lia).
  cbn. rewrite !He by lia. unfold between. by rewrite !(proj2 (Z.leb_le _ _)) by lia.
Qed.

Definition other_name (name : rstr) : bool :=
  argument_name name && negb (text_field name || str_eqb name (lit "HEADER")).

Lemma prints_size name n : other_name name && size_field name = true -> 0 <= n ->
  prints (name ++ lit " " ++ to_decimal n) (KSize name n).
Proof.
  unfold other_name. rewrite !andb_true_iff, negb_true_iff, orb_false_iff.
  intros ((Hn & Ht & Hh) & Hs) Hpos. destruct (to_decimal_spec n Hpos) as (_ & Hd & Hne).
  apply (prints_argument _ _ [TAtom (to_decimal n)]); [done|by apply part_atom, digit_atom|].
  intros rest. unfold read_argument. rewrite Ht, Hh. cbn [app]. by rewrite Hs, parse_number_decimal.
Qed.

Lemma pad2_spec n : 0 <= n ->
  parse_number (pad2 n) = Some n /\ pad2 n <> [] /\ Forall (fun c => is_ascii_digit c = true) (pad2 n).
Proof.
  intros Hn. destruct (to_decimal_spec n Hn) as (Hv & Hd & Hne).
  assert (Hp : parse_number (to_decimal n) = Some n) by by apply parse_number_decimal.
  unfold pad2. case_goal; [|done].
  assert (Hall : Forall (fun c => is_ascii_digit c = true) (48 :: to_decimal n)) by by constructor.
  split; [|done]. unfold parse_number. rewrite bool_decide_eq_false_2 by done. cbn [negb andb].
  rewrite (proj2 (forallb_forall _ _)) by (by apply List.Forall_forall).
  by rewrite <- Hv at 2.
Qed.

Lemma month_names_spec m : 1 <= m <= 12 ->
  let name := nth (Z.to_nat (m - 1)) month_names [] in
  month_index month_names 1 name = Some m /\ forallb atom_char name && negb (existsb (Z.eqb 45) name) = true.
Proof.
  intros Hm name.
  assert (Hc : m ∈ [1;2;3;4;5;6;7;8;9;10;11;12]) by (rewrite !elem_of_cons, elem_of_nil; lia).
  rewrite !elem_of_cons, elem_of_nil in Hc. unfold name.
  repeat destruct Hc as [->|Hc]; try done; split; reflexivity.
Qed.

Lemma decimal_length4 y : 1000 <= y <= 9999 -> length (to_decimal y) = 4%nat.
Proof.
  intros Hy. unfold to_decimal.
  assert (Hl : 9 <= Z.log2 y <= 13).
  { split; [apply (Z.log2_le_mono 1000)|apply (Z.log2_le_mono y 9999)]; lia. }
  replace (S (Z.to_nat (Z.log2 y))) with (4 + (S (Z.to_nat (Z.log2 y)) - 4))%nat by lia.
  cbn [Nat.add digits_fuel].
  assert (H1 : (y <? 10) = false) by (apply Z.ltb_ge; lia).
  assert (H2 : (y / 10 <? 10) = false) by (apply Z.ltb_ge; Z.to_euclidean_division_equations; lia).
  assert (H3 : (y / 10 / 10 <? 10) = false)
    by (apply Z.ltb_ge; Z.to_euclidean_division_equations; lia).
  assert (H4 : (y / 10 / 10 / 10 <? 10) = true)
    by (apply Z.ltb_lt; Z.to_euclidean_division_equations; lia).
  rewrite H1, H2, H3, H4. by rewrite !length_app.
Qed.

Definition date_printable (d : date) : Prop :=
  1000 <= year d <= 9999 /\ 1 <= month d <= 12 /\ 1 <= day d <= 31.

Lemma digits_no_dash s : Forall (fun c => is_ascii_digit c = true) s -> ~ 45 ∈ s.
Proof. intros H Hin. rewrite Forall_forall in H. by apply H in Hin. Qed.

Lemma read_format_date d : date_printable d ->
  read_date (format_imap_date d) = Some d /\ format_imap_date d <> [] /\
  Forall (fun c => atom_char c = true) (format_imap_date d).
Proof.
  intros (Hy & Hm & Hd). destruct (pad2_spec (day d)) as (Hp & Hne & Hdig); [lia|].
  destruct (month_names_spec (month d) Hm) as [Hmi [Hma Hmd]%andb_true_iff].
  unfold format_imap_date, show_int. rewrite (proj2 (Z.ltb_ge (year d) 0)) by lia.
  destruct (to_decimal_spec (year d)) as (_ & Hyd & _); [lia|].
  set (mn := nth _ _ _) in *. split; [|split].
  - unfold read_date.
    rewrite (proj2 (split_once_Some 45 _ (pad2 (day d)) (mn ++ lit "-" ++ to_decimal (year d)))).
    2:{ split; [done|by apply digits_no_dash]. }
    cbn [mbind option_bind].
    rewrite (proj2 (split_once_Some 45 _ mn (to_decimal (year d)))).
    2:{ split; [done|]. intros Hin. apply negb_true_iff in Hmd.
        assert (Ht : existsb (Z.eqb 45) mn = true); [|congruence].
        apply existsb_exists. exists 45. split; [by apply list_elem_of_In|done]. }
    cbn [mbind option_bind]. rewrite Hp. cbn [mbind option_bind]. rewrite Hmi.
    cbn [mbind option_bind]. rewrite decimal_length4, Nat.eqb_refl, parse_number_decimal by lia.
    by destruct d.
  - by destruct (pad2 (day d)).
  - repeat (apply Forall_app; split); [by apply digit_atom| | | |by apply digit_atom].
    + by repeat constructor.
    + by apply List.Forall_forall, forallb_forall.
    + by repeat constructor.
Qed.

Lemma prints_date name d : other_name name && date_field name && negb (size_field name) = true ->
  date_printable d -> prints (name ++ lit " " ++ format_imap_date d) (KDate name d).
Proof.
  unfold other_name. rewrite !andb_true_iff, !negb_true_iff, orb_false_iff.
  intros (((Hn & Ht & Hh) & Hs) & Hz) Hd. destruct (read_format_date d Hd) as (Hr & Hne & Ha).
  apply (prints_argument _ _ [TAtom (format_imap_date d)]); [done|by apply part_atom|].
  intros rest. unfold read_argument. rewrite Ht, Hh. cbn [app]. by rewrite Hz, Hs, Hr.
Qed.

Lemma prints_flag name : flag_field name && forallb atom_char name && negb (str_eqb name [])
    && negb (str_eqb name (lit "ALL")) = true -> prints name (KFlag name).
Proof.
  rewrite !andb_true_iff, !negb_true_iff. intros (((Hf & Ha) & Hne) & Hall).
  exists [TAtom name]. split.
  - apply part_atom; [by intros ->|by apply List.Forall_forall, forallb_forall].
  - split; [done|]. intros [|f] rest Hl; [cbn in Hl; lia|]. cbn [app read_key]. by rewrite Hall, Hf.
Qed.

(** ** The clauses of a structured query *)

Definition clauses_print (r : result ImapError (list rstr)) (ks : list search_key) : Prop :=
  forall ps, r = Ok ps -> Forall2 prints ps ks.

Lemma quote_ok s t : quote s = Ok t -> t = 34 :: escape s ++ [34].
Proof. unfold quote. destruct (existsb _ _); [done|]. by intros [= <-]. Qed.

Lemma text_clause_prints name v : argument_name name && text_field name = true ->
  clauses_print (text_clause name v) (opt v (KText name)).
Proof.
  intros Hn ps. unfold text_clause, clause. destruct v as [s|]; cbn; [|intros [= <-]; constructor].
  destruct (quote s) as [t|] eqn:E; cbn; [|done]. intros [= <-]. apply quote_ok in E as ->.
  constructor; [by apply prints_text|constructor].
Qed.

Lemma size_clause_prints name v : other_name name && size_field name = true ->
  (forall n, v = Some n -> 0 <= n) -> clauses_print (size_clause name v) (opt v (KSize name)).
Proof.
  intros Hn Hv ps. unfold size_clause, clause. destruct v as [n|]; cbn; intros [= <-]; [|constructor].
  constructor; [apply prints_size; auto|constructor].
Qed.

Lemma date_clause_prints name v : other_name name && date_field name && negb (size_field name) = true ->
  (forall d, v = Some d -> date_printable d) -> clauses_print (date_clause name v) (opt v (KDate name)).
Proof.
  intros Hn Hv ps. unfold date_clause, clause. destruct v as [n|]; cbn; intros [= <-]; [|constructor].
  constructor; [apply prints_date; auto|constructor].
Qed.

Lemma flag_clause_prints v yes no :
  prints (lit yes) (KFlag (lit yes)) -> prints (lit no) (KFlag (lit no)) ->
  clauses_print (flag_clause v (lit yes) (lit no)) (flag_key v yes no).
Proof. intros Hy Hn ps. destruct v as [[]|]; intros [= <-]; repeat constructor; done. Qed.

Lemma header_clauses_prints hs :
  Forall (fun h => forallb atom_char (header_name h) = true) hs ->
  clauses_print (header_clauses hs) (map (fun h => KHeader (header_name h) (header_value h)) hs).
Proof.
  induction 1 as [|h hs Hh _ IH]; intros ps; [by intros [= <-]; constructor|]. cbn [header_clauses].
  destruct (validate_header_name _) as [[]|] eqn:Ev; cbn; [|done].
  destruct (quote _) as [v|] eqn:Eq; cbn; [|done].
  destruct (header_clauses hs) as [rest|]; cbn; [|done]. intros [= <-].
  apply quote_ok in Eq as ->. constructor; [|by apply IH].
  apply prints_header; [|done]. intros He. by rewrite He in Ev.
Qed.

Lemma gather_prints rs kss : Forall2 clauses_print rs kss -> clauses_print (gather rs) (concat kss).
Proof.
  induction 1 as [|r ks rs kss Hr _ IH]; intros ps; cbn; [by intros [= <-]; constructor|].
  destruct r as [a|]; cbn; [|done]. destruct (gather rs) as [rest|]; cbn; [|done].
  intros [= <-]. apply Forall2_app; [by apply Hr|by apply IH].
Qed.

(** The arguments a query can carry faithfully: header names that are IMAP
    atoms and dates with a four-digit year. *)
Record printable (q : StructuredQuery) : Prop := {
  p_headers : forall hs, q_headers q = Some hs ->
    Forall (fun h => forallb atom_char (header_name h) = true) hs;
  p_larger : forall n, q_larger q = Some n -> 0 <= n;
  p_smaller : forall n, q_smaller q = Some n -> 0 <= n;
  p_since : forall d, q_since q = Some d -> date_printable d;
  p_before : forall d, q_before q = Some d -> date_printable d;
  p_sent_since : forall d, q_sent_since q = Some d -> date_printable d;
  p_sent_before : forall d, q_sent_before q = Some d -> date_printable d }.

Lemma key_parts_prints q : printable q -> clauses_print (key_parts q) (criteria q).
Proof.
  intros Hq. unfold key_parts.
  replace (criteria q) with (concat [opt (q_from q) (KText (lit "FROM")); opt (q_to q) (KText (lit "TO"));
    opt (q_cc q) (KText (lit "CC")); opt (q_bcc q) (KText (lit "BCC"));
    opt (q_subject q) (KText (lit "SUBJECT")); opt (q_body q) (KText (lit "BODY"));
    opt (q_text q) (KText (lit "TEXT"));
    match q_headers q with
    | Some hs => map (fun h => KHeader (header_name h) (header_value h)) hs | None => [] end;
    opt (q_larger q) (KSize (lit "LARGER")); opt (q_smaller q) (KSize (lit "SMALLER"));
    opt (q_since q) (KDate (lit "SINCE")); opt (q_before q) (KDate (lit "BEFORE"));
    opt (q_sent_since q) (KDate (lit "SENTSINCE")); opt (q_sent_before q) (KDate (lit "SENTBEFORE"));
    flag_key (q_seen q) "SEEN" "UNSEEN"; flag_key (q_answered q) "ANSWERED" "UNANSWERED";
    flag_key (q_flagged q) "FLAGGED" "UNFLAGGED"; flag_key (q_draft q) "DRAFT" "UNDRAFT";
    if q_has_attachment q then [KText (lit "BODY") (lit "Content-Disposition: attachment")] else []])
    by (unfold criteria; cbn [concat]; by rewrite app_nil_r).
  apply gather_prints. destruct Hq.
  repeat (apply List.Forall2_cons; [first
    [ by apply text_clause_prints | by apply size_clause_prints | by apply date_clause_prints
    | by apply flag_clause_prints; apply prints_flag; vm_compute | idtac] |]); [..|constructor].
  - destruct (q_headers q) as [hs|]; [by apply header_clauses_prints, p_headers0|].
    intros ps [= <-]. constructor.
  - destruct (q_has_attachment q); intros ps [= <-]; constructor; [|constructor].
    apply (prints_text (lit "BODY") (lit "Content-Disposition: attachment")). by vm_compute.
Qed.

Lemma criteria_parts q ps : printable q -> key_parts q = Ok ps -> Forall2 prints ps (criteria q).
Proof. intros Hq. by apply key_parts_prints. Qed.

Lemma prints_all : prints (lit "ALL") KAll.
Proof.
  exists [TAtom (lit "ALL")]. split; [apply part_atom; [done|repeat constructor]|].
  split; [done|]. intros [|f] rest Hf; [cbn in Hf; lia|done].
Qed.

(** C14: a structured search asks the server for exactly its filters.  Let
    every header name of the query be an IMAP atom (letters, digits and the
    other atom characters, so no quote, space, parenthesis, brace, percent,
    asterisk or backslash) and every date have a year from 1000 to 9999, a month
    and a day of a calendar, and the sizes not be negative.  Then, when the key
    is built, reading it by the grammar of RFC 3501 gives each filter with
    exactly the value the caller gave, in order, and ALL when there is none: no
    value, whatever quotes or backslashes it holds, escapes its string.  The
    first two conditions are needed (header_name_escapes, short_year): the code
    lets a header name hold a quote, and does not pad a year. *)
Theorem structured_key_faithful q key :
  printable q -> structured_to_key q = Ok key ->
  read_search key = Some (match criteria q with [] => [KAll] | ks => ks end).
Proof.
  intros Hq. unfold structured_to_key. destruct (key_parts q) as [ps|] eqn:E; cbn; [|done].
  intros [= <-]. pose proof (criteria_parts q ps Hq E) as Hp.
  destruct Hp as [|p k ps ks Hp Hps].
  - apply (read_search_join [lit "ALL"] [KAll]); [done|]. constructor; [apply prints_all|constructor].
  - by apply read_search_join; [|constructor].
Qed.

Definition sample_query : StructuredQuery :=
  mkStructuredQuery (Some (34 :: lit " OR ALL \ ")) None None (Some (mkDate 2026 1 5)) None (Some false)
    true None None None None (Some [mkHeaderSearch (lit "List-Id") (lit "dev(")]) (Some 4096) None
    None None None None None.

Lemma structured_key_faithful_witness :
  exists key, structured_to_key sample_query = Ok key /\
    read_search key = Some
      [KText (lit "FROM") (34 :: lit " OR ALL \ "); KHeader (lit "List-Id") (lit "dev(");
       KSize (lit "LARGER") 4096; KDate (lit "SINCE") (mkDate 2026 1 5); KFlag (lit "UNSEEN");
       KText (lit "BODY") (lit "Content-Disposition: attachment")].
Proof.
  eexists. split; [reflexivity|].
  refine (structured_key_faithful sample_query _ _ eq_refl).
  split; intros ? [= <-]; [by repeat constructor|lia|].
  unfold date_printable. cbn. lia.
Defined.

(** A header name may hold a quote, and then its value is read as more of the
    query. *)
Lemma header_name_escapes :
  structured_to_key (mkStructuredQuery None None None None None None false None None None None
    (Some [mkHeaderSearch [34] (lit " NOT ALL ")]) None None None None None None None) =
    Ok (lit "HEADER " ++ [34; 32; 34] ++ lit " NOT ALL " ++ [34]) /\
  lex 30 (lit "HEADER " ++ [34; 32; 34] ++ lit " NOT ALL ") =
    Some [TAtom (lit "HEADER"); TQuoted (lit " "); TAtom (lit "NOT"); TAtom (lit "ALL")].
Proof. split; reflexivity. Qed.

(** Years below 1000 are printed with fewer than the four digits of
    [date-year]. *)
Lemma short_year : format_imap_date (mkDate 5 1 1) = lit "01-Jan-5" /\
  read_date (format_imap_date (mkDate 5 1 1)) = None.
Proof. split; reflexivity. Qed.

(** ** Thread searches *)

(** [P] decides the simple keys; OR is either. *)
Fixpoint satisfies (P : search_key -> Prop) (k : search_key) : Prop :=
  match k with KOr a b => satisfies P a \/ satisfies P b | _ => P k end.

Lemma prints_or p q a b : prints p a -> prints q b ->
  prints (lit "OR " ++ p ++ lit " (" ++ q ++ lit ")") (KOr a b).
Proof.
  intros (ts & Hp & Hne & Hr) (us & Hq & Hne' & Hs).
  exists ([TAtom (lit "OR")] ++ ts ++ TOpen :: us ++ [TClose]). split.
  - change (lit "OR ") with (lit "OR" ++ lit " "). rewrite <- app_assoc.
    apply part_space; [apply part_atom; [done|by repeat constructor]|].
    change (lit " (" ++ q ++ lit ")") with (lit " " ++ (lit "(" ++ q ++ lit ")")).
    apply part_space; [done|by apply part_parens].
  - split; [done|]. intros [|f] rest Hf; [cbn in Hf; lia|]. cbn in Hf. rewrite length_app in Hf.
    cbn in Hf. rewrite length_app in Hf. cbn in Hf.
    rewrite <- !app_assoc. cbn [app read_key]. change (str_eqb (lit "OR") (lit "ALL")) with false.
    change (flag_field (lit "OR")) with false. change (str_eqb (lit "OR") (lit "OR")) with true. cbn iota.
    rewrite Hr by lia. cbn [mbind option_bind]. destruct f as [|f]; [lia|]. cbn [app read_key].
    rewrite <- app_assoc, Hs by lia. done.
Qed.

Lemma or_join_prints ps ks key :
  Forall2 prints ps ks -> or_join ps = Some key ->
  exists k, prints key k /\ forall P, satisfies P k <-> Exists (satisfies P) ks.
Proof.
  intros H. revert key. induction H as [|p k ps ks Hp Hps IH]; intros key; [done|].
  destruct Hps as [|q k' ps ks Hq Hps].
  - cbn. intros [= <-]. exists k. split; [done|]. intros P. rewrite Exists_cons, Exists_nil. tauto.
  - change (or_join (p :: q :: ps)) with
      (nested ← or_join (q :: ps); Some (lit "OR " ++ p ++ lit " (" ++ nested ++ lit ")")).
    destruct (or_join (q :: ps)) as [nested|]; cbn [mbind option_bind]; [|done].
    intros [= <-]. destruct (IH nested eq_refl) as (kn & Hn & Hsat). exists (KOr k kn). split.
    + by apply prints_or.
    + intros P. cbn [satisfies]. rewrite Hsat, (Exists_cons _ k). done.
Qed.

Lemma ancestor_clauses_print ids ps : ancestor_clauses ids = Ok ps ->
  Forall2 prints ps (map (KHeader (lit "Message-ID")) ids).
Proof.
  revert ps. induction ids as [|id ids IH]; intros ps; cbn [ancestor_clauses]; [by intros [= <-]; constructor|].
  destruct (quote id) as [v|] eqn:Eq; cbn; [|done].
  destruct (ancestor_clauses ids) as [rest|]; cbn; [|done]. intros [= <-].
  apply quote_ok in Eq as ->. constructor; [|by apply IH].
  by apply (prints_header (lit "Message-ID")).
Qed.

Lemma own_clauses_print id v : quote id = Ok v ->
  Forall2 prints [lit "HEADER References " ++ v; lit "HEADER In-Reply-To " ++ v]
    [KHeader (lit "References") id; KHeader (lit "In-Reply-To") id].
Proof.
  intros ->%quote_ok. constructor; [by apply (prints_header (lit "References"))|].
  constructor; [by apply (prints_header (lit "In-Reply-To"))|constructor].
Qed.

(** The headers by which a message belongs to the thread. *)
Definition thread_keys (own : option rstr) (ancestors : list rstr) : list search_key :=
  match own with
  | Some id => [KHeader (lit "References") id; KHeader (lit "In-Reply-To") id]
  | None => []
  end ++ map (KHeader (lit "Message-ID")) ancestors.

Lemma thread_clauses_print own ids ps qs :
  match own with
  | Some id => v ← quote id; Ok [lit "HEADER References " ++ v; lit "HEADER In-Reply-To " ++ v]
  | None => Ok []
  end = Ok ps -> ancestor_clauses ids = Ok qs -> Forall2 prints (ps ++ qs) (thread_keys own ids).
Proof.
  intros Ho Ha. apply Forall2_app; [|by apply ancestor_clauses_print].
  destruct own as [id|]; [|by injection Ho as <-; constructor].
  destruct (quote id) as [v|] eqn:E; cbn in Ho; [|done]. injection Ho as <-.
  by apply own_clauses_print.
Qed.

Lemma ancestors_exist P ids :
  Exists (satisfies P) (map (KHeader (lit "Message-ID")) ids) <->
  exists id, id ∈ ids /\ P (KHeader (lit "Message-ID") id).
Proof.
  induction ids as [|id ids IH]; cbn [map].
  - rewrite Exists_nil. setoid_rewrite elem_of_nil. naive_solver.
  - rewrite Exists_cons, IH. cbn [satisfies]. setoid_rewrite elem_of_cons. naive_solver.
Qed.

Lemma or_join_None ps : or_join ps = None -> ps = [].
Proof.
  induction ps as [|p [|q ps] IH]; [done..|]. intros H.
  change (or_join (p :: q :: ps)) with
    (nested ← or_join (q :: ps); Some (lit "OR " ++ p ++ lit " (" ++ nested ++ lit ")")) in H.
  destruct (or_join (q :: ps)); [done|]. by specialize (IH eq_refl).
Qed.

(** A thread search asks for the thread.  The single key it sends is read
    as a disjunction that a message satisfies when it names the target in
    References or In-Reply-To, or is one of the ancestors by Message-ID, with
    every identifier taken literally; there is no key only when there is
    nothing to search by. *)
Theorem thread_key_faithful own ancestors key :
  thread_key own ancestors = Ok key ->
  match key with
  | None => own = None /\ ancestors = []
  | Some key => exists k, read_search key = Some [k] /\
      forall P, satisfies P k <->
        (exists id, own = Some id /\ (P (KHeader (lit "References") id) \/ P (KHeader (lit "In-Reply-To") id)))
        \/ exists id, id ∈ ancestors /\ P (KHeader (lit "Message-ID") id)
  end.
Proof.
  unfold thread_key.
  destruct (match own with Some id => _ | None => _ end) as [ps|] eqn:Eo; cbn [mbind result_bind]; [|done].
  destruct (ancestor_clauses ancestors) as [qs|] eqn:Ea; cbn [mbind result_bind]; [|done].
  intros [= <-]. pose proof (thread_clauses_print own ancestors ps qs Eo Ea) as Hp.
  destruct (or_join (ps ++ qs)) as [key|] eqn:Ej.
  - destruct (or_join_prints _ _ _ Hp Ej) as (k & Hk & Hsat). exists k. split.
    + apply (read_search_join [key] [k]); [done|]. constructor; [done|constructor].
    + intros P. rewrite Hsat. unfold thread_keys. rewrite Exists_app, ancestors_exist.
      destruct own as [id|]; rewrite ?Exists_cons, Exists_nil; cbn [satisfies]; naive_solver.
  - apply or_join_None, app_eq_nil in Ej as [-> ->]. apply Forall2_nil_inv_l in Hp.
    unfold thread_keys in Hp. by destruct own, ancestors.
Qed.

Lemma thread_key_faithful_witness :
  exists key k, thread_key (Some (lit "<a@x>")) [34 :: lit "<b@y>"; lit "<c@z>"] = Ok (Some key) /\
    read_search key = Some [k] /\ satisfies (eq (KHeader (lit "Message-ID") (34 :: lit "<b@y>"))) k.
Proof.
  destruct (thread_key_faithful (Some (lit "<a@x>")) [34 :: lit "<b@y>"; lit "<c@z>"] _ eq_refl)
    as (k & Hk & Hsat).
  eexists _, k. split; [reflexivity|]. split; [exact Hk|]. apply Hsat. right.
  exists (34 :: lit "<b@y>"). split; [left|reflexivity].
Defined.

(** ** The result list *)

Lemma sorted_uids_spec raw :
  NoDup raw -> Forall (fun u => 0 <= u) raw ->
  StronglySorted Z.lt (sorted_uids raw) /\ forall u, u ∈ sorted_uids raw <-> u ∈ raw /\ u <> 0.
Proof.
  intros Hnd Hpos. unfold sorted_uids. set (l := filter _ raw).
  assert (Hin : forall u, u ∈ merge_sort Z.le l <-> u ∈ raw /\ u <> 0).
  { intros u. rewrite merge_sort_Permutation. unfold l. rewrite list_elem_of_filter. tauto. }
  split; [|done].
  assert (Hnd' : NoDup (merge_sort Z.le l))
    by (rewrite merge_sort_Permutation; by apply NoDup_filter).
  assert (Hs : StronglySorted Z.le (merge_sort Z.le l)) by (apply StronglySorted_merge_sort; apply _).
  revert Hnd' Hs. generalize (merge_sort Z.le l). clear. intros l Hnd Hs.
  induction Hs as [|u l Hs IH Hu]; [constructor|]. apply NoDup_cons in Hnd as [Hn Hnd].
  constructor; [auto|]. rewrite Forall_forall in *. intros v Hv. specialize (Hu v Hv).
  destruct (decide (u = v)); [by subst|lia].
Qed.
