(* ===== verification/Content.v ===== *)
(** * What the content pipeline returns
    (crates/rimap-core/src/warning.rs, crates/rimap-content/src/output.rs)

    Warning codes with their severity, warnings, and the parsed message's
    metadata and text. *)

From Stdlib Require Import ZArith.
From stdpp Require Import base option list strings.
From S2P Require Import Prelude RustStr.
Local Open Scope Z_scope.

(* [crates/rimap-core/src/warning.rs:18-122] WarningCode *)
Inductive WarningCode :=
  | UnicodeZeroWidthStripped
  | UnicodeBidiOverrideStripped
  | UnicodeC0C1Stripped
  | ParseHeaderSmugglingBlocked
  | ParseMimeTypeMismatch
  | ParseBodystructureTypeMismatch
  | ParseAttachmentPolyglot
  | ParseBodyTruncated
  | ParseMimeDepthExceeded
  | ParseMimePartCountExceeded
  | ParseHeaderCountExceeded
  | ParseAttachmentFilenameRewritten
  | HtmlHiddenContentDetected
  | HtmlLinkTextHrefMismatch
  | HtmlScriptStripped
  | HtmlStyleStripped
  | HtmlRemoteImageStripped
  | HtmlAnchorUnparsableHref
  | LookalikeMixedScript
  | LookalikeHomographDomain
  | LookalikeIdnPunycode
  | LookalikeFilenameExtensionSpoof
  | ServerNonAtomicMoveFallback
  | ServerFolderWideExpungeDataLoss.
#[export] Instance WarningCode_eq_dec : EqDecision WarningCode.
Proof. solve_decision. Defined.

(* [crates/rimap-core/src/warning.rs:131-138] WarningSeverity *)
Inductive WarningSeverity := Informational | Adversarial.

(* [crates/rimap-core/src/warning.rs:149-176] WarningCode::severity *)
Definition severity (c : WarningCode) : WarningSeverity :=
  match c with
  | UnicodeZeroWidthStripped | UnicodeBidiOverrideStripped | UnicodeC0C1Stripped
  | ParseHeaderSmugglingBlocked | ParseMimeTypeMismatch | ParseBodystructureTypeMismatch
  | ParseAttachmentPolyglot | ParseMimeDepthExceeded | ParseMimePartCountExceeded
  | ParseHeaderCountExceeded | ParseAttachmentFilenameRewritten | HtmlHiddenContentDetected
  | HtmlLinkTextHrefMismatch | HtmlScriptStripped | LookalikeMixedScript | LookalikeHomographDomain
  | ServerFolderWideExpungeDataLoss | LookalikeFilenameExtensionSpoof => Adversarial
  | ParseBodyTruncated | HtmlStyleStripped | HtmlRemoteImageStripped | HtmlAnchorUnparsableHref
  | LookalikeIdnPunycode | ServerNonAtomicMoveFallback => Informational
  end.

(* [crates/rimap-content/src/output.rs:137-149] SecurityWarning *)
Record SecurityWarning := mkWarning { code : WarningCode; detail : option rstr; location : option rstr }.
(* [crates/rimap-content/src/output.rs:178-184] SecurityWarning::at *)
Definition warning_at (c : WarningCode) (detail location : rstr) : SecurityWarning :=
  mkWarning c (Some detail) (Some location).

(* [crates/rimap-content/src/output.rs:89-96] MailingListInfo *)
Record MailingListInfo := mkMailingListInfo { list_id : option rstr; list_unsubscribe : option rstr; list_post : option rstr }.

(* [crates/rimap-content/src/output.rs:101-113] AttachmentMeta *)
Record AttachmentMeta := mkAttachmentMeta {
  filename : option rstr; content_type : rstr; size_bytes : Z; content_id : option rstr; is_inline : bool }.

(** [date] in seconds since the epoch. *)
(* [crates/rimap-content/src/output.rs:38-66] ContentMeta *)
Record ContentMeta := mkContentMeta {
  from : option rstr; to : list rstr; cc : list rstr; reply_to : option rstr; subject : option rstr;
  date : option Z; message_id : option rstr; in_reply_to : option rstr; references : list rstr;
  mailing_list : option MailingListInfo; attachments : list AttachmentMeta;
  original_size_bytes : Z; body_truncated : bool }.

(* [crates/rimap-content/src/output.rs:79-84] SelectedHeader *)
Record SelectedHeader := mkSelectedHeader { sh_name : rstr; sh_values : list rstr }.

(* [crates/rimap-content/src/output.rs:118-132] Untrusted *)
Record Untrusted := mkUntrusted { body_text : rstr; body_html : option rstr; alternate_parts : list rstr }.

(* [crates/rimap-content/src/output.rs:20-31] Content *)
Record Content := mkContent { meta : ContentMeta; untrusted : Untrusted; security_warnings : list SecurityWarning }.

(* [crates/rimap-content/src/parse/pipeline.rs:31-31] MAX_HEADER_BYTES *)
Definition MAX_HEADER_BYTES : Z := 8 * 1024.
