(* ===== verification/Unicode.v ===== *)
(** * Sanitising text (crates/rimap-content/src/unicode.rs)

    Charset decoding, NFKC and grapheme segmentation belong to libraries:
    [UnicodeLib] holds them with the laws the code relies on.  The rest of the
    pipeline is modelled, with the theorem that says what can leave it. *)

From Stdlib Require Import ZArith Lia.
From stdpp Require Import base option list strings sets.
From S2P Require Import Prelude RustStr Names Content.
Local Open Scope Z_scope.

(** [encoding_rs], [unicode_normalization], [unicode_segmentation]: a string is
    the concatenation of its grapheme clusters, none of them empty; text in
    ASCII is in NFKC. *)
Class UnicodeLib := {
  decode : list Z -> option rstr -> rstr;
  normalize_nfkc : rstr -> rstr;
  graphemes : rstr -> list rstr;
  graphemes_concat : forall s, concat (graphemes s) = s;
  graphemes_nonempty : forall s, Forall (fun g => g <> []) (graphemes s);
  nfkc_ascii : forall s, Forall (fun c => 0 <= c < 128) s -> normalize_nfkc s = s;
}.

(* [crates/rimap-content/src/unicode.rs:20-27] ZERO_WIDTH *)
Definition ZERO_WIDTH : list Z := [0x200B; 0x200C; 0x200D; 0x2060; 0xFEFF].
(* [crates/rimap-content/src/unicode.rs:29-40] BIDI_OVERRIDE *)
Definition BIDI_OVERRIDE : list Z :=
  [0x202A; 0x202B; 0x202C; 0x202D; 0x202E; 0x2066; 0x2067; 0x2068; 0x2069].

(* [crates/rimap-content/src/unicode.rs:127-130] is_c0_control_disallowed *)
Definition is_c0_control_disallowed (c : Z) : bool :=
  (c <=? 0x1F) && negb (c =? 9) && negb (c =? 10).
(* [crates/rimap-content/src/unicode.rs:132-135] is_c1_control *)
Definition is_c1_control (c : Z) : bool := between 0x80 0x9F c.
(* [crates/rimap-content/src/unicode.rs:137-143] is_unicode_tag *)
Definition is_unicode_tag (c : Z) : bool := between 0xE0000 0xE007F c.

Definition is_zero_width (c : Z) : bool := existsb (Z.eqb c) ZERO_WIDTH || is_unicode_tag c.
Definition is_bidi (c : Z) : bool := existsb (Z.eqb c) BIDI_OVERRIDE.
Definition is_c0_c1 (c : Z) : bool := is_c0_control_disallowed c || is_c1_control c.

(* [crates/rimap-content/src/unicode.rs:110-125] FilterResult *)
Record FilterResult := mkFilterResult {
  text : rstr; zero_width_stripped : Z; bidi_stripped : Z; c0_c1_stripped : Z }.

(* [crates/rimap-content/src/unicode.rs:76-108] filter_codepoints *)
Definition filter_step (r : FilterResult) (c : Z) : FilterResult :=
  let 'mkFilterResult out zw bidi c0 := r in
  if is_zero_width c then mkFilterResult out (zw + 1) bidi c0
  else if is_bidi c then mkFilterResult out zw (bidi + 1) c0
  else if is_c0_c1 c then mkFilterResult out zw bidi (c0 + 1)
  else mkFilterResult (out ++ [c]) zw bidi c0.
(* [crates/rimap-content/src/unicode.rs:76-108] filter_codepoints *)
Definition filter_codepoints (input : rstr) : FilterResult :=
  fold_left filter_step input (mkFilterResult [] 0 0 0).

(** [str::replace] of ["\r\n"], then of ['\r']. *)
Fixpoint collapse_crlf (s : rstr) : rstr :=
  match s with
  | c :: ((d :: s'') as s') =>
      if (c =? 13) && (d =? 10) then 10 :: collapse_crlf s'' else c :: collapse_crlf s'
  | _ => s
  end.
(* [crates/rimap-content/src/unicode.rs:145-153] normalize_line_endings *)
Definition normalize_line_endings (input : rstr) : rstr :=
  map (fun c => if c =? 13 then 10 else c) (collapse_crlf input).

Section pipeline.
Context `{UnicodeLib}.

(** The loop over the clusters: how many bytes are kept. *)
(* [crates/rimap-content/src/unicode.rs:165-172] grapheme_cut *)
Fixpoint cut_clusters (idx max_bytes : Z) (gs : list rstr) : rstr :=
  match gs with
  | [] => []
  | g :: gs' =>
      if max_bytes <? idx + str_len g then [] else g ++ cut_clusters (idx + str_len g) max_bytes gs'
  end.
(** The kept prefix rather than its length. *)
(* [crates/rimap-content/src/unicode.rs:161-173] grapheme_cut *)
Definition grapheme_cut (input : rstr) (max_bytes : Z) : rstr :=
  if str_len input <=? max_bytes then input else cut_clusters 0 max_bytes (graphemes input).
(* [crates/rimap-content/src/unicode.rs:182-186] truncate_graphemes *)
Definition truncate_graphemes (input : rstr) (max_bytes : Z) : rstr := grapheme_cut input max_bytes.

(* [crates/rimap-content/src/unicode.rs:229-253] build_warnings *)
Definition build_warnings (r : FilterResult) (location : rstr) : list SecurityWarning :=
  let warn code n := if 0 <? n then [warning_at code (lit "count=" ++ to_decimal n) location] else [] in
  warn UnicodeZeroWidthStripped (zero_width_stripped r)
  ++ warn UnicodeBidiOverrideStripped (bidi_stripped r)
  ++ warn UnicodeC0C1Stripped (c0_c1_stripped r).

Definition usize_max : Z := u64_max.
Definition saturating_mul (a b : Z) : Z := Z.min usize_max (a * b).

(* [crates/rimap-content/src/unicode.rs:204-227] sanitize *)
Definition sanitize (bytes : list Z) (charset_label : option rstr) (max_bytes : Z) (location : rstr)
    : rstr * list SecurityWarning :=
  let decoded := decode bytes charset_label in
  let pre_capped := truncate_graphemes decoded (saturating_mul max_bytes 4) in
  let filter_result := filter_codepoints (normalize_line_endings (normalize_nfkc pre_capped)) in
  (truncate_graphemes (text filter_result) max_bytes, build_warnings filter_result location).

(** ** What the stages do *)

Definition visible (c : Z) : bool := negb (is_zero_width c || is_bidi c || is_c0_c1 c).

Definition count (p : Z -> bool) (s : rstr) : Z := Z.of_nat (length (List.filter p s)).

Lemma filter_codepoints_spec s :
  filter_codepoints s = mkFilterResult (List.filter visible s) (count is_zero_width s)
    (count (fun c => negb (is_zero_width c) && is_bidi c) s)
    (count (fun c => negb (is_zero_width c) && negb (is_bidi c) && is_c0_c1 c) s).
Proof.
  unfold filter_codepoints, count.
  assert (Hg : forall s out a b c, fold_left filter_step s (mkFilterResult out a b c) =
    mkFilterResult (out ++ List.filter visible s)
      (a + Z.of_nat (length (List.filter is_zero_width s)))
      (b + Z.of_nat (length (List.filter (fun c => negb (is_zero_width c) && is_bidi c) s)))
      (c + Z.of_nat (length (List.filter (fun c => negb (is_zero_width c) && negb (is_bidi c) && is_c0_c1 c) s)))).
  { clear s. induction s as [|x s IH]; intros out a b c; cbn [fold_left List.filter].
    - cbn. rewrite app_nil_r. f_equal; lia.
    - cbn [filter_step]. unfold visible at 1.
      destruct (is_zero_width x), (is_bidi x), (is_c0_c1 x); cbn [negb andb orb];
        rewrite IH; cbn [length]; rewrite <- ?app_assoc; f_equal; lia. }
  rewrite Hg. cbn. f_equal; lia.
Qed.

Lemma cut_clusters_spec idx m gs : 0 <= idx <= m ->
  exists kept dropped, gs = kept ++ dropped /\ cut_clusters idx m gs = concat kept /\
    idx + str_len (concat kept) <= m /\
    match dropped with g :: _ => m < idx + str_len (concat (kept ++ [g])) | [] => True end.
Proof.
  revert idx. induction gs as [|g gs IH]; intros idx Hi; cbn.
  - exists [], []. cbn. repeat split; lia.
  - destruct (m <? _) eqn:E; zify_bool.
    + exists [], (g :: gs). cbn [app concat]. rewrite app_nil_r.
      split; [done|]. split; [done|]. split; [cbn; lia|done].
    + pose proof (str_len_nonneg g). destruct (IH (idx + str_len g)) as (k & d & -> & Hc & Hl & Hd); [lia|].
      exists (g :: k), d. cbn [app concat]. rewrite Hc, str_len_app. split; [done|]. split; [done|].
      split; [lia|]. destruct d; [done|]. rewrite str_len_app. lia.
Qed.

Lemma truncate_graphemes_spec s m : 0 <= m ->
  str_len (truncate_graphemes s m) <= m /\ (exists rest, s = truncate_graphemes s m ++ rest) /\
  (str_len s <= m -> truncate_graphemes s m = s) /\
  exists kept dropped, graphemes s = kept ++ dropped /\ truncate_graphemes s m = concat kept /\
    match dropped with g :: _ => m < str_len (concat (kept ++ [g])) | [] => True end.
Proof.
  intros Hm. unfold truncate_graphemes, grapheme_cut. destruct (str_len s <=? m) eqn:E; zify_bool.
  - split; [done|]. split; [exists []; by rewrite app_nil_r|]. split; [done|].
    exists (graphemes s), []. rewrite app_nil_r, graphemes_concat. done.
  - destruct (cut_clusters_spec 0 m (graphemes s)) as (k & d & Hg & Hc & Hl & Hd); [lia|].
    rewrite Hc. split; [lia|]. split.
    + exists (concat d). by rewrite <- concat_app, <- Hg, graphemes_concat.
    + split; [lia|]. exists k, d. split; [done|]. split; [done|]. destruct d; [done|]. lia.
Qed.

(** *** What the sanitiser promises, in code points *)

Definition invisible (c : Z) : Prop :=
  c = 0x200B \/ c = 0x200C \/ c = 0x200D \/ c = 0x2060 \/ c = 0xFEFF \/ 0xE0000 <= c <= 0xE007F.
Definition directional (c : Z) : Prop := 0x202A <= c <= 0x202E \/ 0x2066 <= c <= 0x2069.
Definition control (c : Z) : Prop := (c <= 0x1F /\ c <> 9 /\ c <> 10) \/ 0x80 <= c <= 0x9F.
Definition harmless (c : Z) : Prop := ~ invisible c /\ ~ directional c /\ ~ control c.
#[export] Instance invisible_dec c : Decision (invisible c).
Proof. unfold invisible. apply _. Defined.
#[export] Instance directional_dec c : Decision (directional c).
Proof. unfold directional. apply _. Defined.
#[export] Instance control_dec c : Decision (control c).
Proof. unfold control. apply _. Defined.
#[export] Instance harmless_dec c : Decision (harmless c).
Proof. unfold harmless. apply _. Defined.

(** The three classes as the filter's tables have them. *)
Lemma classes_promised c :
  (is_zero_width c = true <-> invisible c) /\ (is_bidi c = true <-> directional c) /\ (is_c0_c1 c = true <-> control c).
Proof.
  unfold is_zero_width, is_bidi, is_c0_c1, is_unicode_tag, is_c0_control_disallowed, is_c1_control,
    between, invisible, directional, control. cbn [existsb ZERO_WIDTH BIDI_OVERRIDE].
  rewrite !orb_true_iff, !andb_true_iff, !negb_true_iff, !Z.eqb_neq, !Z.eqb_eq, !Z.leb_le.
  split_and!; lia.
Qed.

Lemma visible_harmless c : visible c = true <-> harmless c.
Proof.
  destruct (classes_promised c) as (H1 & H2 & H3). unfold visible, harmless.
  rewrite <- H1, <- H2, <- H3, negb_true_iff, !orb_false_iff, !not_true_iff_false. tauto.
Qed.

Lemma filter_visible s : List.filter visible s = filter harmless s.
Proof.
  induction s as [|c s IH]; [done|]. rewrite filter_cons. cbn [List.filter]. rewrite IH.
  pose proof (visible_harmless c). destruct (decide (harmless c)), (visible c); naive_solver.
Qed.

Lemma exists_class (p : Z -> bool) (P : Z -> Prop) s : (forall c, p c = true <-> P c) ->
  Exists (fun c => p c = true) s <-> Exists P s.
Proof. intros Hp. rewrite !Exists_exists. naive_solver. Qed.

(** Every line ending, of whatever style, as one newline. *)
Fixpoint newlines (after_cr : bool) (s : rstr) : rstr :=
  match s with
  | [] => []
  | c :: s' =>
      if c =? 13 then 10 :: newlines true s'
      else if after_cr && (c =? 10) then newlines false s' else c :: newlines false s'
  end.
Definition one_newline (s : rstr) : rstr := newlines false s.

Lemma collapse_other c s : c <> 13 -> collapse_crlf (c :: s) = c :: collapse_crlf s.
Proof. intros Hc. destruct s as [|d s]; [done|]. cbn. by destruct (Z.eqb_spec c 13). Qed.

Lemma line_endings_newlines s :
  normalize_line_endings s = newlines false s /\ normalize_line_endings (13 :: s) = 10 :: newlines true s.
Proof.
  induction s as [|c s [IH1 IH2]]; [done|]. assert (H1 : normalize_line_endings (c :: s) = newlines false (c :: s)).
  { destruct (Z.eq_dec c 13) as [->|Hc]; [done|]. unfold normalize_line_endings in *. rewrite collapse_other by done.
    cbn. rewrite IH1. by destruct (Z.eqb_spec c 13). }
  split; [done|]. destruct (Z.eq_dec c 10) as [->|Hc].
  - unfold normalize_line_endings in *. cbn. by rewrite <- IH1.
  - assert (E : normalize_line_endings (13 :: c :: s) = 10 :: normalize_line_endings (c :: s)).
    { unfold normalize_line_endings. cbn. by destruct (Z.eqb_spec c 10). }
    rewrite E, H1. cbn. by destruct (Z.eqb_spec c 13), (Z.eqb_spec c 10).
Qed.

Lemma line_endings_one_newline s : normalize_line_endings s = one_newline s.
Proof. apply line_endings_newlines. Qed.

(** [out] is what fits of [s] into [m] bytes, by whole clusters. *)
Definition cut_to (m : Z) (s out : rstr) : Prop :=
  str_len out <= m /\ exists kept dropped, graphemes s = kept ++ dropped /\ out = concat kept /\
    match dropped with g :: _ => m < str_len (concat (kept ++ [g])) | [] => True end.

Lemma truncate_cut_to s m : 0 <= m -> cut_to m s (truncate_graphemes s m).
Proof. intros Hm. destruct (truncate_graphemes_spec s m Hm) as (Hl & _ & _ & k & d & Hk). split; [done|]. by exists k, d. Qed.

Lemma count_pos p s : 0 < count p s <-> Exists (fun c => p c = true) s.
Proof.
  unfold count. induction s as [|c s IH]; cbn [List.filter].
  - rewrite Exists_nil. cbn. lia.
  - rewrite Exists_cons, <- IH. destruct (p c); cbn [length]; intuition (congruence || lia).
Qed.

Lemma in_filter_visible c s : c ∈ List.filter visible s -> visible c = true.
Proof. rewrite list_elem_of_In, filter_In. tauto. Qed.

Lemma classes_disjoint c :
  (is_c0_c1 c = true -> is_zero_width c = false /\ is_bidi c = false) /\
  (is_bidi c = true -> is_zero_width c = false).
Proof.
  unfold is_zero_width, is_bidi, is_c0_c1, is_unicode_tag, is_c0_control_disallowed, is_c1_control,
    between. cbn [existsb ZERO_WIDTH BIDI_OVERRIDE].
  rewrite !orb_false_iff, !andb_false_iff, !orb_true_iff, !andb_true_iff, !negb_true_iff, !Z.eqb_neq,
    !Z.leb_gt, !Z.eqb_eq, !Z.leb_le. lia.
Qed.

Lemma warn_iff (Q : Prop) `{Decision Q} c p location s : (Exists (fun c => p c = true) s <-> Q) ->
  map code (if 0 <? count p s then [warning_at c (lit "count=" ++ to_decimal (count p s)) location] else []) =
  if bool_decide Q then [c] else [].
Proof.
  rewrite <- count_pos. intros HQ. destruct (0 <? count p s) eqn:E; zify_bool; case_bool_decide as Hq; try done;
    exfalso; [tauto|]. apply HQ in Hq. lia.
Qed.

(** The text that leaves the pipeline. *)
Lemma sanitized_visible bytes charset m location : 0 <= m ->
  Forall harmless (sanitize bytes charset m location).1.
Proof.
  intros Hm. unfold sanitize. cbn [fst]. rewrite filter_codepoints_spec. cbn [text].
  set (pre := normalize_line_endings _).
  destruct (truncate_graphemes_spec (List.filter visible pre) m Hm) as (_ & (rest & Hr) & _).
  apply Forall_forall. intros c Hc.
  assert (Hin : c ∈ List.filter visible pre) by (rewrite Hr; apply elem_of_app; by left).
  by eapply visible_harmless, in_filter_visible.
Qed.

(** C35: What leaves the sanitiser.  The decoded text is cut to four times the
    limit, by whole grapheme clusters, normalised (NFKC) and given newlines for
    its line endings; the output is exactly the first clusters that fit the
    limit, in bytes, of its characters that are in none of three classes:
    U+200B-U+200D, U+2060, U+FEFF and the tags U+E0000-U+E007F; the bidi
    embeddings, overrides and isolates U+202A-U+202E and U+2066-U+2069; and the
    controls below U+0020 other than tab and newline, and U+0080-U+009F. So no
    character of these classes is in it, and there is a warning of each class
    exactly when a character of it was removed. Other format characters pass
    (the marks U+200E, U+200F and U+061C, the operators U+2061-U+2064, DEL). *)
Theorem sanitize_safe bytes charset m location : 0 <= m ->
  let '(out, warnings) := sanitize bytes charset m location in
  exists capped,
    cut_to (Z.min (2 ^ 64 - 1) (4 * m)) (decode bytes charset) capped /\
    let pre := one_newline (normalize_nfkc capped) in
    cut_to m (filter harmless pre) out /\ Forall harmless out /\
    map code warnings =
      (if bool_decide (Exists invisible pre) then [UnicodeZeroWidthStripped] else [])
      ++ (if bool_decide (Exists directional pre) then [UnicodeBidiOverrideStripped] else [])
      ++ (if bool_decide (Exists control pre) then [UnicodeC0C1Stripped] else []).
Proof.
  intros Hm. pose proof (sanitized_visible bytes charset m location Hm) as Hv. revert Hv. unfold sanitize.
  replace (saturating_mul m 4) with (Z.min (2 ^ 64 - 1) (4 * m)) by (unfold saturating_mul, usize_max, u64_max; lia).
  set (capped := truncate_graphemes (decode _ _) _). rewrite filter_codepoints_spec, line_endings_one_newline, filter_visible.
  cbn [text fst]. intros Hv. exists capped. split; [apply truncate_cut_to; lia|].
  set (pre := one_newline _) in *. split; [by apply truncate_cut_to|]. split; [done|]. clear.
  unfold build_warnings. rewrite !map_app. cbn [zero_width_stripped bidi_stripped c0_c1_stripped].
  assert (Hc : forall c, (is_zero_width c = true <-> invisible c) /\
    (negb (is_zero_width c) && is_bidi c = true <-> directional c) /\
    (negb (is_zero_width c) && negb (is_bidi c) && is_c0_c1 c = true <-> control c)).
  { intros c. destruct (classes_promised c) as (<- & <- & <-). pose proof (classes_disjoint c).
    rewrite !andb_true_iff, !negb_true_iff. naive_solver. }
  f_equal; [|f_equal]; apply warn_iff, exists_class, Hc.
Qed.
End pipeline.

(** A library where every character is its own cluster. *)
#[local] Instance plain_unicode : UnicodeLib.
Proof.
  refine {| decode := fun bytes _ => bytes; normalize_nfkc := fun s => s;
            graphemes := map (fun c => [c]) |}.
  - induction s; cbn; congruence.
  - intros s. apply Forall_forall. by intros g (c & -> & _)%list_elem_of_fmap.
  - done.
Defined.

Lemma sanitize_safe_witness :
  let '(out, warnings) := sanitize [72; 0x202E; 13; 10; 0x200B; 105; 33] None 3 (lit "subject") in
  out = [72; 10; 105] /\ Forall harmless out /\
  map code warnings = [UnicodeZeroWidthStripped; UnicodeBidiOverrideStripped].
Proof.
  assert (Hm : 0 <= 3) by (apply Z.leb_le; reflexivity).
  pose proof (sanitize_safe [72; 0x202E; 13; 10; 0x200B; 105; 33] None 3 (lit "subject") Hm) as (capped & _ & _ & H & _).
  split; [reflexivity|]. split; [exact H|reflexivity].
Defined.

(** The characters a folder name may not show are those the sanitiser strips
    as invisible or directional. *)
Lemma display_codepoints_lock_step c :
  is_rejected_display_codepoint c = is_zero_width c || is_bidi c.
Proof.
  apply eq_bool_prop_intro. unfold is_rejected_display_codepoint, is_zero_width, is_bidi, is_unicode_tag, between.
  cbn [existsb ZERO_WIDTH BIDI_OVERRIDE].
  rewrite !Is_true_true, !orb_true_iff, !andb_true_iff, !Z.eqb_eq, !Z.leb_le. lia.
Qed.
