(* ===== verification/MimeScrub.v ===== *)
(** * Scrubbing smuggled headers (crates/rimap-content/src/parse/mime_scrub.rs)

    On bytes.  The cursor of the span search is (line, offset); its loop runs on
    fuel, with a proof that the fuel given is enough.  What a kept line looks
    like is [closed]. *)

From Stdlib Require Import ZArith Lia.
From stdpp Require Import base option list strings.
From S2P Require Import Prelude RustStr Content Unicode.
Local Open Scope Z_scope.

(** [slice.windows(n).position(|w| w == pat)] for [pat] of [n] bytes. *)
Fixpoint find_sub (pat s : list Z) : option nat :=
  match strip_prefix pat s with
  | Some _ => Some 0%nat
  | None => match s with [] => None | _ :: s' => S <$> find_sub pat s' end
  end.

Definition CRLF : list Z := [13; 10].

(* [crates/rimap-content/src/parse/mime_scrub.rs:156-164] find_header_end *)
Definition find_header_end (raw : list Z) : option (nat * nat) :=
  match find_sub (CRLF ++ CRLF) raw with
  | Some pos => Some ((pos + 2)%nat, 2%nat)
  | None =>
      match find_sub [10; 10] raw with
      | Some pos => Some ((pos + 1)%nat, 1%nat)
      | None => None
      end
  end.

(** [cur] is the line so far. *)
(* [crates/rimap-content/src/parse/mime_scrub.rs:170-201] split_header_lines *)
Fixpoint split_lines_from (cur s : list Z) : list (list Z) :=
  match s with
  | [] => match cur with [] => [] | _ => [cur] end
  | b :: s' =>
      if b =? 10 then
        match s' with
        | next :: _ =>
            if (next =? 32) || (next =? 9) then split_lines_from (cur ++ [b]) s'
            else (cur ++ [b]) :: split_lines_from [] s'
        | [] => [cur ++ [b]]
        end
      else split_lines_from (cur ++ [b]) s'
  end.
(* [crates/rimap-content/src/parse/mime_scrub.rs:170-201] split_header_lines *)
Definition split_header_lines (headers : list Z) : list (list Z) := split_lines_from [] headers.

(* [crates/rimap-content/src/parse/mime_scrub.rs:112-119] EncodedWordEnd *)
Inductive EncodedWordEnd := SameHeader (at_ : nat) | LaterHeader (index : nat) | Missing.

Definition opener : list Z := lit "=?".
Definition terminator : list Z := lit "?=".

(** The first of the lines from [index] on that holds a terminator. *)
Fixpoint later_end (index : nat) (lines : list (list Z)) : option nat :=
  match lines with
  | [] => None
  | line :: lines => match find_sub terminator line with Some _ => Some index | None => later_end (S index) lines end
  end.

(* [crates/rimap-content/src/parse/mime_scrub.rs:123-146] locate_encoded_word_end *)
Definition locate_encoded_word_end (logical : list (list Z)) (start_idx start_offset : nat) : EncodedWordEnd :=
  let first := default [] (logical !! start_idx) in
  match (if (start_offset <? length first)%nat then find_sub terminator (drop start_offset first) else None) with
  | Some rel => SameHeader (start_offset + rel)
  | None =>
      match later_end (S start_idx) (drop (S start_idx) logical) with
      | Some index => LaterHeader index
      | None => Missing
      end
  end.

(** [for flag in mask.iter_mut().take(hi).skip(lo) { *flag = true }]. *)
Definition mark (lo hi : nat) (mask : list bool) : list bool :=
  imap (fun i flag => flag || ((lo <=? i)%nat && (i <? hi)%nat)) mask.

(* [crates/rimap-content/src/parse/mime_scrub.rs:80-106] detect_smuggling_spans *)
Fixpoint spans (fuel : nat) (logical : list (list Z)) (idx scan_from : nat) (mask : list bool) : list bool :=
  match fuel with
  | O => mask
  | S fuel =>
      match logical !! idx with
      | None => mask
      | Some header =>
          let search_start := Nat.min scan_from (length header) in
          match find_sub opener (drop search_start header) with
          | None => spans fuel logical (S idx) 0 mask
          | Some rel =>
              let start_pos := (search_start + rel)%nat in
              match locate_encoded_word_end logical idx (start_pos + 2) with
              | SameHeader end_rel => spans fuel logical idx (end_rel + 2) mask
              | LaterHeader end_idx => spans fuel logical (S end_idx) 0 (mark idx (S end_idx) mask)
              | Missing => spans fuel logical (S idx) 0 (mark idx (S idx) mask)
              end
          end
      end
  end.

(** More steps than the cursor can make. *)
Definition spans_fuel (logical : list (list Z)) : nat := S (length (concat logical) + length logical).

(* [crates/rimap-content/src/parse/mime_scrub.rs:76-108] detect_smuggling_spans *)
Definition detect_smuggling_spans (logical : list (list Z)) : list bool :=
  spans (spans_fuel logical) logical 0 0 (replicate (length logical) false).

Section scrub.
Context `{UnicodeLib}.

(** The name a dropped line is reported under: sanitised, not empty. *)
(* [crates/rimap-content/src/parse/mime_scrub.rs:43-51] scrub_header_smuggling *)
Definition dropped_name (line : list Z) : option rstr :=
  match split_once 58 line with
  | Some (name, _) =>
      if utf8_valid name then
        match (sanitize name (Some (lit "utf-8")) 64 (lit "headers")).1 with [] => None | text => Some text end
      else None
  | None => None
  end.

(* [crates/rimap-content/src/parse/mime_scrub.rs:35-56] scrub_header_smuggling *)
Fixpoint keep_lines (lines : list (list Z)) (mask : list bool) (kept : list Z) (names : list rstr) : list Z * list rstr :=
  match lines, mask with
  | line :: lines, true :: mask =>
      keep_lines lines mask kept
        (if (length names <? 8)%nat then match dropped_name line with Some n => names ++ [n] | None => names end else names)
  | line :: lines, false :: mask => keep_lines lines mask (kept ++ line) names
  | _, _ => (kept, names)
  end.

(** The scrubbed message and the warnings pushed. *)
(* [crates/rimap-content/src/parse/mime_scrub.rs:21-70] scrub_header_smuggling *)
Definition scrub_header_smuggling (raw : list Z) : list Z * list SecurityWarning :=
  match find_header_end raw with
  | None => (raw, [])
  | Some (header_end, _) =>
      let headers := take header_end raw in
      let body := drop header_end raw in
      let logical := split_header_lines headers in
      let drop_mask := detect_smuggling_spans logical in
      let dropped := Z.of_nat (length (List.filter id drop_mask)) in
      let '(kept, names) := keep_lines logical drop_mask [] [] in
      let detail := match names with
                    | [] => lit "count=" ++ to_decimal dropped
                    | _ => lit "count=" ++ to_decimal dropped ++ lit " names=[" ++ join (lit ",") names ++ lit "]"
                    end in
      (kept ++ body, if 0 <? dropped then [warning_at ParseHeaderSmugglingBlocked detail (lit "headers")] else [])
  end.
End scrub.

(** ** Positions *)

Lemma find_sub_Some pat s n : find_sub pat s = Some n -> (n + length pat <= length s)%nat /\ exists r, drop n s = pat ++ r.
Proof.
  revert n. induction s as [|c s IH]; intros n; cbn.
  - destruct (strip_prefix pat []) as [r|] eqn:E; [|done]. intros [= <-]. apply strip_prefix_Some in E.
    symmetry in E. apply app_eq_nil in E as [-> ->]. cbn. eauto.
  - destruct (strip_prefix pat (c :: s)) as [r|] eqn:E.
    + intros [= <-]. apply strip_prefix_Some in E. rewrite drop_0. split; [|eauto].
      apply (f_equal length) in E. rewrite length_app in E. cbn in *. lia.
    + intros (m & Hm & ->)%fmap_Some. destruct (IH m Hm) as [Hl Hr]. cbn. split; [lia|done].
Qed.

Lemma split_lines_concat cur s : concat (split_lines_from cur s) = cur ++ s.
Proof.
  revert cur. induction s as [|b s IH]; intros cur; cbn [split_lines_from].
  - destruct cur; cbn; by rewrite ?app_nil_r.
  - destruct (b =? 10); [destruct s as [|next s']|].
    + cbn. by rewrite app_nil_r.
    + destruct (_ || _); [by rewrite IH, <- app_assoc|]. cbn [concat]. rewrite IH. by rewrite <- app_assoc.
    + by rewrite IH, <- app_assoc.
Qed.

Lemma split_header_lines_concat headers : concat (split_header_lines headers) = headers.
Proof. apply split_lines_concat. Qed.

(** ** Closed lines *)

(** Every opener, read from the left, has its terminator in the line. *)
Inductive closed : list Z -> Prop :=
  | closed_none l : find_sub opener l = None -> closed l
  | closed_word l p e : find_sub opener l = Some p -> find_sub terminator (drop (p + 2) l) = Some e ->
      closed (drop (p + 2 + e + 2) l) -> closed l.

Lemma closed_next l p e : find_sub opener l = Some p -> find_sub terminator (drop (p + 2) l) = Some e ->
  closed l -> closed (drop (p + 2 + e + 2) l).
Proof.
  intros Hp He Hc. destruct Hc as [l Hn|l p' e' Hp' He' Hc']; [congruence|].
  rewrite Hp in Hp'. injection Hp' as <-. rewrite He in He'. by injection He' as <-.
Qed.

Lemma not_closed l p : find_sub opener l = Some p -> find_sub terminator (drop (p + 2) l) = None -> ~ closed l.
Proof.
  intros Hp He Hc. destruct Hc as [l Hn|l p' e' Hp' He' Hc']; [congruence|]. rewrite Hp in Hp'. injection Hp' as <-. congruence.
Qed.

(** What the search for a terminator tells. *)
Lemma locate_spec logical idx h off : logical !! idx = Some h ->
  match locate_encoded_word_end logical idx off with
  | SameHeader e => exists rel, find_sub terminator (drop off h) = Some rel /\ e = (off + rel)%nat
  | LaterHeader j => find_sub terminator (drop off h) = None /\ (idx < j)%nat /\
      (forall k l, (idx < k < j)%nat -> logical !! k = Some l -> find_sub terminator l = None)
  | Missing => find_sub terminator (drop off h) = None
  end.
Proof.
  intros Hh. unfold locate_encoded_word_end. rewrite Hh. cbn [from_option id].
  assert (Hshort : (if (off <? length h)%nat then find_sub terminator (drop off h) else None) = find_sub terminator (drop off h)).
  { destruct (Nat.ltb_spec off (length h)); [done|]. by rewrite drop_ge. }
  rewrite Hshort. destruct (find_sub terminator (drop off h)) as [rel|] eqn:E; [eauto|].
  assert (Hl : forall n lines, match later_end n lines with
    | Some j => (n <= j)%nat /\ forall k l, (n <= k < j)%nat -> lines !! (k - n)%nat = Some l -> find_sub terminator l = None
    | None => True end).
  { clear. intros n lines. revert n. induction lines as [|l lines IH]; intros n; cbn [later_end]; [done|].
    destruct (find_sub terminator l) eqn:El; [split; [lia|]; intros; lia|]. specialize (IH (S n)).
    destruct (later_end (S n) lines) as [j|]; [|done]. destruct IH as [Hj Hk]. split; [lia|].
    intros k l' Hkj Hl'. destruct (decide (k = n)) as [->|].
    - rewrite Nat.sub_diag in Hl'. by injection Hl' as <-.
    - apply (Hk k l'); [lia|]. replace (k - n)%nat with (S (k - S n)) in Hl' by lia. exact Hl'. }
  specialize (Hl (S idx) (drop (S idx) logical)). destruct (later_end _ _) as [j|]; [|done].
  destruct Hl as [Hj Hk]. split; [done|]. split; [lia|]. intros k l Hkj Hl. apply (Hk k l); [lia|].
  rewrite lookup_drop. by replace (S idx + (k - S idx))%nat with k by lia.
Qed.

(** ** The span search *)

Lemma mark_length lo hi mask : length (mark lo hi mask) = length mask.
Proof. apply length_imap. Qed.

Lemma mark_lookup lo hi mask i b : mask !! i = Some b ->
  mark lo hi mask !! i = Some (b || ((lo <=? i)%nat && (i <? hi)%nat)).
Proof. intros Hi. unfold mark. by rewrite list_lookup_imap, Hi. Qed.

(** What is left to scan. *)
Definition left_over (logical : list (list Z)) (idx scan_from : nat) : nat :=
  (length (concat (drop idx logical)) + length (drop idx logical) - Nat.min scan_from (length (default [] (logical !! idx))))%nat.

Lemma left_over_later logical idx j h : logical !! idx = Some h -> (idx < j)%nat ->
  (left_over logical j 0 + length h + 1 <= length (concat (drop idx logical)) + length (drop idx logical))%nat.
Proof.
  intros Hh Hj. unfold left_over. rewrite Nat.min_0_l, Nat.sub_0_r.
  assert (Hd : drop idx logical = h :: drop (S idx) logical) by (by apply drop_S).
  rewrite Hd. cbn [concat length]. rewrite length_app.
  rewrite <- (take_drop (j - S idx) (drop (S idx) logical)), drop_drop.
  replace (S idx + (j - S idx))%nat with j by lia. rewrite concat_app, !length_app. lia.
Qed.

(** From [mask] with the cursor at line [idx], offset [scan_from], to [mask']:
    marks are only added, at the cursor or after; what stays unmarked has been
    scanned through; what is marked follows a line that is not closed. *)
Definition scanned (logical : list (list Z)) (idx scan_from : nat) (mask mask' : list bool) : Prop :=
  length mask' = length logical /\
  forall i b, mask !! i = Some b ->
    exists b', mask' !! i = Some b' /\ (b = true -> b' = true) /\ ((i < idx)%nat -> b' = b) /\
      (b' = false -> forall h, logical !! i = Some h -> (idx <= i)%nat ->
         closed (if decide (i = idx) then drop (Nat.min scan_from (length h)) h else h)) /\
      (b = false -> b' = true -> exists j h, (idx <= j <= i)%nat /\ logical !! j = Some h /\ ~ closed h /\
         forall k l, (j < k < i)%nat -> logical !! k = Some l -> find_sub terminator l = None).

Lemma scanned_end logical idx scan_from mask : logical !! idx = None -> length mask = length logical ->
  scanned logical idx scan_from mask mask.
Proof.
  intros Eh Hlen. split; [done|]. intros i b Hi. exists b. split_and!; [done..| |congruence].
  intros _ h Hh Hge. apply lookup_ge_None in Eh. apply lookup_lt_Some in Hh. lia.
Qed.

Lemma scanned_line logical idx scan_from mask mask' h : logical !! idx = Some h ->
  find_sub opener (drop (Nat.min scan_from (length h)) h) = None ->
  scanned logical (S idx) 0 mask mask' -> scanned logical idx scan_from mask mask'.
Proof.
  intros Eh Eo [Hl Hm]. split; [done|]. intros i b Hi. destruct (Hm i b Hi) as (b' & Hb & Hmono & Hpre & Hcl & Hmk).
  exists b'. split_and!; [done|done|intros; apply Hpre; lia| |].
  - intros Hb' h' Hh' Hge. destruct (decide (i = idx)) as [->|].
    + rewrite Eh in Hh'. injection Hh' as <-. apply closed_none. exact Eo.
    + specialize (Hcl Hb' h' Hh' ltac:(lia)). destruct (decide _) as [->|]; [|done].
      by rewrite Nat.min_0_l, drop_0 in Hcl.
  - intros Hb0 Hb1. destruct (Hmk Hb0 Hb1) as (j & hj & Hj & ?). exists j, hj. split; [lia|done].
Qed.

Lemma scanned_word logical idx scan_from mask mask' h p e : logical !! idx = Some h ->
  let rest := drop (Nat.min scan_from (length h)) h in
  find_sub opener rest = Some p -> find_sub terminator (drop (p + 2) rest) = Some e ->
  (Nat.min scan_from (length h) + (p + 2 + e + 2) <= length h)%nat ->
  scanned logical idx (Nat.min scan_from (length h) + (p + 2 + e + 2)) mask mask' ->
  scanned logical idx scan_from mask mask'.
Proof.
  intros Eh rest Eo Et Hle [Hl Hm]. split; [done|]. intros i b Hi.
  destruct (Hm i b Hi) as (b' & Hb & Hmono & Hpre & Hcl & Hmk).
  exists b'. split_and!; [done..| |done]. intros Hb' h' Hh' Hge. specialize (Hcl Hb' h' Hh' Hge).
  destruct (decide (i = idx)) as [->|]; [|done]. rewrite Eh in Hh'. injection Hh' as <-.
  rewrite Nat.min_l in Hcl by done. rewrite <- drop_drop in Hcl. by eapply closed_word.
Qed.

Lemma scanned_skip logical idx scan_from mask mask' h m : logical !! idx = Some h -> ~ closed h -> (idx <= m)%nat ->
  (forall k l, (idx < k < m)%nat -> logical !! k = Some l -> find_sub terminator l = None) ->
  scanned logical (S m) 0 (mark idx (S m) mask) mask' -> scanned logical idx scan_from mask mask'.
Proof.
  intros Eh Hnc Hm Hno [Hl Hb]. split; [done|]. intros i b Hi.
  destruct (Hb i _ (mark_lookup idx (S m) mask i b Hi)) as (b' & Hb' & Hmono & Hpre & Hcl & Hmk). exists b'. split; [done|].
  destruct (decide (idx <= i < S m)%nat) as [Hin|Hout].
  - assert (E : (idx <=? i)%nat && (i <? S m)%nat = true) by (apply andb_true_iff; rewrite Nat.leb_le, Nat.ltb_lt; lia).
    rewrite E, orb_true_r in Hmono. specialize (Hmono eq_refl). subst b'. split_and!; [done|lia|done|].
    intros _ _. exists idx, h. split_and!; [lia..|done|done|]. intros k l Hk. apply Hno. lia.
  - assert (E : (idx <=? i)%nat && (i <? S m)%nat = false).
    { apply andb_false_iff. rewrite Nat.leb_gt, Nat.ltb_ge. lia. }
    rewrite E, orb_false_r in *. split_and!; [done|intros; apply Hpre; lia| |].
    + intros Hf' h' Hh' Hge. specialize (Hcl Hf' h' Hh' ltac:(lia)).
      destruct (decide (i = idx)); [lia|]. destruct (decide _); [by rewrite Nat.min_0_l, drop_0 in Hcl|done].
    + intros H0 H1. destruct (Hmk H0 H1) as (j & hj & Hj & ?). exists j, hj. split; [lia|done].
Qed.

(** [spans] scans to the end when it has fuel for what is left. *)
Lemma spans_spec logical fuel : forall idx scan_from mask,
  (left_over logical idx scan_from < fuel)%nat -> length mask = length logical ->
  (forall h, logical !! idx = Some h -> closed h -> closed (drop (Nat.min scan_from (length h)) h)) ->
  scanned logical idx scan_from mask (spans fuel logical idx scan_from mask).
Proof.
  induction fuel as [|fuel IH]; intros idx scan_from mask Hf Hlen Hinv; [lia|]. cbn [spans].
  destruct (logical !! idx) as [h|] eqn:Eh; [|by apply scanned_end].
  unfold left_over in Hf. rewrite Eh in Hf. cbn [from_option id] in Hf. specialize (Hinv h eq_refl).
  assert (Hnext : forall j mask, (idx < j)%nat -> length mask = length logical ->
    scanned logical j 0 mask (spans fuel logical j 0 mask)).
  { intros j mask' Hj Hl. apply IH; [|done|by intros; rewrite Nat.min_0_l, drop_0].
    pose proof (left_over_later logical idx j h Eh Hj). lia. }
  destruct (find_sub opener _) as [p|] eqn:Eo; [|eapply scanned_line; [done..|apply Hnext; [lia|done]]].
  destruct (find_sub_Some _ _ _ Eo) as [Hp _]. rewrite length_drop in Hp. change (length opener) with 2%nat in Hp.
  pose proof (locate_spec logical idx h (Nat.min scan_from (length h) + p + 2) Eh) as Hloc.
  rewrite <- Nat.add_assoc, <- drop_drop in Hloc. rewrite <- Nat.add_assoc.
  destruct (locate_encoded_word_end logical idx _) as [e|j|].
  - destruct Hloc as (e' & Ht & ->). destruct (find_sub_Some _ _ _ Ht) as [He _].
    rewrite !length_drop in He. change (length terminator) with 2%nat in He.
    replace (Nat.min scan_from (length h) + (p + 2) + e' + 2)%nat
      with (Nat.min scan_from (length h) + (p + 2 + e' + 2))%nat by lia.
    eapply scanned_word; [done..|lia|]. apply IH; [|done|].
    + pose proof (left_over_later logical idx (S idx) h Eh ltac:(lia)). unfold left_over. rewrite Eh.
      cbn [from_option id]. lia.
    + intros h' Hh' Hc. rewrite Eh in Hh'. injection Hh' as <-. rewrite Nat.min_l by lia. rewrite <- drop_drop.
      by eapply closed_next, Hinv.
  - destruct Hloc as (Ht & Hj & Hno). eapply (scanned_skip _ _ _ _ _ h j); [done| |lia|done|].
    + intros Hc. by apply (not_closed _ _ Eo Ht), Hinv.
    + apply Hnext; [lia|by rewrite mark_length].
  - eapply (scanned_skip _ _ _ _ _ h idx); [done| |lia|intros; lia|].
    + intros Hc. by apply (not_closed _ _ Eo Hloc), Hinv.
    + apply Hnext; [lia|by rewrite mark_length].
Qed.

(** ** The scrubbed message *)

Definition kept_lines (lines : list (list Z)) (mask : list bool) : list (list Z) :=
  map fst (List.filter (fun x => negb (snd x)) (zip lines mask)).

Lemma kept_lines_cons line lines b mask :
  kept_lines (line :: lines) (b :: mask) = (if b then [] else [line]) ++ kept_lines lines mask.
Proof. by destruct b. Qed.

Lemma kept_lines_sublist lines mask : sublist (kept_lines lines mask) lines.
Proof.
  revert mask. induction lines as [|l lines IH]; intros [|b mask]; try by apply sublist_nil_l.
  rewrite kept_lines_cons. destruct b; cbn; by constructor.
Qed.

Lemma kept_lines_elem lines mask line : line ∈ kept_lines lines mask ->
  exists i, lines !! i = Some line /\ mask !! i = Some false.
Proof.
  revert mask. induction lines as [|l lines IH]; intros [|b mask]; try by intros ?%elem_of_nil.
  rewrite kept_lines_cons. intros [Hin|Hin]%elem_of_app.
  - destruct b; [by apply elem_of_nil in Hin|]. apply list_elem_of_singleton in Hin as ->. by exists 0%nat.
  - destruct (IH mask Hin) as (i & ? & ?). by exists (S i).
Qed.

Lemma kept_lines_all lines mask : length mask = length lines -> Forall (fun b => b = false) mask -> kept_lines lines mask = lines.
Proof.
  revert mask. induction lines as [|l lines IH]; intros [|b mask] Hl Hf; try done.
  apply Forall_cons in Hf as [-> Hf]. rewrite kept_lines_cons, IH; [done|by injection Hl|done].
Qed.

Lemma kept_lines_app l1 l2 m1 m2 : length l1 = length m1 -> kept_lines (l1 ++ l2) (m1 ++ m2) = kept_lines l1 m1 ++ kept_lines l2 m2.
Proof. intros Hl. unfold kept_lines. by rewrite zip_with_app, List.filter_app, map_app. Qed.

Lemma kept_lines_length lines mask : length mask = length lines ->
  (length (kept_lines lines mask) + length (List.filter id mask) = length lines)%nat.
Proof.
  revert mask. induction lines as [|l lines IH]; intros [|b mask] Hl; try done.
  rewrite kept_lines_cons, length_app. cbn in Hl. specialize (IH mask ltac:(lia)).
  cbn [List.filter]. unfold id at 1. destruct b; cbn [length]; lia.
Qed.

(** A sublist as long as the list is the list. *)
Lemma sublist_all_length {A} (l k : list A) : sublist l k -> (length k <= length l)%nat -> l = k.
Proof.
  induction 1 as [|x l k Hs IH|x l k Hs IH]; cbn; intros Hl; [done|f_equal; apply IH; lia|].
  apply sublist_length in Hs. lia.
Qed.

Section scrubbed.
Context `{UnicodeLib}.

Lemma keep_lines_spec lines mask kept names : (keep_lines lines mask kept names).1 = kept ++ concat (kept_lines lines mask).
Proof.
  revert mask kept names. induction lines as [|l lines IH]; intros [|b mask] kept names; try by cbn; rewrite app_nil_r.
  rewrite kept_lines_cons. destruct b; cbn [keep_lines]; rewrite IH; [done|]. cbn. by rewrite <- app_assoc.
Qed.

(** The mask of a header block. *)
Lemma detect_spec logical : scanned logical 0 0 (replicate (length logical) false) (detect_smuggling_spans logical).
Proof.
  apply spans_spec.
  - unfold left_over, spans_fuel. rewrite drop_0. lia.
  - apply length_replicate.
  - intros h _ Hc. by rewrite Nat.min_0_l, drop_0.
Qed.

Lemma detect_false logical i line : logical !! i = Some line -> detect_smuggling_spans logical !! i = Some false -> closed line.
Proof.
  intros Hi Hm. destruct (detect_spec logical) as [_ Hd].
  assert (Hr : replicate (length logical) false !! i = Some false) by (apply lookup_replicate_2; by eapply lookup_lt_Some).
  destruct (Hd i false Hr) as (b' & Hb' & _ & _ & Hcl & _). rewrite Hm in Hb'. injection Hb' as <-.
  specialize (Hcl eq_refl line Hi ltac:(lia)). destruct (decide (i = 0%nat)); [by rewrite Nat.min_0_l, drop_0 in Hcl|done].
Qed.

Lemma detect_true logical i : detect_smuggling_spans logical !! i = Some true ->
  exists j line, (j <= i)%nat /\ logical !! j = Some line /\ ~ closed line /\
    forall k l, (j < k < i)%nat -> logical !! k = Some l -> find_sub terminator l = None.
Proof.
  intros Hm. destruct (detect_spec logical) as [Hl Hd].
  assert (Hr : replicate (length logical) false !! i = Some false).
  { apply lookup_replicate_2. rewrite <- Hl. by eapply lookup_lt_Some. }
  destruct (Hd i false Hr) as (b' & Hb' & _ & _ & _ & Hmk). rewrite Hm in Hb'. injection Hb' as <-.
  destruct (Hmk eq_refl eq_refl) as (j & line & Hj & ?). exists j, line. split; [lia|done].
Qed.

(** The lines before the first line that is not closed are not touched. *)
Lemma kept_prefix logical n : Forall closed (take n logical) ->
  take n logical `prefix_of` kept_lines logical (detect_smuggling_spans logical).
Proof.
  intros Hc. destruct (detect_spec logical) as [Hl _].
  exists (kept_lines (drop n logical) (drop n (detect_smuggling_spans logical))).
  rewrite <- (take_drop n logical) at 1. rewrite <- (take_drop n (detect_smuggling_spans logical)) at 1.
  rewrite kept_lines_app by (rewrite !length_take; lia). f_equal. apply kept_lines_all.
  - rewrite !length_take. lia.
  - apply Forall_lookup. intros i b Hi. apply lookup_take_Some in Hi as [Hi Hn]. destruct b; [|done].
    destruct (detect_true _ _ Hi) as (j & line & Hj & Hline & Hnc & _). exfalso. apply Hnc.
    rewrite Forall_lookup in Hc. apply (Hc j). apply lookup_take_Some. split; [done|lia].
Qed.

(** Smuggled headers are removed and nothing else.  When the header block
    ends, the scrubbed message is a sublist of its logical lines, in order,
    followed by the body unchanged; in every line kept, each encoded word that
    begins ends in that line; a line is dropped only at or after one that
    breaks this rule, so a block that keeps it is returned as it came; and
    there is one warning, of this code, exactly when a line was dropped. *)
Theorem scrub_exact raw header_end sep : find_header_end raw = Some (header_end, sep) ->
  let logical := split_header_lines (take header_end raw) in
  exists kept, (scrub_header_smuggling raw).1 = concat kept ++ drop header_end raw /\
    sublist kept logical /\ Forall closed kept /\
    (forall n, Forall closed (take n logical) -> take n logical `prefix_of` kept) /\
    map code (scrub_header_smuggling raw).2 =
      (if bool_decide (kept = logical) then [] else [ParseHeaderSmugglingBlocked]).
Proof.
  intros He logical. destruct (detect_spec logical) as [Hl _].
  exists (kept_lines logical (detect_smuggling_spans logical)). split_and!.
  - unfold scrub_header_smuggling. rewrite He. fold logical.
    pose proof (keep_lines_spec logical (detect_smuggling_spans logical) [] []) as Hk.
    destruct (keep_lines _ _ _ _) as [kept names]. cbn in Hk |- *. by rewrite Hk.
  - apply kept_lines_sublist.
  - apply Forall_forall. intros line (i & Hi & Hm)%kept_lines_elem. by eapply detect_false.
  - intros n. apply kept_prefix.
  - unfold scrub_header_smuggling. rewrite He. fold logical. destruct (keep_lines _ _ _ _) as [kept names].
    pose proof (kept_lines_length logical (detect_smuggling_spans logical) Hl) as Hlen. cbn [snd].
    case_bool_decide as Hk.
    + rewrite Hk in Hlen. by replace (length (List.filter id (detect_smuggling_spans logical))) with 0%nat by lia.
    + destruct (0 <? _) eqn:E; [by destruct names|]. zify_bool. exfalso. apply Hk.
      apply sublist_all_length; [apply kept_lines_sublist|fold logical in Hlen; lia].
Qed.
End scrubbed.

#[local] Existing Instance plain_unicode.

Definition smuggled : list Z :=
  lit "To: a@b.c" ++ CRLF ++ lit "Subject: =?utf-8?Q?a" ++ CRLF ++ lit "Bcc: x?=" ++ CRLF ++ lit "Date: now" ++ CRLF.

Definition smuggled_message : list Z := smuggled ++ CRLF ++ lit "hi =?".

Lemma scrub_exact_witness :
  let logical := split_header_lines (take (length smuggled) smuggled_message) in
  length logical = 4%nat /\
  exists kept, (scrub_header_smuggling smuggled_message).1 = concat kept ++ CRLF ++ lit "hi =?" /\
    Forall closed kept /\ take 1 logical `prefix_of` kept /\
    map code (scrub_header_smuggling smuggled_message).2 = [ParseHeaderSmugglingBlocked].
Proof.
  assert (He : find_header_end smuggled_message = Some (length smuggled, 2%nat)) by (vm_compute; reflexivity).
  split; [vm_compute; reflexivity|].
  destruct (scrub_exact _ _ _ He) as (kept & Hk & _ & Hc & Hp & _). exists kept. split_and!.
  - exact Hk.
  - exact Hc.
  - apply Hp. repeat constructor.
  - vm_compute. reflexivity.
Defined.

(** ** What the scrubber lets through *)

(** A header block that runs to the end of the message, or whose blank line
    mixes both line ends, is not looked at. *)
Lemma unterminated_unscrubbed :
  let mixed := take (length smuggled - 2) smuggled ++ [10; 13; 10] ++ lit "hi" in
  scrub_header_smuggling smuggled = (smuggled, []) /\ scrub_header_smuggling mixed = (mixed, []).
Proof. split; vm_compute; reflexivity. Qed.

(** Where lines end in LF, a CRLF pair further down is taken for the end of the
    headers, and lines of the body are dropped. *)
Lemma body_lines_dropped :
  let headers := lit "Subject: hi" ++ [10; 10] in
  let body := lit "if a =? b" ++ [10] ++ lit "then" ++ CRLF ++ CRLF ++ lit "end" in
  (scrub_header_smuggling (headers ++ body)).1 = headers ++ lit "then" ++ CRLF ++ CRLF ++ lit "end".
Proof. vm_compute. reflexivity. Qed.

(** A line break inside an encoded word is kept when the line is folded there. *)
Lemma folded_word_kept :
  let raw := lit "Subject: =?utf-8?Q?a" ++ CRLF ++ lit " b?=" ++ CRLF ++ CRLF ++ lit "hi" in
  scrub_header_smuggling raw = (raw, []).
Proof. vm_compute. reflexivity. Qed.
