(* ===== verification/SearchTool.v ===== *)
(** * The search tool (crates/rimap-server/src/tools/retrieval/search.rs)

    From the call's arguments to the SEARCH key, the page of results and the
    body previews.  The account's IMAP operations, the message parser and the
    date parser are arguments ([SearchEnv]); each is used with the result it
    returns at its call, so an arbitrary function of its arguments stands for
    any server. *)

From Stdlib Require Import ZArith Lia.
From stdpp Require Import base option list strings sorting sets.
From S2P Require Import Prelude RustStr Tools Errors ImapErrors Names Json Uids ToolCall UidSet Fetch Content.
From S2P Require Import Validation SearchKey Unicode.
Local Open Scope Z_scope.

(* [crates/rimap-server/src/tools/retrieval/search.rs:26-29] MAX_LIMIT *)
Definition MAX_LIMIT : Z := 100.
(* [crates/rimap-server/src/tools/retrieval/search.rs:31-33] MAX_BODY_PREVIEW_BYTES *)
Definition MAX_BODY_PREVIEW_BYTES : Z := 1024.
(* [crates/rimap-server/src/tools/retrieval/search.rs:35-38] MAX_PREVIEW_MESSAGES *)
Definition MAX_PREVIEW_MESSAGES : nat := 50.
(* [crates/rimap-server/src/tools/retrieval/search.rs:40-44] MAX_HEADERS *)
Definition MAX_HEADERS : Z := 32.
(* [crates/rimap-server/src/tools/retrieval/search.rs:460-463] MAX_THREAD_ANCESTOR_IDS *)
Definition MAX_THREAD_ANCESTOR_IDS : nat := 50.

(* [crates/rimap-server/src/tools/retrieval/search.rs:46-54] HeaderInput *)
Record HeaderInput := mkHeaderInput { hi_name : rstr; hi_value : rstr }.

(* [crates/rimap-server/src/tools/retrieval/search.rs:67-190] SearchInput *)
Record SearchInput := mkSearchInput {
  folder : rstr;
  i_from : option rstr; i_to : option rstr; i_cc : option rstr; i_bcc : option rstr;
  i_subject : option rstr; i_body : option rstr; i_text : option rstr;
  i_headers : option (list HeaderInput);
  i_larger : option Z; i_smaller : option Z;
  i_since : option rstr; i_before : option rstr;
  i_sent_since : option rstr; i_sent_before : option rstr;
  i_seen : option bool; i_answered : option bool; i_flagged : option bool; i_draft : option bool;
  i_has_attachment : option bool;
  advanced_query : option rstr;
  limit : option Z; offset : option Z;
  newest_first : option bool;
  body_preview_bytes : option Z;
  thread_of_uid : option Z }.

(** ** Reading the arguments: serde's derived decoder *)

Definition de_opt_string (v : option json) : option (option rstr) :=
  match v with
  | None | Some JNull => Some None
  | Some (JStr s) => Some (Some s)
  | Some _ => None
  end.
Definition de_opt_bool (v : option json) : option (option bool) :=
  match v with
  | None | Some JNull => Some None
  | Some (JBool b) => Some (Some b)
  | Some _ => None
  end.
(** A struct is read from an object or from the array of its fields. *)
Definition de_header (v : json) : option HeaderInput :=
  match v with
  | JObj entries =>
      n ← jget entries (lit "name") ≫= as_json_str;
      v ← jget entries (lit "value") ≫= as_json_str;
      Some (mkHeaderInput n v)
  | JArr [JStr n; JStr v] => Some (mkHeaderInput n v)
  | _ => None
  end.
Definition de_opt_headers (v : option json) : option (option (list HeaderInput)) :=
  match v with
  | None | Some JNull => Some None
  | Some (JArr l) => hs ← mapM de_header l; Some (Some hs)
  | Some _ => None
  end.
Definition ok_of {E A} (r : result E A) : option A := match r with Ok a => Some a | Err _ => None end.

(* [crates/rimap-server/src/tools/retrieval/search.rs:67-190] SearchInput::deserialize *)
Definition deserialize_search_input (args : jmap) : option SearchInput :=
  let str k := de_opt_string (jget args (lit k)) in
  let flag k := de_opt_bool (jget args (lit k)) in
  folder ← jget args (lit "folder") ≫= as_json_str;
  from ← str "from"; to ← str "to"; cc ← str "cc"; bcc ← str "bcc";
  subject ← str "subject"; body ← str "body"; text ← str "text";
  headers ← de_opt_headers (jget args (lit "headers"));
  larger ← ok_of (deserialize_opt_u64 (jget args (lit "larger")));
  smaller ← ok_of (deserialize_opt_u64 (jget args (lit "smaller")));
  since ← str "since"; before ← str "before";
  sent_since ← str "sent_since"; sent_before ← str "sent_before";
  seen ← flag "seen"; answered ← flag "answered"; flagged ← flag "flagged"; draft ← flag "draft";
  has_attachment ← flag "has_attachment";
  advanced_query ← str "advanced_query";
  limit ← ok_of (deserialize_opt_usize (jget args (lit "limit")));
  offset ← ok_of (deserialize_opt_usize (jget args (lit "offset")));
  newest_first ← flag "newest_first";
  body_preview_bytes ← ok_of (deserialize_opt_usize (jget args (lit "body_preview_bytes")));
  thread_of_uid ← ok_of (deserialize_opt_nonzero_u32 (jget args (lit "thread_of_uid")));
  Some (mkSearchInput folder from to cc bcc subject body text headers larger smaller since before
    sent_since sent_before seen answered flagged draft has_attachment advanced_query limit offset
    newest_first body_preview_bytes thread_of_uid).

(** ** The query *)

(* [crates/rimap-imap/src/types.rs:349-368] SearchQuery *)
Inductive SearchQuery := Structured (q : StructuredQuery) | Raw (key : rstr).

(* [crates/rimap-server/src/tools/retrieval/search.rs:792-809] require_non_empty *)
Definition require_non_empty (field : rstr) (value : option rstr) : result RimapError (option rstr) :=
  match value with
  | None => Ok None
  | Some s =>
      if bool_decide (trim s = [])
      then Err (invalid_input (field ++ lit " must not be empty or whitespace-only"))
      else Ok (Some s)
  end.

(* [crates/rimap-server/src/tools/retrieval/search.rs:730-747] build_query *)
Fixpoint convert_headers (hs : list HeaderInput) : result RimapError (list HeaderSearch) :=
  match hs with
  | [] => Ok []
  | h :: hs' =>
      if bool_decide (trim (hi_name h) = [])
      then Err (invalid_input (lit "headers[].name must not be empty or whitespace-only"))
      else if bool_decide (trim (hi_value h) = [])
      then Err (invalid_input (lit "headers[].value must not be empty or whitespace-only"))
      else rest ← convert_headers hs'; Ok (mkHeaderSearch (hi_name h) (hi_value h) :: rest)
  end.

(* [crates/rimap-server/src/tools/retrieval/search.rs:721-750] build_query *)
Definition build_headers (headers : option (list HeaderInput)) : result RimapError (option (list HeaderSearch)) :=
  match headers with
  | Some [] | None => Ok None
  | Some v =>
      if MAX_HEADERS <? Z.of_nat (length v)
      then Err (invalid_input (lit "headers array exceeds maximum of " ++ to_decimal MAX_HEADERS ++ lit " entries"))
      else converted ← convert_headers v; Ok (Some converted)
  end.

(** The [time] crate's ISO 8601 parser; its error has a text. *)
Class IsoDates := {
  iso8601_parse : rstr -> result rstr date;
  iso8601_valid : forall s d, iso8601_parse s = Ok d -> date_valid d;
}.

Section query.
Context `{IsoDates}.

(* [crates/rimap-server/src/tools/retrieval/search.rs:811-816] parse_iso_date *)
Definition parse_iso_date (s : rstr) : result RimapError date :=
  map_err (fun e => invalid_input (lit "invalid date '" ++ s ++ lit "': " ++ e)) (iso8601_parse s).

Definition transpose_date (v : option rstr) : result RimapError (option date) :=
  match v with None => Ok None | Some s => d ← parse_iso_date s; Ok (Some d) end.

(* [crates/rimap-server/src/tools/retrieval/search.rs:699-790] build_query *)
Definition build_query (input : SearchInput) : result RimapError SearchQuery :=
  match advanced_query input with
  | Some raw =>
      if existsb (fun b => (b =? 13) || (b =? 10) || (b =? 0)) (str_bytes raw)
      then Err (invalid_input (lit "advanced_query contains forbidden control bytes"))
      else Ok (Raw raw)
  | None =>
      cc ← require_non_empty (lit "cc") (i_cc input);
      bcc ← require_non_empty (lit "bcc") (i_bcc input);
      body ← require_non_empty (lit "body") (i_body input);
      text ← require_non_empty (lit "text") (i_text input);
      headers ← build_headers (i_headers input);
      since ← transpose_date (i_since input);
      before ← transpose_date (i_before input);
      sent_since ← transpose_date (i_sent_since input);
      sent_before ← transpose_date (i_sent_before input);
      Ok (Structured (mkStructuredQuery (i_from input) (i_to input) (i_subject input) since before
        (i_seen input) (default false (i_has_attachment input)) cc bcc body text headers
        (i_larger input) (i_smaller input) sent_since sent_before
        (i_answered input) (i_flagged input) (i_draft input)))
  end.

(** The key [ops::search::search] sends. *)
(* [crates/rimap-imap/src/ops/search.rs:37-40] search *)
Definition search_key_text (query : SearchQuery) : result ImapError rstr :=
  match query with
  | Structured s => structured_to_key s
  | Raw r => Ok r
  end.
End query.

(** ** Paging *)

Definition usize_saturating_add (a b : Z) : Z := Z.min usize_max (a + b).

(* [crates/rimap-server/src/tools/retrieval/search.rs:674-697] paginate_uids *)
Definition paginate_uids (uids : list Z) (offset limit : Z) (newest_first : bool)
    : list Z * bool * option Z :=
  let uids := if newest_first then rev uids else uids in
  let total := Z.of_nat (length uids) in
  let page := take (Z.to_nat limit) (drop (Z.to_nat offset) uids) in
  let consumed := usize_saturating_add offset (Z.of_nat (length page)) in
  let truncated := consumed <? total in
  (page, truncated, if truncated then Some (Z.min u64_max consumed) else None).

(* [crates/rimap-server/src/tools/retrieval/search.rs:650-658] clamp_preview_bytes *)
Definition clamp_preview_bytes (requested : option Z) : option Z :=
  match requested with
  | Some n => if 0 <? n then Some (Z.min n MAX_BODY_PREVIEW_BYTES) else None
  | None => None
  end.

(** ** Threads *)

(* [crates/rimap-server/src/tools/retrieval/search.rs:441-448] validate_thread_request *)
Definition validate_thread_request (input : SearchInput) : result RimapError unit :=
  match advanced_query input with
  | Some _ => Err (invalid_input (lit "thread_of_uid cannot be combined with advanced_query"))
  | None => Ok tt
  end.

(** [str::split_whitespace]: the maximal runs of other characters. *)
Fixpoint split_whitespace_from (word : rstr) (s : rstr) : list rstr :=
  let flush rest := match word with [] => rest | _ => rev word :: rest end in
  match s with
  | [] => flush []
  | c :: s' =>
      if is_whitespace c then flush (split_whitespace_from [] s') else split_whitespace_from (c :: word) s'
  end.
Definition split_whitespace (s : rstr) : list rstr := split_whitespace_from [] s.

(* [crates/rimap-server/src/tools/retrieval/search.rs:450-458] parse_message_id_tokens *)
Definition parse_message_id_tokens (raw : rstr) : list rstr :=
  List.filter (fun tok => starts_with (lit "<") tok && ends_with (lit ">") tok && (2 <? str_len tok))
    (split_whitespace raw).

(** The loop with its [seen] set. *)
Fixpoint dedup_first (seen : list rstr) (ids : list rstr) : list rstr :=
  match ids with
  | [] => []
  | id :: ids' =>
      if existsb (str_eqb id) seen then dedup_first seen ids' else id :: dedup_first (id :: seen) ids'
  end.
(* [crates/rimap-server/src/tools/retrieval/search.rs:465-481] cap_ancestor_ids *)
Definition cap_ancestor_ids (ids : list rstr) : list rstr :=
  let deduped := dedup_first [] ids in
  drop (length deduped - MAX_THREAD_ANCESTOR_IDS) deduped.

(** ** The handler *)

(* [crates/rimap-server/src/tools/retrieval/search.rs:192-237] SearchResultEntry *)
Record SearchResultEntry := mkEntry {
  uid : Z; size : option Z; flags : option (list rstr);
  subject : option rstr; r_date : option rstr;
  from : list rstr; to : list rstr; cc : list rstr;
  message_id : option rstr;
  body_preview : option rstr; body_preview_truncated : option bool }.

(* [crates/rimap-server/src/tools/retrieval/search.rs:239-277] SearchMeta *)
Record SearchMeta := mkMeta {
  m_folder : rstr; total_matched : Z; returned : Z; truncated : bool;
  next_offset : option Z; m_uid_validity : option Z; fetch_skipped : Z }.

(** What the handler calls: [Connection::search], [thread_related], [fetch],
    [fetch_body], the content parser, and [String::from_utf8_lossy]. *)
Record SearchEnv (warning : Type) := mkSearchEnv {
  imap_search : rstr -> SearchQuery -> result RimapError (list Z * option Z);
  imap_thread_related : rstr -> option rstr -> list rstr -> result RimapError (list Z * option Z);
  imap_fetch : rstr -> list Z -> FetchSpec -> result RimapError (list FetchedMessage);
  imap_fetch_body : rstr -> Z -> option Z -> result RimapError (list Z);
  parse_message : list Z -> result RimapError (rstr * list warning);
  parse_headers : list Z -> result RimapError (list (rstr * list rstr));
  from_utf8_lossy : list Z -> rstr }.
Arguments imap_search {warning} _ _ _.
Arguments imap_thread_related {warning} _ _ _ _.
Arguments imap_fetch {warning} _ _ _ _.
Arguments imap_fetch_body {warning} _ _ _ _.
Arguments parse_message {warning} _ _.
Arguments parse_headers {warning} _ _.
Arguments from_utf8_lossy {warning} _ _.

Section handler.
Context `{UnicodeLib} `{IsoDates} {warning : Type}.
Implicit Types (env : SearchEnv warning).

(* [crates/rimap-server/src/tools/retrieval/search.rs:818-832] sanitize_for_output *)
Definition sanitize_for_output (s : rstr) : rstr :=
  let filtered := filter_codepoints (normalize_line_endings (normalize_nfkc s)) in
  truncate_graphemes (Unicode.text filtered) MAX_HEADER_BYTES.

(* [crates/rimap-server/src/tools/retrieval/search.rs:834-860] format_address *)
Definition format_address env (addr : Address) : rstr :=
  let lossy v := match v with Some b => from_utf8_lossy env b | None => [] end in
  let email := lossy (a_mailbox addr) ++ lit "@" ++ lossy (a_host addr) in
  match a_name addr with
  | Some name =>
      let name := from_utf8_lossy env name in
      match name with [] => email | _ => name ++ lit " <" ++ email ++ lit ">" end
  | None => email
  end.

(* [crates/rimap-server/src/tools/retrieval/search.rs:862-870] sanitize_address_list *)
Definition sanitize_address_list env (addrs : list Address) : list rstr :=
  map (fun a => sanitize_for_output (format_address env a)) addrs.

(* [crates/rimap-server/src/tools/retrieval/search.rs:872-883] format_flag *)
Definition format_flag (f : Flag) : rstr :=
  match f with
  | Seen => lit "\Seen" | Answered => lit "\Answered" | Flagged => lit "\Flagged"
  | Deleted => lit "\Deleted" | Draft => lit "\Draft" | Recent => lit "\Recent"
  | Keyword kw => kw
  end.

(* [crates/rimap-server/src/tools/retrieval/search.rs:885-930] format_search_result *)
Definition format_search_result env (msg : FetchedMessage) : SearchResultEntry :=
  let clean v := option_map (fun b => sanitize_for_output (from_utf8_lossy env b)) v in
  let flags := option_map (map format_flag) (f_flags msg) in
  match f_envelope msg with
  | Some e =>
      mkEntry (f_uid msg) (f_size msg) flags (clean (e_subject_raw e)) (clean (e_date e))
        (sanitize_address_list env (e_from e)) (sanitize_address_list env (e_to e))
        (sanitize_address_list env (e_cc e)) (clean (e_message_id e)) None None
  | None => mkEntry (f_uid msg) (f_size msg) flags None None [] [] [] None None None
  end.

(** The [HashMap] by UID: of two answers for one UID the later stays, and an
    entry is handed out once. *)
Fixpoint last_with_uid (u : Z) (fetched : list FetchedMessage) : option FetchedMessage :=
  match fetched with
  | [] => None
  | m :: rest =>
      match last_with_uid u rest with
      | Some m' => Some m'
      | None => if f_uid m =? u then Some m else None
      end
  end.
Fixpoint take_by_uid (page_uids : list Z) (used : list Z) (fetched : list FetchedMessage)
    : list FetchedMessage :=
  match page_uids with
  | [] => []
  | u :: us =>
      if existsb (Z.eqb u) used then take_by_uid us used fetched
      else match last_with_uid u fetched with
           | Some m => m :: take_by_uid us (u :: used) fetched
           | None => take_by_uid us used fetched
           end
  end.

(* [crates/rimap-server/src/tools/retrieval/search.rs:523-557] fetch_and_format_page *)
Definition fetch_and_format_page env (folder : rstr) (page_uids : list Z)
    : result RimapError (list SearchResultEntry) :=
  match page_uids with
  | [] => Ok []
  | _ =>
      let spec := mkSpec true false false true true in
      fetched ← imap_fetch env folder page_uids spec;
      Ok (map (format_search_result env) (take_by_uid page_uids [] fetched))
  end.

(* [crates/rimap-server/src/tools/retrieval/search.rs:660-672] make_preview *)
Definition make_preview (body_text : rstr) (max_bytes : Z) : option rstr * bool :=
  let kept := truncate_graphemes body_text max_bytes in
  match kept with
  | [] => (None, false)
  | _ => (Some kept, str_len kept <? str_len body_text)
  end.

(* [crates/rimap-server/src/tools/retrieval/search.rs:609-648] fetch_body_preview *)
Definition fetch_body_preview env (folder : rstr) (uid max_bytes : Z) (expected_uidvalidity : option Z)
    : option rstr * bool * list warning :=
  match imap_fetch_body env folder uid expected_uidvalidity with
  | Err _ => (None, false, [])
  | Ok raw =>
      match parse_message env raw with
      | Err _ => (None, false, [])
      | Ok (body_text, warnings) => (make_preview body_text max_bytes, warnings)
      end
  end.

Definition preview_entry env (folder : rstr) (expected_uidvalidity : option Z) (max_bytes : Z)
    (entry : SearchResultEntry) : SearchResultEntry * list warning :=
  if (uid entry =? 0) then (entry, [])
  else
    let '(text, truncated, warnings) := fetch_body_preview env folder (uid entry) max_bytes expected_uidvalidity in
    (match text with
     | Some t =>
         mkEntry (uid entry) (size entry) (flags entry) (subject entry) (r_date entry) (from entry)
           (to entry) (cc entry) (message_id entry) (Some t) (Some truncated)
     | None => entry
     end, warnings).

(* [crates/rimap-server/src/tools/retrieval/search.rs:559-596] attach_body_previews *)
Definition attach_body_previews env (folder : rstr) (expected_uidvalidity : option Z)
    (messages : list SearchResultEntry) (input : SearchInput) : list SearchResultEntry * list warning :=
  match clamp_preview_bytes (body_preview_bytes input) with
  | None => (messages, [])
  | Some max_bytes =>
      let done := map (preview_entry env folder expected_uidvalidity max_bytes)
                    (take MAX_PREVIEW_MESSAGES messages) in
      (map fst done ++ drop MAX_PREVIEW_MESSAGES messages, concat (map snd done))
  end.

(* [crates/rimap-server/src/tools/retrieval/search.rs:483-521] build_search_meta *)
Definition build_search_meta (folder : rstr) (total_matched : Z) (page_uids : list Z)
    (messages : list SearchResultEntry) (truncated : bool) (next_offset uid_validity : option Z) : SearchMeta :=
  let returned := Z.of_nat (length messages) in
  mkMeta folder total_matched returned truncated next_offset uid_validity
    (Z.max 0 (Z.of_nat (length page_uids) - returned)).

(** The tail [handle] and [handle_thread] share. *)
(* [crates/rimap-server/src/tools/retrieval/search.rs:303-327] handle *)
Definition respond env (input : SearchInput) (uids : list Z) (uid_validity : option Z)
    : result RimapError (SearchMeta * list SearchResultEntry * list warning) :=
  let total_matched := Z.of_nat (length uids) in
  let offset := default 0 (offset input) in
  let limit := Z.min (default MAX_LIMIT (limit input)) MAX_LIMIT in
  let newest_first := default false (newest_first input) in
  let '(page_uids, truncated, next_offset) := paginate_uids uids offset limit newest_first in
  messages ← fetch_and_format_page env (folder input) page_uids;
  let '(messages, warnings) := attach_body_previews env (folder input) uid_validity messages input in
  Ok (build_search_meta (folder input) total_matched page_uids messages truncated next_offset uid_validity,
      messages, warnings).

(* [crates/rimap-server/src/tools/retrieval/search.rs:407-439] fetch_thread_headers *)
Fixpoint thread_headers (selected : list (rstr * list rstr)) (own : option rstr) (ancestors : list rstr)
    : option rstr * list rstr :=
  match selected with
  | [] => (own, ancestors)
  | (name, values) :: rest =>
      if str_eqb name (lit "Message-ID") then thread_headers rest (head values) ancestors
      else if str_eqb name (lit "References") || str_eqb name (lit "In-Reply-To")
      then thread_headers rest own (ancestors ++ concat (map parse_message_id_tokens values))
      else thread_headers rest own ancestors
  end.
(* [crates/rimap-server/src/tools/retrieval/search.rs:397-440] fetch_thread_headers *)
Definition fetch_thread_headers env (folder : rstr) (target : Z)
    : result RimapError (option rstr * list rstr) :=
  raw ← imap_fetch_body env folder target None;
  selected ← parse_headers env raw;
  let '(own, ancestors) := thread_headers selected None [] in
  Ok (own, cap_ancestor_ids ancestors).

(* [crates/rimap-server/src/tools/retrieval/search.rs:339-390] handle_thread *)
Definition handle_thread env (input : SearchInput) (target : Z)
    : result RimapError (SearchMeta * list SearchResultEntry * list warning) :=
  _ ← validate_thread_request input;
  '(own_message_id, ancestor_ids) ← fetch_thread_headers env (folder input) target;
  '(related, uid_validity) ← imap_thread_related env (folder input) own_message_id ancestor_ids;
  let related := if existsb (Z.eqb target) related then related
                 else merge_sort Z.le (related ++ [target]) in
  respond env input related uid_validity.

(* [crates/rimap-server/src/tools/retrieval/search.rs:279-328] handle *)
Definition handle env (input : SearchInput)
    : result RimapError (SearchMeta * list SearchResultEntry * list warning) :=
  _ ← validate_folder_input (lit "folder") (folder input);
  match thread_of_uid input with
  | Some target => handle_thread env input target
  | None =>
      query ← build_query input;
      '(uids, uid_validity) ← imap_search env (folder input) query;
      respond env input uids uid_validity
  end.
End handler.

(** ** Paging covers the result list *)

(** A client that follows [next_offset]. *)
Fixpoint pages (fuel : nat) (uids : list Z) (offset limit : Z) (newest_first : bool) : option (list (list Z)) :=
  match fuel with
  | O => None
  | S fuel =>
      let '(page, _, next) := paginate_uids uids offset limit newest_first in
      match next with
      | None => Some [page]
      | Some o => rest ← pages fuel uids o limit newest_first; Some (page :: rest)
      end
  end.

Lemma pages_from uids limit nf fuel n :
  1 <= limit -> Z.of_nat (length uids) <= usize_max -> (n <= length uids)%nat ->
  (length uids - n < fuel)%nat ->
  exists ps, pages fuel uids (Z.of_nat n) limit nf = Some ps /\
    concat ps = drop n (if nf then rev uids else uids) /\
    Forall (fun p => Z.of_nat (length p) <= limit) ps.
Proof.
  intros Hl Hu. revert n. induction fuel as [|fuel IH]; intros n Hn Hf; [lia|].
  cbn [pages]. unfold paginate_uids. set (us := if nf then rev uids else uids).
  assert (Hlen : length us = length uids) by (unfold us; destruct nf; [apply length_rev|done]).
  rewrite Nat2Z.id. set (page := take _ (drop n us)).
  assert (Hp : length page = Nat.min (Z.to_nat limit) (length us - n))
    by (unfold page; by rewrite length_take, length_drop).
  assert (Hsplit : drop n us = page ++ drop (n + length page) us).
  { rewrite <- drop_drop. unfold page. rewrite length_take.
    rewrite <- (take_drop (Z.to_nat limit) (drop n us)) at 1. f_equal.
    rewrite length_drop. destruct (decide (Z.to_nat limit <= length us - n)%nat).
    - by rewrite Nat.min_l by lia.
    - rewrite Nat.min_r by lia. rewrite !drop_ge; rewrite ?length_drop; [done|lia..]. }
  replace (usize_saturating_add (Z.of_nat n) (Z.of_nat (length page))) with (Z.of_nat (n + length page))
    by (unfold usize_saturating_add; lia).
  assert (Hpl : Z.of_nat (length page) <= limit) by lia.
  destruct (_ <? _) eqn:E; zify_bool.
  - replace (Z.min u64_max (Z.of_nat (n + length page))) with (Z.of_nat (n + length page))
      by (unfold usize_max in *; lia).
    destruct (IH (n + length page)%nat) as (ps & -> & Hc & Hall); [lia..|].
    exists (page :: ps). cbn. rewrite Hc. split; [done|]. split; [done|by constructor].
  - exists [page]. cbn. rewrite app_nil_r. split; [done|]. split; [|by constructor].
    rewrite Hsplit at 1. rewrite drop_ge by lia. by rewrite app_nil_r.
Qed.

(** Following [next_offset] reads every match once.  From offset 0, with
    any limit of at least one, the pages end after at most one per match and
    together are the whole result list in the chosen order. *)
Theorem paging_complete uids limit newest_first :
  1 <= limit -> Z.of_nat (length uids) <= usize_max ->
  exists ps, pages (S (length uids)) uids 0 limit newest_first = Some ps /\
    concat ps = (if newest_first then rev uids else uids) /\
    Forall (fun p => Z.of_nat (length p) <= limit) ps.
Proof.
  intros Hl Hu. destruct (pages_from uids limit newest_first (S (length uids)) 0) as (ps & Hp & Hc & Ha);
    [done|done|lia|lia|]. exists ps. rewrite drop_0 in Hc. done.
Qed.

Lemma paging_complete_witness :
  exists ps, pages 6 [3; 5; 8; 13; 21] 0 2 true = Some ps /\ concat ps = [21; 13; 8; 5; 3] /\
    Forall (fun p => Z.of_nat (length p) <= 2) ps.
Proof.
  apply (paging_complete [3; 5; 8; 13; 21] 2 true); [lia|apply Z.leb_le; reflexivity].
Defined.

(** A limit of zero is accepted; its page is empty and points at itself. *)
Lemma limit_zero_stuck u uids nf : paginate_uids (u :: uids) 0 0 nf = ([], true, Some 0).
Proof.
  unfold paginate_uids.
  assert (Hlen : length (if nf then rev (u :: uids) else u :: uids) = length (u :: uids))
    by (destruct nf; [apply length_rev|done]).
  rewrite Hlen. cbn [length]. rewrite (proj2 (Z.ltb_lt _ (Z.of_nat (S (length uids)))));
    [reflexivity|].
  apply Z.le_lt_trans with 0; [apply Z.le_min_r|lia].
Qed.

(** ** What a response holds *)

Section response.
Context `{UnicodeLib} `{IsoDates} {warning : Type}.
Implicit Types (env : SearchEnv warning).

(** Text the sanitiser has passed, of at most [MAX_HEADER_BYTES]. *)
Definition clean_text (s : rstr) : Prop :=
  str_len s <= MAX_HEADER_BYTES /\ Forall harmless s.

Definition clean_entry (e : SearchResultEntry) : Prop :=
  (forall s, subject e = Some s \/ r_date e = Some s \/ message_id e = Some s -> clean_text s) /\
  Forall clean_text (from e ++ to e ++ cc e).

Lemma sanitize_for_output_clean s : clean_text (sanitize_for_output s).
Proof.
  unfold sanitize_for_output, clean_text. rewrite filter_codepoints_spec. cbn [Unicode.text].
  set (pre := normalize_line_endings (normalize_nfkc s)).
  destruct (truncate_graphemes_spec (List.filter visible pre) MAX_HEADER_BYTES) as (Hl & (rest & Hr) & _);
    [by apply Z.leb_le|].
  split; [done|]. apply Forall_forall. intros c Hc.
  assert (Hin : c ∈ List.filter visible pre) by (rewrite Hr; set_solver).
  by eapply visible_harmless, in_filter_visible.
Qed.

Lemma sanitize_address_list_clean env addrs : Forall clean_text (sanitize_address_list env addrs).
Proof. unfold sanitize_address_list. apply List.Forall_map, Forall_true. intros a. apply sanitize_for_output_clean. Qed.

Lemma format_search_result_clean env m : clean_entry (format_search_result env m).
Proof.
  unfold format_search_result. destruct (f_envelope m) as [e|]; (split; cbn);
    [|by rewrite !Forall_app; auto using sanitize_address_list_clean|naive_solver|constructor].
  intros s. destruct (e_subject_raw e), (e_date e), (e_message_id e); cbn; intros Hs;
    destruct Hs as [Hs|[Hs|Hs]]; simplify_eq; apply sanitize_for_output_clean.
Qed.

Lemma preview_entry_fields env fld uv n e :
  uid (preview_entry env fld uv n e).1 = uid e /\
  (clean_entry e -> clean_entry (preview_entry env fld uv n e).1).
Proof.
  unfold preview_entry. destruct (uid e =? 0); [done|].
  destruct (fetch_body_preview _ _ _ _ _) as [[[t|] b] ws]; done.
Qed.

Lemma preview_bounded env fld uv n e t : 0 <= n -> body_preview e = None ->
  body_preview (preview_entry env fld uv n e).1 = Some t ->
  t <> [] /\ str_len t <= n /\ exists raw text ws, imap_fetch_body env fld (uid e) uv = Ok raw /\
    parse_message env raw = Ok (text, ws) /\ (exists rest, text = t ++ rest) /\
    body_preview_truncated (preview_entry env fld uv n e).1 = Some (str_len t <? str_len text).
Proof.
  intros Hn He. unfold preview_entry. destruct (uid e =? 0); [cbn; congruence|].
  unfold fetch_body_preview. destruct (imap_fetch_body _ _ _ _) as [raw|]; [|cbn; congruence].
  destruct (parse_message env raw) as [[text ws]|] eqn:Ep; [|cbn; congruence].
  unfold make_preview. destruct (truncate_graphemes_spec text n Hn) as (Hl & Hr & _).
  destruct (truncate_graphemes text n) as [|c kept]; [cbn; congruence|]. cbn [fst body_preview].
  intros [= <-]. split; [done|]. split; [done|]. exists raw, text, ws. done.
Qed.

Lemma last_with_uid_spec u fetched m : last_with_uid u fetched = Some m -> m ∈ fetched /\ f_uid m = u.
Proof.
  induction fetched as [|x fetched IH]; cbn; [done|].
  destruct (last_with_uid u fetched) as [m'|] eqn:E.
  - intros [= ->]. destruct (IH eq_refl). split; [by right|done].
  - destruct (f_uid x =? u) eqn:Eu; [|done]. intros [= ->]. zify_bool. split; [by left|done].
Qed.

Lemma take_by_uid_spec us used fetched :
  NoDup us -> Forall (fun u => u ∉ used) us ->
  map f_uid (take_by_uid us used fetched) =
    List.filter (fun u => match last_with_uid u fetched with Some _ => true | None => false end) us /\
  Forall (fun m => m ∈ fetched) (take_by_uid us used fetched).
Proof.
  intros Hnd. revert used. induction Hnd as [|u us Hu Hnd IH]; intros used Hused; [by split|].
  apply Forall_cons in Hused as [Hn Hused]. cbn [take_by_uid List.filter].
  destruct (existsb (Z.eqb u) used) eqn:E.
  { apply existsb_exists in E as (v & Hv & Heq). apply Z.eqb_eq in Heq. subst.
    by apply list_elem_of_In in Hv. }
  destruct (last_with_uid u fetched) as [m|] eqn:El.
  - destruct (IH (u :: used)) as [Hm Hf].
    { rewrite Forall_forall in *. intros v Hv. rewrite elem_of_cons. intros [->|Hin]; [done|].
      by apply (Hused v). }
    apply last_with_uid_spec in El as [Hin Heq]. cbn [map]. rewrite Hm, Heq.
    split; [done|by constructor].
  - by apply IH.
Qed.

(** The page of a search. *)
Definition page_of (input : SearchInput) (uids : list Z) : list Z :=
  (paginate_uids uids (default 0 (offset input)) (Z.min (default MAX_LIMIT (limit input)) MAX_LIMIT)
    (default false (newest_first input))).1.1.

Lemma page_length input uids : Z.of_nat (length (page_of input uids)) <= MAX_LIMIT.
Proof.
  unfold page_of, paginate_uids. cbn [fst]. rewrite length_take.
  assert (0 <= MAX_LIMIT) by (by apply Z.leb_le). lia.
Qed.

Lemma page_sublist input uids :
  page_of input uids `sublist_of` (if default false (newest_first input) then rev uids else uids).
Proof.
  unfold page_of, paginate_uids. cbn [fst].
  etrans; [apply sublist_take|apply sublist_drop].
Qed.

Lemma format_fresh env m : body_preview (format_search_result env m) = None /\
  uid (format_search_result env m) = f_uid m.
Proof. unfold format_search_result. by destruct (f_envelope m). Qed.

Lemma fetch_page_spec env fld us msgs : NoDup us -> fetch_and_format_page env fld us = Ok msgs ->
  map uid msgs `sublist_of` us /\ Forall clean_entry msgs /\ Forall (fun e => body_preview e = None) msgs.
Proof.
  intros Hnd. unfold fetch_and_format_page.
  assert (Hcase : forall x y : result RimapError (list SearchResultEntry),
    match us with [] => x | _ => y end = if bool_decide (us = []) then x else y) by (by destruct us).
  rewrite Hcase. case_bool_decide; [subst; intros [= <-]; by repeat constructor|]. clear Hcase.
  destruct (imap_fetch _ _ _ _) as [fetched|]; cbn [mbind result_bind]; [|done].
  intros [= <-]. destruct (take_by_uid_spec us [] fetched Hnd) as [Hm _].
  { apply Forall_true. intros. apply not_elem_of_nil. }
  rewrite map_map. rewrite (map_ext _ f_uid) by (intros; apply format_fresh). rewrite Hm.
  split; [apply sublist_filter_bool|]. split; apply List.Forall_map, Forall_true; intros m.
  - apply format_search_result_clean.
  - apply format_fresh.
Qed.

Definition previews_ok (input : SearchInput) (msgs : list SearchResultEntry) : Prop :=
  forall i e t, msgs !! i = Some e -> body_preview e = Some t ->
    (i < MAX_PREVIEW_MESSAGES)%nat /\ t <> [] /\
    exists n, body_preview_bytes input = Some n /\ 0 < n /\ str_len t <= Z.min n MAX_BODY_PREVIEW_BYTES.

Lemma attach_spec env fld uv msgs input :
  Forall (fun e => body_preview e = None) msgs -> Forall clean_entry msgs ->
  let msgs' := (attach_body_previews env fld uv msgs input).1 in
  map uid msgs' = map uid msgs /\ Forall clean_entry msgs' /\ previews_ok input msgs'.
Proof.
  intros Hnone Hclean msgs'. unfold msgs', attach_body_previews, previews_ok.
  destruct (clamp_preview_bytes _) as [m|] eqn:Ec; cbn [fst].
  2:{ split; [done|]. split; [done|]. intros i e t Hi Ht. rewrite Forall_lookup in Hnone.
      rewrite (Hnone i e Hi) in Ht. done. }
  unfold clamp_preview_bytes in Ec. destruct (body_preview_bytes input) as [n|]; [|done].
  destruct (0 <? n) eqn:En; [|done]. injection Ec as <-. zify_bool.
  set (f := preview_entry env fld uv (Z.min n MAX_BODY_PREVIEW_BYTES)).
  rewrite (map_map f fst). split; [|split].
  - rewrite map_app, map_map, (map_ext _ uid) by (intros; apply preview_entry_fields).
    by rewrite <- map_app, take_drop.
  - apply Forall_app. split; [|by apply Forall_drop]. apply List.Forall_map.
    eapply Forall_impl; [apply Forall_take, Hclean|].
    intros e. apply preview_entry_fields.
  - assert (Hmin : 0 <= Z.min n MAX_BODY_PREVIEW_BYTES)
      by (apply Z.min_glb; [lia|by apply Z.leb_le]).
    intros i e t Hi Ht. apply lookup_app_Some in Hi as [Hi|[_ Hi]].
    + rewrite list_lookup_fmap in Hi. apply fmap_Some in Hi as (e0 & Hi & ->).
      apply lookup_take_Some in Hi as [Hi Hlt]. split; [done|].
      rewrite Forall_lookup in Hnone.
      destruct (preview_bounded env fld uv _ e0 t Hmin (Hnone i e0 Hi) Ht) as (Hne & Hle & _).
      split; [done|]. exists n. done.
    + rewrite lookup_drop in Hi. rewrite Forall_lookup in Hnone. by rewrite (Hnone _ _ Hi) in Ht.
Qed.

(** A search returns a page of what matched, safe to show.  On success
    the entries are distinct matches in the order asked for, at most 100, and
    [fetch_skipped] is exactly how many of the page the server did not
    deliver; every header text is sanitised and at most 8 KiB; and there are
    previews only on the first 50 entries, only when asked for, each a
    non-empty text of at most the bytes asked for and at most 1024. *)
Theorem search_response_sound env input meta msgs ws :
  handle env input = Ok (meta, msgs, ws) -> thread_of_uid input = None ->
  exists query uids uv, build_query input = Ok query /\
    imap_search env (folder input) query = Ok (uids, uv) /\
    total_matched meta = Z.of_nat (length uids) /\ m_uid_validity meta = uv /\
    (NoDup uids ->
       map uid msgs `sublist_of` page_of input uids /\
       returned meta = Z.of_nat (length msgs) /\ returned meta <= MAX_LIMIT /\
       fetch_skipped meta = Z.of_nat (length (page_of input uids)) - returned meta /\
       Forall clean_entry msgs /\ previews_ok input msgs).
Proof.
  unfold handle. destruct (validate_folder_input _ _); cbn [mbind result_bind]; [|done].
  intros Hh Ht. rewrite Ht in Hh. destruct (build_query input) as [query|]; cbn [mbind result_bind] in Hh; [|done].
  destruct (imap_search _ _ _) as [[uids uv]|] eqn:Es; cbn [mbind result_bind] in Hh; [|done].
  exists query, uids, uv. split; [done|]. split; [done|]. unfold respond in Hh.
  destruct (paginate_uids _ _ _ _) as [[page tr] next] eqn:Ep.
  destruct (fetch_and_format_page _ _ _) as [msgs0|] eqn:Ef; cbn [mbind result_bind] in Hh; [|done].
  destruct (attach_body_previews _ _ _ _ _) as [msgs1 ws1] eqn:Ea. injection Hh as <- <- <-.
  split; [done|]. split; [done|]. intros Hnd.
  assert (Hpage : page = page_of input uids) by (unfold page_of; by rewrite Ep). subst page.
  assert (Hndp : NoDup (page_of input uids)).
  { eapply sublist_NoDup; [|apply page_sublist]. destruct (default false (newest_first input)); [by apply NoDup_reverse_rev|done]. }
  destruct (fetch_page_spec _ _ _ _ Hndp Ef) as (Hsub & Hclean & Hnone).
  destruct (attach_spec env (folder input) uv msgs0 input Hnone Hclean) as (Hu & Hc & Hp).
  rewrite Ea in Hu, Hc, Hp. cbn [fst] in *. rewrite Hu.
  assert (Hlen : length msgs1 = length msgs0) by (by rewrite <- (length_map uid msgs1), Hu, length_map).
  apply sublist_length in Hsub as Hl. rewrite length_map in Hl. pose proof (page_length input uids).
  cbn [returned fetch_skipped build_search_meta]. split_and!; [done|lia|lia|lia|done|done].
Qed.
End response.

(** ** One line, and no more content than the posture allows *)

Definition line_char (c : Z) : bool := negb ((c =? 13) || (c =? 10) || (c =? 0)).
Definition one_line (s : rstr) : Prop := Forall (fun c => line_char c = true) s.

Lemma one_line_bytes s :
  existsb (fun b => (b =? 13) || (b =? 10) || (b =? 0)) (str_bytes s) = false -> one_line s.
Proof.
  intros Hb. apply Forall_forall. intros c Hc. unfold line_char. apply negb_true_iff.
  destruct ((c =? 13) || (c =? 10) || (c =? 0)) eqn:E; [|done]. exfalso.
  assert (Hlt : c < 128) by (apply orb_true_iff in E as [E|E]; [apply orb_true_iff in E as [E|E]|];
    apply Z.eqb_eq in E; lia).
  assert (Ht : existsb (fun b => (b =? 13) || (b =? 10) || (b =? 0)) (str_bytes s) = true); [|congruence].
  apply existsb_exists. exists c. split; [|done]. by apply list_elem_of_In, ascii_char_byte.
Qed.

Lemma one_line_escape s : one_line s -> one_line (34 :: escape s ++ [34]).
Proof.
  intros Hs. constructor; [done|]. apply Forall_app. split; [|by repeat constructor].
  induction Hs as [|c s Hc _ IH]; cbn [escape]; [constructor|]. case_goal; by repeat constructor.
Qed.

Lemma quote_one_line s t : quote s = Ok t -> one_line t.
Proof.
  unfold quote. destruct (existsb _ _) eqn:E; [done|]. intros [= <-].
  by apply one_line_escape, one_line_bytes.
Qed.

Lemma atoms_one_line s : Forall (fun c => atom_char c = true) s -> one_line s.
Proof.
  intros Hs. eapply Forall_impl; [exact Hs|]. intros c Hc. unfold atom_char in Hc.
  apply andb_true_iff in Hc as [Hc _]. unfold between in Hc. zify_bool. unfold line_char.
  apply negb_true_iff, orb_false_iff. rewrite orb_false_iff, !Z.eqb_neq. lia.
Qed.

Lemma header_name_one_line n a : validate_header_name n = Ok a -> one_line n.
Proof.
  unfold validate_header_name. destruct n as [|c n]; [done|].
  destruct (existsb _ _) eqn:E; [done|]. intros _. apply one_line_bytes.
  destruct (existsb (fun b => (b =? 13) || (b =? 10) || (b =? 0)) (str_bytes (c :: n))) eqn:E2; [|done].
  apply existsb_exists in E2 as (b & Hb & Hc).
  assert (Ht : existsb (fun b => negb (between 33 126 b) || (b =? 58)) (str_bytes (c :: n)) = true); [|congruence].
  apply existsb_exists. exists b. split; [done|]. apply orb_true_iff. left. apply negb_true_iff.
  unfold between. apply andb_false_iff. rewrite !Z.leb_gt.
  apply orb_true_iff in Hc as [Hc|Hc]; [apply orb_true_iff in Hc as [Hc|Hc]|]; apply Z.eqb_eq in Hc; lia.
Qed.

Definition lines (r : result ImapError (list rstr)) : Prop := forall ps, r = Ok ps -> Forall one_line ps.

Lemma one_line_prefix name s : one_line name -> one_line s -> one_line (name ++ lit " " ++ s).
Proof. intros Hn Hs. apply Forall_app. split; [done|]. by constructor. Qed.

Lemma text_clause_lines name v : forallb line_char name = true -> lines (text_clause name v).
Proof.
  intros Hn ps. unfold text_clause, clause. destruct v as [s|]; cbn; [|intros [= <-]; constructor].
  destruct (quote s) as [t|] eqn:E; cbn; [|done]. intros [= <-]. constructor; [|constructor].
  apply one_line_prefix; [by apply List.Forall_forall, forallb_forall|by eapply quote_one_line].
Qed.

Lemma header_clauses_lines hs : lines (header_clauses hs).
Proof.
  induction hs as [|h hs IH]; intros ps; [by intros [= <-]|]. cbn [header_clauses].
  destruct (validate_header_name _) as [[]|] eqn:Ev; cbn; [|done].
  destruct (quote _) as [v|] eqn:Eq; cbn; [|done].
  destruct (header_clauses hs) as [rest|]; cbn; [|done]. intros [= <-].
  constructor; [|by apply IH]. apply (Forall_app _ (lit "HEADER ")). split; [by repeat constructor|].
  apply one_line_prefix; [by eapply header_name_one_line|by eapply quote_one_line].
Qed.

Lemma digits_one_line n : 0 <= n -> one_line (to_decimal n).
Proof. intros Hn. apply atoms_one_line, digit_atom. by destruct (to_decimal_spec n Hn) as (_ & ? & _). Qed.

Lemma size_clause_lines name v : forallb line_char name = true -> (forall n, v = Some n -> 0 <= n) ->
  lines (size_clause name v).
Proof.
  intros Hn Hv ps. unfold size_clause, clause. destruct v as [n|]; cbn; intros [= <-]; [|constructor].
  constructor; [|constructor]. apply one_line_prefix; [by apply List.Forall_forall, forallb_forall|].
  apply digits_one_line; auto.
Qed.

Lemma date_one_line d : date_valid d -> one_line (format_imap_date d).
Proof.
  intros (Hy & Hm & Hd). unfold format_imap_date, show_int. rewrite (proj2 (Z.ltb_ge (year d) 0)) by lia.
  destruct (month_names_spec (month d) Hm) as [_ [Hma _]%andb_true_iff].
  destruct (pad2_spec (day d)) as (_ & _ & Hdig); [lia|].
  repeat (apply Forall_app; split); try (by repeat constructor).
  - by apply atoms_one_line, digit_atom.
  - by apply atoms_one_line, List.Forall_forall, forallb_forall.
  - apply digits_one_line. lia.
Qed.

Lemma date_clause_lines name v : forallb line_char name = true -> (forall d, v = Some d -> date_valid d) ->
  lines (date_clause name v).
Proof.
  intros Hn Hv ps. unfold date_clause, clause. destruct v as [n|]; cbn; intros [= <-]; [|constructor].
  constructor; [|constructor]. apply one_line_prefix; [by apply List.Forall_forall, forallb_forall|].
  apply date_one_line; auto.
Qed.

Lemma flag_clause_lines v yes no : one_line yes -> one_line no -> lines (flag_clause v yes no).
Proof. intros Hy Hn ps. destruct v as [[]|]; intros [= <-]; repeat constructor; done. Qed.

Lemma gather_lines rs : Forall lines rs -> lines (gather rs).
Proof.
  induction 1 as [|r rs Hr _ IH]; intros ps; cbn; [by intros [= <-]; constructor|].
  destruct r as [a|]; cbn; [|done]. destruct (gather rs) as [rest|]; cbn; [|done].
  intros [= <-]. apply Forall_app. split; [by apply Hr|by apply IH].
Qed.

Lemma join_one_line ps : Forall one_line ps -> one_line (join (lit " ") ps).
Proof.
  induction 1 as [|a b Ha Hb IH]; [constructor|]. destruct b as [|b0 b]; [done|].
  rewrite join_cons by done. by apply one_line_prefix.
Qed.

(** The typed arguments a decoded query carries. *)
Record typed (q : StructuredQuery) : Prop := {
  t_larger : forall n, q_larger q = Some n -> 0 <= n;
  t_smaller : forall n, q_smaller q = Some n -> 0 <= n;
  t_since : forall d, q_since q = Some d -> date_valid d;
  t_before : forall d, q_before q = Some d -> date_valid d;
  t_sent_since : forall d, q_sent_since q = Some d -> date_valid d;
  t_sent_before : forall d, q_sent_before q = Some d -> date_valid d }.

Lemma structured_one_line q key : typed q -> structured_to_key q = Ok key -> one_line key.
Proof.
  intros []. unfold structured_to_key. destruct (key_parts q) as [ps|] eqn:E; cbn; [|done]. intros [= <-].
  assert (Hps : Forall one_line ps).
  { revert ps E. apply gather_lines.
    repeat (apply List.Forall_cons; [first
      [ by apply text_clause_lines | by apply size_clause_lines | by apply date_clause_lines
      | by apply flag_clause_lines; repeat constructor | idtac] |]); [..|constructor].
    - destruct (q_headers q); [apply header_clauses_lines|]. intros ps [= <-]. constructor.
    - destruct (q_has_attachment q); intros ps [= <-]; repeat constructor. }
  destruct ps as [|p ps]; [by repeat constructor|]. by apply join_one_line.
Qed.

(** ** The gate *)

(** A key that does not search message content, or the fixed attachment
    probe. *)
Definition metadata_key (k : search_key) : Prop :=
  match k with
  | KText f v => f <> lit "BCC" /\ f <> lit "TEXT" /\
      (f = lit "BODY" -> v = lit "Content-Disposition: attachment")
  | KHeader _ _ => False
  | _ => True
  end.

Lemma criteria_metadata q :
  q_bcc q = None -> q_body q = None -> q_text q = None -> q_headers q = None ->
  Forall metadata_key (criteria q).
Proof.
  intros Hb Hbody Ht Hh. unfold criteria. rewrite Hb, Hbody, Ht, Hh. cbn [opt app].
  assert (Hopt : forall A (v : option A) (k : A -> search_key),
    (forall a, metadata_key (k a)) -> Forall metadata_key (opt v k)).
  { intros A v k Hk. destruct v; repeat constructor; done. }
  repeat (apply Forall_app; split);
    try (apply Hopt; intros a; cbn; try done; split_and!; intros [=]).
  destruct (q_has_attachment q); [|constructor]. constructor; [|constructor]. done.
Qed.

Lemma opt_bind_some {A B} (m : option A) (f : A -> option B) b :
  (m ≫= f) = Some b -> exists a, m = Some a /\ f a = Some b.
Proof. destruct m as [a|]; [|done]. cbn. eauto. Qed.

Lemma opt_string_absent args k v :
  de_opt_string (jget args k) = Some v -> has_str args k = false -> v = None.
Proof.
  unfold has_str. destruct (jget args k) as [[]|]; cbn; intros; simplify_eq; done.
Qed.

Lemma opt_headers_absent v hs :
  de_opt_headers v = Some (Some hs) -> match v ≫= as_array with Some (_ :: _) => True | _ => hs = [] end.
Proof.
  destruct v as [[]|]; cbn; try done. intros (l & Hl & Hs)%opt_bind_some. injection Hs as ->.
  destruct items; [|done]. by injection Hl as <-.
Qed.

Section gate.
Context `{IsoDates}.

Lemma transpose_date_valid v d d' : transpose_date v = Ok d -> d = Some d' -> date_valid d'.
Proof.
  unfold transpose_date. destruct v as [s|]; [|intros; congruence].
  unfold parse_iso_date. destruct (iso8601_parse s) as [x|] eqn:E; cbn; [|done].
  intros [= <-] [= <-]. by eapply iso8601_valid.
Qed.

Lemma build_query_fields input q : build_query input = Ok (Structured q) ->
  q_bcc q = i_bcc input /\ q_body q = i_body input /\ q_text q = i_text input /\
  q_larger q = i_larger input /\ q_smaller q = i_smaller input /\
  (i_headers input = None \/ i_headers input = Some [] -> q_headers q = None) /\
  (forall d, q_since q = Some d \/ q_before q = Some d \/ q_sent_since q = Some d \/
     q_sent_before q = Some d -> date_valid d).
Proof.
  unfold build_query. destruct (advanced_query input); [case_goal; done|].
  assert (Hne : forall f v r, require_non_empty f v = Ok r -> r = v).
  { intros f v r. unfold require_non_empty. destruct v; [|by intros [= <-]].
    case_bool_decide; [done|]. by intros [= <-]. }
  destruct (require_non_empty (lit "cc") _) eqn:E1; cbn [mbind result_bind]; [|done].
  destruct (require_non_empty (lit "bcc") _) eqn:E2; cbn [mbind result_bind]; [|done].
  destruct (require_non_empty (lit "body") _) eqn:E3; cbn [mbind result_bind]; [|done].
  destruct (require_non_empty (lit "text") _) eqn:E4; cbn [mbind result_bind]; [|done].
  destruct (build_headers _) eqn:E5; cbn [mbind result_bind]; [|done].
  destruct (transpose_date (i_since _)) eqn:D1; cbn [mbind result_bind]; [|done].
  destruct (transpose_date (i_before _)) eqn:D2; cbn [mbind result_bind]; [|done].
  destruct (transpose_date (i_sent_since _)) eqn:D3; cbn [mbind result_bind]; [|done].
  destruct (transpose_date (i_sent_before _)) eqn:D4; cbn [mbind result_bind]; [|done].
  intros [= <-]. cbn. apply Hne in E2, E3, E4. split_and!; [done..| |].
  - intros [Hh|Hh]; rewrite Hh in E5; by injection E5 as <-.
  - intros d [Hd|[Hd|[Hd|Hd]]]; (eapply transpose_date_valid; [|exact Hd]; eassumption).
Qed.

Lemma lenient_nonneg v n : ok_of (deserialize_opt_u64 v) = Some (Some n) -> 0 <= n.
Proof.
  unfold deserialize_opt_u64, deserialize_opt_int. destruct v as [v|]; [|done].
  assert (Hd : forall n, (i ← deserialize_int_or_str v; intorstr_to_int t_u64 i) = Ok n -> 0 <= n).
  { intros m Hm%decode_int_spec. destruct Hm as [[_ Hm]|(s & _ & _ & Hs & <- & _)]; [lia|].
    by apply parse_digits_nonneg. }
  destruct v; try done; destruct (deserialize_int_or_str _) as [i|]; cbn in *; try done;
    destruct (intorstr_to_int t_u64 i); cbn in *; try done; intros [= <-]; by apply Hd.
Qed.

Lemma decoded_fields args input : deserialize_search_input args = Some input ->
  de_opt_string (jget args (lit "bcc")) = Some (i_bcc input) /\
  de_opt_string (jget args (lit "body")) = Some (i_body input) /\
  de_opt_string (jget args (lit "text")) = Some (i_text input) /\
  de_opt_headers (jget args (lit "headers")) = Some (i_headers input) /\
  de_opt_string (jget args (lit "advanced_query")) = Some (advanced_query input) /\
  ok_of (deserialize_opt_u64 (jget args (lit "larger"))) = Some (i_larger input) /\
  ok_of (deserialize_opt_u64 (jget args (lit "smaller"))) = Some (i_smaller input).
Proof.
  unfold deserialize_search_input. cbv zeta. intros Hdec.
  repeat (apply opt_bind_some in Hdec as (? & ? & Hdec)). injection Hdec as <-. cbn. done.
Qed.

(** Content search is gated end to end.  When a [search] call keeps its
    low-posture name, its decoded arguments can only yield a structured query
    without body, text, Bcc or header filters, apart from the fixed
    attachment probe; a raw query is impossible. *)
Theorem search_content_gated args input query :
  deserialize_search_input args = Some input ->
  refine_tool_name Search (Some args) = Search ->
  build_query input = Ok query ->
  exists q, query = Structured q /\ Forall metadata_key (criteria q).
Proof.
  intros Hd Hr Hb. destruct (decoded_fields args input Hd) as (H1 & H2 & H3 & H4 & H5 & _).
  cbn in Hr. destruct (promotes_search_to_advanced args) eqn:Ep; [done|].
  unfold promotes_search_to_advanced in Ep.
  destruct (has_str args (lit "advanced_query") || _ || _ || _) eqn:Es; [done|].
  apply orb_false_iff in Es as [Es E4]. apply orb_false_iff in Es as [Es E3].
  apply orb_false_iff in Es as [E1 E2].
  pose proof (opt_string_absent _ _ _ H5 E1) as Ha. pose proof (opt_string_absent _ _ _ H1 E4) as Hbcc.
  pose proof (opt_string_absent _ _ _ H2 E2) as Hbody. pose proof (opt_string_absent _ _ _ H3 E3) as Htext.
  assert (Hq : exists q, query = Structured q).
  { unfold build_query in Hb. rewrite Ha in Hb.
    repeat (apply bind_ok in Hb as (? & ? & Hb)). injection Hb as <-. eauto. }
  destruct Hq as [q ->]. exists q. split; [done|].
  destruct (build_query_fields input q Hb) as (F1 & F2 & F3 & _ & _ & F4 & _).
  apply criteria_metadata; [congruence..|]. apply F4.
  destruct (i_headers input) as [hs|]; [|by left]. right. f_equal.
  apply opt_headers_absent in H4. destruct (jget args (lit "headers") ≫= as_array) as [[|]|]; done.
Qed.

(** Every search fits one line.  The key sent for any decoded arguments,
    structured or raw, holds no carriage return, line feed or NUL. *)
Theorem search_single_line args input query key :
  deserialize_search_input args = Some input -> build_query input = Ok query ->
  search_key_text query = Ok key -> one_line key.
Proof.
  intros Hd Hb Hk. destruct (decoded_fields args input Hd) as (_ & _ & _ & _ & _ & H6 & H7).
  destruct query as [q|raw].
  - destruct (build_query_fields input q Hb) as (_ & _ & _ & F1 & F2 & _ & F3).
    apply (structured_one_line q); [|done].
    split; [rewrite F1|rewrite F2|..]; try (intros; apply F3; tauto); intros n Hn.
    + apply (lenient_nonneg (jget args (lit "larger"))). by rewrite H6, Hn.
    + apply (lenient_nonneg (jget args (lit "smaller"))). by rewrite H7, Hn.
  - injection Hk as <-. unfold build_query in Hb. destruct (advanced_query input) as [r|].
    + destruct (existsb _ _) eqn:E; [done|]. injection Hb as <-. by apply one_line_bytes.
    + by repeat (apply bind_ok in Hb as (? & ? & Hb)).
Qed.
End gate.

(** A parser that knows one date. *)
#[local] Instance one_date : IsoDates.
Proof.
  refine {| iso8601_parse := fun s => if str_eqb s (lit "2026-01-05") then Ok (mkDate 2026 1 5)
                                      else Err (lit "unsupported") |}.
  intros s d. case_goal; [|done]. intros [= <-]. unfold date_valid. cbn. lia.
Defined.

Definition sample_args : jmap :=
  [(lit "folder", JStr (lit "INBOX")); (lit "from", JStr (34 :: lit "x")); (lit "body", JNull);
   (lit "headers", JArr []); (lit "larger", JStr (lit "10"));
   (lit "since", JStr (lit "2026-01-05")); (lit "limit", JInt 2); (lit "newest_first", JBool true);
   (lit "body_preview_bytes", JInt 4); (lit "has_attachment", JBool true)].
Definition sample_input : SearchInput := default
  (mkSearchInput [] None None None None None None None None None None None None None None None None
    None None None None None None None None None) (deserialize_search_input sample_args).

Definition sample_built : SearchQuery :=
  match build_query sample_input with Ok q => q | Err _ => Raw [] end.
Definition sample_key : rstr :=
  match search_key_text sample_built with Ok key => key | Err _ => [13] end.

Lemma search_content_gated_witness :
  exists q, build_query sample_input = Ok (Structured q) /\ Forall metadata_key (criteria q) /\
    length (criteria q) = 4%nat.
Proof.
  assert (Hd : deserialize_search_input sample_args = Some sample_input) by (vm_compute; reflexivity).
  assert (Hb : build_query sample_input = Ok sample_built) by (vm_compute; reflexivity).
  destruct (search_content_gated sample_args sample_input sample_built Hd eq_refl Hb) as (q & Hq & Hc).
  exists q. rewrite <- Hq. split; [exact Hb|]. split; [exact Hc|].
  vm_compute in Hq. injection Hq as <-. reflexivity.
Defined.

Lemma search_single_line_witness :
  sample_key = lit "FROM " ++ [34; 92; 34; 120; 34] ++ lit " LARGER 10 SINCE 05-Jan-2026 BODY " ++
    [34] ++ lit "Content-Disposition: attachment" ++ [34] /\ one_line sample_key.
Proof.
  split; [vm_compute; reflexivity|].
  assert (Hd : deserialize_search_input sample_args = Some sample_input) by (vm_compute; reflexivity).
  assert (Hb : build_query sample_input = Ok sample_built) by (vm_compute; reflexivity).
  assert (Hk : search_key_text sample_built = Ok sample_key) by (vm_compute; reflexivity).
  exact (search_single_line sample_args sample_input sample_built sample_key Hd Hb Hk).
Defined.

#[local] Existing Instance plain_unicode.

(** A server that found 3, 5 and 9, and lost 9 before the FETCH. *)
Definition sample_env : SearchEnv unit := {|
  imap_search := fun _ _ => Ok ([3; 5; 9], Some 7);
  imap_thread_related := fun _ _ _ => Ok ([], None);
  imap_fetch := fun _ _ _ => Ok [mkFetched 5 (Some (mkEnvelope None (Some [72; 0; 105]) [] [] [] [] [] [] None None))
    None (Some [Seen]) (Some 120)];
  imap_fetch_body := fun _ _ _ => Ok (lit "hello world");
  parse_message := fun raw => Ok (raw, [tt]);
  parse_headers := fun _ => Ok [];
  from_utf8_lossy := fun b => b |}.

Definition sample_response : SearchMeta * list SearchResultEntry * list unit :=
  match handle sample_env sample_input with
  | Ok r => r
  | Err _ => (mkMeta [] 0 0 false None None 0, [], [])
  end.

Lemma search_response_sound_witness :
  sample_response.1.2 = [mkEntry 5 (Some 120) (Some [lit "\Seen"]) (Some (lit "Hi")) None [] [] [] None
                           (Some (lit "hell")) (Some true)] /\
  fetch_skipped sample_response.1.1 = 1 /\ Forall clean_entry sample_response.1.2.
Proof.
  split; [vm_compute; reflexivity|].
  assert (Hh : handle sample_env sample_input =
    Ok (sample_response.1.1, sample_response.1.2, sample_response.2)) by (vm_compute; reflexivity).
  assert (Ht : thread_of_uid sample_input = None) by (vm_compute; reflexivity).
  destruct (search_response_sound sample_env sample_input _ _ _ Hh Ht)
    as (query & uids & uv & _ & Hs & _ & _ & Hspec).
  injection Hs as <- <-.
  destruct Hspec as (_ & Hret & _ & Hskip & Hclean & _).
  - apply (bool_decide_unpack _). vm_compute. exact I.
  - split; [|exact Hclean]. rewrite Hskip, Hret. vm_compute. reflexivity.
Defined.
