(* ===== verification/AuditTime.v ===== *)
(** * Times of the log (crates/rimap-audit/src/record/ids.rs)

    [Timestamp]: what becomes of an [OffsetDateTime], and its text.  Elsewhere
    in the model a record's time is a number. *)

From Stdlib Require Import ZArith Lia.
From stdpp Require Import base option list numbers strings.
From S2P Require Import Prelude RustStr.
Local Open Scope Z_scope.

(** [time::OffsetDateTime], by the parts its accessors give: the local date and
    time of day, and the offset from UTC in seconds. *)
Record OffsetDateTime := mkDateTime {
  dt_year : Z; dt_month : Z; dt_day : Z; dt_hour : Z; dt_minute : Z; dt_second : Z; dt_nanosecond : Z; dt_offset : Z }.

Definition is_leap (y : Z) : bool := (y mod 4 =? 0) && (negb (y mod 100 =? 0) || (y mod 400 =? 0)).
Definition month_lengths (y : Z) : list Z := [31; if is_leap y then 29 else 28; 31; 30; 31; 30; 31; 31; 30; 31; 30; 31].
Definition days_in_month (y m : Z) : Z := nth (Z.to_nat (m - 1)) (month_lengths y) 0.

(** A date of the years 0 to 9999, a time of day and any offset. *)
Definition dt_valid (dt : OffsetDateTime) : Prop :=
  0 <= dt_year dt <= 9999 /\ 1 <= dt_month dt <= 12 /\ 1 <= dt_day dt <= days_in_month (dt_year dt) (dt_month dt) /\
  0 <= dt_hour dt < 24 /\ 0 <= dt_minute dt < 60 /\ 0 <= dt_second dt < 60 /\ 0 <= dt_nanosecond dt < 1000000000.

(* [crates/rimap-audit/src/record/ids.rs:87-97] Timestamp::from_offset *)
Definition from_offset (dt : OffsetDateTime) : OffsetDateTime :=
  let clamped_ns := Z.min (dt_nanosecond dt) 999999999 in
  let ms := clamped_ns / 1000000 * 1000000 in
  mkDateTime (dt_year dt) (dt_month dt) (dt_day dt) (dt_hour dt) (dt_minute dt) (dt_second dt) ms (dt_offset dt).

(** [{n:0w}]: the sign counts in the width, and a longer number is not cut. *)
Definition zero_padded (w : nat) (n : Z) : rstr :=
  let sign := if n <? 0 then [45] else [] in
  let digits := to_decimal (Z.abs n) in
  sign ++ repeat 48 (w - length sign - length digits) ++ digits.

(* [crates/rimap-audit/src/record/ids.rs:114-132] Timestamp::serialize *)
Definition serialize (dt : OffsetDateTime) : rstr :=
  zero_padded 4 (dt_year dt) ++ [45] ++ zero_padded 2 (dt_month dt) ++ [45] ++ zero_padded 2 (dt_day dt) ++ [84] ++
  zero_padded 2 (dt_hour dt) ++ [58] ++ zero_padded 2 (dt_minute dt) ++ [58] ++ zero_padded 2 (dt_second dt) ++ [46] ++
  zero_padded 3 (dt_nanosecond dt / 1000000) ++ [90].

(** ** The instant *)

(** Days from the first of January of year 0 to the date, in the proleptic
    Gregorian calendar. *)
Definition days_before_year (y : Z) : Z := 365 * y + (y + 3) / 4 - (y + 99) / 100 + (y + 399) / 400.
Definition days_before_month (y m : Z) : Z := foldr Z.add 0 (take (Z.to_nat (m - 1)) (month_lengths y)).
Definition day_number (dt : OffsetDateTime) : Z :=
  days_before_year (dt_year dt) + days_before_month (dt_year dt) (dt_month dt) + dt_day dt - 1.
(** Milliseconds of UTC. *)
Definition instant (dt : OffsetDateTime) : Z :=
  (day_number dt * 86400 + dt_hour dt * 3600 + dt_minute dt * 60 + dt_second dt - dt_offset dt) * 1000 + dt_nanosecond dt / 1000000.

(** ** Fixed width *)

Fixpoint fixed (w : nat) (n : Z) : rstr :=
  match w with O => [] | S w => fixed w (n / 10) ++ [48 + n mod 10] end.

Lemma fixed_length w n : length (fixed w n) = w.
Proof. revert n. induction w as [|w IH]; intros n; [done|]. cbn. rewrite length_app, IH. cbn. lia. Qed.

(** For the widths in use and the numbers that fit. *)
Lemma zero_padded_fixed w n : (1 <= w <= 4)%nat -> 0 <= n < 10 ^ Z.of_nat w -> zero_padded w n = fixed w n.
Proof.
  intros Hw Hn. assert (Hall : forallb (fun w => forallb (fun n => bool_decide (zero_padded w n = fixed w n)) (seqZ 0 (10 ^ Z.of_nat w)))
    (seq 1 4) = true) by (vm_compute; reflexivity).
  rewrite forallb_forall in Hall. specialize (Hall w). rewrite forallb_forall in Hall.
  refine (bool_decide_eq_true_1 _ (Hall _ n _)); [apply in_seq; lia|]. apply list_elem_of_In, elem_of_seqZ. lia.
Qed.

(** ** The order of texts *)

Definition text_lt (a b : rstr) : bool := str_leb a b && negb (str_eqb a b).

Lemma str_leb_app p q a b : length p = length q ->
  str_leb (p ++ a) (q ++ b) = if str_eqb p q then str_leb a b else str_leb p q.
Proof.
  revert q. induction p as [|x p IH]; intros [|y q] Hl; try done. injection Hl as Hl. cbn [app str_leb]. unfold str_eqb in *. rewrite (IH q Hl).
  destruct (Z.ltb_spec x y); [rewrite bool_decide_eq_false_2; [done|]; intros [= -> _]; lia|].
  destruct (Z.ltb_spec y x); [rewrite bool_decide_eq_false_2; [done|]; intros [= -> _]; lia|].
  assert (x = y) as -> by lia. destruct (decide (p = q)) as [->|Hne].
  - by rewrite !bool_decide_eq_true_2.
  - rewrite !bool_decide_eq_false_2; [done| |done]. congruence.
Qed.

Lemma last_digit n : exists q d, n / 10 = q /\ n mod 10 = d /\ n = 10 * q + d /\ 0 <= d < 10.
Proof. exists (n / 10), (n mod 10). pose proof (Z.div_mod n 10). pose proof (Z.mod_pos_bound n 10). lia. Qed.

Lemma fixed_inj w n m : 0 <= n < 10 ^ Z.of_nat w -> 0 <= m < 10 ^ Z.of_nat w -> fixed w n = fixed w m -> n = m.
Proof.
  revert n m. induction w as [|w IH]; intros n m Hn Hm; [change (10 ^ Z.of_nat 0) with 1 in *; lia|].
  rewrite Nat2Z.inj_succ, Z.pow_succ_r in Hn, Hm by lia. cbn [fixed].
  destruct (last_digit n) as (q & d & -> & -> & -> & ?), (last_digit m) as (q' & d' & -> & -> & -> & ?).
  intros [H1 H2]%app_inj_2; [|done]. injection H2 as H2. apply IH in H1; lia.
Qed.

Lemma fixed_leb w n m : 0 <= n < 10 ^ Z.of_nat w -> 0 <= m < 10 ^ Z.of_nat w -> str_leb (fixed w n) (fixed w m) = (n <=? m).
Proof.
  revert n m. induction w as [|w IH]; intros n m Hn Hm.
  { change (10 ^ Z.of_nat 0) with 1 in *. cbn. symmetry. apply Z.leb_le. lia. }
  rewrite Nat2Z.inj_succ, Z.pow_succ_r in Hn, Hm by lia. cbn [fixed].
  destruct (last_digit n) as (q & d & -> & -> & -> & ?), (last_digit m) as (q' & d' & -> & -> & -> & ?).
  rewrite str_leb_app by by rewrite !fixed_length. unfold str_eqb. destruct (decide (q = q')) as [->|He].
  - rewrite bool_decide_eq_true_2 by done. cbn. destruct (Z.ltb_spec (48 + d) (48 + d')), (Z.ltb_spec (48 + d') (48 + d));
      symmetry; first [apply Z.leb_le; lia|apply Z.leb_gt; lia].
  - rewrite bool_decide_eq_false_2 by (intros Hf; apply He, (fixed_inj w); [lia..|exact Hf]). rewrite IH by lia.
    destruct (Z.leb_spec q q'); symmetry; first [apply Z.leb_le; lia|apply Z.leb_gt; lia].
Qed.

(** ** The calendar is in order *)

Definition leap_day (y : Z) : Z := if is_leap y then 1 else 0.

Lemma multiples_before k y : 0 < k -> (y + 1 + (k - 1)) / k = (y + (k - 1)) / k + if y mod k =? 0 then 1 else 0.
Proof.
  intros Hk. pose proof (Z.div_mod y k). pose proof (Z.mod_pos_bound y k Hk). set (q := y / k) in *. set (r := y mod k) in *.
  rewrite <- (Z.div_unique_pos (y + 1 + (k - 1)) k (q + 1) r) by lia. destruct (Z.eqb_spec r 0).
  - rewrite <- (Z.div_unique_pos (y + (k - 1)) k q (k - 1)) by lia. lia.
  - rewrite <- (Z.div_unique_pos (y + (k - 1)) k (q + 1) (r - 1)) by lia. lia.
Qed.

Lemma days_in_year y : days_before_year (y + 1) = days_before_year y + 365 + leap_day y.
Proof.
  unfold days_before_year, leap_day, is_leap.
  pose proof (multiples_before 4 y ltac:(lia)) as H4. pose proof (multiples_before 100 y ltac:(lia)) as H100.
  pose proof (multiples_before 400 y ltac:(lia)) as H400. change (4 - 1) with 3 in H4. change (100 - 1) with 99 in H100. change (400 - 1) with 399 in H400. rewrite H4, H100, H400.
  assert (Hd : y mod 400 = 0 -> y mod 100 = 0) by (intros H%Z.mod_divide; [apply Z.mod_divide; [lia|]; by apply (Z.divide_trans _ 400); [exists 4|]|lia]).
  assert (Hd' : y mod 100 = 0 -> y mod 4 = 0) by (intros H%Z.mod_divide; [apply Z.mod_divide; [lia|]; by apply (Z.divide_trans _ 100); [exists 25|]|lia]).
  destruct (Z.eqb_spec (y mod 4) 0), (Z.eqb_spec (y mod 100) 0), (Z.eqb_spec (y mod 400) 0); cbn; lia.
Qed.

Lemma years_in_order y y' : 0 <= y -> y < y' -> days_before_year y + 365 + leap_day y <= days_before_year y'.
Proof.
  intros Hy Hlt. replace y' with (y + 1 + Z.of_nat (Z.to_nat (y' - y - 1))) by lia. rewrite <- days_in_year.
  generalize (Z.to_nat (y' - y - 1)) as k. induction k as [|k IH]; [by rewrite Z.add_0_r|].
  replace (y + 1 + Z.of_nat (S k)) with (y + 1 + Z.of_nat k + 1) by lia. rewrite (days_in_year (y + 1 + Z.of_nat k)).
  unfold leap_day. case_match; lia.
Qed.

Lemma month_cases m (P : Z -> Prop) : Forall P [1; 2; 3; 4; 5; 6; 7; 8; 9; 10; 11; 12] -> 1 <= m <= 12 -> P m.
Proof.
  intros HP Hm. rewrite !Forall_cons in HP.
  assert (Hc : m = 1 \/ m = 2 \/ m = 3 \/ m = 4 \/ m = 5 \/ m = 6 \/ m = 7 \/ m = 8 \/ m = 9 \/ m = 10 \/ m = 11 \/ m = 12) by lia.
  repeat destruct Hc as [->|Hc]; try subst m; tauto.
Qed.

Lemma months_in_order y m : 1 <= m <= 12 ->
  0 <= days_before_month y m /\ days_before_month y m + days_in_month y m <= 365 + leap_day y /\
  forall m', m < m' <= 12 -> days_before_month y m + days_in_month y m <= days_before_month y m'.
Proof.
  intros Hm. assert (Hall : Forall (fun m => Forall (fun m' => 0 <= days_before_month y m /\
    days_before_month y m + days_in_month y m <= 365 + leap_day y /\
    (m < m' -> days_before_month y m + days_in_month y m <= days_before_month y m')) [1; 2; 3; 4; 5; 6; 7; 8; 9; 10; 11; 12])
    [1; 2; 3; 4; 5; 6; 7; 8; 9; 10; 11; 12]).
  { unfold days_before_month, days_in_month, leap_day, month_lengths. destruct (is_leap y);
      repeat constructor; vm_compute; try done; discriminate. }
  revert m Hm Hall. refine (fun m Hm Hall => _). pose proof (month_cases m _ Hall Hm) as Hr. cbn beta in Hr.
  pose proof (month_cases 12 _ Hr) as (H0 & H1 & _); [lia|]. split; [done|]. split; [done|].
  intros m' Hm'. apply (month_cases m' _ Hr); lia.
Qed.

Lemma dates_in_order a b : dt_valid a -> dt_valid b ->
  dt_year a < dt_year b \/ dt_year a = dt_year b /\ (dt_month a < dt_month b \/ dt_month a = dt_month b /\ dt_day a < dt_day b) ->
  day_number a < day_number b.
Proof.
  intros (Hy & Hm & Hd & _) (Hy' & Hm' & Hd' & _). unfold day_number.
  destruct (months_in_order (dt_year a) (dt_month a) Hm) as (H0 & H1 & H2).
  destruct (months_in_order (dt_year b) (dt_month b) Hm') as (H0' & _ & _). intros [Hlt|[He [Hlt|[He' Hlt]]]].
  - pose proof (years_in_order (dt_year a) (dt_year b)). lia.
  - rewrite <- He in *. specialize (H2 (dt_month b)). lia.
  - rewrite <- He, <- He'. lia.
Qed.

(** ** Texts and instants *)

Lemma field_leb w sep n m a b : (1 <= w <= 4)%nat -> 0 <= n < 10 ^ Z.of_nat w -> 0 <= m < 10 ^ Z.of_nat w ->
  str_leb (zero_padded w n ++ [sep] ++ a) (zero_padded w m ++ [sep] ++ b) = if n =? m then str_leb a b else n <=? m.
Proof.
  intros Hw Hn Hm. rewrite !zero_padded_fixed by done. rewrite str_leb_app by by rewrite !fixed_length.
  unfold str_eqb. destruct (Z.eqb_spec n m) as [->|Hne].
  - rewrite bool_decide_eq_true_2 by done. cbn. by rewrite Z.ltb_irrefl.
  - rewrite bool_decide_eq_false_2 by (intros Hf; by apply fixed_inj in Hf). by apply fixed_leb.
Qed.

Lemma millis_range dt : dt_valid dt -> 0 <= dt_nanosecond dt / 1000000 < 1000.
Proof. intros (_ & _ & _ & _ & _ & _ & H). split; [apply Z.div_pos; lia|apply Z.div_lt_upper_bound; lia]. Qed.

Lemma days_le_31 y m : days_in_month y m <= 31.
Proof.
  unfold days_in_month, month_lengths. destruct (Z.to_nat (m - 1)) as [|[|[|[|[|[|[|[|[|[|[|[|k]]]]]]]]]]]]; cbn; try lia; [by destruct (is_leap y)|by destruct k].
Qed.

Lemma last_leb n m : 0 <= n < 1000 -> 0 <= m < 1000 -> str_leb (zero_padded 3 n ++ [90]) (zero_padded 3 m ++ [90]) = (n <=? m).
Proof.
  intros Hn Hm. change [90] with ([90] ++ []). rewrite field_leb by (cbn; lia). destruct (Z.eqb_spec n m) as [->|]; [|done].
  symmetry. apply Z.leb_refl.
Qed.

(** The log's times sort as text.  For UTC times of the years 0 to 9999
    the order of the texts is the order of the instants, to the millisecond,
    across days, months and leap years; so equal texts are equal instants. *)
Theorem texts_in_order a b : dt_valid a -> dt_valid b -> dt_offset a = 0 -> dt_offset b = 0 ->
  str_leb (serialize a) (serialize b) = (instant a <=? instant b).
Proof.
  intros Ha Hb Ho Ho'. pose proof (millis_range a Ha). pose proof (millis_range b Hb). pose proof (dates_in_order a b Ha Hb) as Hd.
  pose proof (dates_in_order b a Hb Ha) as Hd'. destruct Ha as (Hy & Hm & Hday & Hh & Hmi & Hs & _), Hb as (Hy' & Hm' & Hday' & Hh' & Hmi' & Hs' & _).
  pose proof (days_le_31 (dt_year a) (dt_month a)). pose proof (days_le_31 (dt_year b) (dt_month b)).
  unfold serialize. rewrite !field_leb by (cbn; lia). unfold instant. rewrite Ho, Ho'.
  set (da := day_number a) in *. set (db := day_number b) in *. set (ma := dt_nanosecond a / 1000000) in *. set (mb := dt_nanosecond b / 1000000) in *.
  assert (He : dt_year a = dt_year b -> dt_month a = dt_month b -> dt_day a = dt_day b -> da = db)
    by (intros E1 E2 E3; unfold da, db, day_number; by rewrite E1, E2, E3).
  rewrite last_leb by done. clearbody da db ma mb. clear Hday Hday'.
  repeat match goal with |- context [if ?x =? ?y then _ else _] => destruct (Z.eqb_spec x y) end;
    match goal with |- (?x <=? ?y) = _ => destruct (Z.leb_spec x y) end; symmetry; first [apply Z.leb_le; lia|apply Z.leb_gt; lia].
Qed.

(** The text of a leap day, and its place. *)
Definition leap_day_noon (offset : Z) : OffsetDateTime := mkDateTime 2024 2 29 12 0 0 7000000 offset.
Definition next_morning : OffsetDateTime := mkDateTime 2024 3 1 0 0 0 999999999 0.

Example leap_day_text : serialize (leap_day_noon 0) = lit "2024-02-29T12:00:00.007Z" /\
  serialize (from_offset next_morning) = lit "2024-03-01T00:00:00.999Z" /\ instant next_morning - instant (leap_day_noon 0) = 43200992.
Proof. vm_compute. repeat split. Qed.

Lemma texts_in_order_witness : str_leb (serialize (leap_day_noon 0)) (serialize next_morning) = (instant (leap_day_noon 0) <=? instant next_morning).
Proof. apply (texts_in_order (leap_day_noon 0) next_morning); vm_compute; repeat split; discriminate. Defined.

(** The text ends in Z whatever the offset: two hours east of UTC, noon is
    written as noon UTC. *)
Lemma offset_not_converted : serialize (from_offset (leap_day_noon 7200)) = serialize (leap_day_noon 0) /\
  instant (from_offset (leap_day_noon 7200)) = instant (leap_day_noon 0) - 7200000.
Proof. vm_compute. repeat split. Qed.
