(* ===== verification/AuditRecord.v ===== *)
(** * Audit records (crates/rimap-audit/src/record)

    The payloads of the log, the record around them, and what the writer's
    [log_*] family makes of its inputs. *)

From Stdlib Require Import ZArith Lia.
From stdpp Require Import base option list strings.
From S2P Require Import Prelude RustStr Tools Errors Json Content.
Local Open Scope Z_scope.

(* [crates/rimap-audit/src/record/mod.rs:61-66] PostureEffective *)
Inductive PostureEffective := Account (p : Posture) | Infrastructure.
(* [crates/rimap-audit/src/record/mod.rs:71-76] PostureEffective::as_str *)
Definition posture_effective_str (p : PostureEffective) : rstr :=
  match p with Account p => posture_as_str p | Infrastructure => lit "infrastructure" end.
(* [crates/rimap-audit/src/record/mod.rs:78-85] PostureEffective::from_optional *)
Definition from_optional (p : option Posture) : PostureEffective :=
  match p with Some p => Account p | None => Infrastructure end.
(* [crates/rimap-audit/src/record/mod.rs:94-106] PostureEffective::deserialize *)
Definition posture_effective_of_str (s : rstr) : option PostureEffective :=
  if str_eqb s (lit "infrastructure") then Some Infrastructure
  else match posture_from_str s with Ok p => Some (Account p) | Err _ => None end.

(* [crates/rimap-audit/src/record/mod.rs:112-121] ProcessEndReason *)
Inductive ProcessEndReason := SignalInt | SignalTerm | Eof | EndError.
(* [crates/rimap-audit/src/record/mod.rs:130-137] AccountSummary *)
Record AccountSummary := mkAccountSummary { as_name : rstr; as_posture : Posture; as_imap_host : rstr }.
(* [crates/rimap-audit/src/record/mod.rs:158-163] VerdictSource *)
Inductive VerdictSource := FromAccount | Inherited.
(* [crates/rimap-audit/src/record/mod.rs:168-180] ToolVerdict *)
Record ToolVerdict := mkToolVerdict { tv_tool : ToolName; tv_allow : bool; tv_source : VerdictSource }.
(* [crates/rimap-audit/src/record/mod.rs:209-223] FolderSource *)
Inductive FolderSource := FolderAccount | FolderInherited | FolderDiscovered.
(* [crates/rimap-audit/src/record/mod.rs:235-250] SpecialUseDiscovery *)
Inductive SpecialUseDiscovery := NotRun | Ran.
(* [crates/rimap-audit/src/record/mod.rs:285-291] FolderEntry *)
Record FolderEntry := mkFolderEntry { fe_folder : rstr; fe_source : FolderSource }.
(* [crates/rimap-audit/src/record/mod.rs:312-347] AccountToolMatrix *)
Record AccountToolMatrix := mkAccountToolMatrix {
  am_account : rstr; am_posture : Posture; am_tools : list ToolVerdict;
  am_protected_folders : list FolderEntry; am_special_use : SpecialUseDiscovery;
  am_expunge_folders : list FolderEntry }.
(* [crates/rimap-audit/src/record/mod.rs:446-469] FolderPolicy *)
Record FolderPolicy := mkFolderPolicy {
  fp_account : rstr; fp_protected_folders : list FolderEntry;
  fp_special_use : SpecialUseDiscovery; fp_expunge_folders : list FolderEntry }.

(** [Seq], [ProcessId] (a ULID of 128 bits) and [Timestamp] are numbers. *)
(* [crates/rimap-audit/src/record/mod.rs:506-542] ProcessStart *)
Record ProcessStart := mkProcessStart {
  version : rstr; git_commit : rstr; ps_posture : option Posture;
  ps_accounts : option (list AccountSummary); ps_tool_matrix : list AccountToolMatrix;
  config_path : rstr; config_hash_sha256 : rstr;
  previous_last_seq : option Z; previous_process_id : option Z;
  previous_file_inode : Z; audit_file_inode_changed : bool }.
(* [crates/rimap-audit/src/record/mod.rs:588-646] ProcessEnd *)
Record ProcessEnd := mkProcessEnd {
  pe_reason : ProcessEndReason; total_tool_calls : Z; records_lost : Z;
  undrained_dispatches : Z; drainer_aborted_records : Z }.
(* [crates/rimap-audit/src/record/mod.rs:740-753] ToolStart *)
Record ToolStart := mkToolStart {
  ts_account : option rstr; ts_tool : ToolName; posture_effective : PostureEffective;
  arguments_redacted : json; arguments_hash_sha256 : rstr }.
(* [crates/rimap-audit/src/record/mod.rs:760-768] ToolStatus *)
Inductive ToolStatus := StatusOk | StatusError | StatusCancelled.
(* [crates/rimap-audit/src/record/mod.rs:835-840] AttachmentProvenance *)
Record AttachmentProvenance := mkAttachmentProvenance { ap_filename : rstr; ap_bytes : Z }.
(* [crates/rimap-audit/src/record/mod.rs:784-829] ResultSummary *)
Record ResultSummary := mkResultSummary {
  message_ids_returned : list rstr; bytes_returned : Z; rs_truncated : bool;
  security_warnings_emitted : list WarningCode;
  artifact_path : option rstr; artifact_sha256 : option rstr; artifact_bytes : option Z;
  uids_exported : list Z; uids_failed : list Z; attachments_sent : list AttachmentProvenance }.
(* [crates/rimap-audit/src/record/mod.rs:853-858] Provenance *)
Record Provenance := mkProvenance { window_seconds : Z; message_ids_recently_read : list rstr }.
(* [crates/rimap-audit/src/record/mod.rs:879-897] ToolEnd *)
Record ToolEnd := mkToolEnd {
  te_account : option rstr; start_seq : Z; te_tool : ToolName; status : ToolStatus;
  error_code : option ErrorCode; duration_ms : Z; result_summary : ResultSummary;
  provenance : Provenance }.
(* [crates/rimap-audit/src/record/mod.rs:904-909] ConfigEvent *)
Record ConfigEvent := mkConfigEvent { ce_path : rstr; ce_hash_sha256 : rstr }.
(* [crates/rimap-core/src/auth_event.rs:138-166] AuthEvent *)
Record AuthEvent := mkAuthEvent {
  ae_account : option rstr; ae_ok : bool; ae_host : rstr; ae_port : Z; ae_username : rstr;
  tls_fingerprint_sha256 : option rstr; fingerprint_match : option bool;
  ae_error_code : option ErrorCode; ae_credential_source : option CredentialSource }.

(* [crates/rimap-audit/src/record/mod.rs:914-930] Payload *)
Inductive Payload :=
  | PProcessStart (p : ProcessStart)
  | PProcessEnd (p : ProcessEnd)
  | PAuth (p : AuthEvent)
  | PToolStart (p : ToolStart)
  | PToolEnd (p : ToolEnd)
  | PConfig (p : ConfigEvent)
  | PFolderPolicy (p : FolderPolicy).

(* [crates/rimap-audit/src/record/mod.rs:691-702] AuditRecord *)
Record AuditRecord := mkAuditRecord { seq : Z; ts : Z; process_id : Z; payload : Payload }.

(* [crates/rimap-audit/src/record/kind.rs:31-41] of *)
Definition kind_of (p : Payload) : rstr :=
  match p with
  | PProcessStart _ => lit "process_start"
  | PProcessEnd _ => lit "process_end"
  | PAuth _ => lit "auth"
  | PToolStart _ => lit "tool_start"
  | PToolEnd _ => lit "tool_end"
  | PConfig _ => lit "config"
  | PFolderPolicy _ => lit "folder_policy"
  end.

(* [crates/rimap-audit/src/writer/emit.rs:158-172] needs_fsync *)
Definition needs_fsync (p : Payload) : bool :=
  match p with
  | PProcessStart _ | PProcessEnd _ | PAuth _ | PConfig _ | PFolderPolicy _ => true
  | PToolStart _ | PToolEnd _ => false
  end.

(** ** The inputs of the [log_*] family *)

(* [crates/rimap-audit/src/writer/self_check.rs:66-77] TrailingState *)
Record TrailingState := mkTrailing {
  last_seq : option Z; last_process_id : option Z; last_recorded_inode : option Z }.

(* [crates/rimap-audit/src/writer/log.rs:294-310] ToolStartInputs *)
Record ToolStartInputs := mkToolStartInputs {
  tsi_tool : ToolName; tsi_account : option rstr; tsi_posture : option Posture;
  tsi_arguments_redacted : json; tsi_arguments_hash : rstr }.

(* [crates/rimap-audit/src/writer/log.rs:348-358] From<ToolStartInputs> *)
Definition tool_start_of (i : ToolStartInputs) : ToolStart :=
  mkToolStart (tsi_account i) (tsi_tool i) (from_optional (tsi_posture i))
    (tsi_arguments_redacted i) (tsi_arguments_hash i).

(* [crates/rimap-audit/src/writer/log.rs:366-391] ProcessStartInputs *)
Record ProcessStartInputs := mkProcessStartInputs {
  psi_version : rstr; psi_git_commit : rstr; psi_posture : option Posture;
  psi_accounts : option (list AccountSummary); psi_tool_matrix : list AccountToolMatrix;
  psi_config_path : rstr; psi_config_hash : rstr;
  trailing : TrailingState; current_inode : Z }.

(* [crates/rimap-audit/src/writer/log.rs:180-202] AuditWriter::log_process_start *)
Definition process_start_of (i : ProcessStartInputs) : ProcessStart :=
  let inode_changed := match last_recorded_inode (trailing i) with
                       | Some prior => negb (prior =? current_inode i)
                       | None => false
                       end in
  mkProcessStart (psi_version i) (psi_git_commit i) (psi_posture i) (psi_accounts i)
    (psi_tool_matrix i) (psi_config_path i) (psi_config_hash i)
    (last_seq (trailing i)) (last_process_id (trailing i)) (current_inode i) inode_changed.

(** ** Lemmas *)

Lemma posture_effective_roundtrip p : posture_effective_of_str (posture_effective_str p) = Some p.
Proof. by destruct p as [[]|]. Qed.

(** An inode of 0, documented as unknown and not to be flagged, is flagged. *)
Lemma unknown_inode_flagged i prior :
  last_recorded_inode (trailing i) = Some prior -> prior <> 0 -> current_inode i = 0 ->
  audit_file_inode_changed (process_start_of i) = true.
Proof.
  intros Hl Hp Hc. unfold process_start_of. cbn. rewrite Hl, Hc.
  apply negb_true_iff, Z.eqb_neq. exact Hp.
Qed.
