(* ===== verification/AuditWriter.v ===== *)
(** * The audit writer (crates/rimap-audit/src/writer)

    One worker owns the log file behind a [BufWriter] and serves write
    requests in order (deadline.rs); a request may rotate the file first
    (rotation.rs); [emit] allocates the sequence number, serializes, submits
    and applies the fail-open policy (emit.rs); the next process reads the
    trailing state of the file (self_check.rs).

    What the operating system answers to the calls of one request is its
    [io] argument: which of the calls fail, and how many of the bytes it
    takes before it does. *)

From Stdlib Require Import ZArith Lia.
From stdpp Require Import base option list strings gmap.
From S2P Require Import Prelude RustStr Tools Errors Json AuditRecord.
Local Open Scope Z_scope.

(** ** Files *)

(** Files by inode; [active] is the one the audit path names. *)
Record disk := mkDisk { active : option nat; files : gmap nat (list Z); fresh : nat }.

Definition content (d : disk) (f : nat) : list Z := default [] (files d !! f).
Definition append (d : disk) (f : nat) (bytes : list Z) : disk :=
  mkDisk (active d) (<[f := content d f ++ bytes]> (files d)) (fresh d).

(** What the calls of one request do: [None] is success, [Some n] an error
    after [n] bytes. *)
Record io := mkIo {
  rename_ok : bool; open_ok : bool; lock_ok : bool;
  close_flush : option nat; full_flush : option nat; direct_write : option nat; flush : option nat;
  sync_ok : bool }.
Definition all_ok : io := mkIo true true true None None None None true.

(* [crates/rimap-audit/src/error.rs:12-96] AuditError *)
Inductive AuditError :=
  | AOpen | AParentDir | ALocked | ASerialize | AParse | AWrite | AFsync | AWriteDeadline | ARotate
  | ARead (line : option Z).

(* [crates/rimap-audit/src/writer/core.rs:164-168] Inner *)
Record Inner := mkInner { file : nat; buf : list Z; bytes_written : Z }.

(* [crates/rimap-audit/src/writer/deadline.rs:78-85] WorkerConfig *)
Record WorkerConfig := mkWorkerConfig { rotate_bytes : Z; rotate_keep : Z; retention_seconds : option Z }.

(** [std::io::BufWriter] with its default capacity. *)
Definition BUF_CAPACITY : nat := Z.to_nat 8192.

(** [flush_buf]: bytes the file took leave the buffer, also on error. *)
Definition flush_buf (fail : option nat) (d : disk) (f : nat) (b : list Z)
    : disk * list Z * result AuditError unit :=
  match fail with
  | None => (append d f b, [], Ok tt)
  | Some n => (append d f (take n b), drop n b, Err AWrite)
  end.

(** [write_all]: a line that fits is copied; otherwise the buffer is flushed
    and a line as long as the buffer goes straight to the file. *)
Definition write_all (x : io) (d : disk) (f : nat) (b line : list Z)
    : disk * list Z * result AuditError unit :=
  if (length line <? BUF_CAPACITY - length b)%nat then (d, b ++ line, Ok tt)
  else
    let '(d, b, r) := if (BUF_CAPACITY - length b <? length line)%nat
                      then flush_buf (full_flush x) d f b else (d, b, Ok tt) in
    match r with
    | Err e => (d, b, Err e)
    | Ok _ =>
        if (BUF_CAPACITY <=? length line)%nat then
          match direct_write x with
          | None => (append d f line, b, Ok tt)
          | Some n => (append d f (take n line), b, Err AWrite)
          end
        else (d, b ++ line, Ok tt)
    end.

(** ** Rotation *)

(** The new active file, empty and locked.  [fs::rename] has replaced the name
    by the time a later step fails. *)
(* [crates/rimap-audit/src/writer/rotation.rs:71-111] rotate_file *)
Definition rotate_file (x : io) (d : disk) : disk * result AuditError nat :=
  match active d with
  | None => (d, Err ARotate)
  | Some _ =>
      if negb (rename_ok x) then (d, Err ARotate)
      else
        let d := mkDisk None (files d) (fresh d) in
        if negb (open_ok x) then (d, Err ARotate)
        else
          let d := mkDisk (Some (fresh d)) (<[fresh d := []]> (files d)) (S (fresh d)) in
          if negb (lock_ok x) then (d, Err ARotate)
          else (d, Ok (fresh d - 1)%nat)
  end.

(** Replacing [inner.buf] drops the old [BufWriter], which flushes it and
    ignores the error. *)
(* [crates/rimap-audit/src/writer/deadline.rs:282-330] perform_write *)
Definition rotate_if_due (cfg : WorkerConfig) (x : io) (d : disk) (inner : Inner)
    : disk * Inner * result AuditError unit :=
  if (0 <? rotate_bytes cfg) && (rotate_bytes cfg <=? bytes_written inner) then
    let '(d, r) := rotate_file x d in
    match r with
    | Err e => (d, inner, Err e)
    | Ok f =>
        let '(d, _, _) := flush_buf (close_flush x) d (file inner) (buf inner) in
        (d, mkInner f [] 0, Ok tt)
    end
  else (d, inner, Ok tt).

Definition u64_add_sat (a b : Z) : Z := Z.min u64_max (a + b).

(* [crates/rimap-audit/src/writer/deadline.rs:280-330] perform_write *)
Definition perform_write (cfg : WorkerConfig) (x : io) (d : disk) (inner : Inner) (bytes : list Z) (fsync : bool)
    : disk * Inner * result AuditError unit :=
  let '(d, inner, r) := rotate_if_due cfg x d inner in
  match r with
  | Err e => (d, inner, Err e)
  | Ok _ =>
      let f := file inner in
      let '(d, b, r) := write_all x d f (buf inner) bytes in
      match r with
      | Err e => (d, mkInner f b (bytes_written inner), Err e)
      | Ok _ =>
          let '(d, b, r) := flush_buf (flush x) d f b in
          match r with
          | Err e => (d, mkInner f b (bytes_written inner), Err e)
          | Ok _ =>
              let written := u64_add_sat (bytes_written inner) (Z.of_nat (length bytes)) in
              (d, mkInner f b written,
               if fsync && negb (sync_ok x) then Err AFsync else Ok tt)
          end
      end
  end.

(** ** The writer *)

(** [serde_json] on records: compact, so without line breaks, in UTF-8, and read
    back by [TailEnvelope]. *)
Record TailEnvelope := mkTail { t_seq : Z; t_process_id : Z; t_kind : rstr; t_inode : option Z }.

Definition envelope_of (r : AuditRecord) : TailEnvelope :=
  mkTail (seq r) (process_id r) (kind_of (payload r))
    (match payload r with PProcessStart p => Some (previous_file_inode p) | _ => None end).

Class RecordJson := {
  to_vec : AuditRecord -> option (list Z);
  parse_envelope : list Z -> option TailEnvelope;
  to_vec_line : forall r bs, to_vec r = Some bs ->
    ~ 10 ∈ bs /\ last bs <> Some 13 /\ utf8_valid bs = true;
  parse_to_vec : forall r bs, to_vec r = Some bs -> parse_envelope bs = Some (envelope_of r);
}.

(* [crates/rimap-audit/src/writer/core.rs:150-161] AuditWriter *)
Record AuditWriter := mkAuditWriter {
  w_fail_open : bool; w_process_id : Z; suppressed_failures : Z; tool_calls : Z; next_seq : Z }.

Record state := mkState { writer : AuditWriter; on_disk : disk; inner : Inner }.

(* [crates/rimap-audit/src/writer/emit.rs:39-42] allocate_seq *)
Definition allocate_seq (w : AuditWriter) : AuditWriter * Z :=
  (mkAuditWriter (w_fail_open w) (w_process_id w) (suppressed_failures w) (tool_calls w)
     ((next_seq w + 1) mod 2 ^ 64), next_seq w).

(* [crates/rimap-audit/src/writer/emit.rs:127-132] count_suppressed_failure *)
Definition count_suppressed_failure (w : AuditWriter) : AuditWriter :=
  mkAuditWriter (w_fail_open w) (w_process_id w) ((suppressed_failures w + 1) mod 2 ^ 64)
    (tool_calls w) (next_seq w).

Section writer.
Context `{RecordJson}.
Variable cfg : WorkerConfig.

(** [timed_out]: the reply did not come before the deadline.  The worker
    finishes the request all the same. *)
(* [crates/rimap-audit/src/writer/deadline.rs:141-165] IoHandle::request *)
Definition request (x : io) (timed_out : bool) (st : state) (bytes : list Z) (fsync : bool)
    : state * result AuditError unit :=
  let '(d, i, r) := perform_write cfg x (on_disk st) (inner st) bytes fsync in
  (mkState (writer st) d i, if timed_out then Err AWriteDeadline else r).

(* [crates/rimap-audit/src/writer/emit.rs:134-156] write_record_inner *)
Definition write_record_inner (x : io) (timed_out : bool) (st : state) (r : AuditRecord)
    : state * result AuditError unit :=
  match to_vec r with
  | None => (st, Err ASerialize)
  | Some bytes => request x timed_out st (bytes ++ [10]) (needs_fsync (payload r))
  end.

(* [crates/rimap-audit/src/writer/emit.rs:99-125] write_record *)
Definition write_record (x : io) (timed_out : bool) (st : state) (r : AuditRecord)
    : state * result AuditError unit :=
  let '(st, res) := write_record_inner x timed_out st r in
  match res with
  | Ok _ => (st, Ok tt)
  | Err ASerialize => (st, Err ASerialize)
  | Err e =>
      if w_fail_open (writer st)
      then (mkState (count_suppressed_failure (writer st)) (on_disk st) (inner st), Ok tt)
      else (st, Err e)
  end.

(* [crates/rimap-audit/src/writer/emit.rs:44-61] emit *)
Definition emit (x : io) (timed_out : bool) (now : Z) (st : state) (p : Payload)
    : state * result AuditError Z :=
  let '(w, s) := allocate_seq (writer st) in
  let st := mkState w (on_disk st) (inner st) in
  let '(st, res) := write_record x timed_out st (mkAuditRecord s now (w_process_id w) p) in
  (st, match res with Ok _ => Ok s | Err e => Err e end).

(* [crates/rimap-audit/src/writer/log.rs:105-125] log_tool_start *)
Definition log_tool_start (x : io) (timed_out : bool) (now : Z) (st : state) (i : ToolStartInputs)
    : state * result AuditError Z :=
  let '(st, res) := emit x timed_out now st (PToolStart (tool_start_of i)) in
  match res with
  | Ok s =>
      let w := writer st in
      (mkState (mkAuditWriter (w_fail_open w) (w_process_id w) (suppressed_failures w)
         ((tool_calls w + 1) mod 2 ^ 64) (next_seq w)) (on_disk st) (inner st), Ok s)
  | Err e => (st, Err e)
  end.

(* [crates/rimap-audit/src/writer/log.rs:173-203] log_process_start *)
Definition log_process_start (x : io) (timed_out : bool) (now : Z) (st : state) (i : ProcessStartInputs)
    : state * result AuditError Z :=
  emit x timed_out now st (PProcessStart (process_start_of i)).
End writer.

(** ** The log holds whole lines *)

(** Requests in the order the worker takes them. *)
Record req := mkReq { r_io : io; r_line : list Z; r_fsync : bool }.

Fixpoint serve (cfg : WorkerConfig) (reqs : list req) (d : disk) (i : Inner)
    : disk * Inner * list (result AuditError unit) :=
  match reqs with
  | [] => (d, i, [])
  | q :: reqs =>
      let '(d, i, r) := perform_write cfg (r_io q) d i (r_line q) (r_fsync q) in
      let '(d, i, rs) := serve cfg reqs d i in (d, i, r :: rs)
  end.

(** A journal says which line went to which file, in order. *)
Definition lines_of (J : list (nat * list Z)) (f : nat) : list Z :=
  concat (map snd (List.filter (fun p => p.1 =? f)%nat J)).

Record journaled (base : nat -> list Z) (J : list (nat * list Z)) (d : disk) (i : Inner) : Prop := {
  j_owner : (file i < fresh d)%nat;
  j_fresh : forall f, (fresh d <= f)%nat -> content d f = [] /\ base f = [] /\ lines_of J f = [];
  j_current : content d (file i) ++ buf i = base (file i) ++ lines_of J (file i);
  j_old : forall f, f <> file i -> content d f `prefix_of` base f ++ lines_of J f }.

Lemma lines_of_snoc J f line g :
  lines_of (J ++ [(f, line)]) g = lines_of J g ++ (if (f =? g)%nat then line else []).
Proof.
  unfold lines_of. rewrite List.filter_app, map_app, concat_app. f_equal. cbn.
  destruct (f =? g)%nat; cbn; by rewrite ?app_nil_r.
Qed.

Lemma content_append d f b g :
  content (append d f b) g = if (f =? g)%nat then content d f ++ b else content d g.
Proof.
  unfold content at 1, append. cbn. destruct (Nat.eqb_spec f g) as [->|Hne].
  - by rewrite lookup_insert_eq.
  - by rewrite lookup_insert_ne.
Qed.

(** Moving bytes from the buffer to its file. *)
Lemma flush_journaled base J d i fail d' b r n :
  journaled base J d i -> flush_buf fail d (file i) (buf i) = (d', b, r) ->
  journaled base J d' (mkInner (file i) b n) /\ fresh d' = fresh d /\ active d' = active d /\
  (r = Ok tt -> b = []).
Proof.
  intros [Ho Hf Hc Hold] Hfl.
  assert (Hd : exists taken, d' = append d (file i) taken /\ buf i = taken ++ b /\ (r = Ok tt -> b = [])).
  { unfold flush_buf in Hfl. destruct fail as [k|]; injection Hfl as <- <- <-.
    - exists (take k (buf i)). by rewrite take_drop.
    - exists (buf i). by rewrite app_nil_r. }
  destruct Hd as (taken & -> & Hb & Hr). split; [|done]. split; cbn.
  - done.
  - intros f Hfr. rewrite content_append. destruct (Nat.eqb_spec (file i) f); [lia|]. by apply Hf.
  - rewrite content_append, Nat.eqb_refl, <- app_assoc, <- Hb. done.
  - intros f Hne. rewrite content_append. destruct (Nat.eqb_spec (file i) f); [by subst|]. by apply Hold.
Qed.

Lemma push_journaled base J d i line n :
  journaled base J d i -> journaled base (J ++ [(file i, line)]) d (mkInner (file i) (buf i ++ line) n).
Proof.
  intros [Ho Hf Hc Hold]. split; cbn.
  - done.
  - intros f Hfr. destruct (Hf f Hfr) as (? & ? & ?). rewrite lines_of_snoc.
    destruct (Nat.eqb_spec (file i) f); [lia|]. by rewrite app_nil_r.
  - rewrite lines_of_snoc, Nat.eqb_refl, !app_assoc, <- Hc. done.
  - intros f Hne. rewrite lines_of_snoc. destruct (Nat.eqb_spec (file i) f); [by subst|].
    rewrite app_nil_r. by apply Hold.
Qed.

Lemma write_all_journaled base J x d i line d' b r n :
  journaled base J d i -> (length line < BUF_CAPACITY)%nat ->
  write_all x d (file i) (buf i) line = (d', b, r) ->
  match r with
  | Ok _ => journaled base (J ++ [(file i, line)]) d' (mkInner (file i) b n)
  | Err _ => journaled base J d' (mkInner (file i) b n)
  end /\ fresh d' = fresh d.
Proof.
  intros Hj Hl. unfold write_all. destruct (_ <? _)%nat.
  { intros [= <- <- <-]. split; [by apply push_journaled|done]. }
  destruct (if (_ <? _)%nat then _ else _) as [[d1 b1] r1] eqn:E.
  assert (H1 : journaled base J d1 (mkInner (file i) b1 n) /\ fresh d1 = fresh d).
  { destruct (_ <? _)%nat.
    - destruct (flush_journaled base J d i _ _ _ _ n Hj E) as (? & ? & _). done.
    - injection E as <- <- <-. split; [|done]. destruct Hj. by split. }
  destruct H1 as [Hj1 Hfr]. destruct r1 as [|e].
  - destruct (BUF_CAPACITY <=? length line)%nat eqn:Ec; [apply Nat.leb_le in Ec; lia|].
    intros [= <- <- <-]. split; [|done].
    by apply (push_journaled base J d1 (mkInner (file i) b1 n) line n).
  - intros [= <- <- <-]. done.
Qed.

Lemma rotate_journaled base J x d i d' r :
  journaled base J d i -> rotate_file x d = (d', r) ->
  journaled base J d' i /\
  (forall f, r = Ok f -> f <> file i /\ (f < fresh d')%nat /\ content d' f = [] /\ base f = [] /\
     lines_of J f = []).
Proof.
  intros Hj. unfold rotate_file. destruct (active d); [|by intros [= <- <-]].
  destruct (negb (rename_ok x)); [by intros [= <- <-]|].
  assert (Hn : journaled base J (mkDisk None (files d) (fresh d)) i) by (destruct Hj; by split).
  destruct (negb (open_ok x)); [by intros [= <- <-]|]. cbn [fresh files].
  set (d2 := mkDisk _ _ _).
  assert (Hcont : forall f, content d2 f = if (f =? fresh d)%nat then [] else content d f).
  { intros f. unfold content, d2. cbn. destruct (Nat.eqb_spec f (fresh d)) as [->|Hne].
    - by rewrite lookup_insert_eq.
    - by rewrite lookup_insert_ne. }
  assert (H2 : journaled base J d2 i).
  { destruct Hj as [Ho Hf Hc Hold]. split.
    - cbn. lia.
    - intros f Hfr. cbn in Hfr. rewrite Hcont. destruct (Nat.eqb_spec f (fresh d)); [lia|]. apply Hf. lia.
    - rewrite Hcont. destruct (Nat.eqb_spec (file i) (fresh d)); [lia|]. done.
    - intros f Hne. rewrite Hcont. destruct (Nat.eqb_spec f (fresh d)) as [->|]; [|by apply Hold].
      apply prefix_nil. }
  destruct (negb (lock_ok x)); intros [= <- <-]; (split; [done|]); [done|].
  intros f [= <-]. cbn. rewrite Nat.sub_0_r. destruct Hj as [Ho Hf _ _].
  destruct (Hf (fresh d)) as (_ & ? & ?); [lia|]. split; [lia|]. split; [lia|].
  split; [|done]. rewrite Hcont. by rewrite Nat.eqb_refl.
Qed.

Lemma rotate_if_due_journaled base J cfg x d i d' i' r :
  journaled base J d i -> rotate_if_due cfg x d i = (d', i', r) -> journaled base J d' i'.
Proof.
  intros Hj. unfold rotate_if_due. destruct (_ && _); [|by intros [= <- <- <-]].
  destruct (rotate_file x d) as [d1 r1] eqn:Er. destruct (rotate_journaled _ _ _ _ _ _ _ Hj Er) as [H1 Hnew].
  destruct r1 as [f|e]; [|by intros [= <- <- <-]].
  destruct (Hnew f eq_refl) as (Hne & Hlt & Hcont & Hbase & Hlines).
  destruct (flush_buf _ _ _ _) as [[d2 b2] r2] eqn:Ef. intros [= <- <- <-].
  destruct (flush_journaled _ _ _ _ _ _ _ _ (bytes_written i) H1 Ef) as (H2 & Hfr & _ & _).
  assert (Hc2 : content d2 f = content d1 f).
  { unfold flush_buf in Ef. destruct (close_flush x); injection Ef as <- _ _;
      rewrite content_append; destruct (Nat.eqb_spec (file i) f); congruence. }
  destruct H2 as [Ho2 Hf2 Hcur2 Hold2]. cbn in *. split; cbn.
  - lia.
  - done.
  - by rewrite Hc2, Hcont, Hbase, Hlines.
  - intros g Hg. destruct (decide (g = file i)) as [->|Hgi]; [|by apply Hold2].
    rewrite <- Hcur2. by apply prefix_app_r.
Qed.

Lemma perform_write_journaled base J cfg x d i line fsync d' i' r :
  journaled base J d i -> (length line < BUF_CAPACITY)%nat ->
  perform_write cfg x d i line fsync = (d', i', r) ->
  exists J', (J' = J \/ J' = J ++ [(file i', line)]) /\ journaled base J' d' i' /\
    (r = Ok tt -> J' = J ++ [(file i', line)] /\ buf i' = []).
Proof.
  intros Hj Hl. unfold perform_write. destruct (rotate_if_due cfg x d i) as [[d1 i1] r1] eqn:E1.
  pose proof (rotate_if_due_journaled _ _ _ _ _ _ _ _ _ Hj E1) as H1.
  destruct r1 as [|e]; [|intros [= <- <- <-]; exists J; split; [by left|by split]].
  destruct (write_all _ _ _ _ _) as [[d2 b2] r2] eqn:E2.
  destruct (write_all_journaled _ _ _ _ _ _ _ _ _ (bytes_written i1) H1 Hl E2) as [H2 _].
  destruct r2 as [|e]; [|intros [= <- <- <-]; exists J; split; [by left|split; [exact H2|done]]].
  destruct (flush_buf _ _ _ _) as [[d3 b3] r3] eqn:E3.
  destruct (flush_journaled _ _ _ _ _ _ _ _ (bytes_written i1) H2 E3) as (H3 & _ & _ & Hb).
  assert (H3' : forall n, journaled base (J ++ [(file i1, line)]) d3 (mkInner (file i1) b3 n))
    by (intros n; by destruct H3).
  destruct r3 as [[]|e].
  - intros [= <- <- <-]. exists (J ++ [(file i1, line)]). split; [by right|]. split; [apply H3'|].
    intros _. split; [done|]. by apply Hb.
  - intros [= <- <- <-]. exists (J ++ [(file i1, line)]). split; [by right|]. split; [apply H3'|done].
Qed.

(** The lines whose requests were answered with success. *)
Definition acked (reqs : list req) (rs : list (result AuditError unit)) : list (list Z) :=
  map (fun p => r_line p.1) (List.filter (fun p => is_ok p.2) (zip reqs rs)).

Lemma serve_journaled base J cfg reqs d i d' i' rs :
  journaled base J d i -> Forall (fun q => (length (r_line q) < BUF_CAPACITY)%nat) reqs ->
  serve cfg reqs d i = (d', i', rs) ->
  exists J', journaled base (J ++ J') d' i' /\
    map snd J' `sublist_of` map r_line reqs /\ acked reqs rs `sublist_of` map snd J' /\
    (last rs = Some (Ok tt) -> buf i' = []).
Proof.
  intros Hj Hl. revert J d i rs Hj. induction Hl as [|q reqs Hq Hl IH]; intros J d i rs Hj; cbn [serve].
  - intros [= <- <- <-]. exists []. rewrite app_nil_r. by split_and!.
  - destruct (perform_write _ _ _ _ _ _) as [[d1 i1] r1] eqn:E1.
    destruct (serve cfg reqs d1 i1) as [[d2 i2] rs2] eqn:E2. intros [= <- <- <-].
    destruct (perform_write_journaled _ _ _ _ _ _ _ _ _ _ _ Hj Hq E1) as (J1 & HJ1 & Hj1 & Hok).
    destruct (IH J1 d1 i1 rs2 Hj1 E2) as (J2 & Hj2 & Hs2 & Ha2 & Hb2).
    assert (Hlast : last (r1 :: rs2) = Some (Ok tt) -> buf i2 = []).
    { destruct rs2 as [|r2 rs2]; [|exact Hb2]. intros [= ->].
      destruct reqs as [|q2 reqs]; cbn in E2.
      - injection E2 as <- <-. by apply Hok.
      - destruct (perform_write cfg (r_io q2) d1 i1 (r_line q2) (r_fsync q2)) as [[d3 i3] r3].
        by destruct (serve cfg reqs d3 i3) as [[? ?] ?]. }
    unfold acked. cbn [zip zip_with map List.filter snd fst]. fold (zip reqs rs2).
    destruct HJ1 as [->| ->].
    + exists J2. split; [done|]. split; [by constructor|]. split; [|done].
      destruct r1 as [[]|]; [|done]. destruct (Hok eq_refl) as [Hbad _].
      apply (f_equal length) in Hbad. rewrite length_app in Hbad. cbn in Hbad. lia.
    + exists ((file i1, r_line q) :: J2). rewrite <- app_assoc in Hj2. split; [done|].
      split; [by constructor|]. split; [|done]. destruct r1; cbn; by constructor.
Qed.


(** ** One write *)

Lemma content_append_same d f bs : content (append d f bs) f = content d f ++ bs.
Proof. by rewrite content_append, Nat.eqb_refl. Qed.

Definition rotation_due (cfg : WorkerConfig) (n : Z) : bool :=
  (0 <? rotate_bytes cfg) && (rotate_bytes cfg <=? n).

(** A line at the end of the file that is open after the write: where no
    rotation was due, after all that file held and the bytes still buffered for
    it; otherwise it is the whole of the file the rotation put in its place. *)
Definition appended (cfg : WorkerConfig) (d : disk) (i : Inner) (d' : disk) (i' : Inner) (line : list Z) : Prop :=
  if rotation_due cfg (bytes_written i)
  then file i' = fresh d /\ active d' = Some (fresh d) /\ content d' (file i') = line
  else file i' = file i /\ active d' = active d /\ content d' (file i') = content d (file i) ++ buf i ++ line.

Lemma flush_ok fail d f b d' b' : flush_buf fail d f b = (d', b', Ok tt) -> d' = append d f b /\ b' = [].
Proof. unfold flush_buf. by destruct fail; intros [= <- <-]. Qed.

(** A line that is taken follows what was buffered. *)
Lemma write_all_ok x d f b line d' b' : write_all x d f b line = (d', b', Ok tt) ->
  content d' f ++ b' = content d f ++ b ++ line /\ active d' = active d.
Proof.
  assert (Hcap : (0 < BUF_CAPACITY)%nat) by (unfold BUF_CAPACITY; lia).
  unfold write_all. destruct (_ <? _)%nat; [by intros [= <- <-]|].
  destruct (_ <? length line)%nat eqn:E1.
  - destruct (flush_buf _ d f b) as [[d1 b1] [[]|e]] eqn:Ef; [|done]. apply flush_ok in Ef as [-> ->].
    destruct (BUF_CAPACITY <=? length line)%nat.
    + destruct (direct_write x); [done|]. intros [= <- <-]. by rewrite !content_append_same, app_nil_r, <- app_assoc.
    + intros [= <- <-]. by rewrite content_append_same, <- app_assoc.
  - destruct (BUF_CAPACITY <=? length line)%nat eqn:E2; [|by intros [= <- <-]]. destruct (direct_write x); [done|].
    apply Nat.ltb_ge in E1. apply Nat.leb_le in E2. intros [= <- <-]. destruct b as [|z b]; [|cbn [length] in E1; lia].
    by rewrite content_append_same, app_nil_r.
Qed.

Lemma rotate_if_due_ok cfg x d i d' i' : (rotation_due cfg (bytes_written i) = true -> file i < fresh d)%nat -> rotate_if_due cfg x d i = (d', i', Ok tt) ->
  if rotation_due cfg (bytes_written i)
  then file i' = fresh d /\ buf i' = [] /\ active d' = Some (fresh d) /\ content d' (fresh d) = []
  else d' = d /\ i' = i.
Proof.
  intros Hlt. unfold rotate_if_due. fold (rotation_due cfg (bytes_written i)).
  destruct (rotation_due _ _); [|by intros [= <- <-]]. specialize (Hlt eq_refl).
  unfold rotate_file. destruct (active d); [|done]. destruct (negb (rename_ok x)); [done|]. destruct (negb (open_ok x)); [done|].
  destruct (negb (lock_ok x)); [done|]. destruct (flush_buf _ _ _ _) as [[d1 b1] r1] eqn:Ef. intros [= <- <-]. cbn in *.
  assert (Hd : exists bs, d1 = append (mkDisk (Some (fresh d)) (<[fresh d:=[]]> (files d)) (S (fresh d))) (file i) bs).
  { unfold flush_buf in Ef. destruct (close_flush x); injection Ef as <- _ _; by eexists. }
  destruct Hd as [bs ->]. rewrite Nat.sub_0_r. split_and!; [done..|].
  rewrite content_append. destruct (Nat.eqb_spec (file i) (fresh d)); [lia|]. unfold content. cbn. by rewrite lookup_insert_eq.
Qed.

(** A write that succeeds appends its line. *)
Lemma perform_write_appends cfg x d i line fs d' i' : (rotation_due cfg (bytes_written i) = true -> file i < fresh d)%nat ->
  perform_write cfg x d i line fs = (d', i', Ok tt) -> appended cfg d i d' i' line.
Proof.
  intros Hlt. unfold perform_write. destruct (rotate_if_due cfg x d i) as [[d1 i1] [[]|e]] eqn:Er; [|done].
  apply rotate_if_due_ok in Er; [|done].
  destruct (write_all _ _ _ _ _) as [[d2 b2] [[]|e]] eqn:Ew; [|done]. apply write_all_ok in Ew as [Hc Ha].
  destruct (flush_buf _ _ _ _) as [[d3 b3] [[]|e]] eqn:Ef; [|done]. apply flush_ok in Ef as [-> ->].
  intros [= <- <- _]. unfold appended. cbn [file active append]. rewrite content_append_same, Hc, Ha.
  destruct (rotation_due _ _); [|by destruct Er as [-> ->]]. by destruct Er as (-> & -> & -> & ->).
Qed.

(** A write that succeeds on an empty buffer, no rotation being due. *)
Lemma perform_write_fresh cfg x d f n line fs d' i' :
  rotation_due cfg n = false -> perform_write cfg x d (mkInner f [] n) line fs = (d', i', Ok tt) ->
  content d' f = content d f ++ line /\ active d' = active d.
Proof.
  intros Hdue Hw. apply perform_write_appends in Hw; [|cbn [bytes_written]; congruence]. unfold appended in Hw. cbn [bytes_written file buf] in Hw.
  rewrite Hdue in Hw. by destruct Hw as (<- & -> & ->).
Qed.

(** The file a writer has open is one the disk knows. *)
Definition file_known (d : disk) (i : Inner) : Prop := (file i < fresh d)%nat.

Lemma perform_write_known cfg x d i line fs : file_known d i ->
  let '(d', i', _) := perform_write cfg x d i line fs in file_known d' i'.
Proof.
  assert (Hf : forall k d f b, fresh (flush_buf k d f b).1.1 = fresh d) by (intros k d1 f b; by destruct k).
  assert (Hw : forall d f b, fresh (write_all x d f b line).1.1 = fresh d).
  { intros d1 f b. unfold write_all. destruct (_ <? _)%nat; [done|]. destruct (_ <? length line)%nat.
    - specialize (Hf (full_flush x) d1 f b). destruct (flush_buf _ d1 f b) as [[d2 b2] [[]|e]]; [|done]. destruct (_ <=? _)%nat; [|done].
      by destruct (direct_write x).
    - destruct (_ <=? _)%nat; [|done]. by destruct (direct_write x). }
  unfold file_known. intros Hk. unfold perform_write.
  assert (Hr : let '(d1, i1, _) := rotate_if_due cfg x d i in (file i1 < fresh d1)%nat).
  { unfold rotate_if_due, rotate_file. destruct (_ && _); [|done]. destruct (active d); [|done]. destruct (negb (rename_ok x)); [done|].
    destruct (negb (open_ok x)); [done|]. destruct (negb (lock_ok x)); [cbn; lia|].
    match goal with |- context [flush_buf ?k ?d1 ?f ?b] => specialize (Hf k d1 f b); destruct (flush_buf k d1 f b) as [[d2 b2] r2] end.
    cbn in *. lia. }
  destruct (rotate_if_due cfg x d i) as [[d1 i1] [[]|e]]; [|done].
  specialize (Hw d1 (file i1) (buf i1)). destruct (write_all _ _ _ _ _) as [[d2 b2] [[]|e]]; cbn in *; [|lia].
  specialize (Hf (flush x) d2 (file i1) b2). destruct (flush_buf _ d2 _ _) as [[d3 b3] [[]|e]]; cbn in *; lia.
Qed.

Lemma write_record_ok `{RecordJson} cfg x timed_out st r st' : write_record cfg x timed_out st r = (st', Ok tt) ->
  next_seq (writer st') = next_seq (writer st) /\ w_process_id (writer st') = w_process_id (writer st) /\
  (w_fail_open (writer st) = false -> timed_out = false -> exists line i, to_vec r = Some line /\
     perform_write cfg x (on_disk st) (inner st) (line ++ [10]) (needs_fsync (payload r)) = (on_disk st', i, Ok tt)).
Proof.
  unfold write_record, write_record_inner. destruct (to_vec r) as [line|] eqn:Ev; [|done]. unfold request.
  destruct (perform_write _ _ _ _ _ _) as [[d i] res] eqn:Ew. destruct timed_out.
  - cbn. destruct (w_fail_open (writer st)); intros [= <-]; by split_and!.
  - destruct res as [[]|e]; [intros [= <-]; split_and!; [done|done|]; intros _ _; by exists line, i|].
    destruct e; cbn; try done; destruct (w_fail_open (writer st)) eqn:Ef; intros [= <-]; by split_and!.
Qed.

(** One record: its line ends the file that is open after the write, or the
    loss is counted, or the caller is told. *)
Lemma emit_record `{RecordJson} cfg x timed_out now st p st' res : file_known (on_disk st) (inner st) ->
  emit cfg x timed_out now st p = (st', res) ->
  next_seq (writer st') = (next_seq (writer st) + 1) mod 2 ^ 64 /\ file_known (on_disk st') (inner st') /\
  match res with
  | Ok s => s = next_seq (writer st) /\
      ((timed_out = false /\ exists line, to_vec (mkAuditRecord s now (w_process_id (writer st)) p) = Some line /\
          appended cfg (on_disk st) (inner st) (on_disk st') (inner st') (line ++ [10]) /\
          suppressed_failures (writer st') = suppressed_failures (writer st)) \/
       (w_fail_open (writer st) = true /\
          suppressed_failures (writer st') = (suppressed_failures (writer st) + 1) mod 2 ^ 64))
  | Err e => suppressed_failures (writer st') = suppressed_failures (writer st) /\
      (w_fail_open (writer st) = true -> e = ASerialize)
  end.
Proof.
  intros Hk. unfold emit, allocate_seq, write_record, write_record_inner, request. cbn [writer inner on_disk w_process_id].
  set (r := mkAuditRecord _ _ _ _). destruct (to_vec r) as [line|] eqn:Ev; [|by intros [= <- <-]].
  pose proof (perform_write_known cfg x (on_disk st) (inner st) (line ++ [10]) (needs_fsync (payload r)) Hk) as Hk'.
  destruct (perform_write _ _ _ _ _ _) as [[d i] wres] eqn:Ew. destruct timed_out.
  { cbn. destruct (w_fail_open (writer st)) eqn:Ef; intros [= <- <-]; cbn; naive_solver. }
  destruct wres as [[]|e].
  - apply perform_write_appends in Ew; [|done]. intros [= <- <-]. cbn. do 3 (split; [done|]). left. split; [done|]. by exists line.
  - destruct e; cbn; destruct (w_fail_open (writer st)) eqn:Ef; intros [= <- <-]; cbn; naive_solver.
Qed.

(** A disk that takes three bytes of the second line, then recovers; the third
    write rotates. *)
Definition sample_cfg : WorkerConfig := mkWorkerConfig 8 5 None.
Definition short_write : io := mkIo true true true None None None (Some 3%nat) true.
Definition sample_reqs : list req :=
  [mkReq all_ok (lit "aaaa" ++ [10]) false; mkReq short_write (lit "bbbb" ++ [10]) false;
   mkReq all_ok (lit "cccc" ++ [10]) true; mkReq all_ok (lit "dddd" ++ [10]) true].
Definition empty_disk : disk := mkDisk (Some 0%nat) {[0%nat := []]} 1.


(** A line as long as the buffer is written directly, and an error in the
    middle of it leaves a torn line inside the log. *)
Lemma long_line_torn :
  let long := repeat 65 (Z.to_nat 8192) ++ [10] in
  let x := serve (mkWorkerConfig 0 0 None)
    [mkReq (mkIo true true true None None (Some 2%nat) None true) long false;
     mkReq all_ok (lit "next" ++ [10]) true] empty_disk (mkInner 0 [] 0) in
  x.2 = [Err AWrite; Ok tt] /\ content x.1.1 0 = lit "AAnext" ++ [10].
Proof. vm_compute. split; reflexivity. Qed.

(** When the fresh file cannot be opened after the rename, no later write
    succeeds, whatever the system then allows. *)
Lemma rotation_stuck cfg reqs d i :
  active d = None -> (0 <? rotate_bytes cfg) && (rotate_bytes cfg <=? bytes_written i) = true ->
  Forall (fun r => r = Err ARotate) (serve cfg reqs d i).2.
Proof.
  intros Ha Hdue. revert d i Ha Hdue. induction reqs as [|q reqs IH]; intros d i Ha Hdue; [constructor|].
  cbn [serve]. unfold perform_write, rotate_if_due. rewrite Hdue. unfold rotate_file. rewrite Ha.
  specialize (IH d i Ha Hdue). destruct (serve cfg reqs d i) as [[d' i'] rs]. by constructor.
Qed.

Lemma rotation_open_failure :
  let x := serve (mkWorkerConfig 4 0 None)
    [mkReq all_ok (lit "aaaa" ++ [10]) true;
     mkReq (mkIo true false true None None None None true) (lit "bbbb" ++ [10]) true] empty_disk (mkInner 0 [] 0) in
  x.2 = [Ok tt; Err ARotate] /\ active x.1.1 = None /\ 4 <= bytes_written x.1.2.
Proof. vm_compute. split; [reflexivity|]. split; [reflexivity|discriminate]. Qed.

Lemma perform_write_error cfg x d i line fsync d' i' :
  perform_write cfg x d i line fsync <> (d', i', Err ASerialize).
Proof.
  unfold perform_write, rotate_if_due, rotate_file, write_all, flush_buf.
  repeat (case_goal; try done).
Qed.

(** ** Every record is on disk, refused or counted *)

Section accounting.
Context `{RecordJson}.
Variable cfg : WorkerConfig.

Record event := mkEvent { e_io : io; e_timeout : bool; e_now : Z; e_payload : Payload }.

Fixpoint emits (st : state) (evs : list event) : state * list (result AuditError Z) :=
  match evs with
  | [] => (st, [])
  | e :: evs =>
      let '(st, r) := emit cfg (e_io e) (e_timeout e) (e_now e) st (e_payload e) in
      let '(st, rs) := emits st evs in (st, r :: rs)
  end.

(** The worker wrote the record and said so in time. *)
Definition delivered (st : state) (e : event) : bool :=
  match to_vec (mkAuditRecord (next_seq (writer st)) (e_now e) (w_process_id (writer st)) (e_payload e)) with
  | Some bytes =>
      negb (e_timeout e) &&
      is_ok (perform_write cfg (e_io e) (on_disk st) (inner st) (bytes ++ [10]) (needs_fsync (e_payload e))).2
  | None => false
  end.

Fixpoint lost (st : state) (evs : list event) : Z :=
  match evs with
  | [] => 0
  | e :: evs =>
      (if delivered st e then 0 else 1) + lost (emit cfg (e_io e) (e_timeout e) (e_now e) st (e_payload e)).1 evs
  end.

Definition serializable : Prop := forall r, to_vec r <> None.

Lemma emit_spec st e : serializable ->
  next_seq (writer st) + 1 < 2 ^ 64 -> 0 <= next_seq (writer st) ->
  suppressed_failures (writer st) + 1 < 2 ^ 64 -> 0 <= suppressed_failures (writer st) ->
  let '(st', r) := emit cfg (e_io e) (e_timeout e) (e_now e) st (e_payload e) in
  let w := writer st in let w' := writer st' in
  w_fail_open w' = w_fail_open w /\ w_process_id w' = w_process_id w /\
  next_seq w' = next_seq w + 1 /\
  suppressed_failures w' = suppressed_failures w +
    (if delivered st e then 0 else if w_fail_open w then 1 else 0) /\
  (is_ok r = true <-> delivered st e = true \/ w_fail_open w = true) /\
  (forall s, r = Ok s -> s = next_seq w).
Proof.
  intros Hser Hn Hn0 Hs Hs0. unfold emit, allocate_seq, delivered, write_record, write_record_inner, request.
  cbn [writer on_disk inner w_process_id].
  set (rec := mkAuditRecord _ _ _ _). destruct (to_vec rec) as [bytes|] eqn:Ev; [|by apply Hser in Ev].
  cbn [payload rec]. destruct (perform_write _ _ _ _ _ _) as [[d i] r] eqn:Ep. cbn [snd].
  assert (Hr : r <> Err ASerialize) by (intros ->; by apply perform_write_error in Ep).
  assert (Hmod : (next_seq (writer st) + 1) mod 2 ^ 64 = next_seq (writer st) + 1) by (apply Z.mod_small; lia).
  assert (Hmod2 : (suppressed_failures (writer st) + 1) mod 2 ^ 64 = suppressed_failures (writer st) + 1)
    by (apply Z.mod_small; lia).
  destruct (e_timeout e), r as [[]|[]], (w_fail_open (writer st)) eqn:Ef; cbn; rewrite ?Ef, ?Hmod, ?Hmod2; cbn;
    split_and!; try done; try lia; try (by intros ? [= <-]); split; try done; by (intros [|] || auto).
Qed.

(** The log accounts for every record.  Over any run, whatever the disk
    does and whichever replies come late: sequence numbers are handed out one
    by one without gap or repeat; with [fail_open] every call succeeds and
    the suppression counter grows by exactly the records not confirmed on
    disk in time; without it the counter stands still and a call succeeds
    exactly when its record was confirmed. *)
Theorem emit_accounting st evs : serializable ->
  0 <= next_seq (writer st) -> next_seq (writer st) + Z.of_nat (length evs) < 2 ^ 64 ->
  0 <= suppressed_failures (writer st) ->
  suppressed_failures (writer st) + Z.of_nat (length evs) < 2 ^ 64 ->
  let '(st', rs) := emits st evs in
  next_seq (writer st') = next_seq (writer st) + Z.of_nat (length evs) /\
  (forall k r, rs !! k = Some r -> forall s, r = Ok s -> s = next_seq (writer st) + Z.of_nat k) /\
  length rs = length evs /\
  suppressed_failures (writer st') = suppressed_failures (writer st) +
    (if w_fail_open (writer st) then lost st evs else 0) /\
  Z.of_nat (length (List.filter is_ok rs)) =
    Z.of_nat (length evs) - (if w_fail_open (writer st) then 0 else lost st evs).
Proof.
  intros Hser. revert st. induction evs as [|e evs IH]; intros st Hn0 Hn Hs0 Hs; cbn [emits length lost].
  - destruct (w_fail_open _); split_and!; try done; cbn; lia.
  - cbn [length] in Hn, Hs. pose proof (emit_spec st e Hser) as Hspec.
    destruct (emit _ _ _ _ _ _) as [st1 r1]. cbn [fst].
    destruct Hspec as (Hfo & _ & Hseq & Hsup & Hok & Hval); [lia..|].
    specialize (IH st1). destruct (emits st1 evs) as [st2 rs].
    assert (Hle : suppressed_failures (writer st1) <= suppressed_failures (writer st) + 1)
      by (rewrite Hsup; destruct (delivered st e), (w_fail_open (writer st)); lia).
    assert (Hge : suppressed_failures (writer st) <= suppressed_failures (writer st1))
      by (rewrite Hsup; destruct (delivered st e), (w_fail_open (writer st)); lia).
    destruct IH as (I1 & I2 & I3 & I4 & I5); [lia..|]. rewrite Hfo in *. split_and!.
    + lia.
    + intros [|k] r Hk s Hrs; cbn in Hk.
      * injection Hk as <-. rewrite (Hval s Hrs). lia.
      * rewrite (I2 k r Hk s Hrs). lia.
    + cbn. lia.
    + rewrite I4, Hsup. destruct (delivered st e), (w_fail_open (writer st)); lia.
    + cbn [List.filter]. destruct (is_ok r1) eqn:Er.
      * assert (Hd : delivered st e = true \/ w_fail_open (writer st) = true) by (by apply Hok).
        cbn [length]. destruct (delivered st e), (w_fail_open (writer st)); try lia.
      * assert (Hd : ~ (delivered st e = true \/ w_fail_open (writer st) = true)) by (rewrite <- Hok; congruence).
        destruct (delivered st e), (w_fail_open (writer st)); try lia; naive_solver.
Qed.
End accounting.

(** ** A concrete serializer *)

(** The header fields as comma-separated text. *)
Definition show_z (n : Z) : rstr := to_decimal (if n <? 0 then 2 * - n - 1 else 2 * n).
Definition read_z (s : rstr) : Z := let m := parse_digits s in if Z.odd m then - ((m + 1) / 2) else m / 2.

Lemma read_show_z n : read_z (show_z n) = n.
Proof.
  unfold read_z, show_z. destruct (n <? 0) eqn:E; zify_bool.
  - destruct (to_decimal_spec (2 * - n - 1)) as [-> _]; [lia|].
    replace (2 * - n - 1) with (2 * (- n - 1) + 1) by lia. rewrite Z.odd_add, Z.odd_mul. cbn [Z.odd xorb andb].
    replace (2 * (- n - 1) + 1 + 1) with (- n * 2) by lia. rewrite Z.div_mul by lia. lia.
  - destruct (to_decimal_spec (2 * n)) as [-> _]; [lia|].
    rewrite Z.odd_mul. cbn [Z.odd andb]. replace (2 * n) with (n * 2) by lia. by rewrite Z.div_mul by lia.
Qed.

Lemma show_z_digits n : Forall (fun c => is_ascii_digit c = true) (show_z n) /\ show_z n <> [].
Proof.
  unfold show_z. destruct (n <? 0) eqn:E; zify_bool;
    [destruct (to_decimal_spec (2 * - n - 1)) as (_ & ? & ?)|destruct (to_decimal_spec (2 * n)) as (_ & ? & ?)];
    (done || lia).
Qed.

Lemma show_z_no n c : is_ascii_digit c = false -> ~ c ∈ show_z n.
Proof. intros Hc Hin. destruct (show_z_digits n) as [Hd _]. rewrite Forall_forall in Hd. apply Hd in Hin. congruence. Qed.

Definition header_fields (r : AuditRecord) : list rstr :=
  [show_z (seq r); show_z (process_id r); kind_of (payload r);
   match payload r with PProcessStart p => show_z (previous_file_inode p) | _ => [] end].

Lemma header_fields_plain r c : is_ascii_digit c = false -> (c = 44 \/ c = 10 \/ c = 13) ->
  Forall (fun p => ~ c ∈ p) (header_fields r).
Proof.
  intros Hd Hc. unfold header_fields.
  repeat apply List.Forall_cons; [by apply show_z_no|by apply show_z_no| |destruct (payload r);
    (by apply show_z_no) || apply not_elem_of_nil|constructor].
  destruct (payload r), Hc as [->|[->| ->]]; apply (bool_decide_unpack _); reflexivity.
Qed.

Lemma header_fields_ascii r : Forall (fun b => 0 <= b < 128) (join (lit ",") (header_fields r)).
Proof.
  assert (Hd : forall n, Forall (fun b => 0 <= b < 128) (show_z n)).
  { intros n. destruct (show_z_digits n) as [Hd _]. eapply Forall_impl; [exact Hd|].
    intros c Hc. unfold is_ascii_digit, between in Hc. zify_bool. lia. }
  unfold header_fields. cbn [join]. rewrite !Forall_app. split_and!; auto; try (by repeat constructor).
  - destruct (payload r); repeat (apply List.Forall_cons; [split; [apply Z.leb_le|apply Z.ltb_lt]; reflexivity|]);
      constructor.
  - destruct (payload r); auto; constructor.
Qed.

#[local] Instance header_json : RecordJson.
Proof.
  refine {| to_vec := fun r => Some (join (lit ",") (header_fields r));
            parse_envelope := fun s => match split_on 44 s with
              | [a; b; k; i] => Some (mkTail (read_z a) (read_z b) k
                                  (match i with [] => None | _ => Some (read_z i) end))
              | _ => None
              end |}.
  - intros r bs Hbs. apply (inj Some) in Hbs as <-.
    assert (Hno : forall c, is_ascii_digit c = false -> c = 10 \/ c = 13 -> ~ c ∈ join (lit ",") (header_fields r)).
    { intros c Hd Hc Hin. change (lit ",") with [44] in Hin.
      assert (Hpl : Forall (fun p => ~ c ∈ p) (header_fields r)) by (apply header_fields_plain; tauto).
      unfold header_fields in Hin, Hpl. cbn [join] in Hin. rewrite !Forall_cons in Hpl.
      rewrite !elem_of_app, !list_elem_of_singleton in Hin. destruct Hc as [->| ->]; naive_solver. }
    split; [apply Hno; auto|]. split.
    + intros Hl. apply (Hno 13); [done|auto|].
      apply last_Some in Hl as [l' ->]. apply elem_of_app. right. by left.
    + apply utf8_valid_ascii, header_fields_ascii.
  - intros r bs Hbs. apply (inj Some) in Hbs as <-. change (lit ",") with [44].
    rewrite split_join; [|done|by apply header_fields_plain; auto]. unfold header_fields, envelope_of.
    rewrite !read_show_z. f_equal. destruct (payload r) as [p| | | | | |]; try done. cbn.
    destruct (show_z (previous_file_inode p)) eqn:E; [by destruct (show_z_digits (previous_file_inode p))|].
    by rewrite <- E, read_show_z.
Defined.

Definition sample_writer (fail_open : bool) : state :=
  mkState (mkAuditWriter fail_open 7 0 0 1) empty_disk (mkInner 0 [] 0).
Definition sample_events : list event :=
  [mkEvent all_ok false 100 (PConfig (mkConfigEvent (lit "/etc/r.toml") (lit "00")));
   mkEvent short_write false 101 (PConfig (mkConfigEvent (lit "/etc/r.toml") (lit "01")));
   mkEvent all_ok true 102 (PConfig (mkConfigEvent (lit "/etc/r.toml") (lit "02")))].

Lemma emit_accounting_witness :
  let x := emits sample_cfg (sample_writer true) sample_events in
  x.2 = [Ok 1; Ok 2; Ok 3] /\ suppressed_failures (writer x.1) = 2 /\
  next_seq (writer x.1) = 1 + 3.
Proof.
  intros x. split; [vm_compute; reflexivity|].
  assert (Hs : serializable) by (intros r; discriminate).
  pose proof (emit_accounting sample_cfg (sample_writer true) sample_events Hs) as H.
  assert (Hx : emits sample_cfg (sample_writer true) sample_events = (x.1, x.2))
    by (vm_compute; reflexivity).
  rewrite Hx in H. destruct H as (H1 & _ & _ & H2 & _); [cbn; lia|cbn; lia|cbn; lia|cbn; lia|].
  split; [|exact H1]. rewrite H2. vm_compute. reflexivity.
Defined.
