(* ===== verification/Worker.v ===== *)
(** * The audit worker and its callers (crates/rimap-audit/src/writer/deadline.rs)

    Callers on any number of threads send requests over one channel to the
    thread that owns the log file, each holding the sender's mutex until it has
    its reply or its deadline passes; shutting down takes the sender out.  The
    steps of callers and worker interleave in any order; every caller sees what
    a sequential writer ([AuditWriter.serve]) would have answered, or a
    deadline. *)

From Stdlib Require Import ZArith Lia.
From stdpp Require Import base option list numbers strings gmap relations.
From S2P Require Import Prelude RustStr AuditRecord AuditWriter.
Local Open Scope Z_scope.

(* [crates/rimap-audit/src/writer/deadline.rs:55-74] Request *)
Inductive Request := Write (bytes : list Z) (fsync : bool) | BytesWritten | OnDiskLen | Shutdown.

#[export] Instance Request_eq_dec : EqDecision Request.
Proof. solve_decision. Defined.

(** What the worker sends back. *)
Inductive reply := Wrote (r : result AuditError unit) | Size (r : result AuditError Z) | ShutDown.

(** What a call of [request] returns, or that [shutdown] returned. *)
Inductive caller_answer := Replied (r : reply) | DeadlinePassed | WorkerGone | ShutdownReturned.

(** A request is known by its place in the channel's history.  [taken] requests
    have been received; [inner_] is gone once the worker returned. *)
Record system := mkSystem {
  tx : bool; holder : option nat; sent : list Request; taken : nat;
  disk_ : disk; inner_ : option Inner; replies : gmap nat reply; answers : list (nat * caller_answer);
  served : list (nat * req) }.

Section worker.
Context (cfg : WorkerConfig) (write_deadline_seconds : Z) (d0 : disk) (i0 : Inner).

(* [crates/rimap-audit/src/writer/deadline.rs:192-207] spawn_worker *)
Definition spawned : system := mkSystem true None [] 0 d0 (Some i0) ∅ [] [].

(** The worker on the next request, with what the calls of its I/O do and the
    size the file system reports. *)
(* [crates/rimap-audit/src/writer/deadline.rs:209-262] worker_loop *)
Definition worker_loop (x : io) (on_disk_len : result AuditError Z) (s : system) : option system :=
  inner ← inner_ s;
  request ← sent s !! taken s;
  let reply_with d i served' r :=
    mkSystem (tx s) (holder s) (sent s) (S (taken s)) d i (<[taken s := r]> (replies s)) (answers s) served' in
  Some match request with
  | Write bytes fsync =>
      let '(d, i, r) := perform_write cfg x (disk_ s) inner bytes fsync in
      reply_with d (Some i) (served s ++ [(taken s, mkReq x bytes fsync)]) (Wrote r)
  | BytesWritten => reply_with (disk_ s) (Some inner) (served s) (Size (Ok (bytes_written inner)))
  | OnDiskLen => reply_with (disk_ s) (Some inner) (served s) (Size on_disk_len)
  | Shutdown =>
      let '(d, _, _) := flush_buf (close_flush x) (disk_ s) (file inner) (buf inner) in
      reply_with d None (served s) ShutDown
  end.

Definition send (s : system) (keep_tx : bool) (r : Request) : system :=
  mkSystem keep_tx (Some (length (sent s))) (sent s ++ [r]) (taken s) (disk_ s) (inner_ s) (replies s) (answers s) (served s).
Definition return_with (s : system) (id : nat) (a : caller_answer) : system :=
  mkSystem (tx s) None (sent s) (taken s) (disk_ s) (inner_ s) (replies s) (answers s ++ [(id, a)]) (served s).

(** One step of a caller, in [request] or in [shutdown], or of the worker. *)
(* [crates/rimap-audit/src/writer/deadline.rs:136-182] IoHandle::request, IoHandle::shutdown *)
Inductive step : system -> system -> Prop :=
  | step_send s r : holder s = None -> tx s = true -> is_Some (inner_ s) -> r <> Shutdown -> step s (send s true r)
  | step_receive s id r : holder s = Some id -> sent s !! id <> Some Shutdown -> replies s !! id = Some r ->
      step s (return_with s id (Replied r))
  | step_deadline s id : holder s = Some id -> sent s !! id <> Some Shutdown -> 0 < write_deadline_seconds ->
      step s (return_with s id DeadlinePassed)
  | step_shutdown s : holder s = None -> tx s = true -> is_Some (inner_ s) -> step s (send s false Shutdown)
  | step_shut s id : holder s = Some id -> sent s !! id = Some Shutdown -> step s (return_with s id ShutdownReturned)
  (** A caller that finds the sender taken out or the receiver gone is answered
      that the worker is unavailable; nothing is sent. *)
  | step_refused s : tx s = false \/ inner_ s = None -> step s s
  (** The worker returned without replying. *)
  | step_disconnected s id : holder s = Some id -> sent s !! id <> Some Shutdown -> inner_ s = None -> replies s !! id = None ->
      step s (return_with s id WorkerGone)
  | step_worker s s' x len : worker_loop x len s = Some s' -> step s s'.

Definition is_write (r : Request) : bool := match r with Write _ _ => true | _ => false end.

(** The places of the writes among the first [n] requests. *)
Definition writes (rs : list Request) (n : nat) : list nat :=
  List.filter (fun id => match rs !! id with Some r => is_write r | None => false end) (List.seq 0%nat n).

#[local] Arguments writes : simpl never.

(** ** The invariant *)

Record linear (s : system) : Prop := {
  l_taken : (taken s <= length (sent s))%nat;
  l_served : map fst (served s) = writes (sent s) (taken s);
  l_requests : forall k id q, served s !! k = Some (id, q) -> sent s !! id = Some (Write (r_line q) (r_fsync q));
  l_replies : exists d i rs, serve cfg (map snd (served s)) d0 i0 = (d, i, rs) /\
    match inner_ s with
    | Some inner => disk_ s = d /\ inner = i
    | None => exists x, disk_ s = (flush_buf x d (file i) (buf i)).1.1
    end /\
    forall id w, replies s !! id = Some (Wrote w) -> exists k q, served s !! k = Some (id, q) /\ rs !! k = Some w;
  l_replied : forall id, is_Some (replies s !! id) <-> (id < taken s)%nat;
  l_answers : forall id r, (id, Replied r) ∈ answers s -> replies s !! id = Some r;
  l_fresh : NoDup (map fst (answers s)) /\
    forall id, id ∈ map fst (answers s) -> (id < length (sent s))%nat /\ holder s <> Some id;
  l_holder : forall id, holder s = Some id -> S id = length (sent s);
  l_shutdown : forall id, sent s !! id = Some Shutdown -> tx s = false /\ S id = length (sent s);
  l_gone : inner_ s = None -> taken s = length (sent s) /\ tx s = false;
  l_heard : forall id, (id, WorkerGone) ∉ answers s }.

Lemma serve_snoc qs q : forall d i, serve cfg (qs ++ [q]) d i =
  (let '(d, i, rs) := serve cfg qs d i in
   let '(d, i, r) := perform_write cfg (r_io q) d i (r_line q) (r_fsync q) in (d, i, rs ++ [r])).
Proof.
  induction qs as [|q' qs IH]; intros d i; cbn [app serve].
  - destruct (perform_write _ _ _ _ _ _) as [[d1 i1] r1]. done.
  - destruct (perform_write _ _ d i _ _) as [[d1 i1] r1]. rewrite IH. destruct (serve cfg qs d1 i1) as [[d2 i2] rs2].
    by destruct (perform_write _ _ d2 i2 _ _) as [[d3 i3] r3].
Qed.

Lemma serve_length qs : forall d i, length (serve cfg qs d i).2 = length qs.
Proof.
  induction qs as [|q qs IH]; intros d i; cbn [serve]; [done|]. destruct (perform_write _ _ _ _ _ _) as [[d1 i1] r1].
  specialize (IH d1 i1). destruct (serve cfg qs d1 i1) as [[d2 i2] rs2]. cbn in *. by rewrite IH.
Qed.

Lemma writes_grow rs r n : (n <= length rs)%nat -> writes (rs ++ [r]) n = writes rs n.
Proof.
  intros Hn. unfold writes. apply List.filter_ext_in. intros id Hid%List.in_seq. by rewrite lookup_app_l by lia.
Qed.

Lemma writes_next rs n : writes rs (S n) = writes rs n ++ (match rs !! n with Some r => if is_write r then [n] else [] | None => [] end).
Proof.
  unfold writes. rewrite List.seq_S, List.filter_app. f_equal. cbn. destruct (rs !! n) as [r|]; [by destruct (is_write r)|done].
Qed.

Lemma spawned_linear : linear spawned.
Proof.
  split; cbn; try done; try set_solver.
  - intros id. rewrite lookup_empty. split; [by intros [? ?]|lia].
  - split; [constructor|set_solver].
Qed.

Lemma send_linear s keep r : linear s -> holder s = None -> tx s = true -> is_Some (inner_ s) -> (r = Shutdown <-> keep = false) ->
  linear (send s keep r).
Proof.
  intros [Ht Hs Hq Hr Hrp Ha [Hnd Hf] Hh Hsh Hg Hhe] Hnone Htx Hin Hk. split; cbn; try done.
  - rewrite length_app. cbn. lia.
  - by rewrite writes_grow.
  - intros k id q Hl. apply Hq in Hl. by apply lookup_app_l_Some.
  - split; [done|]. intros id Hid%Hf. rewrite length_app. cbn. split; [lia|]. intros [= <-]. lia.
  - intros id [= <-]. rewrite length_app. cbn. lia.
  - intros id Hl. rewrite length_app. cbn. apply lookup_app_Some in Hl as [Hl|[Hge Hl]].
    + apply Hsh in Hl as [? _]. congruence.
    + apply list_lookup_singleton_Some in Hl as [Hz ->]. split; [by apply Hk|lia].
  - intros Hn. rewrite Hn in Hin. by destruct Hin.
Qed.

Lemma return_linear s id a : linear s -> holder s = Some id -> (forall r, a = Replied r -> replies s !! id = Some r) -> a <> WorkerGone ->
  linear (return_with s id a).
Proof.
  intros [Ht Hs Hq Hr Hrp Ha [Hnd Hf] Hh Hsh Hg Hhe] Hid Hrep Hne. split; cbn; try done.
  - intros id' r [Hin|Heq%list_elem_of_singleton]%elem_of_app; [by apply Ha|]. injection Heq as -> Heq. by apply Hrep.
  - rewrite map_app. cbn. split.
    + apply NoDup_app. split; [done|]. split; [|apply NoDup_singleton]. intros x Hx ->%list_elem_of_singleton. by apply Hf in Hx as [_ []].
    + intros x [Hx|Hx%list_elem_of_singleton]%elem_of_app; [split; [by apply Hf in Hx as [? _]|done]|]. subst x. apply Hh in Hid. split; [lia|done].
  - intros id' [Hin|Heq%list_elem_of_singleton]%elem_of_app; [by eapply Hhe|]. by injection Heq as _ <-.
Qed.

Lemma lookup_snoc_old {A} (l : list A) x k y : l !! k = Some y -> (l ++ [x]) !! k = Some y.
Proof. apply lookup_app_l_Some. Qed.

(** What the worker leaves of the invariant when it replies to its next
    request. *)
Lemma worker_linear s s' x len : linear s -> worker_loop x len s = Some s' -> linear s'.
Proof.
  intros [Ht Hs Hq (d & i & rs & Hserve & Hdisk & Hr) Hrp Ha [Hnd Hf] Hh Hsh Hg Hhe]. unfold worker_loop.
  destruct (inner_ s) as [inner|] eqn:Ei; [|done]. destruct (sent s !! taken s) as [r|] eqn:Er; [|done]. cbn. destruct Hdisk as [Hd ->].
  pose proof (lookup_lt_Some _ _ _ Er) as Hlt.
  assert (Hrp' : forall r0 id, is_Some (<[taken s := r0]> (replies s) !! id) <-> (id < S (taken s))%nat).
  { intros r0 id. destruct (decide (id = taken s)) as [->|Hne].
    - rewrite lookup_insert_eq. split; [lia|by eexists].
    - rewrite lookup_insert_ne by done. rewrite Hrp. lia. }
  assert (Hold : forall r0 id a, (id, Replied a) ∈ answers s -> <[taken s := r0]> (replies s) !! id = Some a).
  { intros r0 id a Hin. apply Ha in Hin as Hl. rewrite lookup_insert_ne; [done|]. intros <-.
    assert (is_Some (replies s !! taken s)) as Hx by (by eexists). apply Hrp in Hx. lia. }
  assert (Hnew : forall r0 id w, (forall w', r0 <> Wrote w') -> <[taken s := r0]> (replies s) !! id = Some (Wrote w) ->
    replies s !! id = Some (Wrote w)).
  { intros r0 id w Hno. destruct (decide (id = taken s)) as [->|Hne]; [rewrite lookup_insert_eq; intros [= ->]; by destruct (Hno w)|].
    by rewrite lookup_insert_ne by done. }
  destruct r as [bytes fsync| | |]; cbn.
  - rewrite Hd. destruct (perform_write cfg x d i bytes fsync) as [[d1 i1] r1] eqn:Ew. intros [= <-]. split; cbn; try done; try lia.
    + by rewrite map_app, writes_next, Er, Hs.
    + intros k id q [Hl|[_ Hl]]%lookup_app_Some; [by eapply Hq|]. apply list_lookup_singleton_Some in Hl as [_ [= <- <-]]. done.
    + exists d1, i1, (rs ++ [r1]). rewrite map_app. cbn. rewrite serve_snoc, Hserve. cbn. rewrite Ew. split; [done|]. split; [done|].
      intros id w Hl. destruct (decide (id = taken s)) as [->|Hne].
      * rewrite lookup_insert_eq in Hl. injection Hl as ->. exists (length (served s)), (mkReq x bytes fsync).
        pose proof (serve_length (map snd (served s)) d0 i0) as Hlen. rewrite Hserve, length_map in Hlen. cbn in Hlen.
        split; [by apply list_lookup_middle|]. rewrite <- Hlen. by apply list_lookup_middle.
      * rewrite lookup_insert_ne in Hl by done. destruct (Hr _ _ Hl) as (k & q & Hk & Hw). exists k, q.
        split; by apply lookup_snoc_old.
    + intros id r. apply Hold.
  - intros [= <-]. split; cbn; try done; try lia.
    + by rewrite writes_next, Er, app_nil_r.
    + exists d, i, rs. split_and!; [done|done|done|]. intros id w Hl. apply Hnew in Hl; [by apply Hr|done].
    + intros id r. apply Hold.
  - intros [= <-]. split; cbn; try done; try lia.
    + by rewrite writes_next, Er, app_nil_r.
    + exists d, i, rs. split_and!; [done|done|done|]. intros id w Hl. apply Hnew in Hl; [by apply Hr|done].
    + intros id r. apply Hold.
  - destruct (Hsh _ Er) as [Htx Hlen]. destruct (flush_buf (close_flush x) (disk_ s) (file i) (buf i)) as [[d1 b1] r1] eqn:Ef.
    intros [= <-]. split; cbn; try done; try lia.
    + by rewrite writes_next, Er, app_nil_r.
    + exists d, i, rs. split; [done|]. split; [exists (close_flush x); by rewrite <- Hd, Ef|]. intros id w Hl. apply Hnew in Hl; [by apply Hr|done].
    + intros id r. apply Hold.
Qed.

Lemma step_linear s s' : linear s -> step s s' -> linear s'.
Proof.
  intros Hl Hstep. destruct Hstep as [s r Hn Ht Hi Hr|s id r Hh Hs Hr|s id Hh Hs Hd|s Hn Ht Hi|s id Hh Hs|s _|s id Hh Hs Hg Hr|s s' x len Hw].
  - by apply send_linear.
  - apply return_linear; try done. by intros r' [= <-].
  - by apply return_linear.
  - apply send_linear; try done.
  - by apply return_linear.
  - done.
  - exfalso. pose proof (l_holder _ Hl _ Hh) as Hlen. pose proof (l_gone _ Hl Hg) as [Ht _].
    assert (is_Some (replies s !! id)) as [x Hx] by (apply (l_replied _ Hl); lia). congruence.
  - by eapply worker_linear.
Qed.

Lemma reachable_linear s : rtc step spawned s -> linear s.
Proof.
  intros Hs. assert (H0 : linear spawned) by apply spawned_linear. revert H0. induction Hs as [|s1 s2 s3 H1 _ IH]; [done|].
  intros Hl. apply IH. by eapply step_linear.
Qed.

(** C36: however callers and worker interleave, the log is written as by one
    writer.  At every moment the disk and the buffer are what the sequential
    writer leaves of the writes taken so far, and those are exactly the writes
    sent first, in the order sent.  Every request is answered at most once; a
    write's answer is the sequential writer's own for that write, or a passed
    deadline; no caller is told that the worker is gone once its request was
    sent.  When the worker has returned, every write ever sent was carried out
    before, and the file was closed with what was left in the buffer. *)
Theorem worker_linearizes s : rtc step spawned s ->
  exists d i rs, serve cfg (map snd (served s)) d0 i0 = (d, i, rs) /\
    match inner_ s with
    | Some inner => disk_ s = d /\ inner = i
    | None => (exists x, disk_ s = (flush_buf x d (file i) (buf i)).1.1) /\ map fst (served s) = writes (sent s) (length (sent s))
    end /\
    map fst (served s) = writes (sent s) (taken s) /\
    (forall k id q, served s !! k = Some (id, q) -> sent s !! id = Some (Write (r_line q) (r_fsync q))) /\
    NoDup (map fst (answers s)) /\
    (forall id w, (id, Replied (Wrote w)) ∈ answers s -> exists k q, served s !! k = Some (id, q) /\ rs !! k = Some w) /\
    (forall id, (id, WorkerGone) ∉ answers s).
Proof.
  intros Hl%reachable_linear. destruct (l_replies _ Hl) as (d & i & rs & Hserve & Hdisk & Hr). exists d, i, rs. split; [done|]. split.
  - destruct (inner_ s) eqn:Ei; [done|]. split; [done|]. destruct (l_gone _ Hl Ei) as [<- _]. apply (l_served _ Hl).
  - split_and!; [apply (l_served _ Hl)|apply (l_requests _ Hl)|apply (l_fresh _ Hl)| |apply (l_heard _ Hl)].
    intros id w Hin. apply Hr. by apply (l_answers _ Hl).
Qed.

(** The worker can always take the next request. *)
Lemma worker_takes s x len : linear s -> (taken s < length (sent s))%nat ->
  exists s', worker_loop x len s = Some s' /\ sent s' = sent s /\ holder s' = holder s /\ taken s' = S (taken s).
Proof.
  intros Hl Hlt. destruct (lookup_lt_is_Some_2 (sent s) (taken s) Hlt) as [r Hr]. unfold worker_loop.
  destruct (inner_ s) as [inner|] eqn:Ei; [|destruct (l_gone _ Hl Ei); lia]. rewrite Hr. cbn.
  destruct r; [destruct (perform_write _ _ _ _ _ _) as [[? ?] ?]| | |destruct (flush_buf _ _ _ _) as [[? ?] ?]]; eexists; (split; [done|]); done.
Qed.

Lemma holder_answered : forall n s id, linear s -> holder s = Some id -> (length (sent s) - taken s <= n)%nat ->
  exists m s', (m <= S n)%nat /\ nsteps step m s s' /\ id ∈ map fst (answers s') /\ holder s' = None.
Proof.
  induction n as [|n IH]; intros s id Hl Hh Hn.
  all: destruct (decide (sent s !! id = Some Shutdown)) as [Hs|Hs];
    [exists 1%nat, (return_with s id ShutdownReturned); split; [lia|]; split; [apply nsteps_once; by constructor|];
     cbn; rewrite map_app; split; [set_solver|done]|].
  all: pose proof (l_holder _ Hl _ Hh) as Hlen.
  - assert (is_Some (replies s !! id)) as [r Hr] by (apply (l_replied _ Hl); lia).
    exists 1%nat, (return_with s id (Replied r)). split; [lia|]. split; [apply nsteps_once; by constructor|].
    cbn. rewrite map_app. split; [set_solver|done].
  - destruct (decide (taken s < length (sent s))%nat) as [Hlt|Hge]; [|destruct (IH s id Hl Hh ltac:(lia)) as (m & s' & Hm & H'); exists m, s'; split; [lia|done]].
    destruct (worker_takes s all_ok (Ok 0) Hl Hlt) as (s1 & Hw & Hs1 & Hh1 & Ht1). pose proof (worker_linear _ _ _ _ Hl Hw) as Hl1.
    destruct (IH s1 id Hl1) as (m & s' & Hm & Hsteps & H'); [congruence|rewrite Hs1; lia|].
    exists (S m), s'. split; [lia|]. split; [|done]. econstructor; [|exact Hsteps]. by eapply step_worker.
Qed.

(** No caller waits for ever, whether or not a deadline is set: as long as the
    worker's calls return, the caller that holds the sender is answered after
    one step for each request before and at its own, and the sender is free
    for the next. *)
Theorem no_caller_stuck s id : rtc step spawned s -> holder s = Some id ->
  exists m s', (m <= S (length (sent s) - taken s))%nat /\ nsteps step m s s' /\ id ∈ map fst (answers s') /\ holder s' = None.
Proof. intros Hl%reachable_linear Hh. by apply holder_answered. Qed.

(** With a deadline the caller that holds the sender leaves without the worker. *)
Lemma deadline_frees s id : 0 < write_deadline_seconds -> holder s = Some id -> sent s !! id <> Some Shutdown ->
  exists s', step s s' /\ holder s' = None /\ taken s' = taken s.
Proof. intros Hd Hh Hs. eexists. split; [by apply (step_deadline s id)|done]. Qed.

(** The deadline is documented as every caller's longest wait; but no request
    is sent while another caller waits, so the waits of callers add up. *)
Lemma one_caller_at_a_time s s' : step s s' -> (length (sent s) < length (sent s'))%nat -> holder s = None.
Proof.
  intros Hstep. destruct Hstep as [s r Hn Ht Hi Hr|s id r Hh Hs Hr|s id Hh Hs Hd|s Hn Ht Hi|s id Hh Hs|s _|s id Hh Hs Hg Hr|s s' x len Hw]; try (cbn; lia); try done.
  unfold worker_loop in Hw. destruct (inner_ s); [|done]. destruct (sent s !! taken s) as [r|]; [|done]. cbn in Hw.
  destruct r; [destruct (perform_write _ _ _ _ _ _) as [[? ?] ?]| | |destruct (flush_buf _ _ _ _) as [[? ?] ?]]; injection Hw as <-; cbn; lia.
Qed.
End worker.

(** A write, its reply, and its caller. *)
Definition sample_run : list system :=
  let s0 := spawned empty_disk (mkInner 0 [] 0) in
  let s1 := send s0 true (Write (lit "aaaa" ++ [10]) true) in
  let s2 := default s1 (worker_loop sample_cfg all_ok (Ok 0) s1) in
  [s0; s1; s2; return_with s2 0 (Replied (Wrote (Ok tt)))].

Lemma worker_linearizes_witness : exists s, last sample_run = Some s /\ exists q, served s !! 0%nat = Some (0%nat, q) /\ r_line q = lit "aaaa" ++ [10].
Proof.
  eexists. split; [reflexivity|]. set (s := return_with _ _ _).
  assert (Hs : rtc (step sample_cfg 15) (spawned empty_disk (mkInner 0 [] 0)) s).
  { eapply rtc_l; [apply (step_send _ _ _ (Write (lit "aaaa" ++ [10]) true)); [done|done|by eexists|done]|].
    eapply rtc_l; [apply (step_worker _ _ _ _ all_ok (Ok 0)); reflexivity|]. apply rtc_once. by apply step_receive. }
  destruct (worker_linearizes sample_cfg 15 empty_disk (mkInner 0 [] 0) s Hs) as (d & i & rs & _ & _ & _ & Hreq & _ & Hans & _).
  destruct (Hans 0%nat (Ok tt) ltac:(by left)) as (k & q & Hk & _). assert (k = 0%nat) as ->.
  { destruct k as [|k]; [reflexivity|vm_compute in Hk; discriminate Hk]. }
  exists q. split; [exact Hk|]. apply Hreq in Hk. change (Some (Write (lit "aaaa" ++ [10]) true) = Some (Write (r_line q) (r_fsync q))) in Hk. by injection Hk as <- _.
Defined.
