(* ===== verification/AuditLocks.v ===== *)
(** * Who holds the log (crates/rimap-audit: fs.rs, writer/core.rs, rotation.rs,
      reader/mod.rs)

    Several processes share the path of a log: servers that open it, lock it
    without waiting and rotate it, and readers that take a shared lock.  Each
    system call is a step of its own, so that another process may come between
    the opening of a file and its lock, as rotate_file's comment says.  A lock
    is on the file and not on its name, and lasts as long as the handle. *)

From Stdlib Require Import ZArith Lia.
From stdpp Require Import base option list numbers strings gmap relations.
From S2P Require Import Prelude AuditRecord AuditWriter.
Local Open Scope Z_scope.

(** What the path names, and the files' permission bits. *)
Inductive entry := Missing | Regular (f : nat) | Symlink.

Inductive proc :=
  | Idle
  | WriterOpened (f : nat)
  | Writing (f : nat)
  | Renamed (f : nat)
  | Reopened (f new : nat)
  | ReaderOpened (f : nat)
  | Reading (f : nat).

Record locks_state := mkLocks { path_entry : entry; modes : gmap nat Z; fresh_file : nat; procs : gmap nat proc }.

Definition proc_of (st : locks_state) (p : nat) : proc := default Idle (procs st !! p).
Definition set_proc (p : nat) (s : proc) (st : locks_state) : locks_state :=
  mkLocks (path_entry st) (modes st) (fresh_file st) (<[p := s]> (procs st)).

(** The file a process has locked. *)
Definition exclusive (s : proc) : option nat :=
  match s with Writing f | Renamed f | Reopened f _ => Some f | _ => None end.
Definition shared (s : proc) : option nat := match s with Reading f => Some f | _ => None end.

(** [flock] without waiting: whether nobody else holds a lock in the way. *)
Definition can_lock (p f : nat) (st : locks_state) : bool :=
  bool_decide (map_Forall (fun q s => q <> p -> exclusive s <> Some f /\ shared s <> Some f) (procs st)).
Definition can_share (p f : nat) (st : locks_state) : bool :=
  bool_decide (map_Forall (fun q s => q <> p -> exclusive s <> Some f) (procs st)).

(** ** Opening *)

(** Read and write for the owner: octal 600. *)
Definition MODE_0600 : Z := 0x180.
(** Every other bit of octal 777. *)
Definition OTHERS : Z := 0x7f.

(** [open(O_APPEND | O_CREAT | O_NOFOLLOW, 0600)]; a [umask] takes bits away. *)
(* [crates/rimap-audit/src/fs.rs:14-37] writer_open_options, apply_unix_write_flags *)
Definition writer_open (umask : Z) (st : locks_state) : locks_state * option nat :=
  match path_entry st with
  | Symlink => (st, None)
  | Regular f => (st, Some f)
  | Missing =>
      let f := fresh_file st in
      (mkLocks (Regular f) (<[f := Z.ldiff MODE_0600 umask]> (modes st)) (S f) (procs st), Some f)
  end.

(* [crates/rimap-audit/src/fs.rs:24-43] reader_open_options, apply_unix_read_flags *)
Definition reader_open (st : locks_state) : option nat :=
  match path_entry st with Regular f => Some f | Missing | Symlink => None end.

(** A refusal is only logged. *)
(* [crates/rimap-audit/src/writer/core.rs:361-371] set_file_mode_0600 *)
Definition set_file_mode_0600 (allowed : bool) (f : nat) (st : locks_state) : locks_state :=
  if allowed then mkLocks (path_entry st) (<[f := MODE_0600]> (modes st)) (fresh_file st) (procs st) else st.

(* [crates/rimap-audit/src/writer/core.rs:188-197] AuditWriter::open *)
Definition open_writer (umask : Z) (chmod_allowed : bool) (p : nat) (st : locks_state) : locks_state * result AuditError unit :=
  match writer_open umask st with
  | (st, None) => (st, Err AOpen)
  | (st, Some f) => (set_proc p (WriterOpened f) (set_file_mode_0600 chmod_allowed f st), Ok tt)
  end.

(** [works]: the call is not refused by the system itself; [stat_works]: nor is
    the [metadata] after it.  On every error the handle is dropped. *)
(* [crates/rimap-audit/src/writer/core.rs:199-220] AuditWriter::open *)
Definition lock_writer (works stat_works : bool) (p f : nat) (st : locks_state) : locks_state * result AuditError unit :=
  if negb works then (set_proc p Idle st, Err AOpen)
  else if can_lock p f st then
    if stat_works then (set_proc p (Writing f) st, Ok tt) else (set_proc p Idle st, Err AOpen)
  else (set_proc p Idle st, Err ALocked).

(* [crates/rimap-audit/src/reader/mod.rs:174-180] open_shared *)
Definition open_reader (p : nat) (st : locks_state) : locks_state * result AuditError unit :=
  match reader_open st with
  | None => (st, Err AOpen)
  | Some f => (set_proc p (ReaderOpened f) st, Ok tt)
  end.

(* [crates/rimap-audit/src/reader/mod.rs:181-191] open_shared *)
Definition lock_reader (works : bool) (p f : nat) (st : locks_state) : locks_state * result AuditError unit :=
  if negb works then (set_proc p Idle st, Err AOpen)
  else if can_share p f st then (set_proc p (Reading f) st, Ok tt) else (set_proc p Idle st, Err ALocked).

(** ** Rotation, call by call *)

(** [fs::rename] moves whatever the path names. *)
(* [crates/rimap-audit/src/writer/rotation.rs:76-80] rotate_file *)
Definition rotate_rename (allowed : bool) (p f : nat) (st : locks_state) : locks_state * result AuditError unit :=
  match path_entry st with
  | Missing => (st, Err ARotate)
  | _ => if allowed then (set_proc p (Renamed f) (mkLocks Missing (modes st) (fresh_file st) (procs st)), Ok tt) else (st, Err ARotate)
  end.

(* [crates/rimap-audit/src/writer/rotation.rs:82-89] rotate_file *)
Definition rotate_open (allowed : bool) (umask : Z) (chmod_allowed : bool) (p f : nat) (st : locks_state)
    : locks_state * result AuditError unit :=
  match if allowed then writer_open umask st else (st, None) with
  | (st, None) => (set_proc p (Writing f) st, Err ARotate)
  | (st, Some new) => (set_proc p (Reopened f new) (set_file_mode_0600 chmod_allowed new st), Ok tt)
  end.

(** With the fresh file locked the old handle is dropped, and its lock with it. *)
(* [crates/rimap-audit/src/writer/rotation.rs:91-111] rotate_file *)
Definition rotate_lock (works : bool) (p f new : nat) (st : locks_state) : locks_state * result AuditError unit :=
  if works && can_lock p new st then (set_proc p (Writing new) st, Ok tt) else (set_proc p (Writing f) st, Err ARotate).

(** ** Every interleaving *)

(** [step_swap]: somebody else replaces what the path names. *)
Inductive lock_step : locks_state -> locks_state -> Prop :=
  | step_open umask chmod p st : proc_of st p = Idle -> lock_step st (open_writer umask chmod p st).1
  | step_lock works stat p f st : proc_of st p = WriterOpened f -> lock_step st (lock_writer works stat p f st).1
  | step_open_shared p st : proc_of st p = Idle -> lock_step st (open_reader p st).1
  | step_lock_shared works p f st : proc_of st p = ReaderOpened f -> lock_step st (lock_reader works p f st).1
  | step_rename ok p f st : proc_of st p = Writing f -> lock_step st (rotate_rename ok p f st).1
  | step_reopen ok umask chmod p f st : proc_of st p = Renamed f -> lock_step st (rotate_open ok umask chmod p f st).1
  | step_relock works p f new st : proc_of st p = Reopened f new -> lock_step st (rotate_lock works p f new st).1
  | step_exit p st : lock_step st (set_proc p Idle st)
  | step_swap e st : (forall f, e = Regular f -> (f < fresh_file st)%nat) -> lock_step st (mkLocks e (modes st) (fresh_file st) (procs st)).

(** Nobody has opened anything. *)
Definition initial (e : entry) (m : gmap nat Z) (n : nat) : locks_state := mkLocks e m n ∅.

(** ** What holds in every state *)

Lemma proc_of_set p s st q : proc_of (set_proc p s st) q = if decide (p = q) then s else proc_of st q.
Proof.
  unfold proc_of, set_proc. cbn. destruct (decide (p = q)) as [->|Hne]; [by rewrite lookup_insert_eq|by rewrite lookup_insert_ne].
Qed.

Lemma can_lock_spec p f st : can_lock p f st = true ->
  forall q, q <> p -> exclusive (proc_of st q) <> Some f /\ shared (proc_of st q) <> Some f.
Proof.
  intros Hc%bool_decide_eq_true q Hq. unfold proc_of. destruct (procs st !! q) as [s|] eqn:E; [by eapply Hc|done].
Qed.
Lemma can_share_spec p f st : can_share p f st = true -> forall q, q <> p -> exclusive (proc_of st q) <> Some f.
Proof.
  intros Hc%bool_decide_eq_true q Hq. unfold proc_of. destruct (procs st !! q) as [s|] eqn:E; [by eapply Hc|done].
Qed.

(** A lock that somebody else holds is not given. *)
Lemma held_refused p q f st : q <> p -> exclusive (proc_of st q) = Some f -> can_lock p f st = false /\ can_share p f st = false.
Proof.
  intros Hq He. split; apply not_true_is_false; intros Hc.
  - by destruct (can_lock_spec _ _ _ Hc q Hq).
  - by apply (can_share_spec _ _ _ Hc q Hq).
Qed.

Definition exclusion (st : locks_state) : Prop :=
  forall p q f, p <> q -> exclusive (proc_of st p) = Some f -> exclusive (proc_of st q) <> Some f /\ shared (proc_of st q) <> Some f.
Definition private (n : nat) (st : locks_state) : Prop :=
  (n <= fresh_file st)%nat /\ map_Forall (fun f m => (n <= f)%nat -> Z.land m OTHERS = 0) (modes st).

(** A process that keeps its lock, or gives it up, keeps everybody apart. *)
Lemma exclusion_set p s st : exclusion st ->
  (forall f, exclusive s = Some f -> exclusive (proc_of st p) = Some f \/ can_lock p f st = true) ->
  (forall f, shared s = Some f -> shared (proc_of st p) = Some f \/ can_share p f st = true) -> exclusion (set_proc p s st).
Proof.
  intros Hx He Hs q r f Hne. rewrite !proc_of_set. destruct (decide (p = q)) as [<-|Hpq], (decide (p = r)) as [<-|Hpr]; try done.
  - intros Hq. destruct (He f Hq) as [Hold|Hc]; [by apply (Hx p)|by apply (can_lock_spec p f st Hc)].
  - intros Hq. split.
    + intros Hr. destruct (He f Hr) as [Hold|Hc]; [by destruct (Hx q p f Hne Hq)|by destruct (can_lock_spec p f st Hc q Hne)].
    + intros Hr. destruct (Hs f Hr) as [Hold|Hc]; [by destruct (Hx q p f Hne Hq)|by destruct (can_share_spec p f st Hc q Hne)].
  - intros Hq. by apply (Hx q r f).
Qed.

Lemma exclusion_files st e m n : exclusion st -> exclusion (mkLocks e m n (procs st)).
Proof. done. Qed.

Lemma step_exclusion st st' : lock_step st st' -> exclusion st -> exclusion st'.
Proof.
  intros Hs Hx. destruct Hs as [umask chmod p st Hp|works stat p f st Hp|p st Hp|works p f st Hp|ok p f st Hp|ok umask chmod p f st Hp|works p f new st Hp|p st|e st He].
  - unfold open_writer, writer_open, set_file_mode_0600. destruct (path_entry st), chmod; try done; by apply exclusion_set.
  - unfold lock_writer. destruct works, (can_lock p f st) eqn:Ec, stat; cbn [negb]; (apply exclusion_set; [done| |done]); intros g; cbn; try done; intros [= <-]; by right.
  - unfold open_reader. destruct (reader_open st); [by apply exclusion_set|done].
  - unfold lock_reader. destruct works, (can_share p f st) eqn:Ec; cbn [negb]; (apply exclusion_set; [done|done|]); intros g; cbn; try done; intros [= <-]; by right.
  - unfold rotate_rename. destruct (path_entry st), ok; try done; (apply exclusion_set; [done| |done]); intros g; cbn; intros [= <-]; left; by unfold proc_of in *; cbn; rewrite Hp.
  - unfold rotate_open, writer_open, set_file_mode_0600. destruct ok, (path_entry st), chmod; try done; (apply exclusion_set; [done| |done]); intros g; cbn;
      intros [= <-]; left; unfold proc_of in *; cbn; by rewrite Hp.
  - unfold rotate_lock. destruct works, (can_lock p new st) eqn:Ec; cbn [andb]; (apply exclusion_set; [done| |done]); intros g; cbn; intros [= <-]; [by right|left; by rewrite Hp..].
  - by apply exclusion_set.
  - done.
Qed.

Lemma no_others umask : Z.land (Z.ldiff MODE_0600 umask) OTHERS = 0.
Proof.
  apply Z.bits_inj'. intros i Hi. rewrite Z.land_spec, Z.ldiff_spec, Z.bits_0.
  destruct (Z.testbit MODE_0600 i && Z.testbit OTHERS i) eqn:E.
  - rewrite <- Z.land_spec in E. change (Z.land MODE_0600 OTHERS) with 0 in E. by rewrite Z.bits_0 in E.
  - destruct (Z.testbit MODE_0600 i), (Z.testbit OTHERS i), (Z.testbit umask i); done.
Qed.

Lemma writer_open_private n umask st : private n st -> private n (writer_open umask st).1.
Proof.
  intros [Hn Hm]. unfold writer_open. destruct (path_entry st); try done. split; cbn; [lia|].
  apply map_Forall_insert_2; [intros _; apply no_others|done].
Qed.
Lemma chmod_private n allowed f st : private n st -> private n (set_file_mode_0600 allowed f st).
Proof.
  intros [Hn Hm]. unfold set_file_mode_0600. destruct allowed; [|done]. split; [done|]. cbn. by apply map_Forall_insert_2.
Qed.

Lemma step_private n st st' : lock_step st st' -> private n st -> private n st'.
Proof.
  intros Hs Hp. destruct Hs as [umask chmod p st _|works stat p f st _|p st _|works p f st _|ok p f st _|ok umask chmod p f st _|works p f new st _|p st|e st _].
  - unfold open_writer. pose proof (writer_open_private n umask st Hp) as Ho. destruct (writer_open umask st) as [st1 [f|]]; [|exact Ho].
    by apply (chmod_private n chmod f st1).
  - unfold lock_writer. by destruct works, (can_lock p f st), stat.
  - unfold open_reader. by destruct (reader_open st).
  - unfold lock_reader. by destruct works, (can_share p f st).
  - unfold rotate_rename. by destruct (path_entry st), ok.
  - unfold rotate_open. destruct ok; [|done]. pose proof (writer_open_private n umask st Hp) as Ho. destruct (writer_open umask st) as [st1 [g|]]; [|exact Ho].
    by apply (chmod_private n chmod g st1).
  - unfold rotate_lock. by destruct works, (can_lock p new st).
  - done.
  - done.
Qed.

(** C7: a log file has one writer, and nobody else can read it.  However
    servers and readers interleave their system calls, restart, rotate, fail
    to rotate or find the path replaced by something else: no two processes
    hold the same file for writing, none reads a file that another holds, no
    file that a server created is ever readable by anybody but its owner,
    under any umask; a server or a reader that opens the path while it names
    a held file is refused with the error for a locked log (or, if the lock call
    itself fails, with that of an open), and a server never opens through a
    symbolic link. *)
Theorem log_held_alone e m n st : rtc lock_step (initial e m n) st ->
  map_Forall (fun f _ => (f < n)%nat) m ->
  (forall p q f, p <> q -> exclusive (proc_of st p) = Some f -> exclusive (proc_of st q) <> Some f /\ shared (proc_of st q) <> Some f) /\
  (forall f mode, modes st !! f = Some mode -> (n <= f)%nat -> Z.land mode OTHERS = 0) /\
  (forall p q f umask works stat, p <> q -> exclusive (proc_of st p) = Some f -> path_entry st = Regular f ->
     exists st', open_writer umask false q st = (st', Ok tt) /\ (lock_writer works stat q f st').2 = Err (if works then ALocked else AOpen) /\
     exists st', open_reader q st = (st', Ok tt) /\ (lock_reader works q f st').2 = Err (if works then ALocked else AOpen)) /\
  (forall q umask chmod, path_entry st = Symlink -> open_writer umask chmod q st = (st, Err AOpen) /\ open_reader q st = (st, Err AOpen)).
Proof.
  intros Hr Hm. assert (H0 : exclusion (initial e m n) /\ private n (initial e m n)).
  { split; [by intros p q f _|]. split; [done|]. intros f mode Hf Hn. specialize (Hm f mode Hf). cbn in Hm. lia. }
  assert (H1 : exclusion st /\ private n st).
  { revert H0. induction Hr as [|s1 s2 s3 Hs _ IH]; [done|]. intros [Hx Hp]. apply IH. split; [by eapply step_exclusion|by eapply step_private]. }
  destruct H1 as [Hx [_ Hp]]. split; [exact Hx|]. split; [exact Hp|]. split.
  - intros p q f umask works stat Hne He Hpath. unfold open_writer, writer_open, open_reader, reader_open, set_file_mode_0600. rewrite Hpath.
    eexists. split; [reflexivity|]. split.
    + unfold lock_writer. destruct (held_refused q p f (set_proc q (WriterOpened f) st) Hne) as [-> _]; [|by destruct works].
      rewrite proc_of_set. by rewrite decide_False by done.
    + eexists. split; [reflexivity|]. unfold lock_reader. destruct (held_refused q p f (set_proc q (ReaderOpened f) st) Hne) as [_ ->]; [|by destruct works].
      rewrite proc_of_set. by rewrite decide_False by done.
  - intros q umask chmod Hpath. unfold open_writer, writer_open, open_reader, reader_open. by rewrite Hpath.
Qed.

(** ** At a concrete input *)

(** A server opens a new log under umask 022, and holds it. *)
Definition started : locks_state := mkLocks (Regular 0) {[0%nat := MODE_0600]} 1 {[1%nat := Writing 0]}.

Lemma started_reachable : rtc lock_step (initial Missing ∅ 0) started.
Proof.
  eapply rtc_l; [apply (step_open 0x12 true 1); reflexivity|]. eapply rtc_l; [apply (step_lock true true 1 0); reflexivity|].
  replace started with (lock_writer true true 1 0 (open_writer 0x12 true 1 (initial Missing ∅ 0)).1).1 by (vm_compute; reflexivity). apply rtc_refl.
Qed.

Lemma log_held_alone_witness : exists st', open_writer 0x12 false 2 started = (st', Ok tt) /\ (lock_writer true true 2 0 st').2 = Err ALocked.
Proof.
  destruct (log_held_alone Missing ∅ 0 started started_reachable (map_Forall_empty _)) as (_ & _ & H & _).
  destruct (H 1%nat 2%nat 0%nat 0x12 true true ltac:(discriminate) eq_refl eq_refl) as (st' & Ho & Hl & _). exists st'. split; [exact Ho|exact Hl].
Defined.

(** The path is documented to have one writer for the life of a process.  A
    second server that opened the log before a rotation locks the rotated file
    after it; and one that starts after a rotation failed between its rename
    and its open creates and holds a file of its own. *)
Lemma two_writers_one_path :
  (exists st, rtc lock_step started st /\ proc_of st 1 = Writing 1 /\ proc_of st 2 = Writing 0 /\ path_entry st = Regular 1) /\
  (exists st, rtc lock_step started st /\ proc_of st 1 = Writing 0 /\ proc_of st 2 = Writing 1 /\ path_entry st = Regular 1).
Proof.
  split; eexists; split.
  - eapply rtc_l; [apply (step_open 0x12 true 2); reflexivity|]. eapply rtc_l; [apply (step_rename true 1 0); reflexivity|].
    eapply rtc_l; [apply (step_reopen true 0x12 true 1 0); reflexivity|]. eapply rtc_l; [apply (step_relock true 1 0 1); reflexivity|].
    eapply rtc_l; [apply (step_lock true true 2 0); reflexivity|]. apply rtc_refl.
  - vm_compute. repeat split.
  - eapply rtc_l; [apply (step_rename true 1 0); reflexivity|]. eapply rtc_l; [apply (step_reopen false 0x12 true 1 0); reflexivity|].
    eapply rtc_l; [apply (step_open 0x12 true 2); reflexivity|]. eapply rtc_l; [apply (step_lock true true 2 1); reflexivity|]. apply rtc_refl.
  - vm_compute. repeat split.
Qed.
