(* ===== verification/Recent.v ===== *)
(** * The buffer of recently read message identifiers
    (crates/rimap-audit/src/writer/provenance.rs)

    Bounded in entries, in bytes and in age.  Nothing feeds it yet; the types
    and bounds are those the audit records rely on once something does. *)

From Stdlib Require Import ZArith Lia.
From stdpp Require Import base option list numbers strings relations.
From S2P Require Import Prelude RustStr Unicode.
Local Open Scope Z_scope.

(* [crates/rimap-audit/src/writer/provenance.rs:36-36] MAX_MESSAGE_ID_LEN *)
Definition MAX_MESSAGE_ID_LEN : Z := 998.
(* [crates/rimap-audit/src/writer/provenance.rs:40-40] MAX_BUFFER_ENTRIES *)
Definition MAX_BUFFER_ENTRIES : nat := Z.to_nat 1024.
(* [crates/rimap-audit/src/writer/provenance.rs:44-44] TRUNCATED_SUFFIX *)
Definition TRUNCATED_SUFFIX : rstr := 0x2026 :: lit "[truncated]".

(** Times and the window in nanoseconds. *)
(* [crates/rimap-audit/src/writer/provenance.rs:54-58] Entry *)
Record Entry := mkEntry { message_id : rstr; seen_at : Z }.
(* [crates/rimap-audit/src/writer/provenance.rs:48-52] ProvenanceBuffer *)
Record ProvenanceBuffer := mkBuffer { window : Z; entries : list Entry }.

(* [crates/rimap-audit/src/writer/provenance.rs:63-68] ProvenanceBuffer::new *)
Definition buffer_new (window_seconds : Z) : ProvenanceBuffer := mkBuffer (window_seconds * 10 ^ 9) [].

Fixpoint evict_front (cutoff : Z) (es : list Entry) : list Entry :=
  match es with
  | e :: rest => if seen_at e <? cutoff then evict_front cutoff rest else es
  | [] => []
  end.
(* [crates/rimap-audit/src/writer/provenance.rs:130-139] ProvenanceBuffer::evict_before *)
Definition evict_before (b : ProvenanceBuffer) (now : Z) : ProvenanceBuffer :=
  mkBuffer (window b) (evict_front (now - window b) (entries b)).

Section buffer.
Context `{UnicodeLib}.

(* [crates/rimap-audit/src/writer/provenance.rs:149-161] truncate_at_grapheme_boundary *)
Definition truncate_at_grapheme_boundary (s : rstr) (max_bytes : Z) : rstr :=
  if str_len s <=? max_bytes then s else cut_clusters 0 max_bytes (graphemes s).

(* [crates/rimap-audit/src/writer/provenance.rs:82-99] ProvenanceBuffer::record_at *)
Definition record_at (b : ProvenanceBuffer) (id : rstr) (now : Z) : ProvenanceBuffer :=
  let b := evict_before b now in
  let id := if MAX_MESSAGE_ID_LEN <? str_len id
            then truncate_at_grapheme_boundary id MAX_MESSAGE_ID_LEN ++ TRUNCATED_SUFFIX else id in
  let kept := if (MAX_BUFFER_ENTRIES <=? length (entries b))%nat then tail (entries b) else entries b in
  mkBuffer (window b) (kept ++ [mkEntry id now]).

(* [crates/rimap-audit/src/writer/provenance.rs:104-107] ProvenanceBuffer::snapshot *)
Definition snapshot (b : ProvenanceBuffer) (now : Z) : ProvenanceBuffer * list rstr :=
  let b := evict_before b now in (b, map message_id (entries b)).

(** Uses of the buffer, at the clock's readings. *)
Inductive buffer_step : ProvenanceBuffer -> ProvenanceBuffer -> Prop :=
  | step_record b id now : buffer_step b (record_at b id now)
  | step_snapshot b now : buffer_step b (snapshot b now).1.

Definition bounded (b : ProvenanceBuffer) : Prop :=
  (length (entries b) <= MAX_BUFFER_ENTRIES)%nat /\ Forall (fun e => str_len (message_id e) <= 1012) (entries b).

Lemma evict_front_suffix cutoff es : exists gone, es = gone ++ evict_front cutoff es /\ Forall (fun e => seen_at e < cutoff) gone.
Proof.
  induction es as [|e es (gone & He & Hg)]; [by exists []|]. cbn. destruct (Z.ltb_spec (seen_at e) cutoff); [|by exists []].
  exists (e :: gone). split; [cbn; congruence|by constructor].
Qed.

Lemma evict_bounded b now : bounded b -> bounded (evict_before b now).
Proof.
  intros [Hl Hf]. destruct (evict_front_suffix (now - window b) (entries b)) as (gone & He & _). unfold bounded, evict_before. cbn [entries].
  rewrite He in Hf at 1. apply Forall_app in Hf as [_ Hf]. split; [|done]. rewrite He, length_app in Hl. lia.
Qed.

(** The local copy is the content pipeline's function. *)
Lemma truncate_copy s m : truncate_at_grapheme_boundary s m = truncate_graphemes s m.
Proof. done. Qed.

(** However it is used, and whatever the clock does, the buffer stays within
    its bounds: 1024 entries, each of at most 1012 bytes. *)
Theorem buffer_bounded window_seconds b : rtc buffer_step (buffer_new window_seconds) b -> bounded b.
Proof.
  intros Hs. assert (H0 : bounded (buffer_new window_seconds)) by (split; [cbn; lia|constructor]).
  revert H0. induction Hs as [|b1 b2 b3 Hstep _ IH]; [done|]. intros Hb. apply IH. clear IH. destruct Hstep as [b id now|b now]; [|by apply evict_bounded].
  destruct (evict_bounded b now Hb) as [Hl Hf]. unfold bounded, record_at. cbn [entries].
  set (es := entries (evict_before b now)) in *. split.
  - rewrite length_app. cbn [length]. destruct (Nat.leb_spec MAX_BUFFER_ENTRIES (length es)); [|lia].
    destruct es; cbn [tail length] in *; [unfold MAX_BUFFER_ENTRIES in *; lia|lia].
  - apply Forall_app. split; [destruct (_ <=? _)%nat; [by destruct Hf|done]|]. apply Forall_singleton. cbn [message_id].
    destruct (Z.ltb_spec MAX_MESSAGE_ID_LEN (str_len id)) as [_|Hle]; [|unfold MAX_MESSAGE_ID_LEN in *; lia].
    rewrite str_len_app, truncate_copy. destruct (truncate_graphemes_spec id MAX_MESSAGE_ID_LEN ltac:(done)) as (Ht & _).
    change (str_len TRUNCATED_SUFFIX) with 14. unfold MAX_MESSAGE_ID_LEN in *. lia.
Qed.
End buffer.

(** ** What the documents say *)

#[local] Existing Instance Unicode.plain_unicode.

(** An entry is documented to be capped at 998 bytes; the mark of a cut one is
    added after the cut. *)
Example cut_entry_length : map (fun e => str_len (message_id e)) (entries (record_at (buffer_new 60) (repeat 97 999) 0)) = [1012].
Proof. vm_compute. reflexivity. Qed.

(** Entries older than the window are documented to be evicted on every push;
    eviction stops at the first young entry, so where the clock has gone back
    an old entry behind a young one stays. *)
Example old_entry_stays :
  let b := record_at (record_at (buffer_new 60) [97] (100 * 10 ^ 9)) [98] (10 * 10 ^ 9) in
  map message_id (entries (record_at b [99] (150 * 10 ^ 9))) = [[97]; [98]; [99]].
Proof. vm_compute. reflexivity. Qed.
