(* ===== verification/AuditFiles.v ===== *)
(** * The audit log's files (crates/rimap-audit/src/writer)

    The names rotation gives, what pruning removes beside the log, and what
    the next process reads from the file it finds (self_check.rs). *)

From Stdlib Require Import ZArith Lia.
From stdpp Require Import base option list strings sorting sets.
From S2P Require Import Prelude RustStr Tools Errors Json AuditRecord AuditWriter.
Local Open Scope Z_scope.

(** ** Pruning *)

(** A directory entry beside the log: name, whether a regular file, mtime. *)
Record sibling := mkSibling { s_name : rstr; s_regular : bool; s_mtime : Z }.

Definition newer (a b : sibling) : Prop := s_mtime b <= s_mtime a.
#[export] Instance newer_dec a b : Decision (newer a b).
Proof. unfold newer. apply _. Defined.

(** The names removed; [cutoff] is now less the retention. *)
(* [crates/rimap-audit/src/writer/rotation.rs:114-213] prune_rotated_siblings *)
Definition prune_rotated_siblings (active_name : rstr) (keep : Z) (cutoff : option Z)
    (entries : list sibling) : list rstr :=
  let prefix := active_name ++ lit "." in
  let siblings := filter (fun e => starts_with prefix (s_name e) = true /\ s_name e <> active_name /\
                            s_regular e = true) entries in
  let sorted := merge_sort newer siblings in
  let stale (p : nat * sibling) :=
    (keep <=? Z.of_nat p.1) || match cutoff with Some c => s_mtime p.2 <? c | None => false end in
  map (fun p => s_name p.2) (List.filter stale (imap pair sorted)).

(* [crates/rimap-audit/src/writer/rotation.rs:12-30] rotated_path *)
Definition rotated_name (active_name stamp : rstr) : rstr := active_name ++ lit "." ++ stamp.

(** The counter loop, [fuel] being how many counters are left. *)
(* [crates/rimap-audit/src/writer/rotation.rs:45-55] unique_rotated_path *)
Fixpoint first_free (exists_ : rstr -> bool) (base : rstr) (counter : Z) (fuel : nat) : rstr :=
  match fuel with
  | O => base
  | S fuel =>
      let candidate := base ++ lit "-" ++ to_decimal counter in
      if negb (exists_ candidate) then candidate else first_free exists_ base (counter + 1) fuel
  end.
(* [crates/rimap-audit/src/writer/rotation.rs:40-59] unique_rotated_path *)
Definition unique_rotated_path (exists_ : rstr -> bool) (active_name stamp : rstr) : rstr :=
  let base := rotated_name active_name stamp in
  if negb (exists_ base) then base
  else first_free exists_ base 1 (Z.to_nat u32_max).

(** ** The startup self-check *)

(* [crates/rimap-audit/src/writer/self_check.rs:19-23] MAX_SELF_CHECK_BYTES *)
Definition MAX_SELF_CHECK_BYTES : Z := 32 * 1024 * 1024.
(* [crates/rimap-audit/src/writer/self_check.rs:25-27] MAX_LINE_BYTES *)
Definition MAX_LINE_BYTES : Z := 1024 * 1024.

Definition default_trailing : TrailingState := mkTrailing None None None.

Section self_check.
Context `{RecordJson}.

Definition trim_line (line : list Z) : list Z := trim_end_matches (Z.eqb 13) line.

(* [crates/rimap-audit/src/writer/self_check.rs:165-180] read_trailing_state *)
Definition take_line (st : TrailingState) (line : list Z) : TrailingState :=
  match parse_envelope (trim_line line) with
  | None => st
  | Some e =>
      mkTrailing (Some (t_seq e)) (Some (t_process_id e))
        (if str_eqb (t_kind e) (lit "process_start") then t_inode e else last_recorded_inode st)
  end.

(** The lines ended by LF, and what follows the last LF.  [read_line] fails on
    bytes that are not UTF-8. *)
(* [crates/rimap-audit/src/writer/self_check.rs:129-180] read_trailing_state *)
Fixpoint scan (lines : list (list Z)) (tail : list Z) (st : TrailingState) : result AuditError TrailingState :=
  match lines with
  | [] =>
      match tail with
      | [] => Ok st
      | _ => if utf8_valid tail then Ok st else Err (ARead None)
      end
  | line :: lines =>
      if negb (utf8_valid (line ++ [10])) then Err (ARead None)
      else if MAX_LINE_BYTES <? Z.of_nat (length line) + 1 then scan lines tail st
      else scan lines tail (take_line st line)
  end.

(** [None] is a missing file. *)
(* [crates/rimap-audit/src/writer/self_check.rs:88-187] read_trailing_state *)
Definition read_trailing_state (file : option (list Z)) : result AuditError TrailingState :=
  match file with
  | None | Some [] => Ok default_trailing
  | Some bytes =>
      if MAX_SELF_CHECK_BYTES <? Z.of_nat (length bytes) then Ok default_trailing
      else
        let pieces := split_on 10 bytes in
        scan (removelast pieces) (List.last pieces []) default_trailing
  end.
End self_check.

(** ** Names and pruning *)

Lemma first_free_spec (exists_ : rstr -> bool) base n fuel :
  let name k := base ++ lit "-" ++ to_decimal k in
  (exists k, n <= k < n + Z.of_nat fuel /\ first_free exists_ base n fuel = name k /\ exists_ (name k) = false)
  \/ (first_free exists_ base n fuel = base /\
      forall k, n <= k < n + Z.of_nat fuel -> exists_ (name k) = true).
Proof.
  intros name. revert n. induction fuel as [|fuel IH]; intros n; cbn [first_free].
  - right. split; [done|]. lia.
  - destruct (exists_ (base ++ lit "-" ++ to_decimal n)) eqn:E; cbn [negb].
    + destruct (IH (n + 1)) as [(k & Hk & Hf & He)|[Hf He]].
      * left. exists k. split; [lia|done].
      * right. split; [done|]. intros k Hk. destruct (decide (k = n)) as [->|]; [done|]. apply He. lia.
    + left. exists n. split; [lia|done].
Qed.

(** Rotation never overwrites a file.  The name it picks does not exist,
    unless 2^32 rotations share one millisecond; and it extends the log's own
    name, so pruning finds it. *)
Theorem rotated_name_free exists_ active_name stamp :
  (exists_ (unique_rotated_path exists_ active_name stamp) = false \/
   (exists_ (rotated_name active_name stamp) = true /\
    forall k, 1 <= k <= u32_max -> exists_ (rotated_name active_name stamp ++ lit "-" ++ to_decimal k) = true)) /\
  starts_with (active_name ++ lit ".") (unique_rotated_path exists_ active_name stamp) = true.
Proof.
  unfold unique_rotated_path. destruct (exists_ (rotated_name active_name stamp)) eqn:E; cbn [negb].
  - assert (Hfuel : Z.of_nat (Z.to_nat u32_max) = u32_max) by (apply Z2Nat.id; by apply Z.leb_le).
    revert Hfuel. generalize (Z.to_nat u32_max) as fuel. intros fuel Hfuel.
    destruct (first_free_spec exists_ (rotated_name active_name stamp) 1 fuel) as [(k & Hk & -> & He)|[-> He]].
    + split; [by left|]. apply starts_with_spec. exists (stamp ++ lit "-" ++ to_decimal k).
      unfold rotated_name. by rewrite <- !app_assoc.
    + split; [right; split; [done|]; intros k Hk; apply He; lia|].
      apply starts_with_spec. exists stamp. unfold rotated_name. by rewrite <- app_assoc.
  - split; [by left|]. apply starts_with_spec. exists stamp. unfold rotated_name. by rewrite <- app_assoc.
Qed.

(** The files pruning may touch. *)
Definition rotated_siblings (active_name : rstr) (entries : list sibling) : list sibling :=
  filter (fun e => starts_with (active_name ++ lit ".") (s_name e) = true /\ s_name e <> active_name /\
            s_regular e = true) entries.

#[local] Instance newer_total : Total newer.
Proof. intros a b. unfold newer. lia. Qed.
#[local] Instance newer_trans : Transitive newer.
Proof. intros a b c. unfold newer. lia. Qed.

Lemma imap_pair_elem {A} (l : list A) p : p ∈ imap pair l <-> l !! p.1 = Some p.2.
Proof.
  destruct p as [k a]. rewrite list_elem_of_lookup. cbn. split.
  - intros [j Hj]. rewrite list_lookup_imap in Hj. apply fmap_Some in Hj as (b & Hb & Heq). by simplify_eq.
  - intros Hk. exists k. by rewrite list_lookup_imap, Hk.
Qed.

Lemma removed_elem active_name keep cutoff entries n :
  n ∈ prune_rotated_siblings active_name keep cutoff entries <->
  exists k e, merge_sort newer (rotated_siblings active_name entries) !! k = Some e /\ s_name e = n /\
    (keep <= Z.of_nat k \/ exists c, cutoff = Some c /\ s_mtime e < c).
Proof.
  unfold prune_rotated_siblings. fold (rotated_siblings active_name entries).
  rewrite list_elem_of_fmap. split.
  - intros ([k e] & -> & Hin). apply list_elem_of_In, filter_In in Hin as [Hin Hst].
    apply list_elem_of_In, imap_pair_elem in Hin. exists k, e. split; [done|]. split; [done|].
    cbn in Hst. apply orb_true_iff in Hst as [Hst|Hst]; [left; by apply Z.leb_le|].
    destruct cutoff as [c|]; [|done]. right. exists c. split; [done|]. by apply Z.ltb_lt.
  - intros (k & e & Hk & <- & Hst). exists (k, e). split; [done|].
    apply list_elem_of_In, filter_In. split; [by apply list_elem_of_In, imap_pair_elem|]. cbn.
    apply orb_true_iff. destruct Hst as [Hk'|(c & -> & Hc)]; [left; by apply Z.leb_le|right; by apply Z.ltb_lt].
Qed.

(** In a list sorted newest first, whoever comes before is not older. *)
Lemma sorted_index (l : list sibling) k e : StronglySorted newer l -> l !! k = Some e ->
  (k < length (List.filter (fun a => (s_mtime e <=? s_mtime a)%Z) l))%nat.
Proof.
  intros Hs. revert k. induction Hs as [|a l Hs IH Ha]; intros k Hk; [done|].
  destruct k as [|k]; cbn in Hk.
  - injection Hk as ->. cbn. rewrite Z.leb_refl. cbn. lia.
  - specialize (IH k Hk). cbn. rewrite Forall_forall in Ha.
    assert (Hn : newer a e) by (apply Ha, list_elem_of_lookup; by exists k).
    unfold newer in Hn. rewrite (proj2 (Z.leb_le _ _) Hn). cbn. lia.
Qed.

Lemma filter_permutation_length {A} (p : A -> bool) l l' : l ≡ₚ l' ->
  length (List.filter p l) = length (List.filter p l').
Proof. induction 1 as [|x l l' _ IH|x y l|]; cbn; [done| | |congruence]; repeat case_goal; cbn; lia. Qed.

Lemma imap_filter_length {A} (l : list A) m p : 
  (forall k a, (m <= k)%nat -> p (k, a) = true) ->
  (length l - length (List.filter p (imap pair l)) <= m)%nat.
Proof.
  intros Hp. revert m p Hp. induction l as [|a l IH]; intros m p Hp; cbn [imap length List.filter]; [lia|].
  set (p' := fun q : nat * A => p (S q.1, q.2)).
  assert (Hrec : length (List.filter p (imap (pair ∘ S) l)) = length (List.filter p' (imap pair l))).
  { clear IH Hp. unfold p'.
    assert (Hg : forall f g : nat -> A -> nat * A, (forall n x, f n x = (S (g n x).1, (g n x).2)) ->
      length (List.filter p (imap f l)) = length (List.filter (fun q => p (S q.1, q.2)) (imap g l))).
    { induction l as [|x l IH]; intros f g Hfg; [done|]. cbn. rewrite (Hfg 0%nat x).
      specialize (IH (f ∘ S) (g ∘ S) (fun n y => Hfg (S n) y)).
      destruct (p _); cbn; lia. }
    by apply Hg. }
  destruct m as [|m].
  - rewrite (Hp 0%nat a) by lia. cbn [length]. rewrite Hrec.
    specialize (IH 0%nat p' (fun k x _ => Hp (S k) x ltac:(lia))). lia.
  - specialize (IH m p' (fun k x Hk => Hp (S k) x ltac:(lia))).
    destruct (p (0%nat, a)); cbn [length]; rewrite Hrec; lia.
Qed.

(** Pruning removes only old logs.  Only regular files named like a
    rotated log go, never the log itself; a file among the [keep] newest and
    within the retention stays; and at most [keep] rotated logs are left. *)
Theorem prune_keeps_newest active_name keep cutoff entries :
  0 <= keep -> NoDup (map s_name (rotated_siblings active_name entries)) ->
  let removed := prune_rotated_siblings active_name keep cutoff entries in
  let siblings := rotated_siblings active_name entries in
  (forall n, n ∈ removed -> n <> active_name /\ exists e, e ∈ entries /\ s_name e = n /\
     s_regular e = true /\ starts_with (active_name ++ lit ".") n = true) /\
  (forall e, e ∈ siblings ->
     Z.of_nat (length (List.filter (fun a => s_mtime e <=? s_mtime a) siblings)) <= keep ->
     (forall c, cutoff = Some c -> c <= s_mtime e) -> s_name e ∉ removed) /\
  Z.of_nat (length siblings) - Z.of_nat (length removed) <= keep.
Proof.
  intros Hk Hnd removed siblings. set (sorted := merge_sort newer siblings).
  assert (Hperm : sorted ≡ₚ siblings) by apply merge_sort_Permutation.
  assert (Hsort : StronglySorted newer sorted) by (apply StronglySorted_merge_sort; apply _).
  split; [|split].
  - intros n (k & e & He & <- & _)%removed_elem. fold siblings sorted in He.
    assert (Hin : e ∈ siblings) by (rewrite <- Hperm; apply list_elem_of_lookup; by exists k).
    unfold siblings, rotated_siblings in Hin. apply list_elem_of_filter in Hin as ((H1 & H2 & H3) & Hin).
    split; [done|]. by exists e.
  - intros e Hin Hcount Hret (k & e' & He' & Hname & Hst)%removed_elem. fold siblings sorted in He'.
    assert (Hin' : e' ∈ siblings) by (rewrite <- Hperm; apply list_elem_of_lookup; by exists k).
    assert (e' = e) as ->.
    { clear -Hnd Hin Hin' Hname. fold siblings in Hnd. revert Hnd Hin Hin'. generalize siblings as l.
      induction l as [|a l IH]; cbn; [by rewrite elem_of_nil|]. rewrite NoDup_cons, !elem_of_cons.
      intros [Hn Hnd] [->|Hin] [->|Hin']; [done| | |by apply IH].
      - exfalso. apply Hn. rewrite <- Hname. by apply (list_elem_of_fmap_2 s_name).
      - exfalso. apply Hn. rewrite Hname. by apply (list_elem_of_fmap_2 s_name). }
    pose proof (sorted_index sorted k e Hsort He') as Hi.
    rewrite (filter_permutation_length _ _ _ Hperm) in Hi.
    destruct Hst as [Hst|(c & Hc & Hlt)]; [lia|]. specialize (Hret c Hc). lia.
  - unfold removed, prune_rotated_siblings. fold (rotated_siblings active_name entries). fold siblings sorted.
    rewrite length_map, <- (Permutation_length Hperm).
    pose proof (imap_filter_length sorted (Z.to_nat keep)
      (fun p => (keep <=? Z.of_nat p.1) || match cutoff with Some c => s_mtime p.2 <? c | None => false end)) as Hf.
    assert (Hge : forall (k : nat) (a : sibling), (Z.to_nat keep <= k)%nat ->
      (keep <=? Z.of_nat (k, a).1) || match cutoff with Some c => s_mtime (k, a).2 <? c | None => false end = true).
    { intros k a Hka. cbn. by rewrite (proj2 (Z.leb_le keep (Z.of_nat k))) by lia. }
    specialize (Hf Hge). lia.
Qed.

Definition sample_entries : list sibling :=
  [mkSibling (lit "audit.jsonl") true 50; mkSibling (lit "audit.jsonl.a") true 10;
   mkSibling (lit "audit.jsonl.b") true 30; mkSibling (lit "audit.jsonl.evil") false 99;
   mkSibling (lit "audit.jsonl.c") true 20; mkSibling (lit "notes.txt") true 1].

Lemma prune_keeps_newest_witness :
  prune_rotated_siblings (lit "audit.jsonl") 2 None sample_entries = [lit "audit.jsonl.a"] /\
  lit "audit.jsonl.c" ∉ prune_rotated_siblings (lit "audit.jsonl") 2 None sample_entries.
Proof.
  assert (Hnd : NoDup (map s_name (rotated_siblings (lit "audit.jsonl") sample_entries)))
    by (apply (bool_decide_unpack _); vm_compute; exact I).
  split; [vm_compute; reflexivity|].
  refine (proj1 (proj2 (prune_keeps_newest (lit "audit.jsonl") 2 None sample_entries _ Hnd))
    (mkSibling (lit "audit.jsonl.c") true 20) _ _ _).
  - lia.
  - apply (list_elem_of_lookup_2 _ 2). vm_compute. reflexivity.
  - apply Z.leb_le. vm_compute. reflexivity.
  - discriminate.
Defined.

(** ** Reading back *)

Section reads_back.
Context `{RecordJson}.

Definition recorded_inode (r : AuditRecord) : option Z :=
  match payload r with PProcessStart p => Some (previous_file_inode p) | _ => None end.

(** What the last process left behind. *)
Definition left_behind (recs : list AuditRecord) : TrailingState :=
  mkTrailing (seq <$> last recs) (process_id <$> last recs) (last (omap recorded_inode recs)).

Lemma trim_line_id line : last line <> Some 13 -> trim_line line = line.
Proof.
  intros Hl. unfold trim_line, trim_end_matches. destruct line as [|c line _] using rev_ind; [done|].
  rewrite last_snoc in Hl. rewrite rev_app_distr. cbn [rev app drop_while].
  destruct (13 =? c) eqn:E; zify_bool; [congruence|]. cbn [rev]. by rewrite rev_involutive.
Qed.

Lemma utf8_valid_app a b : utf8_valid a = true -> utf8_valid (a ++ b) = utf8_valid b.
Proof.
  remember (length a) as n eqn:Hn. revert a Hn. induction (lt_wf n) as [n _ IH]. intros a -> Ha.
  destruct a as [|x a]; [done|]. cbn [utf8_valid app] in *.
  destruct (_ && _); [by apply (IH (length a)); cbn; auto|].
  destruct (_ && _).
  { destruct a as [|c a]; [done|]. cbn [app]. apply andb_true_iff in Ha as [-> Ha]. cbn.
    by apply (IH (length a)); cbn; auto. }
  destruct (_ && _).
  { destruct a as [|c [|d a]]; try done. cbn [app]. apply andb_true_iff in Ha as [Hcd Ha]. rewrite Hcd. cbn.
    apply (IH (length a)); cbn; auto. }
  destruct (_ && _); [|done].
  destruct a as [|c [|d [|e a]]]; try done. cbn [app]. apply andb_true_iff in Ha as [Hcd Ha]. rewrite Hcd. cbn.
  apply (IH (length a)); cbn; auto.
Qed.

Lemma scan_records recs lines tail before :
  mapM to_vec recs = Some lines ->
  Forall (fun l => Z.of_nat (length l) < MAX_LINE_BYTES) lines -> utf8_valid tail = true ->
  scan lines tail (left_behind before) = Ok (left_behind (before ++ recs)).
Proof.
  revert lines before. induction recs as [|r recs IH]; intros lines before Hm Hl Ht.
  - injection Hm as <-. cbn. rewrite app_nil_r. destruct tail; [done|]. by rewrite Ht.
  - cbn in Hm. destruct (to_vec r) as [bs|] eqn:Er; [|done].
    destruct (mapM to_vec recs) as [ls|] eqn:Em; [|done]. injection Hm as <-.
    apply Forall_cons in Hl as [Hb Hl]. destruct (to_vec_line r bs Er) as (_ & Hcr & Hutf).
    cbn [scan]. rewrite utf8_valid_app by done. cbn [utf8_valid negb].
    change (utf8_valid [10]) with true. cbn [negb].
    rewrite (proj2 (Z.ltb_ge MAX_LINE_BYTES (Z.of_nat (length bs) + 1))) by lia.
    unfold take_line. rewrite trim_line_id, (parse_to_vec r bs Er) by done.
    replace (before ++ r :: recs) with ((before ++ [r]) ++ recs) by (by rewrite <- app_assoc).
    rewrite <- (IH ls (before ++ [r]) eq_refl Hl Ht). f_equal.
    unfold left_behind, envelope_of. cbn [t_seq t_process_id t_kind t_inode]. rewrite !last_snoc.
    rewrite omap_app. cbn [omap list_omap].
    assert (Ri : recorded_inode r = match payload r with PProcessStart p => Some (previous_file_inode p) | _ => None end)
      by done. rewrite Ri.
    destruct (payload r); cbn [kind_of]; rewrite ?app_nil_r, ?last_snoc; try reflexivity.
Qed.
End reads_back.

Section self_check_theorem.
Context `{RecordJson}.

Lemma split_lines lines tail : Forall (fun l => ~ 10 ∈ l) lines -> ~ 10 ∈ tail ->
  split_on 10 (concat (map (fun l => l ++ [10]) lines) ++ tail) = lines ++ [tail].
Proof.
  intros Hl Ht. induction Hl as [|l lines Hl _ IH]; cbn; [by apply split_on_plain|].
  rewrite <- !app_assoc. cbn [app]. rewrite split_on_app, split_on_plain, IH by done. done.
Qed.

Lemma serialized_lines recs lines : mapM to_vec recs = Some lines -> Forall (fun l => ~ 10 ∈ l) lines.
Proof.
  revert lines. induction recs as [|r recs IH]; intros lines Hm; [by injection Hm as <-|].
  cbn in Hm. destruct (to_vec r) as [bs|] eqn:Er; [|done].
  destruct (mapM to_vec recs) as [ls|]; [|done]. injection Hm as <-.
  constructor; [by apply (to_vec_line r)|by apply IH].
Qed.

(** A new process picks up where the last one stopped.  From a log of
    whole records, followed by a torn line in valid UTF-8 or by nothing, the
    self-check returns the last record's sequence number and process, and
    the inode the last [process_start] recorded. *)
Theorem trailing_state_continues recs lines tail :
  mapM to_vec recs = Some lines -> ~ 10 ∈ tail -> utf8_valid tail = true ->
  Forall (fun l => Z.of_nat (length l) < MAX_LINE_BYTES) lines ->
  let log := concat (map (fun l => l ++ [10]) lines) ++ tail in
  Z.of_nat (length log) <= MAX_SELF_CHECK_BYTES ->
  read_trailing_state (Some log) = Ok (left_behind recs).
Proof.
  intros Hm Hn Hu Hl log Hlen. unfold read_trailing_state.
  assert (Hscan : scan (removelast (split_on 10 log)) (List.last (split_on 10 log) []) default_trailing =
    Ok (left_behind recs)).
  { unfold log. rewrite split_lines; [|eapply serialized_lines; exact Hm|done].
    rewrite removelast_last, last_last. by apply (scan_records recs lines tail []). }
  destruct log as [|b log']; [exact Hscan|].
  by rewrite (proj2 (Z.ltb_ge MAX_SELF_CHECK_BYTES _)) by exact Hlen.
Qed.
End self_check_theorem.

#[local] Existing Instance header_json.

Definition sample_records : list AuditRecord :=
  [mkAuditRecord 1 0 77 (PProcessStart (mkProcessStart [] [] None None [] [] [] None None 4242 false));
   mkAuditRecord 2 0 77 (PConfig (mkConfigEvent [] []))].

Definition sample_lines : list (list Z) := default [] (mapM to_vec sample_records).

Lemma trailing_state_continues_witness :
  read_trailing_state (Some (concat (map (fun l => l ++ [10]) sample_lines) ++ lit "3,7")) =
    Ok (mkTrailing (Some 2) (Some 77) (Some 4242)).
Proof.
  assert (Hm : mapM to_vec sample_records = Some sample_lines) by (vm_compute; reflexivity).
  refine (trailing_state_continues sample_records sample_lines (lit "3,7") Hm _ _ _ _).
  - apply (bool_decide_unpack _). vm_compute. exact I.
  - reflexivity.
  - repeat (apply List.Forall_cons; [apply Z.ltb_lt; vm_compute; reflexivity|]). constructor.
  - apply Z.leb_le. vm_compute. reflexivity.
Defined.

(** A line torn inside a character stops the startup self-check instead of
    being skipped. *)
Lemma torn_character_fails : read_trailing_state (Some (lit "{" ++ [0xC3])) = Err (ARead None).
Proof. reflexivity. Qed.

(** The next process appends to a torn line, and its first record has no line
    of its own. *)
Lemma torn_line_swallows torn record : ~ 10 ∈ torn -> ~ 10 ∈ record -> torn <> [] ->
  ~ record ∈ removelast (split_on 10 (torn ++ record ++ [10])).
Proof.
  intros Ht Hr Hne. rewrite app_assoc, split_on_app, split_on_plain.
  - cbn. rewrite list_elem_of_singleton. intros Heq. apply Hne.
    apply (f_equal length) in Heq. rewrite length_app in Heq. destruct torn; [done|cbn in Heq; lia].
  - rewrite elem_of_app. tauto.
Qed.
