(* ===== verification/AuditReader.v ===== *)
(** * Reading the audit log (crates/rimap-audit/src/reader/mod.rs,
    crates/rimap-server/src/cli/audit_merge.rs)

    The filter, the streaming reader with its two tolerated kinds of line, and
    the merge command.  The JSON decoder, the ULID text form and the RFC 3339
    parser are a type class. *)

From Stdlib Require Import ZArith Lia.
From stdpp Require Import base option list strings.
From S2P Require Import Prelude RustStr Tools Errors Json AuditRecord AuditWriter AuditFiles.
Local Open Scope Z_scope.

(** ** Errors *)

(* [crates/rimap-audit/src/error.rs:99-104] AuditError::fmt_line *)
Definition fmt_line (line : option Z) : rstr :=
  match line with Some n => lit " (line " ++ to_decimal n ++ lit ")" | None => [] end.

(* [crates/rimap-audit/src/error.rs:110-121] AuditError::code *)
Definition audit_code (e : AuditError) : ErrorCode :=
  match e with
  | AOpen | AParentDir | ALocked => EConfig
  | ASerialize | AParse | AWrite | AWriteDeadline | AFsync | ARotate | ARead _ => EInternal
  end.

(** ** The filter *)

(** [serde_json] reading a record back, and any value; [Ulid]'s text form. *)
Class RecordReader `{RecordJson} := {
  parse_record : list Z -> option AuditRecord;
  parse_value : list Z -> option json;
  process_str : Z -> rstr;
  parse_rfc3339 : rstr -> option Z;
  parse_record_to_vec : forall r bs, to_vec r = Some bs -> parse_record bs = Some r;
}.

(* [crates/rimap-audit/src/reader/mod.rs:54-72] Filter *)
Record Filter := mkFilter {
  since : option Z; until : option Z; f_tool : option rstr; f_kind : option rstr;
  f_process : option rstr; f_account : option rstr }.

Definition filter_default : Filter := mkFilter None None None None None None.

(* [crates/rimap-audit/src/reader/mod.rs:99-107] Filter::matches *)
Definition record_tool (p : Payload) : option rstr :=
  match p with
  | PToolStart t => Some (as_str (ts_tool t))
  | PToolEnd t => Some (as_str (te_tool t))
  | PProcessStart _ | PProcessEnd _ | PAuth _ | PConfig _ | PFolderPolicy _ => None
  end.

(* [crates/rimap-audit/src/reader/mod.rs:114-122] Filter::matches *)
Definition record_account (p : Payload) : option rstr :=
  match p with
  | PAuth a => ae_account a
  | PToolStart t => ts_account t
  | PToolEnd t => te_account t
  | PFolderPolicy f => Some (fp_account f)
  | PProcessStart _ | PProcessEnd _ | PConfig _ => None
  end.

Section reader.
Context `{RecordReader}.

(* [crates/rimap-audit/src/reader/mod.rs:77-131] Filter::matches *)
Definition matches (f : Filter) (r : AuditRecord) : bool :=
  if match since f with Some t => ts r <? t | None => false end then false
  else if match until f with Some t => t <? ts r | None => false end then false
  else if match f_process f with Some want => negb (str_eqb (process_str (process_id r)) want) | None => false end then false
  else if match f_kind f with Some want => negb (str_eqb (kind_of (payload r)) want) | None => false end then false
  else if match f_tool f with
          | Some want => match record_tool (payload r) with Some name => negb (str_eqb name want) | None => true end
          | None => false
          end then false
  else if match f_account f with
          | Some want => match record_account (payload r) with Some name => negb (str_eqb name want) | None => false end
          | None => false
          end then false
  else true.

(* [crates/rimap-audit/src/record/kind.rs:21-29] KNOWN *)
Definition KNOWN : list rstr :=
  [lit "process_start"; lit "process_end"; lit "auth"; lit "tool_start"; lit "tool_end"; lit "config"; lit "folder_policy"].

(* [crates/rimap-audit/src/reader/mod.rs:146-150] unknown_kind *)
Definition unknown_kind (line : list Z) : option rstr :=
  match parse_value line with
  | Some (JObj m) =>
      match jget m (lit "kind") with
      | Some (JStr kind) => if existsb (str_eqb kind) KNOWN then None else Some kind
      | _ => None
      end
  | _ => None
  end.

(* [crates/rimap-audit/src/reader/mod.rs:164-166] parse_line *)
Definition parse_line (raw : list Z) : result AuditError AuditRecord :=
  match parse_record raw with Some r => Ok r | None => Err AParse end.

(** ** Streaming *)

(* [crates/rimap-audit/src/reader/mod.rs:228-237] StreamSummary *)
Record StreamSummary := mkSummary { matched : Z; skipped_unknown_kind : Z }.

(** [BufRead::lines]: the bytes up to each LF, without it and one CR before
    it, and what follows the last LF if anything does. *)
Definition chop_cr (line : list Z) : list Z :=
  match rev line with 13 :: r => rev r | _ => line end.
Definition file_lines (bytes : list Z) : list (list Z) :=
  let pieces := split_on 10 bytes in
  map chop_cr (removelast pieces) ++ match List.last pieces [] with [] => [] | tail => [tail] end.

Section callback.
Context {S : Type} (on_record : S -> AuditRecord -> S * result AuditError unit).

(* [crates/rimap-audit/src/reader/mod.rs:316-371] parse_filter_and_dispatch *)
Definition parse_filter_and_dispatch (f : Filter) (line_no : Z) (line : list Z) (is_trailing : bool)
    (st : S) (sum : StreamSummary) : S * StreamSummary * result AuditError unit :=
  match line with
  | [] => (st, sum, Ok tt)
  | _ =>
      match parse_line line with
      | Ok rec =>
          if matches f rec then
            let '(st, r) := on_record st rec in
            match r with
            | Ok _ => (st, mkSummary (matched sum + 1) (skipped_unknown_kind sum), Ok tt)
            | Err e => (st, sum, Err e)
            end
          else (st, sum, Ok tt)
      | Err AParse =>
          match unknown_kind line with
          | Some _ => (st, mkSummary (matched sum) (skipped_unknown_kind sum + 1), Ok tt)
          | None => if is_trailing then (st, sum, Ok tt) else (st, sum, Err (ARead (Some line_no)))
          end
      | Err other => (st, sum, Err other)
      end
  end.

(** [prev] is the buffered line with its number.  A line that is not UTF-8 is
    an error before the buffered one is looked at. *)
(* [crates/rimap-audit/src/reader/mod.rs:276-312] stream_records *)
Fixpoint stream_lines (f : Filter) (lines : list (list Z)) (line_no : Z) (prev : option (Z * list Z))
    (st : S) (sum : StreamSummary) : S * result AuditError StreamSummary :=
  match lines with
  | [] =>
      match prev with
      | Some (prev_no, prev_line) =>
          let '(st, sum, r) := parse_filter_and_dispatch f prev_no prev_line true st sum in
          (st, match r with Ok _ => Ok sum | Err e => Err e end)
      | None => (st, Ok sum)
      end
  | line :: lines =>
      if negb (utf8_valid line) then (st, Err (ARead None))
      else
        match prev with
        | Some (prev_no, prev_line) =>
            let '(st, sum, r) := parse_filter_and_dispatch f prev_no prev_line false st sum in
            match r with
            | Ok _ => stream_lines f lines (line_no + 1) (Some (line_no + 1, line)) st sum
            | Err e => (st, Err e)
            end
        | None => stream_lines f lines (line_no + 1) (Some (line_no + 1, line)) st sum
        end
  end.

(** The file's bytes once opened and locked, or why it was not. *)
(* [crates/rimap-audit/src/reader/mod.rs:261-314] stream_records *)
Definition stream_records (opened : result AuditError (list Z)) (f : Filter) (st : S)
    : S * result AuditError StreamSummary :=
  match opened with
  | Err e => (st, Err e)
  | Ok bytes => stream_lines f (file_lines bytes) 0 None st (mkSummary 0 0)
  end.
End callback.
End reader.

(** ** The merge command *)

(* [crates/rimap-server/src/cli/audit_merge.rs:23-36] RunArgs *)
Record RunArgs := mkRunArgs {
  a_since : option rstr; a_until : option rstr; a_tool : option rstr; a_kind : option rstr;
  a_process : option rstr; a_account : option rstr }.

Inductive MergeError := BadSince (s : rstr) | BadUntil (s : rstr) | Streaming (e : AuditError) | NoteFailed.

Section merge.
Context `{RecordReader}.

Definition parse_bound (bad : rstr -> MergeError) (s : option rstr) : result MergeError (option Z) :=
  match s with
  | None => Ok None
  | Some s => match parse_rfc3339 s with Some t => Ok (Some t) | None => Err (bad s) end
  end.

(* [crates/rimap-server/src/cli/audit_merge.rs:47-66] parse_filter *)
Definition parse_filter (args : RunArgs) : result MergeError Filter :=
  since ← parse_bound BadSince (a_since args);
  until ← parse_bound BadUntil (a_until args);
  mret (mkFilter since until (a_tool args) (a_kind args) (a_process args) (a_account args)).

(** [out_ok n] is whether the write of line [n] to standard output succeeds. *)
(* [crates/rimap-server/src/cli/audit_merge.rs:88-95] run *)
Definition merge_record (out_ok : nat -> bool) (out : list (list Z)) (r : AuditRecord)
    : list (list Z) * result AuditError unit :=
  match to_vec r with
  | None => (out, Err ASerialize)
  | Some line => if out_ok (length out) then (out ++ [line], Ok tt) else (out, Err AWrite)
  end.

(* [crates/rimap-server/src/cli/audit_merge.rs:108-125] report_skipped *)
Definition report_skipped (path : rstr) (sum : StreamSummary) : option rstr :=
  if skipped_unknown_kind sum =? 0 then None
  else Some (lit "warning: skipped " ++ to_decimal (skipped_unknown_kind sum) ++
    lit " record(s) of an unrecognized kind in " ++ path ++
    lit "; they were written by a newer version than this binary, and are not in the output above").

(** The lines on standard output, the note on standard error, the outcome. *)
(* [crates/rimap-server/src/cli/audit_merge.rs:84-99] run *)
Definition merge_run (path : rstr) (opened : result AuditError (list Z)) (args : RunArgs)
    (out_ok : nat -> bool) (note_ok : bool) : list (list Z) * option rstr * result MergeError unit :=
  match parse_filter args with
  | Err e => ([], None, Err e)
  | Ok f =>
      let '(out, r) := stream_records (merge_record out_ok) opened f [] in
      match r with
      | Err e => (out, None, Err (Streaming e))
      | Ok sum =>
          match report_skipped path sum with
          | None => (out, None, Ok tt)
          | Some note => if note_ok then (out, Some note, Ok tt) else (out, None, Err NoteFailed)
          end
      end
  end.
End merge.

(** ** The filter, condition by condition *)

Section filter_spec.
Context `{RecordReader}.

(** A record passes when every condition that is set holds; the tool condition
    asks for a tool record, the account condition lets records without an
    account through. *)
Definition passes (f : Filter) (r : AuditRecord) : Prop :=
  (forall t, since f = Some t -> t <= ts r) /\
  (forall t, until f = Some t -> ts r <= t) /\
  (forall p, f_process f = Some p -> process_str (process_id r) = p) /\
  (forall k, f_kind f = Some k -> kind_of (payload r) = k) /\
  (forall t, f_tool f = Some t -> record_tool (payload r) = Some t) /\
  (forall a, f_account f = Some a -> record_account (payload r) = None \/ record_account (payload r) = Some a).

Lemma if_false_true (c b : bool) : (if c then false else b) = true <-> c = false /\ b = true.
Proof. destruct c; naive_solver. Qed.

(** A condition that is not set holds. *)
Lemma opt_cond {A} (o : option A) (bad : A -> bool) (P : A -> Prop) : (forall a, bad a = false <-> P a) ->
  (match o with Some t => bad t | None => false end) = false <-> forall t, o = Some t -> P t.
Proof. intros Hb. destruct o as [a|]; [rewrite Hb|]; naive_solver. Qed.

Lemma matches_passes f r : matches f r = true <-> passes f r.
Proof.
  unfold matches, passes. rewrite !if_false_true.
  assert (Hb : forall a b, negb (str_eqb a b) = false <-> a = b)
    by (intros; rewrite negb_false_iff; apply str_eqb_eq).
  repeat (apply Morphisms_Prop.and_iff_morphism; [apply opt_cond; intros a; rewrite ?Hb, ?Z.ltb_ge; try done|]).
  - destruct (record_tool (payload r)); rewrite ?Hb; naive_solver.
  - split; [intros [H1 _]; revert H1|intros H1; split; [|done]; revert H1]; apply opt_cond; intros a;
      destruct (record_account (payload r)); rewrite ?Hb; naive_solver.
Qed.
End filter_spec.

(** ** Streaming, line by line *)

Section streaming.
Context `{RecordReader} {S : Type} (on_record : S -> AuditRecord -> S * result AuditError unit).

(** Every line of [lines] in turn, none of them the last of the file. *)
Fixpoint dispatch_all (f : Filter) (n : Z) (lines : list (list Z)) (st : S) (sum : StreamSummary)
    : S * StreamSummary * result AuditError unit :=
  match lines with
  | [] => (st, sum, Ok tt)
  | line :: lines =>
      let '(st, sum, r) := parse_filter_and_dispatch on_record f n line false st sum in
      match r with
      | Ok _ => dispatch_all f (n + 1) lines st sum
      | Err e => (st, sum, Err e)
      end
  end.

Lemma dispatch_all_app f n ls1 ls2 st sum :
  dispatch_all f n (ls1 ++ ls2) st sum =
  let '(st, sum, r) := dispatch_all f n ls1 st sum in
  match r with
  | Ok _ => dispatch_all f (n + Z.of_nat (length ls1)) ls2 st sum
  | Err e => (st, sum, Err e)
  end.
Proof.
  revert n st sum. induction ls1 as [|l ls1 IH]; intros n st sum; [cbn; by rewrite Z.add_0_r|].
  cbn [app dispatch_all]. destruct (parse_filter_and_dispatch _ _ _ _ _ _ _) as [[st1 sum1] [u|e]]; [|done].
  rewrite IH. replace (n + 1 + Z.of_nat (length ls1)) with (n + Z.of_nat (length (l :: ls1))) by (cbn [length]; lia).
  done.
Qed.

(** The lines but the last, then the last as the trailing one. *)
Definition finish (f : Filter) (n : Z) (last_line : list Z) (x : S * StreamSummary * result AuditError unit)
    : S * result AuditError StreamSummary :=
  let '(st, sum, r) := x in
  match r with
  | Ok _ =>
      let '(st, sum, r) := parse_filter_and_dispatch on_record f n last_line true st sum in
      (st, match r with Ok _ => Ok sum | Err e => Err e end)
  | Err e => (st, Err e)
  end.

Lemma stream_prev f ls n l l' st sum : Forall (fun l => utf8_valid l = true) (ls ++ [l']) ->
  stream_lines on_record f (ls ++ [l']) n (Some (n, l)) st sum =
  finish f (n + 1 + Z.of_nat (length ls)) l' (dispatch_all f n (l :: ls) st sum).
Proof.
  revert n l st sum. induction ls as [|l1 ls IH]; intros n l st sum Hu.
  - apply Forall_cons in Hu as [Hu _]. cbn [app stream_lines dispatch_all]. rewrite Hu. cbn [negb].
    destruct (parse_filter_and_dispatch _ _ _ _ _ _ _) as [[st1 sum1] [u|e]]; [|done].
    cbn [length]. unfold finish. by rewrite Z.add_0_r.
  - apply Forall_cons in Hu as [Hu Hus]. cbn [app stream_lines]. rewrite Hu. cbn [negb].
    change (dispatch_all f n (l :: l1 :: ls) st sum) with
      (let '(st, sum, r) := parse_filter_and_dispatch on_record f n l false st sum in
       match r with Ok _ => dispatch_all f (n + 1) (l1 :: ls) st sum | Err e => (st, sum, Err e) end).
    destruct (parse_filter_and_dispatch _ _ _ _ _ _ _) as [[st1 sum1] [u|e]]; [|done].
    rewrite IH by done. f_equal; cbn [length]; lia.
Qed.

Lemma stream_all f ls l' st sum : Forall (fun l => utf8_valid l = true) (ls ++ [l']) ->
  stream_lines on_record f (ls ++ [l']) 0 None st sum =
  finish f (1 + Z.of_nat (length ls)) l' (dispatch_all f 1 ls st sum).
Proof.
  destruct ls as [|l ls]; intros Hu.
  - apply Forall_cons in Hu as [Hu _]. cbn [app stream_lines]. by rewrite Hu.
  - apply Forall_cons in Hu as [Hu Hus]. cbn [app stream_lines]. rewrite Hu. cbn [negb].
    change (0 + 1) with 1. rewrite stream_prev by done. f_equal; cbn [length]; lia.
Qed.
End streaming.

(** ** What a log holds *)

(** A line of a log: a record, a record of a kind this build does not know, or
    nothing. *)
Inductive item := IRecord (r : AuditRecord) | IUnknown | IBlank.

Section contents.
Context `{RecordReader}.

(** A line [lines] gives back whole. *)
Definition plain_line (line : list Z) : Prop := ~ 10 ∈ line /\ last line <> Some 13 /\ utf8_valid line = true.

(** A JSON object whose kind is none of the seven of this build. *)
Definition newer_kind (line : list Z) : Prop :=
  exists m kind, parse_value line = Some (JObj m) /\ jget m (lit "kind") = Some (JStr kind) /\
    ~ kind ∈ [lit "process_start"; lit "process_end"; lit "auth"; lit "tool_start"; lit "tool_end"; lit "config"; lit "folder_policy"].

Lemma unknown_kind_newer line : is_Some (unknown_kind line) <-> newer_kind line.
Proof.
  assert (Hk : forall k, existsb (str_eqb k) KNOWN = false <-> ~ k ∈ KNOWN).
  { intros k. rewrite <- not_true_iff_false, existsb_exists, list_elem_of_In.
    split; [intros Hn Hin; apply Hn; exists k; split; [done|by apply str_eqb_eq]|].
    by intros Hn (x & Hin & ->%str_eqb_eq). }
  unfold unknown_kind, newer_kind. split.
  - intros [k E]. destruct (parse_value line) as [[]|] eqn:Ev; try done.
    destruct (jget _ _) as [[]|] eqn:Ej; try done. destruct (existsb _ _) eqn:Ek; [done|].
    eexists _, _. split; [done|]. split; [exact Ej|]. by apply Hk.
  - intros (m & kind & -> & -> & Hn). apply Hk in Hn. rewrite Hn. by eexists.
Qed.

(** A record's line is what this build's parser makes the record of: the line
    this build writes for it, or that of another version. *)
Definition holds (line : list Z) (i : item) : Prop :=
  match i with
  | IRecord r => plain_line line /\ line <> [] /\ parse_record line = Some r /\ is_Some (to_vec r)
  | IUnknown => plain_line line /\ line <> [] /\ parse_record line = None /\ newer_kind line
  | IBlank => line = []
  end.

(** A line that is none of these. *)
Definition corrupt (line : list Z) : Prop :=
  plain_line line /\ line <> [] /\ parse_record line = None /\ ~ newer_kind line.

Lemma corrupt_unknown line : ~ newer_kind line -> unknown_kind line = None.
Proof. rewrite <- unknown_kind_newer. destruct (unknown_kind line); [|done]. intros Hn. exfalso. apply Hn. by eexists. Qed.

(** A line this build wrote. *)
Lemma written_holds r line : to_vec r = Some line -> line <> [] -> holds line (IRecord r).
Proof.
  intros Hr Hne. split; [by apply (to_vec_line r)|]. split; [done|]. split; [by apply parse_record_to_vec|by exists line].
Qed.

Definition item_record (i : item) : option AuditRecord := match i with IRecord r => Some r | _ => None end.
Definition item_unknown (i : item) : bool := match i with IUnknown => true | _ => false end.

Lemma holds_plain line i : holds line i -> plain_line line.
Proof. destruct i; cbn; [by intros [? _]|by intros [? _]|intros ->; split_and!; [apply not_elem_of_nil|done|done]]. Qed.

#[local] Instance passes_dec f r : Decision (passes f r).
Proof. destruct (matches f r) eqn:E; [left; by apply matches_passes|right; rewrite <- matches_passes; congruence]. Defined.

(** What is printed: the records that pass, as this build serializes them. *)
Definition printed (f : Filter) (items : list item) : list (list Z) :=
  omap (fun i => r ← item_record i; if decide (passes f r) then to_vec r else None) items.

Lemma printed_matches f r : (if decide (passes f r) then to_vec r else None) = if matches f r then to_vec r else None.
Proof.
  pose proof (matches_passes f r). destruct (decide (passes f r)), (matches f r); try done; exfalso; naive_solver.
Qed.

Definition unknown_count (items : list item) : Z := Z.of_nat (length (List.filter item_unknown items)).

(** One line of the log, with every write to standard output succeeding. *)
Lemma merge_item f n line i b out sum : holds line i ->
  parse_filter_and_dispatch (merge_record (fun _ => true)) f n line b out sum =
  (out ++ printed f [i],
   mkSummary (matched sum + Z.of_nat (length (printed f [i]))) (skipped_unknown_kind sum + unknown_count [i]),
   Ok tt).
Proof.
  unfold printed, unknown_count. destruct sum as [m k], i as [r| |]; cbn [holds omap list_omap item_record mbind option_bind].
  - intros (_ & Hne & Hr & [text Hw]). rewrite printed_matches. destruct line as [|b0 line]; [done|].
    unfold parse_filter_and_dispatch, parse_line. rewrite Hr. destruct (matches f r); cbn.
    + unfold merge_record. rewrite Hw. by rewrite !Z.add_0_r.
    + by rewrite app_nil_r, !Z.add_0_r.
  - intros (_ & Hne & Hp & [k' Hk]%unknown_kind_newer). destruct line as [|b0 line]; [done|].
    cbn. unfold parse_filter_and_dispatch, parse_line. rewrite Hp, Hk. cbn.
    by rewrite app_nil_r, Z.add_0_r.
  - intros ->. cbn. by rewrite app_nil_r, !Z.add_0_r.
Qed.

Lemma printed_app f is1 is2 : printed f (is1 ++ is2) = printed f is1 ++ printed f is2.
Proof. apply omap_app. Qed.

Lemma unknown_count_cons i items : unknown_count (i :: items) = unknown_count [i] + unknown_count items.
Proof. unfold unknown_count. cbn [List.filter]. destruct (item_unknown i); cbn [length]; lia. Qed.

Lemma merge_items f lines items : Forall2 holds lines items -> forall n out sum,
  dispatch_all (merge_record (fun _ => true)) f n lines out sum =
  (out ++ printed f items,
   mkSummary (matched sum + Z.of_nat (length (printed f items))) (skipped_unknown_kind sum + unknown_count items),
   Ok tt).
Proof.
  induction 1 as [|line i lines items Hh _ IH]; intros n out sum.
  - cbn. destruct sum. by rewrite app_nil_r, !Z.add_0_r.
  - cbn [dispatch_all]. rewrite (merge_item f n line i false out sum Hh), IH. cbn [matched skipped_unknown_kind].
    rewrite (printed_app f [i] items : printed f (i :: items) = _), (unknown_count_cons i items), length_app, <- app_assoc.
    do 2 f_equal. f_equal; lia.
Qed.

(** A torn tail: nothing, or a corrupt line. *)
Definition torn (tail : list Z) : Prop := tail = [] \/ corrupt tail.

Definition log_bytes (lines : list (list Z)) (tail : list Z) : list Z := concat (map (fun l => l ++ [10]) lines) ++ tail.

Lemma chop_cr_id line : last line <> Some 13 -> chop_cr line = line.
Proof.
  intros Hl. unfold chop_cr. destruct line as [|c line _] using rev_ind; [done|].
  rewrite last_snoc in Hl. rewrite rev_app_distr. cbn [rev app].
  destruct c as [|p|p]; try done. do 4 (destruct p; try done).
Qed.

Lemma file_lines_log lines tail : Forall plain_line lines -> ~ 10 ∈ tail ->
  file_lines (log_bytes lines tail) = lines ++ match tail with [] => [] | _ => [tail] end.
Proof.
  intros Hp Ht. unfold file_lines, log_bytes. rewrite split_lines; [|eapply Forall_impl; [exact Hp|by intros ? [? _]]|done].
  rewrite removelast_last, last_last. assert (map chop_cr lines = lines) as ->; [|by destruct tail].
  induction Hp as [|l lines (_ & Hl & _) _ IH]; [done|]. cbn [map]. by rewrite chop_cr_id, IH.
Qed.

Lemma plain_lines lines items : Forall2 holds lines items -> Forall plain_line lines.
Proof. induction 1; constructor; eauto using holds_plain. Qed.

Lemma plain_utf8 lines : Forall plain_line lines -> Forall (fun l => utf8_valid l = true) lines.
Proof. intros Hp. eapply Forall_impl; [exact Hp|by intros ? (_ & _ & ?)]. Qed.

Lemma unknown_count_app is1 is2 : unknown_count (is1 ++ is2) = unknown_count is1 + unknown_count is2.
Proof. unfold unknown_count. rewrite List.filter_app, length_app. lia. Qed.

(** The whole file. *)
Lemma stream_log f lines items tail : Forall2 holds lines items -> torn tail ->
  stream_records (merge_record (fun _ => true)) (Ok (log_bytes lines tail)) f [] =
  (printed f items, Ok (mkSummary (Z.of_nat (length (printed f items))) (unknown_count items))).
Proof.
  intros Hh Ht. assert (Hp := plain_lines _ _ Hh). unfold stream_records.
  rewrite file_lines_log; [|done|destruct Ht as [->|[[? _] _]]; [apply not_elem_of_nil|done]].
  destruct Ht as [->|(Hpt & Hne & Hparse & Hk%corrupt_unknown)].
  - rewrite app_nil_r. destruct lines as [|line lines _] using rev_ind; [by apply Forall2_nil_inv_l in Hh as ->|].
    rewrite stream_all by by apply plain_utf8.
    apply Forall2_app_inv_l in Hh as (items1 & items2 & H1 & H2 & ->).
    apply Forall2_cons_inv_l in H2 as (i & items3 & Hi & H3 & ->). apply Forall2_nil_inv_l in H3 as ->.
    rewrite (merge_items f lines items1 H1). cbn [finish]. rewrite (merge_item f _ line i true _ _ Hi).
    cbn [app matched skipped_unknown_kind]. rewrite !Z.add_0_l, unknown_count_app, printed_app, length_app, Nat2Z.inj_add. done.
  - destruct tail as [|b tail]; [done|].
    rewrite stream_all by (apply plain_utf8, Forall_app_2; [done|by apply Forall_singleton]).
    rewrite (merge_items f lines items Hh). unfold finish, parse_filter_and_dispatch, parse_line. by rewrite Hparse, Hk.
Qed.

(** A corrupt line that is not the last. *)
Lemma stream_corrupt f lines items bad rest tail : Forall2 holds lines items -> corrupt bad ->
  Forall plain_line rest -> plain_line tail -> rest <> [] \/ tail <> [] ->
  stream_records (merge_record (fun _ => true)) (Ok (log_bytes (lines ++ bad :: rest) tail)) f [] =
  (printed f items, Err (ARead (Some (1 + Z.of_nat (length lines))))).
Proof.
  intros Hh (Hpb & Hne & Hparse & Hk%corrupt_unknown) Hrest Htail Hmore. assert (Hp := plain_lines _ _ Hh). unfold stream_records.
  assert (Hall : Forall plain_line (lines ++ bad :: rest)) by (apply Forall_app_2; [done|by constructor]).
  rewrite file_lines_log by (done || apply Htail).
  assert (Hls : exists mid l, (lines ++ bad :: rest) ++ match tail with [] => [] | _ => [tail] end = (lines ++ bad :: mid) ++ [l]
    /\ Forall plain_line ((lines ++ bad :: mid) ++ [l])).
  { destruct tail as [|b tail].
    - destruct rest as [|l rest _] using rev_ind; [by destruct Hmore|]. exists rest, l.
      rewrite app_nil_r, app_comm_cons, app_assoc in *. done.
    - exists rest, (b :: tail). split; [done|]. apply Forall_app_2; [done|by apply Forall_singleton]. }
  destruct Hls as (mid & l & -> & Hpl).
  rewrite stream_all by by apply plain_utf8. rewrite dispatch_all_app, (merge_items f lines items Hh).
  cbn [dispatch_all]. destruct bad as [|b0 bad]; [done|].
  unfold parse_filter_and_dispatch, parse_line. by rewrite Hparse, Hk.
Qed.
End contents.

(** ** Properties *)

Section properties.
Context `{RecordReader}.


(** Corruption is not read past.  A line that is neither a record, nor a
    record of an unknown kind, nor the last of the file, stops the merge with
    an error that names its number, after the records before it have been
    printed; so every merge of a log in which a torn line was followed by
    another record fails. *)
Theorem corruption_reported path args f lines items bad rest tail : parse_filter args = Ok f ->
  Forall2 holds lines items -> corrupt bad ->
  Forall plain_line rest -> plain_line tail -> rest <> [] \/ tail <> [] ->
  merge_run path (Ok (log_bytes (lines ++ bad :: rest) tail)) args (fun _ => true) true =
  (printed f items, None, Err (Streaming (ARead (Some (1 + Z.of_nat (length lines)))))).
Proof.
  intros Hf Hh Hb Hr Ht Hm. unfold merge_run. by rewrite Hf, (stream_corrupt f lines items bad rest tail).
Qed.
End properties.

(** ** A concrete serializer *)

(** Bare [config] records as three comma-separated numbers; those of another
    version have two more. *)
Definition brief (r : AuditRecord) : list rstr := [show_z (seq r); show_z (ts r); show_z (process_id r)].
Definition brief_record (a b c : rstr) : AuditRecord :=
  mkAuditRecord (read_z a) (read_z b) (read_z c) (PConfig (mkConfigEvent [] [])).
Definition is_brief (r : AuditRecord) : bool :=
  match payload r with PConfig (mkConfigEvent [] []) => true | _ => false end.

Lemma brief_plain r c : is_ascii_digit c = false -> Forall (fun p => ~ c ∈ p) (brief r).
Proof. intros Hd. unfold brief. repeat apply List.Forall_cons; try by apply show_z_no. constructor. Qed.

Lemma brief_bytes r c : c ∈ join [44] (brief r) -> is_ascii_digit c = true \/ c = 44.
Proof.
  destruct (is_ascii_digit c) eqn:E; [by left|]. assert (Hp := brief_plain r c E). unfold brief in *.
  rewrite !Forall_cons in Hp. cbn [join]. rewrite !elem_of_app, !list_elem_of_singleton. naive_solver.
Qed.

#[local] Instance brief_json : RecordJson.
Proof.
  refine {| to_vec := fun r => if is_brief r then Some (join [44] (brief r)) else None;
            parse_envelope := fun s => match split_on 44 s with
              | [a; b; c] => Some (mkTail (read_z a) (read_z c) (lit "config") None)
              | _ => None
              end |}.
  - intros r bs Hbs. destruct (is_brief r); [|done]. apply (inj Some) in Hbs as <-. split_and!.
    + intros Hin. by destruct (brief_bytes r 10 Hin).
    + intros Hl. apply last_Some in Hl as [l' Hl]. destruct (brief_bytes r 13); [|done..]. rewrite Hl. apply elem_of_app; right; by left.
    + apply utf8_valid_ascii, Forall_forall. intros c Hc. apply brief_bytes in Hc as [Hc| ->]; [|lia].
      unfold is_ascii_digit, between in Hc. zify_bool. lia.
  - intros r bs Hbs. destruct (is_brief r) eqn:Eb; [|done]. apply (inj Some) in Hbs as <-.
    rewrite split_join; [|done|by apply brief_plain]. unfold brief, envelope_of. rewrite !read_show_z.
    unfold is_brief in Eb. destruct (payload r) as [| | | | |[[] []]|]; done.
Defined.

#[local] Instance brief_reader : RecordReader.
Proof.
  refine {| parse_record := fun s => match split_on 44 s with
              | [a; b; c] | [a; b; c; _; _] => Some (brief_record a b c)
              | _ => None
              end;
            parse_value := fun s => if str_eqb s (lit "{new}") then Some (JObj [(lit "kind", JStr (lit "quota"))]) else None;
            process_str := show_z; parse_rfc3339 := fun s => Some (read_z s) |}.
  intros r bs Hbs. change (to_vec r) with (if is_brief r then Some (join [44] (brief r)) else None) in Hbs.
  destruct (is_brief r) eqn:Eb; [|done]. apply (inj Some) in Hbs as <-.
  rewrite split_join; [|done|by apply brief_plain]. unfold brief, brief_record. rewrite !read_show_z. f_equal.
  unfold is_brief in Eb. destruct r as [s t p [| | | | |[[] []]|]]; done.
Defined.

Definition brief_of (n t : Z) : AuditRecord := mkAuditRecord n t 77 (PConfig (mkConfigEvent [] [])).
Definition brief_line (n t : Z) : list Z := join [44] (brief (brief_of n t)).
Definition brief_items : list item := [IRecord (brief_of 1 100); IUnknown; IRecord (brief_of 2 200); IBlank].
Definition brief_lines : list (list Z) := [brief_line 1 100; lit "{new}"; brief_line 2 200 ++ lit ",5,6"; []].
Definition since_150 : RunArgs := mkRunArgs (Some (show_z 150)) None None None None None.

Lemma plain_lit line : forallb (fun c => (0 <=? c) && (c <? 128) && negb (c =? 10) && negb (c =? 13)) line = true -> plain_line line.
Proof.
  rewrite forallb_forall. intros Hc.
  assert (Hin : forall c, c ∈ line -> 0 <= c < 128 /\ c <> 10 /\ c <> 13).
  { intros c Hin. apply list_elem_of_In, Hc in Hin. zify_bool. lia. }
  split_and!.
  - intros Hl. apply Hin in Hl. lia.
  - intros Hl%last_Some_elem_of. apply Hin in Hl. lia.
  - apply utf8_valid_ascii, Forall_forall. intros c Hl. apply Hin in Hl. lia.
Qed.

Lemma brief_holds : Forall2 holds brief_lines brief_items.
Proof.
  apply List.Forall2_cons; [apply written_holds; [vm_compute; reflexivity|discriminate]|].
  apply List.Forall2_cons.
  { split; [apply plain_lit; vm_compute; reflexivity|]. split; [discriminate|]. split; [vm_compute; reflexivity|].
    apply unknown_kind_newer. by eexists. }
  apply List.Forall2_cons.
  { split; [apply plain_lit; vm_compute; reflexivity|]. split; [discriminate|]. split; [vm_compute; reflexivity|].
    by eexists. }
  apply List.Forall2_cons; [reflexivity|apply List.Forall2_nil].
Qed.

Lemma corrupt_lit line : forallb (fun c => (0 <=? c) && (c <? 128) && negb (c =? 10) && negb (c =? 13)) line = true ->
  line <> [] -> parse_record line = None -> unknown_kind line = None -> corrupt line.
Proof.
  intros Hp Hne Hr Hk. split; [by apply plain_lit|]. split; [done|]. split; [done|].
  rewrite <- unknown_kind_newer, Hk. by intros [? [=]].
Qed.

Lemma torn_restart_corrupt : corrupt (lit "3,7" ++ brief_line 3 300).
Proof. apply corrupt_lit; [vm_compute; reflexivity|discriminate|vm_compute; reflexivity..]. Qed.

Lemma torn_brief : torn (lit "3,7").
Proof. right. apply corrupt_lit; [vm_compute; reflexivity|discriminate|vm_compute; reflexivity..]. Qed.


(** A process killed in the middle of a record, restarted: the restarted
    process's first record continues the torn line. *)
Lemma corruption_reported_witness :
  merge_run (lit "audit.jsonl") (Ok (log_bytes (brief_lines ++ [lit "3,7" ++ brief_line 3 300; brief_line 4 400]) []))
    since_150 (fun _ => true) true =
  ([brief_line 2 200], None, Err (Streaming (ARead (Some 5)))).
Proof.
  assert (Hf : parse_filter since_150 = Ok (mkFilter (Some 150) None None None None None)) by (vm_compute; reflexivity).
  assert (Hr : Forall plain_line [brief_line 4 400]).
  { apply Forall_singleton, plain_lit. vm_compute. reflexivity. }
  assert (Hn : plain_line []) by (split_and!; [apply not_elem_of_nil|done|done]).
  assert (Hm : [brief_line 4 400] <> [] \/ ([] : list Z) <> []) by (left; discriminate).
  etransitivity.
  - exact (corruption_reported (lit "audit.jsonl") since_150 _ brief_lines brief_items _ [brief_line 4 400] []
      Hf brief_holds torn_restart_corrupt Hr Hn Hm).
  - vm_compute. reflexivity.
Defined.
