(* ===== verification/Mbox.v ===== *)
(** * The mboxrd encoder of the export tool

    [crates/rimap-server/src/tools/retrieval/mbox.rs]: the framing of raw
    messages, the escape of lines that would read as separators, and a reader
    of the format against which the encoder is proved. *)

From Stdlib Require Import ZArith Lia.
From stdpp Require Import base option list numbers strings sets.
From S2P Require Import Prelude.
From S2P Require Import RustStr.
Local Open Scope Z_scope.

(** ** The encoder *)

(* [crates/rimap-server/src/tools/retrieval/mbox.rs:11-11] MBOX_SEPARATOR *)
Definition MBOX_SEPARATOR : list Z :=
  lit "From mboxrd@rusty-imap-mcp Thu Jan  1 00:00:00 1970" ++ [10].

(* [crates/rimap-server/src/tools/retrieval/mbox.rs:93-99] line_is_from *)
Definition line_is_from (line : list Z) : bool := starts_with (lit "From ") (drop_while (Z.eqb 62) line).

(* [crates/rimap-server/src/tools/retrieval/mbox.rs:84-89] write_mbox_line *)
Definition write_mbox_line (out line : list Z) : list Z :=
  (if line_is_from line then out ++ [62] else out) ++ line.

(** [cur] is [msg[line_start..i]]. *)
(* [crates/rimap-server/src/tools/retrieval/mbox.rs:64-81] escape_from_lines_into *)
Fixpoint escape_loop (out cur rest : list Z) : list Z :=
  match rest with
  | [] => match cur with [] => out | _ => write_mbox_line out cur end
  | b :: rest =>
      if b =? 10 then escape_loop (write_mbox_line out (cur ++ [b])) [] rest
      else escape_loop out (cur ++ [b]) rest
  end.

(* [crates/rimap-server/src/tools/retrieval/mbox.rs:64-81] escape_from_lines_into *)
Definition escape_from_lines_into (out msg : list Z) : list Z := escape_loop out [] msg.

(* [crates/rimap-server/src/tools/retrieval/mbox.rs:42-46] build_mbox *)
Definition end_line (out : list Z) : list Z :=
  match last out with
  | Some b => if b =? 10 then out else out ++ [10]
  | None => out
  end.

(** The capacity reserved beforehand is not observable. *)
(* [crates/rimap-server/src/tools/retrieval/mbox.rs:27-61] build_mbox *)
Definition build_mbox (messages : list (list Z)) : list Z :=
  end_line (fold_left (fun out msg => escape_from_lines_into (end_line out ++ MBOX_SEPARATOR) msg) messages []).

(** ** A reader of mboxrd

    A line that begins with "From " starts a message; in the other lines one
    ">" is taken off ">From ", ">>From " and so on. *)

(** The lines of a text, each with its LF; the last may lack one. *)
Fixpoint keep_lines_loop (cur rest : list Z) : list (list Z) :=
  match rest with
  | [] => match cur with [] => [] | _ => [cur] end
  | b :: rest => if b =? 10 then (cur ++ [b]) :: keep_lines_loop [] rest else keep_lines_loop (cur ++ [b]) rest
  end.

Definition keep_lines : list Z -> list (list Z) := keep_lines_loop [].

Definition unescape_line (line : list Z) : list Z :=
  if starts_with [62] line && line_is_from line then tail line else line.

Fixpoint read_lines (lines : list (list Z)) (cur : option (list Z)) : list (list Z) :=
  match lines with
  | [] => option_list cur
  | l :: ls =>
      if starts_with (lit "From ") l then option_list cur ++ read_lines ls (Some [])
      else read_lines ls (match cur with Some c => Some (c ++ unescape_line l) | None => None end)
  end.

Definition read_mbox (mbox : list Z) : list (list Z) := read_lines (keep_lines mbox) None.

(** ** Lines *)

Definition escape_line (line : list Z) : list Z := if line_is_from line then 62 :: line else line.

(** A line with its LF and no other. *)
Definition whole_line (l : list Z) : Prop := exists body, l = body ++ [10] /\ ~ 10 ∈ body.

Lemma write_mbox_line_app out line : write_mbox_line out line = out ++ escape_line line.
Proof. unfold write_mbox_line, escape_line. destruct (line_is_from line); [by rewrite <- app_assoc|done]. Qed.

Lemma escape_loop_lines rest : forall out cur,
  escape_loop out cur rest = out ++ concat (map escape_line (keep_lines_loop cur rest)).
Proof.
  induction rest as [|b rest IH]; intros out cur; cbn [escape_loop keep_lines_loop].
  - destruct cur; cbn [map concat]; [by rewrite app_nil_r|]. by rewrite write_mbox_line_app, app_nil_r.
  - destruct (b =? 10); rewrite IH; [|done]. cbn [map concat]. by rewrite write_mbox_line_app, <- app_assoc.
Qed.

Lemma escape_lines out msg : escape_from_lines_into out msg = out ++ concat (map escape_line (keep_lines msg)).
Proof. apply escape_loop_lines. Qed.

Lemma keep_lines_loop_app a : forall cur b, last (cur ++ a) = None \/ last (cur ++ a) = Some 10 -> a <> [] ->
  keep_lines_loop cur (a ++ b) = keep_lines_loop cur a ++ keep_lines b.
Proof.
  induction a as [|x a IH]; [done|]. intros cur b Hl _. cbn [app keep_lines_loop].
  replace (cur ++ x :: a) with ((cur ++ [x]) ++ a) in Hl by (by rewrite <- app_assoc).
  destruct (decide (a = [])) as [->|Ha].
  - rewrite app_nil_r, last_snoc in Hl. destruct Hl as [|[= ->]]; [done|]. done.
  - destruct (x =? 10) eqn:E; [|by apply IH]. cbn [app]. f_equal. apply IH; [|done].
    rewrite last_app in Hl. cbn [app]. destruct (last a) eqn:El; [done|].
    by apply last_None in El.
Qed.

Lemma keep_lines_app a b : a = [] \/ last a = Some 10 -> keep_lines (a ++ b) = keep_lines a ++ keep_lines b.
Proof.
  intros [->|H]; [done|]. apply keep_lines_loop_app; [by right|]. by intros ->.
Qed.

Lemma keep_lines_loop_plain body : forall cur, ~ 10 ∈ body -> keep_lines_loop cur (body ++ [10]) = [cur ++ body ++ [10]].
Proof.
  induction body as [|b body IH]; intros cur H; cbn [app keep_lines_loop].
  - done.
  - apply not_elem_of_cons in H as [H1 H2]. rewrite (proj2 (Z.eqb_neq b 10)) by congruence.
    rewrite IH by done. by rewrite <- app_assoc.
Qed.

Lemma keep_lines_concat ls : Forall whole_line ls -> keep_lines (concat ls) = ls.
Proof.
  induction 1 as [|l ls (body & -> & H) _ IH]; [done|]. cbn [concat].
  rewrite keep_lines_app by (right; apply last_snoc). rewrite IH. unfold keep_lines.
  by rewrite keep_lines_loop_plain.
Qed.

Lemma keep_lines_tail t : ~ 10 ∈ t -> keep_lines t = match t with [] => [] | _ => [t] end.
Proof.
  enough (H : forall cur, ~ 10 ∈ t -> keep_lines_loop cur t = match cur ++ t with [] => [] | _ => [cur ++ t] end).
  { apply (H []). }
  induction t as [|b t IH]; intros cur H; cbn [keep_lines_loop].
  - by rewrite app_nil_r.
  - apply not_elem_of_cons in H as [H1 H2]. rewrite (proj2 (Z.eqb_neq b 10)) by congruence.
    rewrite IH by done. by rewrite <- app_assoc.
Qed.

Lemma concat_whole_last ls : Forall whole_line ls -> concat ls = [] \/ last (concat ls) = Some 10.
Proof.
  induction 1 as [|l ls (body & -> & _) _ [IH|IH]]; [by left| |]; cbn [concat]; right.
  - rewrite IH, app_nil_r. apply last_snoc.
  - by rewrite last_app, IH.
Qed.

Lemma lines_and_tail m : exists ls t, m = concat ls ++ t /\ Forall whole_line ls /\ ~ 10 ∈ t.
Proof.
  induction m as [|b m (ls & t & -> & Hl & Ht)]; [exists [], []; split_and!; [done|done|set_solver]|].
  destruct (decide (b = 10)) as [->|Hb].
  - exists ([10] :: ls), t. split_and!; [done| |done]. constructor; [exists []; split; [done|set_solver]|done].
  - destruct Hl as [|l ls (body & -> & H) Hl].
    + exists [], (b :: t). split_and!; [done|done|set_solver].
    + exists ((b :: body ++ [10]) :: ls), t. split_and!; [done| |done].
      constructor; [exists (b :: body); split; [done|set_solver]|done].
Qed.

Lemma keep_lines_and_tail ls t : Forall whole_line ls -> ~ 10 ∈ t ->
  keep_lines (concat ls ++ t) = ls ++ match t with [] => [] | _ => [t] end.
Proof.
  intros Hl Ht. by rewrite keep_lines_app, keep_lines_concat, keep_lines_tail by auto using concat_whole_last.
Qed.

(** ** Escaping *)

Lemma starts_with_app p a b : ~ 10 ∈ p -> starts_with p (a ++ 10 :: b) = starts_with p a.
Proof.
  unfold starts_with. revert a. induction p as [|c p IH]; intros a H; [done|].
  apply not_elem_of_cons in H as [H1 H2]. destruct a as [|x a]; cbn.
  - by rewrite (proj2 (Z.eqb_neq c 10)) by congruence.
  - destruct (c =? x); [by apply IH|done].
Qed.

Lemma drop_while_gt_app a b : drop_while (Z.eqb 62) (a ++ 10 :: b) = drop_while (Z.eqb 62) a ++ 10 :: b.
Proof. induction a as [|x a IH]; [done|]. cbn [app drop_while]. by destruct (62 =? x). Qed.

Lemma line_is_from_app a b : line_is_from (a ++ 10 :: b) = line_is_from a.
Proof. unfold line_is_from. rewrite drop_while_gt_app. apply starts_with_app. vm_compute. set_solver. Qed.

Lemma escape_line_whole l : whole_line l -> whole_line (escape_line l).
Proof.
  intros (body & -> & H). unfold escape_line. destruct (line_is_from _); [|by exists body].
  exists (62 :: body). split; [done|]. set_solver.
Qed.

Lemma escape_not_from l : starts_with (lit "From ") (escape_line l) = false.
Proof.
  unfold escape_line. destruct (line_is_from l) eqn:E; [done|].
  destruct l as [|b l]; [done|]. unfold line_is_from in E. cbn [drop_while] in E.
  destruct (Z.eqb_spec 62 b) as [<-|]; [done|exact E].
Qed.

Lemma unescape_escape l : unescape_line (escape_line l) = l.
Proof.
  unfold unescape_line, escape_line. destruct (line_is_from l) eqn:E.
  - replace (line_is_from (62 :: l)) with (line_is_from l) by done. by rewrite E.
  - by rewrite E, andb_false_r.
Qed.

Lemma read_escaped ls : forall c rest,
  read_lines (map escape_line ls ++ rest) (Some c) = read_lines rest (Some (c ++ concat ls)).
Proof.
  induction ls as [|l ls IH]; intros c rest; cbn [map app read_lines concat]; [by rewrite app_nil_r|].
  rewrite escape_not_from, unescape_escape, IH. by rewrite <- app_assoc.
Qed.

(** ** Frames *)

Lemma end_line_app a b : b <> [] -> end_line (a ++ b) = a ++ end_line b.
Proof.
  intros H. unfold end_line. rewrite last_app. destruct (last b) eqn:E; [|by apply last_None in E].
  destruct (_ =? 10); [done|]. by rewrite app_assoc.
Qed.

Lemma end_line_last s : last (end_line s) = None \/ last (end_line s) = Some 10.
Proof.
  unfold end_line. destruct (last s) as [b|] eqn:E; [|by left].
  destruct (Z.eqb_spec b 10) as [->|]; [by right|]. right. apply last_snoc.
Qed.

Lemma end_line_and_tail ls t : Forall whole_line ls -> ~ 10 ∈ t ->
  end_line (concat ls ++ t) = concat (ls ++ match t with [] => [] | _ => [t ++ [10]] end).
Proof.
  intros Hl Ht. rewrite concat_app. destruct t as [|b t].
  - rewrite !app_nil_r. unfold end_line. destruct (concat_whole_last ls Hl) as [->|E]; [done|by rewrite E].
  - rewrite end_line_app by done. f_equal. cbn [concat]. rewrite app_nil_r. unfold end_line.
    destruct (last (b :: t)) as [x|] eqn:E; [|by apply last_None in E].
    rewrite (proj2 (Z.eqb_neq x 10)); [done|]. intros ->. destruct Ht. by apply last_Some_elem_of.
Qed.

(** Ending a message with LF and escaping it commute. *)
Lemma end_line_escape m :
  end_line (concat (map escape_line (keep_lines m))) = concat (map escape_line (keep_lines (end_line m))) /\
  Forall whole_line (keep_lines (end_line m)) /\ concat (keep_lines (end_line m)) = end_line m.
Proof.
  destruct (lines_and_tail m) as (ls & t & -> & Hl & Ht).
  rewrite end_line_and_tail, keep_lines_and_tail by done.
  assert (Hw : Forall whole_line (ls ++ match t with [] => [] | _ => [t ++ [10]] end)).
  { apply Forall_app. split; [done|]. destruct t as [|b t]; [done|].
    constructor; [by exists (b :: t)|done]. }
  rewrite keep_lines_concat by done. split; [|done].
  assert (He : Forall whole_line (map escape_line ls)).
  { rewrite Forall_fmap. eapply Forall_impl; [exact Hl|]. apply escape_line_whole. }
  rewrite !map_app, concat_app. destruct t as [|b t]; cbn [map concat].
  - by apply (end_line_and_tail _ []); [|set_solver].
  - rewrite app_nil_r. unfold escape_line at 2 4. change ((b :: t) ++ [10]) with (b :: t ++ [10]).
    change (b :: t ++ [10]) with ((b :: t) ++ 10 :: []). rewrite line_is_from_app.
    destruct (line_is_from (b :: t)); [apply (end_line_and_tail _ (62 :: b :: t)) | apply (end_line_and_tail _ (b :: t))];
      (done || set_solver).
Qed.

Definition frame (msg : list Z) : list Z :=
  MBOX_SEPARATOR ++ concat (map escape_line (keep_lines (end_line msg))).

Lemma build_frames msgs : build_mbox msgs = concat (map frame msgs).
Proof.
  unfold build_mbox. enough (H : forall acc, end_line (fold_left (fun out msg =>
      escape_from_lines_into (end_line out ++ MBOX_SEPARATOR) msg) msgs acc) = end_line acc ++ concat (map frame msgs)).
  { by rewrite H. }
  induction msgs as [|m msgs IH]; intros acc; cbn [fold_left map concat]; [by rewrite app_nil_r|].
  rewrite IH, escape_lines, app_assoc. f_equal. rewrite <- app_assoc, end_line_app by done. f_equal.
  unfold frame. rewrite <- (proj1 (end_line_escape m)).
  destruct (concat (map _ (keep_lines m))) as [|b s]; [by vm_compute|]. by rewrite end_line_app.
Qed.

Lemma separator_line : whole_line MBOX_SEPARATOR.
Proof. exists (lit "From mboxrd@rusty-imap-mcp Thu Jan  1 00:00:00 1970"). split; [done|]. vm_compute. set_solver. Qed.

Lemma frame_lines msg : keep_lines (frame msg) = MBOX_SEPARATOR :: map escape_line (keep_lines (end_line msg)).
Proof.
  destruct (end_line_escape msg) as (_ & Hw & _). apply (keep_lines_concat (_ :: _)).
  constructor; [apply separator_line|]. rewrite Forall_fmap. eapply Forall_impl; [exact Hw|]. apply escape_line_whole.
Qed.

Lemma frames_lines msgs : keep_lines (concat (map frame msgs)) =
  concat (map (fun m => MBOX_SEPARATOR :: map escape_line (keep_lines (end_line m))) msgs).
Proof.
  induction msgs as [|m msgs IH]; [done|]. cbn [map concat].
  rewrite keep_lines_app, IH, frame_lines; [done|]. right.
  unfold frame. rewrite last_app. destruct (end_line_escape m) as (E & _). rewrite <- E.
  destruct (end_line_last (concat (map escape_line (keep_lines m)))) as [-> | ->]; done.
Qed.

Lemma read_build messages : read_mbox (build_mbox messages) = map end_line messages.
Proof.
  unfold read_mbox. rewrite build_frames, frames_lines.
  enough (H : forall cur, read_lines (concat (map (fun m => MBOX_SEPARATOR :: map escape_line (keep_lines (end_line m)))
      messages)) cur = option_list cur ++ map end_line messages) by apply (H None).
  induction messages as [|m ms IH]; intros cur; cbn [map concat]; [by rewrite app_nil_r|].
  cbn [app read_lines]. replace (starts_with (lit "From ") MBOX_SEPARATOR) with true by (by vm_compute).
  f_equal. rewrite read_escaped, IH. destruct (end_line_escape m) as (_ & _ & ->). done.
Qed.

(** C30: The mbox the export writes frames every message exactly, whatever the
    messages contain: a reader that starts a message at each line beginning
    with "From " and removes one quoting ">" finds one message per input, in
    order, each equal to the input up to the LF that is added when the input
    does not end with one. No message can end itself or start another. *)
Theorem mbox_roundtrip messages : read_mbox (build_mbox messages) = map end_line messages.
Proof. apply read_build. Qed.

Example read_hostile : read_mbox (build_mbox [lit "a" ++ [10] ++ MBOX_SEPARATOR ++ lit ">From b"; lit "c" ++ [10]])
  = [lit "a" ++ [10] ++ MBOX_SEPARATOR ++ lit ">From b" ++ [10]; lit "c" ++ [10]].
Proof. vm_compute. reflexivity. Qed.
