(* ===== verification/Sandbox.v ===== *)
(** * The download sandbox (crates/rimap-server/src/tools/retrieval/sandbox.rs)

    Paths are texts; their components and file names are computed as [std::path]
    does on Unix.  The directory held open is the state; what the system and
    other processes do during one call is a record: which calls fail, and
    which entries appear before each attempt to place the file. *)

From Stdlib Require Import ZArith Lia.
From stdpp Require Import base option list numbers strings gmap.
From S2P Require Import Prelude.
From S2P Require Import RustStr.
From S2P Require Import Errors.
Local Open Scope Z_scope.

(** ** [std::path] *)

Inductive component := RootDir | CurDir | ParentDir | Normal (name : rstr).
#[export] Instance component_eq_dec : EqDecision component.
Proof. solve_decision. Defined.

(** Empty and "." pieces between separators are no components. *)
Definition piece_component (piece : rstr) : option component :=
  if str_eqb piece [] || str_eqb piece (lit ".") then None
  else if str_eqb piece (lit "..") then Some ParentDir else Some (Normal piece).

Definition components (p : rstr) : list component :=
  match split_on 47 p with
  | [] => []
  | first :: rest =>
      (match rest with
       | [] => if str_eqb first (lit ".") then [CurDir] else option_list (piece_component first)
       | _ => if str_eqb first [] then [RootDir] else
              if str_eqb first (lit ".") then [CurDir] else option_list (piece_component first)
       end) ++ omap piece_component rest
  end.

Definition path_file_name (p : rstr) : option rstr :=
  match last (components p) with Some (Normal n) => Some n | _ => None end.

Fixpoint drop_empty_pieces (pieces : list rstr) : list rstr :=
  match pieces with
  | [] => []
  | p :: ps => if bool_decide (piece_component p = None) then drop_empty_pieces ps else pieces
  end.

Definition path_parent (p : rstr) : option rstr :=
  match split_on 47 p with
  | [] => None
  | first :: rest =>
      match drop_empty_pieces (rev rest) with
      | _ :: before =>
          let before := rev (drop_empty_pieces before) in
          Some (if str_eqb first [] then 47 :: join [47] before else join [47] (first :: before))
      | [] => if str_eqb first [] then None else Some []
      end
  end.

(** The file name split at its last dot; a name that begins with its only dot
    has no extension. *)
Definition split_file_at_dot (file : rstr) : option rstr * option rstr :=
  if str_eqb file (lit "..") then (Some file, None)
  else match rsplit_once 46 file with
  | Some ([], _) => (Some file, None)
  | Some (before, after) => (Some before, Some after)
  | None => (None, Some file)
  end.

Definition path_file_stem (p : rstr) : option rstr :=
  file ← path_file_name p;
  let '(before, after) := split_file_at_dot file in
  match before with Some _ => before | None => after end.

Definition path_extension (p : rstr) : option rstr :=
  file ← path_file_name p;
  let '(before, after) := split_file_at_dot file in
  match before with Some _ => after | None => None end.

Definition path_join (base p : rstr) : rstr :=
  if starts_with [47] p then p
  else if str_eqb base [] || ends_with [47] base then base ++ p else base ++ [47] ++ p.

Definition path_starts_with (p base : rstr) : bool :=
  bool_decide (components base `prefix_of` components p).

(** ** Directories *)

Inductive entry := RegularFile (data : list Z) | Symlink (target : rstr) | OtherEntry.
#[export] Instance entry_eq_dec : EqDecision entry.
Proof. solve_decision. Defined.

Abbreviation dir := (gmap rstr entry).

(* [crates/rimap-server/src/tools/retrieval/sandbox.rs:25-28] DestDir *)
Record DestDir := mkDestDir { canonical : rstr }.

(** What the system answers for path names. *)
Record system := mkSystem {
  canonicalize : rstr -> result rstr rstr;
  open_ambient_dir : rstr -> bool }.

(* [crates/rimap-server/src/tools/retrieval/sandbox.rs:53-85] resolve_dest_dir *)
Definition resolve_dest_dir (sys : system) (dest_dir : option rstr) (allowed_root fallback_dir : rstr)
    : result RimapError DestDir :=
  dir_path ← (match dest_dir with
    | Some d =>
        c ← map_err (fun e => invalid_input (lit "cannot resolve dest_dir: " ++ e)) (canonicalize sys d);
        if path_starts_with c allowed_root then Ok c
        else Err (invalid_input (lit "dest_dir is outside allowed download directory"))
    | None => Ok fallback_dir
    end);
  if open_ambient_dir sys dir_path then Ok (mkDestDir dir_path)
  else Err (RInternalSourced (lit "failed to open download directory")).

(** The spawned task's panic is left out. *)
(* [crates/rimap-server/src/tools/retrieval/sandbox.rs:416-423] resolve_dest_dir_async *)
Definition resolve_dest_dir_async (sys : system) (dest_dir : option rstr) (root : rstr) : result RimapError DestDir :=
  resolve_dest_dir sys dest_dir root root.

(* [crates/rimap-server/src/tools/retrieval/sandbox.rs:199-208] candidate_name *)
Definition candidate_name (safe_name stem : rstr) (ext : option rstr) (counter : Z) : rstr :=
  if counter =? 0 then safe_name
  else match ext with
  | Some e => stem ++ lit "_" ++ to_decimal counter ++ lit "." ++ e
  | None => stem ++ lit "_" ++ to_decimal counter
  end.

(** What happens around one write: the failures (of the write itself with what
    it left in the file), and the entries other processes add before the
    attempt with a given counter. *)
Record write_world := mkWriteWorld {
  create_fails : bool;
  write_fails : option (list Z);
  unlink_fails : bool;
  link_error : Z -> bool;
  raced : Z -> dir }.

(** The names of a file: the safe name, its stem, its extension. *)
(* [crates/rimap-server/src/tools/retrieval/sandbox.rs:122-131] write_attachment *)
Definition safe_parts (filename : rstr) : rstr * rstr * option rstr :=
  let safe_name := default (lit "attachment") (path_file_name filename) in
  (safe_name, default (lit "attachment") (path_file_stem safe_name), path_extension safe_name).

Section write.
Context (w : write_world) (tmp_name : rstr).

Definition remove_file (d : dir) : dir := if unlink_fails w then d else delete tmp_name d.

(** One round per attempt; the counter stops the loop before the fuel does. *)
(* [crates/rimap-server/src/tools/retrieval/sandbox.rs:156-194] write_attachment *)
Fixpoint place (candidate : Z -> rstr) (fuel : nat) (counter : Z) (d : dir) : dir * result RimapError rstr :=
  match fuel with
  | O => (d, Err (RInternal (lit "too many filename collisions")))
  | S fuel =>
      let d := d ∪ raced w counter in
      let name := candidate counter in
      match d !! tmp_name, link_error w counter, d !! name with
      | Some e, false, None => (remove_file (<[name := e]> d), Ok name)
      | Some _, false, Some _ =>
          let counter := counter + 1 in
          if 1000 <? counter
          then (remove_file d, Err (RInternal (lit "too many filename collisions")))
          else place candidate fuel counter d
      | _, _, _ => (remove_file d, Err (RInternalSourced (lit "failed to place download file")))
      end
  end.

(** The attempts 0 to 1000. *)
Definition attempts : nat := 1001.

(* [crates/rimap-server/src/tools/retrieval/sandbox.rs:113-195] write_attachment *)
Definition write_attachment (dest : DestDir) (filename : rstr) (data : list Z) (d : dir)
    : dir * result RimapError rstr :=
  let '(safe_name, stem, ext) := safe_parts filename in
  if create_fails w || bool_decide (is_Some (d !! tmp_name))
  then (d, Err (RInternalSourced (lit "failed to create temporary download file")))
  else match write_fails w with
  | Some partial =>
      (remove_file (<[tmp_name := RegularFile partial]> d), Err (RInternalSourced (lit "failed to write download file")))
  | None =>
      let '(d, r) := place (candidate_name safe_name stem ext) attempts 0 (<[tmp_name := RegularFile data]> d) in
      (d, path_join (canonical dest) <$> r)
  end.
End write.

(* [crates/rimap-server/src/tools/retrieval/sandbox.rs:211-228] unique_temp_name *)
Fixpoint hex_digits (fuel : nat) (n : Z) : rstr :=
  match fuel with
  | O => []
  | S f =>
      let c := if n mod 16 <? 10 then 48 + n mod 16 else 87 + n mod 16 in
      if n <? 16 then [c] else hex_digits f (n / 16) ++ [c]
  end.

Definition to_hex (n : Z) : rstr := hex_digits (S (Z.to_nat (Z.log2 n))) n.

(* [crates/rimap-server/src/tools/retrieval/sandbox.rs:216-228] unique_temp_name *)
Definition unique_temp_name (pid seq nanos : Z) : rstr :=
  lit ".rimap-tmp-" ++ to_decimal pid ++ lit "-" ++ to_decimal seq ++ lit "-" ++ to_hex nanos.

(** ** Reading *)

Record metadata := mkMetadata { is_symlink : bool; is_file : bool; len : Z }.

(** The directory held open for a read: what its entries are when looked at,
    and what reading one yields afterwards. *)
Record read_dir := mkReadDir {
  symlink_metadata : rstr -> result rstr metadata;
  open_file : rstr -> option (list Z);
  read_fails : bool }.

(* [crates/rimap-server/src/tools/retrieval/sandbox.rs:274-376] read_sandboxed_file *)
Definition read_sandboxed_file (sys : system) (open_dir : rstr -> option read_dir)
    (root requested : rstr) (max_bytes : Z) : result RimapError (list Z) :=
  match path_parent requested, path_file_name requested with
  | Some (b :: p), Some name =>
      let parent := b :: p in
      canonical_parent ← map_err (fun e => invalid_input (lit "cannot resolve attachment directory: " ++ e))
                           (canonicalize sys parent);
      canonical_root ← map_err (fun e => invalid_input (lit "cannot resolve download sandbox root: " ++ e))
                         (canonicalize sys root);
      _ ← ensure (path_starts_with canonical_parent canonical_root)
            (invalid_input (lit "attachment path is outside the download sandbox"));
      match open_dir canonical_parent with
      | None => Err (RInternalSourced (lit "failed to open attachment directory"))
      | Some dir =>
          meta ← map_err (fun e => invalid_input (lit "cannot stat attachment: " ++ e)) (symlink_metadata dir name);
          if is_symlink meta then Err (invalid_input (lit "attachment path is a symlink; refusing to follow"))
          else if negb (is_file meta) then Err (invalid_input (lit "attachment path is not a regular file"))
          else if max_bytes <? len meta
          then Err (invalid_input (lit "attachment too large (" ++ to_decimal (len meta) ++
                     lit " bytes); max is " ++ to_decimal max_bytes))
          else match open_file dir name with
          | None => Err (RInternalSourced (lit "failed to open attachment file"))
          | Some content =>
              if read_fails dir then Err (RInternalSourced (lit "failed to read attachment file"))
              else
                let buf := firstn (Z.to_nat (max_bytes + 1)) content in
                if max_bytes <? Z.of_nat (length buf)
                then Err (invalid_input (lit "attachment too large (>" ++ to_decimal max_bytes ++ lit " bytes)"))
                else Ok buf
          end
      end
  | _, _ => Err (invalid_input (lit "attachment path must be an absolute file path inside the download sandbox"))
  end.

Example parts1 : safe_parts (lit "../../etc/passwd.tar.gz") =
  (lit "passwd.tar.gz", lit "passwd.tar", Some (lit "gz")).
Proof. vm_compute. reflexivity. Qed.
Example parts2 : safe_parts (lit "../..") = (lit "attachment", lit "attachment", None).
Proof. vm_compute. reflexivity. Qed.
Example parts3 : safe_parts (lit "a/.hidden/.") = (lit ".hidden", lit ".hidden", None).
Proof. vm_compute. reflexivity. Qed.
Example parent1 : map path_parent [lit "/a//b/./c/"; lit "/a"; lit "/"; lit "a"; lit "./a"; lit ""] =
  [Some (lit "/a//b"); Some (lit "/"); None; Some []; Some (lit "."); None].
Proof. vm_compute. reflexivity. Qed.

(** ** Names *)

(** A single component that names an entry of the directory itself. *)
Definition plain_name (n : rstr) : Prop := ~ 47 ∈ n /\ n <> [] /\ n <> lit "." /\ n <> lit "..".

Lemma piece_component_normal p n : piece_component p = Some (Normal n) -> n = p /\ p <> [] /\ p <> lit "." /\ p <> lit "..".
Proof.
  unfold piece_component. destruct (str_eqb p []) eqn:E1, (str_eqb p (lit ".")) eqn:E2; [done..|]. cbn [orb].
  destruct (str_eqb p (lit "..")) eqn:E3; [done|]. intros [= ->]. split_and!; [done|..]; by intros ->.
Qed.

Lemma plain_component n : plain_name n -> piece_component n = Some (Normal n).
Proof.
  intros (_ & H1 & H2 & H3). unfold piece_component, str_eqb.
  by rewrite !bool_decide_eq_false_2.
Qed.

Lemma components_piece p n : Normal n ∈ components p -> n ∈ split_on 47 p /\ plain_name n.
Proof.
  intros H. assert (exists q, q ∈ split_on 47 p /\ piece_component q = Some (Normal n)) as (q & Hq & Hc).
  { unfold components in H. destruct (split_on 47 p) as [|first rest]; [by apply elem_of_nil in H|].
    apply elem_of_app in H as [H|H].
    - exists first. split; [left|]. destruct rest.
      + destruct (str_eqb first (lit ".")); [set_solver|]. destruct (piece_component first) eqn:E; set_solver.
      + destruct (str_eqb first []); [set_solver|]. destruct (str_eqb first (lit ".")); [set_solver|].
        destruct (piece_component first) eqn:E; set_solver.
    - apply list_elem_of_omap in H as (q & Hq & Hc). exists q. split; [by right|done]. }
  apply piece_component_normal in Hc as (-> & H1 & H2 & H3). split; [done|]. split_and!; [|done..].
  pose proof (split_on_no_sep 47 p) as Hs. rewrite Forall_forall in Hs. by apply Hs.
Qed.
Lemma components_normal p n : Normal n ∈ components p -> plain_name n.
Proof. intros H. by apply (components_piece p). Qed.

Lemma file_name_plain p n : path_file_name p = Some n -> plain_name n.
Proof.
  unfold path_file_name. destruct (last (components p)) as [[]|] eqn:E; [done..| |done].
  intros [= ->]. apply (components_normal p). by apply last_Some_elem_of.
Qed.

(** A file name is a piece of the path. *)
Lemma file_name_chars p n : path_file_name p = Some n -> forall c, c ∈ n -> c ∈ p.
Proof.
  unfold path_file_name. destruct (last (components p)) as [[]|] eqn:E; [done..| |done]. intros [= ->] c Hc.
  apply last_Some_elem_of, components_piece in E as [Hs _].
  apply split_on_elem in Hs as (_ & pre & post & -> & _). apply elem_of_app. right. apply elem_of_app. by left.
Qed.

Lemma split_parts f before after : split_file_at_dot f = (before, after) ->
  forall x, before = Some x \/ after = Some x -> forall c, c ∈ x -> c ∈ f.
Proof.
  unfold split_file_at_dot. destruct (str_eqb f (lit "..")).
  - intros [= <- <-] x [[= ->]|[=]]. done.
  - unfold rsplit_once. destruct (split_once 46 (rev f)) as [[b a]|] eqn:E.
    + apply split_once_Some in E as [E _]. cbn. assert (Hf : f = rev a ++ 46 :: rev b).
      { rewrite <- (rev_involutive f), E, rev_app_distr. cbn. by rewrite <- app_assoc. }
      destruct (rev a) as [|x0 xs] eqn:Ea; intros [= <- <-] x [Hx|Hx]; simplify_eq; set_solver.
    + intros [= <- <-] x [[=]|[= ->]]. done.
Qed.

Lemma candidate_plain filename k : 0 <= k ->
  plain_name (candidate_name (safe_parts filename).1.1 (safe_parts filename).1.2 (safe_parts filename).2 k).
Proof.
  intros Hk. cbn [safe_parts fst snd]. set (safe := default (lit "attachment") (path_file_name filename)).
  assert (Hs : plain_name safe).
  { subst safe. destruct (path_file_name filename) eqn:E; [by apply (file_name_plain filename)|].
    cbn. split_and!; [|done..]. vm_compute. set_solver. }
  unfold candidate_name. destruct (k =? 0); [done|].
  assert (Hstem : ~ 47 ∈ default (lit "attachment") (path_file_stem safe)).
  { unfold path_file_stem. destruct (path_file_name safe) as [f|] eqn:E; cbn; [|vm_compute; set_solver].
    apply file_name_plain in E as [Hf _]. destruct (split_file_at_dot f) as [b a] eqn:Es.
    pose proof (split_parts _ _ _ Es) as Hp.
    destruct b as [x|]; [|destruct a as [x|]; [|vm_compute; set_solver]]; cbn; intros Hx; apply Hf; eapply Hp; eauto. }
  assert (Hext : forall e, path_extension safe = Some e -> ~ 47 ∈ e).
  { unfold path_extension. destruct (path_file_name safe) as [f|] eqn:E; cbn; [|done].
    apply file_name_plain in E as [Hf _]. destruct (split_file_at_dot f) as [b a] eqn:Es.
    pose proof (split_parts _ _ _ Es) as Hp. intros e He Hx. apply Hf. destruct b; [|done]. eapply Hp; eauto. }
  pose proof (digits_no_char k 47 Hk eq_refl) as Hd.
  set (stem := default (lit "attachment") (path_file_stem safe)) in *. clearbody stem safe.
  assert (Hu : forall tail, (forall c, c = 95 -> c ∈ stem ++ lit "_" ++ tail)) by (intros; subst; set_solver).
  assert (Hn : forall tail, ~ 47 ∈ tail -> plain_name (stem ++ lit "_" ++ tail)).
  { intros tail Ht. split_and!.
    - change (lit "_") with [95]. set_solver.
    - by destruct stem.
    - intros E. specialize (Hu tail 95 eq_refl). rewrite E in Hu. change (lit ".") with [46] in Hu. set_solver.
    - intros E. specialize (Hu tail 95 eq_refl). rewrite E in Hu. change (lit "..") with [46; 46] in Hu. set_solver. }
  destruct (path_extension safe) as [e|] eqn:Ee; apply Hn; [|done].
  specialize (Hext e eq_refl). change (lit ".") with [46]. set_solver.
Qed.

(** A plain name joined to a directory's path is an entry of that directory. *)
Lemma components_join c n : c <> [] -> plain_name n -> components (path_join c n) = components c ++ [Normal n].
Proof.
  intros Hc Hn. pose proof (plain_component n Hn) as Hp. destruct Hn as (Hs & Hne & _).
  assert (Es : split_on 47 n = [n]) by by apply split_on_plain.
  unfold path_join. replace (starts_with [47] n) with false.
  2:{ symmetry. apply not_true_iff_false. rewrite starts_with_spec. intros [r ->]. set_solver. }
  replace (str_eqb c []) with false by (by destruct c). cbn [orb].
  destruct (ends_with [47] c) eqn:Ee.
  - unfold ends_with, strip_suffix in Ee. destruct (strip_prefix (rev [47]) (rev c)) as [r|] eqn:Er; [|done].
    apply strip_prefix_Some in Er. assert (Ec : c = rev r ++ 47 :: []).
    { rewrite <- (rev_involutive c), Er. done. }
    subst c. rewrite <- app_assoc. cbn [app]. unfold components. rewrite !split_on_app, Es.
    pose proof (split_on_nonempty 47 (rev r)) as Hr. destruct (split_on 47 (rev r)) as [|f rest]; [done|].
    cbn [app]. replace (split_on 47 []) with [[] : rstr] by done.
    rewrite !omap_app. cbn [omap list_omap]. rewrite Hp. replace (piece_component []) with (None : option component) by done.
    rewrite app_nil_r. destruct rest; cbn [app]; by rewrite ?app_nil_r, <- ?app_assoc.
  - change (c ++ [47] ++ n) with (c ++ 47 :: n). unfold components. rewrite split_on_app, Es.
    pose proof (split_on_nonempty 47 c) as Hr. destruct (split_on 47 c) as [|f rest] eqn:Ef; [done|].
    cbn [app]. rewrite omap_app. cbn [omap list_omap]. rewrite Hp.
    destruct rest; cbn [app].
    + assert (f = c) as ->. { rewrite <- (join_split 47 c), Ef. done. }
      replace (str_eqb c []) with false by (by destruct c). by rewrite app_nil_r.
    + rewrite <- app_assoc. done.
Qed.

(** ** Placing *)

Section placing.
Context (w : write_world) (tmp : rstr).
Implicit Types (d : dir).

(** Entries other processes added before the attempts [lo] to [hi]. *)
Definition from_others (lo hi : Z) (n : rstr) (x : entry) : Prop :=
  exists j, lo <= j <= hi /\ raced w j !! n = Some x.

(** The name is there when the [j]-th attempt is made. *)
Definition taken (lo j : Z) d (n : rstr) : Prop :=
  is_Some (d !! n) \/ exists x, from_others lo j n x.

Lemma lookup_remove d n : remove_file w tmp d !! n =
  if unlink_fails w then d !! n else if decide (n = tmp) then None else d !! n.
Proof.
  unfold remove_file. destruct (unlink_fails w); [done|]. destruct (decide (n = tmp)) as [->|].
  - apply lookup_delete_eq.
  - by apply lookup_delete_ne.
Qed.

(** The final directory against the one before: nothing but the temporary file
    is lost, and what is new comes from [new] or from others. *)
Definition only_adds (lo hi : Z) d d' (new : rstr -> entry -> Prop) : Prop :=
  (forall n x, n <> tmp -> d !! n = Some x -> d' !! n = Some x) /\
  (forall n x, d' !! n = Some x ->
     (d !! n = Some x /\ (n = tmp -> unlink_fails w = true)) \/ (n <> tmp /\ from_others lo hi n x) \/ new n x).

Lemma only_adds_remove lo hi d : is_Some (d !! tmp) -> lo <= hi ->
  only_adds lo hi d (remove_file w tmp (d ∪ raced w lo)) (fun _ _ => False).
Proof.
  intros [e He] Hlo. split; intros n x.
  - intros Hn Hx. rewrite lookup_remove. rewrite decide_False by done.
    destruct (unlink_fails w); by apply lookup_union_Some_l.
  - rewrite lookup_remove. destruct (unlink_fails w) eqn:Eu.
    + intros [Hx|[Hx Hr]]%lookup_union_Some_raw; [by left|]. right. left. split; [by intros ->; congruence|].
      exists lo. split; [lia|done].
    + destruct (decide (n = tmp)); [done|]. intros [Hx|[Hx Hr]]%lookup_union_Some_raw; [by left|]. right. left.
      split; [done|]. exists lo. split; [lia|done].
Qed.

Lemma only_adds_step lo hi d d' new : is_Some (d !! tmp) -> lo <= hi ->
  only_adds (lo + 1) hi (d ∪ raced w lo) d' new -> only_adds lo hi d d' new.
Proof.
  intros [e He] Hlo [H1 H2]. split; intros n x.
  - intros Hn Hx. apply H1; [done|]. by apply lookup_union_Some_l.
  - intros [[Hx Hu]|[[Hn (j & Hj & Hr)]|Hw]]%H2; [| |by right; right].
    + apply lookup_union_Some_raw in Hx as [Hx|[Hx Hr]]; [by left|]. right. left.
      split; [intros ->; congruence|]. exists lo. split; [lia|done].
    + right. left. split; [done|]. exists j. split; [lia|done].
Qed.

Lemma taken_step lo j d n : lo < j -> taken (lo + 1) j (d ∪ raced w lo) n -> taken lo j d n.
Proof.
  intros Hj [[x Hx]|(x & i & Hi & Hr)].
  - apply lookup_union_Some_raw in Hx as [Hx|[_ Hr]]; [by left|]. right. exists x, lo. split; [lia|done].
  - right. exists x, i. split; [lia|done].
Qed.

(** The loop: it places the temporary file's content under the first candidate
    that is free when tried, or changes nothing of its own. *)
Lemma place_spec candidate fuel : forall lo d e, d !! tmp = Some e -> lo + Z.of_nat fuel = 1001 -> (0 < fuel)%nat ->
  match place w tmp candidate fuel lo d with
  | (d', Ok name) => exists k, lo <= k <= 1000 /\ name = candidate k /\ name <> tmp /\ ~ taken lo k d name /\
      d' !! name = Some e /\ only_adds lo k d d' (fun n x => n = name /\ x = e) /\
      forall j, lo <= j < k -> taken lo j d (candidate j)
  | (d', Err _) => only_adds lo 1000 d d' (fun _ _ => False) /\
      ((exists j, lo <= j <= 1000 /\ link_error w j = true) \/ forall j, lo <= j <= 1000 -> taken lo j d (candidate j))
  end.
Proof.
  induction fuel as [|fuel IH]; intros lo d e He Hf Hpos; [lia|]. cbn [place].
  assert (He' : (d ∪ raced w lo) !! tmp = Some e) by (by apply lookup_union_Some_l).
  rewrite He'. destruct (link_error w lo) eqn:El.
  { split; [apply only_adds_remove; [by eexists|lia]|]. left. exists lo. split; [lia|done]. }
  destruct ((d ∪ raced w lo) !! candidate lo) as [x|] eqn:Ec.
  - assert (Ht : taken lo lo d (candidate lo)).
    { apply lookup_union_Some_raw in Ec as [Hx|[_ Hr]]; [by left|]. right. exists x, lo. split; [lia|done]. }
    destruct (Z.ltb_spec 1000 (lo + 1)).
    + split; [apply only_adds_remove; [by eexists|lia]|]. right. intros j Hj. by replace j with lo by lia.
    + specialize (IH (lo + 1) (d ∪ raced w lo) e He' ltac:(lia) ltac:(lia)).
      assert (Hall : forall k, (forall j, lo + 1 <= j < k -> taken (lo + 1) j (d ∪ raced w lo) (candidate j)) ->
        forall j, lo <= j < k -> taken lo j d (candidate j)).
      { intros k Hk j Hj. destruct (decide (j = lo)) as [->|]; [done|]. apply taken_step; [lia|]. apply Hk. lia. }
      destruct (place w tmp candidate fuel (lo + 1) (d ∪ raced w lo)) as [d' [name|er]].
      * destruct IH as (k & Hk & Hn & Hnt & Hnot & Hd & Ha & Hj). exists k. split_and!; [lia|lia|done|done| |done| |].
        -- intros [[y Hy]|(y & i & Hi & Hr)]; apply Hnot.
           ++ left. exists y. by apply lookup_union_Some_l.
           ++ destruct (decide (i = lo)) as [->|]; [left|right; exists y, i; split; [lia|done]].
              destruct (d !! name) as [z|] eqn:Ez; [exists z; by apply lookup_union_Some_l|].
              exists y. apply lookup_union_Some_raw. by right.
        -- apply only_adds_step; [by eexists|lia|done].
        -- by apply Hall.
      * destruct IH as [Ha Hr]. split; [apply only_adds_step; [by eexists|lia|done]|].
        destruct Hr as [(j & Hj & Hl)|Hj]; [left; exists j; split; [lia|done]|]. right.
        intros j Hlj. apply (Hall 1001); [|lia]. intros i Hi. apply Hj. lia.
  - assert (Hn : candidate lo <> tmp) by congruence. apply lookup_union_None in Ec as [Ec1 Ec2].
    exists lo. split_and!; [lia|lia|done|done| | | |lia].
    + intros [[y Hy]|(y & j & Hj & Hr)]; [congruence|]. replace j with lo in Hr by lia. congruence.
    + rewrite lookup_remove, decide_False, lookup_insert_eq by done. by destruct (unlink_fails w).
    + destruct (only_adds_remove lo lo d) as [H1 H2]; [by eexists|lia|].
      assert (Hrm : forall n, n <> candidate lo -> remove_file w tmp (<[candidate lo := e]> (d ∪ raced w lo)) !! n =
        remove_file w tmp (d ∪ raced w lo) !! n).
      { intros n Hne. rewrite !lookup_remove, lookup_insert_ne by done. done. }
      split; intros n x.
      * intros Hnt Hx. rewrite Hrm by congruence. by apply H1.
      * destruct (decide (n = candidate lo)) as [->|Hne].
        -- rewrite lookup_remove, decide_False, lookup_insert_eq by done. intros Hx. right. right. split; [done|].
           destruct (unlink_fails w); congruence.
        -- rewrite Hrm by done. intros Hx. apply H2 in Hx as [?|[?|[]]]; [by left|by right; left].
Qed.
End placing.

(** ** Writing *)

Section writing.
Context (w : write_world) (tmp : rstr) (dest : DestDir) (filename : rstr) (data : list Z) (d : dir).

Definition file_candidate : Z -> rstr :=
  candidate_name (safe_parts filename).1.1 (safe_parts filename).1.2 (safe_parts filename).2.

(** A name no one else uses during the write. *)
Definition free_name (n : rstr) : Prop := n <> tmp /\ d !! n = None /\ forall j, 0 <= j <= 1000 -> raced w j !! n = None.

Lemma added_entries d' new lo hi x0 : d !! tmp = None -> 0 <= lo -> hi <= 1000 ->
  only_adds w tmp lo hi (<[tmp := x0]> d) d' new ->
  (forall n x, d !! n = Some x -> d' !! n = Some x) /\
  (forall n x, d' !! n = Some x ->
     d !! n = Some x \/ from_others w 0 1000 n x \/ (n = tmp /\ unlink_fails w = true) \/ new n x).
Proof.
  intros Ht Hlo Hhi [H1 H2]. split; intros n x Hx.
  - apply H1; [congruence|]. by rewrite lookup_insert_ne by congruence.
  - apply H2 in Hx as [[Hx Hu]|[[_ (j & Hj & Hr)]|Hn]].
    + destruct (decide (n = tmp)) as [->|]; [by (right; right; left; auto)|]. rewrite lookup_insert_ne in Hx by done. by left.
    + right. left. exists j. split; [lia|done].
    + by do 3 right.
Qed.

Lemma write_effect : canonical dest <> [] ->
  let d' := (write_attachment w tmp dest filename data d).1 in
  let r := (write_attachment w tmp dest filename data d).2 in
  let mine n x := match r with Ok p => p = path_join (canonical dest) n /\ x = RegularFile data | Err _ => False end in
  (forall n x, d !! n = Some x -> d' !! n = Some x) /\
  (forall n x, d' !! n = Some x ->
     d !! n = Some x \/ from_others w 0 1000 n x \/ (n = tmp /\ unlink_fails w = true) \/ mine n x) /\
  (forall p, r = Ok p -> exists name, plain_name name /\ d !! name = None /\ d' !! name = Some (RegularFile data) /\
     p = path_join (canonical dest) name /\ components p = components (canonical dest) ++ [Normal name]) /\
  (create_fails w = false -> write_fails w = None -> d !! tmp = None -> (forall j, link_error w j = false) ->
     (exists k, 0 <= k <= 1000 /\ free_name (file_candidate k)) -> is_ok r = true).
Proof.
  intros Hc. cbn zeta. unfold write_attachment.
  destruct (safe_parts filename) as [[safe stem] ext] eqn:Ep.
  destruct (create_fails w) eqn:Ecf; cbn [orb]; [cbn; split_and!; auto; done|].
  destruct (d !! tmp) eqn:Et; [rewrite bool_decide_eq_true_2 by eauto; cbn; split_and!; auto; done|].
  rewrite bool_decide_eq_false_2 by (by intros [? [=]]).
  destruct (write_fails w) as [partial|] eqn:Ewf.
  { cbn. split_and!; [| |done|done].
    - intros n x Hx. rewrite lookup_remove, lookup_insert_ne, decide_False by congruence. by destruct (unlink_fails w).
    - intros n x. rewrite lookup_remove. destruct (unlink_fails w) eqn:Eu; [|destruct (decide _); [done|]];
        (destruct (decide (n = tmp)) as [->|]; [by (right; right; left; auto)|]; rewrite lookup_insert_ne by done; by left). }
  pose proof (place_spec w tmp (candidate_name safe stem ext) attempts 0 (<[tmp := RegularFile data]> d)
    (RegularFile data) (lookup_insert_eq _ _ _) eq_refl ltac:(unfold attempts; lia)) as Hp.
  destruct (place w tmp _ attempts 0 _) as [d' [name|er]] eqn:Epl; cbn.
  - destruct Hp as (k & Hk & -> & Hnt & Hfree & Hd & Ha & _).
    destruct (added_entries d' _ 0 k (RegularFile data) Et ltac:(lia) ltac:(lia) Ha) as [H1 H2].
    pose proof (candidate_plain filename k ltac:(lia)) as Hpl. rewrite Ep in Hpl. cbn in Hpl.
    split_and!; [done| | |done].
    + intros n x Hx. apply H2 in Hx as [?|[?|[?|[-> ->]]]]; [by left|by right; left|by right; right; left|by do 3 right].
    + intros p [= <-]. exists (candidate_name safe stem ext k). split_and!; [done| |done|done|by apply components_join].
      destruct (d !! candidate_name safe stem ext k) eqn:E; [|done]. destruct Hfree. left.
      rewrite lookup_insert_ne by done. by eexists.
  - destruct Hp as [Ha Hr].
    destruct (added_entries d' _ 0 1000 (RegularFile data) Et ltac:(lia) ltac:(lia) Ha) as [H1 H2].
    split_and!; [done| |done|].
    + intros n x Hx. apply H2 in Hx as [?|[?|[?|[]]]]; [by left|by right; left|by right; right; left].
    + intros _ _ _ Hl (k & Hk & Hn1 & Hn2 & Hn3). destruct Hr as [(j & _ & Hj)|Hj]; [congruence|].
      unfold file_candidate in Hn1, Hn2, Hn3. rewrite Ep in Hn1, Hn2, Hn3. cbn [fst snd] in Hn1, Hn2, Hn3.
      destruct (Hj k Hk) as [[x Hx]|(x & i & Hi & Hx)].
      * rewrite lookup_insert_ne in Hx by done. congruence.
      * rewrite Hn3 in Hx by lia. done.
Qed.

(** C26: Whatever file name the caller or the message gives, and whatever other
    processes add meanwhile, writing an attachment never changes or removes an
    entry of the directory. A success names one entry directly in the held
    directory, by a name without separators or dots alone, which was free and
    now holds exactly the data; a failure leaves no entry of its own. The only
    other possible remnant is the temporary file, when removing it fails.
    And the write succeeds if no call fails and one of the 1001 candidate names
    stays free. *)
Theorem write_attachment_safe : canonical dest <> [] ->
  let d' := (write_attachment w tmp dest filename data d).1 in
  let r := (write_attachment w tmp dest filename data d).2 in
  let mine n x := match r with Ok p => p = path_join (canonical dest) n /\ x = RegularFile data | Err _ => False end in
  (forall n x, d !! n = Some x -> d' !! n = Some x) /\
  (forall n x, d' !! n = Some x ->
     d !! n = Some x \/ from_others w 0 1000 n x \/ (n = tmp /\ unlink_fails w = true) \/ mine n x) /\
  (forall p, r = Ok p -> exists name, plain_name name /\ d !! name = None /\ d' !! name = Some (RegularFile data) /\
     p = path_join (canonical dest) name /\ components p = components (canonical dest) ++ [Normal name]) /\
  (create_fails w = false -> write_fails w = None -> d !! tmp = None -> (forall j, link_error w j = false) ->
     (exists k, 0 <= k <= 1000 /\ free_name (file_candidate k)) -> is_ok r = true).
Proof. exact write_effect. Qed.
End writing.

(** A directory that holds the wanted name, and a process that takes the first
    alternative in the meantime. *)
Definition sample_dir : dir := {[lit "a.txt" := RegularFile [1]]}.
Definition sample_world : write_world := mkWriteWorld false None false (fun _ => false)
  (fun k => if k =? 1 then {[lit "a_1.txt" := Symlink (lit "/etc/passwd")]} else ∅).

Lemma write_attachment_safe_witness :
  (write_attachment sample_world (lit ".rimap-tmp-1-0-a") (mkDestDir (lit "/dl")) (lit "../x/a.txt") [7; 8] sample_dir).1
    !! lit "a.txt" = Some (RegularFile [1]) /\
  (write_attachment sample_world (lit ".rimap-tmp-1-0-a") (mkDestDir (lit "/dl")) (lit "../x/a.txt") [7; 8] sample_dir)
    = (<[lit "a_2.txt" := RegularFile [7; 8]]> (<[lit "a_1.txt" := Symlink (lit "/etc/passwd")]> sample_dir),
       Ok (lit "/dl/a_2.txt")).
Proof.
  split; [|vm_compute; reflexivity].
  apply (proj1 (write_attachment_safe sample_world (lit ".rimap-tmp-1-0-a") (mkDestDir (lit "/dl")) (lit "../x/a.txt")
    [7; 8] sample_dir ltac:(discriminate))). vm_compute. reflexivity.
Defined.

(** ** Resolving and reading *)

Lemma components_nil p : components p = [] -> p = [].
Proof.
  unfold components. destruct (split_on 47 p) as [|f rest] eqn:Es; [by apply split_on_nonempty in Es|].
  intros [H1 H2]%app_eq_nil. destruct rest as [|g rest].
  - assert (p = f) as -> by (by rewrite <- (join_split 47 p), Es). unfold piece_component in H1.
    destruct (str_eqb f (lit ".")) eqn:E1; [done|]. destruct (str_eqb f []) eqn:E2; [by apply str_eqb_eq in E2|].
    cbn in H1. by destruct (str_eqb f (lit "..")).
  - unfold piece_component in H1. destruct (str_eqb f []); [done|]. destruct (str_eqb f (lit ".")); [done|].
    cbn in H1. by destruct (str_eqb f (lit "..")).
Qed.

Lemma resolve_confined sys dest_dir allowed fallback dest :
  resolve_dest_dir sys dest_dir allowed fallback = Ok dest ->
  match dest_dir with
  | Some d => canonicalize sys d = Ok (canonical dest) /\ components allowed `prefix_of` components (canonical dest)
  | None => canonical dest = fallback
  end.
Proof.
  unfold resolve_dest_dir. destruct dest_dir as [dd|].
  - destruct (canonicalize sys dd) as [c|] eqn:Ec; cbn; [|done].
    destruct (path_starts_with c allowed) eqn:Es; cbn; [|done]. destruct (open_ambient_dir sys c); [|done].
    intros [= <-]. by apply bool_decide_eq_true_1 in Es.
  - cbn. destruct (open_ambient_dir sys fallback); [|done]. by intros [= <-].
Qed.

(** The directory a download goes to is inside the root, and is named. *)
Lemma resolve_within sys dest_dir root dest : root <> [] -> resolve_dest_dir_async sys dest_dir root = Ok dest ->
  canonical dest <> [] /\ components root `prefix_of` components (canonical dest).
Proof.
  intros Hr Ed. assert (Hpre : components root `prefix_of` components (canonical dest)).
  { apply resolve_confined in Ed. destruct dest_dir; [by destruct Ed as [_ ?]|by subst]. }
  split; [|done]. intros E. rewrite E in Hpre. destruct Hpre as [k Hk]. cbn in Hk. symmetry in Hk.
  apply app_eq_nil in Hk as [Hk _]. by apply components_nil in Hk.
Qed.

(** A read returns no more than it was allowed. *)
Lemma read_sandboxed_file_within sys open_dir root requested max_bytes bytes : 0 <= max_bytes ->
  read_sandboxed_file sys open_dir root requested max_bytes = Ok bytes -> Z.of_nat (length bytes) <= max_bytes.
Proof.
  intros Hmax. unfold read_sandboxed_file. destruct (path_parent requested) as [[|b p]|]; [done| |done].
  destruct (path_file_name requested) as [name|]; [|done].
  intros (cp & _ & (cr & _ & ([] & _ & H)%bind_ok)%bind_ok)%bind_ok.
  destruct (open_dir cp) as [dir|]; [|done]. apply bind_ok in H as (meta & _ & H).
  destruct (is_symlink meta); [done|]. destruct (is_file meta); [|done]. cbn in H.
  destruct (max_bytes <? len meta); [done|]. destruct (open_file dir name); [|done].
  destruct (read_fails dir); [done|].
  destruct (Z.ltb_spec max_bytes (Z.of_nat (length (firstn (Z.to_nat (max_bytes + 1)) l)))); [done|].
  by injection H as <-.
Qed.

(** C34: A file read through the sandbox lies directly in a directory whose
    canonical path is inside the canonical root; its last component was neither
    followed as a link nor anything but a regular file when looked at; and the
    bytes returned are the whole file at the time of reading, never more than
    the limit even when the file grew after it was looked at. A directory that
    is asked for as a download target resolves only inside the allowed root. *)
Theorem sandbox_confined sys open_dir root requested max_bytes bytes dest_dir allowed fallback dest :
  0 <= max_bytes ->
  (read_sandboxed_file sys open_dir root requested max_bytes = Ok bytes ->
     exists parent name cp cr dir meta,
       path_parent requested = Some parent /\ path_file_name requested = Some name /\ plain_name name /\
       canonicalize sys parent = Ok cp /\ canonicalize sys root = Ok cr /\
       components cr `prefix_of` components cp /\
       open_dir cp = Some dir /\ symlink_metadata dir name = Ok meta /\
       is_symlink meta = false /\ is_file meta = true /\ len meta <= max_bytes /\
       open_file dir name = Some bytes /\ Z.of_nat (length bytes) <= max_bytes) /\
  (resolve_dest_dir sys dest_dir allowed fallback = Ok dest ->
     match dest_dir with
     | Some d => canonicalize sys d = Ok (canonical dest) /\ components allowed `prefix_of` components (canonical dest)
     | None => canonical dest = fallback
     end).
Proof.
  intros Hmax. split.
  - unfold read_sandboxed_file. destruct (path_parent requested) as [[|b p]|] eqn:Ep; [done| |done].
    destruct (path_file_name requested) as [name|] eqn:En; [|done].
    destruct (canonicalize sys (b :: p)) as [cp|] eqn:Ecp; cbn; [|done].
    destruct (canonicalize sys root) as [cr|] eqn:Ecr; cbn; [|done].
    destruct (path_starts_with cp cr) eqn:Esw; cbn; [|done].
    destruct (open_dir cp) as [dir|] eqn:Eo; [|done].
    destruct (symlink_metadata dir name) as [meta|] eqn:Em; cbn; [|done].
    destruct (is_symlink meta) eqn:Es; [done|]. destruct (is_file meta) eqn:Ef; cbn; [|done].
    destruct (Z.ltb_spec max_bytes (len meta)); [done|].
    destruct (open_file dir name) as [content|] eqn:Eof; [|done]. destruct (read_fails dir); [done|].
    destruct (Z.ltb_spec max_bytes (Z.of_nat (length (firstn (Z.to_nat (max_bytes + 1)) content)))) as [|Hlen]; [done|].
    intros [= <-]. rewrite length_take in Hlen. rewrite take_ge by lia.
    exists (b :: p), name, cp, cr, dir, meta. apply bool_decide_eq_true_1 in Esw.
    split_and!; try done; [by apply (file_name_plain requested)|lia].
  - apply resolve_confined.
Qed.

(** A system where "/dl" is a link to "/data/dl". *)
Definition linked_system : system := mkSystem
  (fun p => if path_starts_with p (lit "/dl") then Ok (lit "/data" ++ p) else Ok p) (fun _ => true).
Definition sample_read_dir : read_dir := mkReadDir
  (fun n => if str_eqb n (lit "f") then Ok (mkMetadata false true 2) else Err (lit "not found"))
  (fun _ => Some [5; 6]) false.

Lemma sandbox_confined_witness :
  read_sandboxed_file linked_system (fun _ => Some sample_read_dir) (lit "/dl") (lit "/dl/sub/f") 2 = Ok [5; 6] /\
  (Z.of_nat (length [5; 6]) <= 2).
Proof.
  assert (H : read_sandboxed_file linked_system (fun _ => Some sample_read_dir) (lit "/dl") (lit "/dl/sub/f") 2 = Ok [5; 6])
    by (vm_compute; reflexivity).
  split; [exact H|].
  destruct (proj1 (sandbox_confined linked_system (fun _ => Some sample_read_dir) (lit "/dl") (lit "/dl/sub/f") 2 [5; 6]
    None [] [] (mkDestDir []) ltac:(lia)) H) as (? & ? & ? & ? & ? & ? & ? & ? & ? & ? & ? & ? & ? & ? & ? & ? & ? & ? & Hl).
  exact Hl.
Defined.

(** A download root reached through a link refuses every directory asked for,
    those inside it included: the root is compared as it was configured. *)
Lemma linked_root_refused : resolve_dest_dir_async linked_system (Some (lit "/dl/sub")) (lit "/dl") =
  Err (invalid_input (lit "dest_dir is outside allowed download directory")).
Proof. vm_compute. reflexivity. Qed.
