(* ===== verification/Filename.v ===== *)
(** * Attachment file names (crates/rimap-content/src/parse/filename.rs)

    Names shown and offered for download, and the header rebuilt from
    BODYSTRUCTURE parameters to decode one.  [{:?}] and the MIME parser are
    parameters. *)

From Stdlib Require Import ZArith Lia.
From stdpp Require Import base option list numbers strings sets.
From S2P Require Import Prelude RustStr Content Unicode MimeScrub Sandbox.
Local Open Scope Z_scope.

(* [crates/rimap-content/src/parse/filename.rs:17-20] DOCUMENT_EXTENSIONS *)
Definition DOCUMENT_EXTENSIONS : list rstr :=
  [lit "pdf"; lit "doc"; lit "docx"; lit "xls"; lit "xlsx"; lit "png"; lit "jpg"; lit "jpeg"; lit "gif";
   lit "txt"; lit "csv"; lit "rtf"].
(* [crates/rimap-content/src/parse/filename.rs:24-27] RESERVED_WINDOWS_STEMS *)
Definition RESERVED_WINDOWS_STEMS : list rstr :=
  [lit "con"; lit "prn"; lit "aux"; lit "nul"; lit "com0"; lit "com1"; lit "com2"; lit "com3"; lit "com4"; lit "com5";
   lit "com6"; lit "com7"; lit "com8"; lit "com9"; lit "lpt0"; lit "lpt1"; lit "lpt2"; lit "lpt3"; lit "lpt4";
   lit "lpt5"; lit "lpt6"; lit "lpt7"; lit "lpt8"; lit "lpt9"].
(* [crates/rimap-content/src/parse/filename.rs:32-35] EXECUTABLE_EXTENSIONS *)
Definition EXECUTABLE_EXTENSIONS : list rstr :=
  [lit "exe"; lit "dll"; lit "bat"; lit "cmd"; lit "ps1"; lit "vbs"; lit "js"; lit "scr"; lit "msi"; lit "app";
   lit "dmg"; lit "sh"; lit "com"; lit "pif"; lit "jar"; lit "lnk"].

(** [str::split] on a set of characters. *)
Fixpoint split_where (p : Z -> bool) (s : rstr) : list rstr :=
  match s with
  | [] => [[]]
  | c :: s' =>
      if p c then [] :: split_where p s'
      else match split_where p s' with
           | q :: qs => (c :: q) :: qs
           | [] => [[c]]
           end
  end.

Definition is_separator (c : Z) : bool := (c =? 47) || (c =? 92).
Definition dot_or_space (c : Z) : bool := (c =? 46) || is_ascii_whitespace c.

(** Is the part before the first dot, in lower case, a reserved stem? *)
Definition reserved_stem (name : rstr) : bool :=
  existsb (str_eqb (hd [] (split_on 46 (to_ascii_lowercase name)))) RESERVED_WINDOWS_STEMS.

(* [crates/rimap-content/src/parse/filename.rs:130-145] contains_bidi_override *)
Definition contains_bidi_override (s : rstr) : bool :=
  existsb (fun c => (c =? 0x202A) || (c =? 0x202B) || (c =? 0x202C) || (c =? 0x202D) || (c =? 0x202E)
                    || (c =? 0x2066) || (c =? 0x2067) || (c =? 0x2068) || (c =? 0x2069)) s.

(* [crates/rimap-content/src/parse/filename.rs:151-165] detect_double_extension *)
Definition detect_double_extension (name : rstr) : option (rstr * rstr) :=
  match rev (split_on 46 name) with
  | final :: penultimate :: _ :: _ =>
      let penultimate := to_ascii_lowercase penultimate in
      let final := to_ascii_lowercase final in
      if existsb (str_eqb penultimate) DOCUMENT_EXTENSIONS && existsb (str_eqb final) EXECUTABLE_EXTENSIONS
      then Some (penultimate, final) else None
  | _ => None
  end.

Section filename.
Context `{UnicodeLib} (debug_str : rstr -> rstr).

(** Up to the length cap. *)
(* [crates/rimap-content/src/parse/filename.rs:99-116] sanitize_filename *)
Definition uncapped_name (name : rstr) : rstr :=
  let parts := map (fun segment => if str_eqb segment (lit "..") then lit "_" else segment) (split_where is_separator name) in
  let no_nul := List.filter (fun c => negb (c =? 0)) (join (lit "_") parts) in
  let trimmed := trim_end_matches dot_or_space (trim_start_matches dot_or_space no_nul) in
  if reserved_stem trimmed then lit "_" ++ trimmed else trimmed.

(* [crates/rimap-content/src/parse/filename.rs:97-125] sanitize_filename *)
Definition sanitize_filename (name : rstr) (idx : Z) : rstr * bool :=
  let final_name := match truncate_graphemes (uncapped_name name) 255 with
                    | [] => lit "attachment_" ++ to_decimal idx
                    | capped => capped
                    end in
  (final_name, negb (str_eqb final_name name)).

Definition filename_location (idx : Z) : rstr := lit "attachment[" ++ to_decimal idx ++ lit "]:filename".

(** The name and the warnings pushed. *)
(* [crates/rimap-content/src/parse/filename.rs:45-83] sanitize_attachment_filename *)
Definition sanitize_attachment_filename (name : rstr) (idx : Z) : rstr * list SecurityWarning :=
  let bidi := if contains_bidi_override name
    then [warning_at LookalikeFilenameExtensionSpoof
            (lit "raw=" ++ debug_str name ++ lit ",contains_bidi_override=true") (filename_location idx)]
    else [] in
  let '(unicode_clean, ws) := sanitize (str_bytes name) (Some (lit "utf-8")) MAX_HEADER_BYTES (filename_location idx) in
  let '(safe, rewritten) := sanitize_filename unicode_clean idx in
  let rewrite := if rewritten
    then [warning_at ParseAttachmentFilenameRewritten (lit "original=" ++ debug_str unicode_clean) (filename_location idx)]
    else [] in
  let double := match detect_double_extension safe with
    | Some (penult, final) =>
        [warning_at LookalikeFilenameExtensionSpoof
           (lit "raw=" ++ debug_str name ++ lit ",reason=double_extension,visible=." ++ penult ++
            lit ",declared=." ++ penult ++ lit "." ++ final) (filename_location idx)]
    | None => []
    end in
  (safe, bidi ++ ws ++ rewrite ++ double).

(** ** Names from BODYSTRUCTURE parameters *)

(* [crates/rimap-content/src/parse/filename.rs:304-306] is_token_byte *)
Definition is_token_byte (b : Z) : bool :=
  is_ascii_graphic b && negb (existsb (Z.eqb b) [40; 41; 60; 62; 64; 44; 59; 58; 92; 34; 47; 91; 93; 63; 61]).

Definition quoted (value : rstr) : rstr :=
  [34] ++ concat (map (fun c => if (c =? 34) || (c =? 92) then [92; c] else [c]) value) ++ [34].

(** Is the parameter written as a token?  Its serialised form; its size. *)
Definition is_extended (key value : rstr) : bool :=
  ends_with (lit "*") key && negb (str_eqb value []) && forallb is_token_byte (str_bytes value).
Definition fold_param (key value : rstr) : rstr :=
  lit ";" ++ CRLF ++ lit " " ++ key ++ lit "=" ++ (if is_extended key value then value else quoted value).
Definition param_bytes (key value : rstr) : Z :=
  5 + str_len key + str_len value +
  (if is_extended key value then 0
   else 2 + Z.of_nat (length (List.filter (fun b => (b =? 34) || (b =? 92)) (str_bytes value)))).

Definition is_name_param (key : rstr) : bool :=
  let base := hd [] (split_on 42 key) in
  eq_ignore_ascii_case base (lit "name") || eq_ignore_ascii_case base (lit "filename").
Definition is_unsafe_param (key value : rstr) : bool :=
  negb (forallb is_token_byte (str_bytes key)) || existsb (fun b => (b =? 13) || (b =? 10) || (b =? 0)) (str_bytes value).

(** The header, [dropped], and whether everything fitted. *)
(* [crates/rimap-content/src/parse/filename.rs:252-301] append_name_params *)
Fixpoint append_name_params (limit : Z) (params : list (rstr * rstr)) (header : rstr) (dropped : bool)
    : rstr * bool * bool :=
  match params with
  | [] => (header, dropped, true)
  | (key, value) :: params =>
      if negb (is_name_param key) then append_name_params limit params header dropped
      else if is_unsafe_param key value then append_name_params limit params header true
      else if (limit <? str_len key) || (limit <? str_len value) then (header, dropped, false)
      else if Z.max 0 (limit - str_len header) <? param_bytes key value then (header, dropped, false)
      else append_name_params limit params (header ++ fold_param key value) dropped
  end.

Definition type_line : rstr := lit "Content-Type: application/octet-stream".
Definition disposition : rstr := CRLF ++ lit "Content-Disposition: attachment".

(** The header handed to the parser; [None] when the parameters do not fit. *)
(* [crates/rimap-content/src/parse/filename.rs:207-240] attachment_filename_from_params *)
Definition name_header (content_type_params disposition_params : list (rstr * rstr)) : option rstr * bool :=
  let '(header, dropped, fits) :=
    append_name_params (MAX_HEADER_BYTES - str_len disposition - 4) content_type_params type_line false in
  let '(header, dropped, fits) :=
    if fits then append_name_params (MAX_HEADER_BYTES - 4) disposition_params (header ++ disposition) dropped
    else (header, dropped, false) in
  (if fits then Some (header ++ CRLF ++ CRLF) else None, dropped).

(** [parse] is [safe_parse] followed by [attachment_name]. *)
(* [crates/rimap-content/src/parse/filename.rs:199-245] attachment_filename_from_params *)
Definition attachment_filename_from_params (parse : list Z -> option rstr)
    (content_type_params disposition_params : list (rstr * rstr)) (idx : Z) : option rstr * list SecurityWarning :=
  let '(header, dropped) := name_header content_type_params disposition_params in
  let ws := if dropped
    then [warning_at ParseHeaderSmugglingBlocked (lit "reason=bodystructure_param_dropped") (filename_location idx)]
    else [] in
  match header with
  | None =>
      (None, ws ++ [warning_at ParseAttachmentFilenameRewritten
                      (lit "reason=params_exceed_limit,limit=" ++ to_decimal MAX_HEADER_BYTES) (filename_location idx)])
  | Some header =>
      match parse (str_bytes header) with
      | None | Some [] => (None, ws)
      | Some name => let '(safe, ws') := sanitize_attachment_filename name idx in (Some safe, ws ++ ws')
      end
  end.
End filename.

(** ** Lemmas on strings *)

Lemma split_where_pieces p s q c : q ∈ split_where p s -> c ∈ q -> c ∈ s /\ p c = false.
Proof.
  revert q. induction s as [|x s IH]; intros q; cbn.
  - intros ->%list_elem_of_singleton Hc. by apply elem_of_nil in Hc.
  - destruct (p x) eqn:E.
    + intros [->|Hq]%elem_of_cons Hc; [by apply elem_of_nil in Hc|]. destruct (IH q Hq Hc). split; [by right|done].
    + destruct (split_where p s) as [|q' qs].
      * intros ->%list_elem_of_singleton Hc. apply list_elem_of_singleton in Hc as ->. split; [by left|done].
      * intros [->|Hq]%elem_of_cons Hc.
        -- apply elem_of_cons in Hc as [->|Hc]; [split; [by left|done]|]. destruct (IH q' ltac:(by left) Hc). split; [by right|done].
        -- destruct (IH q ltac:(by right) Hc). split; [by right|done].
Qed.

Lemma elem_of_join sep ps c : c ∈ join sep ps -> c ∈ sep \/ exists p, p ∈ ps /\ c ∈ p.
Proof.
  induction ps as [|p [|q ps] IH]; [by intros ?%elem_of_nil|intros Hc; right; exists p; split; [by left|done]|].
  rewrite join_cons by done. intros [Hc|[Hc|Hc]%elem_of_app]%elem_of_app; [|by left|].
  - right. exists p. split; [by left|done].
  - destruct (IH Hc) as [?|(r & Hr & ?)]; [by left|]. right. exists r. split; [by right|done].
Qed.

Lemma drop_while_elem p s c : c ∈ drop_while p s -> c ∈ s.
Proof. destruct (drop_while_suffix p s) as (pre & Hs & _). intros Hc. rewrite Hs. apply elem_of_app. by right. Qed.

Lemma drop_while_head p s c : head (drop_while p s) = Some c -> p c = false.
Proof. induction s as [|x s IH]; cbn; [done|]. destruct (p x) eqn:E; [done|]. by intros [= <-]. Qed.

Lemma trim_end_prefix p s : trim_end_matches p s `prefix_of` s.
Proof.
  unfold trim_end_matches. destruct (drop_while_suffix p (rev s)) as (pre & Hs & _). exists (rev pre).
  rewrite <- rev_app_distr, <- Hs. by rewrite rev_involutive.
Qed.

Lemma prefix_head {A} (l k : list A) c : l `prefix_of` k -> head l = Some c -> head k = Some c.
Proof. intros [r ->]. by destruct l. Qed.

Lemma prefix_elem {A} (l k : list A) c : l `prefix_of` k -> c ∈ l -> c ∈ k.
Proof. intros [r ->] Hc. apply elem_of_app. by left. Qed.

Lemma trim_end_last p s c : last (trim_end_matches p s) = Some c -> p c = false.
Proof.
  unfold trim_end_matches. intros Hc. apply (drop_while_head p (rev s)). destruct (drop_while p (rev s)) as [|x l]; [done|].
  cbn [rev] in Hc. by rewrite last_snoc in Hc.
Qed.

Lemma filter_elem {A} (p : A -> bool) l c : c ∈ List.filter p l <-> c ∈ l /\ p c = true.
Proof. rewrite !list_elem_of_In, filter_In. done. Qed.

Lemma to_decimal_length n : 0 <= n <= u64_max -> (length (to_decimal n) <= 65)%nat.
Proof.
  intros Hn. unfold to_decimal.
  assert (Hd : forall f n, (length (digits_fuel f n) <= f)%nat).
  { clear. induction f as [|f IH]; intros n; cbn; [lia|]. destruct (n <? 10); cbn; [lia|].
    rewrite length_app. cbn. specialize (IH (n / 10)). lia. }
  etransitivity; [apply Hd|]. assert (Z.log2 n <= Z.log2 u64_max) by (apply Z.log2_le_mono; lia).
  change (Z.log2 u64_max) with 63 in *. pose proof (Z.log2_nonneg n). lia.
Qed.

(** ** The file name *)

Section names.
Context `{UnicodeLib} (debug_str : rstr -> rstr).

(** A name the file system takes as it is. *)
Definition plain_name (s : rstr) : Prop :=
  s <> [] /\ Forall (fun c => is_separator c = false /\ c <> 0) s /\
  (forall c, head s = Some c -> dot_or_space c = false).

Definition trimmed_name (name : rstr) : rstr :=
  let parts := map (fun segment => if str_eqb segment (lit "..") then lit "_" else segment) (split_where is_separator name) in
  let no_nul := List.filter (fun c => negb (c =? 0)) (join (lit "_") parts) in
  trim_end_matches dot_or_space (trim_start_matches dot_or_space no_nul).

Lemma trimmed_chars name c : c ∈ trimmed_name name -> is_separator c = false /\ c <> 0 /\ (c ∈ name \/ c = 95).
Proof.
  unfold trimmed_name. intros Hc. eapply prefix_elem in Hc; [|apply trim_end_prefix].
  apply drop_while_elem, filter_elem in Hc as [Hc H0]. apply negb_true_iff, Z.eqb_neq in H0.
  apply elem_of_join in Hc as [Hc|(q & Hq & Hc)].
  - apply list_elem_of_singleton in Hc as ->. split_and!; [done|done|by right].
  - apply list_elem_of_fmap in Hq as (seg & -> & Hseg). destruct (str_eqb seg (lit "..")).
    + apply list_elem_of_singleton in Hc as ->. split_and!; [done|done|by right].
    + destruct (split_where_pieces _ _ _ _ Hseg Hc). split_and!; [done|done|by left].
Qed.

Lemma trimmed_head name c : head (trimmed_name name) = Some c -> dot_or_space c = false.
Proof.
  unfold trimmed_name. intros Hc. eapply prefix_head in Hc; [|apply trim_end_prefix]. by eapply drop_while_head.
Qed.

Lemma uncapped_eq name : uncapped_name name =
  if reserved_stem (trimmed_name name) then lit "_" ++ trimmed_name name else trimmed_name name.
Proof. done. Qed.

Lemma uncapped_chars name c : c ∈ uncapped_name name -> is_separator c = false /\ c <> 0 /\ (c ∈ name \/ c = 95).
Proof.
  rewrite uncapped_eq. destruct (reserved_stem _); [|apply trimmed_chars].
  intros [Hc|Hc]%elem_of_app; [|by apply trimmed_chars]. apply list_elem_of_singleton in Hc as ->.
  split_and!; [done|done|by right].
Qed.

Lemma uncapped_head name c : head (uncapped_name name) = Some c -> dot_or_space c = false.
Proof.
  rewrite uncapped_eq. destruct (reserved_stem _); [|apply trimmed_head]. by intros [= <-].
Qed.

Lemma underscore_not_reserved s : reserved_stem (lit "_" ++ s) = false.
Proof.
  unfold reserved_stem. change (to_ascii_lowercase (lit "_" ++ s)) with (95 :: to_ascii_lowercase s).
  cbn [split_on]. change (95 =? 46) with false. cbn iota.
  destruct (split_on 46 (to_ascii_lowercase s)) as [|q qs]; cbn [hd];
    (apply not_true_iff_false; rewrite existsb_exists; intros (x & Hx & E); apply str_eqb_eq in E; subst x;
     repeat (destruct Hx as [Hx|Hx]; [by inversion Hx|]); done).
Qed.

Lemma uncapped_not_reserved name : reserved_stem (uncapped_name name) = false.
Proof.
  rewrite uncapped_eq. destruct (reserved_stem (trimmed_name name)) eqn:E; [apply underscore_not_reserved|done].
Qed.

Lemma uncapped_last name c : last (uncapped_name name) = Some c -> dot_or_space c = false.
Proof.
  assert (Ht : forall c, last (trimmed_name name) = Some c -> dot_or_space c = false) by (intros ?; apply trim_end_last).
  rewrite uncapped_eq. destruct (reserved_stem (trimmed_name name)); [|apply Ht].
  destruct (trimmed_name name) as [|x s]; [by intros [= <-]|].
  change (lit "_" ++ x :: s) with (95 :: x :: s). cbn. apply Ht.
Qed.

Lemma fallback_plain idx : 0 <= idx <= u64_max ->
  plain_name (lit "attachment_" ++ to_decimal idx) /\ str_len (lit "attachment_" ++ to_decimal idx) <= 255 /\
  Forall harmless (lit "attachment_" ++ to_decimal idx).
Proof.
  intros Hi. destruct (to_decimal_spec idx) as (_ & Hd & _); [lia|].
  assert (Hdig : Forall (fun c => 48 <= c <= 57) (to_decimal idx)).
  { eapply Forall_impl; [exact Hd|]. intros c Hc. unfold is_ascii_digit, between in Hc. zify_bool. lia. }
  split; [|split].
  - split_and!; [done| |by intros c [= <-]]. apply Forall_app. split; [repeat constructor; discriminate|].
    eapply Forall_impl; [exact Hdig|]. intros c Hc. cbv beta in Hc. unfold is_separator. split; [|lia].
    apply orb_false_iff. rewrite !Z.eqb_neq. lia.
  - rewrite str_len_ascii.
    + rewrite length_app. pose proof (to_decimal_length idx Hi). change (length (lit "attachment_")) with 11%nat. lia.
    + apply Forall_app. split; [|eapply Forall_impl; [exact Hdig|]; cbv beta; intros; lia].
      repeat (apply List.Forall_cons; [split; [apply Z.leb_le|apply Z.ltb_lt]; reflexivity|]). constructor.
  - apply Forall_app. split; [apply (bool_decide_unpack _); vm_compute; exact I|]. eapply Forall_impl; [exact Hdig|].
    intros c Hc. cbv beta in Hc. unfold harmless, invisible, directional, control. lia.
Qed.

(** The name alone, before and after the cap. *)
Lemma sanitize_filename_plain name idx : 0 <= idx <= u64_max ->
  let out := (sanitize_filename name idx).1 in
  plain_name out /\ str_len out <= 255 /\
  (Forall harmless name -> Forall harmless out) /\
  (uncapped_name name <> [] -> str_len (uncapped_name name) <= 255 ->
    out = uncapped_name name /\ reserved_stem out = false /\ forall c, last out = Some c -> dot_or_space c = false).
Proof.
  intros Hi out. subst out. unfold sanitize_filename. cbn [fst].
  destruct (truncate_graphemes_spec (uncapped_name name) 255) as (Hl & [rest Hr] & Hfit & _); [lia|].
  assert (Hpre : truncate_graphemes (uncapped_name name) 255 `prefix_of` uncapped_name name) by (by exists rest).
  pose proof (fallback_plain idx Hi) as (Hf1 & Hf2 & Hf3).
  destruct (truncate_graphemes (uncapped_name name) 255) as [|x s] eqn:Et.
  { split; [done|]. split; [done|]. split; [done|]. intros Hne Hle. by rewrite (Hfit Hle) in Hne. }
  split; [split; [done|split]|split; [done|split]].
  - apply Forall_forall. intros c Hc. destruct (uncapped_chars name c) as (? & ? & _); [by eapply prefix_elem|done].
  - intros c Hc. apply (uncapped_head name). by eapply prefix_head.
  - intros Hn. apply Forall_forall. intros c Hc.
    destruct (uncapped_chars name c) as (_ & _ & [Hin| ->]); [by eapply prefix_elem| |by apply (bool_decide_unpack _)].
    rewrite Forall_forall in Hn. auto.
  - intros _ Hle. rewrite (Hfit Hle). split_and!; [done|apply uncapped_not_reserved|apply uncapped_last].
Qed.

(** The whole pipeline's name. *)
Lemma attachment_name_clean name idx : 0 <= idx <= u64_max ->
  let out := (sanitize_attachment_filename debug_str name idx).1 in
  plain_name out /\ str_len out <= 255 /\ Forall harmless out.
Proof.
  intros Hi. unfold sanitize_attachment_filename.
  pose proof (sanitized_visible (str_bytes name) (Some (lit "utf-8")) MAX_HEADER_BYTES (filename_location idx)) as Hv.
  destruct (sanitize _ _ _ _) as [clean unicode_ws]. cbn [fst] in Hv.
  destruct (sanitize_filename_plain clean idx Hi) as (Hp & Hl & Hvis & _).
  destruct (sanitize_filename clean idx) as [safe rewritten]. cbn [fst] in *.
  split; [done|]. split; [done|]. apply Hvis, Hv. vm_compute. discriminate.
Qed.

(** ** On the file system *)

Lemma plain_no_slash s : plain_name s -> ~ 47 ∈ s.
Proof. intros (_ & Hf & _) Hin. rewrite Forall_forall in Hf. by destruct (Hf 47 Hin). Qed.

(** A plain name is one component, so the download is stored under it. *)
Lemma plain_path s : plain_name s -> safe_parts s =
  (s, default (lit "attachment") (path_file_stem s), path_extension s).
Proof.
  intros Hp. assert (Hc : path_file_name s = Some s).
  { unfold path_file_name, components. rewrite split_on_plain by by apply plain_no_slash.
    destruct Hp as (Hne & _ & Hh). destruct s as [|c s]; [done|].
    specialize (Hh c eq_refl). assert (c <> 46) by (intros ->; done).
    assert (E1 : str_eqb (c :: s) (lit ".") = false) by (apply not_true_iff_false; intros E%str_eqb_eq; by injection E).
    assert (E2 : str_eqb (c :: s) (lit "..") = false) by (apply not_true_iff_false; intros E%str_eqb_eq; by injection E).
    unfold piece_component. rewrite E1, E2. done. }
  unfold safe_parts. by rewrite Hc.
Qed.
End names.

(** ** Properties of the name *)

Section name_properties.
Context `{UnicodeLib} (debug_str : rstr -> rstr).

(** Every attachment name is safe to show and to store.  Whatever the sender
    wrote, the name is not empty, has at most 255 bytes, holds no path
    separator, NUL, bidi control, zero-width or tag character or carriage
    return, does not begin with a dot or a space, and is a single path
    component, so the download sandbox stores the file under exactly this
    name; and the warnings tell of a bidi override in the raw name, of what
    the sanitiser stripped, of a rewrite exactly when the name changed, and of
    a document extension followed by an executable one in the name as shown. *)
Theorem filename_safe name idx : 0 <= idx <= u64_max ->
  let '(out, ws) := sanitize_attachment_filename debug_str name idx in
  let '(clean, unicode_ws) := sanitize (str_bytes name) (Some (lit "utf-8")) MAX_HEADER_BYTES (filename_location idx) in
  plain_name out /\ str_len out <= 255 /\ Forall harmless out /\
  (safe_parts out).1.1 = out /\
  map code ws =
    (if contains_bidi_override name then [LookalikeFilenameExtensionSpoof] else []) ++ map code unicode_ws ++
    (if str_eqb out clean then [] else [ParseAttachmentFilenameRewritten]) ++
    (match detect_double_extension out with Some _ => [LookalikeFilenameExtensionSpoof] | None => [] end).
Proof.
  intros Hi. pose proof (attachment_name_clean debug_str name idx Hi) as (Hp & Hl & Hv). revert Hp Hl Hv.
  unfold sanitize_attachment_filename. destruct (sanitize _ _ _ _) as [clean unicode_ws].
  destruct (sanitize_filename clean idx) as [safe rewritten] eqn:Es. cbn [fst]. intros Hp Hl Hv.
  split; [done|]. split; [done|]. split; [done|]. split; [by rewrite plain_path|].
  rewrite !map_app. f_equal; [by destruct (contains_bidi_override name)|]. f_equal. f_equal.
  - unfold sanitize_filename in Es. injection Es as <- <-. by destruct (str_eqb _ clean).
  - by destruct (detect_double_extension safe) as [[? ?]|].
Qed.
End name_properties.

(** ** The rebuilt header *)

Section framing.

Lemma bytes_app a b : str_bytes (a ++ b) = str_bytes a ++ str_bytes b.
Proof. unfold str_bytes. by rewrite map_app, concat_app. Qed.

Lemma quote_bytes c : List.filter (fun b => (b =? 34) || (b =? 92)) (utf8_encode c) =
  if (c =? 34) || (c =? 92) then [c] else [].
Proof.
  unfold utf8_encode. destruct (c <? 0x80) eqn:E1; [cbn; by destruct ((c =? 34) || (c =? 92))|]. zify_bool.
  assert (Hc : (c =? 34) || (c =? 92) = false) by (apply orb_false_iff; rewrite !Z.eqb_neq; lia). rewrite Hc.
  assert (Hb : forall b, 128 <= b -> (b =? 34) || (b =? 92) = false) by (intros; apply orb_false_iff; rewrite !Z.eqb_neq; lia).
  pose proof (Z.mod_pos_bound c 64 ltac:(lia)). pose proof (Z.mod_pos_bound (c / 64) 64 ltac:(lia)).
  pose proof (Z.mod_pos_bound (c / 4096) 64 ltac:(lia)).
  pose proof (Z.div_pos c 64 ltac:(lia) ltac:(lia)). pose proof (Z.div_pos c 4096 ltac:(lia) ltac:(lia)).
  pose proof (Z.div_pos c 262144 ltac:(lia) ltac:(lia)).
  destruct (c <? 0x800); [|destruct (c <? 0x10000)]; cbn [List.filter]; rewrite !Hb by lia; done.
Qed.

Lemma quoted_len value : str_len (quoted value) =
  str_len value + 2 + Z.of_nat (length (List.filter (fun b => (b =? 34) || (b =? 92)) (str_bytes value))).
Proof.
  unfold quoted. rewrite !str_len_app. change (str_len [34]) with 1. unfold str_bytes.
  induction value as [|c value IH]; [done|]. cbn [map concat]. rewrite List.filter_app, length_app, quote_bytes.
  change (str_len (c :: value)) with (utf8_len c + str_len value). rewrite str_len_app.
  destruct ((c =? 34) || (c =? 92)) eqn:E.
  - apply orb_true_iff in E. rewrite !Z.eqb_eq in E.
    assert (Hl : str_len [92; c] = 1 + utf8_len c) by (destruct E as [->| ->]; reflexivity). rewrite Hl. cbn [length]. lia.
  - change (str_len [c]) with (utf8_len c + 0). cbn [length]. lia.
Qed.

Lemma fold_param_len key value : str_len (fold_param key value) = param_bytes key value.
Proof.
  unfold fold_param, param_bytes. rewrite !str_len_app.
  change (str_len (lit ";")) with 1. change (str_len CRLF) with 2. change (str_len (lit " ")) with 1.
  change (str_len (lit "=")) with 1. destruct (is_extended key value); [lia|]. rewrite quoted_len. lia.
Qed.

(** The parameters of a list that reach the header. *)
Definition kept_param (p : rstr * rstr) : bool := is_name_param p.1 && negb (is_unsafe_param p.1 p.2).
Definition folds (params : list (rstr * rstr)) : rstr := concat (map (fun p => fold_param p.1 p.2) (List.filter kept_param params)).

Lemma append_spec limit params : forall header dropped header' dropped', str_len header <= limit ->
  append_name_params limit params header dropped = (header', dropped', true) ->
  header' = header ++ folds params /\ str_len header' <= limit /\
  dropped' = dropped || existsb (fun p => is_name_param p.1 && is_unsafe_param p.1 p.2) params.
Proof.
  unfold folds. induction params as [|[key value] params IH]; intros header dropped header' dropped' Hl; cbn [append_name_params].
  - intros [= <- <-]. cbn. by rewrite app_nil_r, orb_false_r.
  - cbn [List.filter existsb]. unfold kept_param at 1. cbn [fst snd].
    destruct (is_name_param key); cbn [negb andb]; [|by apply IH].
    destruct (is_unsafe_param key value); cbn [negb andb].
    + intros Ha. destruct (IH _ _ _ _ Hl Ha) as (-> & ? & ->). split_and!; [done|done|]. by destruct dropped.
    + destruct ((limit <? str_len key) || (limit <? str_len value)); [done|].
      destruct (Z.max 0 (limit - str_len header) <? param_bytes key value) eqn:Eb; [done|]. zify_bool.
      intros Ha. assert (Hp : 5 <= param_bytes key value).
      { unfold param_bytes. pose proof (str_len_nonneg key). pose proof (str_len_nonneg value).
        destruct (is_extended key value); lia. }
      assert (Hl' : str_len (header ++ fold_param key value) <= limit) by (rewrite str_len_app, fold_param_len; lia).
      destruct (IH _ _ _ _ Hl' Ha) as (-> & ? & ->). split_and!; [|done|done]. cbn [map concat]. by rewrite <- app_assoc.
Qed.
End framing.

Section logical_lines.

Lemma split_no_lf cur a s : ~ 10 ∈ a -> split_lines_from cur (a ++ s) = split_lines_from (cur ++ a) s.
Proof.
  revert cur. induction a as [|b a IH]; intros cur Hn; [by rewrite app_nil_r|]. cbn [app split_lines_from].
  destruct (b =? 10) eqn:E; zify_bool; [exfalso; apply Hn; subst; by left|].
  rewrite IH by (intros ?; apply Hn; by right). by rewrite <- app_assoc.
Qed.

Lemma split_fold cur s : split_lines_from cur (10 :: 32 :: s) = split_lines_from (cur ++ [10; 32]) s.
Proof. cbn. by rewrite <- app_assoc. Qed.

(** A line ends at an LF that no space or tab follows. *)
Lemma split_end cur s : match s with c :: _ => c <> 32 /\ c <> 9 | [] => True end ->
  split_lines_from cur (10 :: s) = (cur ++ [10]) :: split_lines_from [] s.
Proof.
  destruct s as [|c s]; [done|]. intros [H1 H2]. cbn [split_lines_from]. change (10 =? 10) with true. cbn iota.
  by rewrite (proj2 (Z.eqb_neq c 32) H1), (proj2 (Z.eqb_neq c 9) H2).
Qed.

Lemma quoted_elem b value : b ∈ str_bytes (quoted value) -> b = 34 \/ b = 92 \/ b ∈ str_bytes value.
Proof.
  unfold quoted. rewrite !bytes_app, !elem_of_app. intros [Hb|[Hb|Hb]].
  - apply list_elem_of_singleton in Hb. by left.
  - induction value as [|c value IH]; [by apply elem_of_nil in Hb|]. cbn [map concat] in Hb.
    rewrite bytes_app, elem_of_app in Hb. change (str_bytes (c :: value)) with (utf8_encode c ++ str_bytes value).
    rewrite elem_of_app. destruct Hb as [Hb|Hb]; [|naive_solver].
    destruct ((c =? 34) || (c =? 92)) eqn:E.
    + apply orb_true_iff in E. rewrite !Z.eqb_eq in E. destruct E as [->| ->]; cbn in Hb; set_solver.
    + unfold str_bytes in Hb. cbn in Hb. rewrite app_nil_r in Hb. tauto.
  - apply list_elem_of_singleton in Hb. by left.
Qed.

Lemma safe_no_lf key value : is_unsafe_param key value = false ->
  ~ 10 ∈ str_bytes key /\ ~ 10 ∈ str_bytes value.
Proof.
  unfold is_unsafe_param. rewrite orb_false_iff, negb_false_iff, forallb_forall. intros [Hk Hv]. split.
  - intros Hin. apply list_elem_of_In, Hk in Hin. done.
  - intros Hin. apply not_true_iff_false in Hv. apply Hv, existsb_exists. exists 10. by rewrite <- list_elem_of_In.
Qed.

Lemma split_param cur key value s : is_unsafe_param key value = false ->
  split_lines_from cur (str_bytes (fold_param key value) ++ s) = split_lines_from (cur ++ str_bytes (fold_param key value)) s.
Proof.
  intros Hu. destruct (safe_no_lf key value Hu) as [Hk Hv].
  set (rest := key ++ lit "=" ++ (if is_extended key value then value else quoted value)).
  assert (Hrest : ~ 10 ∈ str_bytes rest).
  { unfold rest. rewrite !bytes_app, !elem_of_app. intros [Hin|[Hin|Hin]]; [done|by apply list_elem_of_singleton in Hin|].
    destruct (is_extended key value); [done|]. destruct (quoted_elem _ _ Hin) as [?|[?|?]]; done. }
  assert (Hf : str_bytes (fold_param key value) = [59; 13] ++ 10 :: 32 :: str_bytes rest).
  { unfold fold_param. change (lit ";" ++ CRLF ++ lit " " ++ key ++ lit "=" ++ (if is_extended key value then value else quoted value))
      with ([59; 13; 10; 32] ++ rest). by rewrite bytes_app. }
  rewrite Hf, <- app_assoc, split_no_lf by (intros Hin; set_solver).
  cbn [app]. rewrite split_fold, split_no_lf by done. by rewrite <- !app_assoc.
Qed.

Lemma folds_cons key value params :
  folds ((key, value) :: params) = (if kept_param (key, value) then fold_param key value else []) ++ folds params.
Proof. unfold folds. cbn [List.filter]. by destruct (kept_param (key, value)). Qed.

Lemma split_folds params : forall cur s,
  split_lines_from cur (str_bytes (folds params) ++ s) = split_lines_from (cur ++ str_bytes (folds params)) s.
Proof.
  induction params as [|[key value] params IH]; intros cur s; [cbn; by rewrite app_nil_r|].
  rewrite folds_cons. destruct (kept_param (key, value)) eqn:E; [|apply IH].
  apply andb_true_iff in E as [_ Eu]. apply negb_true_iff in Eu.
  rewrite bytes_app, <- app_assoc, split_param by done. rewrite IH. by rewrite <- app_assoc.
Qed.

(** A quoted string read back: up to the first quote that no backslash precedes. *)
Fixpoint read_quoted (s : rstr) : option (rstr * rstr) :=
  match s with
  | 34 :: rest => Some ([], rest)
  | 92 :: c :: rest => '(v, r) ← read_quoted rest; Some (c :: v, r)
  | c :: rest => '(v, r) ← read_quoted rest; Some (c :: v, r)
  | [] => None
  end.

Lemma read_plain c s : c <> 34 -> c <> 92 -> read_quoted (c :: s) = '(v, r) ← read_quoted s; Some (c :: v, r).
Proof. intros H1 H2. destruct c as [|p|p]; try done. do 7 (destruct p; try done). Qed.

Lemma read_quoted_quoted value rest : read_quoted (tl (quoted value) ++ rest) = Some (value, rest).
Proof.
  unfold quoted. cbn [app tl]. induction value as [|c value IH]; [done|]. cbn [map concat].
  destruct ((c =? 34) || (c =? 92)) eqn:E.
  - cbn [app read_quoted]. by rewrite IH.
  - apply orb_false_iff in E. rewrite !Z.eqb_neq in E. destruct E. cbn [app]. rewrite read_plain by done. by rewrite IH.
Qed.
End logical_lines.

Lemma no_lf (s : list Z) : bool_decide (10 ∈ s) = false -> ~ 10 ∈ s.
Proof. apply bool_decide_eq_false. Qed.

(** The splitter on the two fields. *)
Lemma logical_two ct disp :
  split_header_lines (str_bytes (type_line ++ folds ct ++ disposition ++ folds disp ++ CRLF)) =
    [str_bytes (type_line ++ folds ct ++ CRLF); str_bytes (lit "Content-Disposition: attachment" ++ folds disp ++ CRLF)].
Proof.
  change disposition with ([13] ++ [10] ++ lit "Content-Disposition: attachment"). change CRLF with ([13] ++ [10]).
  unfold split_header_lines. rewrite !bytes_app. change (str_bytes [10]) with [10]. change (str_bytes [13]) with [13].
  rewrite (split_no_lf [] (str_bytes type_line)) by (apply no_lf; vm_compute; reflexivity).
  rewrite split_folds, <- !app_assoc, (split_no_lf _ [13]) by (apply no_lf; reflexivity).
  cbn [app]. rewrite split_end by (vm_compute; split; discriminate).
  rewrite (split_no_lf [] (str_bytes (lit "Content-Disposition: attachment"))) by (apply no_lf; vm_compute; reflexivity).
  rewrite split_folds. rewrite (split_no_lf _ [13] [10]) by (apply no_lf; reflexivity).
  rewrite split_end by done. by rewrite <- !app_assoc.
Qed.

(** The header rebuilt from BODYSTRUCTURE parameters cannot be smuggled
    into.  When the parameters fit, the header holds its two fields with
    exactly the name parameters that are a token and a value without CR, LF
    and NUL, folded and in order; it has at most [MAX_HEADER_BYTES] bytes;
    the crate's own splitter sees two logical lines in it, whatever the
    parameters; every quoted value is read back whole; and a parameter was
    dropped exactly when one was not safe. *)
Theorem name_header_framing ct disp header dropped : name_header ct disp = (Some header, dropped) ->
  let fields := type_line ++ folds ct ++ disposition ++ folds disp ++ CRLF in
  header = fields ++ CRLF /\ str_len header <= MAX_HEADER_BYTES /\
  split_header_lines (str_bytes fields) =
    [str_bytes (type_line ++ folds ct ++ CRLF); str_bytes (lit "Content-Disposition: attachment" ++ folds disp ++ CRLF)] /\
  (forall value rest, read_quoted (tl (quoted value) ++ rest) = Some (value, rest)) /\
  dropped = existsb (fun p => is_name_param p.1 && is_unsafe_param p.1 p.2) (ct ++ disp).
Proof.
  unfold name_header. destruct (append_name_params _ ct _ _) as [[h1 d1] f1] eqn:E1.
  destruct f1; [|done]. destruct (append_name_params _ disp _ _) as [[h2 d2] f2] eqn:E2. destruct f2; [|done].
  intros [= <- <-]. change (MAX_HEADER_BYTES - str_len disposition - 4) with 8155 in E1.
  change (MAX_HEADER_BYTES - 4) with 8188 in E2. change (str_len disposition) with 33 in *.
  apply append_spec in E1 as (-> & Hl1 & ->); [|vm_compute; discriminate].
  apply append_spec in E2 as (-> & Hl2 & ->); [|rewrite str_len_app; change (str_len disposition) with 33; lia].
  cbn zeta. split_and!.
  - by rewrite <- !app_assoc.
  - rewrite (str_len_app _ (CRLF ++ CRLF)). change (str_len (CRLF ++ CRLF)) with 4. change MAX_HEADER_BYTES with 8192. lia.
  - apply logical_two.
  - apply read_quoted_quoted.
  - by rewrite existsb_app, orb_false_l.
Qed.

(** ** Witnesses *)

(** A library that joins combining acute accents to what they follow. *)
Definition add_cluster (c : Z) (gs : list rstr) : list rstr :=
  match gs with
  | (769 :: g) :: gs' => (c :: 769 :: g) :: gs'
  | _ => [c] :: gs
  end.

Lemma add_cluster_concat c gs : concat (add_cluster c gs) = c :: concat gs.
Proof.
  unfold add_cluster. destruct gs as [|[|x g] gs]; try done.
  destruct x as [|p|p]; try done. do 10 (destruct p; try done).
Qed.

Lemma add_cluster_nonempty c gs : Forall (fun g => g <> []) gs -> Forall (fun g => g <> []) (add_cluster c gs).
Proof.
  unfold add_cluster. intros Hg. destruct gs as [|[|x g] gs]; try by constructor.
  apply Forall_cons in Hg as [Hx Hg].
  assert (Hb : forall h, h <> [] -> Forall (fun g => g <> []) (h :: gs)) by (intros; by constructor).
  destruct x as [|p|p]; [by constructor; [|by constructor]|..|by constructor; [|by constructor]].
  do 10 (destruct p; try (by constructor; [|by constructor])). by apply Hb.
Qed.

Fixpoint utf8_decode (bs : list Z) : rstr :=
  match bs with
  | b :: ((c :: bs2) as bs1) =>
      if between 0xC0 0xDF b then (b - 0xC0) * 64 + (c - 0x80) :: utf8_decode bs2
      else if between 0xE0 0xEF b then
        match bs2 with
        | d :: bs3 => (b - 0xE0) * 4096 + (c - 0x80) * 64 + (d - 0x80) :: utf8_decode bs3
        | [] => bs
        end
      else b :: utf8_decode bs1
  | _ => bs
  end.

#[local] Instance accent_unicode : UnicodeLib.
Proof.
  refine {| decode := fun bytes _ => utf8_decode bytes; normalize_nfkc := fun s => s; graphemes := foldr add_cluster [] |}.
  - induction s as [|c s IH]; [done|]. cbn [foldr]. by rewrite add_cluster_concat, IH.
  - induction s as [|c s IH]; [constructor|]. by apply add_cluster_nonempty.
  - done.
Defined.

Definition plain_debug (s : rstr) : rstr := [34] ++ s ++ [34].

Lemma filename_safe_witness :
  let '(out, ws) := sanitize_attachment_filename plain_debug (lit "..\CON/report.pdf.exe ") 3 in
  out = lit "__CON_report.pdf.exe" /\ plain_name out /\ (safe_parts out).1.1 = out /\
  map code ws = [ParseAttachmentFilenameRewritten; LookalikeFilenameExtensionSpoof].
Proof.
  assert (Hi : 0 <= 3 <= u64_max) by (split; [apply Z.leb_le|apply Z.leb_le]; reflexivity).
  pose proof (filename_safe plain_debug (lit "..\CON/report.pdf.exe ") 3 Hi) as H.
  split; [vm_compute; reflexivity|]. split; [exact (proj1 H)|]. split; [exact (proj1 (proj2 (proj2 (proj2 H))))|].
  vm_compute. reflexivity.
Defined.

Definition ct_params : list (rstr * rstr) := [(lit "charset", lit "utf-8"); (lit "name", lit "a" ++ [34; 59; 92] ++ lit "b.pdf")].
Definition disp_params : list (rstr * rstr) :=
  [(lit "filename*", lit "utf-8''r.pdf"); (lit "filename", lit "x" ++ CRLF ++ lit "Bcc: y")].

Lemma name_header_framing_witness : exists header,
  name_header ct_params disp_params = (Some header, true) /\ str_len header <= MAX_HEADER_BYTES /\
  header = (type_line ++ folds ct_params ++ disposition ++ folds disp_params ++ CRLF) ++ CRLF.
Proof.
  eexists. assert (He : name_header ct_params disp_params = (Some _, true)) by (vm_compute; reflexivity).
  split; [exact He|]. pose proof (name_header_framing _ _ _ _ He) as (H1 & H2 & _). split; [exact H2|exact H1].
Defined.

(** The cap comes after the check for reserved stems, and can leave one. *)
Lemma cap_leaves_reserved :
  let name := lit "conx" ++ replicate 130 769 in
  sanitize_filename name 0 = (lit "con", true) /\ reserved_stem (lit "con") = true /\
  (sanitize_attachment_filename plain_debug name 0).1 = lit "con".
Proof. split_and!; vm_compute; reflexivity. Qed.
