(* ===== verification/ContentMeta.v ===== *)
(** * Metadata of a parsed message
    (crates/rimap-content/src/parse: headers.rs, meta.rs, attachments.rs,
    sniff.rs, threading.rs)

    The MIME parser's message is a record of what the code reads of it.
    Functions that push warnings are in a writer monad. *)

From Stdlib Require Import ZArith Lia.
From stdpp Require Import base option list numbers strings.
From S2P Require Import Prelude RustStr Content Unicode Filename.
Local Open Scope Z_scope.

(** ** The parsed message *)

Record Addr := mkAddr { addr_name : option rstr; addr_address : option rstr }.
(** [first] and [iter] of the parser's address lists and groups. *)
Record Address := mkAddress { first_addr : option Addr; all_addrs : list Addr }.
Inductive HeaderValue :=
  | HText (s : rstr) | HTextList (l : list rstr) | HAddress (a : Address)
  | HDateTime | HContentType | HReceived | HEmpty.
Record Header := mkHeader { header_name : rstr; header_value : HeaderValue; offset_start : nat; offset_end : nat }.
Inductive PartBody :=
  | BText (s : rstr) | BHtml (s : rstr) | BBinary (b : list Z) | BInlineBinary (b : list Z)
  | BMessage | BMultipart (children : list nat).
Record MessagePart := mkPart {
  part_content_type : option (rstr * option rstr); part_charset : option rstr;
  part_attachment_name : option rstr; part_content_id : option rstr;
  part_disposition_inline : option bool; part_body : PartBody; part_raw_len : Z }.
Record Message := mkMessage {
  m_from : option Address; m_to : option Address; m_cc : option Address; m_reply_to : option Address;
  m_subject : option rstr; m_date : option (bool * Z); m_message_id : option rstr;
  m_in_reply_to : HeaderValue; m_references : HeaderValue;
  m_list_id : HeaderValue; m_list_unsubscribe : HeaderValue; m_list_post : HeaderValue;
  m_headers : list Header; m_attachments : list nat; m_parts : list MessagePart;
  m_text_body : list nat; m_html_body : list nat }.

(** ** Pushing warnings *)

Definition W (A : Type) : Type := (A * list SecurityWarning)%type.
#[export] Instance w_ret : MRet W := fun A a => (a, []).
#[export] Instance w_bind : MBind W := fun A B f x => let '(a, ws) := x in let '(b, ws') := f a in (b, ws ++ ws').
Definition push (w : SecurityWarning) : W unit := (tt, [w]).
Fixpoint w_map {A B} (f : A -> W B) (l : list A) : W (list B) :=
  match l with
  | [] => mret []
  | a :: l => b ← f a; bs ← w_map f l; mret (b :: bs)
  end.
Definition w_opt {A B} (f : A -> W B) (o : option A) : W (option B) :=
  match o with Some a => b ← f a; mret (Some b) | None => mret None end.

(** ** Magic bytes *)

(* [crates/rimap-content/src/parse/sniff.rs:6-35] sniff_content_types *)
Definition signatures : list (list Z * rstr) :=
  [([0x89] ++ lit "PNG" ++ [13; 10; 0x1a; 10], lit "image/png");
   ([0xff; 0xd8; 0xff], lit "image/jpeg");
   (lit "GIF87a", lit "image/gif");
   (lit "GIF89a", lit "image/gif");
   (lit "%PDF", lit "application/pdf");
   (lit "PK" ++ [3; 4], lit "application/zip");
   (lit "MZ", lit "application/x-msdownload");
   ([0x7f] ++ lit "ELF", lit "application/x-elf");
   ([0xcf; 0xfa; 0xed; 0xfe], lit "application/x-mach-binary");
   ([0xfe; 0xed; 0xfa; 0xce], lit "application/x-mach-binary");
   ([0xfe; 0xed; 0xfa; 0xcf], lit "application/x-mach-binary");
   ([0xca; 0xfe; 0xba; 0xbe], lit "application/x-mach-binary");
   (lit "7z" ++ [0xbc; 0xaf; 0x27; 0x1c], lit "application/x-7z-compressed");
   (lit "Rar!" ++ [0x1a; 7; 0], lit "application/vnd.rar");
   (lit "Rar!" ++ [0x1a; 7; 1; 0], lit "application/vnd.rar");
   ([0xd0; 0xcf; 0x11; 0xe0; 0xa1; 0xb1; 0x1a; 0xe1], lit "application/x-ole-storage")].

(* [crates/rimap-content/src/parse/sniff.rs:28-34] sniff_content_types *)
Definition sniff_content_types (body : list Z) : list rstr :=
  fold_left (fun found '(sig, label) =>
    if starts_with sig body && negb (existsb (str_eqb label) found) then found ++ [label] else found) signatures [].

(* [crates/rimap-content/src/parse/sniff.rs:45-56] content_types_compatible *)
Definition content_types_compatible (declared sniffed : rstr) : bool :=
  if eq_ignore_ascii_case declared sniffed then true
  else if str_eqb sniffed (lit "application/zip") then
    let dl := to_ascii_lowercase declared in
    contains (lit "openxmlformats") dl || contains (lit "opendocument") dl
  else false.

Section meta.
Context `{UnicodeLib} (debug_str : rstr -> rstr) (domain_to_ascii : rstr -> option rstr).

(** [unicode::sanitize] on a header's text, its warnings pushed. *)
Definition sanitize_text (s : rstr) (location : rstr) : W rstr :=
  sanitize (str_bytes s) (Some (lit "utf-8")) MAX_HEADER_BYTES location.

(** ** Addresses *)

(* [crates/rimap-content/src/parse/meta.rs:107-113] format_addr *)
Definition format_addr (a : Addr) : rstr :=
  let email := default [] (addr_address a) in
  match addr_name a with
  | Some (c :: n) => (c :: n) ++ lit " <" ++ email ++ lit ">"
  | _ => email
  end.

(* [crates/rimap-content/src/parse/meta.rs:116-124] addr_domain *)
Definition addr_domain (a : Addr) : option rstr :=
  email ← addr_address a;
  '(_, domain) ← rsplit_once 64 email;
  match trim domain with [] => None | trimmed => Some trimmed end.

(* [crates/rimap-content/src/parse/headers.rs:253-267] audit_domain_bidi_prestrip *)
Definition audit_domain_bidi_prestrip (raw_domain location : rstr) : W unit :=
  if negb (contains_bidi_override raw_domain) then mret tt
  else push (warning_at LookalikeHomographDomain
    (lit "domain=" ++ default (lit "invalid") (domain_to_ascii (trim raw_domain)) ++ lit ",reason=bidi_pre_strip") location).

(* [crates/rimap-content/src/parse/headers.rs:272-284] audit_addr_domain_bidi *)
Definition audit_addr_domain_bidi (a : Addr) (location : rstr) : W unit :=
  match addr_address a with
  | None => mret tt
  | Some email =>
      match rsplit_once 64 email with
      | None => mret tt
      | Some (_, domain) => audit_domain_bidi_prestrip domain location
      end
  end.

Definition address_text (location : rstr) (a : Addr) : W rstr :=
  _ ← audit_addr_domain_bidi a location; sanitize_text (format_addr a) location.

(* [crates/rimap-content/src/parse/meta.rs:69-88] address_strings *)
Definition address_strings (address : option Address) (location : rstr) : W (list rstr) :=
  match address with None => mret [] | Some a => w_map (address_text location) (all_addrs a) end.

(* [crates/rimap-content/src/parse/meta.rs:91-103] first_address_string *)
Definition first_address_string (address : option Address) (location : rstr) : W (option rstr) :=
  w_opt (address_text location) (a ← address; first_addr a).

(* [crates/rimap-content/src/parse/headers.rs:17-28] push_domains_from *)
Definition push_domains_from (group : option Address) (label : rstr) : list (rstr * rstr) :=
  match group with
  | None => []
  | Some a => omap (fun x => d ← addr_domain x; Some (d, label)) (all_addrs a)
  end.

(* [crates/rimap-content/src/parse/headers.rs:34-41] collect_header_domains *)
Definition collect_header_domains (m : Message) : list (rstr * rstr) :=
  push_domains_from (m_from m) (lit "header:from") ++ push_domains_from (m_to m) (lit "header:to") ++
  push_domains_from (m_cc m) (lit "header:cc") ++ push_domains_from (m_reply_to m) (lit "header:reply_to").

(** ** Header values *)

(* [crates/rimap-content/src/parse/headers.rs:64-82] header_value_first_text *)
Definition header_value_first_text (v : HeaderValue) (location : rstr) : W (option rstr) :=
  match v with
  | HText s => w_opt (fun s => sanitize_text s location) (Some s)
  | HTextList l => w_opt (fun s => sanitize_text s location) (head l)
  | HAddress _ | HDateTime | HContentType | HReceived | HEmpty => mret None
  end.

(* [crates/rimap-content/src/parse/headers.rs:85-107] header_value_all_text *)
Definition header_value_all_text (v : HeaderValue) (location : rstr) : W (list rstr) :=
  match v with
  | HText s => w_map (fun s => sanitize_text s location) [s]
  | HTextList l => w_map (fun s => sanitize_text s location) l
  | HAddress _ | HDateTime | HContentType | HReceived | HEmpty => mret []
  end.

Definition nonempty_text (location raw : rstr) : W (option rstr) :=
  match raw with [] => mret None | _ => text ← sanitize_text raw location; mret (Some text) end.

(* [crates/rimap-content/src/parse/headers.rs:215-247] sanitize_header_value *)
Definition sanitize_header_value (v : HeaderValue) (location : rstr) : W (option rstr) :=
  match v with
  | HText s => nonempty_text location s
  | HTextList l => nonempty_text location (join (lit ", ") l)
  | HAddress a =>
      texts ← w_map (fun x => _ ← audit_addr_domain_bidi x location; mret (format_addr x)) (all_addrs a);
      nonempty_text location (join (lit ", ") texts)
  | HDateTime | HContentType | HReceived | HEmpty => mret None
  end.

(* [crates/rimap-content/src/parse/headers.rs:171-185] raw_header_slice *)
Definition raw_header_slice (h : Header) (raw : list Z) (location : rstr) : W (option rstr) :=
  if (offset_end h <? offset_start h)%nat || (length raw <? offset_end h)%nat then mret None
  else
    text ← (sanitize (take (offset_end h - offset_start h) (drop (offset_start h) raw)) (Some (lit "utf-8"))
              MAX_HEADER_BYTES location : W rstr);
    mret (match trim text with [] => None | t => Some t end).

(* [crates/rimap-content/src/parse/headers.rs:150-165] coerce_header_value *)
Definition coerce_header_value (h : Header) (raw : list Z) (location : rstr) : W (option rstr) :=
  match header_value h with
  | HText _ | HTextList _ | HAddress _ => sanitize_header_value (header_value h) location
  | HDateTime | HContentType | HReceived => raw_header_slice h raw location
  | HEmpty => mret None
  end.

(* [crates/rimap-content/src/parse/headers.rs:127-141] extract_selected_headers *)
Definition select_header (m : Message) (raw : list Z) (name : rstr) : W (option SelectedHeader) :=
  let location := lit "header:" ++ to_ascii_lowercase name in
  values ← w_map (fun h => coerce_header_value h raw location)
             (List.filter (fun h => eq_ignore_ascii_case (header_name h) name) (m_headers m));
  mret (match omap id values with [] => None | vs => Some (mkSelectedHeader name vs) end).
(* [crates/rimap-content/src/parse/headers.rs:119-144] extract_selected_headers *)
Definition extract_selected_headers (m : Message) (raw : list Z) (wanted : list rstr) : W (list SelectedHeader) :=
  selected ← w_map (select_header m raw) wanted; mret (omap id selected).

(* [crates/rimap-content/src/parse/headers.rs:190-210] extract_mailing_list *)
Definition extract_mailing_list (m : Message) : W (option MailingListInfo) :=
  id_ ← sanitize_header_value (m_list_id m) (lit "header:list_id");
  unsubscribe ← sanitize_header_value (m_list_unsubscribe m) (lit "header:list_unsubscribe");
  post ← sanitize_header_value (m_list_post m) (lit "header:list_post");
  mret (match id_, unsubscribe, post with
        | None, None, None => None
        | _, _, _ => Some (mkMailingListInfo id_ unsubscribe post)
        end).

(** ** Attachments *)

(* [crates/rimap-content/src/parse/attachments.rs:97-103] part_bytes *)
Definition part_bytes (p : MessagePart) : list Z :=
  match part_body p with
  | BText s | BHtml s => str_bytes s
  | BBinary b | BInlineBinary b => b
  | BMessage | BMultipart _ => []
  end.

(* [crates/rimap-content/src/parse/attachments.rs:108-120] is_inline *)
Definition part_is_inline (p : MessagePart) : bool :=
  match part_body p with
  | BInlineBinary _ => true
  | BText _ | BHtml _ | BBinary _ | BMessage | BMultipart _ => default false (part_disposition_inline p)
  end.

(* [crates/rimap-content/src/parse/attachments.rs:124-129] content_type_string *)
Definition content_type_string (ct : rstr * option rstr) : rstr :=
  match ct with (t, Some sub) => t ++ lit "/" ++ sub | (t, None) => t end.

Definition attachment_location (idx : nat) : rstr := lit "attachment[" ++ to_decimal (Z.of_nat idx) ++ lit "]".

(* [crates/rimap-content/src/parse/attachments.rs:41-61] build_attachment_meta *)
Definition sniff_warnings (declared : rstr) (body : list Z) (idx : nat) : list SecurityWarning :=
  let sniffed := sniff_content_types body in
  let detail := lit "declared=" ++ declared ++ lit " sniffed=" ++ join (lit ",") sniffed in
  (if (1 <? length sniffed)%nat then [warning_at ParseAttachmentPolyglot detail (attachment_location idx)] else []) ++
  (match sniffed with
   | [] => []
   | _ => if existsb (content_types_compatible declared) sniffed then []
          else [warning_at ParseMimeTypeMismatch detail (attachment_location idx)]
   end).

(* [crates/rimap-content/src/parse/attachments.rs:31-93] build_attachment_meta *)
Definition build_attachment_meta (p : MessagePart) (idx : nat) : W AttachmentMeta :=
  let declared := match part_content_type p with Some ct => content_type_string ct | None => lit "application/octet-stream" end in
  _ ← ((tt, sniff_warnings declared (part_bytes p) idx) : W unit);
  filename ← w_opt (fun name => sanitize_attachment_filename debug_str name (Z.of_nat idx) : W rstr) (part_attachment_name p);
  content_id ← w_opt (fun i => sanitize_text i (attachment_location idx ++ lit ":content_id")) (part_content_id p);
  ct ← sanitize_text declared (attachment_location idx ++ lit ":content_type");
  mret (mkAttachmentMeta filename ct (part_raw_len p) content_id (part_is_inline p)).

(** A part number out of range is skipped; its index is not reused. *)
(* [crates/rimap-content/src/parse/attachments.rs:15-27] extract_attachments *)
Definition extract_attachments (m : Message) : W (list AttachmentMeta) :=
  metas ← w_map (fun '(idx, part_id) => w_opt (fun p => build_attachment_meta p idx) (m_parts m !! part_id))
            (imap pair (m_attachments m));
  mret (omap id metas).

(** ** The metadata *)

(** [OffsetDateTime] holds the years -9999 to 9999. *)
(* [crates/rimap-content/src/parse/meta.rs:128-133] convert_datetime *)
Definition convert_datetime (dt : bool * Z) : option Z :=
  let '(valid, timestamp) := dt in
  if negb valid then None
  else if (-377705116800 <=? timestamp) && (timestamp <=? 253402300799) then Some timestamp else None.

(* [crates/rimap-content/src/parse/meta.rs:19-52] extract_meta *)
Definition extract_meta (m : Message) (original_size : Z) : W ContentMeta :=
  from ← first_address_string (m_from m) (lit "header:from");
  to ← address_strings (m_to m) (lit "header:to");
  cc ← address_strings (m_cc m) (lit "header:cc");
  reply_to ← first_address_string (m_reply_to m) (lit "header:reply_to");
  subject ← w_opt (fun s => sanitize_text s (lit "header:subject")) (m_subject m);
  let date := d ← m_date m; convert_datetime d in
  message_id ← w_opt (fun s => sanitize_text s (lit "header:message_id")) (m_message_id m);
  in_reply_to ← header_value_first_text (m_in_reply_to m) (lit "header:in_reply_to");
  references ← header_value_all_text (m_references m) (lit "header:references");
  mailing_list ← extract_mailing_list m;
  attachments ← extract_attachments m;
  mret (mkContentMeta from to cc reply_to subject date message_id in_reply_to references mailing_list attachments
          original_size false).

(** ** Threading headers *)

(* [crates/rimap-content/src/parse/threading.rs:20-27] ThreadingHeaders *)
Record ThreadingHeaders := mkThreading { th_message_id : option rstr; th_references : list rstr; th_in_reply_to : option rstr }.

(* [crates/rimap-content/src/parse/threading.rs:82-94] sanitize_msg_id *)
Definition sanitize_msg_id (i location : rstr) : rstr :=
  let stripped := List.filter (fun c => negb ((c =? 13) || (c =? 10) || (c =? 0) || (c =? 60) || (c =? 62))) i in
  (sanitize (str_bytes stripped) (Some (lit "utf-8")) MAX_HEADER_BYTES location).1.

(** [parsed] is the parser's answer; a panic is [None] too. *)
(* [crates/rimap-content/src/parse/threading.rs:33-76] extract_threading_headers *)
Definition extract_threading_headers (parsed : option Message) : ThreadingHeaders :=
  match parsed with
  | None => mkThreading None [] None
  | Some m =>
      mkThreading ((fun i => sanitize_msg_id i (lit "header:message_id")) <$> m_message_id m)
        (match m_references m with
         | HText t => [sanitize_msg_id t (lit "header:references")]
         | HTextList l => map (fun r => sanitize_msg_id r (lit "header:references")) l
         | _ => []
         end)
        (match m_in_reply_to m with HText t => Some (sanitize_msg_id t (lit "header:in_reply_to")) | _ => None end)
  end.
End meta.

(** ** Every string is sanitised *)

Section clean.
Context `{UnicodeLib}.

(** What the pipeline lets out, within a limit. *)
Definition clean (limit : Z) (s : rstr) : Prop := Forall harmless s /\ str_len s <= limit.
Abbreviation header_clean := (clean MAX_HEADER_BYTES).

Lemma sanitize_clean bytes charset m location : 0 <= m -> clean m (sanitize bytes charset m location).1.
Proof.
  intros Hm. split; [by apply sanitized_visible|]. unfold sanitize. cbn [fst].
  by apply truncate_graphemes_spec.
Qed.

Lemma header_limit : 0 <= MAX_HEADER_BYTES.
Proof. vm_compute. discriminate. Qed.

Lemma sanitize_text_clean s location : header_clean (sanitize_text s location).1.
Proof. apply sanitize_clean, header_limit. Qed.

(** The value of a computation that pushes warnings. *)
Lemma w_bind_fst {A B} (f : A -> W B) (x : W A) : (x ≫= f).1 = (f x.1).1.
Proof. destruct x as [a ws]. cbn. by destruct (f a). Qed.

Lemma w_ret_fst {A} (a : A) : (mret a : W A).1 = a.
Proof. done. Qed.

Lemma w_map_fst {A B} (f : A -> W B) l : (w_map f l).1 = map (fun a => (f a).1) l.
Proof.
  induction l as [|a l IH]; [done|]. cbn [w_map map]. by rewrite !w_bind_fst, IH.
Qed.

Lemma w_opt_fst {A B} (f : A -> W B) o : (w_opt f o).1 = (fun a => (f a).1) <$> o.
Proof. destruct o; [|done]. cbn [w_opt]. by rewrite w_bind_fst. Qed.
End clean.

Create HintDb writer.
#[export] Hint Rewrite @w_bind_fst @w_ret_fst @w_map_fst @w_opt_fst : writer.

Section clean_meta.
Context `{UnicodeLib} (debug_str : rstr -> rstr) (domain_to_ascii : rstr -> option rstr).
Abbreviation header_clean := (clean MAX_HEADER_BYTES).

Definition attachment_texts (a : AttachmentMeta) : list rstr :=
  option_list (filename a) ++ [content_type a] ++ option_list (content_id a).
Definition list_texts (l : MailingListInfo) : list rstr :=
  option_list (list_id l) ++ option_list (list_unsubscribe l) ++ option_list (list_post l).
(** Every string of the metadata. *)
Definition meta_texts (c : ContentMeta) : list rstr :=
  option_list (from c) ++ to c ++ cc c ++ option_list (reply_to c) ++ option_list (subject c) ++
  option_list (message_id c) ++ option_list (in_reply_to c) ++ references c ++
  concat (map list_texts (option_list (mailing_list c))) ++ concat (map attachment_texts (attachments c)).

Lemma clean_opt {A} (f : A -> W rstr) o : (forall a, header_clean (f a).1) ->
  Forall header_clean (option_list (w_opt f o).1).
Proof. intros Hf. rewrite w_opt_fst. destruct o; cbn; [|constructor]. constructor; [apply Hf|constructor]. Qed.

Lemma clean_map {A} (f : A -> W rstr) l : (forall a, header_clean (f a).1) -> Forall header_clean (w_map f l).1.
Proof. intros Hf. rewrite w_map_fst. apply Forall_forall. intros s (a & -> & _)%list_elem_of_fmap. apply Hf. Qed.

Lemma address_text_clean location a : header_clean (address_text domain_to_ascii location a).1.
Proof. unfold address_text. rewrite w_bind_fst. apply sanitize_text_clean. Qed.

Lemma nonempty_text_clean location raw : Forall header_clean (option_list (nonempty_text location raw).1).
Proof.
  destruct raw; [constructor|]. unfold nonempty_text. rewrite w_bind_fst, w_ret_fst.
  apply List.Forall_cons; [apply sanitize_text_clean|constructor].
Qed.

Lemma header_value_clean v location : Forall header_clean (option_list (sanitize_header_value domain_to_ascii v location).1).
Proof.
  destruct v; cbn [sanitize_header_value]; try apply nonempty_text_clean; try constructor.
  rewrite w_bind_fst. apply nonempty_text_clean.
Qed.

Lemma trim_clean limit s : clean limit s -> clean limit (trim s).
Proof.
  intros [Hv Hl]. unfold trim, trim_matches.
  destruct (drop_while_suffix is_whitespace s) as (pre & Hs & _). destruct (trim_end_prefix is_whitespace (drop_while is_whitespace s)) as [post Hp].
  unfold trim_start_matches. rewrite Hs, Hp in Hv, Hl. rewrite !Forall_app in Hv. rewrite !str_len_app in Hl.
  pose proof (str_len_nonneg pre). pose proof (str_len_nonneg post). split; [tauto|lia].
Qed.

Lemma raw_slice_clean h raw location : Forall header_clean (option_list (raw_header_slice h raw location).1).
Proof.
  unfold raw_header_slice. destruct (_ || _); [constructor|]. rewrite w_bind_fst. cbn [fst mret w_ret].
  set (t := (sanitize _ _ _ _).1). assert (Hc : header_clean (trim t)) by (apply trim_clean, sanitize_clean, header_limit).
  destruct (trim t); [constructor|]. constructor; [done|constructor].
Qed.

Lemma attachment_clean p idx : Z.of_nat idx <= u64_max ->
  Forall header_clean (attachment_texts (build_attachment_meta debug_str p idx).1).
Proof.
  intros Hi. unfold build_attachment_meta, attachment_texts. autorewrite with writer.
  cbn [filename content_type content_id]. rewrite !Forall_app. split_and!.
  - destruct (part_attachment_name p) as [name|]; cbn; [|constructor]. constructor; [|constructor].
    destruct (attachment_name_clean debug_str name (Z.of_nat idx)) as (_ & Hl & Hv); [lia|]. split; [done|].
    etransitivity; [exact Hl|]. vm_compute. discriminate.
  - constructor; [apply sanitize_text_clean|constructor].
  - destruct (part_content_id p); [|constructor]. apply List.Forall_cons; [apply sanitize_text_clean|constructor].
Qed.

Lemma attachments_clean m : Z.of_nat (length (m_attachments m)) <= u64_max ->
  Forall header_clean (concat (map attachment_texts (extract_attachments debug_str m).1)).
Proof.
  intros Hl. unfold extract_attachments. autorewrite with writer. apply Forall_concat, Forall_forall.
  intros ss (a & -> & Ha)%list_elem_of_fmap. apply list_elem_of_omap in Ha as (o & Ho & E). cbn in E. subst o.
  apply list_elem_of_fmap in Ho as ([idx part_id] & E & Hin). rewrite w_opt_fst in E.
  destruct (m_parts m !! part_id) as [p|]; [|done]. injection E as ->. apply attachment_clean.
  apply list_elem_of_lookup in Hin as [i Hi]. rewrite list_lookup_imap in Hi.
  apply fmap_Some in Hi as (x & Hx & [= -> _]). apply lookup_lt_Some in Hx. lia.
Qed.

Lemma mailing_list_clean m :
  Forall header_clean (concat (map list_texts (option_list (extract_mailing_list domain_to_ascii m).1))).
Proof.
  unfold extract_mailing_list. autorewrite with writer.
  pose proof (header_value_clean (m_list_id m) (lit "header:list_id")) as H1.
  pose proof (header_value_clean (m_list_unsubscribe m) (lit "header:list_unsubscribe")) as H2.
  pose proof (header_value_clean (m_list_post m) (lit "header:list_post")) as H3.
  revert H1 H2 H3.
  destruct (sanitize_header_value _ (m_list_id m) _) as [o1 ?], (sanitize_header_value _ (m_list_unsubscribe m) _) as [o2 ?],
    (sanitize_header_value _ (m_list_post m) _) as [o3 ?]. cbn [fst]. intros H1 H2 H3.
  assert (Hall : Forall header_clean (list_texts (mkMailingListInfo o1 o2 o3))).
  { unfold list_texts. cbn [list_id list_unsubscribe list_post]. rewrite !Forall_app. done. }
  destruct o1, o2, o3; cbn [option_list map concat]; rewrite ?app_nil_r; (exact Hall || apply List.Forall_nil).
Qed.

Lemma meta_clean m size : Z.of_nat (length (m_attachments m)) <= u64_max ->
  Forall header_clean (meta_texts (extract_meta debug_str domain_to_ascii m size).1).
Proof.
  intros Hl. unfold extract_meta, meta_texts. rewrite !w_bind_fst, w_ret_fst.
  cbn [from to cc reply_to subject message_id in_reply_to references mailing_list attachments].
  assert (Ho : forall o location, Forall header_clean (option_list (w_opt (fun s => sanitize_text s location) o).1))
    by (intros; apply clean_opt; intros; apply sanitize_text_clean).
  assert (Ha : forall o location, Forall header_clean (address_strings domain_to_ascii o location).1).
  { intros [a|] location; [|constructor]. apply clean_map. intros. apply address_text_clean. }
  assert (Hf : forall o location, Forall header_clean (option_list (first_address_string domain_to_ascii o location).1)).
  { intros o location. apply clean_opt. intros. apply address_text_clean. }
  rewrite !Forall_app. split_and!; try apply Ho; try apply Ha; try apply Hf.
  - destruct (m_in_reply_to m); (apply Ho || apply List.Forall_nil).
  - destruct (m_references m); try apply List.Forall_nil; apply clean_map; intros; apply sanitize_text_clean.
  - apply mailing_list_clean.
  - by apply attachments_clean.
Qed.

(** The values of the headers a caller asked for. *)
Lemma coerced_clean h raw location : Forall header_clean (option_list (coerce_header_value domain_to_ascii h raw location).1).
Proof.
  unfold coerce_header_value. destruct (header_value h); try apply header_value_clean; try apply raw_slice_clean; apply List.Forall_nil.
Qed.

Lemma selected_clean m raw name : Forall header_clean
  (concat (map sh_values (option_list (select_header domain_to_ascii m raw name).1))).
Proof.
  unfold select_header. rewrite w_bind_fst, w_ret_fst, w_map_fst.
  set (hs := List.filter _ _). set (f := fun h => (coerce_header_value domain_to_ascii h raw _).1).
  assert (Hc : Forall header_clean (omap id (map f hs))).
  { apply Forall_forall. intros s (o & Ho & E)%list_elem_of_omap. cbn in E. subst o.
    apply list_elem_of_fmap in Ho as (h & E & _). unfold f in E.
    pose proof (coerced_clean h raw (lit "header:" ++ to_ascii_lowercase name)) as Hh. rewrite <- E in Hh.
    by apply Forall_cons in Hh as [? _]. }
  destruct (omap id (map f hs)) as [|v vs]; [apply List.Forall_nil|].
  change (Forall header_clean ((v :: vs) ++ [])). by rewrite app_nil_r.
Qed.

Lemma all_selected_clean m raw wanted :
  Forall header_clean (concat (map sh_values (extract_selected_headers domain_to_ascii m raw wanted).1)).
Proof.
  unfold extract_selected_headers. rewrite w_bind_fst, w_ret_fst, w_map_fst. induction wanted as [|name wanted IH]; [constructor|].
  pose proof (selected_clean m raw name) as Hs. cbn [map].
  destruct (select_header domain_to_ascii m raw name).1 as [sh|]; cbn [omap list_omap id]; [|exact IH].
  apply Forall_app. split; [|exact IH].
  change (Forall header_clean (sh_values sh ++ [])) in Hs. by rewrite app_nil_r in Hs.
Qed.
End clean_meta.
