(* ===== verification/Lookalike.v ===== *)
(** * Lookalike domains (crates/rimap-content/src/lookalike.rs)

    Domains from header addresses, links of the HTML body and URLs in the text
    are flagged when a label mixes scripts or is punycode. *)

From Stdlib Require Import ZArith Lia.
From stdpp Require Import base option list numbers strings.
From S2P Require Import Prelude RustStr Content Unicode ContentMeta MimeScrub Filename.
Local Open Scope Z_scope.

(** [unicode_script::Script]: the variants the code names, and the others. *)
Inductive Script :=
  | Latin | Han | Hiragana | Katakana | Hangul | Bopomofo
  | Common | Inherited | UnknownScript | OtherScript (n : Z).
#[export] Instance Script_eq_dec : EqDecision Script.
Proof. solve_decision. Defined.

(** Script data, IDNA and URL finding, and the confusables table the build
    generates. *)
Class DomainLib := {
  script : Z -> Script;
  domain_to_ascii : rstr -> option rstr;
  domain_to_unicode : rstr -> rstr;
  url_links : rstr -> list rstr;
  confusables : Z -> option rstr;
}.

(* [crates/rimap-content/src/lookalike.rs:38-38] MAX_LINKIFY_SCAN_BYTES *)
Definition MAX_LINKIFY_SCAN_BYTES : Z := 64 * 1024.

Section lookalike.
Context `{UnicodeLib, DomainLib}.

(* [crates/rimap-content/src/lookalike.rs:23-35] LookalikeInput *)
Record LookalikeInput := mkInput {
  li_meta : ContentMeta; li_body_text : rstr; li_anchor_hrefs : list rstr; header_domains : list (rstr * rstr) }.

(* [crates/rimap-content/src/lookalike.rs:42-60] DomainClassification *)
Record DomainClassification := mkClassification {
  ascii : rstr; unicode : rstr; was_punycode : bool; mixed_script : bool; skeleton : rstr }.

(** The character adds nothing to the set of scripts. *)
(* [crates/rimap-content/src/lookalike.rs:111-119] label_mixes_scripts *)
Definition neutral (c : Z) : bool :=
  is_ascii_digit c || (c =? 45) || (c =? 95) ||
  match script c with Common | Inherited | UnknownScript => true | _ => false end.

(* [crates/rimap-content/src/lookalike.rs:101-123] label_mixes_scripts *)
Definition label_scripts (label : rstr) : list Script :=
  fold_left (fun scripts c =>
    if neutral c then scripts
    else if bool_decide (script c ∈ scripts) then scripts else scripts ++ [script c]) label [].

(* [crates/rimap-content/src/lookalike.rs:127-133] label_mixes_scripts *)
Definition allowed_latin_pairs : list Script := [Han; Hiragana; Katakana; Hangul; Bopomofo].

(* [crates/rimap-content/src/lookalike.rs:100-142] label_mixes_scripts *)
Definition label_mixes_scripts (label : rstr) : bool :=
  let scripts := label_scripts label in
  if (length scripts <=? 1)%nat then false
  else if bool_decide (Latin ∈ scripts) && (length scripts =? 2)%nat
          && existsb (fun s => bool_decide (s ∈ allowed_latin_pairs)) scripts then false
  else true.

(* [crates/rimap-content/src/lookalike.rs:89-96] labels_mix_scripts *)
Definition labels_mix_scripts (domain : rstr) : bool := existsb label_mixes_scripts (split_on 46 domain).

(* [crates/rimap-content/src/lookalike.rs:146-155] compute_skeleton *)
Definition compute_skeleton (domain : rstr) : rstr :=
  concat (map (fun c => match confusables c with Some target => target | None => [c] end) domain).

(* [crates/rimap-content/src/lookalike.rs:66-83] classify_domain *)
Definition classify_domain (raw : rstr) : option DomainClassification :=
  let trimmed := trim raw in
  if str_eqb trimmed [] || negb (contains (lit ".") trimmed) then None
  else
    ascii ← domain_to_ascii trimmed;
    let unicode := domain_to_unicode ascii in
    Some (mkClassification ascii unicode (existsb (starts_with (lit "xn--")) (split_on 46 ascii))
            (labels_mix_scripts unicode) (compute_skeleton unicode)).

(* [crates/rimap-content/src/lookalike.rs:281-299] emit_classification *)
Definition emit_classification (domain location : rstr) : list SecurityWarning :=
  match classify_domain domain with
  | None => []
  | Some c =>
      (if mixed_script c then [warning_at LookalikeMixedScript
         (lit "domain=" ++ ascii c ++ lit ",unicode=" ++ unicode c) location] else []) ++
      (if was_punycode c then [warning_at LookalikeIdnPunycode
         (lit "domain=" ++ ascii c ++ lit ",ulabel=" ++ unicode c) location] else [])
  end.

(* [crates/rimap-content/src/lookalike.rs:244-272] extract_domain_from_url *)
Definition extract_domain_from_url (url : rstr) : option rstr :=
  let trimmed := trim url in
  let after_scheme := match find_sub (lit "://") trimmed with Some idx => drop (idx + 3) trimmed | None => trimmed end in
  let host_with_userinfo := hd after_scheme (split_where (fun c => (c =? 47) || (c =? 63) || (c =? 35)) after_scheme) in
  let host := match rsplit_once 64 host_with_userinfo with Some (_, h) => h | None => host_with_userinfo end in
  let host := hd host (split_on 58 host) in
  let host := default host (strip_prefix (lit "www.") host) in
  if str_eqb host [] || negb (contains (lit ".") host) then None else Some host.

(* [crates/rimap-content/src/lookalike.rs:171-175] scan_header_domains *)
Definition scan_header_domains (input : LookalikeInput) : list SecurityWarning :=
  concat (map (fun '(domain, location) => emit_classification domain location) (header_domains input)).

Definition scan_url (location url : rstr) : list SecurityWarning :=
  match extract_domain_from_url url with Some domain => emit_classification domain location | None => [] end.

(* [crates/rimap-content/src/lookalike.rs:178-184] scan_anchor_hrefs *)
Definition scan_anchor_hrefs (hrefs : list rstr) : list SecurityWarning :=
  concat (map (scan_url (lit "html:anchor_href")) hrefs).

(* [crates/rimap-content/src/lookalike.rs:188-200] scan_body_urls *)
Definition scan_body_urls (body_text : rstr) : list SecurityWarning :=
  concat (map (scan_url (lit "body:text")) (url_links (truncate_graphemes body_text MAX_LINKIFY_SCAN_BYTES))).

(* [crates/rimap-content/src/lookalike.rs:160-166] audit *)
Definition audit (input : LookalikeInput) : list SecurityWarning :=
  scan_header_domains input ++ scan_anchor_hrefs (li_anchor_hrefs input) ++ scan_body_urls (li_body_text input).

(** ** The scripts of a label *)

Lemma collect_scripts label : forall scripts, NoDup scripts ->
  let collected := fold_left (fun scripts c =>
    if neutral c then scripts
    else if bool_decide (script c ∈ scripts) then scripts else scripts ++ [script c]) label scripts in
  NoDup collected /\ forall s, s ∈ collected <-> s ∈ scripts \/ exists c, c ∈ label /\ neutral c = false /\ script c = s.
Proof.
  induction label as [|c label IH]; intros scripts Hn; cbn [fold_left].
  - split; [done|]. intros s. split; [by left|]. by intros [?|(? & ?%not_elem_of_nil & _)].
  - assert (Hc : forall s, (exists x, x ∈ c :: label /\ neutral x = false /\ script x = s) <->
      (neutral c = false /\ script c = s) \/ exists x, x ∈ label /\ neutral x = false /\ script x = s).
    { intros s. setoid_rewrite elem_of_cons. naive_solver. }
    destruct (neutral c) eqn:En; [|case_bool_decide as Hs].
    + destruct (IH scripts Hn) as [Hd Hi]. split; [done|]. intros s. rewrite Hi, Hc. naive_solver.
    + destruct (IH scripts Hn) as [Hd Hi]. split; [done|]. intros s. rewrite Hi, Hc. naive_solver.
    + destruct (IH (scripts ++ [script c])) as [Hd Hi].
      { apply NoDup_app. split_and!; [done|by intros s Hs' ->%list_elem_of_singleton|apply NoDup_singleton]. }
      split; [done|]. intros s. rewrite Hi, Hc, elem_of_app, list_elem_of_singleton. naive_solver.
Qed.

Lemma label_scripts_spec label : NoDup (label_scripts label) /\
  forall s, s ∈ label_scripts label <-> exists c, c ∈ label /\ neutral c = false /\ script c = s.
Proof.
  destruct (collect_scripts label [] (NoDup_nil_2)) as [Hn Hs]. split; [done|]. intros s. unfold label_scripts.
  rewrite Hs. split; [by intros [?%not_elem_of_nil|?]|by right].
Qed.

(** All letters of one script, or of Latin and one East Asian script. *)
Definition single_or_cjk (label : rstr) : Prop :=
  (exists s, Forall (fun c => neutral c = true \/ script c = s) label) \/
  (exists s, s ∈ allowed_latin_pairs /\ Forall (fun c => neutral c = true \/ script c = Latin \/ script c = s) label).

Lemma scripts_within label ok : Forall (fun c => neutral c = true \/ script c ∈ ok) label <-> label_scripts label ⊆ ok.
Proof.
  destruct (label_scripts_spec label) as [_ Hs]. rewrite Forall_forall. split.
  - intros H1 s (c & Hc & Hn & <-)%Hs. destruct (H1 c Hc); congruence.
  - intros H1 c Hc. destruct (neutral c) eqn:E; [by left|right]. apply H1, Hs. eauto.
Qed.

Lemma single_or_cjk_scripts label : single_or_cjk label <->
  (exists s, label_scripts label ⊆ [s]) \/ exists s, s ∈ allowed_latin_pairs /\ label_scripts label ⊆ [Latin; s].
Proof.
  unfold single_or_cjk. split; (intros [(s & Hs)|(s & Hp & Hs)]; [left|right]; exists s; [|split; [done|]]).
  - apply scripts_within. eapply Forall_impl; [exact Hs|]. intros c [?| ->]; [by left|right; left].
  - apply scripts_within. eapply Forall_impl; [exact Hs|]. cbv beta. setoid_rewrite elem_of_cons. setoid_rewrite list_elem_of_singleton. tauto.
  - apply scripts_within in Hs. eapply Forall_impl; [exact Hs|]. cbv beta. setoid_rewrite list_elem_of_singleton. tauto.
  - apply scripts_within in Hs. eapply Forall_impl; [exact Hs|]. cbv beta. setoid_rewrite elem_of_cons. setoid_rewrite list_elem_of_singleton. tauto.
Qed.

Lemma latin_not_paired : Latin ∉ allowed_latin_pairs.
Proof. apply (bool_decide_unpack _). vm_compute. exact I. Qed.

Lemma label_mixes_spec label : label_mixes_scripts label = false <-> single_or_cjk label.
Proof.
  rewrite single_or_cjk_scripts. destruct (label_scripts_spec label) as [Hn _]. unfold label_mixes_scripts.
  generalize dependent (label_scripts label). intros l Hn. split.
  - destruct l as [|s [|s' [|s'' l]]]; cbn [length Nat.leb Nat.eqb]; intros Hm.
    + left. exists Latin. apply list_subseteq_nil.
    + left. by exists s.
    + right. case_bool_decide as HL; [|done]. cbn [andb] in Hm. destruct (existsb _ _) eqn:Ex; [|done].
      apply existsb_exists in Ex as (x & Hx%list_elem_of_In & Hp%bool_decide_eq_true). exists x. split; [done|].
      assert (x <> Latin) by (intros ->; by apply latin_not_paired in Hp).
      intros y. rewrite !elem_of_cons, elem_of_nil in *. naive_solver.
    + by rewrite andb_false_r in Hm.
  - intros [(s & Hs)|(s & Hp & Hs)].
    + apply NoDup_submseteq, submseteq_length in Hs; [|done]. cbn in Hs. by destruct (Nat.leb_spec (length l) 1); [|lia].
    + pose proof Hs as Hl. apply NoDup_submseteq in Hs; [|done]. pose proof (submseteq_length _ _ Hs) as Hle. cbn in Hle.
      destruct (Nat.leb_spec (length l) 1); [done|].
      assert (HP : l ≡ₚ [Latin; s]) by (apply submseteq_length_Permutation; [done|cbn; lia]).
      rewrite bool_decide_eq_true_2 by (rewrite HP; left). rewrite (Permutation_length HP). cbn [andb length Nat.eqb].
      replace (existsb _ l) with true; [done|]. symmetry. apply existsb_exists. exists s. split.
      * apply list_elem_of_In. rewrite HP. apply elem_of_cons. right. left.
      * by apply bool_decide_eq_true.
Qed.

(** ** The property *)

(** The domains the message shows: of header addresses, of links, of URLs in the scanned text. *)
Definition scanned (input : LookalikeInput) (domain : rstr) : Prop :=
  (exists location, (domain, location) ∈ header_domains input) \/
  (exists url, (url ∈ li_anchor_hrefs input \/
                url ∈ url_links (truncate_graphemes (li_body_text input) MAX_LINKIFY_SCAN_BYTES)) /\
     extract_domain_from_url url = Some domain).

(** A dotted name IDNA accepts, one of whose labels mixes scripts. *)
Definition mixes (domain : rstr) : Prop :=
  trim domain <> [] /\ contains (lit ".") (trim domain) = true /\
  exists a label, domain_to_ascii (trim domain) = Some a /\
    label ∈ split_on 46 (domain_to_unicode a) /\ ~ single_or_cjk label.

Lemma labels_mix_exists domain : labels_mix_scripts domain = true <-> exists label, label ∈ split_on 46 domain /\ ~ single_or_cjk label.
Proof.
  unfold labels_mix_scripts. rewrite existsb_exists. setoid_rewrite <- list_elem_of_In.
  setoid_rewrite <- label_mixes_spec. setoid_rewrite not_false_iff_true. done.
Qed.

Lemma emit_mixed domain location : LookalikeMixedScript ∈ map code (emit_classification domain location) <-> mixes domain.
Proof.
  assert (He : LookalikeMixedScript ∈ map code (emit_classification domain location) <->
    exists c, classify_domain domain = Some c /\ mixed_script c = true).
  { unfold emit_classification. destruct (classify_domain domain) as [c|].
    - destruct (mixed_script c) eqn:Em, (was_punycode c); cbn [map app code warning_at];
        rewrite ?elem_of_cons, ?elem_of_nil; split; try naive_solver.
      all: intros (c' & [= <-] & E); congruence.
    - split; [by intros ?%not_elem_of_nil|by intros (? & ? & _)]. }
  rewrite He. unfold classify_domain, mixes. destruct (str_eqb (trim domain) []) eqn:Et.
  { apply str_eqb_eq in Et. rewrite Et. naive_solver. }
  assert (Hne : trim domain <> []) by (intros E; apply str_eqb_eq in E; congruence).
  destruct (contains (lit ".") (trim domain)); cbn [negb orb]; [|naive_solver].
  destruct (domain_to_ascii (trim domain)) as [a|]; cbn; [|naive_solver]. split.
  - intros (c & [= <-] & Hm). cbn in Hm. apply labels_mix_exists in Hm as (label & ? & ?). eauto 8.
  - intros (_ & _ & a' & label & [= <-] & ? & ?). eexists. split; [done|]. cbn. apply labels_mix_exists. eauto.
Qed.

Lemma in_concat_map {A} (f : A -> list SecurityWarning) (c : WarningCode) l :
  c ∈ map code (concat (map f l)) <-> exists a, a ∈ l /\ c ∈ map code (f a).
Proof.
  induction l as [|a l IH]; cbn [map concat].
  - split; [by intros ?%not_elem_of_nil|by intros (? & ?%not_elem_of_nil & _)].
  - rewrite map_app, elem_of_app, IH. setoid_rewrite elem_of_cons. naive_solver.
Qed.

Lemma scan_url_mixed location url : LookalikeMixedScript ∈ map code (scan_url location url) <->
  exists domain, extract_domain_from_url url = Some domain /\ mixes domain.
Proof.
  unfold scan_url. destruct (extract_domain_from_url url) as [d|].
  - rewrite emit_mixed. naive_solver.
  - split; [by intros ?%not_elem_of_nil|by intros (? & ? & _)].
Qed.

(** A mixed-script warning is raised exactly when some domain of a header
    address, of a link or of a URL in the scanned part of the text has a label
    whose letters are neither of one script nor of Latin and one of Han,
    Hiragana, Katakana, Hangul and Bopomofo. *)
Theorem mixed_script_exact input : LookalikeMixedScript ∈ map code (audit input) <->
  exists domain, scanned input domain /\ mixes domain.
Proof.
  unfold audit, scan_header_domains, scan_anchor_hrefs, scan_body_urls, scanned.
  rewrite !map_app, !elem_of_app, !in_concat_map. setoid_rewrite scan_url_mixed. split.
  - intros [([d location] & Hd & Hm%emit_mixed)|[(url & Hu & d & He & Hm)|(url & Hu & d & He & Hm)]]; exists d; eauto 8.
  - intros (d & [(location & Hd)|(url & [Hu|Hu] & He)] & Hm).
    + left. exists (d, location). split; [done|]. by apply emit_mixed.
    + right; left. eauto.
    + right; right. eauto.
Qed.
End lookalike.
