(* ===== verification/Html.v ===== *)
(** * HTML bodies (crates/rimap-content/src/html)

    Inline styles that hide an element, the text extracted from a document
    without hidden elements, links whose text names another domain, and the
    pipeline around them.  Parsing to a tree (scraper), cleaning (ammonia), link
    finding (linkify) and domain rules (idna, addr) are parameters. *)

From Stdlib Require Import ZArith Lia.
From stdpp Require Import base option list numbers strings.
From S2P Require Import Prelude RustStr Content Unicode ContentMeta.
Local Open Scope Z_scope.

(** ** [str::parse::<f64>]

    A finite number is kept exactly, as [m * 10^e]. *)

Inductive f64 := Finite (m e : Z) | Infinite (negative : bool) | NaN.

Fixpoint take_digits (s : rstr) : rstr * rstr :=
  match s with
  | c :: s' => if is_ascii_digit c then let '(d, r) := take_digits s' in (c :: d, r) else ([], s)
  | [] => ([], [])
  end.

Definition take_sign (s : rstr) : bool * rstr :=
  match s with
  | c :: s' => if c =? 45 then (true, s') else if c =? 43 then (false, s') else (false, s)
  | [] => (false, [])
  end.

Definition parse_unsigned (s : rstr) : option (Z * Z) :=
  let '(int, r) := take_digits s in
  let '(frac, r) := match r with 46 :: r' => take_digits r' | _ => ([], r) end in
  match int ++ frac with
  | [] => None
  | digits =>
      let m := parse_digits digits in
      let e := - Z.of_nat (length frac) in
      match r with
      | [] => Some (m, e)
      | c :: r =>
          if (c =? 101) || (c =? 69) then
            let '(neg, r) := take_sign r in
            let '(d, r) := take_digits r in
            match d, r with
            | _ :: _, [] => Some (m, e + (if neg : bool then - parse_digits d else parse_digits d))
            | _, _ => None
            end
          else None
      end
  end.

Definition parse_f64 (s : rstr) : option f64 :=
  let '(neg, r) := take_sign s in
  let lowered := to_ascii_lowercase r in
  if str_eqb lowered (lit "inf") || str_eqb lowered (lit "infinity") then Some (Infinite neg)
  else if str_eqb lowered (lit "nan") then Some NaN
  else '(m, e) ← parse_unsigned r; Some (Finite (if neg : bool then - m else m) e).

(** [m * 10^e <= a / 2^k], and [<]. *)
Definition scaled (m e a k : Z) : Z * Z :=
  if 0 <=? e then (m * 10 ^ e * 2 ^ k, a) else (m * 2 ^ k, a * 10 ^ (- e)).

(** [n <= f64::EPSILON], which is [2^-52]: decimals up to half a unit in the last
    place above it are rounded to it. *)
Definition le_epsilon (n : f64) : bool :=
  match n with
  | Finite m e => let '(x, y) := scaled m e (2 ^ 53 + 1) 105 in x <=? y
  | Infinite neg => neg
  | NaN => false
  end.

(** [v < -100.0], in the same way. *)
Definition below_minus_100 (v : f64) : bool :=
  match v with
  | Finite m e => let '(x, y) := scaled m e (- (100 * 2 ^ 47 + 1)) 47 in x <? y
  | Infinite neg => neg
  | NaN => false
  end.

Definition f64_lt (a b : f64) : bool :=
  match a, b with
  | NaN, _ | _, NaN => false
  | Infinite na, Infinite nb => na && negb nb
  | Infinite na, Finite _ _ => na
  | Finite _ _, Infinite nb => negb nb
  | Finite m e, Finite m' e' =>
      let k := Z.min e e' in m * 10 ^ (e - k) <? m' * 10 ^ (e' - k)
  end.

(** ** Inline styles *)

(* [crates/rimap-content/src/html/pipeline.rs:73-86] HiddenMethod *)
Inductive HiddenMethod := DisplayNone | VisibilityHidden | OpacityZero | OffScreen | ZeroFont | ColorMatch.

(* [crates/rimap-content/src/html/pipeline.rs:90-99] HiddenMethod::as_detail *)
Definition as_detail (m : HiddenMethod) : rstr :=
  match m with
  | DisplayNone => lit "display_none"
  | VisibilityHidden => lit "visibility_hidden"
  | OpacityZero => lit "opacity_0"
  | OffScreen => lit "offscreen"
  | ZeroFont => lit "zero_font"
  | ColorMatch => lit "color_match"
  end.

(* [crates/rimap-content/src/html/style_parse.rs:13-27] parse_inline_style *)
Definition parse_inline_style (style : rstr) : list (rstr * rstr) :=
  omap (fun decl =>
    '(prop, val) ← split_once 58 decl;
    let prop := to_ascii_lowercase (trim prop) in
    let val := to_ascii_lowercase (trim val) in
    if str_eqb prop [] || str_eqb val [] then None else Some (prop, val)) (split_on 59 style).

(* [crates/rimap-content/src/html/style_parse.rs:33-36] parse_px *)
Definition parse_px (val : rstr) : option f64 :=
  parse_f64 (trim (default val (strip_suffix (lit "px") val))).

(* [crates/rimap-content/src/html/style_parse.rs:39-45] opacity_is_zero *)
Definition opacity_is_zero (val : rstr) : bool :=
  match parse_f64 (trim (trim_end_matches (Z.eqb 37) val)) with Some n => le_epsilon n | None => false end.

Fixpoint take_while (p : Z -> bool) (s : rstr) : rstr :=
  match s with c :: s' => if p c then c :: take_while p s' else [] | [] => [] end.

(* [crates/rimap-content/src/html/style_parse.rs:48-57] font_size_is_zero *)
Definition font_size_is_zero (val : rstr) : bool :=
  match parse_f64 (take_while (fun c => is_ascii_digit c || (c =? 46)) val) with Some n => le_epsilon n | None => false end.

(* [crates/rimap-content/src/html/style_parse.rs:62-81] parse_translate_px *)
Definition parse_translate_px (val : rstr) : option f64 :=
  fold_left (fun min part =>
    match parse_px (trim part) with
    | Some px => match min with
                 | Some current => if f64_lt px current then Some px else min
                 | None => Some px
                 end
    | None => min
    end) (Filename.split_where (fun c => (c =? 40) || (c =? 44) || (c =? 41)) val) None.

(* [crates/rimap-content/src/html/style_parse.rs:86-93] StyleHints *)
Record StyleHints := mkHints {
  position : option rstr; left_px : option f64; top_px : option f64; transform_offset_px : option f64;
  color : option rstr; bg_color : option rstr }.

(* [crates/rimap-content/src/html/style_parse.rs:96-106] StyleHints::record *)
Definition record_hint (h : StyleHints) (prop val : rstr) : StyleHints :=
  let '(mkHints p l t x c b) := h in
  if str_eqb prop (lit "position") then mkHints (Some val) l t x c b
  else if str_eqb prop (lit "left") then mkHints p (parse_px val) t x c b
  else if str_eqb prop (lit "top") then mkHints p l (parse_px val) x c b
  else if str_eqb prop (lit "transform") then mkHints p l t (parse_translate_px val) c b
  else if str_eqb prop (lit "color") then mkHints p l t x (Some val) b
  else if str_eqb prop (lit "background-color") then mkHints p l t x c (Some val)
  else h.

Definition far_off (v : option f64) : bool := match v with Some v => below_minus_100 v | None => false end.

(* [crates/rimap-content/src/html/style_parse.rs:108-120] StyleHints::is_offscreen *)
Definition is_offscreen (h : StyleHints) : bool :=
  match position h with
  | Some p => if str_eqb p (lit "absolute") || str_eqb p (lit "fixed")
              then far_off (left_px h) || far_off (top_px h) || far_off (transform_offset_px h) else false
  | None => false
  end.

(* [crates/rimap-content/src/html/style_parse.rs:122-127] StyleHints::is_color_match *)
Definition is_color_match (h : StyleHints) : bool :=
  match color h, bg_color h with Some c, Some bg => str_eqb c bg | _, _ => false end.

(* [crates/rimap-content/src/html/style_parse.rs:135-143] classify_single_declaration *)
Definition classify_single_declaration (prop val : rstr) : option HiddenMethod :=
  if str_eqb prop (lit "display") && str_eqb val (lit "none") then Some DisplayNone
  else if str_eqb prop (lit "visibility") && str_eqb val (lit "hidden") then Some VisibilityHidden
  else if str_eqb prop (lit "opacity") && opacity_is_zero val then Some OpacityZero
  else if str_eqb prop (lit "font-size") && font_size_is_zero val then Some ZeroFont
  else None.

(* [crates/rimap-content/src/html/style_parse.rs:148-161] classify_inline_style *)
Fixpoint classify_pairs (pairs : list (rstr * rstr)) (h : StyleHints) : option HiddenMethod :=
  match pairs with
  | [] => if is_offscreen h then Some OffScreen else if is_color_match h then Some ColorMatch else None
  | (prop, val) :: pairs =>
      match classify_single_declaration prop val with
      | Some m => Some m
      | None => classify_pairs pairs (record_hint h prop val)
      end
  end.
(* [crates/rimap-content/src/html/style_parse.rs:146-162] classify_inline_style *)
Definition classify_inline_style (style : rstr) : option HiddenMethod :=
  classify_pairs (parse_inline_style style) (mkHints None None None None None None).

Example style_cases :
  classify_inline_style (lit "color: red; DISPLAY : None") = Some DisplayNone /\
  classify_inline_style (lit "opacity:0.0%") = Some OpacityZero /\
  classify_inline_style (lit "opacity:1e-20") = Some OpacityZero /\
  classify_inline_style (lit "opacity:0.01") = None /\
  classify_inline_style (lit "font-size:0px") = Some ZeroFont /\
  classify_inline_style (lit "position:absolute;left:-9999px") = Some OffScreen /\
  classify_inline_style (lit "position:fixed;transform:translate(-50px,-101px)") = Some OffScreen /\
  classify_inline_style (lit "position:absolute;left:-100px") = None /\
  classify_inline_style (lit "color:#fff;background-color:#FFF") = Some ColorMatch.
Proof. vm_compute. repeat split. Qed.

(** ** The document *)

Inductive node :=
  | Elem (tag : rstr) (attrs : list (rstr * rstr)) (children : list node)
  | TextNode (s : rstr)
  | Comment (s : rstr)
  | OtherNode.

Definition attr (attrs : list (rstr * rstr)) (name : rstr) : option rstr :=
  snd <$> List.find (fun '(k, _) => str_eqb k name) attrs.

(** Elements in document order: all of them, or those with an ancestor [body]. *)
Fixpoint elements (keep : rstr -> bool) (below : bool) (n : node) : list node :=
  match n with
  | Elem tag _ children => (if below then [n] else []) ++ concat (map (elements keep (below || keep tag)) children)
  | _ => []
  end.

Definition is_body (tag : rstr) : bool := str_eqb tag (lit "body").

(** [select("body *")]; [select(tag)]. *)
Definition select_body_all (doc : list node) : list node := concat (map (elements is_body false) doc).
Definition select_all (doc : list node) : list node := concat (map (elements (fun _ => true) true) doc).
Definition node_tag (n : node) : rstr := match n with Elem tag _ _ => tag | _ => [] end.
Definition node_attrs (n : node) : list (rstr * rstr) := match n with Elem _ attrs _ => attrs | _ => [] end.
Definition node_children (n : node) : list node := match n with Elem _ _ children => children | _ => [] end.
Definition select_tag (tag : rstr) (doc : list node) : list node :=
  List.filter (fun n => str_eqb (node_tag n) tag) (select_all doc).

(** ** Hidden elements *)

(* [crates/rimap-content/src/html/pipeline.rs:49-49] MAX_HIDDEN_HITS *)
Definition MAX_HIDDEN_HITS : nat := 64.

Definition hidden_method (n : node) : option HiddenMethod :=
  style ← attr (node_attrs n) (lit "style"); classify_inline_style style.

(* [crates/rimap-content/src/html/hidden.rs:35-50] detect_hidden *)
Fixpoint collect_hits (idx : nat) (els : list node) (hits : list (nat * HiddenMethod)) (overflow : Z)
    : list (nat * HiddenMethod) * Z :=
  match els with
  | [] => (hits, overflow)
  | el :: els =>
      match hidden_method el with
      | None => collect_hits (S idx) els hits overflow
      | Some m =>
          if (length hits <? MAX_HIDDEN_HITS)%nat then collect_hits (S idx) els (hits ++ [(idx, m)]) overflow
          else collect_hits (S idx) els hits (overflow + 1)
      end
  end.
(* [crates/rimap-content/src/html/hidden.rs:34-51] detect_hidden *)
Definition detect_hidden (doc : list node) : list (nat * HiddenMethod) * Z := collect_hits 0 (select_body_all doc) [] 0.

(** ** Text *)

(* [crates/rimap-content/src/html/extract.rs:18-18] NON_CONTENT_TAGS *)
Definition NON_CONTENT_TAGS : list rstr :=
  [lit "script"; lit "style"; lit "noscript"; lit "template"; lit "head"; lit "title"].
Definition is_non_content (tag : rstr) : bool := existsb (str_eqb tag) NON_CONTENT_TAGS.

(* [crates/rimap-content/src/html/extract.rs:136-144] push_text *)
Definition push_text (out text : rstr) : rstr :=
  if contains (lit "]]>") text then out
  else (match last out with
        | Some c => if is_whitespace c then out else out ++ [32]
        | None => out
        end) ++ text.

(** The text so far, the counter, and whether a CDATA comment was the last
    comment among the siblings. *)
(* [crates/rimap-content/src/html/extract.rs:61-122] walk_children, collect_visible_text, walk_element *)
Fixpoint walk (hidden : nat -> bool) (st : rstr * nat * bool) (n : node) : rstr * nat * bool :=
  let '(out, counter, after_cdata) := st in
  match n with
  | Elem tag _ children =>
      if hidden counter || is_non_content tag then (out, S counter, false)
      else let '(out, counter, _) := fold_left (walk hidden) children (out, S counter, false) in (out, counter, false)
  | Comment s => (out, counter, starts_with (lit "[CDATA[") s || after_cdata)
  | TextNode s => (if after_cdata then out else push_text out s, counter, after_cdata)
  | OtherNode => st
  end.

(* [crates/rimap-content/src/html/extract.rs:148-164] normalize_whitespace *)
Fixpoint collapse_spaces (s : rstr) (out : rstr) (prev_space : bool) : rstr :=
  match s with
  | [] => trim_end_matches is_whitespace out
  | c :: s =>
      if is_whitespace c then
        collapse_spaces s (if negb prev_space && negb (str_eqb out []) then out ++ [32] else out) true
      else collapse_spaces s (out ++ [c]) false
  end.
Definition normalize_whitespace (s : rstr) : rstr := collapse_spaces s [] false.

(* [crates/rimap-content/src/html/pipeline.rs:42-42] MAX_HTML_BYTES *)
Definition MAX_HTML_BYTES : Z := 1024 * 1024.

(** The text under the first body. *)
Definition raw_text (doc : list node) (hidden : nat -> bool) : rstr :=
  match select_tag (lit "body") doc with
  | [] => []
  | body :: _ => (fold_left (walk hidden) (node_children body) ([], 0%nat, false)).1.1
  end.

Section html.
Context `{UnicodeLib}.

(* [crates/rimap-content/src/html/extract.rs:37-54] extract_text *)
Definition extract_text (doc : list node) (hidden : nat -> bool) : rstr * list SecurityWarning :=
  sanitize (str_bytes (normalize_whitespace (raw_text doc hidden))) (Some (lit "utf-8")) MAX_HTML_BYTES (lit "body:html").

(** ** Links *)

(** [idna::domain_to_ascii] then the root of [addr::parse_domain_name]; the URLs
    [linkify] finds in a text. *)
Context (registrable : rstr -> option rstr) (links : rstr -> list rstr).

Fixpoint trim_www (fuel : nat) (s : rstr) : rstr :=
  match fuel with
  | O => s
  | S fuel => match strip_prefix (lit "www.") s with Some s' => trim_www fuel s' | None => s end
  end.

Definition find_scheme (s : rstr) : rstr :=
  match MimeScrub.find_sub (lit "://") s with Some i => drop (i + 3) s | None => s end.

(* [crates/rimap-content/src/html/mismatch.rs:22-58] extract_registrable_domain *)
Definition extract_registrable_domain (url_or_host : rstr) : option rstr :=
  let lowered := to_ascii_lowercase (trim url_or_host) in
  if str_eqb lowered [] then None
  else if starts_with (lit "mailto:") lowered || starts_with (lit "tel:") lowered
          || starts_with (lit "javascript:") lowered || starts_with (lit "data:") lowered then None
  else
    let host := hd [] (Filename.split_where (fun c => (c =? 47) || (c =? 63) || (c =? 35)) (find_scheme lowered)) in
    let host := trim_www (length host) host in
    let host := hd [] (split_on 58 host) in
    if str_eqb host [] || negb (contains (lit ".") host) then None else registrable host.

(* [crates/rimap-content/src/html/mismatch.rs:62-65] MismatchHit *)
Record MismatchHit := mkMismatch { text_domain : rstr; href_domain : rstr }.
(* [crates/rimap-content/src/html/pipeline.rs:46-46] MAX_ANCHOR_TEXT_SCAN *)
Definition MAX_ANCHOR_TEXT_SCAN : Z := 4 * 1024.
(* [crates/rimap-content/src/html/pipeline.rs:52-52] MAX_MISMATCH_HITS *)
Definition MAX_MISMATCH_HITS : nat := 32.

Fixpoint node_texts (n : node) : list rstr :=
  match n with
  | Elem _ _ children => concat (map node_texts children)
  | TextNode s => [s]
  | _ => []
  end.

Definition anchor_text (n : node) : rstr :=
  let text := join [32] (node_texts n) in
  if MAX_ANCHOR_TEXT_SCAN <? str_len text then truncate_graphemes text MAX_ANCHOR_TEXT_SCAN else text.

Definition select_anchors (doc : list node) : list (node * rstr) :=
  omap (fun n => if str_eqb (node_tag n) (lit "a") then href ← attr (node_attrs n) (lit "href"); Some (n, href) else None)
    (select_all doc).

(** One anchor: a mismatch, an unparsable link, or nothing. *)
(* [crates/rimap-content/src/html/mismatch.rs:96-146] detect_mismatches *)
Definition check_anchor (anchor : node) (href : rstr) : option (MismatchHit + rstr * rstr) :=
  match extract_registrable_domain href with
  | None =>
      match links (anchor_text anchor) with
      | [] => None
      | _ => Some (inr (href, trim (anchor_text anchor)))
      end
  | Some href_domain =>
      match links (anchor_text anchor) with
      | [] => None
      | link :: _ =>
          match extract_registrable_domain link with
          | None => None
          | Some text_domain =>
              if eq_ignore_ascii_case text_domain href_domain then None else Some (inl (mkMismatch text_domain href_domain))
          end
      end
  end.

(* [crates/rimap-content/src/html/mismatch.rs:88-149] detect_mismatches *)
Definition detect_mismatches (doc : list node) : list MismatchHit * Z * list (rstr * rstr) :=
  fold_left (fun '(hits, overflow, unparsable) '(anchor, href) =>
    match check_anchor anchor href with
    | None => (hits, overflow, unparsable)
    | Some (inr u) => (hits, overflow, unparsable ++ [u])
    | Some (inl hit) =>
        if (length hits <? MAX_MISMATCH_HITS)%nat then (hits ++ [hit], overflow, unparsable)
        else (hits, overflow + 1, unparsable)
    end) (select_anchors doc) ([], 0, []).

(** ** The pipeline *)

(** [scraper]'s parser and [ammonia]'s cleaner as configured. *)
Context (parse_document : rstr -> list node) (ammonia_clean : rstr -> rstr).

Definition count_note (c : WarningCode) (n : Z) : list SecurityWarning :=
  if 0 <? n then [warning_at c (lit "count=" ++ to_decimal n) (lit "body:html")] else [].

Definition has_src (n : node) : bool :=
  match attr (node_attrs n) (lit "src") with Some s => negb (str_eqb (trim s) []) | None => false end.

(* [crates/rimap-content/src/html/sanitize.rs:65-96] sanitize_body *)
Definition sanitize_body (doc : list node) (decoded : rstr) : rstr * list SecurityWarning :=
  (ammonia_clean decoded,
   count_note HtmlScriptStripped (Z.of_nat (length (select_tag (lit "script") doc))) ++
   count_note HtmlStyleStripped (Z.of_nat (length (select_tag (lit "style") doc))) ++
   count_note HtmlRemoteImageStripped (Z.of_nat (length (List.filter has_src (select_tag (lit "img") doc))))).

(* [crates/rimap-content/src/html/extract.rs:174-179] collect_anchor_hrefs *)
Definition collect_anchor_hrefs (sanitized_html : rstr) : list rstr := map snd (select_anchors (parse_document sanitized_html)).

(* [crates/rimap-content/src/html/pipeline.rs:28-39] HtmlResult *)
Record HtmlResult := mkHtmlResult {
  hr_body_text : rstr; hr_body_html : rstr; anchor_hrefs : list rstr; hr_warnings : list SecurityWarning }.

(* [crates/rimap-content/src/error.rs:11-40] ContentError *)
Inductive ContentError := Malformed (reason : rstr) | LimitExceeded (kind : rstr) (limit : Z) | ParserPanic.

(* [crates/rimap-content/src/html/pipeline.rs:130-170] sanitize *)
Definition html_warnings (doc : list node) : list SecurityWarning :=
  let '(hits, overflow) := detect_hidden doc in
  let '(mismatches, mismatch_overflow, unparsable) := detect_mismatches doc in
  map (fun '(_, m) => warning_at HtmlHiddenContentDetected (lit "method=" ++ as_detail m) (lit "body:html")) hits ++
  (if 0 <? overflow then [warning_at HtmlHiddenContentDetected
     (lit "method=mixed,additional_hits=" ++ to_decimal overflow) (lit "body:html")] else []) ++
  map (fun hit => warning_at HtmlLinkTextHrefMismatch
     (lit "text_domain=" ++ text_domain hit ++ lit ",href_domain=" ++ href_domain hit) (lit "html:anchor")) mismatches ++
  (if 0 <? mismatch_overflow then [warning_at HtmlLinkTextHrefMismatch
     (lit "additional_hits=" ++ to_decimal mismatch_overflow) (lit "html:anchor")] else []) ++
  map (fun '(href, text) => warning_at HtmlAnchorUnparsableHref
     (lit "href=" ++ href ++ lit ",text=" ++ text) (lit "body_html:anchor")) unparsable.

Definition hidden_set (doc : list node) (idx : nat) : bool := existsb (fun '(i, _) => Nat.eqb i idx) (detect_hidden doc).1.

(* [crates/rimap-content/src/html/pipeline.rs:121-182] sanitize *)
Definition html_sanitize (raw : list Z) (charset : option rstr) : result ContentError HtmlResult :=
  if MAX_HTML_BYTES <? Z.of_nat (length raw) then Err (LimitExceeded (lit "html_body") MAX_HTML_BYTES)
  else
    let decoded := decode raw charset in
    let doc := parse_document decoded in
    let '(body_text, text_warnings) := extract_text doc (hidden_set doc) in
    let '(body_html, strip_warnings) := sanitize_body doc decoded in
    Ok (mkHtmlResult body_text body_html (collect_anchor_hrefs body_html)
          (html_warnings doc ++ text_warnings ++ strip_warnings)).
End html.

(** ** Lemmas *)

(** The hidden elements of [els] with their numbers from [k]. *)
Definition hidden_from (k : nat) (els : list node) : list (nat * HiddenMethod) :=
  omap id (imap (fun i n => pair (k + i)%nat <$> hidden_method n) els).

Lemma hidden_from_cons k n els :
  hidden_from k (n :: els) = option_list (pair k <$> hidden_method n) ++ hidden_from (S k) els.
Proof.
  unfold hidden_from. cbn [imap omap list_omap id]. rewrite Nat.add_0_r.
  replace (imap _ els) with (imap (fun i n => pair (S k + i)%nat <$> hidden_method n) els)
    by (apply imap_ext; intros; cbn; by rewrite Nat.add_succ_r).
  by destruct (hidden_method n).
Qed.

(** The first sixty-four are listed, the others counted. *)
Lemma collect_hits_spec els : forall k hits overflow, (length hits <= MAX_HIDDEN_HITS)%nat ->
  collect_hits k els hits overflow =
  (hits ++ take (MAX_HIDDEN_HITS - length hits) (hidden_from k els),
   overflow + Z.of_nat (length (hidden_from k els) - (MAX_HIDDEN_HITS - length hits))).
Proof.
  induction els as [|n els IH]; intros k hits overflow Hl.
  - cbn. by rewrite take_nil, app_nil_r, Z.add_0_r.
  - cbn [collect_hits]. rewrite hidden_from_cons. destruct (hidden_method n) as [m|]; [|apply (IH (S k)); lia].
    unfold option_list. cbn [fmap option_fmap option_map from_option app length]. destruct (Nat.ltb_spec (length hits) MAX_HIDDEN_HITS).
    + rewrite IH by (rewrite length_app; cbn; lia). rewrite length_app. cbn [length].
      replace (MAX_HIDDEN_HITS - length hits)%nat with (S (MAX_HIDDEN_HITS - (length hits + 1))) by lia.
      by rewrite <- app_assoc.
    + rewrite IH by lia. replace (MAX_HIDDEN_HITS - length hits)%nat with 0%nat by lia. rewrite !app_nil_r, !Nat.sub_0_r. f_equal. cbn [option_rect app length]. lia.
Qed.

Lemma detect_hidden_spec doc : detect_hidden doc =
  (take MAX_HIDDEN_HITS (hidden_from 0 (select_body_all doc)),
   Z.of_nat (length (hidden_from 0 (select_body_all doc)) - MAX_HIDDEN_HITS)).
Proof. unfold detect_hidden. rewrite collect_hits_spec by (cbn; lia). cbn [length app]. by rewrite Z.add_0_l, Nat.sub_0_r. Qed.

(** [!important], which browsers honour, defeats the classification. *)
Example important_not_hidden : classify_inline_style (lit "display:none !important") = None.
Proof. vm_compute. reflexivity. Qed.

(** ** The whole pipeline *)

Lemma fold_left_inv {A B} (f : A -> B -> A) (I : A -> Prop) l : forall a,
  I a -> (forall a b, I a -> I (f a b)) -> I (fold_left f l a).
Proof. induction l as [|b l IH]; intros a Ha Hf; [done|]. by apply IH; [apply Hf|]. Qed.

Section pipeline.
Context `{UnicodeLib} (registrable : rstr -> option rstr) (links : rstr -> list rstr)
  (parse_document : rstr -> list node) (ammonia_clean : rstr -> rstr).
Abbreviation run_html := (html_sanitize registrable links parse_document ammonia_clean).

(** The warnings of one kind. *)
Definition of_code (c : WarningCode) (ws : list SecurityWarning) : list SecurityWarning :=
  List.filter (fun w => bool_decide (code w = c)) ws.

Lemma of_code_app c a b : of_code c (a ++ b) = of_code c a ++ of_code c b.
Proof. apply List.filter_app. Qed.

Lemma of_code_none c ws : Forall (fun w => code w <> c) ws -> of_code c ws = [].
Proof.
  induction 1 as [|w ws Hw _ IH]; [done|]. cbn. by rewrite bool_decide_eq_false_2 by done.
Qed.

Lemma of_code_all c ws : Forall (fun w => code w = c) ws -> of_code c ws = ws.
Proof.
  induction 1 as [|w ws Hw _ IH]; [done|]. cbn. rewrite bool_decide_eq_true_2 by done. f_equal. exact IH.
Qed.

Lemma code_map {A} (f : A -> SecurityWarning) (P : WarningCode -> Prop) l :
  (forall a, P (code (f a))) -> Forall (fun w => P (code w)) (map f l).
Proof. intros Hf. apply Forall_forall. intros w (a & -> & _)%list_elem_of_fmap. apply Hf. Qed.

Lemma code_if (P : WarningCode -> Prop) (b : bool) w : P (code w) -> Forall (fun w => P (code w)) (if b then [w] else []).
Proof. destruct b; [|constructor]. intros Hw. by constructor. Qed.

(** The sanitiser's warnings are about characters. *)
Lemma sanitize_codes bytes charset m location c :
  c <> UnicodeZeroWidthStripped -> c <> UnicodeBidiOverrideStripped -> c <> UnicodeC0C1Stripped ->
  of_code c (sanitize bytes charset m location).2 = [].
Proof.
  intros H1 H2 H3. apply of_code_none. unfold sanitize, build_warnings. cbn [snd].
  rewrite !Forall_app. split; [|split]; apply (code_if (fun x => x <> c)); cbn; congruence.
Qed.

Lemma strip_codes doc decoded c : c <> HtmlScriptStripped -> c <> HtmlStyleStripped -> c <> HtmlRemoteImageStripped ->
  of_code c (sanitize_body ammonia_clean doc decoded).2 = [].
Proof.
  intros H1 H2 H3. apply of_code_none. unfold sanitize_body, count_note. cbn [snd].
  rewrite !Forall_app. split; [|split]; apply (code_if (fun x => x <> c)); cbn; congruence.
Qed.

(** What the caller is told about hidden elements. *)
Definition hidden_report (doc : list node) : list SecurityWarning :=
  let hidden := hidden_from 0 (select_body_all doc) in
  map (fun '(_, m) => warning_at HtmlHiddenContentDetected (lit "method=" ++ as_detail m) (lit "body:html"))
    (take MAX_HIDDEN_HITS hidden) ++
  (if (MAX_HIDDEN_HITS <? length hidden)%nat
   then [warning_at HtmlHiddenContentDetected
          (lit "method=mixed,additional_hits=" ++ to_decimal (Z.of_nat (length hidden - MAX_HIDDEN_HITS))) (lit "body:html")]
   else []).

Lemma mismatch_hits_bounded doc : (length (detect_mismatches registrable links doc).1.1 <= MAX_MISMATCH_HITS)%nat.
Proof.
  unfold detect_mismatches. apply (fold_left_inv _ (fun st : list MismatchHit * Z * list (rstr * rstr) => (length st.1.1 <= MAX_MISMATCH_HITS)%nat)).
  - apply Nat.leb_le. reflexivity.
  - intros [[hits overflow] unparsable] [anchor href] Hl. cbn [fst] in *.
    destruct (check_anchor _ _ _ _) as [[hit|u]|]; cbn [fst]; try done.
    destruct (Nat.ltb_spec (length hits) MAX_MISMATCH_HITS); cbn [fst]; [|done]. rewrite length_app. cbn [length]. lia.
Qed.

Lemma hidden_note doc :
  (if 0 <? Z.of_nat (length (hidden_from 0 (select_body_all doc)) - MAX_HIDDEN_HITS) then
     [warning_at HtmlHiddenContentDetected (lit "method=mixed,additional_hits=" ++
        to_decimal (Z.of_nat (length (hidden_from 0 (select_body_all doc)) - MAX_HIDDEN_HITS))) (lit "body:html")] else []) =
  (if (MAX_HIDDEN_HITS <? length (hidden_from 0 (select_body_all doc)))%nat then
     [warning_at HtmlHiddenContentDetected (lit "method=mixed,additional_hits=" ++
        to_decimal (Z.of_nat (length (hidden_from 0 (select_body_all doc)) - MAX_HIDDEN_HITS))) (lit "body:html")] else []).
Proof. destruct (Nat.ltb_spec MAX_HIDDEN_HITS (length (hidden_from 0 (select_body_all doc)))), (Z.ltb_spec 0 (Z.of_nat (length (hidden_from 0 (select_body_all doc)) - MAX_HIDDEN_HITS))); (done || lia). Qed.

Lemma html_warnings_codes doc :
  of_code HtmlHiddenContentDetected (html_warnings registrable links doc) = hidden_report doc /\
  (length (of_code HtmlLinkTextHrefMismatch (html_warnings registrable links doc)) <= S MAX_MISMATCH_HITS)%nat.
Proof.
  pose proof (mismatch_hits_bounded doc) as Hm. unfold html_warnings, hidden_report. rewrite detect_hidden_spec.
  destruct (detect_mismatches registrable links doc) as [[mm mo] un]. cbn [fst] in Hm. rewrite hidden_note, !of_code_app.
  rewrite (of_code_all HtmlHiddenContentDetected (map _ (take _ _)))
    by (apply (code_map _ (fun c => c = HtmlHiddenContentDetected)); by intros [? ?]).
  rewrite (of_code_all HtmlHiddenContentDetected (if (_ <? _)%nat then _ else _)) by (by apply (code_if (fun c => c = _))).
  rewrite (of_code_none HtmlHiddenContentDetected (map _ mm)) by (by apply (code_map _ (fun c => c <> _))).
  rewrite (of_code_none HtmlHiddenContentDetected (if 0 <? mo then _ else _)) by (by apply (code_if (fun c => c <> _))).
  rewrite (of_code_none HtmlHiddenContentDetected (map _ un)) by (apply (code_map _ (fun c => c <> _)); by intros [? ?]).
  split; [by rewrite !app_nil_r|].
  rewrite (of_code_none HtmlLinkTextHrefMismatch (map _ (take _ _))) by (apply (code_map _ (fun c => c <> _)); by intros [? ?]).
  rewrite (of_code_none HtmlLinkTextHrefMismatch (if (_ <? _)%nat then _ else _)) by (by apply (code_if (fun c => c <> _))).
  rewrite (of_code_all HtmlLinkTextHrefMismatch (map _ mm)) by (by apply (code_map _ (fun c => c = _))).
  rewrite (of_code_all HtmlLinkTextHrefMismatch (if 0 <? mo then _ else _)) by (by apply (code_if (fun c => c = _))).
  rewrite (of_code_none HtmlLinkTextHrefMismatch (map _ un)) by (apply (code_map _ (fun c => c <> _)); by intros [? ?]).
  rewrite app_nil_r. cbn [app]. rewrite length_app, length_map. destruct (0 <? mo); cbn [length]; lia.
Qed.

(** A body is refused for its size or accepted with a clean text. *)
Lemma html_sanitize_cases raw charset :
  (MAX_HTML_BYTES < Z.of_nat (length raw) /\ run_html raw charset = Err (LimitExceeded (lit "html_body") MAX_HTML_BYTES)) \/
  (Z.of_nat (length raw) <= MAX_HTML_BYTES /\ exists r, run_html raw charset = Ok r /\ clean MAX_HTML_BYTES (hr_body_text r)).
Proof.
  unfold html_sanitize. destruct (Z.ltb_spec MAX_HTML_BYTES (Z.of_nat (length raw))) as [Hl|Hl]; [by left|right]. split; [done|].
  unfold extract_text. set (t := str_bytes _).
  assert (H0 : 0 <= MAX_HTML_BYTES) by (apply Z.leb_le; reflexivity).
  pose proof (sanitize_clean t (Some (lit "utf-8")) MAX_HTML_BYTES (lit "body:html") H0) as Hc.
  destruct (sanitize t _ _ _) as [text text_warnings], (sanitize_body _ _ _) as [html strip]. by eexists.
Qed.

(** A body over the limit is refused with the limit in the error and no other
    body is; the extracted text of an accepted one has no invisible, directional
    or control character and keeps to the limit; each of the first sixty-four
    elements hidden by their style is reported with its method and the rest by
    their count; and at most thirty-three warnings tell of misleading links. *)
Theorem html_result_bounded raw charset :
  match run_html raw charset with
  | Err e => MAX_HTML_BYTES < Z.of_nat (length raw) /\ e = LimitExceeded (lit "html_body") MAX_HTML_BYTES
  | Ok r =>
      Z.of_nat (length raw) <= MAX_HTML_BYTES /\ clean MAX_HTML_BYTES (hr_body_text r) /\
      of_code HtmlHiddenContentDetected (hr_warnings r) = hidden_report (parse_document (decode raw charset)) /\
      (length (of_code HtmlLinkTextHrefMismatch (hr_warnings r)) <= 33)%nat
  end.
Proof.
  unfold html_sanitize. destruct (Z.ltb_spec MAX_HTML_BYTES (Z.of_nat (length raw))) as [Hl|Hl]; [done|].
  set (doc := parse_document (decode raw charset)).
  pose proof (strip_codes doc (decode raw charset)) as Hstrip. destruct (html_warnings_codes doc) as [Hh Hm].
  unfold extract_text. set (t := str_bytes _).
  assert (H0 : 0 <= MAX_HTML_BYTES) by (apply Z.leb_le; reflexivity).
  pose proof (sanitize_clean t (Some (lit "utf-8")) MAX_HTML_BYTES (lit "body:html") H0) as Hc.
  pose proof (sanitize_codes t (Some (lit "utf-8")) MAX_HTML_BYTES (lit "body:html")) as Hs.
  destruct (sanitize t _ _ _) as [text text_warnings], (sanitize_body _ _ _) as [html strip]. cbn [fst snd] in *.
  cbn [hr_body_text hr_warnings]. rewrite !of_code_app, Hh, !Hs, !Hstrip, !app_nil_r by done. done.
Qed.
End pipeline.
