(* ===== verification/HtmlText.v ===== *)
(** * The text extracted from an HTML body (crates/rimap-content/src/html/extract.rs)

    A reference for [Html.extract_text], written without the walk, its element
    numbers and its buffer: the texts shown, each by its place in the tree, and
    their words.  The theorem says the two agree, and under which conditions;
    the examples after it show what happens outside them. *)

From Stdlib Require Import ZArith Lia Btauto.
From stdpp Require Import base option list numbers strings.
From S2P Require Import Prelude RustStr Content Unicode ContentMeta Html.
Local Open Scope Z_scope.

(** ** The reference *)

(** *** Which elements are skipped *)

Definition last_value (prop : rstr) (decls : list (rstr * rstr)) : option rstr :=
  snd <$> last (List.filter (fun '(p, _) => str_eqb p prop) decls).

Definition declares (decls : list (rstr * rstr)) (prop : rstr) (v : rstr -> bool) : bool :=
  existsb (fun '(p, x) => str_eqb p prop && v x) decls.

Definition value_is (v : rstr) (x : option rstr) : bool := match x with Some x => str_eqb x v | None => false end.

(** Declarations that hide: any that makes the element disappear, or an
    absolute position more than a hundred pixels off (the last value of each
    property counts), or text in the colour of its background. *)
Definition hides (decls : list (rstr * rstr)) : bool :=
  let off prop parse := match last_value prop decls with Some v => far_off (parse v) | None => false end in
  declares decls (lit "display") (str_eqb (lit "none")) ||
  declares decls (lit "visibility") (str_eqb (lit "hidden")) ||
  declares decls (lit "opacity") opacity_is_zero ||
  declares decls (lit "font-size") font_size_is_zero ||
  ((value_is (lit "absolute") (last_value (lit "position") decls) || value_is (lit "fixed") (last_value (lit "position") decls)) &&
   (off (lit "left") parse_px || off (lit "top") parse_px || off (lit "transform") parse_translate_px)) ||
  match last_value (lit "color") decls, last_value (lit "background-color") decls with
  | Some text, Some background => str_eqb text background
  | _, _ => false
  end.

Definition hidden_by_style (n : node) : bool :=
  match attr (node_attrs n) (lit "style") with Some style => hides (parse_inline_style style) | None => false end.

(** An element whose text is not wanted: hidden by its style, or no content. *)
Definition skipped (n : node) : bool :=
  hidden_by_style n ||
  existsb (str_eqb (node_tag n)) [lit "script"; lit "style"; lit "noscript"; lit "template"; lit "head"; lit "title"].

(** *** Which text nodes are read *)

(** Among the siblings before (nearest first), a [CDATA] comment with no element since. *)
Fixpoint cdata_open (before : list node) : bool :=
  match before with
  | [] | Elem _ _ _ :: _ => false
  | Comment s :: before => starts_with (lit "[CDATA[") s || cdata_open before
  | _ :: before => cdata_open before
  end.

(** A text node is passed over when it holds the end of a CDATA section or
    follows the comment made of the start of one. *)
Definition passed_over (before : list node) (s : rstr) : bool := contains (lit "]]>") s || cdata_open before.

(** The text nodes read below a node, in document order; [before] are the siblings before it. *)
Fixpoint texts_of (before : list node) (n : node) : list rstr :=
  match n with
  | TextNode s => if passed_over before s then [] else [s]
  | Elem _ _ children =>
      if skipped n then []
      else (fix siblings before l :=
              match l with [] => [] | c :: l => texts_of before c ++ siblings (c :: before) l end) [] children
  | _ => []
  end.

Fixpoint texts_below (before : list node) (l : list node) : list rstr :=
  match l with [] => [] | c :: l => texts_of before c ++ texts_below (c :: before) l end.

(** *** Their words *)

Fixpoint words_from (word : rstr) (s : rstr) : list rstr :=
  let ended := match word with [] => [] | _ => [word] end in
  match s with
  | [] => ended
  | c :: s => if is_whitespace c then ended ++ words_from [] s else words_from (word ++ [c]) s
  end.
Definition words (s : rstr) : list rstr := words_from [] s.

(** ** Words of the buffer *)

Lemma words_from_sep w a c b : is_whitespace c = true -> words_from w (a ++ c :: b) = words_from w a ++ words b.
Proof.
  intros Hc. revert w. induction a as [|x a IH]; intros w; cbn [app words_from]; [by rewrite Hc|].
  destruct (is_whitespace x); [by rewrite IH, app_assoc|apply IH].
Qed.

(** Text added to the buffer adds its words. *)
Lemma push_text_words out s : contains (lit "]]>") s = false -> words (push_text out s) = words out ++ words s.
Proof.
  intros Hs. unfold push_text, words. rewrite Hs. destruct out as [|c out _] using rev_ind; [done|].
  rewrite last_snoc. destruct (is_whitespace c) eqn:Ec.
  - rewrite <- app_assoc. cbn [app]. rewrite !words_from_sep by done. cbn. by rewrite app_nil_r.
  - rewrite <- (app_assoc (out ++ [c])). cbn [app]. by rewrite words_from_sep.
Qed.

(** The buffer of the normaliser: words done, and the one being read. *)
Definition spaced (ws : list rstr) (w : rstr) (out : rstr) (prev : bool) : Prop :=
  Forall (fun c => is_whitespace c = false) w /\
  (forall c, last (join [32] ws) = Some c -> is_whitespace c = false) /\ Forall (fun x => x <> []) ws /\
  match w with
  | [] => match ws with [] => out = [] | _ => out = join [32] ws ++ [32] /\ prev = true end
  | _ => out = join [32] (ws ++ [w]) /\ prev = false
  end.

Lemma last_not_space (s : rstr) : (forall c, last s = Some c -> is_whitespace c = false) -> trim_end_matches is_whitespace s = s.
Proof.
  intros H. unfold trim_end_matches. destruct s as [|c s _] using rev_ind; [done|].
  rewrite rev_app_distr. cbn [rev app drop_while]. rewrite (H c) by apply last_snoc.
  cbn [rev]. by rewrite rev_involutive.
Qed.

Lemma join_snoc sep ps p : ps <> [] -> join sep (ps ++ [p]) = join sep ps ++ sep ++ p.
Proof. intros H. by rewrite join_app. Qed.

Lemma last_join_snoc ws w : w <> [] -> last (join [32] (ws ++ [w])) = last w.
Proof.
  intros Hw. destruct ws as [|x ws]; [done|]. rewrite join_snoc by done.
  destruct w as [|c w _] using rev_ind; [done|]. by rewrite !app_assoc, !last_snoc.
Qed.

Lemma join_snoc_char ws w c : w <> [] -> join [32] (ws ++ [w]) ++ [c] = join [32] (ws ++ [w ++ [c]]).
Proof. intros Hw. destruct ws; [done|]. rewrite !join_snoc by done. by rewrite <- !app_assoc. Qed.

(** A word ends. *)
Lemma spaced_ended ws x w out prev : spaced ws (x :: w) out prev -> spaced (ws ++ [x :: w]) [] (out ++ [32]) true /\ out <> [].
Proof.
  intros (Hw & Hj & Hne & -> & ->). split.
  - split; [constructor|]. split.
    + intros c. rewrite last_join_snoc by done. intros Hl. apply last_Some_elem_of in Hl. rewrite Forall_forall in Hw. by apply Hw.
    + split; [apply Forall_app; split; [done|by apply Forall_singleton]|]. destruct (ws ++ [x :: w]) eqn:E; [by destruct ws|done].
  - destruct ws; [done|]. rewrite join_snoc by done. intros E. by apply app_eq_nil in E as [_ E].
Qed.

(** A character is read. *)
Lemma spaced_read ws w out prev c : is_whitespace c = false -> spaced ws w out prev -> spaced ws (w ++ [c]) (out ++ [c]) false.
Proof.
  intros Hc (Hw & Hj & Hne & H). split; [apply Forall_app; split; [done|by apply Forall_singleton]|]. split; [done|]. split; [done|].
  destruct w as [|x w].
  - cbn [app]. destruct ws as [|y ws]; [by subst|]. destruct H as [-> _]. rewrite join_snoc by done. by rewrite <- app_assoc.
  - destruct H as [-> _]. cbn [app]. by rewrite join_snoc_char.
Qed.

Lemma collapse_words s : forall ws w out prev, spaced ws w out prev ->
  collapse_spaces s out prev = join [32] (ws ++ words_from w s).
Proof.
  induction s as [|c s IH]; intros ws w out prev Hs; cbn [collapse_spaces words_from].
  - destruct w as [|x w]; destruct Hs as (Hw & Hj & Hne & H).
    + rewrite app_nil_r. destruct ws as [|y ws]; [by subst|]. destruct H as [-> _].
      unfold trim_end_matches. rewrite rev_app_distr. cbn [rev app drop_while]. change (is_whitespace 32) with true.
      by apply last_not_space.
    + destruct H as [-> _]. apply last_not_space. intros c. rewrite last_join_snoc by done.
      intros Hl. apply last_Some_elem_of in Hl. rewrite Forall_forall in Hw. by apply Hw.
  - destruct (is_whitespace c) eqn:Ec; [|apply IH; by eapply spaced_read].
    destruct w as [|x w].
    + cbn [app]. apply IH. destruct Hs as (Hw & Hj & Hne & H). split; [done|]. split; [done|]. split; [done|].
      destruct ws as [|y ws]; [subst; by destruct prev|]. destruct H as [-> ->]. done.
    + destruct (spaced_ended _ _ _ _ _ Hs) as [Hn Hout]. destruct Hs as (_ & _ & _ & _ & ->).
      replace (negb false && negb (str_eqb out [])) with true by (by destruct out).
      rewrite (IH _ _ _ _ Hn), <- app_assoc. done.
Qed.

Lemma normalize_words s : normalize_whitespace s = join [32] (words s).
Proof. apply (collapse_words s [] [] [] false). split_and!; try done; constructor. Qed.

(** ** The walk *)

Section node_induction.
Context (P : node -> Prop).
Hypotheses (HElem : forall tag attrs children, Forall P children -> P (Elem tag attrs children))
  (HText : forall s, P (TextNode s)) (HComment : forall s, P (Comment s)) (HOther : P OtherNode).

Fixpoint node_rect' (n : node) : P n :=
  match n with
  | Elem tag attrs children =>
      HElem tag attrs children
        ((fix go l := match l return Forall P l with
                      | [] => @List.Forall_nil node P
                      | c :: l => @List.Forall_cons node P c l (node_rect' c) (go l)
                      end) children)
  | TextNode s => HText s
  | Comment s => HComment s
  | OtherNode => HOther
  end.
End node_induction.

(** Below [body], document order is all that matters. *)
Abbreviation descendants := (fun l : list node => concat (map (elements is_body true) l)).

Lemma elements_elem tag attrs children :
  elements is_body true (Elem tag attrs children) = Elem tag attrs children :: descendants children.
Proof. done. Qed.

Lemma texts_of_elem before tag attrs children : texts_of before (Elem tag attrs children) =
  if skipped (Elem tag attrs children) then [] else texts_below [] children.
Proof.
  cbn [texts_of]. destruct (skipped _); [done|]. generalize (@nil node).
  induction children as [|c children IH]; intros b; [done|]. cbn [texts_below]. by rewrite IH.
Qed.

(** *** The classification of a style *)

Lemma filter_snoc {A} (p : A -> bool) l x : List.filter p (l ++ [x]) = List.filter p l ++ (if p x then [x] else []).
Proof. rewrite List.filter_app. cbn. by destruct (p x). Qed.

Lemma last_value_snoc prop decls p v :
  last_value prop (decls ++ [(p, v)]) = if str_eqb p prop then Some v else last_value prop decls.
Proof.
  unfold last_value. rewrite filter_snoc. destruct (str_eqb p prop); [by rewrite last_snoc|by rewrite app_nil_r].
Qed.

(** The hints recorded are the last values. *)
Definition hints_of (decls : list (rstr * rstr)) : StyleHints :=
  mkHints (last_value (lit "position") decls) (last_value (lit "left") decls ≫= parse_px)
    (last_value (lit "top") decls ≫= parse_px) (last_value (lit "transform") decls ≫= parse_translate_px)
    (last_value (lit "color") decls) (last_value (lit "background-color") decls).

Lemma record_hints decls prop val : record_hint (hints_of decls) prop val = hints_of (decls ++ [(prop, val)]).
Proof.
  unfold hints_of. rewrite !last_value_snoc. unfold record_hint.
  repeat match goal with |- context [str_eqb prop ?x] =>
    let E := fresh in destruct (str_eqb prop x) eqn:E; [apply str_eqb_eq in E as ->; reflexivity|] end.
  reflexivity.
Qed.

(** A declaration that hides by itself. *)
Definition hiding (d : rstr * rstr) : bool :=
  let '(p, v) := d in
  (str_eqb p (lit "display") && str_eqb (lit "none") v) || (str_eqb p (lit "visibility") && str_eqb (lit "hidden") v) ||
  (str_eqb p (lit "opacity") && opacity_is_zero v) || (str_eqb p (lit "font-size") && font_size_is_zero v).

Lemma str_eqb_sym a b : str_eqb a b = str_eqb b a.
Proof. apply eq_true_iff_eq. rewrite !str_eqb_eq. split; congruence. Qed.

Lemma single_hiding p v :
  (hiding (p, v) = true -> is_Some (classify_single_declaration p v)) /\
  (hiding (p, v) = false -> classify_single_declaration p v = None).
Proof.
  unfold hiding, classify_single_declaration. rewrite (str_eqb_sym (lit "none")), (str_eqb_sym (lit "hidden")).
  repeat match goal with |- context [if ?b then _ else _] => destruct b; cbn [orb]; [split; [by eexists|done]|] end.
  done.
Qed.

Lemma hides_split decls :
  hides decls = existsb hiding decls || (is_offscreen (hints_of decls) || is_color_match (hints_of decls)).
Proof.
  assert (E : declares decls (lit "display") (str_eqb (lit "none")) || declares decls (lit "visibility") (str_eqb (lit "hidden")) ||
    declares decls (lit "opacity") opacity_is_zero || declares decls (lit "font-size") font_size_is_zero = existsb hiding decls).
  { unfold declares. induction decls as [|[p v] decls IH]; [done|]. cbn [existsb]. rewrite <- IH. unfold hiding. btauto. }
  unfold hides. rewrite E, <- orb_assoc. f_equal. apply (f_equal2 orb); [|done].
  unfold is_offscreen, hints_of. cbn [position left_px top_px transform_offset_px].
  destruct (last_value (lit "position") decls) as [p|]; [|done]. cbn [value_is].
  destruct (str_eqb p _ || str_eqb p _); [|done]. cbn [andb].
  by destruct (last_value (lit "left") decls), (last_value (lit "top") decls), (last_value (lit "transform") decls).
Qed.

Lemma classify_pairs_hides decls : forall before, existsb hiding before = false ->
  (if classify_pairs decls (hints_of before) then true else false) = hides (before ++ decls).
Proof.
  induction decls as [|[p v] decls IH]; intros before Hb; cbn [classify_pairs].
  - rewrite app_nil_r, hides_split, Hb. by destruct (is_offscreen _), (is_color_match _).
  - destruct (single_hiding p v) as [H1 H2]. destruct (hiding (p, v)) eqn:Eh.
    + destruct (H1 eq_refl) as [m ->]. rewrite hides_split, existsb_app. cbn [existsb]. rewrite Eh. by rewrite orb_true_r.
    + rewrite (H2 eq_refl), record_hints. change ((p, v) :: decls) with ([(p, v)] ++ decls). rewrite app_assoc.
      rewrite <- IH; [done|]. rewrite existsb_app, Hb. cbn [existsb]. by rewrite Eh.
Qed.

Lemma hidden_method_style n : (if hidden_method n then true else false) = hidden_by_style n.
Proof.
  unfold hidden_method, hidden_by_style. destruct (attr _ _) as [style|]; [|done]. cbn [mbind option_bind].
  by apply (classify_pairs_hides (parse_inline_style style) []).
Qed.

(** *** The numbering *)

(** No skipped element holds elements. *)
Definition flat (els : list node) : Prop :=
  Forall (fun n => skipped n = true -> descendants (node_children n) = []) els.

(** The set names exactly the hidden ones of [els], numbered from [k]. *)
Definition numbers (hidden : nat -> bool) (k : nat) (els : list node) : Prop :=
  forall i n, els !! i = Some n -> hidden (k + i)%nat = hidden_by_style n.

Lemma numbers_app hidden k a b : numbers hidden k (a ++ b) <-> numbers hidden k a /\ numbers hidden (k + length a) b.
Proof.
  unfold numbers. split.
  - intros H. split; intros i n Hi.
    + apply H. by apply lookup_app_l_Some.
    + rewrite <- Nat.add_assoc. apply H. rewrite lookup_app_r by lia. by rewrite Nat.add_comm, Nat.add_sub.
  - intros [Ha Hb] i n Hi. apply lookup_app_Some in Hi as [Hi|[Hl Hi]]; [by apply Ha|].
    specialize (Hb _ _ Hi). by replace (k + i)%nat with (k + length a + (i - length a))%nat by lia.
Qed.

Lemma hidden_from_lookup k els i n : els !! i = Some n ->
  existsb (fun '(j, _) => Nat.eqb j (k + i)) (hidden_from k els) = hidden_by_style n.
Proof.
  assert (Hlow : forall els k j, (j < k)%nat -> existsb (fun '(i, _) => Nat.eqb i j) (hidden_from k els) = false).
  { clear. induction els as [|n els IH]; intros k j Hj; [done|]. rewrite hidden_from_cons, existsb_app, IH by lia.
    rewrite orb_false_r. destruct (hidden_method n); cbn; [|done]. rewrite orb_false_r. apply Nat.eqb_neq. lia. }
  revert k i. induction els as [|n' els IH]; intros k i Hi; [done|]. rewrite hidden_from_cons, existsb_app.
  destruct i as [|i]; cbn in Hi.
  - injection Hi as ->. rewrite Hlow by lia. rewrite orb_false_r, Nat.add_0_r, <- hidden_method_style.
    destruct (hidden_method n); cbn; [|done]. by rewrite Nat.eqb_refl.
  - rewrite Nat.add_succ_r, <- Nat.add_succ_l, IH by done. destruct (hidden_method n'); cbn; [|done].
    destruct (Nat.eqb_spec k (S (k + i))); [lia|done].
Qed.

Lemma hidden_from_length k els : length (hidden_from k els) = length (List.filter hidden_by_style els).
Proof.
  revert k. induction els as [|n els IH]; intros k; [done|]. rewrite hidden_from_cons, length_app, IH. cbn [List.filter].
  rewrite <- hidden_method_style. by destruct (hidden_method n).
Qed.

Lemma hidden_set_numbers doc : (length (List.filter hidden_by_style (select_body_all doc)) <= 64)%nat ->
  numbers (hidden_set doc) 0 (select_body_all doc).
Proof.
  intros Hl i n Hi. unfold hidden_set. rewrite detect_hidden_spec. cbn [fst].
  rewrite take_ge by (by rewrite hidden_from_length). by apply (hidden_from_lookup 0).
Qed.

(** *** The walk reads the texts of the reference *)

(** Walking the siblings [l] after [before] from a buffer, a number and a flag. *)
Definition reads (hidden : nat -> bool) (before l : list node) (out : rstr) (k : nat) (st : rstr * nat * bool) : Prop :=
  let '(out', k', after) := st in
  words out' = words out ++ concat (map words (texts_below before l)) /\
  k' = (k + length (descendants l))%nat /\ after = cdata_open (rev l ++ before).

Lemma skipped_tags tag : existsb (str_eqb tag) [lit "script"; lit "style"; lit "noscript"; lit "template"; lit "head"; lit "title"] =
  is_non_content tag.
Proof. reflexivity. Qed.

Lemma reads_list hidden l :
  Forall (fun n => forall before out k, flat (elements is_body true n) -> numbers hidden k (elements is_body true n) ->
    reads hidden before [n] out k (walk hidden (out, k, cdata_open before) n)) l ->
  forall before out k, flat (descendants l) -> numbers hidden k (descendants l) ->
  reads hidden before l out k (fold_left (walk hidden) l (out, k, cdata_open before)).
Proof.
  induction 1 as [|n l Hn _ IH]; intros before out k Hf Hk.
  - cbn. rewrite !app_nil_r, Nat.add_0_r. done.
  - cbn [map concat fold_left] in *. apply Forall_app in Hf as [Hf1 Hf2]. apply numbers_app in Hk as [Hk1 Hk2].
    specialize (Hn before out k Hf1 Hk1). destruct (walk hidden (out, k, cdata_open before) n) as [[o k'] a].
    destruct Hn as (Ho & -> & ->). cbn [map concat] in Hk2, Ho |- *. rewrite app_nil_r in *. cbn [rev app texts_below] in *.
    rewrite app_nil_r in Ho. specialize (IH (n :: before) o _ Hf2 Hk2).
    destruct (fold_left _ _ _) as [[o' k''] a']. destruct IH as (Ho' & -> & ->). split_and!.
    + cbn [texts_below]. by rewrite Ho', Ho, map_app, concat_app, app_assoc.
    + cbn [map concat]. rewrite length_app. lia.
    + cbn [rev]. by rewrite <- app_assoc.
Qed.

Lemma walk_reads hidden n : forall before out k, flat (elements is_body true n) -> numbers hidden k (elements is_body true n) ->
  reads hidden before [n] out k (walk hidden (out, k, cdata_open before) n).
Proof.
  induction n as [tag attrs children IH|s|s|] using node_rect'; intros before out k Hf Hn.
  - rewrite elements_elem in *. apply Forall_cons in Hf as [Hd Hf].
    apply (numbers_app hidden k [_] _) in Hn as [H0 Hn]. specialize (H0 0%nat _ eq_refl). rewrite Nat.add_0_r in H0.
    unfold reads. cbn [walk map concat texts_below rev app]. rewrite !app_nil_r, H0, texts_of_elem, elements_elem.
    unfold skipped in *. cbn [node_tag] in *. rewrite skipped_tags in *.
    destruct (hidden_by_style _ || is_non_content tag).
    + cbn [node_children] in Hd. rewrite (Hd eq_refl). cbn. rewrite app_nil_r. split_and!; [done|lia|done].
    + clear Hd H0. replace (k + length [Elem tag attrs children])%nat with (S k) in Hn by (cbn; lia).
      pose proof (reads_list hidden children IH [] out (S k) Hf Hn) as Hr. change (cdata_open []) with false in Hr.
      destruct (fold_left _ _ _) as [[o k'] a]. destruct Hr as (Ho & -> & _). split_and!; [done|cbn [length]; lia|done].
  - unfold reads. cbn [walk map concat texts_below texts_of rev app elements length]. unfold passed_over.
    destruct (cdata_open before) eqn:Ec; cbn [cdata_open].
    + rewrite orb_true_r. cbn. rewrite app_nil_r. split_and!; [done|lia|done].
    + rewrite orb_false_r. destruct (contains (lit "]]>") s) eqn:Es.
      * unfold push_text. rewrite Es. cbn. rewrite app_nil_r. split_and!; [done|lia|done].
      * rewrite push_text_words by done. cbn. rewrite app_nil_r. split_and!; [done|lia|done].
  - cbn. rewrite app_nil_r. split_and!; [done|lia|done].
  - cbn. rewrite app_nil_r. split_and!; [done|lia|done].
Qed.

(** The document has one [body], and the elements below any body are those below it. *)
Definition body_is (doc : list node) (body : node) : Prop :=
  head (select_tag (lit "body") doc) = Some body /\ select_body_all doc = descendants (node_children body).

(** ** The properties *)

(** C39: In a document with at most sixty-four elements hidden by their style,
    in which no skipped element (hidden by its style, or a script, style,
    noscript, template, head or title) holds further elements, the extracted
    text is what the sanitiser makes of the words, in document order and one
    space apart, of the body's text nodes under no skipped element: hidden text
    is left out and, but for the next two, no other text is lost. Passed over as
    well, although a reader would see it: a text node that contains the three
    characters closing a CDATA section, and one that follows, among its
    siblings and with no element between, the comment a CDATA section's opening
    is parsed into. Which styles hide is spelt out in [hides]: display none,
    visibility hidden, zero opacity or font size, more than 100 pixels off at an
    absolute or fixed position, text in its background's colour. *)
Theorem visible_text_exact `{UnicodeLib} doc body : body_is doc body -> flat (select_body_all doc) ->
  (length (List.filter hidden_by_style (select_body_all doc)) <= 64)%nat ->
  extract_text doc (hidden_set doc) =
  sanitize (str_bytes (join [32] (concat (map words (texts_below [] (node_children body)))))) (Some (lit "utf-8"))
    (1024 * 1024) (lit "body:html").
Proof.
  intros [Hh Hb] Hf Hl. pose proof (hidden_set_numbers doc Hl) as Hn. rewrite Hb in Hf, Hn.
  unfold extract_text. rewrite normalize_words. unfold raw_text. destruct (select_tag (lit "body") doc) as [|b bs]; [done|]. injection Hh as ->.
  pose proof (reads_list (hidden_set doc) (node_children body)) as Hr.
  specialize (Hr (proj2 (Forall_forall _ _) (fun n _ => walk_reads (hidden_set doc) n)) [] [] 0%nat Hf Hn).
  change (cdata_open []) with false in Hr. destruct (fold_left _ _ _) as [[o k] a]. destruct Hr as (Ho & _ & _). cbn [fst]. by rewrite Ho.
Qed.

#[local] Existing Instance plain_unicode.

Definition styled (tag style : rstr) (children : list node) : node := Elem tag [(lit "style", style)] children.
Definition page (children : list node) : list node :=
  [Elem (lit "html") [] [Elem (lit "head") [] [Elem (lit "title") [] [TextNode (lit "title")]]; Elem (lit "body") [] children]].

(** One hidden paragraph, one script, a text closing a CDATA section, and text around them. *)
Definition flat_page : list node :=
  [TextNode (lit "Dear"); Elem (lit "b") [] [TextNode (lit "reader ")]; styled (lit "p") (lit "opacity: 0") [TextNode (lit "obey")];
   Elem (lit "div") [] [Elem (lit "script") [] [TextNode (lit "run()")]; TextNode (lit " hello "); TextNode (lit "a]]>b")]].

Lemma visible_text_exact_witness :
  List.filter hidden_by_style (select_body_all (page flat_page)) = [styled (lit "p") (lit "opacity: 0") [TextNode (lit "obey")]] /\
  (extract_text (page flat_page) (hidden_set (page flat_page))).1 = lit "Dear reader hello".
Proof.
  split; [vm_compute; reflexivity|]. rewrite (visible_text_exact (page flat_page) (Elem (lit "body") [] flat_page)).
  - vm_compute. reflexivity.
  - split; vm_compute; reflexivity.
  - repeat (apply List.Forall_cons; [intros H; vm_compute in H; vm_compute; first [reflexivity|discriminate H]|]). apply List.Forall_nil.
  - apply Nat.leb_le. vm_compute. reflexivity.
Defined.

(** A dropped element's own elements are not counted, and every later number is off:
    the hidden paragraph is read and the shown one is not. *)
Example numbers_shift :
  let doc := page [styled (lit "div") (lit "display:none") [Elem (lit "b") [] [TextNode (lit "x")]];
                   styled (lit "p") (lit "display:none") [TextNode (lit "SECRET")];
                   Elem (lit "p") [] [TextNode (lit "shown")]] in
  raw_text doc (hidden_set doc) = lit "SECRET".
Proof. vm_compute. reflexivity. Qed.

(** The sixty-fifth hidden element is counted as hidden and its text is extracted. *)
Example past_the_cap :
  let hide s := styled (lit "p") (lit "display:none") [TextNode s] in
  let doc := page (replicate 64 (hide (lit "x")) ++ [hide (lit "SECRET")]) in
  raw_text doc (hidden_set doc) = lit "SECRET" /\ (detect_hidden doc).2 = 1.
Proof. vm_compute. repeat split. Qed.

