(* ===== verification/Parse.v ===== *)
(** * Parsing a message (crates/rimap-content/src/parse: bodies.rs, pipeline.rs,
    headers.rs)

    Limits on size, headers, parts and depth; the text and HTML bodies with
    their limits; and [parse_message] over the MIME parser, which is a
    parameter. *)

From Stdlib Require Import ZArith Lia.
From stdpp Require Import base option list numbers strings.
From S2P Require Import Prelude RustStr Content Unicode MimeScrub Filename ContentMeta Lookalike Html HtmlText.
Local Open Scope Z_scope.

(* [crates/rimap-content/src/parse/pipeline.rs:19-19] MAX_MESSAGE_BYTES *)
Definition MAX_MESSAGE_BYTES : Z := 25 * 1024 * 1024.
(* [crates/rimap-content/src/parse/pipeline.rs:22-22] MAX_BODY_BYTES *)
Definition MAX_BODY_BYTES : Z := 1024 * 1024.
(* [crates/rimap-content/src/parse/pipeline.rs:28-28] MAX_TOTAL_BODY_BYTES *)
Definition MAX_TOTAL_BODY_BYTES : Z := 4 * 1024 * 1024.
(* [crates/rimap-content/src/parse/pipeline.rs:34-34] MAX_MIME_DEPTH *)
Definition MAX_MIME_DEPTH : nat := 8.
(* [crates/rimap-content/src/parse/pipeline.rs:38-38] MAX_MIME_PARTS *)
Definition MAX_MIME_PARTS : Z := 100.
(* [crates/rimap-content/src/parse/pipeline.rs:41-41] MAX_HEADER_COUNT *)
Definition MAX_HEADER_COUNT : Z := 256.

(** [Ok(None)] of the parser: the bytes were rejected.  [Err]: it panicked. *)
Inductive SafeParse := Parsed (m : Message) | Rejected | Panicked.

(** ** Depth *)

(** The deepest level below a part at level [current]; the fuel left is what the
    short circuit leaves, [MAX_MIME_DEPTH + 1 - current]. *)
(* [crates/rimap-content/src/parse/bodies.rs:263-284] depth_recursive *)
Fixpoint depth_recursive (m : Message) (fuel part_id current : nat) : nat :=
  match fuel with
  | O => current
  | S fuel =>
      match m_parts m !! part_id with
      | None => current
      | Some part =>
          match part_body part with
          | BMultipart [] => current
          | BMultipart children => max_list (map (fun child => depth_recursive m fuel child (S current)) children)
          | BMessage => S current
          | BText _ | BHtml _ | BBinary _ | BInlineBinary _ => current
          end
      end
  end.

(* [crates/rimap-content/src/parse/bodies.rs:253-259] compute_max_depth *)
Definition compute_max_depth (m : Message) : nat := depth_recursive m MAX_MIME_DEPTH 0 1.

(* [crates/rimap-content/src/parse/bodies.rs:233-250] check_mime_depth *)
Definition check_mime_depth (m : Message) : result ContentError unit :=
  if (MAX_MIME_DEPTH <? compute_max_depth m)%nat then Err (LimitExceeded (lit "mime_depth") (Z.of_nat MAX_MIME_DEPTH)) else Ok tt.

(* [crates/rimap-content/src/parse/headers.rs:43-60] enforce_header_count *)
Definition enforce_header_count (m : Message) : result ContentError unit :=
  if MAX_HEADER_COUNT <? Z.of_nat (length (m_headers m)) then Err (LimitExceeded (lit "header_count") MAX_HEADER_COUNT) else Ok tt.

(** ** Bodies *)

(* [crates/rimap-content/src/parse/bodies.rs:102-109] BodyWalkState *)
Record BodyWalkState := mkWalk {
  primary_text : option rstr; alternates : list rstr; bw_html : option rstr; bw_hrefs : list rstr;
  bw_truncated : bool; total_bytes : Z }.

(* [crates/rimap-content/src/parse/bodies.rs:16-22] BodyExtraction *)
Record BodyExtraction := mkBodies {
  be_primary : rstr; be_alternates : list rstr; be_html : option rstr; be_hrefs : list rstr; be_truncated : bool }.

Definition usize_saturating_add (a b : Z) : Z := Z.min u64_max (a + b).

(** The text takes the primary slot, or joins the alternates. *)
Definition add_text (st : BodyWalkState) (text : rstr) : BodyWalkState :=
  let total := usize_saturating_add (total_bytes st) (str_len text) in
  match primary_text st with
  | None => mkWalk (Some text) (alternates st) (bw_html st) (bw_hrefs st) (bw_truncated st) total
  | Some _ => mkWalk (primary_text st) (alternates st ++ [text]) (bw_html st) (bw_hrefs st) (bw_truncated st) total
  end.
Definition set_truncated (st : BodyWalkState) : BodyWalkState :=
  mkWalk (primary_text st) (alternates st) (bw_html st) (bw_hrefs st) true (total_bytes st).
Definition set_html (st : BodyWalkState) (html : rstr) (hrefs : list rstr) : BodyWalkState :=
  mkWalk (primary_text st) (alternates st) (Some html) hrefs (bw_truncated st) (total_bytes st).

Section parse.
Context `{UnicodeLib, DomainLib} (debug_str : rstr -> rstr)
  (registrable : rstr -> option rstr) (parse_document : rstr -> list node) (ammonia_clean : rstr -> rstr)
  (mail_parser : list Z -> SafeParse).
Abbreviation run_html := (html_sanitize registrable url_links parse_document ammonia_clean).

Definition text_location (idx : nat) : rstr := lit "body:text[" ++ to_decimal (Z.of_nat idx) ++ lit "]".

(* [crates/rimap-content/src/parse/bodies.rs:114-140] decode_text_part *)
Definition decode_text_part (part : MessagePart) (raw_bytes : list Z) (idx : nat) (st : BodyWalkState)
    : BodyWalkState * list SecurityWarning :=
  let len := Z.of_nat (length raw_bytes) in
  let '(st, ws) :=
    if MAX_BODY_BYTES <? len then
      (set_truncated st, [warning_at ParseBodyTruncated
         (lit "original=" ++ to_decimal len ++ lit " limit=" ++ to_decimal MAX_BODY_BYTES) (text_location idx)])
    else (st, []) in
  let '(text, new_warnings) := sanitize raw_bytes (part_charset part) MAX_BODY_BYTES (text_location idx) in
  (add_text st text, ws ++ new_warnings).

(* [crates/rimap-content/src/parse/bodies.rs:151-182] sanitize_html_part *)
Definition sanitize_html_part (part : MessagePart) (raw_bytes : list Z) (st : BodyWalkState)
    : result ContentError (BodyWalkState * list SecurityWarning) :=
  match run_html raw_bytes (part_charset part) with
  | Ok r => Ok (set_html (add_text st (hr_body_text r)) (hr_body_html r) (anchor_hrefs r), hr_warnings r)
  | Err (LimitExceeded kind limit) =>
      Ok (set_truncated st, [warning_at ParseBodyTruncated
        (lit "original=" ++ to_decimal (Z.of_nat (length raw_bytes)) ++ lit " limit=" ++ to_decimal limit ++
         lit " kind=" ++ kind) (lit "body:html")])
  | Err err => Err err
  end.

(** One part of the walk; [None] is [continue], which skips the total's check. *)
(* [crates/rimap-content/src/parse/bodies.rs:57-76] extract_bodies *)
Definition visit_body (m : Message) (primary_html : option nat) (idx part_id : nat) (st : BodyWalkState)
    : result ContentError (option (BodyWalkState * list SecurityWarning)) :=
  match m_parts m !! part_id with
  | None => Ok None
  | Some part =>
      match part_body part with
      | BText s => Ok (Some (decode_text_part part (str_bytes s) idx st))
      | BHtml s =>
          if bool_decide (primary_html = Some part_id) then Some <$> sanitize_html_part part (str_bytes s) st else Ok None
      | BMessage | BBinary _ | BInlineBinary _ | BMultipart _ => Ok None
      end
  end.

(* [crates/rimap-content/src/parse/bodies.rs:57-85] extract_bodies *)
Fixpoint walk_bodies (m : Message) (primary_html : option nat) (idx : nat) (ids : list nat) (st : BodyWalkState)
    : result ContentError (BodyWalkState * list SecurityWarning) :=
  match ids with
  | [] => Ok (st, [])
  | part_id :: ids =>
      visited ← visit_body m primary_html idx part_id st;
      match visited with
      | None => walk_bodies m primary_html (S idx) ids st
      | Some (st, ws) =>
          if MAX_TOTAL_BODY_BYTES <=? total_bytes st then
            Ok (set_truncated st, ws ++ [warning_at ParseBodyTruncated
              (lit "total=" ++ to_decimal (total_bytes st) ++ lit " limit=" ++ to_decimal MAX_TOTAL_BODY_BYTES)
              (lit "body:aggregate")])
          else '(st, ws') ← walk_bodies m primary_html (S idx) ids st; Ok (st, ws ++ ws')
      end
  end.

(* [crates/rimap-content/src/parse/bodies.rs:200-222] surface_alternative_html *)
Definition surface_alternative_html (m : Message) (primary_html : option nat) (st : BodyWalkState)
    : result ContentError (BodyWalkState * list SecurityWarning) :=
  match primary_html with
  | None => Ok (st, [])
  | Some part_id =>
      if bool_decide (is_Some (bw_html st)) || bw_truncated st then Ok (st, [])
      else if MAX_TOTAL_BODY_BYTES <=? total_bytes st then Ok (st, [])
      else
        match m_parts m !! part_id with
        | None => Ok (st, [])
        | Some part => match part_body part with BHtml s => sanitize_html_part part (str_bytes s) st | _ => Ok (st, []) end
        end
  end.

(** The warnings pushed before an error are lost with it. *)
(* [crates/rimap-content/src/parse/bodies.rs:28-96] extract_bodies *)
Definition extract_bodies (m : Message) : result ContentError (BodyExtraction * list SecurityWarning) :=
  if MAX_MIME_PARTS <? Z.of_nat (length (m_parts m)) then Err (LimitExceeded (lit "mime_parts") MAX_MIME_PARTS)
  else
    _ ← check_mime_depth m;
    let primary_html := head (m_html_body m) in
    '(st, ws) ← walk_bodies m primary_html 0 (m_text_body m) (mkWalk None [] None [] false 0);
    '(st, ws') ← surface_alternative_html m primary_html st;
    Ok (mkBodies (default [] (primary_text st)) (alternates st) (bw_html st) (bw_hrefs st) (bw_truncated st), ws ++ ws').

(** ** The message *)

Definition set_body_truncated (c : ContentMeta) (b : bool) : ContentMeta :=
  mkContentMeta (from c) (to c) (cc c) (reply_to c) (subject c) (date c) (message_id c) (in_reply_to c) (references c)
    (mailing_list c) (attachments c) (original_size_bytes c) b.

(* [crates/rimap-content/src/parse/pipeline.rs:76-133] parse_message_inner *)
Definition parse_message_inner (raw : list Z) (wanted : list rstr) : result ContentError (Content * list SelectedHeader) :=
  let size := Z.of_nat (length raw) in
  if MAX_MESSAGE_BYTES <? size then Err (LimitExceeded (lit "message_bytes") MAX_MESSAGE_BYTES)
  else
    let '(scrubbed, w1) := scrub_header_smuggling raw in
    match mail_parser scrubbed with
    | Panicked => Err ParserPanic
    | Rejected => Err (Malformed (lit "mail-parser rejected byte stream"))
    | Parsed message =>
        _ ← enforce_header_count message;
        let '(meta, w2) := extract_meta debug_str domain_to_ascii message size in
        '(bodies, w3) ← extract_bodies message;
        let meta := set_body_truncated meta (be_truncated bodies) in
        let w4 := audit (mkInput meta (be_primary bodies) (be_hrefs bodies) (collect_header_domains message)) in
        let '(selected, w5) :=
          match wanted with
          | [] => ([], [])
          | _ => extract_selected_headers domain_to_ascii message scrubbed wanted
          end in
        Ok (mkContent meta (mkUntrusted (be_primary bodies) (be_html bodies) (be_alternates bodies))
              (w1 ++ w2 ++ w3 ++ w4 ++ w5), selected)
    end.

(* [crates/rimap-content/src/parse/pipeline.rs:53-55] parse_message *)
Definition parse_message (raw : list Z) : result ContentError Content := fst <$> parse_message_inner raw [].
(* [crates/rimap-content/src/parse/pipeline.rs:68-73] parse_message_with_headers *)
Definition parse_message_with_headers (raw : list Z) (wanted : list rstr) := parse_message_inner raw wanted.
End parse.

(** ** Depth *)

(** A part seen at a level shows levels: its own, one more for an embedded
    message, and those of its children one further down. *)
Inductive shows (m : Message) : nat -> nat -> nat -> Prop :=
  | shows_here id level : shows m id level level
  | shows_message id level part :
      m_parts m !! id = Some part -> part_body part = BMessage -> shows m id level (S level)
  | shows_child id level part children child n :
      m_parts m !! id = Some part -> part_body part = BMultipart children -> child ∈ children ->
      shows m child (S level) n -> shows m id level n.

Lemma max_list_le l n : (max_list l <= n)%nat <-> Forall (fun x => (x <= n)%nat) l.
Proof. induction l as [|x l IH]; cbn; [|rewrite Forall_cons, <- IH]; split; try constructor; lia || auto. Qed.

Lemma depth_spec m fuel : forall id level, (fuel + level = S MAX_MIME_DEPTH)%nat ->
  (depth_recursive m fuel id level <= MAX_MIME_DEPTH)%nat <-> forall n, shows m id level n -> (n <= MAX_MIME_DEPTH)%nat.
Proof.
  induction fuel as [|fuel IH]; intros id level Hl; cbn [depth_recursive].
  - split; [lia|]. intros H. apply H. constructor.
  - assert (Hlv : (level <= MAX_MIME_DEPTH)%nat) by lia. destruct (m_parts m !! id) as [part|] eqn:Ep.
    2: { split; [|lia]. intros _ n Hs. inversion Hs; subst; congruence || done. }
    destruct (part_body part) as [s|s|b|b| |children] eqn:Eb.
    5: { split; [|by intros H; apply H; eapply shows_message]. intros Hd n Hs.
         inversion Hs; subst; congruence || lia. }
    5: { destruct children as [|c children].
         - split; [|lia]. intros _ n Hs. inversion Hs as [| |? ? ? cs ? ? ? E Hin]; subst; [done|congruence|].
           assert (cs = []) as -> by congruence. by apply not_elem_of_nil in Hin.
         - rewrite max_list_le, Forall_fmap, Forall_forall. split.
           + intros Hd n Hs. inversion Hs as [| |? ? ? cs child ? ? E Hin Hc]; subst; [done|congruence|].
             assert (cs = c :: children) as -> by congruence. refine (proj1 (IH child (S level) _) (Hd _ Hin) n Hc). lia.
           + intros H child Hin. apply (IH child (S level)); [lia|]. intros n Hc. apply H. by eapply shows_child. }
    all: (split; [|lia]); intros _ n Hs; inversion Hs; subst; congruence || done.
Qed.

(** The depth found is one the message shows. *)
Lemma depth_shown m fuel : forall id level, shows m id level (depth_recursive m fuel id level).
Proof.
  assert (Hmax : forall l, l <> [] -> max_list l ∈ l).
  { intros l. induction l as [|x [|y l] IH]; [done| |]; intros _.
    - cbn. rewrite Nat.max_0_r. left.
    - specialize (IH ltac:(done)). change (max_list (x :: y :: l)) with (Nat.max x (max_list (y :: l))).
      destruct (Nat.max_spec x (max_list (y :: l))) as [[_ ->]|[_ ->]]; [by right|left]. }
  induction fuel as [|fuel IH]; intros id level; cbn [depth_recursive]; [constructor|].
  destruct (m_parts m !! id) as [part|] eqn:Ep; [|constructor].
  destruct (part_body part) as [s|s|b|b| |[|c children]] eqn:Eb; try constructor; [by eapply shows_message|].
  set (ds := map _ (c :: children)). assert (Hin : max_list ds ∈ ds) by (by apply Hmax).
  apply list_elem_of_fmap in Hin as (child & E & Hc). rewrite E. eapply shows_child; eauto.
Qed.

(** Every level the message shows is within the limit. *)
Definition shallow (m : Message) : Prop := forall n, shows m 0 1 n -> (n <= MAX_MIME_DEPTH)%nat.

Lemma check_mime_depth_spec m :
  (shallow m /\ check_mime_depth m = Ok tt) \/
  ((exists n, shows m 0 1 n /\ (MAX_MIME_DEPTH < n)%nat) /\ check_mime_depth m = Err (LimitExceeded (lit "mime_depth") (Z.of_nat MAX_MIME_DEPTH))).
Proof.
  pose proof (depth_spec m MAX_MIME_DEPTH 0 1 eq_refl) as Hd. unfold check_mime_depth, compute_max_depth, shallow.
  destruct (Nat.ltb_spec MAX_MIME_DEPTH (depth_recursive m MAX_MIME_DEPTH 0 1)).
  - right. split; [|done]. eexists. split; [apply depth_shown|done].
  - left. split; [|done]. by apply Hd.
Qed.

(** ** Bodies *)

Definition walk_texts (st : BodyWalkState) : list rstr := option_list (primary_text st) ++ alternates st.
Definition total_len (texts : list rstr) : Z := foldr (fun t n => str_len t + n) 0 texts.

Lemma total_len_app a b : total_len (a ++ b) = total_len a + total_len b.
Proof. unfold total_len. induction a as [|t a IH]; cbn; [done|]. lia. Qed.

(** Clean texts, counted, with room for one more below [bound]. *)
Definition walk_ok (bound : Z) (st : BodyWalkState) : Prop :=
  Forall (clean MAX_BODY_BYTES) (walk_texts st) /\ total_bytes st = total_len (walk_texts st) /\ total_bytes st < bound /\
  (primary_text st = None -> alternates st = []).

Section bodies.
Context `{UnicodeLib, DomainLib} (debug_str : rstr -> rstr)
  (registrable : rstr -> option rstr) (parse_document : rstr -> list node) (ammonia_clean : rstr -> rstr)
  (mail_parser : list Z -> SafeParse).
Abbreviation walk := (walk_bodies registrable parse_document ammonia_clean).
Abbreviation html_part := (sanitize_html_part registrable parse_document ammonia_clean).
Abbreviation surface := (surface_alternative_html registrable parse_document ammonia_clean).
Abbreviation bodies := (extract_bodies registrable parse_document ammonia_clean).
Abbreviation parse := (parse_message_inner debug_str registrable parse_document ammonia_clean mail_parser).

Lemma walk_ok_le a b st : a <= b -> walk_ok a st -> walk_ok b st.
Proof. intros Hab (? & ? & ? & ?). unfold walk_ok. split_and!; try done. lia. Qed.

(** One more body cannot pass five mebibytes. *)
Abbreviation full := (MAX_TOTAL_BODY_BYTES + MAX_BODY_BYTES).

Lemma add_text_ok st text : walk_ok MAX_TOTAL_BODY_BYTES st -> clean MAX_BODY_BYTES text -> walk_ok full (add_text st text).
Proof.
  intros (Hc & Ht & Hb & Hn) Ht'. pose proof (proj2 Ht') as Hl.
  assert (Hs : usize_saturating_add (total_bytes st) (str_len text) = total_bytes st + str_len text).
  { unfold usize_saturating_add, MAX_TOTAL_BODY_BYTES, MAX_BODY_BYTES, u64_max in *. lia. }
  assert (Hw : walk_texts (add_text st text) = walk_texts st ++ [text]).
  { unfold walk_texts, add_text. destruct (primary_text st) eqn:Ep; cbn [primary_text alternates].
    - by rewrite app_assoc.
    - by rewrite (Hn eq_refl). }
  unfold walk_ok. rewrite Hw, total_len_app. split_and!.
  - apply Forall_app. split; [done|]. by apply Forall_singleton.
  - unfold add_text. rewrite Hs. cbn. destruct (primary_text st); cbn; lia.
  - unfold add_text. rewrite Hs. destruct (primary_text st); cbn [total_bytes]; lia.
  - unfold add_text. by destruct (primary_text st).
Qed.

Lemma set_truncated_ok b st : walk_ok b st -> walk_ok b (set_truncated st).
Proof. done. Qed.
Lemma set_html_ok b st html hrefs : walk_ok b st -> walk_ok b (set_html st html hrefs).
Proof. done. Qed.

Lemma decode_text_part_ok part raw idx st : walk_ok MAX_TOTAL_BODY_BYTES st ->
  walk_ok full (decode_text_part part raw idx st).1.
Proof.
  intros Hs. unfold decode_text_part.
  assert (H1 : 0 <= MAX_BODY_BYTES) by (apply Z.leb_le; reflexivity).
  pose proof (sanitize_clean raw (part_charset part) MAX_BODY_BYTES (text_location idx) H1) as Hc.
  destruct (MAX_BODY_BYTES <? _), (sanitize raw _ _ _) as [text ws]; cbn [fst] in *; by apply add_text_ok.
Qed.

(** The HTML part never fails the message. *)
Lemma html_part_ok part raw st : walk_ok MAX_TOTAL_BODY_BYTES st ->
  exists st' ws, html_part part raw st = Ok (st', ws) /\ walk_ok full st'.
Proof.
  intros Hs. unfold sanitize_html_part.
  destruct (html_sanitize_cases registrable url_links parse_document ammonia_clean raw (part_charset part)) as [[_ ->]|(_ & r & -> & Hc)].
  - eexists _, _. split; [done|]. apply set_truncated_ok. eapply walk_ok_le; [|done]. apply Z.leb_le. reflexivity.
  - eexists _, _. split; [done|]. by apply set_html_ok, add_text_ok.
Qed.

Lemma visit_body_ok m primary idx part_id st : walk_ok MAX_TOTAL_BODY_BYTES st ->
  visit_body registrable parse_document ammonia_clean m primary idx part_id st = Ok None \/
  exists st' ws, visit_body registrable parse_document ammonia_clean m primary idx part_id st = Ok (Some (st', ws)) /\ walk_ok full st'.
Proof.
  intros Hs. unfold visit_body. destruct (m_parts m !! part_id) as [part|]; [|by left].
  destruct (part_body part) as [s|s| | | |]; try (by left).
  - right. pose proof (decode_text_part_ok part (str_bytes s) idx st Hs) as Hd.
    destruct (decode_text_part part (str_bytes s) idx st) as [st' ws]. by eexists _, _.
  - case_bool_decide; [right|by left]. destruct (html_part_ok part (str_bytes s) st Hs) as (st' & ws & -> & Hd).
    by eexists _, _.
Qed.

Lemma walk_bodies_ok m primary ids : forall idx st, walk_ok MAX_TOTAL_BODY_BYTES st ->
  exists st' ws, walk m primary idx ids st = Ok (st', ws) /\ walk_ok full st'.
Proof.
  induction ids as [|part_id ids IH]; intros idx st Hs; cbn [walk_bodies].
  - eexists _, _. split; [done|]. eapply walk_ok_le; [|done]. apply Z.leb_le. reflexivity.
  - destruct (visit_body_ok m primary idx part_id st Hs) as [->|(st' & ws & -> & Hd)]; cbn.
    + by apply IH.
    + destruct (Z.leb_spec MAX_TOTAL_BODY_BYTES (total_bytes st')) as [Hl|Hl].
      * eexists _, _. split; [done|]. by apply set_truncated_ok.
      * destruct (IH (S idx) st') as (st'' & ws' & -> & Hd'). { destruct Hd as (? & ? & _ & ?). done. }
        by eexists _, _.
Qed.

Lemma surface_ok m primary st : walk_ok full st -> exists st' ws, surface m primary st = Ok (st', ws) /\ walk_ok full st'.
Proof.
  intros Hs. unfold surface_alternative_html. destruct primary as [part_id|]; [|by eexists _, _].
  destruct (_ || _); [by eexists _, _|]. destruct (Z.leb_spec MAX_TOTAL_BODY_BYTES (total_bytes st)); [by eexists _, _|].
  destruct (m_parts m !! part_id) as [part|]; [|by eexists _, _].
  destruct (part_body part); try by eexists _, _. apply html_part_ok. destruct Hs as (? & ? & _ & ?). done.
Qed.

Definition body_texts (b : BodyExtraction) : list rstr := be_primary b :: be_alternates b.

(** Within the limits on parts and depth, the bodies are extracted. *)
Lemma extract_bodies_spec m :
  (MAX_MIME_PARTS < Z.of_nat (length (m_parts m)) /\ bodies m = Err (LimitExceeded (lit "mime_parts") MAX_MIME_PARTS)) \/
  (Z.of_nat (length (m_parts m)) <= MAX_MIME_PARTS /\ (exists n, shows m 0 1 n /\ (MAX_MIME_DEPTH < n)%nat) /\
     bodies m = Err (LimitExceeded (lit "mime_depth") (Z.of_nat MAX_MIME_DEPTH))) \/
  (Z.of_nat (length (m_parts m)) <= MAX_MIME_PARTS /\ shallow m /\
     exists b ws, bodies m = Ok (b, ws) /\ Forall (clean MAX_BODY_BYTES) (body_texts b) /\ total_len (body_texts b) < full).
Proof.
  unfold extract_bodies. destruct (Z.ltb_spec MAX_MIME_PARTS (Z.of_nat (length (m_parts m)))) as [Hp|Hp]; [by left|right].
  destruct (check_mime_depth_spec m) as [[Hd ->]|[Hd ->]]; [right|by left]. cbn [mbind result_bind]. split; [done|]. split; [done|].
  assert (Hz : walk_ok MAX_TOTAL_BODY_BYTES (mkWalk None [] None [] false 0)).
  { unfold walk_ok. cbn. split; [constructor|]. split; [done|]. split; [apply Z.ltb_lt; reflexivity|done]. }
  destruct (walk_bodies_ok m (head (m_html_body m)) (m_text_body m) 0 _ Hz) as (st & ws & -> & Hs). cbn [mbind result_bind].
  destruct (surface_ok m (head (m_html_body m)) st Hs) as (st' & ws' & -> & (Hc & Ht & Hb & Hn)). cbn [mbind result_bind].
  eexists _, _. split; [done|]. unfold body_texts. cbn [be_primary be_alternates]. unfold walk_texts in *.
  rewrite Ht in Hb. destruct (primary_text st') as [t|]; cbn [default option_list from_option app] in *.
  - by split.
  - rewrite (Hn eq_refl) in *. split; [|apply Z.ltb_lt; reflexivity]. apply Forall_singleton. split; [constructor|]. apply Z.leb_le. reflexivity.
Qed.

(** ** The properties *)

Definition scrubbed (raw : list Z) : list Z := (scrub_header_smuggling raw).1.
Definition within_limits (m : Message) : Prop :=
  Z.of_nat (length (m_headers m)) <= MAX_HEADER_COUNT /\ Z.of_nat (length (m_parts m)) <= MAX_MIME_PARTS /\ shallow m.

(** A message is parsed exactly when it is not too large, the MIME parser
    accepts its scrubbed bytes and its headers, parts and nesting keep to their
    limits; no HTML body, however large, fails it; and every error says which
    of these is the reason. *)
Theorem parse_outcome raw wanted :
  match parse raw wanted with
  | Ok _ => Z.of_nat (length raw) <= MAX_MESSAGE_BYTES /\ exists m, mail_parser (scrubbed raw) = Parsed m /\ within_limits m
  | Err ParserPanic => mail_parser (scrubbed raw) = Panicked
  | Err (Malformed _) => mail_parser (scrubbed raw) = Rejected
  | Err (LimitExceeded kind limit) =>
      (kind = lit "message_bytes" /\ limit = 26214400 /\ limit < Z.of_nat (length raw)) \/
      exists m, mail_parser (scrubbed raw) = Parsed m /\
        ((kind = lit "header_count" /\ limit = 256 /\ limit < Z.of_nat (length (m_headers m))) \/
         (kind = lit "mime_parts" /\ limit = 100 /\ limit < Z.of_nat (length (m_parts m))) \/
         (kind = lit "mime_depth" /\ limit = 8 /\ exists n, shows m 0 1 n /\ limit < Z.of_nat n))
  end.
Proof.
  unfold parse_message_inner. destruct (Z.ltb_spec MAX_MESSAGE_BYTES (Z.of_nat (length raw))) as [Hl|Hl]; [by left|].
  unfold scrubbed. destruct (scrub_header_smuggling raw) as [sc w1]. cbn [fst].
  destruct (mail_parser sc) as [m| |] eqn:Em; [|done|done].
  unfold enforce_header_count. destruct (Z.ltb_spec MAX_HEADER_COUNT (Z.of_nat (length (m_headers m)))) as [Hh|Hh]; cbn [mbind result_bind].
  { right. exists m. split; [done|]. by left. }
  destruct (extract_meta _ _ _ _) as [meta w2].
  destruct (extract_bodies_spec m) as [[Hp ->]|[(Hp & Hd & ->)|(Hp & Hd & b & ws & -> & _)]].
  - right. exists m. split; [done|]. right; by left.
  - right. exists m. split; [done|]. right; right. split; [done|]. split; [done|].
    destruct Hd as (n & Hn & Hg). exists n. split; [done|]. by apply Nat2Z.inj_lt.
  - cbn [mbind result_bind]. destruct (match wanted with [] => _ | _ => _ end) as [sel w5]. split; [done|]. by exists m.
Qed.

Lemma parse_content_clean raw wanted content selected
  (Husize : forall bytes m, mail_parser bytes = Parsed m -> Z.of_nat (length (m_attachments m)) <= u64_max) :
  parse raw wanted = Ok (content, selected) ->
  let texts := body_text (untrusted content) :: alternate_parts (untrusted content) in
  Forall (clean MAX_BODY_BYTES) texts /\ total_len texts < 5 * 1024 * 1024 /\
  Forall (clean MAX_HEADER_BYTES) (meta_texts (meta content) ++ concat (map sh_values selected)) /\
  original_size_bytes (meta content) = Z.of_nat (length raw).
Proof.
  unfold parse_message_inner. destruct (MAX_MESSAGE_BYTES <? _); [done|].
  destruct (scrub_header_smuggling raw) as [sc w1]. destruct (mail_parser sc) as [m| |] eqn:Em; [|done|done].
  unfold enforce_header_count. destruct (MAX_HEADER_COUNT <? _); [done|]. cbn [mbind result_bind].
  pose proof (meta_clean debug_str domain_to_ascii m (Z.of_nat (length raw)) (Husize _ _ Em)) as Hm.
  assert (Hsize : original_size_bytes (extract_meta debug_str domain_to_ascii m (Z.of_nat (length raw))).1 = Z.of_nat (length raw)).
  { unfold extract_meta. by rewrite !w_bind_fst, w_ret_fst. }
  destruct (extract_meta _ _ _ _) as [meta w2]. cbn [fst] in Hm, Hsize.
  destruct (extract_bodies_spec m) as [[_ ->]|[(_ & _ & ->)|(_ & _ & b & ws & -> & Hc & Ht)]]; [done|done|].
  cbn [mbind result_bind]. intros Hok.
  assert (Hsel : Forall (clean MAX_HEADER_BYTES) (concat (map sh_values selected)) /\
    content = mkContent (set_body_truncated meta (be_truncated b)) (mkUntrusted (be_primary b) (be_html b) (be_alternates b)) (security_warnings content)).
  { destruct wanted as [|w wanted].
    - injection Hok as <- <-. split; [apply List.Forall_nil|done].
    - pose proof (all_selected_clean debug_str domain_to_ascii m sc (w :: wanted)) as Hs.
      destruct (extract_selected_headers _ _ _ _) as [sel w5]. injection Hok as <- <-. by split. }
  destruct Hsel as [Hsel ->]. cbn. split; [exact Hc|]. split; [exact Ht|]. split; [|exact Hsize].
  apply Forall_app. split; [exact Hm|exact Hsel].
Qed.

(** C38: The texts of a parsed message are sanitised and bounded. The body text
    and the alternate parts keep to one mebibyte each and together stay below
    five; the strings taken from the message for its metadata (from, to, cc,
    reply_to, subject, message_id, in_reply_to, references, the list fields,
    and the name, type and id of each attachment) and the values of the
    requested headers keep to 8 KiB each; and none of these holds a character
    the sanitiser strips, listed code point by code point in [harmless]; and
    the size reported is the message's. Assumed: no message has 2^64 or more
    attachments (they are numbered by machine words). Not covered, because the code does not
    sanitise them so: body_html, which is the HTML cleaner's output, and the
    details of the warnings; nor the names of the requested headers, which are
    the caller's. *)
Theorem parsed_content_bounded raw wanted content selected
  (Husize : forall bytes m, mail_parser bytes = Parsed m -> Z.of_nat (length (m_attachments m)) <= u64_max) :
  parse raw wanted = Ok (content, selected) ->
  let texts := body_text (untrusted content) :: alternate_parts (untrusted content) in
  Forall (clean MAX_BODY_BYTES) texts /\ total_len texts < 5 * 1024 * 1024 /\
  Forall (clean MAX_HEADER_BYTES) (meta_texts (meta content) ++ concat (map sh_values selected)) /\
  original_size_bytes (meta content) = Z.of_nat (length raw).
Proof. exact (parse_content_clean raw wanted content selected Husize). Qed.
End bodies.

(** ** A message *)

(** Latin-1 labels are honoured, everything else is UTF-8; clusters are characters. *)
#[local] Instance latin_unicode : UnicodeLib.
Proof.
  refine {| decode := fun bytes label => if bool_decide (label = Some (lit "iso-8859-1")) then bytes else utf8_decode bytes;
            normalize_nfkc := fun s => s; graphemes := map (fun c => [c]) |}.
  - induction s; cbn; congruence.
  - intros s. apply Forall_forall. by intros g (c & -> & _)%list_elem_of_fmap.
  - done.
Defined.

#[local] Instance latin_domains : DomainLib := {|
  script := fun c => if between 97 122 c then Latin else if between 0x430 0x44F c then OtherScript 0 else Common;
  domain_to_ascii := Some; domain_to_unicode := fun s => s; url_links := fun _ => []; confusables := fun _ => None |}.

Definition text_part (charset : option rstr) (s : rstr) : MessagePart :=
  mkPart (Some (lit "text", Some (lit "plain"))) charset None None None (BText s) (Z.of_nat (length s)).
Definition sample_headers : list Header := [mkHeader (lit "Subject") (HText (lit "hi" ++ [0x202E])) 0 0].
(** A sender whose domain mixes Latin and Cyrillic, a text with a zero-width space, and an HTML alternative. *)
Definition sample_message : Message :=
  mkMessage (Some (mkAddress (Some (mkAddr None (Some (lit "a@b" ++ [0x430] ++ lit ".com"))))
                     [mkAddr None (Some (lit "a@b" ++ [0x430] ++ lit ".com"))])) None None None
    (Some (lit "hi" ++ [0x202E])) None None HEmpty HEmpty HEmpty HEmpty HEmpty sample_headers []
    [mkPart None None None None None (BMultipart [1%nat; 2%nat]) 0;
     text_part None (lit "hel" ++ [0x200B] ++ lit "lo");
     mkPart None None None None None (BHtml (lit "<p>hello</p>")) 12]
    [1%nat] [2%nat].

Definition sample_document (s : rstr) : list node := page [Elem (lit "p") [] [TextNode (lit "hello")]].
Abbreviation parse_sample := (parse_message_inner plain_debug (fun _ => None) sample_document (fun s => s) (fun _ => Parsed sample_message)).
Definition sample_result : Content * list SelectedHeader :=
  match parse_sample (lit "raw") [lit "subject"] with
  | Ok r => r
  | Err _ => (mkContent (mkContentMeta None [] [] None None None None None [] None [] 0 false) (mkUntrusted [] None []) [], [])
  end.

Lemma parsed_content_bounded_witness :
  map code (security_warnings (fst sample_result)) =
    [UnicodeBidiOverrideStripped; UnicodeZeroWidthStripped; LookalikeMixedScript; UnicodeBidiOverrideStripped] /\
  body_text (untrusted (fst sample_result)) = lit "hello" /\ alternate_parts (untrusted (fst sample_result)) = [lit "hello"] /\
  snd sample_result = [mkSelectedHeader (lit "subject") [lit "hi"]] /\
  original_size_bytes (meta (fst sample_result)) = 3.
Proof.
  assert (Hr : parse_sample (lit "raw") [lit "subject"] = Ok (fst sample_result, snd sample_result)) by (vm_compute; reflexivity).
  assert (Hu : forall bytes m, (fun _ : list Z => Parsed sample_message) bytes = Parsed m ->
    Z.of_nat (length (m_attachments m)) <= u64_max) by (intros ? m [= <-]; apply Z.leb_le; reflexivity).
  destruct (parsed_content_bounded plain_debug (fun _ => None) sample_document (fun s => s) _ _ _ _ _ Hu Hr) as (_ & _ & _ & Hs).
  repeat (split; [vm_compute; reflexivity|]). exact Hs.
Defined.

(** The parser hands over decoded text; decoding its bytes once more by the part's
    charset turns one letter into two. *)
Example decoded_twice :
  let part := text_part (Some (lit "iso-8859-1")) [0xE9] in
  primary_text (decode_text_part part (str_bytes [0xE9]) 0 (mkWalk None [] None [] false 0)).1 = Some [0xC3; 0xA9].
Proof. vm_compute. reflexivity. Qed.

(** One oversize text part keeps the HTML alternative, its checks included, from being looked at. *)
Lemma oversize_text_hides_html {U : UnicodeLib} {D : DomainLib} registrable parse_document ammonia_clean m primary part raw idx st :
  MAX_BODY_BYTES < Z.of_nat (length raw) ->
  let st' := (decode_text_part part raw idx st).1 in
  surface_alternative_html registrable parse_document ammonia_clean m primary st' = Ok (st', []).
Proof.
  intros Hl. unfold decode_text_part. destruct (Z.ltb_spec MAX_BODY_BYTES (Z.of_nat (length raw))); [|lia].
  destruct (sanitize raw _ _ _) as [text ws]. cbn [fst]. unfold surface_alternative_html. destruct primary; [|done].
  assert (Ht : bw_truncated (add_text (set_truncated st) text) = true) by (unfold add_text; by destruct (primary_text _)).
  by rewrite Ht, orb_true_r.
Qed.
