(* ===== verification/Runner.v ===== *)
(** * The corpus runner
    (crates/rimap-content/src/bin/epvme_runner.rs)

    A tool beside the server: it parses every sample of a directory of mail,
    one after the other, and reports how many could be read and parsed. *)

From Stdlib Require Import ZArith Lia.
From stdpp Require Import base option list numbers strings gmap sorting.
From S2P Require Import Prelude RustStr Tools Errors Content Sandbox Html.
Local Open Scope Z_scope.

(** ** Arguments *)

(* [crates/rimap-content/src/bin/epvme_runner.rs:24-47] RunnerError *)
Inductive RunnerError :=
  | UsageMessage (text : rstr)
  | Argument (text : rstr)
  | NoEmlFilesFound (root : rstr)
  | Filesystem (operation path source : rstr)
  | JsonSerialize (path source : rstr)
  | RunnerIo (what source : rstr).

(* [crates/rimap-content/src/bin/epvme_runner.rs:51-56] Args *)
Record Args := mkArgs { dataset_root : rstr; limit : option Z; json_out : option rstr }.

(** An [OsString]: UTF-8 text, or not, with its lossy text. *)
Inductive os_arg := Text (s : rstr) | Lossy (s : rstr).
Definition lossy (a : os_arg) : rstr := match a with Text s | Lossy s => s end.

(** [str::parse::<usize>]: an optional plus sign and digits. *)
Definition parse_usize (s : rstr) : option Z :=
  let ds := match s with 43 :: s' => s' | _ => s end in
  if bool_decide (ds = []) || negb (forallb is_ascii_digit ds) then None
  else let n := parse_digits ds in if n <=? u64_max then Some n else None.

(* [crates/rimap-content/src/bin/epvme_runner.rs:179-184] usage *)
Definition usage : rstr := lit "usage: epvme_runner <dataset-root> [--limit N] [--json-out PATH]".

(* [crates/rimap-content/src/bin/epvme_runner.rs:125-166] parse_args *)
Fixpoint parse_arg_loop (args : list os_arg) (root : option rstr) (lim : option Z) (out : option rstr)
    : result RunnerError (option rstr * option Z * option rstr) :=
  match args with
  | [] => Ok (root, lim, out)
  | arg :: rest =>
      match arg with
      | Text flag =>
          if str_eqb flag (lit "--help") || str_eqb flag (lit "-h") then Err (UsageMessage usage)
          else if str_eqb flag (lit "--limit") then
            match rest with
            | [] => Err (Argument (lit "--limit requires a value"))
            | Lossy _ :: _ => Err (Argument (lit "--limit must be valid UTF-8"))
            | Text value :: rest =>
                match parse_usize value with
                | None => Err (Argument (lit "--limit must be a non-negative integer"))
                | Some n => parse_arg_loop rest root (Some n) out
                end
            end
          else if str_eqb flag (lit "--json-out") then
            match rest with
            | [] => Err (Argument (lit "--json-out requires a path"))
            | value :: rest => parse_arg_loop rest root lim (Some (lossy value))
            end
          else if starts_with (lit "-") flag then
            Err (Argument (lit "unknown flag: " ++ flag ++ [10; 10] ++ usage))
          else match root with
               | Some _ => Err (Argument (lit "unexpected extra positional argument: " ++ flag))
               | None => parse_arg_loop rest (Some flag) lim out
               end
      | Lossy path =>
          match root with
          | Some _ => Err (Argument (lit "unexpected extra positional argument: " ++ path))
          | None => parse_arg_loop rest (Some path) lim out
          end
      end
  end.

(** The program's own name is skipped. *)
(* [crates/rimap-content/src/bin/epvme_runner.rs:117-177] parse_args *)
Definition parse_args (argv : list os_arg) : result RunnerError Args :=
  '(root, lim, out) ← parse_arg_loop (tail argv) None None None;
  match root with
  | None => Err (Argument usage)
  | Some root => Ok (mkArgs root lim out)
  end.

(** ** The samples *)

(** A directory as [read_dir] gives it: it may not be readable, and neither may
    an entry or its type. *)
Inductive dir := Unreadable (source : rstr) | Listing (entries : list dir_entry)
with dir_entry :=
  | BadEntry (source : rstr)
  | BadType (path source : rstr)
  | SubDir (path : rstr) (d : dir)
  | PlainFile (path : rstr)
  | OtherEntry (path : rstr).

(* [crates/rimap-content/src/bin/epvme_runner.rs:236-240] is_eml_path *)
Definition is_eml_path (path : rstr) : bool :=
  match path_extension path with Some ext => eq_ignore_ascii_case ext (lit "eml") | None => false end.

(* [crates/rimap-content/src/bin/epvme_runner.rs:206-234] walk_eml_files *)
Fixpoint walk_eml_files (root : rstr) (d : dir) : result RunnerError (list rstr) :=
  match d with
  | Unreadable source => Err (Filesystem (lit "read directory") root source)
  | Listing entries =>
      (fix each (es : list dir_entry) : result RunnerError (list rstr) :=
         match es with
         | [] => Ok []
         | e :: es' => found ← walk_entry root e; rest ← each es'; Ok (found ++ rest)
         end) entries
  end
with walk_entry (root : rstr) (e : dir_entry) : result RunnerError (list rstr) :=
  match e with
  | BadEntry source => Err (Filesystem (lit "read directory entry") root source)
  | BadType path source => Err (Filesystem (lit "read file type") path source)
  | SubDir path d => walk_eml_files path d
  | PlainFile path => Ok (if is_eml_path path then [path] else [])
  | OtherEntry _ => Ok []
  end.

(** Paths compare by their components: repeated separators, and [.] after the
    first component, do not count. *)
Definition component_rank (c : component) : Z :=
  match c with RootDir => 0 | CurDir => 1 | ParentDir => 2 | Normal _ => 3 end.
Definition component_cmp (a b : component) : comparison :=
  match a, b with
  | Normal s, Normal t => if str_eqb s t then Eq else if str_leb s t then Lt else Gt
  | _, _ => component_rank a ?= component_rank b
  end.
Fixpoint components_leb (a b : list component) : bool :=
  match a, b with
  | [], _ => true
  | _ :: _, [] => false
  | x :: a, y :: b => match component_cmp x y with Lt => true | Gt => false | Eq => components_leb a b end
  end.
Definition path_le (a b : rstr) : Prop := components_leb (components a) (components b) = true.
#[export] Instance path_le_dec : RelDecision path_le.
Proof. intros a b. unfold path_le. apply _. Defined.

(** What the root path names. *)
Inductive root_kind := NoRoot | NotADirectory | Directory (d : dir).

(* [crates/rimap-content/src/bin/epvme_runner.rs:186-204] collect_eml_files *)
Definition collect_eml_files (root : rstr) (k : root_kind) : result RunnerError (list rstr) :=
  match k with
  | NoRoot => Err (Argument (lit "dataset root does not exist: " ++ root))
  | NotADirectory => Err (Argument (lit "dataset root is not a directory: " ++ root))
  | Directory d => files ← walk_eml_files root d; Ok (merge_sort path_le files)
  end.

(** ** The run *)

(* [crates/rimap-content/src/bin/epvme_runner.rs:22-22] MAX_RECORDED_FAILURES *)
Definition MAX_RECORDED_FAILURES : nat := 50.

(* [crates/rimap-content/src/bin/epvme_runner.rs:73-78] FailureRecord *)
Record FailureRecord := mkFailure { fr_path : rstr; fr_kind : rstr; fr_detail : rstr }.

(** The root and the limit, which the summary repeats, stay in [Args]. *)
(* [crates/rimap-content/src/bin/epvme_runner.rs:58-71] RunSummary *)
Record RunSummary := mkSummary {
  discovered_files : nat; processed_files : nat; ok_count : nat; panic_count : nat; read_failure_count : nat;
  parse_error_count : nat; warning_counts : gmap rstr nat; parse_error_counts : gmap rstr nat;
  recorded_failures : list FailureRecord }.

(* [crates/rimap-content/src/bin/epvme_runner.rs:80-85] SampleOutcome *)
Inductive SampleOutcome := SampleOk (c : Content) | SampleParseError (e : ContentError) | SamplePanic (message : rstr).

(** What the parser does on a sample: it returns, or panics with a payload. *)
Inductive payload := StringPayload (s : rstr) | OtherPayload.
Inductive parsed := ParserReturns (r : result ContentError Content) | ParserPanics (p : payload).

(* [crates/rimap-content/src/bin/epvme_runner.rs:334-347] panic_message *)
Definition panic_message (p : payload) : rstr :=
  match p with StringPayload s => s | OtherPayload => lit "panic payload was not a string" end.

(* [crates/rimap-content/src/bin/epvme_runner.rs:323-332] parse_one *)
Definition parse_one (r : parsed) : SampleOutcome :=
  match r with
  | ParserReturns (Ok content) => SampleOk content
  | ParserReturns (Err err) => SampleParseError err
  | ParserPanics p => SamplePanic (panic_message p)
  end.

(* [crates/rimap-content/src/test_support.rs:39-67] warning_code_label *)
Definition warning_code_label (code : WarningCode) : option rstr :=
  match code with
  | UnicodeZeroWidthStripped => Some (lit "unicode_zero_width_stripped")
  | UnicodeBidiOverrideStripped => Some (lit "unicode_bidi_override_stripped")
  | UnicodeC0C1Stripped => Some (lit "unicode_c0_c1_stripped")
  | ParseHeaderSmugglingBlocked => Some (lit "parse_header_smuggling_blocked")
  | ParseMimeTypeMismatch => Some (lit "parse_mime_type_mismatch")
  | ParseBodystructureTypeMismatch => Some (lit "parse_bodystructure_type_mismatch")
  | ParseAttachmentPolyglot => Some (lit "parse_attachment_polyglot")
  | ParseBodyTruncated => Some (lit "parse_body_truncated")
  | ParseMimeDepthExceeded => Some (lit "parse_mime_depth_exceeded")
  | ParseMimePartCountExceeded => Some (lit "parse_mime_part_count_exceeded")
  | ParseHeaderCountExceeded => Some (lit "parse_header_count_exceeded")
  | ParseAttachmentFilenameRewritten => Some (lit "parse_attachment_filename_rewritten")
  | HtmlHiddenContentDetected => Some (lit "html_hidden_content_detected")
  | HtmlLinkTextHrefMismatch => Some (lit "html_link_text_href_mismatch")
  | HtmlScriptStripped => Some (lit "html_script_stripped")
  | HtmlStyleStripped => Some (lit "html_style_stripped")
  | HtmlRemoteImageStripped => Some (lit "html_remote_image_stripped")
  | HtmlAnchorUnparsableHref => Some (lit "html_anchor_unparsable_href")
  | LookalikeMixedScript => Some (lit "lookalike_mixed_script")
  | LookalikeHomographDomain => Some (lit "lookalike_homograph_domain")
  | LookalikeIdnPunycode => Some (lit "lookalike_idn_punycode")
  | LookalikeFilenameExtensionSpoof => Some (lit "lookalike_filename_extension_spoof")
  | ServerNonAtomicMoveFallback => Some (lit "server_non_atomic_move_fallback")
  | _ => None
  end.

(* [crates/rimap-content/src/test_support.rs:77-85] error_kind_label *)
Definition error_kind_label (err : ContentError) : option rstr :=
  match err with
  | Malformed _ => Some (lit "Malformed")
  | LimitExceeded _ _ => Some (lit "LimitExceeded")
  | ParserPanic => Some (lit "ParserPanic")
  end.

(* [crates/rimap-content/src/error.rs:12-40] ContentError *)
Definition content_error_text (err : ContentError) : rstr :=
  match err with
  | Malformed reason => lit "malformed message: " ++ reason
  | LimitExceeded kind limit => lit "content limit exceeded: " ++ kind ++ lit " (limit=" ++ to_decimal limit ++ lit ")"
  | ParserPanic => lit "third-party MIME parser panicked on input"
  end.

(* [crates/rimap-content/src/bin/epvme_runner.rs:349-355] unknown_warning_code_label *)
Definition unknown_warning_code_label (code : WarningCode) : rstr :=
  match severity code with
  | Informational => lit "unknown_informational_warning"
  | Adversarial => lit "unknown_adversarial_warning"
  end.

(** [*counts.entry(label).or_insert(0) += 1] *)
Definition count (label : rstr) (m : gmap rstr nat) : gmap rstr nat := <[label := S (default 0%nat (m !! label))]> m.

(* [crates/rimap-content/src/bin/epvme_runner.rs:357-366] record_failure *)
Definition record_failure (fs : list FailureRecord) (path kind detail : rstr) : list FailureRecord :=
  if (MAX_RECORDED_FAILURES <=? length fs)%nat then fs else fs ++ [mkFailure path kind detail].

Definition warning_label (w : SecurityWarning) : rstr :=
  default (unknown_warning_code_label (code w)) (warning_code_label (code w)).

(** One sample: its bytes could not be read, or the parser was run on them. *)
Definition sample := (rstr * result rstr parsed)%type.

(* [crates/rimap-content/src/bin/epvme_runner.rs:269-318] run_dataset *)
Definition run_sample (s : RunSummary) (x : sample) : RunSummary :=
  let '(path, read) := x in
  let 'mkSummary d p ok panics reads errors ws es fs := s in
  match read with
  | Err err => mkSummary d (S p) ok panics (S reads) errors ws es
      (record_failure fs path (lit "read_error") (lit "read " ++ path ++ lit ": " ++ err))
  | Ok raw =>
      match parse_one raw with
      | SampleOk content => mkSummary d (S p) (S ok) panics reads errors
          (fold_left (fun m w => count (warning_label w) m) (security_warnings content) ws) es fs
      | SampleParseError err =>
          let label := default (lit "Unknown") (error_kind_label err) in
          mkSummary d (S p) ok panics reads (S errors) ws (count label es) (record_failure fs path label (content_error_text err))
      | SamplePanic message => mkSummary d (S p) ok (S panics) reads errors ws es (record_failure fs path (lit "panic") message)
      end
  end.

(* [crates/rimap-content/src/bin/epvme_runner.rs:242-321] run_dataset *)
Definition run_dataset (files : list rstr) (lim : option Z) (read : rstr -> result rstr parsed) : RunSummary :=
  let take_count := match lim with Some n => Z.to_nat n | None => length files end in
  fold_left run_sample (map (fun path => (path, read path)) (take take_count files))
    (mkSummary (length files) 0 0 0 0 0 ∅ ∅ []).

(* [crates/rimap-content/src/bin/epvme_runner.rs:442-444] is_success *)
Definition is_success (s : RunSummary) : bool :=
  (parse_error_count s =? 0)%nat && (read_failure_count s =? 0)%nat && (panic_count s =? 0)%nat.

(** The entries of a map from labels, in the order of the labels. *)
Definition entry_le (a b : rstr * nat) : Prop := str_leb a.1 b.1 = true.
#[export] Instance entry_le_dec : RelDecision entry_le.
Proof. intros a b. unfold entry_le. apply _. Defined.
Definition counted (m : gmap rstr nat) : list (rstr * nat) := merge_sort entry_le (map_to_list m).

Definition nat_text (n : nat) : rstr := to_decimal (Z.of_nat n).
Definition count_line (e : rstr * nat) : rstr := lit "  " ++ e.1 ++ lit ": " ++ nat_text e.2.
Definition section (title : rstr) (rows : list rstr) : list rstr := match rows with [] => [] | _ => title :: rows end.

(* [crates/rimap-content/src/bin/epvme_runner.rs:360-418] print_summary *)
Definition summary_lines (args : Args) (s : RunSummary) : list rstr :=
  [lit "EPVME dataset root: " ++ dataset_root args;
   lit "Discovered .eml files: " ++ nat_text (discovered_files s);
   lit "Processed files: " ++ nat_text (processed_files s)] ++
  match limit args with Some n => [lit "Limit: " ++ to_decimal n] | None => [] end ++
  [lit "Parsed successfully: " ++ nat_text (ok_count s);
   lit "Parse errors: " ++ nat_text (parse_error_count s);
   lit "Read failures: " ++ nat_text (read_failure_count s);
   lit "Panics: " ++ nat_text (panic_count s)] ++
  section (lit "Parse error kinds:") (map count_line (counted (parse_error_counts s))) ++
  section (lit "Warning counts:") (map count_line (counted (warning_counts s))) ++
  section (lit "Recorded failures (showing up to 50):")
    (map (fun f => lit "  " ++ fr_path f ++ lit " [" ++ fr_kind f ++ lit "] " ++ fr_detail f) (recorded_failures s)).

Section run.
(** The samples on disk, the parser, standard output, and the file system and
    serializer that the report is written with.  A line may fail after others. *)
Context (fs : rstr -> root_kind) (read : rstr -> result rstr parsed) (stdout : list rstr -> rstr -> result rstr unit).
Context (create_dir_all : rstr -> result rstr unit).
Context (to_vec_pretty : Args -> RunSummary -> result rstr (list Z)) (fs_write : rstr -> list Z -> result rstr unit).

Fixpoint write_lines (written rest : list rstr) : result rstr unit :=
  match rest with
  | [] => Ok tt
  | line :: rest => _ ← stdout written line; write_lines (written ++ [line]) rest
  end.

(* [crates/rimap-content/src/bin/epvme_runner.rs:360-418] print_summary *)
Definition print_summary (args : Args) (s : RunSummary) : result rstr unit := write_lines [] (summary_lines args s).

(* [crates/rimap-content/src/bin/epvme_runner.rs:420-440] write_json_report *)
Definition write_json_report (path : rstr) (args : Args) (s : RunSummary) : result RunnerError unit :=
  _ ← match path_parent path with
      | Some parent =>
          if bool_decide (parent = []) then Ok tt
          else map_err (Filesystem (lit "create JSON report directory") parent) (create_dir_all parent)
      | None => Ok tt
      end;
  json ← map_err (JsonSerialize path) (to_vec_pretty args s);
  map_err (Filesystem (lit "write JSON report") path) (fs_write path json).

(* [crates/rimap-content/src/bin/epvme_runner.rs:101-123] run *)
Definition run (argv : list os_arg) : result RunnerError Z :=
  args ← parse_args argv;
  files ← collect_eml_files (dataset_root args) (fs (dataset_root args));
  match files with
  | [] => Err (NoEmlFilesFound (dataset_root args))
  | _ =>
      let summary := run_dataset files (limit args) read in
      _ ← map_err (RunnerIo (lit "stdout")) (print_summary args summary);
      _ ← match json_out args with Some out => write_json_report out args summary | None => Ok tt end;
      Ok (if is_success summary then 0 else 1)
  end.
End run.

(** What [main] exits with. *)
(* [crates/rimap-content/src/bin/epvme_runner.rs:87-99] main *)
Definition exit_code (r : result RunnerError Z) : Z :=
  match r with Ok code => code | Err (UsageMessage _) => 0 | Err _ => 2 end.

(** ** What the runner promises *)

(** A plain file somewhere below a directory, whose name ends in [.eml]. *)
Inductive below : rstr -> dir -> Prop :=
  | below_here path es : PlainFile path ∈ es -> below path (Listing es)
  | below_sub path sub d es : SubDir sub d ∈ es -> below path d -> below path (Listing es).

Definition walk_entries (root : rstr) : list dir_entry -> result RunnerError (list rstr) :=
  fix each (es : list dir_entry) :=
    match es with
    | [] => Ok []
    | e :: es' => found ← walk_entry root e; rest ← each es'; Ok (found ++ rest)
    end.

Lemma walk_listing root es : walk_eml_files root (Listing es) = walk_entries root es.
Proof. reflexivity. Qed.

(** Induction over a tree of directories. *)
Section dir_ind.
Context (P : dir -> Prop) (Q : dir_entry -> Prop).
Hypothesis unreadable : forall source, P (Unreadable source).
Hypothesis listing : forall es, Forall Q es -> P (Listing es).
Hypothesis sub : forall path d, P d -> Q (SubDir path d).
Hypothesis leaf : forall e, (forall path d, e <> SubDir path d) -> Q e.

Fixpoint dir_forest_ind (d : dir) : P d :=
  match d with
  | Unreadable source => unreadable source
  | Listing es =>
      listing es ((fix each (es : list dir_entry) : Forall Q es :=
        match es with [] => List.Forall_nil Q | e :: es' => List.Forall_cons Q e es' (entry_ind e) (each es') end) es)
  end
with entry_ind (e : dir_entry) : Q e :=
  match e with
  | SubDir path d => sub path d (dir_forest_ind d)
  | BadEntry source => leaf (BadEntry source) ltac:(discriminate)
  | BadType path source => leaf (BadType path source) ltac:(discriminate)
  | PlainFile path => leaf (PlainFile path) ltac:(discriminate)
  | OtherEntry path => leaf (OtherEntry path) ltac:(discriminate)
  end.
End dir_ind.

(** What an entry contributes. *)
Definition contributes (p : rstr) (e : dir_entry) : Prop :=
  match e with PlainFile q => p = q | SubDir _ d => below p d | _ => False end.

Lemma below_listing p es : below p (Listing es) <-> Exists (contributes p) es.
Proof.
  rewrite Exists_exists. split.
  - inversion 1 as [q es' Hin|q sub d es' Hin Hb]; subst; [exists (PlainFile p) | exists (SubDir sub d)]; by split.
  - intros ([| |sub d|q|] & Hin & Hc); simpl in Hc; try done; subst; [by eapply below_sub | by apply below_here].
Qed.

Lemma walk_entries_find root es :
  Forall (fun e => forall root files, walk_entry root e = Ok files ->
            forall p, p ∈ files <-> contributes p e /\ is_eml_path p = true) es ->
  forall files, walk_entries root es = Ok files ->
  forall p, p ∈ files <-> Exists (contributes p) es /\ is_eml_path p = true.
Proof.
  induction 1 as [|e es He _ IH]; simpl; intros files Hf p.
  - simplify_eq. rewrite elem_of_nil, Exists_nil. tauto.
  - destruct (walk_entry root e) as [found|] eqn:E1; simplify_eq/=.
    destruct (walk_entries root es) as [rest|] eqn:E2; simplify_eq/=.
    rewrite elem_of_app, Exists_cons, (He _ _ E1 p), (IH _ eq_refl p). tauto.
Qed.

(** A walk that ends finds the samples of the tree and nothing else. *)
Lemma walk_finds d : forall root files, walk_eml_files root d = Ok files ->
  forall p, p ∈ files <-> below p d /\ is_eml_path p = true.
Proof.
  apply (dir_forest_ind
    (fun d => forall root files, walk_eml_files root d = Ok files -> forall p, p ∈ files <-> below p d /\ is_eml_path p = true)
    (fun e => forall root files, walk_entry root e = Ok files -> forall p, p ∈ files <-> contributes p e /\ is_eml_path p = true)).
  - intros source root files Hf. discriminate Hf.
  - intros es Hes root files Hf p. rewrite below_listing. by eapply walk_entries_find.
  - intros path d' IH root files Hf p. by apply (IH _ _ Hf).
  - intros [| | |q|] Hleaf root files Hf p; simplify_eq/=.
    + by edestruct Hleaf.
    + destruct (is_eml_path q) eqn:Hq; rewrite ?elem_of_nil, ?list_elem_of_singleton.
      * split; [intros ->; auto | tauto].
      * split; [done|]. intros [-> ?]. congruence.
    + rewrite elem_of_nil. tauto.
Qed.

(** The failure a sample leaves, if it leaves one. *)
Definition failure_of (x : sample) : option FailureRecord :=
  let '(path, read) := x in
  match read with
  | Err err => Some (mkFailure path (lit "read_error") (lit "read " ++ path ++ lit ": " ++ err))
  | Ok raw =>
      match parse_one raw with
      | SampleOk _ => None
      | SampleParseError err => Some (mkFailure path (default (lit "Unknown") (error_kind_label err)) (content_error_text err))
      | SamplePanic message => Some (mkFailure path (lit "panic") message)
      end
  end.

(** The counters of a summary against the samples run so far. *)
Definition accounts (s : RunSummary) (xs : list sample) : Prop :=
  processed_files s = length xs /\
  (ok_count s + panic_count s + read_failure_count s + parse_error_count s)%nat = length xs /\
  (panic_count s + read_failure_count s + parse_error_count s)%nat = length (omap failure_of xs) /\
  recorded_failures s = take MAX_RECORDED_FAILURES (omap failure_of xs).

Lemma record_failure_take fs path kind detail :
  record_failure (take MAX_RECORDED_FAILURES fs) path kind detail =
  take MAX_RECORDED_FAILURES (fs ++ [mkFailure path kind detail]).
Proof.
  unfold record_failure. rewrite length_take. destruct (Nat.leb_spec MAX_RECORDED_FAILURES (MAX_RECORDED_FAILURES `min` length fs)).
  - rewrite take_app_le by lia. done.
  - rewrite (take_ge fs) by lia. rewrite take_ge; [done|]. rewrite length_app. simpl. lia.
Qed.

Lemma run_sample_accounts s xs x : accounts s xs -> accounts (run_sample s x) (xs ++ [x]).
Proof.
  destruct s as [d p ok panics reads errors ws es fs], x as [path read].
  unfold accounts. rewrite omap_app, !length_app. simpl. intros (-> & Hsum & Hfail & ->).
  destruct read as [raw|err]; simpl; [destruct (parse_one raw) as [c|err|m]; simpl|];
    rewrite ?app_nil_r, ?record_failure_take; simpl; repeat split; lia || done.
Qed.

Lemma run_samples_accounts xs : forall s ys, accounts s ys -> accounts (fold_left run_sample xs s) (ys ++ xs).
Proof.
  induction xs as [|x xs IH]; intros s ys Hs; simpl; [by rewrite app_nil_r|].
  rewrite cons_middle, app_assoc. by apply IH, run_sample_accounts.
Qed.

Lemma discovered_kept xs : forall s, discovered_files (fold_left run_sample xs s) = discovered_files s.
Proof.
  induction xs as [|[path read] xs IH]; intros s; simpl; [done|]. rewrite IH.
  destruct s, read as [raw|]; simpl; [destruct (parse_one raw)|]; done.
Qed.

(** The samples a run looks at. *)
Definition samples_run (files : list rstr) (lim : option Z) (read : rstr -> result rstr parsed) : list sample :=
  map (fun path => (path, read path)) (take (match lim with Some n => Z.to_nat n | None => length files end) files).

Definition parsed_ok (x : sample) : Prop := exists c, x.2 = Ok (ParserReturns (Ok c)).

Lemma failure_of_None x : failure_of x = None <-> parsed_ok x.
Proof.
  destruct x as [path [[[c|e]|p]|err]]; unfold parsed_ok; simpl; (split; [|intros [c' ?]]); try done; eauto.
Qed.

Lemma run_accounts files lim read : accounts (run_dataset files lim read) (samples_run files lim read).
Proof. apply (run_samples_accounts _ _ []). by repeat split. Qed.

Lemma no_failure xs : omap failure_of xs = [] <-> Forall parsed_ok xs.
Proof.
  rewrite <- (Forall_iff (fun x => failure_of x = None)) by (intros; apply failure_of_None).
  induction xs as [|x xs IH]; simpl; [by split; constructor|].
  rewrite Forall_cons. destruct (failure_of x); [by split; [|intros []] | tauto].
Qed.

Lemma success_spec files lim read :
  is_success (run_dataset files lim read) = true <-> Forall parsed_ok (samples_run files lim read).
Proof.
  destruct (run_accounts files lim read) as (_ & _ & Hfail & _).
  rewrite <- no_failure, <- length_zero_iff_nil, <- Hfail. unfold is_success.
  rewrite !andb_true_iff, !Nat.eqb_eq. lia.
Qed.

(** A run accounts for every sample it looked at: the samples are the first
    [limit] of those found, each one is counted once, as parsed, unreadable,
    refused or panicked; the recorded failures are the first fifty, in order,
    each with the sample's own path and kind; and the run is a success exactly
    when every sample was read and parsed. *)
Theorem run_accounts_for_all files lim read :
  let s := run_dataset files lim read in
  let xs := samples_run files lim read in
  discovered_files s = length files /\
  accounts s xs /\
  length xs = (match lim with Some n => Z.to_nat n | None => length files end `min` length files)%nat /\
  (is_success s = true <-> Forall parsed_ok xs).
Proof.
  split_and!; [apply discovered_kept | apply run_accounts | | apply success_spec].
  unfold samples_run. by rewrite length_map, length_take.
Qed.

Lemma parse_arg_loop_message args : forall root lim out text,
  parse_arg_loop args root lim out = Err (UsageMessage text) -> text = usage.
Proof.
  induction args as [args IH] using (induction_ltof1 _ (@length _)). unfold ltof in IH.
  intros root lim out text. destruct args as [|[flag|path] rest]; simpl; [done| |].
  - repeat case_goal; intros Hf; simplify_eq; try done; eapply IH in Hf; simpl; done || lia.
  - destruct root; intros Hf; [done|]. eapply IH in Hf; simpl; done || lia.
Qed.

Lemma collect_message root k text : collect_eml_files root k <> Err (UsageMessage text).
Proof.
  destruct k as [| |d]; [done|done|]. simpl.
  destruct (walk_eml_files root d) as [files|err] eqn:Hw; [done|]. intros [= ->]. revert root Hw.
  apply (dir_forest_ind (fun d => forall root, walk_eml_files root d <> Err (UsageMessage text))
                        (fun e => forall root, walk_entry root e <> Err (UsageMessage text))); try done.
  - intros es Hes root. rewrite walk_listing. induction Hes as [|e es He _ IH]; simpl; [done|].
    specialize (He root). destruct (walk_entry root e); simpl; [|congruence].
    destruct (walk_entries root es); simpl; congruence.
  - intros path d' IH root. apply IH.
  - intros [| | | |] Hleaf root; try done. by edestruct Hleaf.
Qed.

Lemma report_message create_dir_all to_vec_pretty fs_write out args s text :
  write_json_report create_dir_all to_vec_pretty fs_write out args s <> Err (UsageMessage text).
Proof.
  unfold write_json_report. destruct (path_parent out) as [parent|]; simpl; [case_bool_decide; simpl|];
    try (destruct (create_dir_all parent); simpl; [|congruence]);
    (destruct (to_vec_pretty args s) as [json|]; simpl; [|congruence]); by destruct (fs_write out json).
Qed.

(** What [main] leaves with: 0 only when help was asked for, or when there was
    a sample, every sample the run looked at was read and parsed, and the
    summary was written. *)
Theorem exit_zero fs read stdout create_dir_all to_vec_pretty fs_write argv :
  exit_code (run fs read stdout create_dir_all to_vec_pretty fs_write argv) = 0 ->
  parse_args argv = Err (UsageMessage usage) \/
  exists args files,
    parse_args argv = Ok args /\
    collect_eml_files (dataset_root args) (fs (dataset_root args)) = Ok files /\ files <> [] /\
    Forall parsed_ok (samples_run files (limit args) read) /\
    print_summary stdout args (run_dataset files (limit args) read) = Ok tt.
Proof.
  unfold run. destruct (parse_args argv) as [args|err] eqn:Hargs; simpl.
  2:{ left. destruct err; try done. f_equal. f_equal. unfold parse_args in Hargs.
      destruct (parse_arg_loop (tail argv) None None None) as [[[[]?]?]|e] eqn:Hl; simplify_eq/=.
      by eapply parse_arg_loop_message. }
  destruct (collect_eml_files _ _) as [files|err] eqn:Hc; simpl.
  2:{ destruct err; try done. by apply collect_message in Hc. }
  intros Hexit. right. exists args, files. destruct files as [|f files]; [done|]. remember (f :: files) as fl.
  destruct (print_summary stdout args _) as [[]|] eqn:Hp; [|done]. simpl in Hexit.
  split_and!; [done|done|congruence| |done]. apply success_spec.
  destruct (json_out args) as [out|]; simpl in Hexit; [|by destruct (is_success _)].
  destruct (write_json_report _ _ _ out args _) as [[]|err] eqn:Hw; simpl in Hexit; [by destruct (is_success _)|].
  destruct err; try done. by apply report_message in Hw.
Qed.

(** A directory with two samples, one in a subdirectory, and a file that is
    none; the second sample is refused. *)
Definition sample_dir : dir :=
  Listing [PlainFile (lit "d/z.EML"); SubDir (lit "d/a") (Listing [PlainFile (lit "d/a/b.eml"); OtherEntry (lit "d/a/c")]);
           PlainFile (lit "d/notes.txt")].
Definition sample_read (path : rstr) : result rstr parsed :=
  if str_eqb path (lit "d/z.EML") then Ok (ParserReturns (Err (Malformed (lit "no header")))) else Err (lit "denied").

Example collect_sample :
  collect_eml_files (lit "d") (Directory sample_dir) = Ok [lit "d/a/b.eml"; lit "d/z.EML"].
Proof. vm_compute. reflexivity. Qed.
Example a_directory_sorts_before_its_sibling :
  collect_eml_files (lit "d") (Directory (Listing [PlainFile (lit "d/a.eml"); SubDir (lit "d/a") (Listing [PlainFile (lit "d/a/b.eml")])])) =
  Ok [lit "d/a/b.eml"; lit "d/a.eml"].
Proof. vm_compute. reflexivity. Qed.
Example run_sample_dir :
  let s := run_dataset [lit "d/a/b.eml"; lit "d/z.EML"] None sample_read in
  (processed_files s, read_failure_count s, parse_error_count s, is_success s, map fr_kind (recorded_failures s)) =
  (2, 1, 1, false, [lit "read_error"; lit "Malformed"])%nat.
Proof. vm_compute. reflexivity. Qed.
