(* ===== verification/HtmlOracle.v ===== *)
(** * The differential oracle of the HTML sanitiser: its comparison
    (html-oracle/src: norm.rs, diff.rs, allowlist.rs, reference.rs)

    The oracle reads a document a second time, with another tokenizer, and
    compares the words and links it finds with those the sanitiser shows.  The
    second tokenizer is the stream of events its handlers are called with. *)

From Stdlib Require Import ZArith Lia.
From stdpp Require Import base option list numbers strings gmap.
From S2P Require Import Prelude RustStr Content Unicode Html.
Local Open Scope Z_scope.

Section oracle.
Context `{UnicodeLib}.
(** [str::to_lowercase]; [Url::parse], as its scheme and host; the decoding of
    character references; TOML. *)
Context (to_lowercase : rstr -> rstr) (url_parse : rstr -> option (rstr * option rstr)) (decode_entities : rstr -> rstr).

(** ** Normalisation *)

(** [char::is_ascii_punctuation]: graphic, and neither a letter nor a digit. *)
Definition is_ascii_punctuation (c : Z) : bool := is_ascii_graphic c && negb (is_ascii_alphanumeric c).

(** [str::split] at every character of a kind. *)
Fixpoint split_where (p : Z -> bool) (s : rstr) : list rstr :=
  match s with
  | [] => [[]]
  | c :: s =>
      if p c then [] :: split_where p s
      else match split_where p s with w :: ws => (c :: w) :: ws | [] => [[c]] end
  end.

(* [html-oracle/src/norm.rs:19-20] tokenize *)
Definition noise (c : Z) : bool := is_ascii_punctuation c || (c =? 0xFFFD).

(* [html-oracle/src/norm.rs:8-26] tokenize *)
Definition tokenize (scrubbed : rstr) : gset rstr :=
  list_to_set (omap (fun word =>
    let trimmed := trim_matches noise word in
    if bool_decide (trimmed = []) then None else Some (to_lowercase trimmed)) (split_where is_whitespace scrubbed)).

(* [html-oracle/src/norm.rs:31-56] href_identity *)
Definition href_identity (href : rstr) : option rstr :=
  let trimmed := trim href in
  let mail := match strip_prefix (lit "mailto:") trimmed with
              | Some rest => Some rest
              | None => strip_prefix (lit "MAILTO:") trimmed
              end in
  match mail with
  | Some rest =>
      let addr := default rest (head (split_on 63 rest)) in
      if negb (bool_decide (64 ∈ addr)) then None
      else
        domain ← last (split_on 64 addr);
        if bool_decide (domain = []) then None else Some (lit "mailto|" ++ to_lowercase domain)
  | None =>
      '(scheme, host) ← url_parse trimmed;
      if negb (str_eqb scheme (lit "http")) && negb (str_eqb scheme (lit "https")) then None
      else host ← host; Some (scheme ++ lit "|" ++ to_lowercase host)
  end.

(* [html-oracle/src/norm.rs:59-71] href_identities *)
Definition href_identities (hrefs : list rstr) : gset rstr := list_to_set (omap href_identity hrefs).

(** ** The reference extractor *)

(* [html-oracle/src/reference.rs:22-22] SCRUB_LIMIT *)
Definition SCRUB_LIMIT : Z := 1024 * 1024.

(* [html-oracle/src/reference.rs:26-29] ReferenceExtract *)
Record ReferenceExtract := mkReference { text_tokens : gset rstr; href_ids : gset rstr }.

(* [html-oracle/src/reference.rs:39-51] State *)
Record State := mkState { buf : rstr; node_text : rstr; suppress : nat; after_cdata : bool; hrefs : list rstr }.

(** What the handlers are called with, in the order of the document: an element
    with its link, and whether it can have an end tag; the end of an element;
    a comment; a piece of text, whether it is plain data, and the last of its
    node. *)
Inductive event :=
  | Element (tag : rstr) (href : option rstr) (has_end : bool)
  | EndOf (tag : rstr)
  | CommentText (text : rstr)
  | TextChunk (chunk : rstr) (is_data last : bool).

Definition decoded_text (s : rstr) : rstr := if bool_decide (38 ∈ s) then decode_entities s else s.

(* [html-oracle/src/reference.rs:83-104] flush_node *)
Definition flush_node (st : State) : State :=
  if bool_decide (node_text st = []) then st
  else
    let decoded := decoded_text (node_text st) in
    if contains (lit "]]>") decoded then mkState (buf st) [] (suppress st) (after_cdata st) (hrefs st)
    else
      let sep := match last (buf st) with Some c => if is_whitespace c then [] else [32] | None => [] end in
      mkState (buf st ++ sep ++ decoded) [] (suppress st) (after_cdata st) (hrefs st).

(** The handlers an event reaches, in the order they were registered. *)
(* [html-oracle/src/reference.rs:118-170] extract_reference *)
Definition handle (st : State) (e : event) : result rstr State :=
  match e with
  | Element tag href has_end =>
      let st := if is_non_content tag then mkState (buf st) (node_text st) (S (suppress st)) (after_cdata st) (hrefs st) else st in
      if is_non_content tag && negb has_end then Err (lit "no end tag")
      else
        let st := mkState (buf st) (node_text st) (suppress st) false (hrefs st) in
        match href with
        | Some h =>
            if str_eqb tag (lit "a") then
              Ok (mkState (buf st) (node_text st) (suppress st) (after_cdata st) (hrefs st ++ [decoded_text h]))
            else Ok st
        | None => Ok st
        end
  | EndOf tag =>
      if is_non_content tag then Ok (mkState (buf st) (node_text st) (pred (suppress st)) (after_cdata st) (hrefs st)) else Ok st
  | CommentText text =>
      if starts_with (lit "[CDATA[") text then Ok (mkState (buf st) (node_text st) (suppress st) true (hrefs st)) else Ok st
  | TextChunk chunk is_data last =>
      if (suppress st =? 0)%nat && negb (after_cdata st) && is_data then
        let st := mkState (buf st) (node_text st ++ chunk) (suppress st) (after_cdata st) (hrefs st) in
        Ok (if last then flush_node st else st)
      else Ok st
  end.

Fixpoint handle_all (st : State) (es : list event) : result rstr State :=
  match es with [] => Ok st | e :: es => st ← handle st e; handle_all st es end.

(** The rewriter: the events of a document, and an error at its end. *)
Context (rewrite_events : rstr -> list event * option rstr).

(* [html-oracle/src/reference.rs:106-194] extract_reference *)
Definition extract_reference (decoded_html : rstr) : result rstr ReferenceExtract :=
  let '(events, failed) := rewrite_events decoded_html in
  st ← handle_all (mkState [] [] 0 false []) events;
  match failed with
  | Some e => Err e
  | None =>
      let st := flush_node st in
      let '(scrubbed, _) := sanitize (str_bytes (buf st)) (Some (lit "utf-8")) SCRUB_LIMIT (lit "oracle:reference") in
      Ok (mkReference (tokenize scrubbed) (href_identities (hrefs st)))
  end.

(** ** The allowlist *)

(* [html-oracle/src/allowlist.rs:8-14] AllowlistError *)
Inductive AllowlistError := ParseError (message : rstr) | MissingReason (input : rstr).
(* [html-oracle/src/allowlist.rs:16-28] RawFile, RawEntry *)
Record RawEntry := mkEntry { en_input : rstr; en_tokens : list rstr; en_reason : option rstr }.

Context (from_toml : rstr -> result rstr (list RawEntry)).

(* [html-oracle/src/allowlist.rs:39-47] load *)
Fixpoint load_entries (raw : list RawEntry) (by_input : gmap rstr (gset rstr)) : result AllowlistError (gmap rstr (gset rstr)) :=
  match raw with
  | [] => Ok by_input
  | entry :: raw =>
      if bool_decide (trim (default [] (en_reason entry)) = []) then Err (MissingReason (en_input entry))
      else
        let set := default ∅ (by_input !! en_input entry) in
        load_entries raw (<[en_input entry := set ∪ list_to_set (map to_lowercase (en_tokens entry))]> by_input)
  end.

(* [html-oracle/src/allowlist.rs:35-49] load *)
Definition load (toml_text : rstr) : result AllowlistError (gmap rstr (gset rstr)) :=
  raw ← map_err ParseError (from_toml toml_text); load_entries raw ∅.

(* [html-oracle/src/allowlist.rs:53-55] tokens_for *)
Definition tokens_for (allow : gmap rstr (gset rstr)) (input_id : rstr) : gset rstr := default ∅ (allow !! input_id).
(* [html-oracle/src/allowlist.rs:58-60] input_ids *)
Definition input_ids (allow : gmap rstr (gset rstr)) : list rstr := map fst (map_to_list allow).

(** ** The comparison *)

(* [html-oracle/src/diff.rs:14-21] DROP_EXPLAINING *)
Definition DROP_EXPLAINING : list WarningCode :=
  [HtmlHiddenContentDetected; HtmlScriptStripped; HtmlStyleStripped; HtmlRemoteImageStripped; HtmlLinkTextHrefMismatch;
   HtmlAnchorUnparsableHref].

(* [html-oracle/src/diff.rs:23-28] Verdict *)
Inductive Verdict := Match | Soft (reference_only : gset rstr) | Hard (reference_only : gset rstr).
(* [html-oracle/src/diff.rs:30-34] Divergence *)
Record Divergence := mkDivergence { verdict : Verdict; production_only : gset rstr }.

(* [html-oracle/src/diff.rs:36-40] has_explaining_warning *)
Definition has_explaining_warning (prod : HtmlResult) : bool :=
  existsb (fun w => bool_decide (code w ∈ DROP_EXPLAINING)) (hr_warnings prod).

(* [html-oracle/src/diff.rs:42-80] classify *)
Definition classify (prod : HtmlResult) (refx : ReferenceExtract) (allow_tokens : gset rstr) : Divergence :=
  let prod_tokens := tokenize (hr_body_text prod) in
  let prod_href_ids := href_identities (anchor_hrefs prod) in
  let reference_only :=
    filter (fun t => t ∉ prod_tokens /\ t ∉ allow_tokens) (text_tokens refx) ∪
    filter (fun h => h ∉ prod_href_ids /\ h ∉ allow_tokens) (href_ids refx) in
  let production_only := filter (fun t => t ∉ text_tokens refx) prod_tokens in
  mkDivergence
    (if bool_decide (reference_only = ∅) then Match
     else if has_explaining_warning prod then Soft reference_only else Hard reference_only)
    production_only.
End oracle.

(** ** What the comparison means *)

(** The words and links of the reference that production neither shows nor is
    excused from showing. *)
Definition silently_dropped (to_lowercase : rstr -> rstr) (url_parse : rstr -> option (rstr * option rstr))
    (prod : HtmlResult) (refx : ReferenceExtract) (allow : gset rstr) (t : rstr) : Prop :=
  t ∉ allow /\
  ((t ∈ text_tokens refx /\ t ∉ tokenize to_lowercase (hr_body_text prod)) \/
   (t ∈ href_ids refx /\ t ∉ href_identities to_lowercase url_parse (anchor_hrefs prod))).

(** The verdict is exact: what it lists is what was dropped, it is a match when
    nothing was, and hard when something was and no warning accounts for it. *)
Lemma classify_verdict to_lowercase url_parse prod refx allow :
  let dropped := silently_dropped to_lowercase url_parse prod refx allow in
  match verdict (classify to_lowercase url_parse prod refx allow) with
  | Match => forall t, ~ dropped t
  | Soft ref_only =>
      ref_only <> ∅ /\ (forall t, t ∈ ref_only <-> dropped t) /\
      exists w, w ∈ hr_warnings prod /\ code w ∈ DROP_EXPLAINING
  | Hard ref_only =>
      ref_only <> ∅ /\ (forall t, t ∈ ref_only <-> dropped t) /\
      forall w, w ∈ hr_warnings prod -> code w ∉ DROP_EXPLAINING
  end.
Proof.
  intros dropped. unfold classify. cbn [verdict]. set (only := _ ∪ _).
  assert (Hin : forall t, t ∈ only <-> dropped t).
  { intros t. unfold only, dropped, silently_dropped. rewrite elem_of_union, !elem_of_filter. tauto. }
  clearbody only. case_bool_decide as He.
  - intros t. rewrite <- Hin, He. set_solver.
  - destruct (has_explaining_warning prod) eqn:Hw; unfold has_explaining_warning in Hw; (split_and!; [done..|]).
    + apply existsb_exists in Hw as (w & Hin' & Hc). exists w. split; [by apply list_elem_of_In | by apply bool_decide_eq_true in Hc].
    + intros w Hin' Hc. apply not_true_iff_false in Hw. apply Hw, existsb_exists. exists w.
      split; [by apply list_elem_of_In | by apply bool_decide_eq_true].
Qed.

(** An allowlist that loads gives a reason for every entry, and excuses for an
    input exactly the lower-cased tokens its entries name. *)
Lemma load_entries_exact to_lowercase raw : forall by_input allow,
  load_entries to_lowercase raw by_input = Ok allow ->
  Forall (fun e => trim (default [] (en_reason e)) <> []) raw /\
  forall id t, t ∈ tokens_for allow id <->
    t ∈ tokens_for by_input id \/ exists e, e ∈ raw /\ en_input e = id /\ t ∈ map to_lowercase (en_tokens e).
Proof.
  induction raw as [|entry raw IH]; intros by_input allow; cbn [load_entries].
  - intros [= <-]. split; [constructor|]. intros id t. split; [by left|]. intros [|(e & He & _)]; [done|]. by apply elem_of_nil in He.
  - case_bool_decide as Hr; [done|]. intros Hl. destruct (IH _ _ Hl) as [Hall Htok]. split; [by constructor|].
    intros id t. rewrite Htok. setoid_rewrite elem_of_cons. unfold tokens_for at 1.
    destruct (decide (en_input entry = id)) as [<-|Hne].
    + rewrite lookup_insert_eq. cbn. rewrite elem_of_union, elem_of_list_to_set. unfold tokens_for. split.
      * intros [[?|?]|(e & ? & ?)]; [by left | right; eauto | right; eauto].
      * intros [?|(e & [->|?] & ? & ?)]; [by do 2 left | by left; right | right; eauto].
    + rewrite lookup_insert_ne by done. unfold tokens_for. split.
      * intros [?|(e & ? & ?)]; [by left | right; eauto].
      * intros [?|(e & [->|?] & ? & ?)]; [by left | done | right; eauto].
Qed.

Theorem load_exact to_lowercase from_toml text raw allow :
  from_toml text = Ok raw -> load to_lowercase from_toml text = Ok allow ->
  Forall (fun e => trim (default [] (en_reason e)) <> []) raw /\
  forall id t, t ∈ tokens_for allow id <-> exists e, e ∈ raw /\ en_input e = id /\ t ∈ map to_lowercase (en_tokens e).
Proof.
  unfold load. intros ->. cbn. intros Hl. destruct (load_entries_exact _ _ _ _ Hl) as [Hall Htok].
  split; [done|]. intros id t. rewrite Htok. unfold tokens_for at 1. rewrite lookup_empty. cbn. set_solver.
Qed.

(** Text inside an element whose content is not shown never reaches the words
    of the reference: the buffer and the text of the node stay as they are
    until the suppression is over. *)
Lemma handle_suppressed decode_entities st e st' :
  handle decode_entities st e = Ok st' -> suppress st <> 0%nat ->
  buf st' = buf st /\ node_text st' = node_text st.
Proof.
  intros Hh Hs. destruct e as [tag href he|tag|c|ch d l]; cbn [handle] in Hh.
  - destruct (is_non_content tag), he, href as [h|]; cbn in Hh; simplify_eq; try destruct (str_eqb tag (lit "a")); by simplify_eq/=.
  - destruct (is_non_content tag); by simplify_eq/=.
  - destruct (starts_with (lit "[CDATA[") c); by simplify_eq/=.
  - destruct (suppress st) eqn:E; [done|]. by simplify_eq/=.
Qed.

(** ** On concrete input *)

Example tokens_drop_edge_punctuation :
  tokenize to_ascii_lowercase (lit "Member, (USDrugs). x&y" ++ [0xFFFD]) = {[lit "member"; lit "usdrugs"; lit "x&y"]}.
Proof. vm_compute. reflexivity. Qed.
Example mail_identity_needs_a_recipient :
  href_identity to_ascii_lowercase (fun _ => None) (lit "mailto:a@B.com?subject=x") = Some (lit "mailto|b.com") /\
  href_identity to_ascii_lowercase (fun _ => None) (lit "mailto:?subject=x") = None.
Proof. by vm_compute. Qed.
Example cdata_sibling_dropped :
  buf <$> (match handle_all id (mkState [] [] 0 false [])
     [Element (lit "p") None true; CommentText (lit "[CDATA[x"); TextChunk (lit "leak") true true;
      Element (lit "b") None true; TextChunk (lit "kept") true true] with Ok st => Some st | Err _ => None end) = Some (lit "kept").
Proof. by vm_compute. Qed.
