(* ===== verification/OracleRun.v ===== *)
(** * The differential oracle of the HTML sanitiser: its corpus and its run
    (html-oracle/src: corpus.rs, main.rs)

    Which documents are compared, how each is counted, and when the run fails.
    Progress messages are left out; the file system, the MIME parser, TOML and
    the JSON encoder are arguments. *)

From Stdlib Require Import ZArith Lia.
From stdpp Require Import base option list numbers strings gmap sorting.
From S2P Require Import Prelude RustStr Content Unicode ContentMeta Sandbox Lookalike Html Runner HtmlOracle.
Local Open Scope Z_scope.

(** ** The corpus *)

(* [html-oracle/src/corpus.rs:11-24] CorpusError *)
Inductive CorpusError := CorpusIo (path source : rstr) | CorpusMeta (path message : rstr).

(* [html-oracle/src/corpus.rs:26-34] CorpusInput *)
Record CorpusInput := mkInput { ci_id : rstr; ci_raw : list Z; ci_charset : option rstr; ci_probes : list rstr }.

(* [html-oracle/src/corpus.rs:45-45] CORPUS_ID_PREFIX *)
Definition CORPUS_ID_PREFIX : rstr := lit "corpus".

(** Directories and entries that cannot be read are passed over, and so is
    whatever is neither a plain file nor a directory. *)
(* [html-oracle/src/corpus.rs:142-165] collect_eml_files *)
Fixpoint gather_eml_files (d : dir) : list rstr :=
  match d with
  | Unreadable _ => []
  | Listing entries =>
      (fix each (es : list dir_entry) : list rstr :=
         match es with [] => [] | e :: es' => gather_entry e ++ each es' end) entries
  end
with gather_entry (e : dir_entry) : list rstr :=
  match e with
  | SubDir _ d => gather_eml_files d
  | PlainFile path => if is_eml_path path then [path] else []
  | BadEntry _ | BadType _ _ | OtherEntry _ => []
  end.

(** [Path::with_extension], of a path that ends in its file name. *)
Definition with_extension (p ext : rstr) : rstr :=
  match path_file_stem p, path_parent p with
  | Some stem, Some parent => path_join parent (stem ++ lit "." ++ ext)
  | _, _ => p
  end.

Section corpus.
(** The file system; the MIME parser, with the HTML bodies of a message, the
    charset and the decoded bytes of a part; the [probes] of a metadata file. *)
Context (tree : rstr -> dir) (read_dir : rstr -> option (list rstr)) (is_file : rstr -> bool)
  (read : rstr -> result rstr (list Z)) (read_to_string : rstr -> option rstr).
Context (mime_parse : list Z -> option Message) (html_bodies : Message -> list MessagePart)
  (charset_of : MessagePart -> option rstr) (contents : MessagePart -> list Z).
Context (meta_probes : rstr -> result rstr (list rstr)).

(* [html-oracle/src/corpus.rs:231-247] extract_html_parts *)
Fixpoint part_inputs (id_base : rstr) (part_no : nat) (parts : list MessagePart) : list CorpusInput :=
  match parts with
  | [] => []
  | part :: parts =>
      mkInput (if (part_no =? 0)%nat then id_base else id_base ++ lit "/part" ++ nat_text part_no) (contents part) (charset_of part) []
      :: part_inputs id_base (S part_no) parts
  end.

(* [html-oracle/src/corpus.rs:219-250] extract_html_parts *)
Definition extract_html_parts (eml id_base : rstr) : result CorpusError (list CorpusInput) :=
  bytes ← map_err (CorpusIo eml) (read eml);
  Ok (match mime_parse bytes with None => [] | Some msg => part_inputs id_base 0 (html_bodies msg) end).

(* [html-oracle/src/corpus.rs:167-192] load_fuzz_seeds *)
Fixpoint seed_inputs (paths : list rstr) : result CorpusError (list CorpusInput) :=
  match paths with
  | [] => Ok []
  | path :: paths =>
      if negb (is_file path) then seed_inputs paths
      else
        raw ← map_err (CorpusIo path) (read path);
        rest ← seed_inputs paths;
        Ok (match path_file_name path with
            | Some name => mkInput (lit "content_html/" ++ name) raw None [] :: rest
            | None => rest
            end)
  end.
(* [html-oracle/src/corpus.rs:167-192] load_fuzz_seeds *)
Definition load_fuzz_seeds (repo_root : rstr) : result CorpusError (list CorpusInput) :=
  match read_dir (path_join repo_root (lit "fuzz/corpus/content_html")) with
  | None => Ok []
  | Some entries => seed_inputs entries
  end.

(* [html-oracle/src/corpus.rs:200-211] load_injection_parts *)
Fixpoint injection_inputs (fixtures : list rstr) : result CorpusError (list CorpusInput) :=
  match fixtures with
  | [] => Ok []
  | fixture :: fixtures =>
      let eml := path_join fixture (lit "input.eml") in
      if negb (is_file eml) then injection_inputs fixtures
      else
        parts ← extract_html_parts eml (lit "injection/" ++ default [] (path_file_name fixture));
        rest ← injection_inputs fixtures;
        Ok (parts ++ rest)
  end.
(* [html-oracle/src/corpus.rs:194-213] load_injection_parts *)
Definition load_injection_parts (repo_root : rstr) : result CorpusError (list CorpusInput) :=
  match read_dir (path_join repo_root (lit "tests/injection-corpus")) with
  | None => Ok []
  | Some entries => injection_inputs entries
  end.

(* [html-oracle/src/corpus.rs:47-52] load *)
Definition load_repo (repo_root : rstr) : result CorpusError (list CorpusInput) :=
  seeds ← load_fuzz_seeds repo_root; parts ← load_injection_parts repo_root; Ok (seeds ++ parts).

(** [on_file] may change the inputs of its file, or fail. *)
(* [html-oracle/src/corpus.rs:115-123] load_eml_tree_with *)
Fixpoint tree_inputs (id_prefix : rstr) (on_file : rstr -> list CorpusInput -> result CorpusError (list CorpusInput))
    (files : list rstr) : result CorpusError (list CorpusInput) :=
  match files with
  | [] => Ok []
  | eml :: files =>
      inputs ← extract_html_parts eml (id_prefix ++ lit "/" ++ default [] (path_file_stem eml));
      inputs ← on_file eml inputs;
      rest ← tree_inputs id_prefix on_file files;
      Ok (inputs ++ rest)
  end.
(* [html-oracle/src/corpus.rs:99-125] load_eml_tree_with *)
Definition load_eml_tree_with (d id_prefix : rstr) (limit : option Z)
    (on_file : rstr -> list CorpusInput -> result CorpusError (list CorpusInput)) : result CorpusError (list CorpusInput) :=
  let files := merge_sort path_le (gather_eml_files (tree d)) in
  tree_inputs id_prefix on_file (match limit with Some n => take (Z.to_nat n) files | None => files end).

(* [html-oracle/src/corpus.rs:67-73] load_eml_tree *)
Definition load_eml_tree (d id_prefix : rstr) (limit : option Z) : result CorpusError (list CorpusInput) :=
  load_eml_tree_with d id_prefix limit (fun _ inputs => Ok inputs).

(* [html-oracle/src/corpus.rs:129-140] read_probes *)
Definition read_probes (eml : rstr) : result CorpusError (list rstr) :=
  let meta_path := with_extension eml (lit "meta.toml") in
  match read_to_string meta_path with
  | None => Ok []
  | Some text => map_err (CorpusMeta meta_path) (meta_probes text)
  end.

(* [html-oracle/src/corpus.rs:85-93] load_corpus_tree *)
Definition load_corpus_tree (d : rstr) (limit : option Z) : result CorpusError (list CorpusInput) :=
  load_eml_tree_with d CORPUS_ID_PREFIX limit (fun eml inputs =>
    probes ← read_probes eml;
    Ok (map (fun i => mkInput (ci_id i) (ci_raw i) (ci_charset i) probes) inputs)).
End corpus.

(** ** Arguments *)

(* [html-oracle/src/main.rs:93-100] Args *)
Record OracleArgs := mkOracleArgs {
  repo_root : rstr; report_path : rstr; epvme_dir : option rstr; corpus_root : option rstr;
  corpus_min_compared : option Z; file_limit : option Z }.
(* [html-oracle/src/main.rs:102-106] ParsedArgs *)
Inductive ParsedArgs := Run (a : OracleArgs) | Help | ArgError (message : rstr).

Section args.
(** The directory the crate was built in, and [{:?}] on strings. *)
Context (manifest_dir : rstr) (debug_str : rstr -> rstr).

Record raw_args := mkRaw {
  ra_root : option rstr; ra_report : option rstr; ra_epvme : option rstr; ra_corpus : option rstr;
  ra_min : option Z; ra_limit : option Z }.

(** [it.next()] after a flag: the value, and what follows it. *)
(* [html-oracle/src/main.rs:145-170] parse_args_from *)
Fixpoint parse_oracle_loop (args : list rstr) (r : raw_args) : raw_args + ParsedArgs :=
  match args with
  | [] => inl r
  | arg :: rest =>
      let next := head rest in
      let with_value r' := match rest with [] => inl r' | _ :: rest' => parse_oracle_loop rest' r' end in
      if str_eqb arg (lit "--help") || str_eqb arg (lit "-h") then inr Help
      else if str_eqb arg (lit "--repo-root") then with_value (mkRaw next (ra_report r) (ra_epvme r) (ra_corpus r) (ra_min r) (ra_limit r))
      else if str_eqb arg (lit "--report") then with_value (mkRaw (ra_root r) next (ra_epvme r) (ra_corpus r) (ra_min r) (ra_limit r))
      else if str_eqb arg (lit "--epvme-dir") then with_value (mkRaw (ra_root r) (ra_report r) next (ra_corpus r) (ra_min r) (ra_limit r))
      else if str_eqb arg (lit "--corpus-root") then with_value (mkRaw (ra_root r) (ra_report r) (ra_epvme r) next (ra_min r) (ra_limit r))
      else if str_eqb arg (lit "--corpus-min-compared") then
        match next with
        | None => inr (ArgError (lit "--corpus-min-compared requires a value"))
        | Some v =>
            match parse_usize v with
            | Some n => with_value (mkRaw (ra_root r) (ra_report r) (ra_epvme r) (ra_corpus r) (Some n) (ra_limit r))
            | None => inr (ArgError (lit "--corpus-min-compared expects a non-negative integer, got " ++ debug_str v))
            end
        end
      else if str_eqb arg (lit "--limit") then
        with_value (mkRaw (ra_root r) (ra_report r) (ra_epvme r) (ra_corpus r) (ra_min r) (v ← next; parse_usize v))
      else parse_oracle_loop rest r
  end.

(* [html-oracle/src/main.rs:133-185] parse_args_from *)
Definition parse_args_from (args : list rstr) (epvme_env corpus_env : option rstr) : ParsedArgs :=
  match parse_oracle_loop args (mkRaw None None epvme_env corpus_env None None) with
  | inr p => p
  | inl r =>
      Run (mkOracleArgs (match ra_root r with Some p => p | None => default (lit ".") (path_parent manifest_dir) end)
             (match ra_report r with Some p => p | None => path_join manifest_dir (lit "report.json") end)
             (ra_epvme r) (ra_corpus r) (ra_min r) (ra_limit r))
  end.
End args.

(** ** One document *)

(* [html-oracle/src/main.rs:191-198] is_mostly_binary *)
Definition is_mostly_binary (text : rstr) : bool :=
  let total := length (filter (fun c => is_whitespace c = false) text) in
  if (total =? 0)%nat then false
  else (total <? length (filter (fun c => c = 0xFFFD%Z) text) * 10)%nat.

(* [html-oracle/src/main.rs:43-54] Kind *)
Inductive Kind := SanitizeSkip | BinarySkip | RefError | ComparedEmpty | ComparedNonempty.
#[export] Instance Kind_eq_dec : EqDecision Kind.
Proof. solve_decision. Defined.

(* [html-oracle/src/main.rs:18-28] Totals *)
Record Totals := mkTotals {
  total : nat; hard : nat; soft : nat; matched : nat; skipped : nat; ref_error : nat; compared_nonempty : nat;
  stale_allowlist_entries : nat }.
(* [html-oracle/src/main.rs:30-37] InputReport *)
Record InputReport := mkReport {
  ir_id : rstr; ir_verdict : rstr; ir_reference_only : list rstr; ir_production_only : list rstr; ir_warnings : list rstr }.
(* [html-oracle/src/main.rs:57-60] CorpusRecord *)
Record CorpusRecord := mkCorpusRecord { cr_probes : list rstr; cr_kind : Kind }.
(* [html-oracle/src/main.rs:201-208] Outcome *)
Record Outcome := mkOutcome {
  totals : Totals; hard_inputs : list InputReport; soft_inputs : list InputReport; seen_ids : gset rstr;
  corpus_records : list CorpusRecord }.

Definition no_totals : Totals := mkTotals 0 0 0 0 0 0 0 0.
Definition no_outcome : Outcome := mkOutcome no_totals [] [] ∅ [].
Definition with_totals (f : Totals -> Totals) (o : Outcome) : Outcome :=
  mkOutcome (f (totals o)) (hard_inputs o) (soft_inputs o) (seen_ids o) (corpus_records o).

Definition add_total (t : Totals) : Totals :=
  mkTotals (S (total t)) (hard t) (soft t) (matched t) (skipped t) (ref_error t) (compared_nonempty t) (stale_allowlist_entries t).
Definition add_hard (t : Totals) : Totals :=
  mkTotals (total t) (S (hard t)) (soft t) (matched t) (skipped t) (ref_error t) (compared_nonempty t) (stale_allowlist_entries t).
Definition add_soft (t : Totals) : Totals :=
  mkTotals (total t) (hard t) (S (soft t)) (matched t) (skipped t) (ref_error t) (compared_nonempty t) (stale_allowlist_entries t).
Definition add_matched (t : Totals) : Totals :=
  mkTotals (total t) (hard t) (soft t) (S (matched t)) (skipped t) (ref_error t) (compared_nonempty t) (stale_allowlist_entries t).
Definition add_skipped (t : Totals) : Totals :=
  mkTotals (total t) (hard t) (soft t) (matched t) (S (skipped t)) (ref_error t) (compared_nonempty t) (stale_allowlist_entries t).
Definition add_ref_error (t : Totals) : Totals :=
  mkTotals (total t) (hard t) (soft t) (matched t) (skipped t) (S (ref_error t)) (compared_nonempty t) (stale_allowlist_entries t).
Definition add_compared (t : Totals) : Totals :=
  mkTotals (total t) (hard t) (soft t) (matched t) (skipped t) (ref_error t) (S (compared_nonempty t)) (stale_allowlist_entries t).

(** A set as the list it is written as. *)
Definition str_le (a b : rstr) : Prop := str_leb a b = true.
#[export] Instance str_le_dec : RelDecision str_le.
Proof. intros a b. unfold str_le. apply _. Defined.
Definition sorted_elements (s : gset rstr) : list rstr := merge_sort str_le (base.elements s).

Section run.
Context `{UnicodeLib, DomainLib}.
Context (registrable : rstr -> option rstr) (parse_document : rstr -> list node) (ammonia_clean : rstr -> rstr).
Context (to_lowercase : rstr -> rstr) (url_parse : rstr -> option (rstr * option rstr)) (decode_entities : rstr -> rstr).
Context (rewrite_events : rstr -> list event * option rstr).
Context (debug_code : WarningCode -> rstr).

Definition produce (input : CorpusInput) : result ContentError HtmlResult :=
  html_sanitize registrable url_links parse_document ammonia_clean (ci_raw input) (ci_charset input).
Definition refer (decoded : rstr) : result rstr ReferenceExtract :=
  extract_reference to_lowercase url_parse decode_entities rewrite_events decoded.

(* [html-oracle/src/main.rs:389-427] record_verdict *)
Definition record_verdict (input : CorpusInput) (prod : HtmlResult) (d : Divergence) (out : Outcome) : Outcome :=
  let warnings := map (fun w => debug_code (code w)) (hr_warnings prod) in
  let report v only := mkReport (ci_id input) v (sorted_elements only) (sorted_elements (production_only d)) warnings in
  match verdict d with
  | Match => with_totals add_matched out
  | Soft only =>
      let out := with_totals add_soft out in
      mkOutcome (totals out) (hard_inputs out) (soft_inputs out ++ [report (lit "soft") only]) (seen_ids out) (corpus_records out)
  | Hard only =>
      let out := with_totals add_hard out in
      mkOutcome (totals out) (hard_inputs out ++ [report (lit "hard") only]) (soft_inputs out) (seen_ids out) (corpus_records out)
  end.

(* [html-oracle/src/main.rs:275-312] process_one *)
Definition process_one (input : CorpusInput) (allow : gmap rstr (gset rstr)) (out : Outcome) : Outcome * Kind :=
  match produce input with
  | Err _ => (with_totals add_skipped out, SanitizeSkip)
  | Ok prod =>
      let decoded := decode (ci_raw input) (ci_charset input) in
      if is_mostly_binary decoded then (with_totals add_skipped out, BinarySkip)
      else
        match refer decoded with
        | Err _ => (with_totals add_ref_error out, RefError)
        | Ok refx =>
            let nonempty := negb (bool_decide (text_tokens refx = ∅)) || negb (bool_decide (href_ids refx = ∅)) in
            let out := if nonempty then with_totals add_compared out else out in
            let divergence := classify to_lowercase url_parse prod refx (tokens_for allow (ci_id input)) in
            (record_verdict input prod divergence out, if nonempty then ComparedNonempty else ComparedEmpty)
        end
  end.

Definition is_corpus (input : CorpusInput) : bool := bool_decide (head (split_on 47 (ci_id input)) = Some CORPUS_ID_PREFIX).

(* [html-oracle/src/main.rs:261-271] run_inputs *)
Definition run_input (allow : gmap rstr (gset rstr)) (out : Outcome) (input : CorpusInput) : Outcome :=
  let out := with_totals add_total out in
  let out := mkOutcome (totals out) (hard_inputs out) (soft_inputs out) ({[ci_id input]} ∪ seen_ids out) (corpus_records out) in
  let '(out, kind) := process_one input allow out in
  if is_corpus input then
    mkOutcome (totals out) (hard_inputs out) (soft_inputs out) (seen_ids out)
      (corpus_records out ++ [mkCorpusRecord (ci_probes input) kind])
  else out.

(* [html-oracle/src/main.rs:259-273] run_inputs *)
Definition run_inputs (inputs : list CorpusInput) (allow : gmap rstr (gset rstr)) : Outcome :=
  fold_left (run_input allow) inputs no_outcome.
End run.

(** ** The corpus checks *)

(* [html-oracle/src/main.rs:65-76] CorpusReport *)
Record CorpusReport := mkCorpusReport {
  cp_total : nat; cp_skipped : nat; cp_ref_error : nat; cp_compared_nonempty : nat; cp_min_compared : option Z;
  floor_breach : option rstr; canary_failures : list rstr }.

(* [html-oracle/src/main.rs:79-79] TEXT_TOKEN_FAMILIES *)
Definition TEXT_TOKEN_FAMILIES : list rstr := [lit "stray-tag-boundary"; lit "entity-href"].
(* [html-oracle/src/main.rs:81-81] BINARY_FAMILY *)
Definition BINARY_FAMILY : rstr := lit "binary-part".

(* [html-oracle/src/main.rs:319-326] corpus_report *)
Definition tally (r : CorpusReport) (rec : CorpusRecord) : CorpusReport :=
  let 'mkCorpusReport t s e c m f x := r in
  match cr_kind rec with
  | SanitizeSkip | BinarySkip => mkCorpusReport t (S s) e c m f x
  | RefError => mkCorpusReport t s (S e) c m f x
  | ComparedNonempty => mkCorpusReport t s e (S c) m f x
  | ComparedEmpty => r
  end.
(* [html-oracle/src/main.rs:314-328] corpus_report *)
Definition corpus_report (records : list CorpusRecord) : CorpusReport :=
  fold_left tally records (mkCorpusReport (length records) 0 0 0 None None []).

(* [html-oracle/src/main.rs:333-342] check_floor *)
Definition check_floor (compared : nat) (min : option Z) : option rstr :=
  min ← min;
  if Z.of_nat compared <? min then
    Some (lit "corpus comparison floor breached: " ++ nat_text compared ++ lit " < --corpus-min-compared " ++ to_decimal min)
  else None.

(* [html-oracle/src/main.rs:346-353] tally_family *)
Definition tally_family (records : list CorpusRecord) (family : rstr) (healthy : Kind) : nat * nat :=
  fold_left (fun '(tagged, ok) r => (S tagged, (ok + if decide (cr_kind r = healthy) then 1 else 0)%nat))
    (filter (fun r => family ∈ cr_probes r) records) (0, 0)%nat.

(* [html-oracle/src/main.rs:360-387] check_canaries *)
Definition check_canaries (records : list CorpusRecord) : list rstr :=
  omap (fun family =>
    let '(tagged, live) := tally_family records family ComparedNonempty in
    if (0 <? tagged)%nat && (live =? 0)%nat then
      Some (lit "canary family '" ++ family ++ lit "' has tagged inputs but produced 0 live comparisons " ++ [0x2014] ++ lit " comparison-layer hardening regressed (its guard inputs went inert)")
    else None) TEXT_TOKEN_FAMILIES ++
  let '(bin_tagged, via_guard) := tally_family records BINARY_FAMILY BinarySkip in
  if (0 <? bin_tagged)%nat && (via_guard =? 0)%nat then
    [lit "binary-part canary unhealthy (0/" ++ nat_text bin_tagged ++ lit " tagged inputs skipped via is_mostly_binary): the is_mostly_binary guard regressed, this canary no longer decodes to >10% U+FFFD, or it was skipped/errored by a different stage"]
  else [].

Lemma tally_fold (k : Kind) rs : forall a b,
  fold_left (fun '(tagged, ok) r => (S tagged, (ok + if decide (cr_kind r = k) then 1 else 0)%nat)) rs (a, b) =
  ((a + length rs)%nat, (b + length (filter (fun r => cr_kind r = k) rs))%nat).
Proof.
  induction rs as [|r rs IH]; intros a b; [cbn; f_equal; lia|]. rewrite filter_cons. cbn [fold_left].
  etransitivity; [apply IH|]. destruct (decide (cr_kind r = k)); cbn [length]; f_equal; lia.
Qed.

(** A family that is present and healthy has a record of the kind that shows it. *)
Definition family_healthy (records : list CorpusRecord) (family : rstr) (k : Kind) : Prop :=
  (exists r, r ∈ records /\ family ∈ cr_probes r) -> exists r, r ∈ records /\ family ∈ cr_probes r /\ cr_kind r = k.

Lemma tally_family_healthy records family k :
  (let '(tagged, ok) := tally_family records family k in (0 <? tagged)%nat && (ok =? 0)%nat) = false ->
  family_healthy records family k.
Proof.
  unfold tally_family. rewrite tally_fold. cbn -[Nat.ltb]. intros Hf (r & Hr & Hp).
  set (fs := filter (fun r => family ∈ cr_probes r) records) in *.
  assert (Hin : r ∈ fs) by (by apply list_elem_of_filter).
  assert (Hpos : (0 <? length fs)%nat = true) by (apply Nat.ltb_lt; destruct fs; [by apply elem_of_nil in Hin | cbn; lia]).
  rewrite Hpos in Hf. cbn in Hf. apply Nat.eqb_neq in Hf.
  destruct (filter (fun r => cr_kind r = k) fs) as [|r' rs] eqn:E; [done|].
  assert (Hr' : r' ∈ filter (fun r => cr_kind r = k) fs) by (rewrite E; constructor).
  apply list_elem_of_filter in Hr' as [Hk Hr']. apply list_elem_of_filter in Hr' as [Hp' Hr']. eauto.
Qed.

Lemma canaries_healthy records : check_canaries records = [] ->
  Forall (fun f => family_healthy records f ComparedNonempty) TEXT_TOKEN_FAMILIES /\ family_healthy records BINARY_FAMILY BinarySkip.
Proof.
  unfold check_canaries. intros [Ht Hb]%app_eq_nil. split.
  - revert Ht. induction TEXT_TOKEN_FAMILIES as [|f fs IH]; intros Ht; constructor.
    + apply tally_family_healthy. cbn -[tally_family Nat.ltb] in Ht. destruct (tally_family records f ComparedNonempty) as [a b].
      by destruct (_ && _).
    + apply IH. cbn -[tally_family Nat.ltb] in Ht. by destruct (tally_family records f ComparedNonempty) as [a b]; destruct (_ && _).
  - apply tally_family_healthy. destruct (tally_family records BINARY_FAMILY BinarySkip) as [a b]. by destruct (_ && _).
Qed.

Lemma corpus_report_compared records :
  cp_compared_nonempty (corpus_report records) = length (filter (fun r => cr_kind r = ComparedNonempty) records).
Proof.
  assert (Hgen : forall r, cp_compared_nonempty (fold_left tally records r) =
    (cp_compared_nonempty r + length (filter (fun r => cr_kind r = ComparedNonempty) records))%nat).
  { induction records as [|x records IH]; intros r; cbn [fold_left]; [rewrite filter_nil; cbn; lia|].
    rewrite IH, filter_cons. destruct (decide (cr_kind x = ComparedNonempty)) as [E|E]; destruct r, x as [ps k]; cbn in E; unfold tally;
      destruct k; try done; cbn [cr_kind cp_compared_nonempty length]; lia. }
  unfold corpus_report. by rewrite Hgen.
Qed.

(** ** The program *)

(* [html-oracle/src/main.rs:83-91] Report *)
Record Report := mkRunReport {
  rp_totals : Totals; rp_corpus : option CorpusReport; rp_hard : list InputReport; rp_soft : list InputReport; rp_stale : list rstr }.

(* [html-oracle/src/main.rs:454-482] exit_code *)
Definition oracle_exit (report : Report) (inert : bool) : Z :=
  let failed := (0 <? hard (rp_totals report))%nat in
  let failed := if inert then true else failed in
  let failed := match rp_corpus report with
                | None => failed
                | Some corpus =>
                    let failed := match floor_breach corpus with Some _ => true | None => failed end in
                    match canary_failures corpus with [] => failed | _ => true end
                end in
  if failed then 1 else 0.

Section program.
Context `{UnicodeLib, DomainLib}.
Context (registrable : rstr -> option rstr) (parse_document : rstr -> list node) (ammonia_clean : rstr -> rstr).
Context (to_lowercase : rstr -> rstr) (url_parse : rstr -> option (rstr * option rstr)) (decode_entities : rstr -> rstr).
Context (rewrite_events : rstr -> list event * option rstr).
Context (debug_code : WarningCode -> rstr) (debug_str : rstr -> rstr).
Context (tree : rstr -> dir) (read_dir : rstr -> option (list rstr)) (is_file : rstr -> bool)
  (read : rstr -> result rstr (list Z)) (read_to_string : rstr -> option rstr).
Context (mime_parse : list Z -> option Message) (html_bodies : Message -> list MessagePart)
  (charset_of : MessagePart -> option rstr) (contents : MessagePart -> list Z).
Context (meta_probes : rstr -> result rstr (list rstr)) (from_toml : rstr -> result rstr (list RawEntry)).
Context (manifest_dir : rstr) (to_string_pretty : Report -> option rstr) (write : rstr -> rstr -> result rstr unit).

(* [html-oracle/src/main.rs:225-230] append_allowlist *)
Definition append_allowlist (text : rstr) (enabled : bool) (file : rstr) : rstr :=
  if enabled then
    match read_to_string (path_join manifest_dir file) with Some extra => text ++ [10] ++ extra | None => text end
  else text.

(* [html-oracle/src/main.rs:213-219] assemble_allowlist *)
Definition assemble_allowlist (with_epvme with_corpus : bool) : result AllowlistError (gmap rstr (gset rstr)) :=
  let text := default [] (read_to_string (path_join manifest_dir (lit "allowlist.toml"))) in
  let text := append_allowlist text with_epvme (lit "epvme-allowlist.toml") in
  let text := append_allowlist text with_corpus (lit "corpus-allowlist.toml") in
  load to_lowercase from_toml text.

(* [html-oracle/src/main.rs:234-257] assemble_inputs *)
Definition assemble_inputs (args : OracleArgs) : result CorpusError (list CorpusInput) :=
  inputs ← load_repo read_dir is_file read mime_parse html_bodies charset_of contents (repo_root args);
  epvme ← match epvme_dir args with
          | Some d => load_eml_tree tree read mime_parse html_bodies charset_of contents d (lit "epvme") (file_limit args)
          | None => Ok []
          end;
  corpus ← match corpus_root args with
           | Some d => load_corpus_tree tree read read_to_string mime_parse html_bodies charset_of contents meta_probes d (file_limit args)
           | None => Ok []
           end;
  Ok (inputs ++ epvme ++ corpus).

Abbreviation all_inputs := (run_inputs registrable parse_document ammonia_clean to_lowercase url_parse decode_entities rewrite_events debug_code).

(** The report of a run, and whether it compared nothing. *)
(* [html-oracle/src/main.rs:508-538] main *)
Definition make_report (args : OracleArgs) (allow : gmap rstr (gset rstr)) (inputs : list CorpusInput) : Report * bool :=
  let outcome := all_inputs inputs allow in
  let stale := filter (fun id => id ∉ seen_ids outcome) (input_ids allow) in
  let 'mkTotals t h s m k e c _ := totals outcome in
  let corpus := match corpus_root args with
                | None => None
                | Some _ =>
                    let r := corpus_report (corpus_records outcome) in
                    Some (mkCorpusReport (cp_total r) (cp_skipped r) (cp_ref_error r) (cp_compared_nonempty r)
                            (corpus_min_compared args) (check_floor (cp_compared_nonempty r) (corpus_min_compared args))
                            (check_canaries (corpus_records outcome)))
                end in
  (mkRunReport (mkTotals t h s m k e c (length stale)) corpus (hard_inputs outcome) (soft_inputs outcome) stale, (c =? 0)%nat).

(* [html-oracle/src/main.rs:484-546] main *)
Definition oracle_main (argv : list rstr) (epvme_env corpus_env : option rstr) : Z :=
  match parse_args_from manifest_dir debug_str argv epvme_env corpus_env with
  | Help => 0
  | ArgError _ => 1
  | Run args =>
      match assemble_allowlist (bool_decide (is_Some (epvme_dir args))) (bool_decide (is_Some (corpus_root args))) with
      | Err _ => 1
      | Ok allow =>
          match assemble_inputs args with
          | Err _ => 1
          | Ok inputs =>
              let '(report, inert) := make_report args allow inputs in
              match write (report_path args) (default (lit "{}") (to_string_pretty report)) with
              | Err _ => 1
              | Ok _ => oracle_exit report inert
              end
          end
      end
  end.

(** ** What a run shows *)

Abbreviation produced := (produce registrable parse_document ammonia_clean).
Abbreviation referred := (refer to_lowercase url_parse decode_entities rewrite_events).
Abbreviation process := (process_one registrable parse_document ammonia_clean to_lowercase url_parse decode_entities rewrite_events debug_code).
Abbreviation run_one := (run_input registrable parse_document ammonia_clean to_lowercase url_parse decode_entities rewrite_events debug_code).

(** Both readings of a document that is compared. *)
Definition compared (input : CorpusInput) : option (HtmlResult * ReferenceExtract) :=
  match produced input with
  | Err _ => None
  | Ok prod =>
      let decoded := decode (ci_raw input) (ci_charset input) in
      if is_mostly_binary decoded then None
      else match referred decoded with Err _ => None | Ok refx => Some (prod, refx) end
  end.
Definition says_something (refx : ReferenceExtract) : bool :=
  negb (bool_decide (text_tokens refx = ∅)) || negb (bool_decide (href_ids refx = ∅)).
Definition kind_of (input : CorpusInput) : Kind :=
  match produced input with
  | Err _ => SanitizeSkip
  | Ok _ =>
      if is_mostly_binary (decode (ci_raw input) (ci_charset input)) then BinarySkip
      else match compared input with
           | None => RefError
           | Some (_, refx) => if says_something refx then ComparedNonempty else ComparedEmpty
           end
  end.
Definition judged (allow : gmap rstr (gset rstr)) (input : CorpusInput) : option Verdict :=
  '(prod, refx) ← compared input; Some (verdict (classify to_lowercase url_parse prod refx (tokens_for allow (ci_id input)))).

Definition count_hard allow (input : CorpusInput) : nat := match judged allow input with Some (Hard _) => 1 | _ => 0 end.
Definition count_soft allow (input : CorpusInput) : nat := match judged allow input with Some (Soft _) => 1 | _ => 0 end.
Definition count_match allow (input : CorpusInput) : nat := match judged allow input with Some Match => 1 | _ => 0 end.
Definition count_kind (k : Kind) (input : CorpusInput) : nat := if decide (kind_of input = k) then 1 else 0.
Definition sum_of (f : CorpusInput -> nat) (inputs : list CorpusInput) : nat := foldr (fun i n => (f i + n)%nat) 0%nat inputs.

Lemma process_kind input allow out : (process input allow out).2 = kind_of input.
Proof.
  unfold process_one, kind_of, compared, says_something. destruct (produced input); [|done].
  destruct (is_mostly_binary _); [done|]. destruct (referred _); [|done]. cbn. by destruct (_ || _).
Qed.

(** What one document adds to the counters. *)
Definition adds (allow : gmap rstr (gset rstr)) (input : CorpusInput) (t t' : Totals) : Prop :=
  hard t' = (hard t + count_hard allow input)%nat /\ soft t' = (soft t + count_soft allow input)%nat /\
  matched t' = (matched t + count_match allow input)%nat /\
  skipped t' = (skipped t + count_kind SanitizeSkip input + count_kind BinarySkip input)%nat /\
  ref_error t' = (ref_error t + count_kind RefError input)%nat /\
  compared_nonempty t' = (compared_nonempty t + count_kind ComparedNonempty input)%nat.

Lemma process_adds input allow out : adds allow input (totals out) (totals (process input allow out).1) /\ total (totals (process input allow out).1) = total (totals out).
Proof.
  unfold adds, count_hard, count_soft, count_match, count_kind, judged, kind_of, process_one, compared.
  destruct (produced input) as [prod|]; cbn -[classify]; [|repeat case_decide; lia || done].
  destruct (is_mostly_binary _); cbn -[classify]; [repeat case_decide; lia || done|].
  destruct (referred _) as [refx|]; cbn -[classify]; [|repeat case_decide; lia || done].
  unfold record_verdict. fold (says_something refx). destruct (classify _ _ _ _ _) as [[| |] ponly], (says_something refx);
    cbn; repeat case_decide; lia || done.
Qed.

Lemma process_records input allow out : corpus_records (process input allow out).1 = corpus_records out.
Proof.
  unfold process_one. destruct (produced input); [|done]. destruct (is_mostly_binary _); [done|]. destruct (referred _); [|done].
  cbn -[classify]. unfold record_verdict. by destruct (classify _ _ _ _ _) as [[| |] ponly], (_ || _).
Qed.

Definition corpus_record_of (input : CorpusInput) : CorpusRecord := mkCorpusRecord (ci_probes input) (kind_of input).

Lemma run_one_adds allow out input :
  let out' := run_one allow out input in
  adds allow input (totals out) (totals out') /\ total (totals out') = S (total (totals out)) /\
  corpus_records out' = corpus_records out ++ (if is_corpus input then [corpus_record_of input] else []).
Proof.
  unfold run_input. set (o1 := mkOutcome _ _ _ ({[_]} ∪ _) _).
  pose proof (process_adds input allow o1) as [Ha Ht]. pose proof (process_records input allow o1) as Hr.
  pose proof (process_kind input allow o1) as Hk. destruct (process input allow o1) as [o2 k]. cbn in *. subst k.
  destruct (is_corpus input); cbn; rewrite ?Hr, ?app_nil_r; done.
Qed.

Lemma run_all_adds allow inputs : forall out,
  let out' := fold_left (run_one allow) inputs out in
  (total (totals out') = total (totals out) + length inputs)%nat /\
  hard (totals out') = (hard (totals out) + sum_of (count_hard allow) inputs)%nat /\
  soft (totals out') = (soft (totals out) + sum_of (count_soft allow) inputs)%nat /\
  matched (totals out') = (matched (totals out) + sum_of (count_match allow) inputs)%nat /\
  skipped (totals out') = (skipped (totals out) + sum_of (count_kind SanitizeSkip) inputs + sum_of (count_kind BinarySkip) inputs)%nat /\
  ref_error (totals out') = (ref_error (totals out) + sum_of (count_kind RefError) inputs)%nat /\
  compared_nonempty (totals out') = (compared_nonempty (totals out) + sum_of (count_kind ComparedNonempty) inputs)%nat /\
  corpus_records out' = corpus_records out ++ map corpus_record_of (filter (fun i => is_corpus i = true) inputs).
Proof.
  induction inputs as [|input inputs IH]; intros out; cbn [fold_left sum_of foldr length map]; [cbn; rewrite app_nil_r; repeat split; lia|].
  destruct (run_one_adds allow out input) as (Ha & Ht & Hr). destruct (IH (run_one allow out input)) as (I0 & I1 & I2 & I3 & I4 & I5 & I6 & I7).
  destruct Ha as (H1 & H2 & H3 & H4 & H5 & H6). cbn zeta in *. unfold sum_of in *.
  split_and!; [lia..|]. rewrite I7, Hr, <- app_assoc. f_equal. rewrite filter_cons. destruct (is_corpus input) eqn:E; [by rewrite decide_True|].
  by rewrite decide_False by done.
Qed.

Lemma sum_of_zero f inputs : sum_of f inputs = 0%nat <-> Forall (fun i => f i = 0%nat) inputs.
Proof. induction inputs as [|i inputs IH]; cbn; [by split; constructor|]. rewrite Forall_cons, <- IH. unfold sum_of. lia. Qed.

Lemma run_totals allow inputs :
  let o := all_inputs inputs allow in
  hard (totals o) = sum_of (count_hard allow) inputs /\
  compared_nonempty (totals o) = sum_of (count_kind ComparedNonempty) inputs /\
  corpus_records o = map corpus_record_of (filter (fun i => is_corpus i = true) inputs).
Proof. destruct (run_all_adds allow inputs no_outcome) as (_ & T1 & _ & _ & _ & _ & T6 & T7). cbn in T1, T6, T7. by split_and!. Qed.

(** Every document is counted once: as a match, as an explained or a silent
    drop, as skipped or as an error of the reference. *)
Theorem run_inputs_account inputs allow :
  let t := totals (all_inputs inputs allow) in
  total t = length inputs /\ total t = (hard t + soft t + matched t + skipped t + ref_error t)%nat /\
  (compared_nonempty t <= hard t + soft t + matched t)%nat.
Proof.
  destruct (run_all_adds allow inputs no_outcome) as (T0 & T1 & T2 & T3 & T4 & T5 & T6 & _).
  intros t. cbn in T0, T1, T2, T3, T4, T5, T6. unfold t, run_inputs.
  rewrite T0, T1, T2, T3, T4, T5, T6. split; [done|]. clear. induction inputs as [|i inputs IH]; [by cbn|].
  assert (Hone : (count_hard allow i + count_soft allow i + count_match allow i + (count_kind SanitizeSkip i + count_kind BinarySkip i) + count_kind RefError i = 1 /\
                  count_kind ComparedNonempty i <= count_hard allow i + count_soft allow i + count_match allow i)%nat).
  { unfold count_hard, count_soft, count_match, count_kind, judged, kind_of, compared.
    destruct (produced i); [|cbn; repeat case_decide; done || lia]. destruct (is_mostly_binary _); [cbn; repeat case_decide; done || lia|].
    destruct (referred _) as [refx|]; [|cbn; repeat case_decide; done || lia]. cbn -[classify].
    destruct (classify _ _ _ _ _) as [[| |] ponly], (says_something refx); cbn; repeat case_decide; done || lia. }
  cbn [sum_of foldr length]. fold (sum_of (count_hard allow) inputs) (sum_of (count_soft allow) inputs) (sum_of (count_match allow) inputs)
    (sum_of (count_kind SanitizeSkip) inputs) (sum_of (count_kind BinarySkip) inputs) (sum_of (count_kind RefError) inputs) (sum_of (count_kind ComparedNonempty) inputs).
  lia.
Qed.

(** Nothing the reference reads in a document is dropped without a word. *)
Definition no_silent_drop (allow : gmap rstr (gset rstr)) (input : CorpusInput) : Prop :=
  forall prod refx, compared input = Some (prod, refx) ->
  (exists t, silently_dropped to_lowercase url_parse prod refx (tokens_for allow (ci_id input)) t) ->
  exists w, w ∈ hr_warnings prod /\ code w ∈ DROP_EXPLAINING.

Lemma hard_or_shown allow input : count_hard allow input = 0%nat -> no_silent_drop allow input.
Proof.
  intros Hc prod refx Hcmp (t & Ht). unfold count_hard, judged in Hc. rewrite Hcmp in Hc. cbn -[classify] in Hc.
  pose proof (classify_verdict to_lowercase url_parse prod refx (tokens_for allow (ci_id input))) as Hv.
  destruct (classify _ _ _ _ _) as [[| |] ponly]; cbn in *; [by apply Hv in Ht | by apply Hv | done].
Qed.

Lemma oracle_exit_zero report inert : oracle_exit report inert = 0 ->
  hard (rp_totals report) = 0%nat /\ inert = false /\
  forall c, rp_corpus report = Some c -> floor_breach c = None /\ canary_failures c = [].
Proof.
  unfold oracle_exit. destruct (Nat.ltb_spec 0 (hard (rp_totals report))) as [Hlt|Hge], inert, (rp_corpus report) as [c|];
    try (destruct (floor_breach c) eqn:Ef, (canary_failures c) eqn:Ec); try done; intros _;
    (split; [lia|]; split; [done|]; intros c' [=]; subst; done).
Qed.

Lemma sum_of_pos k inputs : sum_of (count_kind k) inputs <> 0%nat -> Exists (fun i => kind_of i = k) inputs.
Proof.
  induction inputs as [|i inputs IH]; [done|]. cbn. intros Hs. destruct (decide (kind_of i = k)) as [E|E]; [by left|].
  right. apply IH. unfold count_kind in Hs at 1. rewrite decide_False in Hs by done. exact Hs.
Qed.

(** What exit code 0 of the oracle means: help was asked for, or nothing the
    reference reads in any document was dropped without a warning or an
    allowlisted reason, some document was really compared, and, with an
    external corpus, at least as many of its documents as the floor asks, and
    the canaries that are present do what they are there for. *)
Theorem green_run argv epvme_env corpus_env :
  oracle_main argv epvme_env corpus_env = 0 ->
  parse_args_from manifest_dir debug_str argv epvme_env corpus_env = Help \/
  exists args allow inputs,
    parse_args_from manifest_dir debug_str argv epvme_env corpus_env = Run args /\ assemble_inputs args = Ok inputs /\
    Forall (no_silent_drop allow) inputs /\
    Exists (fun i => kind_of i = ComparedNonempty) inputs /\
    (corpus_root args <> None ->
     let records := map corpus_record_of (filter (fun i => is_corpus i = true) inputs) in
     (forall n, corpus_min_compared args = Some n -> n <= Z.of_nat (length (filter (fun r => cr_kind r = ComparedNonempty) records))) /\
     Forall (fun f => family_healthy records f ComparedNonempty) TEXT_TOKEN_FAMILIES /\ family_healthy records BINARY_FAMILY BinarySkip).
Proof.
  unfold oracle_main. destruct (parse_args_from _ _ _ _ _) as [args| |]; [|by left|done].
  destruct (assemble_allowlist _ _) as [allow|]; [|done]. destruct (assemble_inputs args) as [inputs|] eqn:Hin; [|done].
  destruct (make_report args allow inputs) as [report inert] eqn:Hr. destruct (write _ _); [|done].
  intros (Hh & -> & Hc)%oracle_exit_zero. right. exists args, allow, inputs.
  destruct (run_totals allow inputs) as (Th & Tc & Tr). unfold make_report in Hr.
  destruct (totals (all_inputs inputs allow)) as [t h sf m sk e c st]. cbn in Th, Tc. injection Hr as <- Hinert. cbn in Hh.
  split_and!; [done|done| | |].
  - rewrite Hh in Th. symmetry in Th. apply sum_of_zero in Th. eapply Forall_impl; [exact Th|]. apply hard_or_shown.
  - apply sum_of_pos. intros E. rewrite Tc, E in Hinert. done.
  - intros Hroot. destruct (corpus_root args) as [root|]; [|done]. destruct (Hc _ eq_refl) as [Hfloor Hcan]. cbn in Hfloor, Hcan.
    rewrite Tr in Hfloor, Hcan. split; [|by apply canaries_healthy].
    intros n Hn. rewrite Hn, corpus_report_compared in Hfloor. unfold check_floor in Hfloor. cbn in Hfloor.
    destruct (Z.ltb_spec (Z.of_nat (length (filter (fun r => cr_kind r = ComparedNonempty) (map corpus_record_of (filter (fun i => is_corpus i = true) inputs))))) n); [done|lia].
Qed.
End program.

(** ** On concrete input *)

Example replacement_soup_is_binary :
  is_mostly_binary ([0xFFFD; 0xFFFD; 0xFFFD] ++ lit "abc") = true /\ is_mostly_binary (lit "   ") = false /\
  is_mostly_binary (lit "a normal sentence with one " ++ [0xFFFD] ++ lit " glitch") = false.
Proof. by vm_compute. Qed.
Example binary_canary_tolerates_a_clean_part :
  check_canaries [mkCorpusRecord [lit "binary-part"] BinarySkip; mkCorpusRecord [lit "binary-part"] ComparedNonempty] = [] /\
  length (check_canaries [mkCorpusRecord [lit "binary-part"] SanitizeSkip; mkCorpusRecord [lit "entity-href"] ComparedEmpty]) = 2%nat.
Proof. by vm_compute. Qed.
Example a_floor_that_is_no_number_is_an_error :
  parse_args_from (lit "/m/html-oracle") id [lit "--limit"; lit "x"; lit "--corpus-min-compared"; lit "x"] None None =
    ArgError (lit "--corpus-min-compared expects a non-negative integer, got x") /\
  parse_args_from (lit "/m/html-oracle") id [lit "--corpus-root"; lit "/c"; lit "--limit"; lit "x"] None (Some (lit "/env")) =
    Run (mkOracleArgs (lit "/m") (lit "/m/html-oracle/report.json") None (Some (lit "/c")) None None).
Proof. by vm_compute. Qed.
Example metadata_beside_a_sample : with_extension (lit "c/a/msg.1.eml") (lit "meta.toml") = lit "c/a/msg.1.meta.toml".
Proof. by vm_compute. Qed.
