(* ===== verification/ContainerGate.v ===== *)
(** * The container gate of the test harnesses
    (crates/rimap-container-gate/src/lib.rs)

    Which container runtime a test uses, whether it can be used, and whether
    the pinned fixture image fits the host.  Spawned commands are observations:
    whether they could be spawned, how they ended, what they wrote. *)

From Stdlib Require Import ZArith Lia.
From stdpp Require Import base option list numbers strings.
From S2P Require Import Prelude RustStr.
Local Open Scope Z_scope.

(* [crates/rimap-container-gate/src/lib.rs:34-34] AUTODETECT_ORDER *)
Definition AUTODETECT_ORDER : list rstr := [lit "docker"; lit "podman"].
(* [crates/rimap-container-gate/src/lib.rs:39-39] DAEMON_PROBE_TIMEOUT *)
Definition DAEMON_PROBE_TIMEOUT : Z := 10000.

(* [crates/rimap-container-gate/src/lib.rs:46-54] RuntimeProbe *)
Inductive RuntimeProbe := Ready | NoBinary | DaemonDown.
#[export] Instance RuntimeProbe_eq_dec : EqDecision RuntimeProbe.
Proof. solve_decision. Defined.

(* [crates/rimap-container-gate/src/lib.rs:90-98] unusable_reason *)
Definition unusable_reason (tool : rstr) (probe : RuntimeProbe) : option rstr :=
  match probe with
  | Ready => None
  | NoBinary => Some (tool ++ lit " is not installed")
  | DaemonDown => Some (tool ++ lit " is installed but its daemon is unreachable")
  end.

(* [crates/rimap-container-gate/src/lib.rs:150-156] explicit_tool *)
Definition explicit_tool (value : option rstr) : option rstr :=
  match value with
  | Some v =>
      if str_eqb v (lit "docker") then Some (lit "docker") else if str_eqb v (lit "podman") then Some (lit "podman") else None
  | None => None
  end.

(* [crates/rimap-container-gate/src/lib.rs:161-166] failure_rank *)
Definition failure_rank (p : RuntimeProbe) : Z := match p with DaemonDown => 1 | Ready | NoBinary => 0 end.

(** The loop over the runtimes: the tools probed, in order, and the verdict. *)
(* [crates/rimap-container-gate/src/lib.rs:134-144] select_runtime *)
Fixpoint autodetect (probe : rstr -> RuntimeProbe) (tools probed_so_far : list rstr) (verdict : option (rstr * RuntimeProbe))
    : list rstr * (rstr * RuntimeProbe) :=
  match tools with
  | [] => (probed_so_far, default (lit "docker", NoBinary) verdict)
  | tool :: tools =>
      let probed := probe tool in
      if decide (probed = Ready) then (probed_so_far ++ [tool], (tool, probed))
      else autodetect probe tools (probed_so_far ++ [tool])
             (match verdict with
              | Some (_, seen) => if failure_rank seen <? failure_rank probed then Some (tool, probed) else verdict
              | None => Some (tool, probed)
              end)
  end.

(** With the runtimes it probed. *)
(* [crates/rimap-container-gate/src/lib.rs:127-145] select_runtime *)
Definition select_runtime (override_tool : option rstr) (probe : rstr -> RuntimeProbe) : list rstr * (rstr * RuntimeProbe) :=
  match explicit_tool override_tool with
  | Some tool => ([tool], (tool, probe tool))
  | None => autodetect probe AUTODETECT_ORDER [] None
  end.

(** ** The daemon probe *)

(** One look at a child, and what the wait leaves it as. *)
Inductive polled := Exited (success : bool) | StillRunning | WaitError.
Inductive waited := Finished (success : bool) | KilledAndReaped | Abandoned.

(** The clock and the child at each look; a look that finds it running before
    the deadline sleeps and looks again. *)
(* [crates/rimap-container-gate/src/lib.rs:356-375] wait_bounded *)
Fixpoint wait_loop (fuel : nat) (now : nat -> Z) (try_wait : nat -> polled) (deadline : Z) (k : nat) : option waited :=
  match fuel with
  | O => None
  | S fuel =>
      match try_wait k with
      | Exited status => Some (Finished status)
      | StillRunning => if now k <? deadline then wait_loop fuel now try_wait deadline (S k) else Some KilledAndReaped
      | WaitError => Some Abandoned
      end
  end.
(* [crates/rimap-container-gate/src/lib.rs:356-375] wait_bounded *)
Definition wait_bounded (fuel : nat) (start : Z) (now : nat -> Z) (try_wait : nat -> polled) (budget : Z) : option waited :=
  wait_loop fuel now try_wait (start + budget) 0.

(** The status the wait returns: none when the child was killed or abandoned. *)
Definition status_of (w : waited) : option bool := match w with Finished s => Some s | _ => None end.

(** With what [read_to_string] left in the buffer of the pipe, if there was one. *)
(* [crates/rimap-container-gate/src/lib.rs:333-350] run_daemon_probe *)
Definition run_daemon_probe (spawned : option waited) (stderr : option rstr) : option (bool * rstr) :=
  w ← spawned; success ← status_of w;
  Some (success, default [] stderr).

Section lowercase.
(** [str::to_lowercase] *)
Context (to_lowercase : rstr -> rstr).

(* [crates/rimap-container-gate/src/lib.rs:204-212] names_unreachable_engine *)
Definition names_unreachable_engine (stderr : rstr) : bool :=
  let s := to_lowercase stderr in
  contains (lit "failed to connect to the docker api") s
  || contains (lit "cannot connect to the docker daemon") s
  || contains (lit "is the docker daemon running") s
  || contains (lit "cannot connect to podman") s
  || contains (lit "connect: no such file or directory") s
  || contains (lit "connection refused") s.

(* [crates/rimap-container-gate/src/lib.rs:193-198] classify_probe *)
Definition classify_probe (outcome : option (bool * rstr)) : RuntimeProbe :=
  match outcome with
  | Some (false, stderr) => if names_unreachable_engine stderr then DaemonDown else Ready
  | _ => Ready
  end.

(** What spawning a tool gives: its version's exit status, if it could be run,
    and the daemon probe. *)
Record host_tool := mkHostTool { version : option bool; daemon : option (bool * rstr) }.

(* [crates/rimap-container-gate/src/lib.rs:178-184] binary_present *)
Definition binary_present (t : host_tool) : bool := match version t with Some success => success | None => false end.

(* [crates/rimap-container-gate/src/lib.rs:170-176] probe_tool *)
Definition probe_tool (t : host_tool) : RuntimeProbe :=
  if binary_present t then classify_probe (daemon t) else NoBinary.
End lowercase.

(** ** The fixture image *)

(* [crates/rimap-container-gate/src/lib.rs:223-229] oci_arch_name *)
Definition oci_arch_name (arch : rstr) : option rstr :=
  if str_eqb arch (lit "aarch64") then Some (lit "arm64")
  else if str_eqb arch (lit "x86_64") then Some (lit "amd64") else None.

(* [crates/rimap-container-gate/src/lib.rs:235-246] arch_mismatch_reason *)
Definition arch_mismatch_reason (image_ref image_arch host_arch : rstr) : option rstr :=
  if str_eqb image_arch host_arch then None
  else Some (lit "fixture image " ++ image_ref ++ lit " is linux/" ++ image_arch ++ lit " but this host is " ++ host_arch ++
    lit ": the container would run under emulation, which breaks the fixture (doveadm auth-userdb disconnects, TLS handshake EOFs). Re-pin the compose image to a manifest whose architecture list covers " ++
    host_arch ++ lit ".").

(** [str::lines]: split at line feeds, a carriage return before one is
    dropped, and so is an empty piece after the last. *)
Definition strip_cr (l : rstr) : rstr := match strip_suffix [13] l with Some l' => l' | None => l end.
Fixpoint feed_lines (pieces : list rstr) : list rstr :=
  match pieces with
  | [] => []
  | [lastp] => if str_eqb lastp [] then [] else [lastp]
  | p :: ps => strip_cr p :: feed_lines ps
  end.
Definition str_lines (s : rstr) : list rstr := feed_lines (split_on 10 s).

(* [crates/rimap-container-gate/src/lib.rs:261-286] pinned_image *)
Fixpoint scan_pin (service_key : rstr) (lines : list rstr) (in_service : bool) : option rstr :=
  match lines with
  | [] => None
  | line :: lines =>
      if negb (starts_with (lit " ") line) then scan_pin service_key lines false
      else if starts_with (lit "  ") line && negb (starts_with (lit "   ") line) then
        scan_pin service_key lines (str_eqb (trim line) service_key)
      else if in_service then
        match strip_prefix (lit "image:") (drop_while is_whitespace line) with
        | Some value =>
            let value := trim value in
            if existsb (fun c => bool_decide (c ∈ [34; 35; 36])) value then None
            else if negb (bool_decide (value = [])) then Some value
            else scan_pin service_key lines in_service
        | None => scan_pin service_key lines in_service
        end
      else scan_pin service_key lines in_service
  end.

(* [crates/rimap-container-gate/src/lib.rs:257-288] pinned_image *)
Definition pinned_image (compose : option rstr) (service : rstr) : option rstr :=
  text ← compose; scan_pin (service ++ lit ":") (str_lines text) false.

(** The local image's architecture, as [image inspect] printed it. *)
(* [crates/rimap-container-gate/src/lib.rs:300-326] image_arch *)
Definition image_arch (spawned : option waited) (stdout : option rstr) : option rstr :=
  '(success, text) ← run_daemon_probe spawned stdout;
  if negb success then None
  else let arch := trim text in if bool_decide (arch = []) then None else Some arch.

(** ** What the gate promises *)

(** A named runtime is used as it is and nothing else is probed; otherwise
    the first runtime of the order that is ready is used and those after it are
    not probed; when none is ready, all are probed and the one reported is a
    runtime of the order with its own verdict, the first whose failure tells
    most. *)
Theorem select_runtime_spec override probe :
  let '(probed, (tool, verdict)) := select_runtime override probe in
  verdict = probe tool /\
  match explicit_tool override with
  | Some t => tool = t /\ probed = [t] /\ override = Some t
  | None =>
      exists before after, AUTODETECT_ORDER = before ++ tool :: after /\
      (if decide (verdict = Ready)
       then probed = before ++ [tool] /\ Forall (fun t => probe t <> Ready) before
       else probed = AUTODETECT_ORDER /\ Forall (fun t => probe t <> Ready) AUTODETECT_ORDER /\
            Forall (fun t => failure_rank (probe t) < failure_rank verdict) before /\
            Forall (fun t => failure_rank (probe t) <= failure_rank verdict) after)
  end.
Proof.
  unfold select_runtime. destruct (explicit_tool override) as [t|] eqn:He.
  { split_and!; try done. destruct override as [v|]; [|done]. simpl in He.
    destruct (str_eqb v (lit "docker")) eqn:E1; [|destruct (str_eqb v (lit "podman")) eqn:E2];
      simplify_eq; by f_equal; apply str_eqb_eq. }
  unfold AUTODETECT_ORDER, autodetect. set (d := lit "docker"). set (q := lit "podman").
  destruct (probe d) eqn:Ed; [|destruct (probe q) eqn:Eq..]; simpl; rewrite ?Ed, ?Eq; (split; [done|]);
    first [exists [], [q]; by simpl; repeat constructor; rewrite ?Ed, ?Eq
          |exists [d], []; by simpl; repeat constructor; rewrite ?Ed, ?Eq].
Qed.

(** The wait: every look sleeps at least fifty milliseconds after the last. *)
Section wait.
Context (now : nat -> Z) (try_wait : nat -> polled).
Hypothesis sleeps : forall k, now k + 50 <= now (S k).

Lemma wait_loop_ends deadline fuel : forall k,
  deadline - now k < 50 * Z.of_nat fuel ->
  exists w, wait_loop (S fuel) now try_wait deadline k = Some w.
Proof.
  induction fuel as [|fuel IH]; intros k Hk; cbn [wait_loop]; destruct (try_wait k); eauto.
  - destruct (Z.ltb_spec (now k) deadline); [lia|eauto].
  - destruct (now k <? deadline); [|eauto]. apply IH. specialize (sleeps k). lia.
Qed.
End wait.

Lemma wait_loop_seen now try_wait deadline fuel : forall k w,
  wait_loop fuel now try_wait deadline k = Some w ->
  exists n, (k <= n)%nat /\ (forall i, (k <= i < n)%nat -> try_wait i = StillRunning) /\
    match w with
    | Finished status => try_wait n = Exited status
    | KilledAndReaped => try_wait n = StillRunning /\ deadline <= now n
    | Abandoned => try_wait n = WaitError
    end.
Proof.
  induction fuel as [|fuel IH]; intros k w; simpl; [done|]. destruct (try_wait k) eqn:Ht; intros Hw; simplify_eq.
  - exists k. split_and!; [lia|lia|done].
  - destruct (Z.ltb_spec (now k) deadline); simplify_eq.
    + destruct (IH _ _ Hw) as (n & Hn & Hbefore & Hend). exists n. split_and!; [lia| |done].
      intros i Hi. destruct (decide (i = k)) as [->|]; [done|]. apply Hbefore. lia.
    + exists k. split_and!; [lia|lia|done..].
  - exists k. split_and!; [lia|lia|done].
Qed.

(** The wait for a probe ends, whatever the child does, after at most one
    look for each fifty milliseconds of the budget and two more; it reports a
    status only when the child exited with it, and it kills the child only when
    a look at or after the deadline still found it running. *)
Theorem wait_bounded_ends now try_wait start budget :
  0 <= budget -> start <= now 0%nat -> (forall k, now k + 50 <= now (S k)) ->
  exists w, wait_bounded (Z.to_nat (budget / 50) + 2) start now try_wait budget = Some w /\
    exists n, (forall i, (i < n)%nat -> try_wait i = StillRunning) /\
      match w with
      | Finished status => try_wait n = Exited status
      | KilledAndReaped => try_wait n = StillRunning /\ start + budget <= now n
      | Abandoned => try_wait n = WaitError
      end.
Proof.
  intros Hb Hs Hsleeps. unfold wait_bounded.
  replace (Z.to_nat (budget / 50) + 2)%nat with (S (Z.to_nat (budget / 50) + 1)) by lia.
  destruct (wait_loop_ends now try_wait Hsleeps (start + budget) (Z.to_nat (budget / 50) + 1) 0) as [w Hw].
  { pose proof (Z.mod_pos_bound budget 50). pose proof (Z.div_mod budget 50). pose proof (Z.div_pos budget 50). lia. }
  exists w. split; [done|]. destruct (wait_loop_seen _ _ _ _ _ _ Hw) as (n & _ & Hbefore & Hend).
  exists n. split; [|done]. intros i Hi. apply Hbefore. lia.
Qed.

Lemma wait_bounded_ends_witness :
  0 <= DAEMON_PROBE_TIMEOUT /\
  exists w, wait_bounded 202 7 (fun k => 7 + 60 * Z.of_nat k) (fun k => StillRunning) DAEMON_PROBE_TIMEOUT = Some w.
Proof.
  split; [unfold DAEMON_PROBE_TIMEOUT; lia|].
  destruct (wait_bounded_ends (fun k => 7 + 60 * Z.of_nat k) (fun k => StillRunning) 7 DAEMON_PROBE_TIMEOUT) as (w & Hw & _);
    [unfold DAEMON_PROBE_TIMEOUT; lia | simpl; lia | intros k; lia | exists w; exact Hw].
Defined.

(** A line that ends no service, and one that opens the service [key]. *)
Definition service_level (line : rstr) : bool := starts_with (lit "  ") line && negb (starts_with (lit "   ") line).
Definition inside (line : rstr) : Prop := starts_with (lit " ") line = true /\ service_level line = false.
Definition opens (key line : rstr) : Prop :=
  starts_with (lit " ") line = true /\ service_level line = true /\ trim line = key.
Definition plain_reference (v : rstr) : Prop := v <> [] /\ Forall (fun c => ~ c ∈ [34; 35; 36]) v.

(** The line, among those of a service, that gives the image. *)
Definition pin_line (lines : list rstr) (v : rstr) : Prop :=
  exists mid line post value, lines = mid ++ line :: post /\ Forall inside (mid ++ [line]) /\ plain_reference v /\
    strip_prefix (lit "image:") (drop_while is_whitespace line) = Some value /\ trim value = v.

Definition pinned_in (key : rstr) (lines : list rstr) (v : rstr) : Prop :=
  exists pre header rest, lines = pre ++ header :: rest /\ opens key header /\ pin_line rest v.

Lemma pinned_in_cons key line lines v : pinned_in key lines v -> pinned_in key (line :: lines) v.
Proof. intros (pre & header & rest & -> & H). by exists (line :: pre), header, rest. Qed.

Lemma pin_line_cons line lines v : inside line -> pin_line lines v -> pin_line (line :: lines) v.
Proof.
  intros Hi (mid & l & post & value & -> & Hin & H). exists (line :: mid), l, post, value.
  split_and!; [done| |apply H..]. by constructor.
Qed.

Lemma plain_value value :
  existsb (fun c => bool_decide (c ∈ [34; 35; 36])) value = false -> value <> [] -> plain_reference value.
Proof.
  intros Hc Hne. split; [done|]. apply Forall_forall. intros c Hin Hq.
  apply not_true_iff_false in Hc. apply Hc, existsb_exists. exists c.
  split; [by apply list_elem_of_In | by apply bool_decide_eq_true].
Qed.

Lemma scan_pin_spec key lines v : forall in_service, scan_pin key lines in_service = Some v ->
  (in_service = true /\ pin_line lines v) \/ pinned_in key lines v.
Proof.
  induction lines as [|line lines IH]; intros b; cbn [scan_pin]; [done|].
  fold (service_level line). destruct (starts_with (lit " ") line) eqn:Hs; cbn [negb].
  2:{ intros [[? _]|]%IH; [done|]. right. by apply pinned_in_cons. }
  destruct (service_level line) eqn:Hl.
  { intros [[Hk Hp]|]%IH; right; [|by apply pinned_in_cons].
    exists [], line, lines. split_and!; [done| |done]. by apply str_eqb_eq in Hk. }
  assert (Hskip : forall b', scan_pin key lines b' = Some v -> (b' = true /\ pin_line (line :: lines) v) \/ pinned_in key (line :: lines) v).
  { intros b' [[-> Hp]|Hp]%IH; [left; split; [done|by apply pin_line_cons] | right; by apply pinned_in_cons]. }
  destruct b; [|by apply Hskip].
  destruct (strip_prefix _ _) as [value|] eqn:Hv; [|by apply Hskip].
  destruct (existsb _ _) eqn:Hc; [done|]. case_bool_decide as Hne; [by apply Hskip|]. cbn [negb]. intros [= <-].
  left. split; [done|]. exists [], line, lines, value. split_and!; try done; [by repeat constructor | by apply plain_value].
Qed.

(** The image a compose file pins for a service is the plain value of an
    [image:] line of that service: below the line that opens the service, with
    no line of the level of a service or of the top in between, not empty, and
    with no quote, comment or interpolation in it. *)
Theorem pin_from_service text service v :
  pinned_image (Some text) service = Some v -> pinned_in (service ++ lit ":") (str_lines text) v.
Proof. intros [[? _]|]%scan_pin_spec; done. Qed.

Definition newline : rstr := [10].
Definition sample_compose : rstr :=
  lit "services:" ++ newline ++ lit "  mail:" ++ newline ++ lit "    image: smtp@sha256:1" ++ newline ++
  lit "  dovecot:" ++ newline ++ lit "    container_name: d" ++ newline ++ lit "    image: imap@sha256:2" ++ newline.

Lemma pin_from_service_witness :
  pinned_image (Some sample_compose) (lit "dovecot") = Some (lit "imap@sha256:2") /\
  pinned_in (lit "dovecot:") (str_lines sample_compose) (lit "imap@sha256:2").
Proof.
  assert (H : pinned_image (Some sample_compose) (lit "dovecot") = Some (lit "imap@sha256:2")) by (vm_compute; reflexivity).
  split; [exact H | exact (pin_from_service _ _ _ H)].
Defined.

Section classify.
Context (to_lowercase : rstr -> rstr).
(** [str::to_lowercase] is the ASCII one on ASCII text. *)
Context (lower_ascii : forall s, Forall (fun c => is_ascii c = true) s -> to_lowercase s = to_ascii_lowercase s).

(** What compose still says of a daemon that is not there, in any case. *)
Lemma cannot_connect_is_down tool s :
  Forall (fun c => is_ascii c = true) s -> version tool = Some true -> daemon tool = Some (false, s) ->
  contains (lit "cannot connect to the docker daemon") (to_ascii_lowercase s) = true ->
  probe_tool to_lowercase tool = DaemonDown.
Proof.
  intros Ha Hv Hd Hc. unfold probe_tool, binary_present. rewrite Hv, Hd. unfold classify_probe, names_unreachable_engine.
  rewrite (lower_ascii _ Ha), Hc, orb_true_r. done.
Qed.
End classify.
