(* ===== verification/Retrieval.v ===== *)
(** * The fetch_message tool
    (crates/rimap-server/src/tools: content_parse.rs, fetch_by_uid.rs,
    retrieval/fetch_message.rs; mcp/response.rs)

    The handler over the parser; what the server returns for a body is an
    argument. *)

From Stdlib Require Import ZArith Lia.
From stdpp Require Import base option list numbers strings gmap.
From S2P Require Import Prelude RustStr Errors Names Content Unicode ContentMeta Lookalike Html Parse Validation.
Local Open Scope Z_scope.

(* [crates/rimap-server/src/mcp/response.rs:20-31] ToolResponse *)
Record ToolResponse (M U : Type) := mkResponse { resp_meta : M; resp_untrusted : option U; resp_warnings : list SecurityWarning }.
Arguments mkResponse {M U} _ _ _.
Arguments resp_meta {M U} _.
Arguments resp_untrusted {M U} _.
Arguments resp_warnings {M U} _.

(* [crates/rimap-server/src/mcp/response.rs:38-44] ToolResponse::meta_only *)
Definition meta_only {M U} (meta : M) : ToolResponse M U := mkResponse meta None [].
(* [crates/rimap-server/src/mcp/response.rs:48-51] ToolResponse::with_untrusted *)
Definition with_untrusted {M U} (r : ToolResponse M U) (u : U) : ToolResponse M U := mkResponse (resp_meta r) (Some u) (resp_warnings r).
(* [crates/rimap-server/src/mcp/response.rs:55-58] ToolResponse::with_warnings *)
Definition with_warnings {M U} (r : ToolResponse M U) (ws : list SecurityWarning) : ToolResponse M U :=
  mkResponse (resp_meta r) (resp_untrusted r) ws.

(** ** Errors of the parser *)

(* [crates/rimap-content/src/error.rs:13-40] ContentError *)
Definition content_error_message (e : ContentError) : rstr :=
  match e with
  | Malformed reason => lit "malformed message: " ++ reason
  | LimitExceeded kind limit => lit "content limit exceeded: " ++ kind ++ lit " (limit=" ++ to_decimal limit ++ lit ")"
  | ParserPanic => lit "third-party MIME parser panicked on input"
  end.

(* [crates/rimap-server/src/tools/content_parse.rs:23-45] classify_content_error *)
Definition classify_content_error (err : ContentError) : RimapError :=
  match err with
  | LimitExceeded kind limit => RAttachmentTooLarge kind limit
  | Malformed _ => invalid_input (content_error_message err)
  | ParserPanic => invalid_input (content_error_message err)
  end.

(** How the blocking task ends: its result, its panic, or a closed semaphore. *)
Inductive Blocking (A : Type) := Finished (r : result ContentError A) | TaskPanicked | SemaphoreClosed.
Arguments Finished {A} _.
Arguments TaskPanicked {A}.
Arguments SemaphoreClosed {A}.

(* [crates/rimap-server/src/tools/content_parse.rs:109-126] run_on_blocking_pool *)
Definition run_on_blocking_pool {A} (work : Blocking A) : result RimapError A :=
  match work with
  | SemaphoreClosed => Err (RInternalSourced (lit "parse semaphore closed"))
  | Finished (Ok value) => Ok value
  | Finished (Err e) => Err (classify_content_error e)
  | TaskPanicked => Err (RInternalSourced (lit "spawn_blocking panicked"))
  end.

(** ** One message by UID *)

(* [crates/rimap-server/src/tools/fetch_by_uid.rs:46-58] first_or_not_found *)
Definition first_or_not_found {A} (messages : list A) (folder : rstr) (uid : Z) : result RimapError A :=
  match messages with
  | m :: _ => Ok m
  | [] => Err (RAuthz ENotFound (lit "message UID " ++ to_decimal uid ++ lit " not found in folder '" ++ folder ++ lit "'"))
  end.

(* [crates/rimap-server/src/tools/fetch_by_uid.rs:27-40] fetch_single_by_uid *)
Definition fetch_single_by_uid {A} (fetched : result RimapError (list A * option Z)) (folder : rstr) (uid : Z)
    : result RimapError (A * option Z) :=
  '(messages, uid_validity) ← fetched;
  msg ← first_or_not_found messages folder uid;
  Ok (msg, uid_validity).

(** ** fetch_message *)

(* [crates/rimap-server/src/tools/retrieval/fetch_message.rs:16-47] FetchMessageInput *)
Record FetchMessageInput := mkFetchInput {
  fm_folder : rstr; fm_uid : Z; include_html : option bool; max_body_bytes : option Z; include_headers : option (list rstr) }.

(* [crates/rimap-server/src/tools/retrieval/fetch_message.rs:51-62] FetchMessageMeta *)
Record FetchMessageMeta := mkFetchMeta {
  fmm_folder : rstr; fmm_uid : Z; fmm_message_id : option rstr; fmm_size : Z; truncated : bool }.

(* [crates/rimap-server/src/tools/retrieval/fetch_message.rs:66-97] FetchMessageUntrusted *)
Record FetchMessageUntrusted := mkFetchUntrusted {
  fmu_body_text : rstr; fmu_body_html : option rstr; fmu_subject : option rstr; fmu_from : option rstr;
  fmu_to : list rstr; fmu_cc : list rstr; fmu_reply_to : option rstr; fmu_date : option Z;
  fmu_attachments : list AttachmentMeta; fmu_headers : option (gmap rstr (list rstr)) }.

Section fetch_message.
Context `{UnicodeLib, DomainLib} (debug_str : rstr -> rstr)
  (registrable : rstr -> option rstr) (parse_document : rstr -> list node) (ammonia_clean : rstr -> rstr)
  (mail_parser : list Z -> SafeParse).
Abbreviation parse := (parse_message_inner debug_str registrable parse_document ammonia_clean mail_parser).

(** [spoil] is what the blocking pool does to the work: nothing, or a failure. *)
Context (spoil : forall A, result ContentError A -> Blocking A).

(* [crates/rimap-server/src/tools/content_parse.rs:71-73] parse_message_async *)
Definition parse_message_async (raw : list Z) : result RimapError Content :=
  run_on_blocking_pool (spoil _ (parse_message debug_str registrable parse_document ammonia_clean mail_parser raw)).

(* [crates/rimap-server/src/tools/content_parse.rs:83-88] parse_message_with_headers_async *)
Definition parse_message_with_headers_async (raw : list Z) (wanted : list rstr) : result RimapError (Content * list SelectedHeader) :=
  run_on_blocking_pool (spoil _ (parse_message_with_headers debug_str registrable parse_document ammonia_clean mail_parser raw wanted)).

(** Cut to [max] bytes, with whether anything was cut. *)
Definition cap_text (max : option Z) (s : rstr) : rstr * bool :=
  match max with
  | Some m => if m <? str_len s then (truncate_graphemes s m, true) else (s, false)
  | None => (s, false)
  end.

(* [crates/rimap-server/src/tools/retrieval/fetch_message.rs:118-207] handle *)
Definition fetch_message (input : FetchMessageInput) (fetch_body : rstr -> Z -> result RimapError (list Z))
    : result RimapError (ToolResponse FetchMessageMeta FetchMessageUntrusted) :=
  _ ← validate_folder_input (lit "folder") (fm_folder input);
  wanted ← (match include_headers input with Some names => validate_include_headers debug_str names | None => Ok [] end);
  let requested_headers := bool_decide (is_Some (include_headers input)) in
  raw ← fetch_body (fm_folder input) (fm_uid input);
  '(content, selected) ← (match wanted with
    | [] => content ← parse_message_async raw; Ok (content, [])
    | _ => parse_message_with_headers_async raw wanted
    end);
  let headers := if requested_headers
    then Some (fold_left (fun (m : gmap rstr (list rstr)) h => <[sh_name h := sh_values h]> m) selected ∅) else None in
  let '(text, cut_text) := cap_text (max_body_bytes input) (body_text (untrusted content)) in
  let html := if default false (include_html input) then body_html (untrusted content) else None in
  let '(html, cut_html) :=
    match html with Some h => let '(h, c) := cap_text (max_body_bytes input) h in (Some h, c) | None => (None, false) end in
  Ok (with_warnings (with_untrusted (meta_only
        (mkFetchMeta (fm_folder input) (fm_uid input) (message_id (meta content)) (Z.of_nat (length raw))
           (body_truncated (meta content) || cut_text || cut_html)))
      (mkFetchUntrusted text html (subject (meta content)) (from (meta content)) (to (meta content)) (cc (meta content))
         (reply_to (meta content)) (date (meta content)) (attachments (meta content)) headers))
    (security_warnings content)).

(** ** Lemmas *)

Lemma cap_text_spec max s text cut : (forall m, max = Some m -> 0 <= m) -> cap_text max s = (text, cut) ->
  exists rest, s = text ++ rest /\ (cut = true <-> rest <> []) /\ (forall m, max = Some m -> str_len text <= m).
Proof.
  intros Hm. unfold cap_text. destruct max as [m|].
  - destruct (Z.ltb_spec m (str_len s)) as [Hl|Hl]; intros [= <- <-].
    + destruct (truncate_graphemes_spec s m (Hm m eq_refl)) as (Ht & [rest Hr] & _). exists rest.
      split; [done|]. split; [|by intros ? [= <-]]. split; [|done]. intros _ ->. rewrite app_nil_r in Hr. rewrite <- Hr in Ht. lia.
    + exists []. rewrite app_nil_r. split; [done|]. split; [done|]. by intros ? [= <-].
  - intros [= <- <-]. exists []. by rewrite app_nil_r.
Qed.

(** Only names that were asked for are selected, each with a value. *)
Lemma selected_wanted m raw wanted h : h ∈ (extract_selected_headers domain_to_ascii m raw wanted).1 ->
  sh_name h ∈ wanted /\ sh_values h <> [].
Proof.
  unfold extract_selected_headers. rewrite w_bind_fst, w_ret_fst, w_map_fst. intros (o & Ho & E)%list_elem_of_omap.
  cbn in E. subst o. apply list_elem_of_fmap in Ho as (name & E & Hn). unfold select_header in E.
  rewrite w_bind_fst, w_ret_fst, w_map_fst in E. destruct (omap id _) as [|v vs]; [done|]. by injection E as ->.
Qed.

Lemma collected_lookup (selected : list SelectedHeader) n vs : forall (m : gmap rstr (list rstr)),
  fold_left (fun (m : gmap rstr (list rstr)) h => <[sh_name h := sh_values h]> m) selected m !! n = Some vs ->
  m !! n = Some vs \/ exists h, h ∈ selected /\ sh_name h = n /\ sh_values h = vs.
Proof.
  induction selected as [|h selected IH]; intros m; cbn [fold_left]; [by left|].
  intros [Hl|(h' & Hh & E)]%IH; [|right; exists h'; split; [by right|done]].
  destruct (decide (sh_name h = n)) as [<-|Hne].
  - rewrite lookup_insert_eq in Hl. injection Hl as <-. right. exists h. split; [left|done].
  - rewrite lookup_insert_ne in Hl by done. by left.
Qed.

Lemma keep_headers_sublist names : forall seen kept, keep_headers debug_str seen names = Ok kept -> kept `sublist_of` names.
Proof.
  induction names as [|n names IH]; intros seen kept; cbn [keep_headers]; [by intros [= <-]|].
  intros ([] & _ & Hk)%bind_ok. case_bool_decide; [by constructor; eapply IH|].
  apply bind_ok in Hk as (rest & Hr & [= <-]). constructor. by eapply IH.
Qed.

Lemma include_headers_sublist names kept : validate_include_headers debug_str names = Ok kept ->
  kept `sublist_of` names /\ Z.of_nat (length names) <= MAX_INCLUDE_HEADERS.
Proof.
  unfold validate_include_headers. destruct (Z.ltb_spec MAX_INCLUDE_HEADERS (Z.of_nat (length names))); [done|].
  intros Hk. split; [by eapply keep_headers_sublist|done].
Qed.

Lemma parse_selected raw wanted content selected : parse raw wanted = Ok (content, selected) ->
  Forall (fun h => sh_name h ∈ wanted /\ sh_values h <> []) selected.
Proof.
  unfold parse_message_inner. destruct (_ <? _); [done|]. destruct (MimeScrub.scrub_header_smuggling raw) as [sc w1].
  destruct (mail_parser sc) as [m| |]; [|done|done]. intros (? & _ & Hk)%bind_ok.
  destruct (extract_meta _ _ _ _) as [meta w2]. apply bind_ok in Hk as ([b w3] & _ & Hk).
  destruct wanted as [|w wanted]; [by injection Hk as _ <-|].
  pose proof (selected_wanted m sc (w :: wanted)) as Hs. destruct (extract_selected_headers _ _ _ _) as [sel w5].
  injection Hk as _ <-. by apply Forall_forall.
Qed.

(** Both ways of calling the parser are one. *)
Lemma pool_ok {A} (work : result ContentError A) v : (forall A r r', spoil A r = Finished r' -> r' = r) ->
  run_on_blocking_pool (spoil A work) = Ok v -> work = Ok v.
Proof.
  intros Hspoil. unfold run_on_blocking_pool. destruct (spoil A work) as [[c|e]| |] eqn:Es; try done.
  intros [= ->]. symmetry. by apply Hspoil.
Qed.

Lemma parsed_either raw wanted content selected : (forall A r r', spoil A r = Finished r' -> r' = r) ->
  (match wanted with
   | [] => content ← parse_message_async raw; Ok (content, [])
   | _ => parse_message_with_headers_async raw wanted
   end) = Ok (content, selected) -> parse raw wanted = Ok (content, selected).
Proof.
  intros Hspoil Hp. destruct wanted as [|w wanted]; [|by apply pool_ok in Hp].
  apply bind_ok in Hp as (c & Hp & [= -> <-]). apply pool_ok in Hp; [|done]. unfold parse_message in Hp.
  destruct (parse raw []) as [[c' sel]|] eqn:Ep; [|done]. cbn in Hp. injection Hp as ->.
  apply parse_selected in Ep as Hs. destruct sel as [|h sel]; [done|].
  apply Forall_cons in Hs as [[Hin _] _]. by apply not_elem_of_nil in Hin.
Qed.

(** The requested headers as the response maps them. *)
Lemma headers_within (names wanted : list rstr) selected n vs :
  validate_include_headers debug_str names = Ok wanted ->
  Forall (fun h => sh_name h ∈ wanted /\ sh_values h <> []) selected ->
  Forall (clean MAX_HEADER_BYTES) (concat (map sh_values selected)) ->
  fold_left (fun (m : gmap rstr (list rstr)) h => <[sh_name h := sh_values h]> m) selected ∅ !! n = Some vs ->
  n ∈ names /\ vs <> [] /\ Forall (clean MAX_HEADER_BYTES) vs.
Proof.
  intros [Hsub _]%include_headers_sublist Hsel Hc Hl.
  apply collected_lookup in Hl as [Hl|(h & Hh & <- & <-)]; [by rewrite lookup_empty in Hl|].
  rewrite Forall_forall in Hsel. destruct (Hsel h Hh) as [Hin Hv]. split; [|split; [done|]].
  - by eapply elem_of_submseteq, sublist_submseteq.
  - rewrite Forall_concat, Forall_fmap, Forall_forall in Hc. by apply Hc.
Qed.

(** ** The property *)

(** What fetch_message returns is faithful to what the parser extracted.
    The trusted part names the requested folder and UID and the message's size;
    the text is the parser's, cut at a cluster to the caller's limit, and
    [truncated] is set exactly when the parser says so or something was cut;
    HTML appears only on request; headers appear exactly on request, for
    requested names only, at most sixteen; every text and header value is
    sanitised. *)
Theorem fetch_message_faithful input fetch_body r
  (Husize : forall bytes m, mail_parser bytes = Parsed m -> Z.of_nat (length (m_attachments m)) <= u64_max)
  (Hspoil : forall A r r', spoil A r = Finished r' -> r' = r) (Hmax : forall m, max_body_bytes input = Some m -> 0 <= m) :
  fetch_message input fetch_body = Ok r ->
  exists raw wanted content selected u text_rest html_rest,
    fetch_body (fm_folder input) (fm_uid input) = Ok raw /\ parse raw wanted = Ok (content, selected) /\
    resp_untrusted r = Some u /\
    fmm_folder (resp_meta r) = fm_folder input /\ fmm_uid (resp_meta r) = fm_uid input /\
    fmm_size (resp_meta r) = Z.of_nat (length raw) /\
    body_text (untrusted content) = fmu_body_text u ++ text_rest /\
    (forall m, max_body_bytes input = Some m -> str_len (fmu_body_text u) <= m) /\
    Forall (clean MAX_BODY_BYTES) (body_text (untrusted content) :: alternate_parts (untrusted content)) /\
    (if default false (include_html input)
     then body_html (untrusted content) = (fun h => h ++ html_rest) <$> fmu_body_html u
     else fmu_body_html u = None /\ html_rest = []) /\
    (truncated (resp_meta r) = true <->
       body_truncated (meta content) = true \/ text_rest <> [] \/ (fmu_body_html u <> None /\ html_rest <> [])) /\
    (fmu_headers u = None <-> include_headers input = None) /\
    (forall names headers, include_headers input = Some names -> fmu_headers u = Some headers ->
       Z.of_nat (length names) <= 16 /\
       forall n vs, headers !! n = Some vs -> n ∈ names /\ vs <> [] /\ Forall (clean MAX_HEADER_BYTES) vs).
Proof.
  unfold fetch_message. intros ([] & _ & Hk)%bind_ok. apply bind_ok in Hk as (wanted & Hw & Hk).
  apply bind_ok in Hk as (raw & Hraw & Hk). apply bind_ok in Hk as ([content selected] & Hp & Hk).
  apply parsed_either in Hp; [|done]. exists raw, wanted, content, selected.
  destruct (parse_content_clean _ _ _ _ _ _ _ _ _ Husize Hp) as (Hc & _ & Hh & _). apply Forall_app in Hh as [_ Hh].
  apply parse_selected in Hp as Hsel.
  destruct (cap_text (max_body_bytes input) (body_text (untrusted content))) as [text cut_text] eqn:Et.
  apply cap_text_spec in Et as (rest & Hr & Hcut & Hlen); [|done].
  set (html := if default false (include_html input) then _ else _) in *.
  assert (Hhtml : exists html' cut_html html_rest,
    (match html with Some h => let '(h, c) := cap_text (max_body_bytes input) h in (Some h, c) | None => (None, false) end)
      = (html', cut_html) /\ html = (fun h => h ++ html_rest) <$> html' /\ (html' = None -> html_rest = []) /\
    (cut_html = true <-> html' <> None /\ html_rest <> [])).
  { destruct html as [h|].
    - destruct (cap_text (max_body_bytes input) h) as [h' c] eqn:Eh. apply cap_text_spec in Eh as (hr & -> & Hc' & _); [|done].
      exists (Some h'), c, hr. rewrite Hc'. cbn. naive_solver.
    - exists None, false, []. naive_solver. }
  destruct Hhtml as (html' & cut_html & html_rest & Eh & Hhr & Hnone & Hcuth). cbv zeta in Hk. rewrite Eh in Hk.
  injection Hk as <-. eexists _, rest, html_rest. split; [done|]. split; [done|]. split; [done|].
  cbn [resp_meta with_warnings with_untrusted meta_only fmm_folder fmm_uid fmm_size truncated fmu_body_text fmu_body_html fmu_headers].
  split; [done|]. split; [done|]. split; [done|]. split; [done|]. split; [done|]. split; [done|]. split; [|split; [|split]].
  - unfold html in Hhr. destruct (default false _); [done|]. destruct html'; [done|]. auto.
  - rewrite !orb_true_iff, Hcut, Hcuth. tauto.
  - destruct (include_headers input); cbn; naive_solver.
  - intros names headers En. rewrite En in Hw. rewrite En. cbn. intros [= <-].
    split; [by apply include_headers_sublist in Hw as [_ ?]|]. intros n vs. by eapply headers_within.
Qed.
End fetch_message.

(** ** A call *)

#[local] Existing Instance latin_unicode.
#[local] Existing Instance latin_domains.

(** The sample message asked for with its HTML, four bytes of each body and two headers, one absent. *)
Definition sample_call : FetchMessageInput :=
  mkFetchInput (lit "INBOX") 7 (Some true) (Some 4) (Some [lit "Subject"; lit "X-None"; lit "SUBJECT"]).
Definition sample_fetch (folder : rstr) (uid : Z) : result RimapError (list Z) := Ok (lit "raw").
Abbreviation fetch_sample := (fetch_message Filename.plain_debug (fun _ => None) sample_document (fun s => s)
  (fun _ => Parsed sample_message) (fun A r => Finished r) sample_call sample_fetch).

Lemma fetch_message_faithful_witness : exists r u,
  fetch_sample = Ok r /\ resp_untrusted r = Some u /\ fmu_body_text u = lit "hell" /\ fmu_body_html u = Some (lit "<p>h") /\
  truncated (resp_meta r) = true /\ fmu_headers u = Some {[lit "Subject" := [lit "hi"]]} /\ fmm_size (resp_meta r) = 3.
Proof.
  destruct fetch_sample as [r|e] eqn:Er; [|vm_compute in Er; discriminate].
  destruct (fetch_message_faithful Filename.plain_debug (fun _ => None) sample_document (fun s => s) (fun _ => Parsed sample_message)
    (fun A r => Finished r) sample_call sample_fetch r) as (raw & wanted & content & selected & u & tr & hr & Hraw & _ & Hu & _ & _ & Hsize & _).
  - intros ? m [= <-]. apply Z.leb_le. reflexivity.
  - by intros A r1 r2 [= ->].
  - intros m [= <-]. apply Z.leb_le. reflexivity.
  - exact Er.
  - injection Hraw as <-. exists r, u. split; [done|]. split; [done|]. vm_compute in Er. injection Er as <-.
    cbn in Hu. injection Hu as <-. repeat (split; [vm_compute; reflexivity|]). exact Hsize.
Defined.
