(* ===== verification/Attachments.v ===== *)
(** * Listing and downloading attachments
    (crates/rimap-content/src/parse/raw_parts.rs, crates/rimap-server/src/tools/
    retrieval/list_attachments.rs, retrieval/download_attachment.rs)

    The parts of a parsed message by their IMAP numbers, the two handlers, and
    the agreement of the numbers one lists with those the other looks up. *)

From Stdlib Require Import ZArith Lia.
From stdpp Require Import base option list numbers strings gmap.
From S2P Require Import Prelude RustStr Errors Names Fetch Content Unicode Filename ContentMeta Html Parse Validation Sandbox Retrieval.
Local Open Scope Z_scope.

(** ** Parts by number *)

(* [crates/rimap-content/src/parse/raw_parts.rs:9-20] RawPart *)
Record RawPart := mkRawPart { rp_part_id : rstr; rp_body : list Z; rp_content_type : rstr; rp_filename : option rstr }.

Section raw_parts.
(** [str::to_lowercase], and the parser's [contents]. *)
Context (to_lowercase : rstr -> rstr) (contents : MessagePart -> list Z).

Definition declared_type (p : MessagePart) : rstr :=
  match part_content_type p with
  | Some (t, sub) => to_lowercase t ++ lit "/" ++ match sub with Some s => to_lowercase s | None => lit "octet-stream" end
  | None => lit "application/octet-stream"
  end.

(* [crates/rimap-content/src/parse/raw_parts.rs:112-139] part_to_raw *)
Definition part_to_raw (m : ContentMeta.Message) (idx : nat) (part_id : rstr) : result ContentError RawPart :=
  match m_parts m !! idx with
  | None => Err (Malformed (lit "part index " ++ to_decimal (Z.of_nat idx) ++ lit " outside msg.parts"))
  | Some part => Ok (mkRawPart part_id (contents part) (declared_type part) (part_attachment_name part))
  end.

(** The fuel is what the depth leaves below its limit of 64. *)
(* [crates/rimap-content/src/parse/raw_parts.rs:58-110] walk *)
Fixpoint walk_raw (m : ContentMeta.Message) (fuel part_idx : nat) (prefix : rstr) : result ContentError (list RawPart) :=
  match fuel with
  | O => Ok []
  | S fuel =>
      match m_parts m !! part_idx with
      | None => Err (Malformed (lit "sub_parts index " ++ to_decimal (Z.of_nat part_idx) ++ lit " outside msg.parts"))
      | Some part =>
          match part_body part with
          | BMultipart children =>
              (fix go (i : Z) (l : list nat) : result ContentError (list RawPart) :=
                 match l with
                 | [] => Ok []
                 | child :: l => ps ← walk_raw m fuel child (child_part_id prefix (i + 1)); qs ← go (i + 1) l; Ok (ps ++ qs)
                 end) 0 children
          | _ => p ← part_to_raw m part_idx (leaf_part_id prefix); Ok [p]
          end
      end
  end.

(** The walk of the siblings from number [i + 1]. *)
Definition walk_raw_children (m : ContentMeta.Message) (fuel : nat) (prefix : rstr) : Z -> list nat -> result ContentError (list RawPart) :=
  fix go (i : Z) (l : list nat) : result ContentError (list RawPart) :=
    match l with
    | [] => Ok []
    | child :: l => ps ← walk_raw m fuel child (child_part_id prefix (i + 1)); qs ← go (i + 1) l; Ok (ps ++ qs)
    end.

(* [crates/rimap-content/src/parse/raw_parts.rs:24-24] MAX_MIME_DEPTH *)
Definition RAW_MIME_DEPTH : nat := 64.

(* [crates/rimap-content/src/parse/raw_parts.rs:35-56] walk_attachment_parts *)
Definition walk_attachment_parts (parsed : SafeParse) : result ContentError (list RawPart) :=
  match parsed with
  | Panicked => Err ParserPanic
  | Rejected => Err (Malformed (lit "failed to parse RFC 5322 message"))
  | Parsed m =>
      match m_parts m with
      | [] => Err (Malformed (lit "message has no parts"))
      | root :: _ =>
          match part_body root with
          | BMultipart _ => walk_raw m (S RAW_MIME_DEPTH) 0 []
          | _ => p ← part_to_raw m 0 (lit "1"); Ok [p]
          end
      end
  end.

(** ** list_attachments *)

(* [crates/rimap-server/src/tools/retrieval/list_attachments.rs:25-35] AttachmentInfo *)
Record AttachmentInfo := mkInfo { ai_part_id : rstr; ai_mime_type : rstr; ai_size_bytes : Z; ai_filename : option rstr }.
(* [crates/rimap-server/src/tools/retrieval/list_attachments.rs:39-46] ListAttachmentsMeta *)
Record ListAttachmentsMeta := mkListMeta { lam_folder : rstr; lam_uid : Z; attachment_count : Z }.

(* [crates/rimap-server/src/tools/retrieval/list_attachments.rs:140-143] is_inline_text *)
Definition is_inline_text (mime_type mime_subtype : rstr) : bool :=
  eq_ignore_ascii_case mime_type (lit "text") &&
  (eq_ignore_ascii_case mime_subtype (lit "plain") || eq_ignore_ascii_case mime_subtype (lit "html")).

Context `{UnicodeLib} (debug_str : rstr -> rstr) (parse_name : list Z -> option rstr).

(** One visited node, with the attachments found before it. *)
(* [crates/rimap-server/src/tools/retrieval/list_attachments.rs:104-135] collect_attachments *)
Definition visit_attachment (acc : list AttachmentInfo * list SecurityWarning) (visited : rstr * BodyStructure)
    : list AttachmentInfo * list SecurityWarning :=
  let '(out, warnings) := acc in
  let '(part_id, node) := visited in
  match node with
  | Single mime_type mime_subtype params disposition_params _ size =>
      if is_inline_text mime_type mime_subtype then acc
      else
        let '(filename, ws) :=
          attachment_filename_from_params debug_str parse_name params disposition_params (Z.of_nat (length out)) in
        (out ++ [mkInfo part_id (to_lowercase mime_type ++ lit "/" ++ to_lowercase mime_subtype) size filename], warnings ++ ws)
  | _ => acc
  end.

(* [crates/rimap-server/src/tools/retrieval/list_attachments.rs:99-136] collect_attachments *)
Definition collect_attachments (bs : BodyStructure) : list AttachmentInfo * list SecurityWarning :=
  fold_left visit_attachment (walk_body_structure bs) ([], []).

(** [fetched]: the BODYSTRUCTURE of each message the server returned. *)
(* [crates/rimap-server/src/tools/retrieval/list_attachments.rs:67-96] handle *)
Definition list_attachments (folder : rstr) (uid : Z)
    (fetched : rstr -> Z -> result RimapError (list (option BodyStructure) * option Z))
    : result RimapError (ToolResponse ListAttachmentsMeta (list AttachmentInfo)) :=
  _ ← validate_folder_input (lit "folder") folder;
  '(bodystructure, _) ← fetch_single_by_uid (fetched folder uid) folder uid;
  match bodystructure with
  | None => Err (RInternal (lit "server did not return BODYSTRUCTURE"))
  | Some bs =>
      let '(attachments, warnings) := collect_attachments bs in
      Ok (with_warnings (with_untrusted (meta_only (mkListMeta folder uid (Z.of_nat (length attachments)))) attachments) warnings)
  end.

(** ** download_attachment *)

(* [crates/rimap-server/src/tools/retrieval/download_attachment.rs:17-29] DownloadAttachmentInput *)
Record DownloadAttachmentInput := mkDownload { d_folder : rstr; d_uid : Z; d_part_id : rstr; d_dest_dir : option rstr }.
(* [crates/rimap-server/src/tools/retrieval/download_attachment.rs:33-50] DownloadAttachmentMeta *)
Record DownloadAttachmentMeta := mkDownloadMeta {
  dm_folder : rstr; dm_uid : Z; dm_part_id : rstr; dm_path : rstr; dm_size_bytes : Z; dm_sha256 : rstr;
  mime_declared : rstr; mime_sniffed : option rstr }.

(* [crates/rimap-server/src/tools/retrieval/download_attachment.rs:167-181] cross_validate_mime_type *)
Definition cross_validate_mime_type (bodystructure_type parser_type : rstr) : list SecurityWarning :=
  if eq_ignore_ascii_case bodystructure_type parser_type then []
  else [warning_at ParseBodystructureTypeMismatch
          (lit "bodystructure=" ++ bodystructure_type ++ lit ",parser=" ++ parser_type)
          (lit "download_attachment:bodystructure_vs_parser")].

(* [crates/rimap-server/src/tools/retrieval/download_attachment.rs:187-202] check_sniff_mismatch *)
Definition check_sniff_mismatch (declared : rstr) (sniffed : option rstr) : list SecurityWarning :=
  match sniffed with
  | None => []
  | Some s => if eq_ignore_ascii_case declared s then []
              else [warning_at ParseMimeTypeMismatch (lit "declared=" ++ declared ++ lit ",sniffed=" ++ s)
                      (lit "download_attachment:sniff")]
  end.

(* [crates/rimap-server/src/tools/retrieval/download_attachment.rs:206-226] lookup_bodystructure_type *)
Definition lookup_bodystructure_type (bs : BodyStructure) (target_part_id : rstr) : option rstr :=
  fold_left (fun found '(part_id, node) =>
    match found with
    | Some t => Some t
    | None =>
        if str_eqb part_id target_part_id then
          match node with
          | Single t s _ _ _ _ => Some (to_lowercase t ++ lit "/" ++ to_lowercase s)
          | _ => None
          end
        else None
    end) (walk_body_structure bs) None.

Context (sha256_hex : list Z -> rstr) (sniff_mime : list Z -> option rstr) (w : write_world) (tmp : rstr) (sys : system).

(** [fetch_body] and [fetch_structure] are the account's two fetches, [pool] the
    blocking pool over the parse of the bytes. *)
(* [crates/rimap-server/src/tools/retrieval/download_attachment.rs:81-162] handle *)
Definition download_attachment (download_dir : rstr) (input : DownloadAttachmentInput)
    (fetch_body : rstr -> Z -> result RimapError (list Z)) (pool : list Z -> Blocking (list RawPart))
    (fetch_structure : rstr -> Z -> result RimapError (list (option BodyStructure))) (d : dir)
    : dir * result RimapError (ToolResponse DownloadAttachmentMeta (option rstr)) :=
  match
    (_ ← validate_folder_input (lit "folder") (d_folder input);
     _ ← (match d_part_id input with [] => Err (invalid_input (lit "part_id must not be empty")) | _ => Ok tt end);
     dest ← resolve_dest_dir_async sys (d_dest_dir input) download_dir;
     raw ← fetch_body (d_folder input) (d_uid input);
     parts ← run_on_blocking_pool (pool raw);
     match List.find (fun p => str_eqb (rp_part_id p) (d_part_id input)) parts with
     | None => Err (RAuthz ENotFound (lit "part_id " ++ d_part_id input ++ lit " not found in message"))
     | Some part => Ok (dest, part)
     end)
  with
  | Err e => (d, Err e)
  | Ok (dest, part) =>
      let safe_filename := default (lit "attachment") (rp_filename part) in
      let sniffed := sniff_mime (rp_body part) in
      let '(d, written) := write_attachment w tmp dest safe_filename (rp_body part) d in
      (d, path ← written;
          let cross :=
            match fetch_structure (d_folder input) (d_uid input) with
            | Ok (Some bs :: _) =>
                match lookup_bodystructure_type bs (d_part_id input) with
                | Some t => cross_validate_mime_type t (rp_content_type part)
                | None => []
                end
            | _ => []
            end in
          Ok (with_warnings (with_untrusted (meta_only
                (mkDownloadMeta (d_folder input) (d_uid input) (d_part_id input) path (Z.of_nat (length (rp_body part)))
                   (sha256_hex (rp_body part)) (rp_content_type part) sniffed)) (rp_filename part))
              (cross ++ check_sniff_mismatch (rp_content_type part) sniffed)))
  end.
End raw_parts.

(** ** The numbers agree *)

Section agree.
Context (to_lowercase : rstr -> rstr) (contents : MessagePart -> list Z).
Implicit Types (m : ContentMeta.Message).

Definition type_string (t s : rstr) : rstr := to_lowercase t ++ lit "/" ++ to_lowercase s.

(** The structure the server reports is that of the parsed message, from a part on:
    the same multiparts with as many children, the same types at the leaves, and no
    embedded message. *)
Fixpoint mirrors m (id : nat) (bs : BodyStructure) {struct bs} : Prop :=
  match m_parts m !! id with
  | None => False
  | Some part =>
      match bs with
      | Single t s _ _ _ _ =>
          (match part_body part with BMultipart _ => False | _ => True end) /\ declared_type to_lowercase part = type_string t s
      | Multipart _ parts =>
          match part_body part with
          | BMultipart children =>
              (fix all (cs : list nat) (bs : list BodyStructure) {struct bs} : Prop :=
                 match bs, cs with
                 | [], [] => True
                 | b :: bs, c :: cs => mirrors m c b /\ all cs bs
                 | _, _ => False
                 end) children parts
          | _ => False
          end
      | Fetch.Message _ _ => False
      end
  end.

Definition mirror_all m : list nat -> list BodyStructure -> Prop :=
  fix all (cs : list nat) (bs : list BodyStructure) {struct bs} : Prop :=
    match bs, cs with
    | [], [] => True
    | b :: bs, c :: cs => mirrors m c b /\ all cs bs
    | _, _ => False
    end.

Definition raw_key (p : RawPart) : rstr * rstr := (rp_part_id p, rp_content_type p).
Definition node_key (v : rstr * BodyStructure) : rstr * rstr :=
  (v.1, match v.2 with Single t s _ _ _ _ => type_string t s | _ => [] end).

Lemma mirrored_framed m bs : forall id, mirrors m id bs -> framed bs = true.
Proof.
  induction bs as [t s p q e n|st bs IH|s b IH] using body_ind'; intros id Hm; [done| |].
  - cbn [mirrors] in Hm. destruct (m_parts m !! id) as [part|]; [|done]. destruct (part_body part) as [| | | | |children]; try done.
    change (mirror_all m children bs) in Hm. cbn [framed]. revert children Hm.
    induction IH as [|b bs Hb _ IHl]; intros [|c cs] Hm; try done. destruct Hm as [H1 H2]. cbn [forallb].
    apply andb_true_iff. split; [by eapply Hb|by eapply IHl].
  - cbn [mirrors] in Hm. by destruct (m_parts m !! id).
Qed.

(** Both walks of a mirrored part visit the same leaves under the same numbers. *)
Lemma walks_agree m bs : forall id prefix fuel d, mirrors m id bs -> d + height bs <= MAX_PART_DEPTH ->
  Z.of_nat fuel + d = MAX_PART_DEPTH + 1 ->
  exists parts, walk_raw to_lowercase contents m fuel id prefix = Ok parts /\
    map raw_key parts = map node_key (walk_inner bs prefix d).
Proof.
  induction bs as [t s p q e n|st bs IH|s b IH] using body_ind'; intros id prefix fuel d Hm Hh Hf;
    match goal with Hh : _ + height ?x <= _ |- _ => pose proof (height_nonneg x) as Hpos end;
    cbn [mirrors] in Hm; (destruct (m_parts m !! id) as [part|] eqn:Ep; [|done]); try done;
    (destruct fuel as [|fuel]; [lia|]); cbn [walk_raw walk_inner]; rewrite Ep;
    (destruct (Z.ltb_spec MAX_PART_DEPTH d); [lia|]).
  - destruct Hm as [Hb Ht]. unfold part_to_raw. rewrite Ep. destruct (part_body part); try done; cbn [mbind result_bind];
      (eexists; split; [done|]); unfold raw_key, node_key; cbn; by rewrite Ht.
  - destruct (part_body part) as [| | | | |children]; try done.
    change (mirror_all m children bs) in Hm.
    change (exists parts, walk_raw_children to_lowercase contents m fuel prefix 0 children = Ok parts /\
      map raw_key parts = map node_key (children_ids prefix (d + 1) 0 bs)).
    cbn [height] in Hh. pose proof (foldr_max_nonneg height bs) as Hnn. assert (Hhs : Forall (fun b => height b <= MAX_PART_DEPTH - 1 - d) bs) by (apply foldr_max_le; unfold MAX_PART_DEPTH in *; lia).
    generalize 0 at 1 2 as i. clear Hh Hpos Hnn Ep. revert children Hm.
    induction IH as [|b bs Hb _ IHl]; intros [|c cs] Hm i; try done.
    + by exists [].
    + destruct Hm as [H1 H2]. apply Forall_cons in Hhs as [Hb1 Hhs].
      destruct (Hb c (child_part_id prefix (i + 1)) fuel (d + 1) H1) as (ps & Eps & Hps); [lia|lia|].
      destruct (IHl Hhs cs H2 (i + 1)) as (qs & Eqs & Hqs). exists (ps ++ qs).
      cbn [walk_raw_children children_ids]. rewrite Eps. cbn [mbind result_bind]. rewrite Eqs. cbn [mbind result_bind].
      split; [done|]. by rewrite !map_app, Hps, Hqs.
Qed.

Lemma parts_agree m bs : mirrors m 0 bs -> height bs <= MAX_PART_DEPTH ->
  exists parts, walk_attachment_parts to_lowercase contents (Parsed m) = Ok parts /\
    map raw_key parts = map node_key (walk_body_structure bs).
Proof.
  intros Hm Hh. destruct (walks_agree m bs 0 [] (S RAW_MIME_DEPTH) 0 Hm) as (parts & Hw & Hk); [lia|done|].
  exists parts. split; [|done]. unfold walk_attachment_parts.
  assert (Hl : exists root, m_parts m !! 0%nat = Some root).
  { destruct bs; cbn [mirrors] in Hm; destruct (m_parts m !! 0%nat); try done; by eexists. }
  destruct Hl as [root Hr]. destruct (m_parts m) as [|root' rest] eqn:Ep; [done|]. injection Hr as ->.
  destruct (part_body root) eqn:Eb; try exact Hw; cbn [walk_raw] in Hw; rewrite Ep in Hw; cbn in Hw; by rewrite Eb in Hw.
Qed.

(** ** Listed, then downloaded *)

Section listed.
Context `{UnicodeLib} (debug_str : rstr -> rstr) (parse_name : list Z -> option rstr).
Abbreviation collect := (collect_attachments to_lowercase debug_str parse_name).

Definition info_key (a : AttachmentInfo) : rstr * rstr := (ai_part_id a, ai_mime_type a).

(** The list is a part of what the walk visits, in its order. *)
Lemma collected_sublist visits : forall out ws,
  map info_key (fold_left (visit_attachment to_lowercase debug_str parse_name) visits (out, ws)).1
    `sublist_of` map info_key out ++ map node_key visits /\
  Forall (fun a => a ∈ out \/ exists v, v ∈ visits /\ info_key a = node_key v /\ exists t s p q e n, v.2 = Single t s p q e n)
    (fold_left (visit_attachment to_lowercase debug_str parse_name) visits (out, ws)).1.
Proof.
  induction visits as [|[pid node] visits IH]; intros out ws; cbn [fold_left map].
  - rewrite app_nil_r. split; [reflexivity|]. apply Forall_forall. by left.
  - assert (Hskip : forall ws', map info_key (fold_left (visit_attachment to_lowercase debug_str parse_name) visits (out, ws')).1
        `sublist_of` map info_key out ++ node_key (pid, node) :: map node_key visits /\
      Forall (fun a => a ∈ out \/ exists v, v ∈ (pid, node) :: visits /\ info_key a = node_key v /\ exists t s p q e n, v.2 = Single t s p q e n)
        (fold_left (visit_attachment to_lowercase debug_str parse_name) visits (out, ws')).1).
    { intros ws'. destruct (IH out ws') as [H1 H2]. split.
      - etransitivity; [exact H1|]. apply sublist_app; [reflexivity|]. by constructor.
      - eapply Forall_impl; [exact H2|]. cbv beta. intros a [?|(v & Hv & Hr)]; [by left|right]. exists v. split; [by right|done]. }
    cbn [visit_attachment]. destruct node as [t s p q e n|st bs|s b]; try apply Hskip.
    destruct (is_inline_text t s); [apply Hskip|].
    destruct (attachment_filename_from_params _ _ _ _ _) as [name ws']. clear Hskip.
    destruct (IH (out ++ [mkInfo pid (to_lowercase t ++ lit "/" ++ to_lowercase s) n name]) (ws ++ ws')) as [H1 H2]. split.
    + rewrite map_app, <- app_assoc in H1. exact H1.
    + eapply Forall_impl; [exact H2|]. cbv beta. intros a [[Ha|Ha]%elem_of_app|(v & Hv & Hr)]; [by left| |].
      * apply list_elem_of_singleton in Ha as ->. right. exists (pid, Single t s p q e n). split; [left|]. split; [done|]. by repeat eexists.
      * right. exists v. split; [by right|done].
Qed.

Lemma find_key (ks : list (rstr * rstr)) k : NoDup (map fst ks) -> k ∈ ks ->
  List.find (fun x => str_eqb x.1 k.1) ks = Some k.
Proof.
  induction ks as [|x ks IH]; cbn [map List.find]; [by intros _ ?%not_elem_of_nil|].
  intros [Hn Hd]%NoDup_cons [->|Hk]%elem_of_cons; [by rewrite (proj2 (str_eqb_eq _ _) eq_refl)|].
  destruct (str_eqb x.1 k.1) eqn:E; [|by apply IH]. apply str_eqb_eq in E. exfalso. apply Hn. rewrite E.
  by apply list_elem_of_fmap_2.
Qed.

Lemma find_map {A B} (f : A -> B) p l : List.find p (map f l) = f <$> List.find (fun a => p (f a)) l.
Proof. induction l as [|a l IH]; [done|]. cbn. by destruct (p (f a)). Qed.

Lemma keyed_find (parts : list RawPart) k : NoDup (map fst (map raw_key parts)) -> k ∈ map raw_key parts ->
  exists p, List.find (fun p => str_eqb (rp_part_id p) k.1) parts = Some p /\ raw_key p = k.
Proof.
  intros Hn Hk. pose proof (find_key _ _ Hn Hk) as Hf. rewrite find_map in Hf.
  apply fmap_Some in Hf as (p & Hp & ->). exists p. split; [exact Hp|done].
Qed.

Lemma lookup_type_spec visits id : forall found,
  fold_left (fun (found : option rstr) '(part_id, node) =>
    match found with
    | Some t => Some t
    | None => if str_eqb part_id id then match node with Single t s _ _ _ _ => Some (to_lowercase t ++ lit "/" ++ to_lowercase s) | _ => None end else None
    end) visits found =
  match found with
  | Some t => Some t
  | None => snd <$> List.find (fun k => str_eqb k.1 id) (map node_key (List.filter (fun v => match v.2 with Single _ _ _ _ _ _ => true | _ => false end) visits))
  end.
Proof.
  induction visits as [|[pid node] visits IH]; intros found; cbn [fold_left]; [by destruct found|].
  rewrite IH. destruct found as [t|]; [done|]. destruct node as [t s p q e n|st bs|s b]; cbn [List.filter snd map List.find node_key fst].
  - by destruct (str_eqb pid id).
  - by destruct (str_eqb pid id).
  - by destruct (str_eqb pid id).
Qed.

(** For a message without embedded messages whose BODYSTRUCTURE has the shape
    of the parsed message, every attachment list_attachments names has a number
    of its own, under which download_attachment's walk finds a part of the listed
    type; and its comparison with the BODYSTRUCTURE finds no mismatch. *)
Theorem listed_downloadable m bs : mirrors m 0 bs -> height bs <= MAX_PART_DEPTH ->
  exists parts, walk_attachment_parts to_lowercase contents (Parsed m) = Ok parts /\
    NoDup (map ai_part_id (collect bs).1) /\
    Forall (fun a => exists p, List.find (fun p => str_eqb (rp_part_id p) (ai_part_id a)) parts = Some p /\
      rp_content_type p = ai_mime_type a /\
      lookup_bodystructure_type to_lowercase bs (ai_part_id a) = Some (ai_mime_type a)) (collect bs).1.
Proof.
  intros Hm Hh. destruct (parts_agree m bs Hm Hh) as (parts & Hw & Hk). exists parts. split; [done|].
  pose proof (walk_ids_nodup bs Hh (mirrored_framed _ _ _ Hm)) as Hnd.
  destruct (collected_sublist (walk_body_structure bs) [] []) as [Hsub Hall]. cbn [map app] in Hsub.
  set (keys := map node_key (walk_body_structure bs)) in *.
  assert (Hkeys : NoDup (map fst keys)).
  { unfold keys. rewrite map_map. erewrite map_ext; [exact Hnd|]. by intros [? ?]. }
  split.
  - replace (map ai_part_id (collect bs).1) with (map fst (map info_key (collect bs).1)) by (rewrite map_map; by apply map_ext).
    eapply sublist_NoDup; [exact Hkeys|]. apply (fmap_sublist fst), Hsub.
  - eapply Forall_impl; [exact Hall|]. cbv beta. intros a [Ha|(v & Hv & Ek & t & s & p & q & e & n & Es)]; [by apply not_elem_of_nil in Ha|].
    assert (Hin : info_key a ∈ keys) by (rewrite Ek; by apply list_elem_of_fmap_2).
    destruct (keyed_find parts (info_key a)) as (p' & Hf & Ep); [by rewrite Hk|by rewrite Hk|].
    exists p'. split; [exact Hf|]. unfold raw_key, info_key in Ep. split; [by injection Ep|].
    unfold lookup_bodystructure_type. rewrite lookup_type_spec. set (singles := List.filter _ _).
    assert (Hfk : List.find (fun k => str_eqb k.1 (ai_part_id a)) (map node_key singles) = Some (info_key a)); [|by rewrite Hfk].
    apply (find_key (map node_key singles) (info_key a)).
    + eapply sublist_NoDup; [exact Hkeys|]. apply (fmap_sublist fst), (fmap_sublist node_key), sublist_filter_bool.
    + rewrite Ek. apply list_elem_of_fmap_2, list_elem_of_In, filter_In. split; [by apply list_elem_of_In|]. by rewrite Es.
Qed.
End listed.
End agree.

(** An embedded message: its parts are listed under numbers the download does not know. *)
Example embedded_parts_unreachable :
  let leaf := Single (lit "image") (lit "png") [] [] (lit "base64") 4 in
  let bs := Multipart (lit "mixed") [Fetch.Message (lit "rfc822") (Multipart (lit "mixed") [leaf])] in
  let m := mkMessage None None None None None None None HEmpty HEmpty HEmpty HEmpty HEmpty [] []
    [mkPart None None None None None (BMultipart [1%nat]) 0; mkPart None None None None None BMessage 0] [] [] in
  map fst (walk_body_structure bs) = [lit "1"; lit "1.1"] /\
  map rp_part_id <$> walk_attachment_parts (fun s => s) part_bytes (Parsed m) = Ok [lit "1"].
Proof. vm_compute. repeat split. Qed.

(** ** What a download does *)

Section download.
Context (to_lowercase : rstr -> rstr) (sha256_hex : list Z -> rstr) (sniff_mime : list Z -> option rstr)
  (w : write_world) (tmp : rstr) (sys : system).

(** The call stops before any effect, or it writes the part the number names. *)
Lemma download_cases download_dir input fetch_body pool fetch_structure d d' r :
  download_dir <> [] ->
  download_attachment to_lowercase sha256_hex sniff_mime w tmp sys download_dir input fetch_body pool fetch_structure d = (d', r) ->
  (d' = d /\ exists e, r = Err e) \/
  exists dest raw parts part,
    canonical dest <> [] /\ components download_dir `prefix_of` components (canonical dest) /\
    fetch_body (d_folder input) (d_uid input) = Ok raw /\ pool raw = Finished (Ok parts) /\
    List.find (fun p => str_eqb (rp_part_id p) (d_part_id input)) parts = Some part /\
    let '(d1, written) := write_attachment w tmp dest (default (lit "attachment") (rp_filename part)) (rp_body part) d in
    d' = d1 /\ match written with
               | Err e => r = Err e
               | Ok path => exists resp, r = Ok resp /\ dm_path (resp_meta resp) = path /\
                   dm_part_id (resp_meta resp) = d_part_id input /\
                   dm_size_bytes (resp_meta resp) = Z.of_nat (length (rp_body part)) /\
                   dm_sha256 (resp_meta resp) = sha256_hex (rp_body part) /\
                   resp_untrusted resp = Some (rp_filename part)
               end.
Proof.
  intros Hdl. unfold download_attachment. destruct (validate_folder_input _ _); [|intros [= <- <-]; left; by eauto].
  cbn [mbind result_bind]. destruct (d_part_id input) as [|c part_id] eqn:Epid; [intros [= <- <-]; left; by eauto|]. cbn [mbind result_bind].
  destruct (resolve_dest_dir_async _ _ _) as [dest|] eqn:Ed; [|intros [= <- <-]; left; by eauto]. cbn [mbind result_bind].
  destruct (fetch_body _ _) as [raw|] eqn:Er; [|intros [= <- <-]; left; by eauto]. cbn [mbind result_bind].
  unfold run_on_blocking_pool. destruct (pool raw) as [[parts|e]| |] eqn:Ep; try (intros [= <- <-]; left; by eauto). cbn [mbind result_bind].
  destruct (List.find _ parts) as [part|] eqn:Ef; [|intros [= <- <-]; left; by eauto].
  apply resolve_within in Ed as [Hne Hpre]; [|done].
  intros Hrun. right. exists dest, raw, parts, part. split; [done|]. split; [done|]. split; [done|]. split; [done|]. split; [done|].
  destruct (write_attachment _ _ _ _ _ _) as [d1 [path|e]]; cbn in Hrun; injection Hrun as <- <-; (split; [done|]); [|done].
  eexists. split; [done|]. done.
Qed.

(** A download never changes or removes a file; when it fails it leaves none of its
    own (but the temporary file, when removing that fails too). A success wrote
    one new file inside the download directory, by a plain name, holding exactly
    the bytes of the part the caller numbered, and reports its path, size and
    digest. *)
Theorem download_effect download_dir input fetch_body pool fetch_structure d d' r :
  download_dir <> [] ->
  download_attachment to_lowercase sha256_hex sniff_mime w tmp sys download_dir input fetch_body pool fetch_structure d = (d', r) ->
  (forall n x, d !! n = Some x -> d' !! n = Some x) /\
  (forall e, r = Err e -> forall n x, d' !! n = Some x ->
     d !! n = Some x \/ from_others w 0 1000 n x \/ (n = tmp /\ unlink_fails w = true)) /\
  (forall resp, r = Ok resp -> exists raw parts part name,
     fetch_body (d_folder input) (d_uid input) = Ok raw /\ pool raw = Finished (Ok parts) /\
     part ∈ parts /\ rp_part_id part = d_part_id input /\
     plain_name name /\ d !! name = None /\ d' !! name = Some (RegularFile (rp_body part)) /\
     (exists below, components (dm_path (resp_meta resp)) = components download_dir ++ below ++ [Normal name]) /\
     dm_size_bytes (resp_meta resp) = Z.of_nat (length (rp_body part)) /\
     dm_sha256 (resp_meta resp) = sha256_hex (rp_body part)).
Proof.
  intros Hdl Hrun.
  destruct (download_cases _ _ _ _ _ _ _ _ Hdl Hrun) as [(-> & e & ->)|(dest & raw & parts & part & Hne & [below Hpre] & Hraw & Hpool & Hfind & Hw)].
  { split; [done|]. split; [by left|done]. }
  pose proof (write_effect w tmp dest (default (lit "attachment") (rp_filename part)) (rp_body part) d Hne) as Heff.
  destruct (write_attachment _ _ _ _ _ _) as [d1 written]. cbn [fst snd] in Heff. destruct Hw as [-> Hw].
  destruct Heff as (H1 & H2 & H3 & _). split; [exact H1|]. apply List.find_some in Hfind as [Hin Hid%str_eqb_eq].
  apply list_elem_of_In in Hin. destruct written as [path|e].
  - destruct Hw as (resp & -> & Hp & _ & Hs & Hd & _). split; [done|]. intros ? [= <-].
    destruct (H3 path eq_refl) as (name & Hn & Hfree & Hnew & _ & Hc). exists raw, parts, part, name.
    split_and!; try done. exists below. by rewrite Hp, Hc, Hpre, <- app_assoc.
  - subst r. split; [|done]. intros ? [= <-] n x Hx. destruct (H2 n x Hx) as [?|[?|[?|[]]]]; auto.
Qed.
End download.

(** ** A message with an image *)

#[local] Existing Instance latin_unicode.

Definition with_image : ContentMeta.Message :=
  mkMessage None None None None None None None HEmpty HEmpty HEmpty HEmpty HEmpty [] []
    [mkPart None None None None None (BMultipart [1%nat; 2%nat]) 0;
     mkPart (Some (lit "text", Some (lit "plain"))) None None None None (BText (lit "hi")) 2;
     mkPart (Some (lit "IMAGE", Some (lit "PNG"))) None (Some ([0x202E] ++ lit "../cat.png")) None None (BBinary [1; 2; 3]) 3] [] [].
Definition image_structure : BodyStructure :=
  Multipart (lit "mixed") [Single (lit "text") (lit "plain") [] [] (lit "7bit") 2;
                           Single (lit "image") (lit "png") [] [] (lit "base64") 4].

Lemma listed_downloadable_witness :
  map ai_part_id (collect_attachments to_ascii_lowercase plain_debug (fun _ => None) image_structure).1 = [lit "2"] /\
  lookup_bodystructure_type to_ascii_lowercase image_structure (lit "2") = Some (lit "image/png").
Proof.
  assert (Hm : mirrors to_ascii_lowercase with_image 0 image_structure) by (vm_compute; repeat split).
  assert (Hh : height image_structure <= MAX_PART_DEPTH) by (apply Z.leb_le; reflexivity).
  destruct (listed_downloadable to_ascii_lowercase part_bytes plain_debug (fun _ => None) with_image image_structure Hm Hh)
    as (parts & _ & _ & Hall).
  assert (E : (collect_attachments to_ascii_lowercase plain_debug (fun _ => None) image_structure).1
    = [mkInfo (lit "2") (lit "image/png") 4 None]) by (vm_compute; reflexivity).
  split; [by rewrite E|]. rewrite E in Hall. apply Forall_cons in Hall as [(p & _ & _ & Hl) _]. exact Hl.
Defined.

Definition image_call : DownloadAttachmentInput := mkDownload (lit "INBOX") 7 (lit "2") None.
Definition image_pool (raw : list Z) : Blocking (list RawPart) :=
  Finished (walk_attachment_parts to_ascii_lowercase part_bytes (Parsed with_image)).
Definition open_system : system := mkSystem (fun p => Ok p) (fun _ => true).
Definition quiet_world : write_world := mkWriteWorld false None false (fun _ => false) (fun _ => ∅).
Abbreviation download_image := (download_attachment to_ascii_lowercase (fun _ => lit "digest") (fun _ => None) quiet_world
  (lit ".tmp") open_system (lit "/dl") image_call (fun _ _ => Ok (lit "raw")) image_pool (fun _ _ => Ok [Some image_structure]) ∅).

Lemma download_effect_witness : exists resp name,
  download_image.2 = Ok resp /\ plain_name name /\ download_image.1 !! name = Some (RegularFile [1; 2; 3]) /\
  dm_size_bytes (resp_meta resp) = 3.
Proof.
  destruct download_image as [d' r] eqn:Er.
  destruct (download_effect to_ascii_lowercase (fun _ => lit "digest") (fun _ => None) quiet_world (lit ".tmp") open_system
    (lit "/dl") image_call (fun _ _ => Ok (lit "raw")) image_pool (fun _ _ => Ok [Some image_structure]) ∅ d' r
    ltac:(discriminate) Er) as (_ & _ & Hok).
  destruct r as [resp|e]; [|exfalso; vm_compute in Er; discriminate].
  destruct (Hok resp eq_refl) as (raw & parts & part & name & _ & Hpool & Hin & Hid & Hn & _ & Hd & _ & Hs & _).
  assert (Hb : rp_body part = [1; 2; 3]).
  { vm_compute in Hpool. injection Hpool as <-. apply elem_of_cons in Hin as [->|Hin]; [vm_compute in Hid; discriminate|].
    apply list_elem_of_singleton in Hin as ->. reflexivity. }
  exists resp, name. split; [done|]. split; [exact Hn|]. rewrite Hb in Hd, Hs. split; [exact Hd|exact Hs].
Defined.

(** The name in the response is the sender's, controls and path included. *)
Example filename_original_raw :
  (resp_untrusted <$> download_image.2) = Ok (Some (Some ([0x202E] ++ lit "../cat.png"))).
Proof. vm_compute. reflexivity. Qed.
