(* ===== verification/Folders.v ===== *)
(** * Folders (crates/rimap-imap: special_use.rs, ops/folders.rs, the folder
    types of types.rs; crates/rimap-server: tools/admin/list_folders.rs)

    The reads of LIST and STATUS, the RFC 6154 roles, and what list_folders
    shows of them.  What async_imap delivers for a command is an argument. *)

From Stdlib Require Import ZArith Lia.
From stdpp Require Import base option list strings sets.
From S2P Require Import Prelude RustStr Errors ImapErrors Names Content Unicode Mailbox Sandbox Filename Retrieval.
Local Open Scope Z_scope.

(** ** What async_imap delivers *)

(** [async_imap::types::NameAttribute]. *)
Inductive NameAttribute :=
  | NNoInferiors | NNoSelect | NMarked | NUnmarked
  | NAll | NArchive | NDrafts | NFlagged | NJunk | NSent | NTrash
  | NExtension (s : rstr).

(** [async_imap::types::Name] and [async_imap::types::Mailbox]. *)
Record list_entry := mkEntry { le_name : rstr; le_attributes : list NameAttribute; le_delimiter : option rstr }.
Record status_entry := mkStatus {
  se_exists : Z; se_recent : Z; se_uid_next : option Z; se_uid_validity : option Z; se_unseen : option Z }.

(** ** Attributes and roles *)

(* [crates/rimap-imap/src/types.rs:508-525] FolderAttribute *)
Inductive FolderAttribute :=
  | Noselect | NoInferiors | Marked | Unmarked | HasChildren | HasNoChildren | NonExistent
  | Other (s : rstr).

(* [crates/rimap-imap/src/types.rs:538-562] FolderAttribute::from_name_attribute *)
Definition from_name_attribute (attr : NameAttribute) : FolderAttribute :=
  match attr with
  | NNoSelect => Noselect
  | NNoInferiors => NoInferiors
  | NMarked => Marked
  | NUnmarked => Unmarked
  | NAll => Other (lit "\All")
  | NArchive => Other (lit "\Archive")
  | NDrafts => Other (lit "\Drafts")
  | NFlagged => Other (lit "\Flagged")
  | NJunk => Other (lit "\Junk")
  | NSent => Other (lit "\Sent")
  | NTrash => Other (lit "\Trash")
  | NExtension s =>
      if str_eqb s (lit "\HasChildren") then HasChildren
      else if str_eqb s (lit "\HasNoChildren") then HasNoChildren
      else if str_eqb s (lit "\NonExistent") then NonExistent
      else Other s
  end.

(* [crates/rimap-imap/src/types.rs:568-579] FolderAttribute::as_wire_str *)
Definition as_wire_str (a : FolderAttribute) : rstr :=
  match a with
  | Noselect => lit "\Noselect"
  | NoInferiors => lit "\NoInferiors"
  | Marked => lit "\Marked"
  | Unmarked => lit "\Unmarked"
  | HasChildren => lit "\HasChildren"
  | HasNoChildren => lit "\HasNoChildren"
  | NonExistent => lit "\NonExistent"
  | Other s => s
  end.

(* [crates/rimap-imap/src/special_use.rs:15-30] SpecialUse *)
Inductive SpecialUse := SDrafts | SSent | STrash | SJunk | SArchive | SAll | SFlagged.
#[export] Instance SpecialUse_eq_dec : EqDecision SpecialUse.
Proof. solve_decision. Defined.

(* [crates/rimap-imap/src/special_use.rs:59-77] match_extension *)
Definition match_extension (ext : rstr) : option SpecialUse :=
  if eq_ignore_ascii_case ext (lit "\Drafts") then Some SDrafts
  else if eq_ignore_ascii_case ext (lit "\Sent") then Some SSent
  else if eq_ignore_ascii_case ext (lit "\Trash") then Some STrash
  else if eq_ignore_ascii_case ext (lit "\Junk") then Some SJunk
  else if eq_ignore_ascii_case ext (lit "\Archive") then Some SArchive
  else if eq_ignore_ascii_case ext (lit "\All") then Some SAll
  else if eq_ignore_ascii_case ext (lit "\Flagged") then Some SFlagged
  else None.

(* [crates/rimap-imap/src/special_use.rs:45-57] match_variant *)
Definition match_variant (attr : NameAttribute) : option SpecialUse :=
  match attr with
  | NDrafts => Some SDrafts
  | NSent => Some SSent
  | NTrash => Some STrash
  | NJunk => Some SJunk
  | NArchive => Some SArchive
  | NAll => Some SAll
  | NFlagged => Some SFlagged
  | NExtension ext => match_extension ext
  | _ => None
  end.

(* [crates/rimap-imap/src/special_use.rs:41-43] classify_special_use *)
Definition classify_special_use (attrs : list NameAttribute) : option SpecialUse :=
  head (omap match_variant attrs).

(* [crates/rimap-imap/src/types.rs:66-76] Folder *)
Record Folder := mkFolder {
  folder_name : rstr; attributes : list FolderAttribute; delimiter : option Z;
  special_use : option SpecialUse }.

(* [crates/rimap-imap/src/types.rs:93-98] Folder::selectable *)
Definition selectable (f : Folder) : bool :=
  negb (existsb (fun a => match a with Noselect | NonExistent => true | _ => false end) (attributes f)).

(** ** LIST and STATUS *)

(** One entry of the stream: dropped when its name holds a control byte. *)
(* [crates/rimap-imap/src/ops/folders.rs:43-66] list *)
Definition list_step (name : list_entry) : option Folder :=
  match validate_server_folder_name (le_name name) with
  | Err _ => None
  | Ok _ => Some (mkFolder (le_name name) (map from_name_attribute (le_attributes name))
      (s ← le_delimiter name; head s) (classify_special_use (le_attributes name)))
  end.

(* [crates/rimap-imap/src/ops/folders.rs:42-67] list *)
Fixpoint list_stream (stream : list (result ImapError list_entry)) : result ImapError (list Folder) :=
  match stream with
  | [] => Ok []
  | Err e :: _ => Err e
  | Ok name :: stream' =>
      rest ← list_stream stream';
      Ok (match list_step name with Some f => f :: rest | None => rest end)
  end.

(* [crates/rimap-imap/src/ops/folders.rs:33-68] list *)
Definition list_folders (listed : result ImapError (list (result ImapError list_entry)))
    : result ImapError (list Folder) :=
  stream ← listed; list_stream stream.

(* [crates/rimap-imap/src/types.rs:108-119] StatusItems *)
Record StatusItems := mkItems {
  i_messages : bool; i_recent : bool; i_uid_next : bool; i_uid_validity : bool; i_unseen : bool }.

(* [crates/rimap-imap/src/types.rs:124-132] StatusItems::all *)
Definition items_all : StatusItems := mkItems true true true true true.

(* [crates/rimap-imap/src/types.rs:138-149] FolderStatus *)
Record FolderStatus := mkFolderStatus {
  messages : option Z; recent : option Z; uid_next : option Z; status_uid_validity : option Z; unseen : option Z }.

(* [crates/rimap-imap/src/ops/folders.rs:179-197] build_status_items *)
Definition build_status_items (items : StatusItems) : rstr :=
  let part (b : bool) s := if b then [lit s] else [] in
  lit "(" ++ join (lit " ")
    (part (i_messages items) "MESSAGES" ++ part (i_recent items) "RECENT"
     ++ part (i_uid_next items) "UIDNEXT" ++ part (i_uid_validity items) "UIDVALIDITY"
     ++ part (i_unseen items) "UNSEEN") ++ lit ")".

Section server.
(** The server's answer to [STATUS folder items]. *)
Context (answer : rstr -> rstr -> result ImapError status_entry).

(* [crates/rimap-imap/src/ops/folders.rs:70-96] status *)
Definition status (folder : rstr) (items : StatusItems) : result ImapError FolderStatus :=
  _ ← validate_server_folder_name folder;
  mailbox ← answer folder (build_status_items items);
  Ok (mkFolderStatus (if i_messages items then Some (se_exists mailbox) else None)
        (if i_recent items then Some (se_recent mailbox) else None)
        (se_uid_next mailbox) (se_uid_validity mailbox) (se_unseen mailbox)).

(* [crates/rimap-imap/src/ops/folders.rs:112-126] list_with_status *)
Fixpoint add_status (folders : list Folder) : result ImapError (list (Folder * option FolderStatus)) :=
  match folders with
  | [] => Ok []
  | folder :: folders' =>
      folder_status ← (if selectable folder
        then s ← status (folder_name folder) (mkItems true false false true true); Ok (Some s)
        else Ok None);
      rest ← add_status folders';
      Ok ((folder, folder_status) :: rest)
  end.

(* [crates/rimap-imap/src/ops/folders.rs:106-128] list_with_status *)
Definition list_with_status (listed : result ImapError (list (result ImapError list_entry)))
    : result ImapError (list (Folder * option FolderStatus)) :=
  folders ← list_folders listed; add_status folders.
End server.

(** ** CREATE, RENAME, DELETE *)

Section folder_management.
(** The server's answers to the three commands. *)
Context (create delete : rstr -> result ImapError unit) (rename : rstr -> rstr -> result ImapError unit).

(* [crates/rimap-imap/src/ops/folder_management.rs:34-41] create_folder *)
Definition create_folder (name : rstr) : result ImapError unit :=
  _ ← validate_folder_name name; create name.

(* [crates/rimap-imap/src/ops/folder_management.rs:49-61] rename_folder *)
Definition rename_folder (old_name new_name : rstr) : result ImapError unit :=
  _ ← validate_folder_name old_name;
  _ ← validate_folder_name new_name;
  rename old_name new_name.

(* [crates/rimap-imap/src/ops/folder_management.rs:69-76] delete_folder *)
Definition delete_folder (name : rstr) : result ImapError unit :=
  _ ← validate_folder_name name; delete name.
End folder_management.

(** ** [SpecialUseMap] *)

(* [crates/rimap-imap/src/special_use.rs:88-96] SpecialUseMap *)
Record SpecialUseMap := mkUseMap {
  drafts : option rstr; sent_folder : option rstr; trash : option rstr; junk : option rstr;
  archive : option rstr; all : option rstr; flagged : option rstr }.

Definition use_map_empty : SpecialUseMap := mkUseMap None None None None None None None.

(* [crates/rimap-imap/src/special_use.rs:129-167] SpecialUseMap::drafts *)
Definition use_slot (su : SpecialUse) (m : SpecialUseMap) : option rstr :=
  match su with
  | SDrafts => drafts m | SSent => sent_folder m | STrash => trash m | SJunk => junk m
  | SArchive => archive m | SAll => all m | SFlagged => flagged m
  end.

(* [crates/rimap-imap/src/special_use.rs:110-121] SpecialUseMap::from_folders *)
Definition fill_slot (su : SpecialUse) (name : rstr) (m : SpecialUseMap) : SpecialUseMap :=
  let fill o := match o with None => Some name | Some _ => o end in
  let '(mkUseMap d s t j ar al f) := m in
  match su with
  | SDrafts => mkUseMap (fill d) s t j ar al f
  | SSent => mkUseMap d (fill s) t j ar al f
  | STrash => mkUseMap d s (fill t) j ar al f
  | SJunk => mkUseMap d s t (fill j) ar al f
  | SArchive => mkUseMap d s t j (fill ar) al f
  | SAll => mkUseMap d s t j ar (fill al) f
  | SFlagged => mkUseMap d s t j ar al (fill f)
  end.

(* [crates/rimap-imap/src/special_use.rs:104-124] SpecialUseMap::from_folders *)
Definition from_folders (folders : list Folder) : SpecialUseMap :=
  fold_left (fun out folder =>
    match special_use folder with None => out | Some su => fill_slot su (folder_name folder) out end)
    folders use_map_empty.

(* [crates/rimap-imap/src/special_use.rs:171-184] SpecialUseMap::all_discovered *)
Definition all_discovered (m : SpecialUseMap) : list rstr :=
  omap id [drafts m; sent_folder m; trash m; junk m; archive m; all m; flagged m].

(** ** list_folders *)

(* [crates/rimap-server/src/tools/admin/list_folders.rs:11-11] MAX_FOLDER_NAME_BYTES *)
Definition MAX_FOLDER_NAME_BYTES : Z := 1024.

(* [crates/rimap-server/src/tools/admin/list_folders.rs:24-34] escape_wire_name *)
Definition escape_char (c : Z) : rstr :=
  if (0x20 <=? c) && (c <? 0x7f) && negb (c =? 92) then [c] else lit "\u{" ++ to_hex c ++ lit "}".
(* [crates/rimap-server/src/tools/admin/list_folders.rs:24-34] escape_wire_name *)
Definition escape_wire_name (raw : rstr) : rstr := concat (map escape_char raw).

(* [crates/rimap-server/src/tools/admin/list_folders.rs:84-112] FolderEntry *)
Record FolderEntry := mkFolderEntry {
  fe_name : rstr; name_wire : option rstr; fe_delimiter : option Z; fe_flags : list rstr;
  fe_exists : option Z; fe_unseen : option Z; fe_uid_validity : option Z }.

(* [crates/rimap-server/src/tools/admin/list_folders.rs:116-124] ListFoldersMeta *)
Record ListFoldersMeta := mkListMeta { folders : list FolderEntry; lf_warnings : list SecurityWarning }.

Section list_folders.
Context `{UnicodeLib}.

(* [crates/rimap-server/src/tools/admin/list_folders.rs:39-79] sanitize_folder_entry *)
Definition sanitize_folder_entry (folder : Folder) : (rstr * option rstr * list rstr) * list SecurityWarning :=
  let '(clean_name, name_warnings) :=
    sanitize (str_bytes (folder_name folder)) None MAX_FOLDER_NAME_BYTES (lit "folder.name") in
  let name_wire :=
    if str_eqb clean_name (folder_name folder) then None
    else Some (escape_wire_name (truncate_graphemes (folder_name folder) (MAX_FOLDER_NAME_BYTES * 4))) in
  let flags := map (fun attr => sanitize (str_bytes (as_wire_str attr)) None MAX_FOLDER_NAME_BYTES (lit "folder.flag"))
    (attributes folder) in
  ((clean_name, name_wire, map fst flags), name_warnings ++ concat (map snd flags)).

(* [crates/rimap-server/src/tools/admin/list_folders.rs:178-190] handle *)
Definition folder_entry (pair : Folder * option FolderStatus) : FolderEntry * list SecurityWarning :=
  let '(folder, status) := pair in
  let '((clean_name, wire, flags), warnings) := sanitize_folder_entry folder in
  (mkFolderEntry clean_name wire (delimiter folder) flags
     (s ← status; messages s) (s ← status; unseen s) (s ← status; status_uid_validity s), warnings).

(* [crates/rimap-server/src/tools/admin/list_folders.rs:170-196] handle *)
Definition handle_list_folders (listed : result ImapError (list (result ImapError list_entry)))
    (answer : rstr -> rstr -> result ImapError status_entry)
    : result RimapError (ToolResponse ListFoldersMeta unit) :=
  pairs ← map_err rimap_of_imap (list_with_status answer listed);
  let entries := map folder_entry pairs in
  Ok (meta_only (mkListMeta (map fst entries) (concat (map snd entries)))).

(** ** What is shown *)

(** A folder of the listing and its entry. *)
Record shows (answer : rstr -> rstr -> result ImapError status_entry) (f : Folder) (e : FolderEntry) : Prop := {
  shown_name : Forall harmless (fe_name e) /\ str_len (fe_name e) <= MAX_FOLDER_NAME_BYTES;
  shown_wire :
    match name_wire e with
    | None => fe_name e = folder_name f
    | Some w => fe_name e <> folder_name f /\
        exists cut rest, folder_name f = cut ++ rest /\ w = escape_wire_name cut /\
          str_len cut <= 4 * MAX_FOLDER_NAME_BYTES /\ (str_len (folder_name f) <= 4 * MAX_FOLDER_NAME_BYTES -> rest = [])
    end;
  shown_flags : length (fe_flags e) = length (attributes f) /\
    Forall (fun s => Forall harmless s /\ str_len s <= MAX_FOLDER_NAME_BYTES) (fe_flags e);
  shown_status :
    if selectable f
    then exists s, answer (folder_name f) (lit "(MESSAGES UIDVALIDITY UNSEEN)") = Ok s /\
      fe_exists e = Some (se_exists s) /\ fe_unseen e = se_unseen s /\ fe_uid_validity e = se_uid_validity s
    else fe_exists e = None /\ fe_unseen e = None /\ fe_uid_validity e = None;
  shown_delimiter : fe_delimiter e = delimiter f }.

Lemma sanitized_bounded bytes charset m location : 0 <= m ->
  Forall harmless (sanitize bytes charset m location).1 /\
  str_len (sanitize bytes charset m location).1 <= m.
Proof.
  intros Hm. split; [by apply sanitized_visible|]. unfold sanitize. cbn [fst].
  by apply truncate_graphemes_spec.
Qed.

Lemma sanitize_entry_spec folder clean wire flags warnings :
  sanitize_folder_entry folder = ((clean, wire, flags), warnings) ->
  forall ex un uv, fe_name (mkFolderEntry clean wire (delimiter folder) flags ex un uv) = clean /\
  (Forall harmless clean /\ str_len clean <= MAX_FOLDER_NAME_BYTES) /\
  match wire with
  | None => clean = folder_name folder
  | Some w => clean <> folder_name folder /\
      exists cut rest, folder_name folder = cut ++ rest /\ w = escape_wire_name cut /\
        str_len cut <= 4 * MAX_FOLDER_NAME_BYTES /\ (str_len (folder_name folder) <= 4 * MAX_FOLDER_NAME_BYTES -> rest = [])
  end /\
  length flags = length (attributes folder) /\
  Forall (fun s => Forall harmless s /\ str_len s <= MAX_FOLDER_NAME_BYTES) flags.
Proof.
  unfold sanitize_folder_entry. pose proof (sanitized_bounded (str_bytes (folder_name folder)) None MAX_FOLDER_NAME_BYTES
    (lit "folder.name") ltac:(done)) as Hn.
  destruct (sanitize _ None _ (lit "folder.name")) as [c nw]. intros [= <- <- <- _] ex un uv.
  split; [done|]. split; [exact Hn|]. split.
  - destruct (str_eqb c (folder_name folder)) eqn:E; [by apply str_eqb_eq|].
    split; [intros Hc; apply str_eqb_eq in Hc; congruence|].
    destruct (truncate_graphemes_spec (folder_name folder) (MAX_FOLDER_NAME_BYTES * 4)) as (Hl & [rest Hr] & Hs & _); [done|].
    exists (truncate_graphemes (folder_name folder) (MAX_FOLDER_NAME_BYTES * 4)), rest.
    split; [done|]. split; [done|]. split; [lia|]. intros Hle. rewrite Hs in Hr by lia.
    rewrite <- (app_nil_r (folder_name folder)) in Hr at 1. by apply app_inv_head in Hr.
  - rewrite length_map, length_map. split; [done|]. rewrite map_map. apply List.Forall_map, Forall_forall.
    intros a _. by apply sanitized_bounded.
Qed.

Lemma list_stream_ok stream fs : list_stream stream = Ok fs ->
  exists names, stream = map Ok names /\ fs = omap list_step names.
Proof.
  revert fs. induction stream as [|[name|] stream IH]; intros fs; cbn [list_stream].
  - intros [= <-]. by exists [].
  - intros (rest & Hr & [= <-])%bind_ok. destruct (IH rest Hr) as (names & -> & ->).
    exists (name :: names). split; [done|]. cbn. by destruct (list_step name).
  - done.
Qed.

Lemma add_status_ok answer fs pairs : add_status answer fs = Ok pairs ->
  Forall2 (fun f p => p.1 = f /\ if selectable f
    then exists s, status answer (folder_name f) (mkItems true false false true true) = Ok s /\ p.2 = Some s
    else p.2 = None) fs pairs.
Proof.
  revert pairs. induction fs as [|f fs IH]; intros pairs; cbn [add_status].
  - intros [= <-]. constructor.
  - intros (st & Hst & Hrest)%bind_ok. apply bind_ok in Hrest as (rest & Hr & [= <-]).
    constructor; [|by apply IH]. split; [done|]. cbn [snd]. destruct (selectable f).
    + apply bind_ok in Hst as (s & Hs & [= <-]). eauto.
    + by injection Hst as <-.
Qed.

Lemma folder_entry_shows answer f p : p.1 = f ->
  (if selectable f
   then exists s, status answer (folder_name f) (mkItems true false false true true) = Ok s /\ p.2 = Some s
   else p.2 = None) -> shows answer f (folder_entry p).1.
Proof.
  destruct p as [g st]. cbn [fst snd]. intros -> Hst. unfold folder_entry.
  destruct (sanitize_folder_entry f) as [[[clean wire] flags] warnings] eqn:E.
  apply sanitize_entry_spec with (ex := s ← st; messages s) (un := s ← st; unseen s)
    (uv := s ← st; status_uid_validity s) in E as (_ & Hn & Hw & Hf).
  cbn [fst]. constructor; [done|done|done| |done]. cbn. destruct (selectable f); [|by rewrite Hst].
  destruct Hst as (s & Hs & ->). unfold status in Hs. apply bind_ok in Hs as (_ & _ & (mb & Hm & [= <-])%bind_ok).
  exists mb. by cbn.
Qed.

Lemma shows_all answer fs pairs : add_status answer fs = Ok pairs ->
  Forall2 (shows answer) fs (map fst (map folder_entry pairs)).
Proof.
  intros Hp%add_status_ok. induction Hp as [|f p fs pairs [Hf Hs] _ IH]; [constructor|].
  constructor; [by apply folder_entry_shows|exact IH].
Qed.

(** List_folders shows what the server listed and nothing harmful.  When
    it succeeds the whole listing arrived, and there is one entry, in order,
    for each folder whose name holds no control byte: its name and flags
    are at most 1024 bytes without invisible, directional or control
    characters; without [name_wire] the name is the server's to the
    letter, and with it the two differ and [name_wire] escapes the name or,
    past 4096 bytes, a prefix of it; the counts are those STATUS gave for a
    selectable folder, and absent for any other. *)
Theorem list_folders_faithful stream answer r :
  handle_list_folders (Ok stream) answer = Ok r ->
  exists names, stream = map Ok names /\
    Forall2 (shows answer) (omap list_step names) (folders (resp_meta r)).
Proof.
  unfold handle_list_folders, list_with_status, list_folders. intros (pairs & Hp & [= <-])%bind_ok.
  cbn in Hp. destruct (list_stream stream) as [fs|] eqn:Es; [|done].
  destruct (list_stream_ok stream fs Es) as (names & -> & ->). exists names. split; [done|].
  cbn in Hp.
  destruct (add_status answer _) as [ps|] eqn:Ea; [|done]. injection Hp as ->. by apply shows_all.
Qed.
End list_folders.

(** ** The escape *)

Definition hex_val (c : Z) : Z := if c <? 58 then c - 48 else c - 87.
Definition parse_hex (s : rstr) : Z := fold_left (fun n c => n * 16 + hex_val c) s 0.

Lemma hex_digits_spec f n : 0 <= n < 16 ^ Z.of_nat f ->
  parse_hex (hex_digits f n) = n /\ Forall (fun c => 48 <= c <= 57 \/ 97 <= c <= 102) (hex_digits f n).
Proof.
  revert n. induction f as [|f IH]; intros n Hn; cbn [hex_digits].
  { rewrite Z.pow_0_r in Hn. split; [cbn; lia|constructor]. }
  pose proof (Z.div_mod n 16 ltac:(lia)). pose proof (Z.mod_pos_bound n 16 ltac:(lia)).
  set (c := if n mod 16 <? 10 then 48 + n mod 16 else 87 + n mod 16).
  assert (Hc : (48 <= c <= 57 \/ 97 <= c <= 102) /\ hex_val c = n mod 16).
  { subst c. unfold hex_val. destruct (Z.ltb_spec (n mod 16) 10); match goal with |- context [?a <? 58] => destruct (Z.ltb_spec a 58) end; lia. }
  destruct (n <? 16) eqn:E; zify_bool.
  - split; [cbn; rewrite (proj2 Hc), Z.mod_small; lia|]. apply Forall_singleton, Hc.
  - rewrite Nat2Z.inj_succ, Z.pow_succ_r in Hn by lia.
    destruct (IH (n / 16)) as (Hv & Hd).
    { split; [apply Z.div_pos; lia|]. apply Z.div_lt_upper_bound; lia. }
    unfold parse_hex in *. rewrite fold_left_app, Hv. cbn [fold_left]. rewrite (proj2 Hc). split; [lia|].
    apply Forall_app. split; [done|]. apply Forall_singleton, Hc.
Qed.

Lemma to_hex_spec n : 0 <= n ->
  parse_hex (to_hex n) = n /\ Forall (fun c => 48 <= c <= 57 \/ 97 <= c <= 102) (to_hex n).
Proof.
  intros Hn. apply hex_digits_spec. split; [done|]. pose proof (Z.log2_nonneg n).
  rewrite Nat2Z.inj_succ, Z2Nat.id by lia.
  destruct (decide (n = 0)) as [->|]; [by vm_compute|].
  apply Z.lt_le_trans with (2 ^ Z.succ (Z.log2 n)); [by apply Z.log2_spec; lia|].
  apply Z.pow_le_mono_l. lia.
Qed.

(** Two texts cut at their first closing brace. *)
Lemma brace_inj (a b x y : rstr) : ~ 125 ∈ a -> ~ 125 ∈ b -> a ++ 125 :: x = b ++ 125 :: y -> a = b /\ x = y.
Proof.
  revert b. induction a as [|c a IH]; intros [|d b] Ha Hb; cbn.
  - by intros [= ->].
  - intros [= <- _]. by exfalso; apply Hb; left.
  - intros [= -> _]. by exfalso; apply Ha; left.
  - rewrite !not_elem_of_cons in *. intros [= <- E]. destruct (IH b) as [-> ->]; tauto.
Qed.

Lemma escape_char_inj c d x y : 0 <= c -> 0 <= d ->
  escape_char c ++ x = escape_char d ++ y -> c = d /\ x = y.
Proof.
  intros Hc Hd. unfold escape_char.
  assert (Hb : forall n, 0 <= n -> ~ 125 ∈ to_hex n).
  { intros n Hn Hin. destruct (to_hex_spec n Hn) as [_ Hf]. rewrite Forall_forall in Hf.
    apply Hf in Hin. lia. }
  destruct (_ && negb (c =? 92)) eqn:Ec, (_ && negb (d =? 92)) eqn:Ed; cbn [app].
  - by intros [= -> ->].
  - intros [= -> _]. by rewrite andb_false_r in Ec.
  - intros [= <- _]. by rewrite andb_false_r in Ed.
  - rewrite <- !app_assoc. intros E. apply app_inv_head in E. cbn [app] in E.
    apply brace_inj in E as [Eh ->]; [|by apply Hb..]. split; [|done].
    rewrite <- (proj1 (to_hex_spec c Hc)), <- (proj1 (to_hex_spec d Hd)). by rewrite Eh.
Qed.

(** The escape loses nothing, and what it shows is printable ASCII. *)
Lemma escape_wire_name_inj a b : Forall (fun c => 0 <= c) a -> Forall (fun c => 0 <= c) b ->
  escape_wire_name a = escape_wire_name b -> a = b.
Proof.
  assert (Hne : forall c, escape_char c <> []) by (intros c; unfold escape_char; by case_match).
  unfold escape_wire_name. revert b.
  induction a as [|c a IH]; intros [|d b] Ha Hb; cbn [map concat]; [done|..].
  - intros E. exfalso. apply (Hne d). symmetry in E. by apply app_eq_nil in E as [-> _].
  - intros E. exfalso. apply (Hne c). by apply app_eq_nil in E as [-> _].
  - apply Forall_cons_1 in Ha as [Hc Ha], Hb as [Hd Hb]. intros [-> E]%escape_char_inj; [|done..].
    f_equal. by apply IH.
Qed.

Lemma escape_wire_name_ascii a : Forall (fun c => 0 <= c) a ->
  Forall (fun c => 0x20 <= c <= 0x7e) (escape_wire_name a).
Proof.
  unfold escape_wire_name. induction 1 as [|c a Hc _ IH]; [constructor|]. cbn [map concat].
  apply Forall_app. split; [|exact IH]. unfold escape_char. destruct (_ && _) eqn:E.
  - apply Forall_singleton. zify_bool. lia.
  - destruct (to_hex_spec c Hc) as [_ Hf].
    apply Forall_app. split; [by apply (bool_decide_unpack _); vm_compute|].
    apply Forall_app. split; [eapply Forall_impl; [exact Hf|]; cbv beta; lia|].
    by apply (bool_decide_unpack _); vm_compute.
Qed.

(** ** Roles *)

Lemma use_slot_fill su su' name m :
  use_slot su (fill_slot su' name m) =
  match use_slot su m with
  | Some n => Some n
  | None => if bool_decide (su = su') then Some name else None
  end.
Proof. destruct m, su, su'; cbn; by repeat case_match. Qed.

Lemma from_folders_from su fs : forall m,
  use_slot su (fold_left (fun out folder =>
    match special_use folder with None => out | Some su => fill_slot su (folder_name folder) out end) fs m) =
  match use_slot su m with
  | Some n => Some n
  | None => folder_name <$> List.find (fun f => bool_decide (special_use f = Some su)) fs
  end.
Proof.
  induction fs as [|f fs IH]; intros m; cbn [fold_left List.find]; [by case_match|]. rewrite IH.
  destruct (special_use f) as [su'|] eqn:Ef.
  - rewrite use_slot_fill. destruct (use_slot su m); [done|].
    destruct (decide (su = su')) as [<-|Hne].
    + by rewrite !bool_decide_true.
    + by rewrite !bool_decide_false by congruence.
  - by rewrite (bool_decide_false (None = Some su)).
Qed.

(** Each role is held by the first folder that claims it. *)
Lemma from_folders_spec su fs :
  use_slot su (from_folders fs) =
  folder_name <$> List.find (fun f => bool_decide (special_use f = Some su)) fs.
Proof. unfold from_folders. rewrite from_folders_from. by destruct su. Qed.

Lemma all_discovered_spec m n : n ∈ all_discovered m <-> exists su, use_slot su m = Some n.
Proof.
  unfold all_discovered. rewrite list_elem_of_omap. split.
  - intros (o & Ho & E). cbn in E. subst o.
    apply list_elem_of_In in Ho. cbn in Ho. destruct m. cbn in Ho.
    destruct Ho as [E|[E|[E|[E|[E|[E|[E|[]]]]]]]].
    + by exists SDrafts.
    + by exists SSent.
    + by exists STrash.
    + by exists SJunk.
    + by exists SArchive.
    + by exists SAll.
    + by exists SFlagged.
  - intros [su E]. exists (Some n). split; [|done]. rewrite <- E. destruct su; cbn; set_solver.
Qed.

(** ** At concrete inputs *)

#[local] Instance plain_text : UnicodeLib.
Proof.
  refine {| decode := fun bytes _ => Filename.utf8_decode bytes; normalize_nfkc := fun s => s;
            graphemes := map (fun c => [c]) |}.
  - induction s; cbn; congruence.
  - intros s. apply Forall_forall. by intros g (c & -> & _)%list_elem_of_fmap.
  - done.
Defined.

(** A role as an extension string, a container, a name with a control byte
    and one that is displayed reversed. *)
Definition sample_listing : list (result ImapError list_entry) :=
  [Ok (mkEntry (lit "Bin") [NExtension (lit "\TRASH")] (Some (lit "/")));
   Ok (mkEntry (lit "[Gmail]") [NNoSelect] (Some (lit "/")));
   Ok (mkEntry (lit "a" ++ [7]) [] None);
   Ok (mkEntry (lit "x" ++ [0x202E]) [] None)].
Definition sample_status (folder items : rstr) : result ImapError status_entry :=
  Ok (mkStatus 3 0 None (Some 9) (Some 1)).

Definition sample_shown : ToolResponse ListFoldersMeta unit :=
  meta_only (mkListMeta
    [mkFolderEntry (lit "Bin") None (Some 47) [lit "\TRASH"] (Some 3) (Some 1) (Some 9);
     mkFolderEntry (lit "[Gmail]") None (Some 47) [lit "\Noselect"] None None None;
     mkFolderEntry (lit "x") (Some (lit "x\u{202e}")) None [] (Some 3) (Some 1) (Some 9)]
    [warning_at UnicodeBidiOverrideStripped (lit "count=1") (lit "folder.name")]).

Lemma list_folders_faithful_witness :
  exists names, sample_listing = map Ok names /\
    Forall2 (shows sample_status) (omap list_step names) (folders (resp_meta sample_shown)).
Proof. apply list_folders_faithful. vm_compute. reflexivity. Defined.

(** A name without [name_wire] need not be accepted by the folder tools. *)
Lemma shown_name_refused :
  let name := repeat 97 300 in
  (sanitize_folder_entry (mkFolder name [] None None)).1.1 = (name, None) /\
  is_ok (folder_name_new name) = false.
Proof. split; vm_compute; reflexivity. Qed.
