(* ===== verification/MailTools.v ===== *)
(** * The mailbox tools (crates/rimap-server/src/tools/mailbox)

    The thirteen handlers that change flags, labels, messages and folders, as
    programs over the calls of [account.imap].  [ImapApi] is what the
    connection answers; its laws are discharged by the conversations of
    Mailbox in [mailbox_api]. *)

From Stdlib Require Import ZArith Lia.
From stdpp Require Import base option list strings sets gmap.
From S2P Require Import Prelude RustStr Errors Program ImapErrors Names Uids Fetch Session Mailbox Validation Content Retrieval Folders.
Local Open Scope Z_scope.

(** ** The connection, as the handlers see it *)

Class ImapApi := {
  api_store_flags : rstr -> list Z -> list Flag -> FlagAction -> option Z -> result ImapError (list Z * option Z);
  api_move_messages : rstr -> rstr -> list Z -> option Z -> result ImapError MoveOutcome;
  api_delete_message : rstr -> Z -> rstr -> option Z -> result ImapError (DeleteResult * option Z);
  api_expunge : rstr -> result ImapError (list Z * Z);
  api_fetch : rstr -> list Z -> FetchSpec -> option Z -> result ImapError (list FetchedMessage * option Z);
  api_status : rstr -> StatusItems -> result ImapError FolderStatus;
  api_create_folder : rstr -> result ImapError unit;
  api_rename_folder : rstr -> rstr -> result ImapError unit;
  api_delete_folder : rstr -> result ImapError unit;
  (** A move reports each UID, in order; a delete says whether it moved. *)
  move_reports : forall src dst uids expected o, uids <> [] -> Forall (fun u => 0 <= u) uids ->
    api_move_messages src dst uids expected = Ok o -> map old_uid (results o) = uids;
  delete_reports : forall f uid trash expected d uv, 0 <= uid ->
    api_delete_message f uid trash expected = Ok (d, uv) ->
    moved_to_trash d = negb (eq_ignore_ascii_case f trash);
}.

Inductive imap_call :=
  | CallStore (folder : rstr) (uids : list Z) (flags : list Flag) (action : FlagAction) (expected : option Z)
  | CallMove (folder dest : rstr) (uids : list Z) (expected : option Z)
  | CallDelete (folder : rstr) (uid : Z) (trash : rstr) (expected : option Z)
  | CallExpunge (folder : rstr)
  | CallFetch (folder : rstr) (uids : list Z) (spec : FetchSpec) (expected : option Z)
  | CallStatus (folder : rstr) (items : StatusItems)
  | CallCreate (folder : rstr)
  | CallRename (folder new_folder : rstr)
  | CallDeleteFolder (folder : rstr).

(** A handler makes calls and ends in a result. *)
Abbreviation tool := (logged imap_call).
Definition call {A} (c : imap_call) (r : result ImapError A) : tool A := ([c], map_err rimap_of_imap r).

(** ** Labels *)

(* [crates/rimap-server/src/tools/mailbox/labels.rs:19-19] ATOM_SPECIALS *)
Definition ATOM_SPECIALS : list Z := [40; 41; 123; 32; 37; 42; 34; 91; 93; 92].
(* [crates/rimap-server/src/tools/mailbox/labels.rs:22-22] SYSTEM_FLAGS *)
Definition SYSTEM_FLAGS : list rstr :=
  [lit "seen"; lit "answered"; lit "flagged"; lit "deleted"; lit "draft"; lit "recent"].
(* [crates/rimap-server/src/tools/mailbox/labels.rs:25-25] MAX_LABEL_BYTES *)
Definition MAX_LABEL_BYTES : Z := 256.

(* [crates/rimap-server/src/tools/mailbox/labels.rs:28-62] validate_label *)
Definition validate_label (label : rstr) : result RimapError unit :=
  if bool_decide (label = []) then Err (invalid_input (lit "label must not be empty"))
  else if negb (forallb is_ascii label)
  then Err (invalid_input (lit "label must be ASCII (RFC 3501 atom syntax)"))
  else if MAX_LABEL_BYTES <? str_len label
  then Err (invalid_input (lit "label exceeds maximum of " ++ to_decimal MAX_LABEL_BYTES ++ lit " bytes"))
  else if existsb (Z.eqb 0) (str_bytes label)
  then Err (invalid_input (lit "label must not contain null bytes"))
  else if starts_with [92] label
  then Err (invalid_input (lit "label must not start with '\' (system flag namespace)"))
  else if existsb (fun c => existsb (Z.eqb c) ATOM_SPECIALS) label
  then Err (invalid_input (lit "label contains IMAP atom special characters"))
  else if existsb is_ascii_control label
  then Err (invalid_input (lit "label must not contain ASCII control characters"))
  else if existsb (str_eqb (to_ascii_lowercase label)) SYSTEM_FLAGS
  then Err (invalid_input (lit "'" ++ label ++ lit "' is a reserved system flag name"))
  else Ok tt.

(** ** Inputs and responses *)

(* [crates/rimap-server/src/tools/mailbox/flags.rs:26-42] FlagInput *)
Record FlagInput := mkFlagInput { fl_folder : rstr; fl_target : UidSelector; fl_expected : option Z }.
(* [crates/rimap-server/src/tools/mailbox/flags.rs:46-55] FlagsMeta *)
Record FlagsMeta := mkFlagsMeta { flm_folder : rstr; flm_uids_updated : list Z; flm_uid_validity : option Z }.

(* [crates/rimap-server/src/tools/mailbox/labels.rs:74-92] LabelInput *)
Record LabelInput := mkLabelInput {
  lb_folder : rstr; lb_target : UidSelector; lb_label : rstr; lb_expected : option Z }.
(* [crates/rimap-server/src/tools/mailbox/labels.rs:95-112] ListLabelsInput *)
Record ListLabelsInput := mkListLabels { ll_folder : rstr; ll_uid : Z; ll_expected : option Z }.
(* [crates/rimap-server/src/tools/mailbox/labels.rs:116-127] LabelsMeta *)
Record LabelsMeta := mkLabelsMeta {
  lbm_folder : rstr; lbm_label : rstr; lbm_uids_updated : list Z; lbm_uid_validity : option Z }.
(* [crates/rimap-server/src/tools/mailbox/labels.rs:131-142] ListLabelsMeta *)
Record ListLabelsMeta := mkListLabelsMeta {
  llm_folder : rstr; llm_uid : Z; llm_labels : list rstr; llm_uid_validity : option Z }.

(* [crates/rimap-server/src/tools/mailbox/move_message.rs:16-34] MoveMessageInput *)
Record MoveMessageInput := mkMoveInput {
  mv_folder : rstr; mv_destination : rstr; mv_target : UidSelector; mv_expected : option Z }.
(* [crates/rimap-server/src/tools/mailbox/move_message.rs:38-43] MoveEntry *)
Record MoveEntry := mkMoveEntry { me_old_uid : Z; me_new_uid : option Z }.
(* [crates/rimap-server/src/tools/mailbox/move_message.rs:47-65] MoveMessageMeta *)
Record MoveMessageMeta := mkMoveMeta {
  mm_folder : rstr; mm_destination : rstr; mm_moves : list MoveEntry;
  mm_source_uid_validity : option Z; mm_destination_uid_validity : option Z }.

(* [crates/rimap-server/src/tools/mailbox/delete_message.rs:20-37] DeleteMessageInput *)
Record DeleteMessageInput := mkDeleteInput { dm_folder : rstr; dm_uid : Z; dm_expected : option Z }.
(* [crates/rimap-server/src/tools/mailbox/delete_message.rs:45-61] DeleteMessageMeta *)
Record DeleteMessageMeta := mkDeleteMeta {
  dmm_deleted : bool; dmm_folder : rstr; dmm_uid : Z; dmm_moved_to_trash : bool;
  dmm_destination : rstr; dmm_uid_validity : option Z }.

(* [crates/rimap-server/src/tools/mailbox/expunge.rs:17-24] ExpungeMeta *)
Record ExpungeMeta := mkExpungeMeta {
  em_folder : rstr; em_expunged_count : Z; em_deleted_uids_before_expunge : list Z }.

(* [crates/rimap-server/src/tools/mailbox/folder_management.rs:31-36] CreateFolderMeta *)
Record CreateFolderMeta := mkCreateMeta { cf_created : bool; cf_folder : rstr }.
(* [crates/rimap-server/src/tools/mailbox/folder_management.rs:40-47] RenameFolderMeta *)
Record RenameFolderMeta := mkRenameMeta { rf_renamed : bool; rf_old_folder : rstr; rf_new_folder : rstr }.
(* [crates/rimap-server/src/tools/mailbox/folder_management.rs:51-58] DeleteFolderMeta *)
Record DeleteFolderMeta := mkDeleteFolderMeta { df_deleted : bool; df_folder : rstr; df_message_count : Z }.

(* [crates/rimap-server/src/tools/mailbox/mod.rs:19-39] fallback_security_warnings *)
Definition fallback_security_warnings (used_fallback folder_wide_expunge : bool) : list SecurityWarning :=
  (if used_fallback then [mkWarning ServerNonAtomicMoveFallback None None] else [])
  ++ (if folder_wide_expunge then [mkWarning ServerFolderWideExpungeDataLoss None None] else []).

(** What the handlers use of [AccountState]. *)
Record account := mkAccount { folder_guard : FolderGuard; account_special_use : SpecialUseMap }.

Section tools.
Context `{FolderText} `{ImapApi} (a : account).

(* [crates/rimap-server/src/tools/mailbox/flags.rs:109-136] handle_flag_op *)
Definition handle_flag_op (input : FlagInput) (flags : list Flag) (action : FlagAction)
    : tool (ToolResponse FlagsMeta unit) :=
  _ ← check (validate_folder_input (lit "folder") (fl_folder input));
  let uids := into_uids (fl_target input) in
  '(updated, uid_validity) ←
    call (CallStore (fl_folder input) uids flags action (fl_expected input))
      (api_store_flags (fl_folder input) uids flags action (fl_expected input));
  mret (meta_only (mkFlagsMeta (fl_folder input) updated uid_validity)).

(* [crates/rimap-server/src/tools/mailbox/flags.rs:57-68] handle_mark_read *)
Definition handle_mark_read (input : FlagInput) := handle_flag_op input [Seen] Add.
(* [crates/rimap-server/src/tools/mailbox/flags.rs:70-81] handle_mark_unread *)
Definition handle_mark_unread (input : FlagInput) := handle_flag_op input [Seen] Remove.
(* [crates/rimap-server/src/tools/mailbox/flags.rs:83-94] handle_flag *)
Definition handle_flag (input : FlagInput) := handle_flag_op input [Flagged] Add.
(* [crates/rimap-server/src/tools/mailbox/flags.rs:96-107] handle_unflag *)
Definition handle_unflag (input : FlagInput) := handle_flag_op input [Flagged] Remove.

(* [crates/rimap-server/src/tools/mailbox/labels.rs:174-200] handle_label_op *)
Definition handle_label_op (input : LabelInput) (action : FlagAction) : tool (ToolResponse LabelsMeta unit) :=
  _ ← check (validate_folder_input (lit "folder") (lb_folder input));
  _ ← check (validate_label (lb_label input));
  let uids := into_uids (lb_target input) in
  '(updated, uid_validity) ←
    call (CallStore (lb_folder input) uids [Keyword (lb_label input)] action (lb_expected input))
      (api_store_flags (lb_folder input) uids [Keyword (lb_label input)] action (lb_expected input));
  mret (meta_only (mkLabelsMeta (lb_folder input) (lb_label input) updated uid_validity)).

(* [crates/rimap-server/src/tools/mailbox/labels.rs:152-157] handle_add_label *)
Definition handle_add_label (input : LabelInput) := handle_label_op input Add.
(* [crates/rimap-server/src/tools/mailbox/labels.rs:165-170] handle_remove_label *)
Definition handle_remove_label (input : LabelInput) := handle_label_op input Remove.

Definition keyword_of (f : Flag) : option rstr := match f with Keyword k => Some k | _ => None end.

Definition flags_spec : FetchSpec := mkSpec false false false true false.

(* [crates/rimap-server/src/tools/mailbox/labels.rs:208-252] handle_list_labels *)
Definition handle_list_labels (input : ListLabelsInput) : tool (ToolResponse ListLabelsMeta unit) :=
  _ ← check (validate_folder_input (lit "folder") (ll_folder input));
  '(messages, uid_validity) ←
    call (CallFetch (ll_folder input) [ll_uid input] flags_spec (ll_expected input))
      (api_fetch (ll_folder input) [ll_uid input] flags_spec (ll_expected input));
  msg ← check (first_or_not_found messages (ll_folder input) (ll_uid input));
  let labels := match f_flags msg with Some flags => omap keyword_of flags | None => [] end in
  mret (meta_only (mkListLabelsMeta (ll_folder input) (ll_uid input) labels uid_validity)).

(* [crates/rimap-server/src/tools/mailbox/move_message.rs:83-120] handle *)
Definition handle_move_message (input : MoveMessageInput) : tool (ToolResponse MoveMessageMeta unit) :=
  _ ← check (validate_folder_input (lit "folder") (mv_folder input));
  _ ← check (validate_folder_input (lit "destination") (mv_destination input));
  let uids := into_uids (mv_target input) in
  outcome ← call (CallMove (mv_folder input) (mv_destination input) uids (mv_expected input))
    (api_move_messages (mv_folder input) (mv_destination input) uids (mv_expected input));
  let moves := map (fun r => mkMoveEntry (old_uid r) (new_uid r)) (results outcome) in
  let warnings := fallback_security_warnings (used_fallback outcome) (folder_wide_expunge outcome) in
  mret (with_warnings (meta_only (mkMoveMeta (mv_folder input) (mv_destination input) moves
    (source_uid_validity outcome) (destination_uid_validity outcome))) warnings).

(* [crates/rimap-server/src/tools/mailbox/delete_message.rs:41-41] TRASH_FOLDER_FALLBACK *)
Definition TRASH_FOLDER_FALLBACK : rstr := lit "Trash".

Definition trash_folder : rstr := default TRASH_FOLDER_FALLBACK (trash (account_special_use a)).

(* [crates/rimap-server/src/tools/mailbox/delete_message.rs:73-103] handle *)
Definition handle_delete_message (input : DeleteMessageInput) : tool (ToolResponse DeleteMessageMeta unit) :=
  _ ← check (validate_folder_input (lit "folder") (dm_folder input));
  _ ← check (validate_folder_input (lit "trash folder") trash_folder);
  '(result, uid_validity) ←
    call (CallDelete (dm_folder input) (dm_uid input) trash_folder (dm_expected input))
      (api_delete_message (dm_folder input) (dm_uid input) trash_folder (dm_expected input));
  let warnings := fallback_security_warnings (delete_used_fallback result) (delete_folder_wide result) in
  mret (with_warnings (meta_only (mkDeleteMeta true (dm_folder input) (dm_uid input)
    (moved_to_trash result) trash_folder uid_validity)) warnings).

(* [crates/rimap-server/src/tools/mailbox/expunge.rs:40-54] handle *)
Definition handle_expunge (folder : rstr) : tool (ToolResponse ExpungeMeta unit) :=
  _ ← check (validate_folder_input (lit "folder") folder);
  _ ← check (map_err rimap_of_authz (check_expunge (folder_guard a) folder));
  '(deleted_uids, expunged_count) ← call (CallExpunge folder) (api_expunge folder);
  mret (meta_only (mkExpungeMeta folder expunged_count deleted_uids)).

(* [crates/rimap-server/src/tools/mailbox/folder_management.rs:74-90] handle_create_folder *)
Definition handle_create_folder (folder : rstr) : tool (ToolResponse CreateFolderMeta unit) :=
  _ ← check (validate_folder_input (lit "folder") folder);
  _ ← check (map_err rimap_of_authz (check_protected (folder_guard a) folder (lit "create")));
  _ ← call (CallCreate folder) (api_create_folder folder);
  mret (meta_only (mkCreateMeta true folder)).

(* [crates/rimap-server/src/tools/mailbox/folder_management.rs:106-127] handle_rename_folder *)
Definition handle_rename_folder (folder new_folder : rstr) : tool (ToolResponse RenameFolderMeta unit) :=
  _ ← check (validate_folder_input (lit "folder") folder);
  _ ← check (validate_folder_input (lit "new_folder") new_folder);
  _ ← check (map_err rimap_of_authz (check_rename (folder_guard a) folder new_folder));
  _ ← call (CallRename folder new_folder) (api_rename_folder folder new_folder);
  mret (meta_only (mkRenameMeta true folder new_folder)).

Definition count_items : StatusItems := mkItems true false false false false.

(* [crates/rimap-server/src/tools/mailbox/folder_management.rs:146-175] handle_delete_folder *)
Definition handle_delete_folder (folder : rstr) : tool (ToolResponse DeleteFolderMeta unit) :=
  _ ← check (validate_folder_input (lit "folder") folder);
  _ ← check (map_err rimap_of_authz (check_protected (folder_guard a) folder (lit "delete")));
  _ ← check (map_err rimap_of_authz (check_expunge (folder_guard a) folder));
  status ← call (CallStatus folder count_items) (api_status folder count_items);
  _ ← call (CallDeleteFolder folder) (api_delete_folder folder);
  mret (meta_only (mkDeleteFolderMeta true folder (default 0 (messages status)))).

(** ** One request, one plan *)

Inductive mail_request :=
  | MarkRead (i : FlagInput) | MarkUnread (i : FlagInput) | FlagMessage (i : FlagInput) | UnflagMessage (i : FlagInput)
  | AddLabel (i : LabelInput) | RemoveLabel (i : LabelInput) | ListLabels (i : ListLabelsInput)
  | MoveMessage (i : MoveMessageInput) | DeleteMessage (i : DeleteMessageInput) | ExpungeFolder (folder : rstr)
  | CreateFolder (folder : rstr) | RenameFolder (folder new_folder : rstr) | DeleteFolder (folder : rstr).

(** The calls of a handler and how it ends, whatever it returns. *)
Definition serve (r : mail_request) : list imap_call * result RimapError unit :=
  let unit_of {A} (m : tool A) : list imap_call * result RimapError unit := (fun _ => tt) <$> m in
  match r with
  | MarkRead i => unit_of (handle_mark_read i)
  | MarkUnread i => unit_of (handle_mark_unread i)
  | FlagMessage i => unit_of (handle_flag i)
  | UnflagMessage i => unit_of (handle_unflag i)
  | AddLabel i => unit_of (handle_add_label i)
  | RemoveLabel i => unit_of (handle_remove_label i)
  | ListLabels i => unit_of (handle_list_labels i)
  | MoveMessage i => unit_of (handle_move_message i)
  | DeleteMessage i => unit_of (handle_delete_message i)
  | ExpungeFolder f => unit_of (handle_expunge f)
  | CreateFolder f => unit_of (handle_create_folder f)
  | RenameFolder f g => unit_of (handle_rename_folder f g)
  | DeleteFolder f => unit_of (handle_delete_folder f)
  end.

(** What a request asks of the server when nothing stops it. *)
Definition plan (r : mail_request) : list imap_call :=
  match r with
  | MarkRead i => [CallStore (fl_folder i) (into_uids (fl_target i)) [Seen] Add (fl_expected i)]
  | MarkUnread i => [CallStore (fl_folder i) (into_uids (fl_target i)) [Seen] Remove (fl_expected i)]
  | FlagMessage i => [CallStore (fl_folder i) (into_uids (fl_target i)) [Flagged] Add (fl_expected i)]
  | UnflagMessage i => [CallStore (fl_folder i) (into_uids (fl_target i)) [Flagged] Remove (fl_expected i)]
  | AddLabel i => [CallStore (lb_folder i) (into_uids (lb_target i)) [Keyword (lb_label i)] Add (lb_expected i)]
  | RemoveLabel i => [CallStore (lb_folder i) (into_uids (lb_target i)) [Keyword (lb_label i)] Remove (lb_expected i)]
  | ListLabels i => [CallFetch (ll_folder i) [ll_uid i] flags_spec (ll_expected i)]
  | MoveMessage i => [CallMove (mv_folder i) (mv_destination i) (into_uids (mv_target i)) (mv_expected i)]
  | DeleteMessage i => [CallDelete (dm_folder i) (dm_uid i) trash_folder (dm_expected i)]
  | ExpungeFolder f => [CallExpunge f]
  | CreateFolder f => [CallCreate f]
  | RenameFolder f g => [CallRename f g]
  | DeleteFolder f => [CallStatus f count_items; CallDeleteFolder f]
  end.

(** The names a request uses, those it changes as folders, those it empties. *)
Definition names_used (r : mail_request) : list rstr :=
  match r with
  | MarkRead i | MarkUnread i | FlagMessage i | UnflagMessage i => [fl_folder i]
  | AddLabel i | RemoveLabel i => [lb_folder i]
  | ListLabels i => [ll_folder i]
  | MoveMessage i => [mv_folder i; mv_destination i]
  | DeleteMessage i => [dm_folder i; trash_folder]
  | ExpungeFolder f | CreateFolder f | DeleteFolder f => [f]
  | RenameFolder f g => [f; g]
  end.
Definition names_changed (r : mail_request) : list rstr :=
  match r with
  | CreateFolder f | DeleteFolder f => [f]
  | RenameFolder f g => [f; g]
  | _ => []
  end.
Definition names_emptied (r : mail_request) : list rstr :=
  match r with ExpungeFolder f | DeleteFolder f => [f] | _ => [] end.

(** A label is an IMAP atom that is not a system flag. *)
Definition label_atom (l : rstr) : Prop :=
  l <> [] /\ str_len l <= 256 /\
  Forall (fun c => 33 <= c <= 126 /\ ~ c ∈ ATOM_SPECIALS) l /\ ~ to_ascii_lowercase l ∈ SYSTEM_FLAGS.

Lemma validate_label_guards l : validate_label l = Ok tt <->
  l <> [] /\ forallb is_ascii l = true /\ str_len l <= 256 /\ existsb (Z.eqb 0) (str_bytes l) = false /\
  starts_with [92] l = false /\ existsb (fun c => existsb (Z.eqb c) ATOM_SPECIALS) l = false /\
  existsb is_ascii_control l = false /\ existsb (str_eqb (to_ascii_lowercase l)) SYSTEM_FLAGS = false.
Proof.
  unfold validate_label. case_bool_decide; [naive_solver|].
  destruct (forallb is_ascii l); cbn [negb]; [|naive_solver].
  destruct (Z.ltb_spec MAX_LABEL_BYTES (str_len l)) as [Hl|Hl]; [unfold MAX_LABEL_BYTES in Hl; split; [done|lia]|].
  unfold MAX_LABEL_BYTES in Hl.
  destruct (existsb (Z.eqb 0) _); [naive_solver|]. destruct (starts_with _ l); [naive_solver|].
  destruct (existsb (fun c => _) l); [naive_solver|]. destruct (existsb is_ascii_control l); [naive_solver|].
  destruct (existsb _ SYSTEM_FLAGS); naive_solver.
Qed.

Lemma elem_of_existsb c l : existsb (Z.eqb c) l = false <-> ~ c ∈ l.
Proof.
  rewrite existsb_false. split.
  - intros Hn Hc. apply Hn in Hc. by rewrite Z.eqb_refl in Hc.
  - intros Hn x Hx. apply Z.eqb_neq. by intros ->.
Qed.

Lemma validate_label_ok l : Forall (fun c => 0 <= c) l -> validate_label l = Ok tt <-> label_atom l.
Proof.
  intros Hpos. rewrite validate_label_guards. unfold label_atom.
  assert (Hs : existsb (str_eqb (to_ascii_lowercase l)) SYSTEM_FLAGS = false <-> ~ to_ascii_lowercase l ∈ SYSTEM_FLAGS).
  { rewrite existsb_false. split.
    - intros Hn Hin. apply Hn in Hin. assert (str_eqb (to_ascii_lowercase l) (to_ascii_lowercase l) = true) by by apply str_eqb_eq.
      congruence.
    - intros Hn x Hx. apply not_true_iff_false. intros E%str_eqb_eq. by subst x. }
  rewrite Hs. clear Hs. rewrite List.forallb_forall, !existsb_false, !Forall_forall. rewrite Forall_forall in Hpos.
  split.
  - intros (Hn & Ha & Hl & _ & _ & Hsp & Hc & Hf). split; [done|]. split; [done|]. split; [|done].
    intros c Hin. specialize (Hc c Hin). specialize (Hsp c Hin). apply elem_of_existsb in Hsp as Hsp'.
    split; [|done]. specialize (Ha c). rewrite <- list_elem_of_In in Ha. specialize (Ha Hin).
    unfold is_ascii, is_ascii_control, between in *. specialize (Hpos c Hin).
    apply andb_true_iff in Ha as [_ Ha]. apply orb_false_iff in Hc as [Hc1 Hc2].
    apply andb_false_iff in Hc1. assert (c <> 32) by (intros ->; apply Hsp'; set_solver).
    destruct Hc1; zify_bool; lia.
  - intros (Hn & Hl & Hc & Hf). split; [done|].
    assert (Ha : forall c, c ∈ l -> 33 <= c <= 126) by (intros c Hin; by apply Hc).
    split. { intros c Hin%list_elem_of_In. apply Ha in Hin. unfold is_ascii, between. apply andb_true_iff. rewrite !Z.leb_le. lia. }
    split; [done|]. split.
    { intros b Hb%list_elem_of_In. unfold str_bytes in Hb. apply List.in_concat in Hb as (bs & Hbs & Hb).
      apply List.in_map_iff in Hbs as (c & <- & Hin%list_elem_of_In). apply Ha in Hin. unfold utf8_encode in Hb.
      destruct (Z.ltb_spec c 0x80); [|lia]. destruct Hb as [<-|[]]. apply Z.eqb_neq. lia. }
    split. { apply not_true_iff_false. intros (r & ->)%starts_with_spec. destruct (Hc 92) as [_ []]; set_solver. }
    split; [intros c Hin; by apply elem_of_existsb, Hc|]. split; [|done].
    intros c Hin. apply Ha in Hin. unfold is_ascii_control, between. apply orb_false_iff.
    rewrite andb_false_iff, !Z.leb_gt, Z.eqb_neq. lia.
Qed.

(** ** A logic for handlers *)

(** The calls made are a prefix of [p], and all of it on success. *)
Definition follows {A} (p : list imap_call) (m : tool A) : Prop :=
  m.1 `prefix_of` p /\ (is_ok m.2 = true -> m.1 = p).
(** Besides, a first call is made exactly when [G]. *)
Definition obeys {A} (G : Prop) (p : list imap_call) (m : tool A) : Prop :=
  follows p m /\ (m.1 <> [] <-> G).

Lemma obeys_check {A B} (G G' : Prop) p (r : result RimapError A) (f : A -> tool B) :
  (forall x, r = Ok x -> obeys G' p (f x)) -> (is_ok r = true /\ G' <-> G) -> obeys G p (check r ≫= f).
Proof.
  intros Hf HG. destruct r as [x|e].
  - specialize (Hf x eq_refl). unfold obeys, follows, mbind, logged_bind, check. destruct (f x) as [cs res].
    destruct Hf as [Hfo Hg]. split; [exact Hfo|]. cbn in *. rewrite Hg, <- HG. tauto.
  - split; [split; [apply prefix_nil|done]|]. rewrite <- HG. cbn. split; [done|]. by intros [].
Qed.

Lemma follows_check {A B} p (r : result RimapError A) (f : A -> tool B) :
  (forall x, r = Ok x -> follows p (f x)) -> follows p (check r ≫= f).
Proof.
  intros Hf. destruct r as [x|e]; [|split; [apply prefix_nil|done]].
  specialize (Hf x eq_refl). unfold mbind, logged_bind, check. by destruct (f x).
Qed.

Lemma follows_call {A B} c p (r : result ImapError A) (f : A -> tool B) :
  (forall x, follows p (f x)) -> follows (c :: p) (call c r ≫= f).
Proof.
  intros Hf. destruct r as [x|e]; [|split; [apply prefix_cons, prefix_nil|done]].
  destruct (Hf x) as (Hp & Ho). unfold mbind, logged_bind, call. cbn [map_err].
  destruct (f x) as [cs res]. cbn [fst snd] in *. split; [by apply prefix_cons|].
  intros Hr. cbn [app fst]. by rewrite (Ho Hr).
Qed.

Lemma obeys_call {A B} c p (r : result ImapError A) (f : A -> tool B) :
  (forall x, follows p (f x)) -> obeys True (c :: p) (call c r ≫= f).
Proof.
  intros Hf. split; [by apply follows_call|]. unfold mbind, logged_bind, call.
  destruct r as [x|e]; cbn [map_err]; [|done]. by destruct (f x).
Qed.

Lemma follows_ret {A} (x : A) : follows [] (mret x : tool A).
Proof. by split; [apply prefix_nil|]. Qed.

Lemma obeys_fmap {A B} G p (m : tool A) (g : A -> B) : obeys G p m -> obeys G p (g <$> m).
Proof. destruct m as [cs [x|e]]; intros H'; exact H'. Qed.

Lemma folder_input_ok label f : is_ok (validate_folder_input label f) = true <-> folder_name_new f = Ok f.
Proof.
  unfold validate_folder_input. destruct (folder_name_new f) as [g|] eqn:E; cbn; [|done].
  split; [|done]. intros _. f_equal. unfold folder_name_new in E. destruct (validate f); [by injection E as ->|done].
Qed.

Lemma is_ok_tt (r : result AuthzError unit) : is_ok (map_err rimap_of_authz r) = true <-> r = Ok tt.
Proof. by destruct r as [[]|]. Qed.
End tools.

(** ** The tools are confined *)

Section confined.
Context `{FolderText} `{ImapApi} (prot exp : list rstr) (special : SpecialUseMap).
Let a : account := mkAccount (folder_guard_new prot exp) special.

(** Its folder names are well formed, it changes no protected folder and
    empties only folders that may be emptied, and its label is acceptable. *)
Definition cleared (r : mail_request) : Prop :=
  Forall (fun f => folder_name_new f = Ok f) (names_used a r) /\
  Forall (fun f => normalize_folder_name f <> lit "inbox" /\
    forall p, p ∈ prot -> normalize_folder_name f <> normalize_folder_name p) (names_changed r) /\
  Forall (fun f => exists p, p ∈ exp /\ normalize_folder_name f = normalize_folder_name p) (names_emptied r) /\
  match r with AddLabel i | RemoveLabel i => validate_label (lb_label i) = Ok tt | _ => True end.

Lemma flag_op_obeys i flags action :
  obeys (folder_name_new (fl_folder i) = Ok (fl_folder i))
    [CallStore (fl_folder i) (into_uids (fl_target i)) flags action (fl_expected i)] (handle_flag_op i flags action).
Proof.
  eapply obeys_check with (G' := True); [|rewrite folder_input_ok; tauto]. intros _ _.
  apply obeys_call. intros [u v]. apply follows_ret.
Qed.

Lemma label_op_obeys i action :
  obeys (folder_name_new (lb_folder i) = Ok (lb_folder i) /\ validate_label (lb_label i) = Ok tt)
    [CallStore (lb_folder i) (into_uids (lb_target i)) [Keyword (lb_label i)] action (lb_expected i)] (handle_label_op i action).
Proof.
  eapply obeys_check with (G' := validate_label (lb_label i) = Ok tt); [|by rewrite folder_input_ok]. intros _ _.
  eapply obeys_check with (G' := True); [|destruct (validate_label _) as [[]|]; cbn; naive_solver]. intros _ _.
  apply obeys_call. intros [u v]. apply follows_ret.
Qed.

Lemma list_labels_obeys i :
  obeys (folder_name_new (ll_folder i) = Ok (ll_folder i))
    [CallFetch (ll_folder i) [ll_uid i] flags_spec (ll_expected i)] (handle_list_labels i).
Proof.
  eapply obeys_check with (G' := True); [|rewrite folder_input_ok; tauto]. intros _ _.
  apply obeys_call. intros [u v]. apply follows_check. intros m _. apply follows_ret.
Qed.

Lemma move_obeys i :
  obeys (folder_name_new (mv_folder i) = Ok (mv_folder i) /\ folder_name_new (mv_destination i) = Ok (mv_destination i))
    [CallMove (mv_folder i) (mv_destination i) (into_uids (mv_target i)) (mv_expected i)] (handle_move_message i).
Proof.
  eapply obeys_check; [|by rewrite folder_input_ok]. intros _ _.
  eapply obeys_check with (G' := True); [|rewrite folder_input_ok; tauto]. intros _ _.
  apply obeys_call. intros o. apply follows_ret.
Qed.

Lemma delete_obeys i :
  obeys (folder_name_new (dm_folder i) = Ok (dm_folder i) /\ folder_name_new (trash_folder a) = Ok (trash_folder a))
    [CallDelete (dm_folder i) (dm_uid i) (trash_folder a) (dm_expected i)] (handle_delete_message a i).
Proof.
  eapply obeys_check; [|by rewrite folder_input_ok]. intros _ _.
  eapply obeys_check with (G' := True); [|rewrite folder_input_ok; tauto]. intros _ _.
  apply obeys_call. intros [d uv]. apply follows_ret.
Qed.

Lemma expunge_obeys f :
  obeys (folder_name_new f = Ok f /\ check_expunge (folder_guard a) f = Ok tt) [CallExpunge f] (handle_expunge a f).
Proof.
  eapply obeys_check; [|by rewrite folder_input_ok]. intros _ _.
  eapply obeys_check with (G' := True); [|rewrite is_ok_tt; tauto]. intros _ _.
  apply obeys_call. intros [u n]. apply follows_ret.
Qed.

Lemma create_obeys f :
  obeys (folder_name_new f = Ok f /\ check_protected (folder_guard a) f (lit "create") = Ok tt) [CallCreate f]
    (handle_create_folder a f).
Proof.
  eapply obeys_check; [|by rewrite folder_input_ok]. intros _ _.
  eapply obeys_check with (G' := True); [|rewrite is_ok_tt; tauto]. intros _ _.
  apply obeys_call. intros _. apply follows_ret.
Qed.

Lemma rename_obeys f g :
  obeys (folder_name_new f = Ok f /\ folder_name_new g = Ok g /\ check_rename (folder_guard a) f g = Ok tt)
    [CallRename f g] (handle_rename_folder a f g).
Proof.
  eapply obeys_check; [|by rewrite folder_input_ok]. intros _ _.
  eapply obeys_check; [|by rewrite folder_input_ok]. intros _ _.
  eapply obeys_check with (G' := True); [|rewrite is_ok_tt; tauto]. intros _ _.
  apply obeys_call. intros _. apply follows_ret.
Qed.

Lemma delete_folder_obeys f :
  obeys (folder_name_new f = Ok f /\ check_protected (folder_guard a) f (lit "delete") = Ok tt /\
         check_expunge (folder_guard a) f = Ok tt)
    [CallStatus f count_items; CallDeleteFolder f] (handle_delete_folder a f).
Proof.
  eapply obeys_check; [|by rewrite folder_input_ok]. intros _ _.
  eapply obeys_check; [|by rewrite is_ok_tt]. intros _ _.
  eapply obeys_check with (G' := True); [|rewrite is_ok_tt; tauto]. intros _ _.
  apply obeys_call. intros s. apply follows_call. intros _. apply follows_ret.
Qed.

Lemma obeys_iff {A} (G G' : Prop) p (m : tool A) : (G <-> G') -> obeys G p m -> obeys G' p m.
Proof. intros HG [Hf Hg]. split; [done|]. by rewrite Hg. Qed.

Lemma Forall_pair {A} (P : A -> Prop) x y : Forall P [x; y] <-> P x /\ P y.
Proof. by rewrite Forall_cons, Forall_singleton. Qed.

Lemma serve_obeys r : obeys (cleared r) (plan a r) (serve a r).
Proof.
  unfold serve, plan, cleared.
  destruct r; cbn [names_used names_changed names_emptied];
    (eapply obeys_iff; [|apply obeys_fmap;
      first [apply flag_op_obeys|apply label_op_obeys|apply list_labels_obeys|apply move_obeys|apply delete_obeys
            |apply expunge_obeys|apply create_obeys|apply rename_obeys|apply delete_folder_obeys]]);
    cbn [folder_guard a];
    rewrite ?check_rename_ok, ?check_protected_ok, ?check_expunge_ok, ?Forall_pair, ?Forall_singleton, ?Forall_nil;
    tauto.
Qed.

(** C9: a mailbox tool does what was asked, after every check, and nothing
    else.  Its calls to the server are a prefix of the request's plan, and
    the whole plan when it succeeds; the first one is made exactly when every
    folder name is well formed, no folder to be created, renamed or deleted is
    INBOX or protected under any spelling, every folder to be expunged or
    deleted is on the allow-list, and a label passes validation. *)
Theorem mailbox_tools_confined r :
  let '(calls, outcome) := serve a r in
  calls `prefix_of` plan a r /\ (is_ok outcome = true -> calls = plan a r) /\ (calls <> [] <-> cleared r).
Proof. destruct (serve_obeys r) as [[Hp Ho] Hg]. by destruct (serve a r). Qed.
End confined.

(** ** Over the conversations of the connection *)

Section conversations.
Context (caps : ServerCapabilities) (rs : list reply) (srv : server)
  (status_answer : rstr -> rstr -> result ImapError status_entry)
  (create delete : rstr -> result ImapError unit) (rename : rstr -> rstr -> result ImapError unit).

Lemma conversation_move_reports src dst uids expected o :
  uids <> [] -> Forall (fun u => 0 <= u) uids ->
  answered (connection_move caps src dst uids expected rs) = Ok o -> map old_uid (results o) = uids.
Proof.
  intros Hne Hpos Ho.
  pose proof (move_triple (fun _ _ => false) (fun _ => false) caps uids ∅ Hne Hpos src dst expected rs _ eq_refl) as Ht.
  destruct (connection_move caps src dst uids expected rs) as [[cs rs'] r].
  destruct Ht as (_ & _ & _ & Hr). cbn in Ho. subst r. by destruct Hr as (? & ? & _ & (_ & _ & Hm) & _).
Qed.

Lemma conversation_delete_reports f uid trash expected d uv : 0 <= uid ->
  answered (connection_delete caps f uid trash expected rs) = Ok (d, uv) ->
  moved_to_trash d = negb (eq_ignore_ascii_case f trash).
Proof.
  intros Hu Ho. pose proof (delete_triple (fun _ _ => false) (fun _ => false) caps uid ∅ Hu f trash expected rs _ eq_refl) as Ht.
  destruct (connection_delete caps f uid trash expected rs) as [[cs rs'] r].
  destruct Ht as (_ & _ & _ & Hr). cbn in Ho. subst r. by destruct Hr as (_ & Hm & _).
Qed.

(** The connection keeps what the interface promises. *)
Definition mailbox_api : ImapApi := {|
  api_store_flags f us fl act ex := answered (connection_store f us fl act ex rs);
  api_move_messages s d us ex := answered (connection_move caps s d us ex rs);
  api_delete_message f u t ex := answered (connection_delete caps f u t ex rs);
  api_expunge f := answered (connection_expunge f rs);
  api_fetch f us spec ex := fetch srv f us spec ex;
  api_status := status status_answer;
  api_create_folder := Folders.create_folder create;
  api_rename_folder := Folders.rename_folder rename;
  api_delete_folder := Folders.delete_folder delete;
  move_reports := conversation_move_reports;
  delete_reports := conversation_delete_reports |}.
End conversations.

Section effects.
Context `{FolderText} `{ImapApi} (prot exp : list rstr) (special : SpecialUseMap).
Let a : account := mkAccount (folder_guard_new prot exp) special.

Definition flag_target (r : mail_request) : option (list Z) :=
  match r with
  | MarkRead i | MarkUnread i | FlagMessage i | UnflagMessage i => Some (into_uids (fl_target i))
  | AddLabel i | RemoveLabel i => Some (into_uids (lb_target i))
  | _ => None
  end.

Lemma plan_store r uids c : flag_target r = Some uids -> c ∈ plan a r ->
  exists f flags action expected, c = CallStore f uids flags action expected /\ ~ Deleted ∈ flags.
Proof.
  intros Ht Hc. destruct r; cbn in Ht; simplify_eq; cbn in Hc; apply list_elem_of_singleton in Hc as ->;
    do 4 eexists; (split; [reflexivity|]); intros Hd%list_elem_of_singleton; discriminate.
Qed.

(** The flag and label tools never delete.  Whatever the request's
    folder, label and UIDs, whatever the server answers, and wherever the
    conversation stops, each call that mark_read, mark_unread, flag, unflag,
    add_label or remove_label makes leaves every message in its folder with
    its \Deleted flag as it was. *)
Theorem flag_tools_never_delete r uids c partial unheard box rs :
  flag_target r = Some uids -> uids <> [] -> Forall (fun u => 0 <= u) uids -> c ∈ (serve a r).1 ->
  exists f flags action expected, c = CallStore f uids flags action expected /\
    source (replay partial unheard (sent (connection_store f uids flags action expected rs)) rs (mkMailbox box ∅)) = box.
Proof.
  intros Ht Hne Hpos Hc. destruct (serve_obeys prot exp special r) as [[[post Hp] _] _]. fold a in Hp.
  destruct (plan_store r uids c Ht) as (f & flags & action & expected & -> & Hd).
  { rewrite Hp. apply elem_of_app. by left. }
  exists f, flags, action, expected. split; [done|].
  pose proof (store_triple partial unheard uids flags action box f expected Hne Hpos rs _ eq_refl) as Hs.
  destruct (connection_store f uids flags action expected rs) as [[cs rs'] res]. destruct Hs as (_ & Hu & _).
  cbn [sent fst]. apply map_eq. intros u. destruct (Hu u) as [->|[_ ->]]; [done|].
  unfold new_flag. rewrite bool_decide_false by done. by destruct (box !! u) as [d|].
Qed.

(** Move_message and delete_message report what happened.  A successful
    move lists exactly the requested UIDs in order, and a successful delete
    says it moved the message exactly when the folder is not the Trash folder
    under any letter case, naming the folder it used; in both the warnings
    are present exactly when the server's outcome was not atomic, or
    swept the folder. *)
Theorem mutation_reports_faithful :
  (forall i cs resp, into_uids (mv_target i) <> [] -> Forall (fun u => 0 <= u) (into_uids (mv_target i)) ->
     handle_move_message i = (cs, Ok resp) ->
     map me_old_uid (mm_moves (resp_meta resp)) = into_uids (mv_target i) /\
     exists o, api_move_messages (mv_folder i) (mv_destination i) (into_uids (mv_target i)) (mv_expected i) = Ok o /\
       (ServerNonAtomicMoveFallback ∈ map code (resp_warnings resp) <-> used_fallback o = true) /\
       (ServerFolderWideExpungeDataLoss ∈ map code (resp_warnings resp) <-> folder_wide_expunge o = true)) /\
  (forall i cs resp, 0 <= dm_uid i -> handle_delete_message a i = (cs, Ok resp) ->
     dmm_moved_to_trash (resp_meta resp) = negb (eq_ignore_ascii_case (dm_folder i) (trash_folder a)) /\
     dmm_destination (resp_meta resp) = trash_folder a /\
     exists d uv, api_delete_message (dm_folder i) (dm_uid i) (trash_folder a) (dm_expected i) = Ok (d, uv) /\
       (ServerNonAtomicMoveFallback ∈ map code (resp_warnings resp) <-> delete_used_fallback d = true) /\
       (ServerFolderWideExpungeDataLoss ∈ map code (resp_warnings resp) <-> delete_folder_wide d = true)).
Proof.
  assert (Hw : forall u w, (ServerNonAtomicMoveFallback ∈ map code (fallback_security_warnings u w) <-> u = true) /\
    (ServerFolderWideExpungeDataLoss ∈ map code (fallback_security_warnings u w) <-> w = true)).
  { intros [] []; cbn; rewrite ?elem_of_cons, ?elem_of_nil; naive_solver. }
  split.
  - intros i cs resp Hne Hpos. unfold handle_move_message.
    destruct (validate_folder_input _ (mv_folder i)); [|done]. destruct (validate_folder_input _ (mv_destination i)); [|done].
    destruct (api_move_messages _ _ _ _) as [o|] eqn:Eo; [|done]. intros [= _ <-]. cbn.
    split; [|exists o; split; [done|apply Hw]]. rewrite map_map. cbn. by eapply move_reports.
  - intros i cs resp Hu. unfold handle_delete_message.
    destruct (validate_folder_input _ (dm_folder i)); [|done]. destruct (validate_folder_input _ (trash_folder a)); [|done].
    destruct (api_delete_message _ _ _ _) as [[d uv]|] eqn:Eo; [|done]. intros [= _ <-]. cbn.
    split; [by eapply delete_reports|]. split; [done|]. exists d, uv. split; [done|apply Hw].
Qed.
End effects.

(** ** At concrete inputs *)

#[local] Instance ascii_text : FolderText.
Proof. refine {| decode_utf7_imap s := s; to_lowercase := to_ascii_lowercase |}; done. Defined.

#[local] Instance sample_api : ImapApi :=
  mailbox_api (Known true true) (repeat (ReplyOk (Some 9) []) 3)
    (mkServer (fun _ => Ok (Some 9)) (fun _ _ => Ok []))
    (fun _ _ => Ok (mkStatus 2 0 None None None)) (fun _ => Ok tt) (fun _ => Ok tt) (fun _ _ => Ok tt).

(** An expungeable folder can be deleted, a protected one cannot be, under
    any spelling, and a label cannot name a system flag. *)
Example delete_folder_calls :
  let a := mkAccount (folder_guard_new [lit "Sent"] [lit "Old"; lit "sent"]) use_map_empty in
  (serve a (DeleteFolder (lit "OLD"))) = ([CallStatus (lit "OLD") count_items; CallDeleteFolder (lit "OLD")], Ok tt) /\
  (serve a (DeleteFolder (lit "SENT"))).1 = [] /\ (serve a (CreateFolder (lit "Inbox"))).1 = [] /\
  (serve a (AddLabel (mkLabelInput (lit "Old") (Uids.Single 3) (lit "dElEtEd") None))).1 = [] /\
  (serve a (AddLabel (mkLabelInput (lit "Old") (Uids.Single 3) (lit "Todo") None))).1 =
    [CallStore (lit "Old") [3] [Keyword (lit "Todo")] Add None].
Proof. vm_compute. repeat split. Qed.

Definition todo_request : mail_request := AddLabel (mkLabelInput (lit "Old") (Uids.Batch [1; 2]) (lit "Todo") None).
Lemma flag_tools_never_delete_witness :
  exists f flags action expected, CallStore (lit "Old") [1; 2] [Keyword (lit "Todo")] Add None = CallStore f [1; 2] flags action expected /\
    source (replay (fun _ _ => true) (fun _ => true) (sent (connection_store f [1; 2] flags action expected (repeat (ReplyOk (Some 9) []) 2)))
      (repeat (ReplyOk (Some 9) []) 2) (mkMailbox sample_box ∅)) = sample_box.
Proof.
  apply (flag_tools_never_delete [lit "Sent"] [] use_map_empty todo_request).
  - reflexivity.
  - discriminate.
  - apply List.Forall_cons; [apply Z.leb_le; reflexivity|]. apply List.Forall_cons; [apply Z.leb_le; reflexivity|].
    apply List.Forall_nil.
  - vm_compute. left.
Defined.

Definition sample_moved : ToolResponse MoveMessageMeta unit :=
  mkResponse (mkMoveMeta (lit "INBOX") (lit "Old") [mkMoveEntry 4 None; mkMoveEntry 2 None] None None) None [].
Lemma mutation_reports_faithful_witness :
  map me_old_uid (mm_moves (resp_meta sample_moved)) = [4; 2] /\
  is_ok (handle_move_message (mkMoveInput (lit "INBOX") (lit "Old") (Uids.Batch [4; 2]) None)).2 = true.
Proof.
  split; [|vm_compute; reflexivity].
  refine (proj1 (proj1 (mutation_reports_faithful [] [] use_map_empty)
    (mkMoveInput (lit "INBOX") (lit "Old") (Uids.Batch [4; 2]) None)
    [CallMove (lit "INBOX") (lit "Old") [4; 2] None] sample_moved _ _ _)).
  - discriminate.
  - apply List.Forall_cons; [apply Z.leb_le; reflexivity|]. apply List.Forall_cons; [apply Z.leb_le; reflexivity|].
    apply List.Forall_nil.
  - vm_compute. reflexivity.
Defined.

(** A malformed folder name is refused by the tools' own validation, with the
    label of the argument, before the folder guard sees it. *)
Lemma malformed_name_error a (f : rstr) e : folder_name_new f = Err e ->
  (serve a (DeleteFolder f)).2 = Err (invalid_input (lit "folder: invalid folder name: " ++ e)) /\
  rimap_of_authz (AInvalidFolderName e) <> invalid_input (lit "folder: invalid folder name: " ++ e).
Proof.
  intros E. split; [|by intros [=]].
  unfold serve, handle_delete_folder, validate_folder_input. by rewrite E.
Qed.
