(* ===== verification/Config.v ===== *)
(** * Configuration (crates/rimap-config: model.rs, loader.rs, error.rs,
    validate/; crates/rimap-core/src/tls.rs)

    From the deserialised file to the validated accounts: the per-field
    inheritance of [defaults], every validation rule in the order it is tried,
    and the detection of the file format.  The TOML parser and the file system
    are arguments. *)

From Stdlib Require Import ZArith Lia.
From stdpp Require Import base option list numbers strings gmap sorting sets.
From S2P Require Import Prelude RustStr Tools Errors Names Authz Sandbox.
Local Open Scope Z_scope.

#[export] Instance Verdict_eq_dec : EqDecision Verdict.
Proof. solve_decision. Defined.

(** ** Errors *)

(* [crates/rimap-config/src/error.rs:14-206] ConfigError *)
Inductive ConfigError :=
  | CNotFound (path : rstr)
  | CRead (path source : rstr)
  | CParse (path source : rstr)
  | CPosture (name : rstr)
  | CToolOverride (name : rstr)
  | CTlsFingerprint (reason : rstr)
  | CPathNotWritable (path reason : rstr)
  | CAuditPathOutsideBase (path base : rstr)
  | CInvalidLimit (field reason : rstr)
  | CNoCredential (host account_tag reason : rstr)
  | CKeychain (host account_tag source : rstr)
  | CSmtpRequired (posture : Posture)
  | CSmtpRequiredByOverride (posture : Posture)
  | CConflictingFolders (folder : rstr)
  | CSmtpPlaintextDenied (host : rstr)
  | CDuplicateAccountName (name : rstr)
  | CMixedConfigFormat
  | CInvalidAccountName (e : InvalidAccountName)
  | CNoAccounts.

(** ** Blocks of the file *)

(* [crates/rimap-core/src/imap_encryption.rs:12-18] ImapEncryption *)
Inductive ImapEncryption := ImapTls | ImapStarttls.

(* [crates/rimap-config/src/model.rs:93-114] ImapConfig *)
Record ImapConfig := mkImap {
  imap_host : rstr; imap_port : Z; imap_username : rstr; imap_encryption : ImapEncryption;
  tls_fingerprint_sha256 : option rstr;
  imap_command_timeout : Z; imap_connect_timeout : Z }.

(* [crates/rimap-config/src/model.rs:136-142] default_command_timeout *)
Definition default_command_timeout : Z := 30.
(* [crates/rimap-config/src/model.rs:140-142] default_connect_timeout *)
Definition default_connect_timeout : Z := 10.

(* [crates/rimap-config/src/model.rs:123-133] ImapConfig::new *)
Definition imap_new (host : rstr) (port : Z) (username : rstr) : ImapConfig :=
  mkImap host port username ImapTls None default_command_timeout default_connect_timeout.

(* [crates/rimap-config/src/model.rs:164-170] FallbackMode *)
Inductive FallbackMode := KeyringThenEnv | KeyringOnly.
#[export] Instance FallbackMode_eq_dec : EqDecision FallbackMode.
Proof. solve_decision. Defined.

(* [crates/rimap-config/src/model.rs:185-192] SmtpEncryption *)
Inductive SmtpEncryption := SmtpStarttls | SmtpTls | SmtpNone.
#[export] Instance SmtpEncryption_eq_dec : EqDecision SmtpEncryption.
Proof. solve_decision. Defined.

(* [crates/rimap-config/src/model.rs:205-217] SmtpConfig *)
Record SmtpConfig := mkSmtp {
  smtp_host : rstr; smtp_port : Z; smtp_encryption : SmtpEncryption; smtp_username : rstr;
  smtp_command_timeout : Z }.

(* [crates/rimap-config/src/model.rs:306-316] LookalikeConfig *)
Record LookalikeConfig := mkLookalike {
  lookalike_enabled : bool; known_domains : list rstr; warn_on_any_non_ascii_domain : bool }.

(* [crates/rimap-config/src/model.rs:319-325] LookalikeConfig::default *)
Definition lookalike_default : LookalikeConfig := mkLookalike true [] false.

(** [security.tools] is a map ordered by its keys. *)
(* [crates/rimap-config/src/model.rs:262-279] SecurityConfig *)
Record SecurityConfig := mkSecurity {
  posture : Posture; tools : gmap rstr Verdict;
  protected_folders : list rstr; expunge_folders : list rstr; lookalike : LookalikeConfig }.

(* [crates/rimap-config/src/model.rs:293-300] default_protected_folders *)
Definition default_protected_folders : list rstr := [lit "INBOX"; lit "Sent"; lit "Drafts"; lit "Trash"].

(* [crates/rimap-config/src/model.rs:282-290] SecurityConfig::default *)
Definition security_default : SecurityConfig :=
  mkSecurity DraftSafe ∅ default_protected_folders [] lookalike_default.

(* [crates/rimap-config/src/model.rs:336-374] LimitsConfig *)
Record LimitsConfig := mkLimits {
  max_search_results : Z; max_search_results_cap : Z;
  max_fetch_body_bytes : Z; max_attachment_bytes : Z; max_append_bytes : Z;
  commands_per_second : Z; drafts_per_minute : Z; sends_per_minute : Z;
  circuit_breaker_error_threshold : Z; circuit_breaker_window_seconds : Z;
  tool_call_timeout_seconds : Z }.

(* [crates/rimap-config/src/model.rs:377-391] LimitsConfig::default *)
Definition limits_default : LimitsConfig :=
  mkLimits 200 1000 5242880 26214400 10485760 10 5 3 5 30 300.

(* [crates/rimap-config/src/model.rs:438-481] AuditConfig *)
Record AuditConfig := mkAudit {
  audit_path : rstr; rotate_bytes : Z; rotate_keep : Z; retention_seconds : option Z;
  provenance_window_seconds : Z; write_deadline_seconds : Z; fail_open : bool;
  allowed_base_dir : option rstr }.

(* [crates/rimap-config/src/model.rs:489-500] AuditConfig::new *)
Definition audit_new (path : rstr) : AuditConfig := mkAudit path 10485760 5 None 60 15 false None.

(* [crates/rimap-config/src/model.rs:521-525] AttachmentsConfig *)
Record AttachmentsConfig := mkAttachments { download_dir : rstr }.

(* [crates/rimap-config/src/model.rs:44-61] Config *)
Record Config := mkConfig {
  c_imap : ImapConfig; c_smtp : option SmtpConfig; c_security : SecurityConfig; c_limits : LimitsConfig;
  c_audit : AuditConfig; c_attachments : AttachmentsConfig }.

(* [crates/rimap-config/src/model.rs:555-565] DefaultsConfig *)
Record DefaultsConfig := mkDefaults {
  d_security : SecurityConfig; d_limits : LimitsConfig; d_fallback : FallbackMode }.

(** ** What one account overrides *)

(* [crates/rimap-config/src/model.rs:622-645] AccountLimitsOverrides *)
Record AccountLimitsOverrides := mkLimitsOver {
  o_max_search_results : option Z; o_max_search_results_cap : option Z;
  o_max_fetch_body_bytes : option Z; o_max_attachment_bytes : option Z; o_max_append_bytes : option Z;
  o_commands_per_second : option Z; o_drafts_per_minute : option Z; o_sends_per_minute : option Z;
  o_circuit_breaker_error_threshold : option Z; o_circuit_breaker_window_seconds : option Z;
  o_tool_call_timeout_seconds : option Z }.

(* [crates/rimap-config/src/model.rs:658-693] AccountLimitsOverrides::merge_onto *)
Definition limits_merge (o : AccountLimitsOverrides) (base : LimitsConfig) : LimitsConfig :=
  mkLimits
    (default (max_search_results base) (o_max_search_results o))
    (default (max_search_results_cap base) (o_max_search_results_cap o))
    (default (max_fetch_body_bytes base) (o_max_fetch_body_bytes o))
    (default (max_attachment_bytes base) (o_max_attachment_bytes o))
    (default (max_append_bytes base) (o_max_append_bytes o))
    (default (commands_per_second base) (o_commands_per_second o))
    (default (drafts_per_minute base) (o_drafts_per_minute o))
    (default (sends_per_minute base) (o_sends_per_minute o))
    (default (circuit_breaker_error_threshold base) (o_circuit_breaker_error_threshold o))
    (default (circuit_breaker_window_seconds base) (o_circuit_breaker_window_seconds o))
    (default (tool_call_timeout_seconds base) (o_tool_call_timeout_seconds o)).

(* [crates/rimap-config/src/model.rs:756-764] AccountLookalikeOverrides *)
Record AccountLookalikeOverrides := mkLookalikeOver {
  o_enabled : option bool; o_known_domains : option (list rstr); o_warn_on_any_non_ascii_domain : option bool }.

(* [crates/rimap-config/src/model.rs:771-784] AccountLookalikeOverrides::merge_onto *)
Definition lookalike_merge (o : AccountLookalikeOverrides) (base : LookalikeConfig) : LookalikeConfig :=
  mkLookalike (default (lookalike_enabled base) (o_enabled o))
    (default (known_domains base) (o_known_domains o))
    (default (warn_on_any_non_ascii_domain base) (o_warn_on_any_non_ascii_domain o)).

(* [crates/rimap-config/src/model.rs:703-719] AccountSecurityOverrides *)
Record AccountSecurityOverrides := mkSecurityOver {
  o_posture : option Posture; o_tools : option (gmap rstr Verdict);
  o_protected_folders : option (list rstr); o_expunge_folders : option (list rstr);
  o_lookalike : option AccountLookalikeOverrides }.

(** [tools.extend(overriding)]: the account's entry wins. *)
(* [crates/rimap-config/src/model.rs:726-748] AccountSecurityOverrides::merge_onto *)
Definition security_merge (o : AccountSecurityOverrides) (base : SecurityConfig) : SecurityConfig :=
  mkSecurity (default (posture base) (o_posture o))
    (match o_tools o with Some overriding => overriding ∪ tools base | None => tools base end)
    (default (protected_folders base) (o_protected_folders o))
    (default (expunge_folders base) (o_expunge_folders o))
    (match o_lookalike o with Some l => lookalike_merge l (lookalike base) | None => lookalike base end).

(* [crates/rimap-config/src/model.rs:574-597] RawAccountConfig *)
Record RawAccountConfig := mkRaw {
  r_name : rstr; r_imap : ImapConfig; r_smtp : option SmtpConfig;
  r_security : option AccountSecurityOverrides; r_limits : option AccountLimitsOverrides;
  r_credentials : option (option FallbackMode) }.

(* [crates/rimap-config/src/model.rs:538-549] MultiAccountConfig *)
Record MultiAccountConfig := mkMulti {
  m_defaults : DefaultsConfig; m_accounts : list RawAccountConfig;
  m_audit : AuditConfig; m_attachments : AttachmentsConfig }.

(** ** The pinned certificate *)

(* [crates/rimap-core/src/tls.rs:21-32] FingerprintParseError *)
Inductive FingerprintParseError := WrongLength (got : Z) | NonHex (ch : Z).

(* [crates/rimap-core/src/tls.rs:34-43] FingerprintParseError::fmt *)
Definition fingerprint_error_to_string (e : FingerprintParseError) : rstr :=
  match e with
  | WrongLength got => lit "fingerprint must be 64 hex chars, got " ++ to_decimal got
  | NonHex ch => lit "non-hex character `" ++ [ch] ++ lit "` in fingerprint"
  end.

(** [hex::decode] and [hex::encode]. *)
Definition hex_value (c : Z) : option Z :=
  if between 48 57 c then Some (c - 48)
  else if between 97 102 c then Some (c - 87)
  else if between 65 70 c then Some (c - 55) else None.
Fixpoint hex_decode (s : rstr) : option (list Z) :=
  match s with
  | [] => Some []
  | [_] => None
  | a :: b :: s' => x ← hex_value a; y ← hex_value b; rest ← hex_decode s'; Some (x * 16 + y :: rest)
  end.
Definition hex_nibble (upper : bool) (n : Z) : Z := if n <? 10 then 48 + n else if upper then 55 + n else 87 + n.
Definition hex_encode (upper : bool) (bs : list Z) : rstr :=
  concat (map (fun b => [hex_nibble upper (b / 16); hex_nibble upper (b mod 16)]) bs).

(* [crates/rimap-core/src/tls.rs:53-72] TlsFingerprint::from_hex *)
Definition fingerprint_from_hex (s : rstr) : result FingerprintParseError (list Z) :=
  let cleaned := List.filter (fun c => negb (c =? 58)) s in
  if negb (str_len cleaned =? 64) then Err (WrongLength (str_len cleaned))
  else match List.find (fun c => negb (is_ascii_hexdigit c)) cleaned with
  | Some ch => Err (NonHex ch)
  | None =>
      match hex_decode cleaned with
      | Some bytes => if (length bytes =? 32)%nat then Ok bytes else Err (WrongLength (str_len cleaned))
      | None => Err (WrongLength (str_len cleaned))
      end
  end.

(* [crates/rimap-core/src/tls.rs:93-95] TlsFingerprint::to_hex *)
Definition fingerprint_to_hex (fp : list Z) : rstr := hex_encode false fp.

Fixpoint colon_pairs (i : nat) (s : rstr) : rstr :=
  match s with
  | [] => []
  | c :: s' => (if (0 <? i)%nat && Nat.even i then [58] else []) ++ c :: colon_pairs (S i) s'
  end.
(* [crates/rimap-core/src/tls.rs:99-109] TlsFingerprint::to_hex_colon *)
Definition fingerprint_to_hex_colon (fp : list Z) : rstr := colon_pairs 0 (hex_encode true fp).

(** ** Rules on one account *)

(* [crates/rimap-config/src/validate/identity.rs:15-32] validate_username_field *)
Definition validate_username_field (username field : rstr) : result ConfigError unit :=
  if bool_decide (username = []) then Err (CInvalidLimit field (lit "username must not be empty"))
  else if existsb (fun c => (c =? 13) || (c =? 10) || (c =? 0)) username
  then Err (CInvalidLimit field (lit "username must not contain CR, LF, or NUL"))
  else Ok tt.

(* [crates/rimap-config/src/validate/identity.rs:34-44] parse_fingerprint *)
Definition parse_fingerprint (maybe_fp : option rstr) : result ConfigError (option (list Z)) :=
  match maybe_fp with
  | None => Ok None
  | Some raw =>
      fp ← map_err (fun e => CTlsFingerprint (fingerprint_error_to_string e)) (fingerprint_from_hex raw);
      Ok (Some fp)
  end.

(* [crates/rimap-config/src/validate/limits.rs:12-25] reject_zero *)
Fixpoint reject_zero {T} (block : T) (checks : list (rstr * (T -> Z))) : result ConfigError unit :=
  match checks with
  | [] => Ok tt
  | (field, accessor) :: checks' =>
      if accessor block =? 0 then Err (CInvalidLimit field (lit "must be > 0")) else reject_zero block checks'
  end.

(* [crates/rimap-config/src/validate/limits.rs:38-45] IMAP_CHECKS *)
Definition IMAP_CHECKS : list (rstr * (ImapConfig -> Z)) :=
  [(lit "imap.command_timeout_seconds", imap_command_timeout);
   (lit "imap.connect_timeout_seconds", imap_connect_timeout)].
(* [crates/rimap-config/src/validate/limits.rs:47-50] SMTP_CHECKS *)
Definition SMTP_CHECKS : list (rstr * (SmtpConfig -> Z)) :=
  [(lit "smtp.command_timeout_seconds", smtp_command_timeout)].

(* [crates/rimap-config/src/validate/limits.rs:33-57] validate_timeouts *)
Definition validate_timeouts (imap : ImapConfig) (smtp : option SmtpConfig) : result ConfigError unit :=
  _ ← reject_zero imap IMAP_CHECKS;
  match smtp with Some smtp => reject_zero smtp SMTP_CHECKS | None => Ok tt end.

Definition u64_saturating_mul (a b : Z) : Z := Z.min u64_max (a * b).

(* [crates/rimap-config/src/validate/limits.rs:76-83] imap_operation_bounded_seconds *)
Definition imap_operation_bounded_seconds (imap : ImapConfig) : Z :=
  u64_saturating_mul
    (u64_saturating_add (u64_saturating_mul 2 (imap_command_timeout imap)) (imap_connect_timeout imap)) 2.

(* [crates/rimap-config/src/validate/limits.rs:103-134] validate_tool_call_ceiling *)
Definition validate_tool_call_ceiling (imap : ImapConfig) (smtp : option SmtpConfig) (limits : LimitsConfig)
    : result ConfigError unit :=
  let imap_seconds := imap_operation_bounded_seconds imap in
  let smtp_seconds := match smtp with Some s => smtp_command_timeout s | None => 0 end in
  let minimum := u64_saturating_add imap_seconds smtp_seconds in
  if minimum <=? tool_call_timeout_seconds limits then Ok tt
  else
    let smtp_term := match smtp with
      | Some s => lit " + smtp.command_timeout_seconds " ++ to_decimal (smtp_command_timeout s)
          ++ lit "s for the send that precedes the Sent-folder append"
      | None => [] end in
    Err (CInvalidLimit (lit "limits.tool_call_timeout_seconds")
      (to_decimal (tool_call_timeout_seconds limits) ++ lit "s is below the " ++ to_decimal minimum
       ++ lit "s a tool call can take with every per-stage deadline still honouring it (2 attempts x (2 x imap.command_timeout_seconds "
       ++ to_decimal (imap_command_timeout imap) ++ lit "s + imap.connect_timeout_seconds "
       ++ to_decimal (imap_connect_timeout imap) ++ lit "s)" ++ smtp_term
       ++ lit "); raise the ceiling or lower the per-stage timeouts")).

(* [crates/rimap-config/src/validate/limits.rs:139-162] ZERO_CHECKS *)
Definition ZERO_CHECKS : list (rstr * (LimitsConfig -> Z)) :=
  [(lit "limits.commands_per_second", commands_per_second);
   (lit "limits.drafts_per_minute", drafts_per_minute);
   (lit "limits.sends_per_minute", sends_per_minute);
   (lit "limits.circuit_breaker_error_threshold", circuit_breaker_error_threshold);
   (lit "limits.circuit_breaker_window_seconds", circuit_breaker_window_seconds);
   (lit "limits.max_search_results", max_search_results);
   (lit "limits.max_fetch_body_bytes", max_fetch_body_bytes);
   (lit "limits.max_attachment_bytes", max_attachment_bytes);
   (lit "limits.max_append_bytes", max_append_bytes);
   (lit "limits.tool_call_timeout_seconds", tool_call_timeout_seconds)].

(* [crates/rimap-config/src/validate/limits.rs:136-174] validate_limits *)
Definition validate_limits (limits : LimitsConfig) : result ConfigError unit :=
  _ ← reject_zero limits ZERO_CHECKS;
  if max_search_results_cap limits <? max_search_results limits
  then Err (CInvalidLimit (lit "limits.max_search_results")
    (lit "default " ++ to_decimal (max_search_results limits) ++ lit " exceeds cap "
     ++ to_decimal (max_search_results_cap limits)))
  else Ok tt.

(* [crates/rimap-config/src/validate/rules.rs:31-55] validate_smtp_required *)
Definition validate_smtp_required (security : SecurityConfig) (tool_overrides : gmap ToolName Verdict)
    (smtp : option SmtpConfig) : result ConfigError unit :=
  let send_email_base := base_allows (posture security) SendEmail in
  let send_email_effective :=
    match tool_overrides !! SendEmail with Some Allow => true | Some Deny => false | None => send_email_base end in
  if send_email_effective && match smtp with None => true | Some _ => false end then
    let enabled_by_override :=
      negb send_email_base && match tool_overrides !! SendEmail with Some Allow => true | _ => false end in
    Err (if enabled_by_override then CSmtpRequiredByOverride (posture security) else CSmtpRequired (posture security))
  else Ok tt.

(* [crates/rimap-config/src/validate/rules.rs:57-69] validate_smtp_encryption *)
Definition validate_smtp_encryption (smtp : option SmtpConfig) : result ConfigError unit :=
  match smtp with
  | None => Ok tt
  | Some smtp =>
      if bool_decide (smtp_encryption smtp = SmtpNone) then
        let host := smtp_host smtp in
        if str_eqb host (lit "localhost") || str_eqb host (lit "127.0.0.1") || str_eqb host (lit "::1")
        then Ok tt else Err (CSmtpPlaintextDenied host)
      else Ok tt
  end.

(** Iterating a [BTreeMap] or a [BTreeSet] goes in the order of its keys. *)
Definition key_le {A} (p q : rstr * A) : Prop := str_leb p.1 q.1 = true.
#[export] Instance key_le_dec {A} : RelDecision (@key_le A).
Proof. intros p q. unfold key_le. apply _. Defined.
Definition btree_iter {A} (m : gmap rstr A) : list (rstr * A) := merge_sort key_le (map_to_list m).

(* [crates/rimap-config/src/validate/rules.rs:71-80] resolve_tool_overrides *)
Fixpoint resolve_entries (entries : list (rstr * Verdict)) (out : gmap ToolName Verdict)
    : result ConfigError (gmap ToolName Verdict) :=
  match entries with
  | [] => Ok out
  | (name, verdict) :: entries' =>
      tool ← map_err CToolOverride (tool_from_str name);
      resolve_entries entries' (<[tool := verdict]> out)
  end.
(* [crates/rimap-config/src/validate/rules.rs:71-80] resolve_tool_overrides *)
Definition resolve_tool_overrides (security : SecurityConfig) : result ConfigError (gmap ToolName Verdict) :=
  resolve_entries (btree_iter (tools security)) ∅.

(* [crates/rimap-config/src/validate/compose.rs:370-373] validate_account *)
Fixpoint resolve_keys (keys : list rstr) : result ConfigError (gset ToolName) :=
  match keys with
  | [] => Ok ∅
  | name :: keys' => tool ← map_err CToolOverride (tool_from_str name); rest ← resolve_keys keys'; Ok ({[tool]} ∪ rest)
  end.

Section folders.
Context `{FolderText}.

(* [crates/rimap-config/src/validate/rules.rs:20-27] validate_folder_safety *)
Fixpoint check_expungeable (protected : list rstr) (folders : list rstr) : result ConfigError unit :=
  match folders with
  | [] => Ok tt
  | folder :: folders' =>
      if existsb (str_eqb (to_lowercase (decode_utf7_imap folder))) protected then Err (CConflictingFolders folder)
      else check_expungeable protected folders'
  end.
(* [crates/rimap-config/src/validate/rules.rs:12-29] validate_folder_safety *)
Definition validate_folder_safety (security : SecurityConfig) : result ConfigError unit :=
  check_expungeable
    (map (fun f => to_lowercase (decode_utf7_imap f)) (protected_folders security) ++ [lit "inbox"])
    (expunge_folders security).

(* [crates/rimap-config/src/validate/compose.rs:33-80] ValidatedAccountConfig *)
Record ValidatedAccountConfig := mkValidated {
  v_id : rstr; v_imap : ImapConfig; v_smtp : option SmtpConfig; v_security : SecurityConfig;
  v_limits : LimitsConfig; v_tool_overrides : gmap ToolName Verdict;
  v_account_written_tools : gset ToolName;
  v_account_written_protected : bool; v_account_written_expunge : bool;
  v_tls_fingerprint : option (list Z); v_fallback_mode : FallbackMode }.

(* [crates/rimap-config/src/validate/compose.rs:323-340] ValidateAccountInputs *)
Record ValidateAccountInputs := mkInputs {
  in_id : rstr; in_imap : ImapConfig; in_smtp : option SmtpConfig; in_security : SecurityConfig;
  in_limits : LimitsConfig; in_fallback : FallbackMode; in_written_tool_keys : gset rstr;
  in_written_protected : bool; in_written_expunge : bool }.

(* [crates/rimap-config/src/validate/compose.rs:343-390] validate_account *)
Definition validate_account (i : ValidateAccountInputs) : result ConfigError ValidatedAccountConfig :=
  tls_fingerprint ← parse_fingerprint (tls_fingerprint_sha256 (in_imap i));
  _ ← validate_username_field (imap_username (in_imap i)) (lit "imap.username");
  _ ← match in_smtp i with
      | Some s => validate_username_field (smtp_username s) (lit "smtp.username") | None => Ok tt end;
  _ ← validate_timeouts (in_imap i) (in_smtp i);
  _ ← validate_limits (in_limits i);
  _ ← validate_tool_call_ceiling (in_imap i) (in_smtp i) (in_limits i);
  _ ← validate_folder_safety (in_security i);
  tool_overrides ← resolve_tool_overrides (in_security i);
  account_written_tools ← resolve_keys (map fst (btree_iter (gset_to_gmap tt (in_written_tool_keys i))));
  _ ← validate_smtp_required (in_security i) tool_overrides (in_smtp i);
  _ ← validate_smtp_encryption (in_smtp i);
  Ok (mkValidated (in_id i) (in_imap i) (in_smtp i) (in_security i) (in_limits i) tool_overrides
        account_written_tools (in_written_protected i) (in_written_expunge i) tls_fingerprint (in_fallback i)).

(** ** Paths *)

(** What the file system answers; a mode is the bits of [st_mode]. *)
Record fs_stat := mkStat { is_dir : bool; is_link : bool; mode : Z }.
Record file_system := mkFs {
  fs_exists : rstr -> bool;
  fs_metadata : rstr -> result rstr fs_stat;
  fs_symlink_metadata : rstr -> result rstr fs_stat;
  fs_canonicalize : rstr -> result rstr rstr;
  platform_base : option rstr }.

(* [crates/rimap-config/src/validate/paths.rs:10-20] validate_audit_config *)
Definition validate_audit_config (audit : AuditConfig) : result ConfigError unit :=
  if bool_decide (retention_seconds audit = Some 0)
  then Err (CInvalidLimit (lit "audit.retention_seconds")
    (lit "must be > 0 (use None / omit the field to disable time-based retention)"))
  else Ok tt.

(** A directory is read-only when no write bit of its mode is set. *)
(* [crates/rimap-config/src/validate/paths.rs:232-256] require_writable_dir *)
Definition require_writable_dir (fs : file_system) (dir : rstr) : result ConfigError unit :=
  if negb (fs_exists fs dir) then Err (CPathNotWritable dir (lit "directory does not exist"))
  else
    meta ← map_err (fun e => CPathNotWritable dir (lit "stat failed: " ++ e)) (fs_metadata fs dir);
    if negb (is_dir meta) then Err (CPathNotWritable dir (lit "not a directory"))
    else if Z.land (mode meta) 0x92 =? 0 then Err (CPathNotWritable dir (lit "directory is read-only"))
    else Ok tt.

(* [crates/rimap-config/src/validate/paths.rs:190-230] enforce_audit_containment *)
Definition enforce_audit_containment (fs : file_system) (audit : AuditConfig) : result ConfigError unit :=
  let path := audit_path audit in
  match path_parent path with
  | None => Err (CPathNotWritable path (lit "audit path has no parent directory"))
  | Some parent =>
      canon_parent ← map_err (fun e => CPathNotWritable parent (lit "canonicalize parent: " ++ e)) (fs_canonicalize fs parent);
      match path_file_name path with
      | None => Err (CPathNotWritable path (lit "audit path has no file name"))
      | Some file_name =>
          let canon_path := path_join canon_parent file_name in
          match (match allowed_base_dir audit with Some b => Some b | None => platform_base fs end) with
          | None => Err (CPathNotWritable path (lit "no allowed_base_dir configured and platform default unavailable"))
          | Some base =>
              canon_base ← map_err (fun e => CPathNotWritable base (lit "canonicalize allowed_base_dir: " ++ e)) (fs_canonicalize fs base);
              if path_starts_with canon_path canon_base then Ok tt else Err (CAuditPathOutsideBase canon_path canon_base)
          end
      end
  end.

(* [crates/rimap-config/src/validate/paths.rs:22-39] validate_paths_multi *)
Definition validate_paths_multi (fs : file_system) (audit : AuditConfig) (attachments : AttachmentsConfig)
    : result ConfigError unit :=
  match path_parent (audit_path audit) with
  | None => Err (CPathNotWritable (audit_path audit) (lit "audit path has no parent directory"))
  | Some audit_parent =>
      _ ← require_writable_dir fs audit_parent;
      _ ← enforce_audit_containment fs audit;
      if bool_decide (download_dir attachments = []) then Ok tt else require_writable_dir fs (download_dir attachments)
  end.

Fixpoint octal_fuel (fuel : nat) (n : Z) : rstr :=
  match fuel with
  | O => []
  | S f => if n <? 8 then [48 + n] else octal_fuel f (n / 8) ++ [48 + n mod 8]
  end.
Definition to_octal (n : Z) : rstr := octal_fuel (S (Z.to_nat (Z.log2 n))) n.

(* [crates/rimap-config/src/validate/paths.rs:118-152] check_export_download_root_parent *)
Definition check_export_download_root_parent (fs : file_system) (download_root : rstr) : result ConfigError unit :=
  canonical ← map_err (fun e => CPathNotWritable download_root (lit "canonicalize download root: " ++ e))
    (fs_canonicalize fs download_root);
  match path_parent canonical with
  | None => Ok tt
  | Some parent =>
      meta ← map_err (fun e => CPathNotWritable parent (lit "cannot stat download-root parent: " ++ e)) (fs_metadata fs parent);
      let group_or_world_writable := negb (Z.land (mode meta) 0x12 =? 0) in
      let sticky := negb (Z.land (mode meta) 0x200 =? 0) in
      if group_or_world_writable && negb sticky
      then Err (CPathNotWritable parent (lit "export_messages download root's parent " ++ parent
        ++ lit " is group/world-writable without the sticky bit (mode " ++ to_octal (Z.land (mode meta) 0xFFF)
        ++ lit "); another user could swap the download root. Use a server-private parent or set the sticky bit"))
      else Ok tt
  end.

(* [crates/rimap-config/src/validate/paths.rs:69-107] check_export_download_root_private *)
Definition check_export_download_root_private (fs : file_system) (download_root : rstr) : result ConfigError unit :=
  link_meta ← map_err (fun e => CPathNotWritable download_root (lit "cannot stat download root: " ++ e))
    (fs_symlink_metadata fs download_root);
  if is_link link_meta
  then Err (CPathNotWritable download_root (lit "export_messages download root is a symlink; it must be a real directory so its resolved path cannot be redirected to an attacker-writable target"))
  else if negb (Z.land (mode link_meta) 0x12 =? 0)
  then Err (CPathNotWritable download_root (lit "export_messages is enabled but the download root is group/world-writable (mode "
    ++ to_octal (Z.land (mode link_meta) 0x1FF) ++ lit "); export_messages requires a server-private download root"))
  else check_export_download_root_parent fs download_root.

(* [crates/rimap-config/src/validate/paths.rs:58-66] validate_export_download_root *)
Definition validate_export_download_root (fs : file_system) (attachments : AttachmentsConfig) (export_enabled : bool)
    : result ConfigError unit :=
  if negb export_enabled || bool_decide (download_dir attachments = []) then Ok tt
  else check_export_download_root_private fs (download_dir attachments).

(** ** All accounts *)

(* [crates/rimap-config/src/validate/compose.rs:90-97] ValidatedMultiConfig *)
Record ValidatedMultiConfig := mkValidatedMulti {
  accounts : gmap rstr ValidatedAccountConfig; vm_audit : AuditConfig; vm_attachments : AttachmentsConfig }.

(* [crates/rimap-config/src/validate/compose.rs:278-285] export_messages_enabled *)
Definition export_messages_enabled (accounts : list ValidatedAccountConfig) : bool :=
  existsb (fun account => bool_decide (v_tool_overrides account !! ExportMessages = Some Allow)) accounts.

Section compose.
Context (fs : file_system).

(* [crates/rimap-config/src/validate/compose.rs:255-269] finish_validated_multi *)
Definition finish_validated_multi (accounts : gmap rstr ValidatedAccountConfig) (audit : AuditConfig)
    (attachments : AttachmentsConfig) : result ConfigError ValidatedMultiConfig :=
  _ ← validate_audit_config audit;
  _ ← validate_paths_multi fs audit attachments;
  _ ← validate_export_download_root fs attachments (export_messages_enabled (map snd (map_to_list accounts)));
  Ok (mkValidatedMulti accounts audit attachments).

(** The inputs of one account: its own blocks over the defaults. *)
(* [crates/rimap-config/src/validate/compose.rs:202-242] validate_multi_inner *)
Definition account_inputs (d : DefaultsConfig) (raw : RawAccountConfig) (id : rstr) : ValidateAccountInputs :=
  mkInputs id (r_imap raw) (r_smtp raw)
    (match r_security raw with Some o => security_merge o (d_security d) | None => d_security d end)
    (match r_limits raw with Some o => limits_merge o (d_limits d) | None => d_limits d end)
    (match r_credentials raw with Some o => default (d_fallback d) o | None => d_fallback d end)
    (match r_security raw ≫= o_tools with Some tools => dom tools | None => ∅ end)
    (bool_decide (is_Some (r_security raw ≫= o_protected_folders)))
    (bool_decide (is_Some (r_security raw ≫= o_expunge_folders))).

(* [crates/rimap-config/src/validate/compose.rs:188-244] validate_multi_inner *)
Fixpoint validate_accounts (d : DefaultsConfig) (raws : list RawAccountConfig)
    (accounts : gmap rstr ValidatedAccountConfig) : result ConfigError (gmap rstr ValidatedAccountConfig) :=
  match raws with
  | [] => Ok accounts
  | raw :: raws' =>
      id ← map_err CInvalidAccountName (account_id_new (r_name raw));
      if bool_decide (is_Some (accounts !! id)) then Err (CDuplicateAccountName (r_name raw))
      else
        validated ← validate_account (account_inputs d raw id);
        validate_accounts d raws' (<[id := validated]> accounts)
  end.

(* [crates/rimap-config/src/validate/compose.rs:186-247] validate_multi_inner *)
Definition validate_multi_inner (config : MultiAccountConfig) : result ConfigError ValidatedMultiConfig :=
  accounts ← validate_accounts (m_defaults config) (m_accounts config) ∅;
  finish_validated_multi accounts (m_audit config) (m_attachments config).

(* [crates/rimap-config/src/validate/compose.rs:159-164] validate_multi *)
Definition validate_multi (config : MultiAccountConfig) : result ConfigError ValidatedMultiConfig :=
  match m_accounts config with [] => Err CNoAccounts | _ => validate_multi_inner config end.

(* [crates/rimap-config/src/validate/compose.rs:294-318] validate_legacy_as_multi *)
Definition validate_legacy_as_multi (config : Config) : result ConfigError ValidatedMultiConfig :=
  account ← validate_account (mkInputs DEFAULT_ACCOUNT_NAME (c_imap config) (c_smtp config) (c_security config)
    (c_limits config) KeyringThenEnv (dom (tools (c_security config))) true true);
  finish_validated_multi {[DEFAULT_ACCOUNT_NAME := account]} (c_audit config) (c_attachments config).

(** ** Loading *)

(** A TOML document, as far as the format is detected, and its typed readings. *)
Inductive toml_value := TTable (entries : list (rstr * toml_value)) | TArray (items : list toml_value) | TScalar.
Context (toml_parse : rstr -> result rstr toml_value)
  (as_multi : toml_value -> result rstr MultiAccountConfig) (as_config : toml_value -> result rstr Config).

(** The file: absent, unreadable, or its text. *)
Inductive file_read := Absent | Unreadable (source : rstr) | Contents (text : rstr).

(* [crates/rimap-config/src/loader.rs:54-67] read_config_string *)
Definition read_config_string (path : rstr) (read : file_read) : result ConfigError rstr :=
  match read with
  | Absent => Err (CNotFound path)
  | Unreadable source => Err (CRead path source)
  | Contents text => Ok text
  end.

(* [crates/rimap-config/src/loader.rs:130-133] DetectedFormat *)
Inductive DetectedFormat := Multi (c : MultiAccountConfig) | Legacy (c : Config).

Fixpoint toml_get (entries : list (rstr * toml_value)) (k : rstr) : option toml_value :=
  match entries with
  | [] => None
  | (k', v) :: entries' => if str_eqb k' k then Some v else toml_get entries' k
  end.

(* [crates/rimap-config/src/loader.rs:138-175] classify_format *)
Definition classify_format (path : rstr) (read : file_read) : result ConfigError DetectedFormat :=
  contents ← read_config_string path read;
  value ← map_err (CParse path) (toml_parse contents);
  let '(has_accounts, has_flat_imap) :=
    match value with
    | TTable t => (match toml_get t (lit "accounts") with Some (TArray _) => true | _ => false end,
                   bool_decide (is_Some (toml_get t (lit "imap"))))
    | _ => (false, false)
    end in
  if has_accounts && has_flat_imap then Err CMixedConfigFormat
  else if has_accounts : bool then config ← map_err (CParse path) (as_multi value); Ok (Multi config)
  else config ← map_err (CParse path) (as_config value); Ok (Legacy config).

(* [crates/rimap-config/src/loader.rs:85-109] load_and_validate *)
Definition load_and_validate (path : rstr) (read : file_read) : result ConfigError ValidatedMultiConfig :=
  format ← classify_format path read;
  match format with Multi config => validate_multi config | Legacy config => validate_legacy_as_multi config end.
End compose.

(** ** Fingerprints *)

Lemma hex_nibble_ok u n : 0 <= n < 16 ->
  hex_value (hex_nibble u n) = Some n /\ is_ascii_hexdigit (hex_nibble u n) = true /\ hex_nibble u n <> 58 /\
  0 <= hex_nibble u n < 128.
Proof.
  intros Hn. assert (Hc : n ∈ [0;1;2;3;4;5;6;7;8;9;10;11;12;13;14;15]) by (rewrite !elem_of_cons; lia).
  clear Hn. repeat (apply elem_of_cons in Hc as [->|Hc]; [destruct u; vm_compute; split_and!; done|]).
  by apply elem_of_nil in Hc.
Qed.

Lemma hex_value_ok c n : hex_value c = Some n -> 0 <= n < 16 /\ hex_nibble false n = ascii_lower c.
Proof.
  unfold hex_value, hex_nibble, ascii_lower, is_ascii_uppercase, between.
  destruct (Z.leb_spec 48 c), (Z.leb_spec c 57), (Z.leb_spec 97 c), (Z.leb_spec c 102), (Z.leb_spec 65 c), (Z.leb_spec c 70);
    cbn [andb]; intros [= <-]; try lia;
    match goal with |- context [?a <? 10] => destruct (Z.ltb_spec a 10) end; try lia;
    destruct (Z.leb_spec c 90); cbn [andb]; lia.
Qed.

Definition byte (b : Z) : Prop := 0 <= b < 256.

Lemma hex_roundtrip u bs : Forall byte bs -> hex_decode (hex_encode u bs) = Some bs.
Proof.
  unfold hex_encode. induction 1 as [|b bs Hb _ IH]; [done|]. unfold byte in Hb.
  pose proof (Z.div_mod b 16 ltac:(lia)). pose proof (Z.mod_pos_bound b 16 ltac:(lia)).
  destruct (hex_nibble_ok u (b / 16)) as (E1 & _). { split; [apply Z.div_pos; lia|apply Z.div_lt_upper_bound; lia]. }
  destruct (hex_nibble_ok u (b mod 16)) as (E2 & _); [done|].
  cbn [map concat app hex_decode]. rewrite E1, E2, IH. cbn. do 2 f_equal. lia.
Qed.

Lemma hex_encode_chars u bs : Forall byte bs ->
  Forall (fun c => is_ascii_hexdigit c = true /\ c <> 58 /\ 0 <= c < 128) (hex_encode u bs).
Proof.
  unfold hex_encode. induction 1 as [|b bs Hb _ IH]; [constructor|]. unfold byte in Hb.
  pose proof (Z.mod_pos_bound b 16 ltac:(lia)).
  cbn [map concat app]. apply List.Forall_cons; [|apply List.Forall_cons; [|exact IH]].
  - apply hex_nibble_ok. split; [apply Z.div_pos; lia|apply Z.div_lt_upper_bound; lia].
  - by apply hex_nibble_ok.
Qed.

Lemma hex_decode_ok s : forall bs, hex_decode s = Some bs ->
  Forall byte bs /\ hex_encode false bs = to_ascii_lowercase s.
Proof.
  enough (forall n s, (length s <= n)%nat -> forall bs, hex_decode s = Some bs ->
    Forall byte bs /\ hex_encode false bs = to_ascii_lowercase s) as Hn by (by apply (Hn (length s))).
  clear s. intros n. induction n as [|n IH]; intros [|a [|b s]] Hl bs; cbn [hex_decode length] in *;
    try done; try lia; try (intros [= <-]; split; [constructor|done]).
  destruct (hex_value a) as [x|] eqn:Ea; [|done]. destruct (hex_value b) as [y|] eqn:Eb; [|done]. cbn [mbind option_bind].
  destruct (hex_decode s) as [rest|] eqn:Er; [|done]. intros [= <-].
  apply hex_value_ok in Ea as [Hx Ex], Eb as [Hy Ey]. destruct (IH s ltac:(lia) rest Er) as [Hb He].
  split; [apply List.Forall_cons; [unfold byte; lia|done]|].
  unfold hex_encode in *. cbn [map concat app]. rewrite He, Z.div_add_l, Z.div_small, Z.add_0_r by lia.
  rewrite Z.add_comm, Z.mod_add, Z.mod_small, Ex, Ey by lia. done.
Qed.

Lemma filter_colon_pairs s : forall i,
  List.filter (fun c => negb (c =? 58)) (colon_pairs i s) = List.filter (fun c => negb (c =? 58)) s.
Proof.
  induction s as [|c s IH]; intros i; cbn [colon_pairs List.filter]; [done|].
  case_match; cbn [app List.filter]; by rewrite IH.
Qed.

Lemma filter_no_colon s : Forall (fun c => c <> 58) s -> List.filter (fun c => negb (c =? 58)) s = s.
Proof.
  induction 1 as [|c s Hc _ IH]; [done|]. cbn. apply Z.eqb_neq in Hc. by rewrite Hc, IH.
Qed.

Lemma hex_encode_length u bs : length (hex_encode u bs) = (2 * length bs)%nat.
Proof. unfold hex_encode. induction bs as [|b bs IH]; [done|]. cbn [map concat app length]. rewrite IH. lia. Qed.

(** What [from_hex] does once the colons are gone. *)
Lemma from_hex_cleaned s u bs : Forall byte bs -> length bs = 32%nat ->
  List.filter (fun c => negb (c =? 58)) s = hex_encode u bs -> fingerprint_from_hex s = Ok bs.
Proof.
  intros Hb Hl E. unfold fingerprint_from_hex. rewrite E.
  pose proof (hex_encode_chars u bs Hb) as Hc.
  rewrite str_len_ascii by (eapply Forall_impl; [exact Hc|]; naive_solver).
  rewrite hex_encode_length, Hl. cbn [Z.of_nat Nat.mul Nat.add negb Pos.of_succ_nat Pos.succ Z.eqb Pos.eqb].
  assert (List.find (fun c => negb (is_ascii_hexdigit c)) (hex_encode u bs) = None) as ->.
  { apply find_none_forall. eapply Forall_impl; [exact Hc|]. cbv beta. intros c (-> & _). done. }
  by rewrite hex_roundtrip, Hl.
Qed.

(** A pin means its 32 bytes.  Both printed forms of a fingerprint,
    lower-case without separators and upper-case with colons, read back as
    it; and whatever text is accepted, wherever its colons and whatever
    its letter case, is exactly 32 bytes whose printed form is the text in
    lower case without its colons. *)
Theorem fingerprint_roundtrip :
  (forall fp, Forall byte fp -> length fp = 32%nat ->
     fingerprint_from_hex (fingerprint_to_hex fp) = Ok fp /\ fingerprint_from_hex (fingerprint_to_hex_colon fp) = Ok fp) /\
  (forall s fp, fingerprint_from_hex s = Ok fp -> length fp = 32%nat /\ Forall byte fp /\
     fingerprint_to_hex fp = to_ascii_lowercase (List.filter (fun c => negb (c =? 58)) s)).
Proof.
  split.
  - intros fp Hb Hl.
    assert (Hn : forall u, List.filter (fun c => negb (c =? 58)) (hex_encode u fp) = hex_encode u fp).
    { intros u. apply filter_no_colon. eapply Forall_impl; [by apply hex_encode_chars|]. naive_solver. }
    split; [apply (from_hex_cleaned _ false); [done|done|apply Hn]|]. apply (from_hex_cleaned _ true); [done|done|].
    unfold fingerprint_to_hex_colon. rewrite filter_colon_pairs. apply Hn.
  - intros s fp. unfold fingerprint_from_hex. destruct (negb _); [done|]. destruct (List.find _ _); [done|].
    destruct (hex_decode _) as [bs|] eqn:E; [|done]. destruct (Nat.eqb_spec (length bs) 32); [|done].
    intros [= <-]. apply hex_decode_ok in E as [Hb He]. done.
Qed.

(** ** Each rule *)

Lemma reject_zero_ok {T} (block : T) checks :
  reject_zero block checks = Ok tt <-> Forall (fun c => c.2 block <> 0) checks.
Proof.
  induction checks as [|[field acc] checks IH]; cbn [reject_zero]; [split; [constructor|done]|].
  rewrite Forall_cons, <- IH. cbn. destruct (Z.eqb_spec (acc block) 0); naive_solver.
Qed.

Lemma check_expungeable_ok protected folders : check_expungeable protected folders = Ok tt <->
  Forall (fun f => ~ normalize_folder_name f ∈ protected) folders.
Proof.
  induction folders as [|f folders IH]; cbn [check_expungeable]; [split; [constructor|done]|].
  rewrite Forall_cons, <- IH. fold (normalize_folder_name f). destruct (existsb _ protected) eqn:E.
  - split; [done|]. intros [Hn _]. exfalso. apply Hn. apply existsb_exists in E as (x & Hx & Ex).
    apply str_eqb_eq in Ex as ->. by apply list_elem_of_In.
  - assert (~ normalize_folder_name f ∈ protected); [|tauto]. intros Hin. apply not_true_iff_false in E. apply E.
    apply existsb_exists. exists (normalize_folder_name f). split; [by apply list_elem_of_In|by apply str_eqb_eq].
Qed.

Lemma folder_safety_ok s : validate_folder_safety s = Ok tt <->
  Forall (fun f => normalize_folder_name f <> lit "inbox" /\
    forall p, p ∈ protected_folders s -> normalize_folder_name f <> normalize_folder_name p) (expunge_folders s).
Proof.
  unfold validate_folder_safety. rewrite check_expungeable_ok. apply Forall_iff. intros f.
  rewrite elem_of_app, list_elem_of_singleton, list_elem_of_fmap. split.
  - intros Hn. split; [auto|]. intros p Hp E. apply Hn. left. by exists p.
  - intros [Hi Hp] [(p & E & Hin)|E]; [by apply (Hp p Hin)|done].
Qed.

Lemma btree_iter_perm {A} (m : gmap rstr A) : btree_iter m ≡ₚ map_to_list m.
Proof. apply merge_sort_Permutation. Qed.

Lemma btree_iter_map {A} (m : gmap rstr A) :
  NoDup (btree_iter m).*1 /\ list_to_map (btree_iter m) = m.
Proof.
  assert (Hn : NoDup (btree_iter m).*1) by (rewrite btree_iter_perm; apply NoDup_fst_map_to_list).
  split; [done|]. rewrite <- (list_to_map_to_list m) at 2. apply list_to_map_proper; [done|apply btree_iter_perm].
Qed.

Lemma map_err_ok {E F A} (g : E -> F) (r : result E A) a : map_err g r = Ok a <-> r = Ok a.
Proof. destruct r; cbn; naive_solver. Qed.

Lemma resolve_entries_ok entries : forall out m, NoDup entries.*1 -> resolve_entries entries out = Ok m ->
  (forall k, k ∈ entries.*1 -> exists t, k = as_str t) /\
  forall t, m !! t = match (list_to_map entries : gmap rstr Verdict) !! as_str t with Some v => Some v | None => out !! t end.
Proof.
  induction entries as [|[name v] entries IH]; intros out m Hn; cbn [resolve_entries].
  - intros [= ->]. split; [by intros k ?%elem_of_nil|done].
  - intros (t0 & Ht0%map_err_ok%tool_name_iff & Hm)%bind_ok. inversion Hn as [|? ? Hni Hn']; subst.
    destruct (IH _ _ Hn' Hm) as [Hk Hl]. split.
    + intros k [->|Hin]%elem_of_cons; [by exists t0|by apply Hk].
    + intros t. rewrite Hl. cbn [list_to_map fold_right]. destruct (decide (t0 = t)) as [<-|Hne].
      * cbn [fst snd]. rewrite lookup_insert_eq, (not_elem_of_list_to_map_1 entries) by done. by rewrite lookup_insert_eq.
      * cbn [fst snd]. rewrite (lookup_insert_ne out), lookup_insert_ne; [done| |done].
        intros E. by apply Hne, as_str_inj.
Qed.

Lemma resolve_tool_overrides_ok s m : resolve_tool_overrides s = Ok m ->
  forall t, m !! t = tools s !! as_str t.
Proof.
  intros Hm. destruct (btree_iter_map (tools s)) as [Hn Hl].
  destruct (resolve_entries_ok _ _ _ Hn Hm) as [_ Hlk]. intros t. rewrite Hlk, Hl, lookup_empty.
  by destruct (tools s !! as_str t).
Qed.

Lemma resolve_keys_ok keys s : resolve_keys keys = Ok s -> forall t, t ∈ s <-> as_str t ∈ keys.
Proof.
  revert s. induction keys as [|k keys IH]; intros s; cbn [resolve_keys].
  - intros [= <-] t. rewrite elem_of_nil. set_solver.
  - intros (t0 & Ht0%map_err_ok%tool_name_iff & Hs)%bind_ok t. apply bind_ok in Hs as (rest & Hr & [= <-]).
    rewrite elem_of_union, elem_of_singleton, elem_of_cons, (IH _ Hr), Ht0. split; intros [E|E]; auto.
    + left. by rewrite E.
    + left. by apply as_str_inj in E.
Qed.

Lemma written_keys_ok (ks : gset rstr) s :
  resolve_keys (map fst (btree_iter (gset_to_gmap tt ks))) = Ok s -> forall t, t ∈ s <-> as_str t ∈ ks.
Proof.
  intros Hs t. rewrite (resolve_keys_ok _ _ Hs t). change (map fst ?l) with (l.*1).
  rewrite btree_iter_perm, list_elem_of_fmap. split.
  - intros ([k []] & E & Hin). apply elem_of_map_to_list, lookup_gset_to_gmap_Some in Hin as [Hin _]. by rewrite E.
  - intros Hin. exists (as_str t, tt). split; [done|]. by apply elem_of_map_to_list, lookup_gset_to_gmap_Some.
Qed.

Lemma username_ok u field : validate_username_field u field = Ok tt ->
  u <> [] /\ Forall (fun c => c <> 13 /\ c <> 10 /\ c <> 0) u.
Proof.
  unfold validate_username_field. case_bool_decide; [done|]. destruct (existsb _ u) eqn:E; [done|].
  intros _. split; [done|]. apply Forall_forall. intros c Hc. rewrite existsb_false in E. apply E in Hc.
  rewrite !orb_false_iff, !Z.eqb_neq in Hc. tauto.
Qed.

(** The sum is exact: nothing saturates. *)
Lemma bounded_seconds_exact i smtp : in_u32 (imap_command_timeout i) -> in_u32 (imap_connect_timeout i) -> in_u32 smtp ->
  u64_saturating_add (imap_operation_bounded_seconds i) smtp =
  2 * (2 * imap_command_timeout i + imap_connect_timeout i) + smtp.
Proof.
  unfold in_u32, imap_operation_bounded_seconds, u64_saturating_mul, u64_saturating_add, u32_max, u64_max. lia.
Qed.

(** ** Validated accounts *)

Record sound_account (a : ValidatedAccountConfig) : Prop := {
  sound_ceiling : forall smtp, smtp = match v_smtp a with Some s => smtp_command_timeout s | None => 0 end ->
    0 <= imap_command_timeout (v_imap a) -> 0 <= imap_connect_timeout (v_imap a) -> 0 <= smtp ->
    tool_call_timeout_seconds (v_limits a) <= u32_max ->
    2 * (2 * imap_command_timeout (v_imap a) + imap_connect_timeout (v_imap a)) + smtp
      <= tool_call_timeout_seconds (v_limits a);
  sound_timeouts : imap_command_timeout (v_imap a) <> 0 /\ imap_connect_timeout (v_imap a) <> 0 /\
    forall s, v_smtp a = Some s -> smtp_command_timeout s <> 0;
  sound_limits : Forall (fun limit : LimitsConfig -> Z => limit (v_limits a) <> 0)
      [commands_per_second; drafts_per_minute; sends_per_minute; circuit_breaker_error_threshold; circuit_breaker_window_seconds;
       max_search_results; max_fetch_body_bytes; max_attachment_bytes; max_append_bytes; tool_call_timeout_seconds] /\
    max_search_results (v_limits a) <= max_search_results_cap (v_limits a);
  sound_governor : forall L `{Limiter L}, exists g, governor_new (commands_per_second (v_limits a))
    (drafts_per_minute (v_limits a)) (sends_per_minute (v_limits a)) = Ok (g : Governor L);
  sound_smtp : effective (posture (v_security a)) (v_tool_overrides a) SendEmail = true -> is_Some (v_smtp a);
  sound_plaintext : forall s, v_smtp a = Some s -> smtp_encryption s = SmtpNone ->
    smtp_host s ∈ [lit "localhost"; lit "127.0.0.1"; lit "::1"];
  sound_folders : Forall (fun f => normalize_folder_name f <> lit "inbox" /\
      forall p, p ∈ protected_folders (v_security a) -> normalize_folder_name f <> normalize_folder_name p)
    (expunge_folders (v_security a));
  sound_usernames : forall u, u = imap_username (v_imap a) \/ (exists s, v_smtp a = Some s /\ u = smtp_username s) ->
    u <> [] /\ Forall (fun c => c <> 13 /\ c <> 10 /\ c <> 0) u;
  sound_overrides : forall t, v_tool_overrides a !! t = tools (v_security a) !! as_str t;
  sound_fingerprint : match tls_fingerprint_sha256 (v_imap a) with
    | None => v_tls_fingerprint a = None
    | Some raw => exists fp, v_tls_fingerprint a = Some fp /\ fingerprint_from_hex raw = Ok fp
    end }.

Lemma ceiling_ok i smtp l : validate_tool_call_ceiling i smtp l = Ok tt ->
  let s := match smtp with Some s => smtp_command_timeout s | None => 0 end in
  0 <= imap_command_timeout i -> 0 <= imap_connect_timeout i -> 0 <= s -> tool_call_timeout_seconds l <= u32_max ->
  2 * (2 * imap_command_timeout i + imap_connect_timeout i) + s <= tool_call_timeout_seconds l.
Proof.
  intros Hc s. unfold validate_tool_call_ceiling in Hc. fold s in Hc.
  destruct (Z.leb_spec (u64_saturating_add (imap_operation_bounded_seconds i) s) (tool_call_timeout_seconds l)) as [Hl|]; [|done].
  revert Hl. unfold imap_operation_bounded_seconds, u64_saturating_mul, u64_saturating_add, u32_max, u64_max. lia.
Qed.

Lemma smtp_required_ok sec ov smtp : validate_smtp_required sec ov smtp = Ok tt ->
  effective (posture sec) ov SendEmail = true -> is_Some smtp.
Proof.
  unfold validate_smtp_required, effective. destruct smtp; [by eexists|]. rewrite andb_true_r.
  intros H' He. destruct (ov !! SendEmail) as [[]|]; try done. by rewrite He in H'.
Qed.

Lemma smtp_plaintext_ok smtp s : validate_smtp_encryption smtp = Ok tt -> smtp = Some s ->
  smtp_encryption s = SmtpNone -> smtp_host s ∈ [lit "localhost"; lit "127.0.0.1"; lit "::1"].
Proof.
  intros H' -> He. cbn in H'. rewrite He, bool_decide_true in H' by done. rewrite !elem_of_cons.
  destruct (str_eqb _ (lit "localhost")) eqn:E1; [left; by apply str_eqb_eq|].
  destruct (str_eqb _ (lit "127.0.0.1")) eqn:E2; [right; left; by apply str_eqb_eq|].
  destruct (str_eqb _ (lit "::1")) eqn:E3; [right; right; left; by apply str_eqb_eq|done].
Qed.

Lemma governor_ok L `{Limiter L} l : (forall f, f ∈ map snd ZERO_CHECKS -> f l <> 0) ->
  exists g, governor_new (commands_per_second l) (drafts_per_minute l) (sends_per_minute l) = Ok (g : Governor L).
Proof.
  intros Hz. assert (commands_per_second l <> 0 /\ drafts_per_minute l <> 0 /\ sends_per_minute l <> 0) as (H1 & H2 & H3).
  { split_and!; apply Hz; cbn; set_solver. }
  apply Z.eqb_neq in H1, H2, H3. unfold governor_new. rewrite H1, H2, H3. by eexists.
Qed.

Lemma fingerprint_ok raw fp : parse_fingerprint raw = Ok fp ->
  match raw with None => fp = None | Some raw => exists b, fp = Some b /\ fingerprint_from_hex raw = Ok b end.
Proof.
  destruct raw as [raw|]; cbn [parse_fingerprint]; [|by intros [= <-]].
  intros (b & Hb%map_err_ok & [= <-])%bind_ok. by exists b.
Qed.

Lemma validate_account_parts i a : validate_account i = Ok a ->
  exists ov wr fp, a = mkValidated (in_id i) (in_imap i) (in_smtp i) (in_security i) (in_limits i) ov wr
      (in_written_protected i) (in_written_expunge i) fp (in_fallback i) /\
    parse_fingerprint (tls_fingerprint_sha256 (in_imap i)) = Ok fp /\
    validate_username_field (imap_username (in_imap i)) (lit "imap.username") = Ok tt /\
    (forall s, in_smtp i = Some s -> validate_username_field (smtp_username s) (lit "smtp.username") = Ok tt) /\
    validate_timeouts (in_imap i) (in_smtp i) = Ok tt /\ validate_limits (in_limits i) = Ok tt /\
    validate_tool_call_ceiling (in_imap i) (in_smtp i) (in_limits i) = Ok tt /\
    validate_folder_safety (in_security i) = Ok tt /\ resolve_tool_overrides (in_security i) = Ok ov /\
    resolve_keys (map fst (btree_iter (gset_to_gmap tt (in_written_tool_keys i)))) = Ok wr /\
    validate_smtp_required (in_security i) ov (in_smtp i) = Ok tt /\ validate_smtp_encryption (in_smtp i) = Ok tt.
Proof.
  unfold validate_account. intros (fp & Hfp & ([] & Hu & ([] & Hs & ([] & Ht & ([] & Hl & ([] & Hc & ([] & Hf & (ov & Ho &
    (wr & Hw & ([] & Hr & ([] & He & [= <-])%bind_ok)%bind_ok)%bind_ok)%bind_ok)%bind_ok)%bind_ok)%bind_ok)%bind_ok)%bind_ok)%bind_ok)%bind_ok.
  exists ov, wr, fp. split; [done|]. split; [done|]. split; [done|]. split; [|by split_and!].
  intros s E. by rewrite E in Hs.
Qed.

Lemma validate_account_sound i a : validate_account i = Ok a -> sound_account a.
Proof.
  intros (ov & wr & fp & -> & Hfp & Hu & Hs & Ht & Hl & Hc & Hf & Ho & Hw & Hr & He)%validate_account_parts.
  unfold validate_timeouts in Ht. apply bind_ok in Ht as ([] & Hti%reject_zero_ok & Hts).
  unfold validate_limits in Hl. apply bind_ok in Hl as ([] & Hz%reject_zero_ok & Hcap).
  assert (Hz' : forall f, f ∈ map snd ZERO_CHECKS -> f (in_limits i) <> 0).
  { intros f ([n g] & -> & Hin)%list_elem_of_fmap. rewrite Forall_forall in Hz. by apply (Hz _ Hin). }
  constructor; cbn [v_imap v_smtp v_limits v_security v_tool_overrides v_tls_fingerprint].
  - intros s ->. by apply ceiling_ok.
  - apply Forall_cons_1 in Hti as [H1 Hti]. apply Forall_cons_1 in Hti as [H2 _]. split; [done|]. split; [done|].
    intros s E. rewrite E in Hts. apply reject_zero_ok, Forall_cons_1 in Hts as [H3 _]. done.
  - split; [|by destruct (Z.ltb_spec (max_search_results_cap (in_limits i)) (max_search_results (in_limits i)))].
    apply Forall_forall. exact Hz'.
  - intros L HL. by apply governor_ok.
  - by apply smtp_required_ok.
  - intros s. by apply smtp_plaintext_ok.
  - by apply folder_safety_ok.
  - intros u [->|(s & E & ->)]; [by eapply username_ok|]. by eapply username_ok, Hs.
  - by apply resolve_tool_overrides_ok.
  - by apply fingerprint_ok.
Qed.

Lemma validate_accounts_ok d raws : forall acc out, validate_accounts d raws acc = Ok out ->
  size out = (size acc + length raws)%nat /\
  Forall (fun raw => exists id a, account_id_new (r_name raw) = Ok id /\ out !! id = Some a /\
    validate_account (account_inputs d raw id) = Ok a) raws /\
  (forall id a, acc !! id = Some a -> out !! id = Some a) /\
  (forall id a, out !! id = Some a -> acc !! id = Some a \/
     exists raw, raw ∈ raws /\ account_id_new (r_name raw) = Ok id /\ validate_account (account_inputs d raw id) = Ok a).
Proof.
  induction raws as [|raw raws IH]; intros acc out; cbn [validate_accounts].
  - intros [= <-]. split; [cbn; lia|]. split; [constructor|]. split; [done|]. by left.
  - intros (id & Hid%map_err_ok & Hrest)%bind_ok. case_bool_decide as Hd; [done|].
    apply bind_ok in Hrest as (a & Ha & Hrest). apply IH in Hrest as (Hs & Hf & Hk & Hb).
    assert (Hnone : acc !! id = None) by (by apply eq_None_not_Some). split.
    { rewrite Hs, map_size_insert_None by done. cbn [length]. lia. }
    split. { constructor; [|done]. exists id, a. split; [done|]. split; [|done]. apply Hk, lookup_insert_eq. }
    split.
    + intros id' a' Hl. apply Hk. rewrite lookup_insert_ne; [done|congruence].
    + intros id' a' Hl. destruct (Hb id' a' Hl) as [Hi|(r & Hr & Hri & Hra)].
      * destruct (decide (id = id')) as [<-|Hne].
        -- rewrite lookup_insert_eq in Hi. injection Hi as <-. right. exists raw. split; [left|done].
        -- rewrite lookup_insert_ne in Hi by done. by left.
      * right. exists r. split; [by right|done].
Qed.

(** The audit file lies, once its directory is resolved, inside the base. *)
Definition audit_contained (fs : file_system) (audit : AuditConfig) : Prop :=
  exists parent name canon_parent base canon_base,
    path_parent (audit_path audit) = Some parent /\ path_file_name (audit_path audit) = Some name /\
    fs_canonicalize fs parent = Ok canon_parent /\
    (allowed_base_dir audit = Some base \/ allowed_base_dir audit = None /\ platform_base fs = Some base) /\
    fs_canonicalize fs base = Ok canon_base /\ path_starts_with (path_join canon_parent name) canon_base = true.

(** A real directory only its owner can write, that nobody else can replace. *)
Definition private_root (fs : file_system) (root : rstr) : Prop :=
  (exists st, fs_symlink_metadata fs root = Ok st /\ is_link st = false /\ Z.land (mode st) 0x12 = 0) /\
  exists canon, fs_canonicalize fs root = Ok canon /\
    forall parent, path_parent canon = Some parent ->
      exists st, fs_metadata fs parent = Ok st /\ (Z.land (mode st) 0x12 = 0 \/ Z.land (mode st) 0x200 <> 0).

Lemma audit_contained_ok fs audit : enforce_audit_containment fs audit = Ok tt -> audit_contained fs audit.
Proof.
  unfold enforce_audit_containment, audit_contained. destruct (path_parent (audit_path audit)) as [parent|]; [|done].
  intros (cp & Hcp%map_err_ok & Hr)%bind_ok. destruct (path_file_name (audit_path audit)) as [name|]; [|done].
  assert (Hend : forall base, (cb ← map_err (fun e => CPathNotWritable base (lit "canonicalize allowed_base_dir: " ++ e)) (fs_canonicalize fs base);
      if path_starts_with (path_join cp name) cb then Ok tt else Err (CAuditPathOutsideBase (path_join cp name) cb)) = Ok tt ->
    exists cb, fs_canonicalize fs base = Ok cb /\ path_starts_with (path_join cp name) cb = true).
  { intros base (cb & Hcb%map_err_ok & Hs)%bind_ok. exists cb. by destruct (path_starts_with _ cb). }
  destruct (allowed_base_dir audit) as [base|]; [|destruct (platform_base fs) as [base|]; [|done]];
    destruct (Hend base Hr) as (cb & ? & ?); exists parent, name, cp, base, cb; split_and!; auto.
Qed.

Lemma private_root_ok fs root : check_export_download_root_private fs root = Ok tt -> private_root fs root.
Proof.
  unfold check_export_download_root_private. intros (st & Hst%map_err_ok & Hr)%bind_ok.
  destruct (is_link st) eqn:El; [done|]. destruct (Z.eqb_spec (Z.land (mode st) 0x12) 0) as [Em|]; [|done].
  cbn [negb] in Hr. split; [by exists st|]. unfold check_export_download_root_parent in Hr.
  apply bind_ok in Hr as (canon & Hc%map_err_ok & Hr). exists canon. split; [done|]. intros parent Hp.
  rewrite Hp in Hr. apply bind_ok in Hr as (pst & Hpst%map_err_ok & Hr). exists pst. split; [done|].
  destruct (Z.eqb_spec (Z.land (mode pst) 0x12) 0); [by left|]. right.
  by destruct (Z.eqb_spec (Z.land (mode pst) 0x200) 0).
Qed.

Lemma finish_ok fs accts audit att out : finish_validated_multi fs accts audit att = Ok out ->
  out = mkValidatedMulti accts audit att /\ audit_contained fs audit /\
  ((exists id a, accts !! id = Some a /\ v_tool_overrides a !! ExportMessages = Some Allow) -> download_dir att <> [] ->
   private_root fs (download_dir att)).
Proof.
  unfold finish_validated_multi. intros ([] & _ & ([] & Hp & ([] & He & [= <-])%bind_ok)%bind_ok)%bind_ok.
  split; [done|]. split.
  - unfold validate_paths_multi in Hp. destruct (path_parent (audit_path audit)); [|done].
    apply bind_ok in Hp as ([] & _ & ([] & Hc & _)%bind_ok). by apply audit_contained_ok.
  - intros (id & a & Ha & Hx) Hd. unfold validate_export_download_root in He.
    assert (Hen : export_messages_enabled (map snd (map_to_list accts)) = true).
    { apply existsb_exists. exists a. split; [|by apply bool_decide_true].
      apply list_elem_of_In, list_elem_of_fmap. exists (id, a). split; [done|]. by apply elem_of_map_to_list. }
    rewrite Hen, bool_decide_false in He by done. by apply private_root_ok.
Qed.

Lemma inputs_id d raw id : in_id (account_inputs d raw id) = id.
Proof. done. Qed.

(** The accounts of a validated configuration are kept under identifiers. *)
Lemma validated_ids fs config out : validate_multi fs config = Ok out ->
  map_Forall (fun id _ => exists name, account_id_new name = Ok id) (accounts out).
Proof.
  unfold validate_multi, validate_multi_inner. destruct (m_accounts config) as [|raw raws]; [done|].
  intros (accts & Ha & Hf)%bind_ok. apply finish_ok in Hf as (-> & _ & _). apply validate_accounts_ok in Ha as (_ & _ & _ & Hb).
  intros id a Hl. destruct (Hb id a Hl) as [Hi|(r & _ & Hr & _)]; [by rewrite lookup_empty in Hi|]. by exists (r_name r).
Qed.

(** Every numeric limit with the override of the same key. *)
Definition LIMIT_FIELDS : list ((LimitsConfig -> Z) * (AccountLimitsOverrides -> option Z)) :=
  [(max_search_results, o_max_search_results); (max_search_results_cap, o_max_search_results_cap);
   (max_fetch_body_bytes, o_max_fetch_body_bytes); (max_attachment_bytes, o_max_attachment_bytes);
   (max_append_bytes, o_max_append_bytes); (commands_per_second, o_commands_per_second);
   (drafts_per_minute, o_drafts_per_minute); (sends_per_minute, o_sends_per_minute);
   (circuit_breaker_error_threshold, o_circuit_breaker_error_threshold);
   (circuit_breaker_window_seconds, o_circuit_breaker_window_seconds);
   (tool_call_timeout_seconds, o_tool_call_timeout_seconds)].

(** Each key an account wrote is its own, each other key is the default's. *)
Record inherits (d : DefaultsConfig) (raw : RawAccountConfig) (a : ValidatedAccountConfig) : Prop := {
  inherit_posture : posture (v_security a) = default (posture (d_security d)) (r_security raw ≫= o_posture);
  inherit_tools : forall t, v_tool_overrides a !! t =
    match default ∅ (r_security raw ≫= o_tools) !! as_str t with
    | Some v => Some v | None => tools (d_security d) !! as_str t end;
  inherit_written : forall t, t ∈ v_account_written_tools a <-> is_Some (default ∅ (r_security raw ≫= o_tools) !! as_str t);
  inherit_protected : protected_folders (v_security a) =
      default (protected_folders (d_security d)) (r_security raw ≫= o_protected_folders) /\
    (v_account_written_protected a = true <-> is_Some (r_security raw ≫= o_protected_folders));
  inherit_expunge : expunge_folders (v_security a) =
      default (expunge_folders (d_security d)) (r_security raw ≫= o_expunge_folders) /\
    (v_account_written_expunge a = true <-> is_Some (r_security raw ≫= o_expunge_folders));
  inherit_lookalike : lookalike (v_security a) =
    let base := lookalike (d_security d) in let own := r_security raw ≫= o_lookalike in
    mkLookalike (default (lookalike_enabled base) (own ≫= o_enabled)) (default (known_domains base) (own ≫= o_known_domains))
      (default (warn_on_any_non_ascii_domain base) (own ≫= o_warn_on_any_non_ascii_domain));
  inherit_limits : forall f o, (f, o) ∈ LIMIT_FIELDS -> f (v_limits a) = default (f (d_limits d)) (r_limits raw ≫= o);
  inherit_fallback : v_fallback_mode a = default (d_fallback d) (mjoin (r_credentials raw));
  inherit_own : v_imap a = r_imap raw /\ v_smtp a = r_smtp raw }.

Lemma account_inherits d raw id a : validate_account (account_inputs d raw id) = Ok a -> inherits d raw a.
Proof.
  intros (ov & wr & fp & -> & _ & _ & _ & _ & _ & _ & _ & Ho & Hw & _)%validate_account_parts.
  pose proof (resolve_tool_overrides_ok _ _ Ho) as Ho'. pose proof (written_keys_ok _ _ Hw) as Hw'. clear Ho Hw.
  destruct raw as [n im sm sec lim cred]. cbn in Ho', Hw'. cbn [r_security r_limits r_credentials r_imap r_smtp].
  constructor; cbn; unfold account_inputs; cbn.
  - by destruct sec as [[[] ? ? ? ?]|].
  - intros t. rewrite Ho'. destruct sec as [[p [ts|] pf ef lk]|]; cbn.
    + rewrite lookup_union. destruct (ts !! as_str t); cbn; [by destruct (tools (d_security d) !! as_str t)|].
      by destruct (tools (d_security d) !! as_str t).
    + by rewrite lookup_empty.
    + by rewrite lookup_empty.
  - intros t. rewrite Hw'. destruct sec as [[p [ts|] pf ef lk]|]; cbn.
    + by rewrite elem_of_dom.
    + rewrite lookup_empty, is_Some_alt. set_solver.
    + rewrite lookup_empty, is_Some_alt. set_solver.
  - split; [by destruct sec as [[? ? [] ? ?]|]|]. by rewrite bool_decide_eq_true.
  - split; [by destruct sec as [[? ? ? [] ?]|]|]. by rewrite bool_decide_eq_true.
  - destruct sec as [[? ? ? ? [[? ? ?]|]]|]; destruct (d_security d) as [? ? ? ? []]; reflexivity.
  - intros f o Hin. destruct lim as [lo|]; cbn.
    + repeat (apply elem_of_cons in Hin as [E|Hin]; [by injection E as -> ->|]). by apply elem_of_nil in Hin.
    + done.
  - by destruct cred as [[]|].
  - done.
Qed.


(** Inheritance is per key.  Validation yields exactly one account for
    each block of the file, under its lower-cased name; each field of its
    security, limits and credentials is the block's own where the block wrote
    it and the default's otherwise, tool by tool for the overrides; and what
    is recorded as written by the account is what it wrote. *)
Theorem inheritance_exact fs config out : validate_multi fs config = Ok out ->
  size (accounts out) = length (m_accounts config) /\
  Forall (fun raw => exists a, account_id_new (r_name raw) = Ok (v_id a) /\ accounts out !! v_id a = Some a /\
    inherits (m_defaults config) raw a) (m_accounts config).
Proof.
  unfold validate_multi, validate_multi_inner. destruct (m_accounts config) as [|raw raws] eqn:Er; [done|].
  rewrite <- Er. intros (accts & Ha & Hf)%bind_ok. apply finish_ok in Hf as (-> & _).
  apply validate_accounts_ok in Ha as (Hs & Hf & _). split; [cbn; by rewrite Hs|].
  eapply Forall_impl; [exact Hf|]. cbv beta. intros r (id & a & Hid & Hl & Hv). exists a.
  assert (v_id a = id) as -> by (by apply validate_account_parts in Hv as (? & ? & ? & -> & _)).
  split; [done|]. split; [done|]. by eapply account_inherits.
Qed.
End folders.

(** ** At concrete inputs *)

#[local] Instance ascii_text : FolderText.
Proof. refine {| decode_utf7_imap s := s; to_lowercase := to_ascii_lowercase |}; done. Defined.

(** Directories that exist, of mode 0700, and are their own canonical form. *)
Definition sample_fs : file_system :=
  mkFs (fun _ => true) (fun _ => Ok (mkStat true false 0x1C0)) (fun _ => Ok (mkStat true false 0x1C0)) Ok (Some (lit "/var/state")).
Definition sample_smtp : SmtpConfig := mkSmtp (lit "smtp.example.org") 587 SmtpStarttls (lit "ann") 30.
Definition sample_defaults : DefaultsConfig :=
  mkDefaults (mkSecurity DraftSafe {[lit "flag" := Deny; lit "export_messages" := Allow]} default_protected_folders [] lookalike_default)
    limits_default KeyringOnly.
Definition work_security : AccountSecurityOverrides :=
  mkSecurityOver (Some Full) (Some {[lit "flag" := Allow]}) None (Some [lit "Old"]) None.
Definition sample_config : MultiAccountConfig :=
  mkMulti sample_defaults
    [mkRaw (lit "Work") (imap_new (lit "mail.example.org") 993 (lit "ann")) (Some sample_smtp) (Some work_security) None (Some None);
     mkRaw (lit "home") (imap_new (lit "home.example.org") 993 (lit "bob")) None None None None]
    (audit_new (lit "/var/state/audit.jsonl")) (mkAttachments (lit "/srv/mail")).


(** What the sample validates to, as far as it is looked at. *)
Definition sample_view (id : rstr) : option (option Verdict * option Verdict * Posture) :=
  match validate_multi sample_fs sample_config with
  | Ok out => (fun a => (v_tool_overrides a !! Flag, v_tool_overrides a !! ExportMessages, posture (v_security a)))
      <$> accounts out !! id
  | Err _ => None
  end.
Example sample_views : sample_view (lit "work") = Some (Some Allow, Some Allow, Full) /\
  sample_view (lit "home") = Some (Some Deny, Some Allow, DraftSafe) /\ sample_view (lit "Work") = None.
Proof. vm_compute. auto. Qed.


Lemma inheritance_exact_witness :
  match validate_multi sample_fs sample_config with Ok out => size (accounts out) = 2%nat | Err _ => False end.
Proof.
  assert (Hok : is_ok (validate_multi sample_fs sample_config) = true) by (vm_compute; reflexivity).
  destruct (validate_multi sample_fs sample_config) as [out|e] eqn:E; [|discriminate Hok].
  exact (proj1 (inheritance_exact sample_fs sample_config out E)).
Defined.

Lemma fingerprint_roundtrip_witness :
  fingerprint_from_hex (fingerprint_to_hex_colon (repeat 171 32)) = Ok (repeat 171 32).
Proof.
  refine (proj2 (proj1 fingerprint_roundtrip (repeat 171 32) _ _)); [|reflexivity].
  apply (bool_decide_unpack _). vm_compute. exact I.
Defined.
