(* ===== verification/Credentials.v ===== *)
(** * Credentials (crates/rimap-config/src/credential.rs and login.rs,
    crates/rimap-server/src/cli/migrate_keyring.rs)

    Where a password comes from: the keyring under the account's key or the
    legacy key, then the environment.  The keyring is a map whose operations
    may fail, SHA-256 an argument. *)

From Stdlib Require Import ZArith Lia.
From stdpp Require Import base option list strings gmap.
From S2P Require Import Prelude RustStr Tools Redact Config.
Local Open Scope Z_scope.

(* [crates/rimap-config/src/credential.rs:20-20] KEYCHAIN_SERVICE *)
Definition KEYCHAIN_SERVICE : rstr := lit "rusty-imap-mcp".
(* [crates/rimap-config/src/credential.rs:24-24] PASSWORD_ENV_VAR *)
Definition PASSWORD_ENV_VAR : rstr := lit "RUSTY_IMAP_MCP_PASSWORD".
(* [crates/rimap-config/src/credential.rs:28-28] IMAP_PASSWORD_ENV_VAR *)
Definition IMAP_PASSWORD_ENV_VAR : rstr := lit "RUSTY_IMAP_MCP_IMAP_PASSWORD".
(* [crates/rimap-config/src/credential.rs:32-32] SMTP_PASSWORD_ENV_VAR *)
Definition SMTP_PASSWORD_ENV_VAR : rstr := lit "RUSTY_IMAP_MCP_SMTP_PASSWORD".

(* [crates/rimap-config/src/credential.rs:39-44] Protocol *)
Inductive Protocol := PImap | PSmtp.
(* [crates/rimap-config/src/credential.rs:49-54] Protocol::env_var_name *)
Definition env_var_name (p : Protocol) : rstr :=
  match p with PImap => IMAP_PASSWORD_ENV_VAR | PSmtp => SMTP_PASSWORD_ENV_VAR end.

(* [crates/rimap-config/src/credential.rs:71-76] ResolutionPolicy *)
Record ResolutionPolicy := mkPolicy { fallback_mode : FallbackMode; protocol : Protocol }.

(* [crates/rimap-config/src/credential.rs:118-120] account_key *)
Definition account_key (account_id username host : rstr) : rstr :=
  account_id ++ lit "/" ++ username ++ lit "@" ++ host.
(* [crates/rimap-config/src/credential.rs:126-128] legacy_account_key *)
Definition legacy_account_key (username host : rstr) : rstr := username ++ lit "@" ++ host.

Section credentials.
Context (sha : list Z -> list Z).

(* [crates/rimap-config/src/credential.rs:138-150] hash_account_tag *)
Definition hash_account_tag (username host : rstr) : rstr :=
  concat (map hex_byte (take 8 (sha (str_bytes username ++ [64] ++ str_bytes host)))).

(* [crates/rimap-config/src/credential.rs:155-158] split_account_for_error *)
Definition split_account_for_error (account : rstr) : rstr * rstr :=
  let '(username, host) := default ([], account) (split_once 64 account) in
  (host, hash_account_tag username host).

(** ** The keyring *)

(** What the [keyring] crate answers; [NoEntry] is [Ok None]. *)
Record keyring := mkKeyring {
  new_entry : rstr -> option rstr;
  read_entry : rstr -> result rstr (option rstr);
  write_entry : rstr -> option rstr }.

Definition keychain_error (account source : rstr) : ConfigError :=
  let '(host, account_tag) := split_account_for_error account in CKeychain host account_tag source.

(* [crates/rimap-config/src/credential.rs:382-403] KeyringStore::get_password *)
Definition keyring_get_password (k : keyring) (account : rstr) : result ConfigError (option rstr) :=
  match new_entry k account with
  | Some e => Err (keychain_error account e)
  | None => map_err (keychain_error account) (read_entry k account)
  end.

(* [crates/rimap-config/src/credential.rs:405-422] KeyringStore::set_password *)
Definition keyring_set_password (k : keyring) (account : rstr) : result ConfigError unit :=
  match new_entry k account with
  | Some e => Err (keychain_error account e)
  | None => match write_entry k account with Some e => Err (keychain_error account e) | None => Ok tt end
  end.

(** ** Resolution *)

(** [std::env::var]: the value of a defined variable. *)
Implicit Types (env : rstr -> option rstr) (get : rstr -> result ConfigError (option rstr)).

Definition non_empty env (name : rstr) : option (rstr * rstr) :=
  match env name with Some [] | None => None | Some v => Some (name, v) end.

(* [crates/rimap-config/src/credential.rs:165-173] resolve_env_fallback *)
Definition resolve_env_fallback env (proto_var : rstr) : option (rstr * rstr) :=
  match non_empty env proto_var with Some r => Some r | None => non_empty env PASSWORD_ENV_VAR end.

(* [crates/rimap-config/src/credential.rs:291-315] build_no_credential_reason *)
Definition build_no_credential_reason (account_id : rstr) (policy : ResolutionPolicy) (new_key legacy_key : rstr) : rstr :=
  match fallback_mode policy with
  | KeyringOnly =>
      lit "no entry in keychain service `" ++ KEYCHAIN_SERVICE ++ lit "` under key `" ++ new_key ++ lit "` or legacy `"
      ++ legacy_key ++ lit "`; fallback mode is keyring-only (env var not consulted). Run `rusty-imap-mcp login --account "
      ++ account_id ++ lit "`"
  | KeyringThenEnv =>
      lit "no entry in keychain service `" ++ KEYCHAIN_SERVICE ++ lit "` under key `" ++ new_key ++ lit "` or legacy `"
      ++ legacy_key ++ lit "`, and neither `" ++ env_var_name (protocol policy) ++ lit "` nor `" ++ PASSWORD_ENV_VAR
      ++ lit "` is set. Run `rusty-imap-mcp login --account " ++ account_id ++ lit "` or set `"
      ++ env_var_name (protocol policy) ++ lit "`"
  end.

(* [crates/rimap-config/src/credential.rs:189-279] resolve_credential *)
Definition resolve_credential get env (account_id username host : rstr) (policy : ResolutionPolicy)
    : result ConfigError (rstr * CredentialSource) :=
  let new_key := account_key account_id username host in
  let legacy_key := legacy_account_key username host in
  let fallback (keyring_error : option ConfigError) :=
    match (if bool_decide (fallback_mode policy = KeyringThenEnv)
           then resolve_env_fallback env (env_var_name (protocol policy)) else None) with
    | Some (_, value) => Ok (value, EnvVar)
    | None =>
        match keyring_error with
        | Some e => Err e
        | None => Err (CNoCredential host (hash_account_tag username host)
                         (build_no_credential_reason account_id policy new_key legacy_key))
        end
    end in
  match get new_key with
  | Err e => fallback (Some e)
  | Ok (Some ((_ :: _) as p)) => Ok (p, Keyring)
  | Ok _ =>
      match get legacy_key with
      | Err e => fallback (Some e)
      | Ok (Some ((_ :: _) as p)) => Ok (p, LegacyKeyring)
      | Ok _ => fallback None
      end
  end.

(* [crates/rimap-config/src/login.rs:20-43] run_login *)
Definition run_login {S} (set : S -> rstr -> rstr -> S * result ConfigError unit) (store : S)
    (account_id username host : rstr) (prompt : rstr -> result rstr rstr) : S * result ConfigError unit :=
  let account := account_key account_id username host in
  match prompt (lit "Password for " ++ account ++ lit ": ") with
  | Err e => (store, Err (CNoCredential host (hash_account_tag username host) (lit "interactive prompt failed: " ++ e)))
  | Ok [] => (store, Err (CNoCredential host (hash_account_tag username host) (lit "empty password not accepted")))
  | Ok password => set store account password
  end.

(** ** Migration *)

(** A store with the keys whose reads and writes fail. *)
Section store.
Context (get_err set_err : rstr -> option ConfigError).
Definition store_get (s : gmap rstr rstr) (k : rstr) : result ConfigError (option rstr) :=
  match get_err k with Some e => Err e | None => Ok (s !! k) end.
Definition store_set (s : gmap rstr rstr) (k v : rstr) : gmap rstr rstr * result ConfigError unit :=
  match set_err k with Some e => (s, Err e) | None => (<[k := v]> s, Ok tt) end.

(* [crates/rimap-server/src/cli/migrate_keyring.rs:26-50] migrate_one *)
Definition migrate_one (s : gmap rstr rstr) (account_id username host : rstr)
    : gmap rstr rstr * result ConfigError bool :=
  let legacy := legacy_account_key username host in
  match store_get s legacy with
  | Err e => (s, Err e)
  | Ok None => (s, Ok false)
  | Ok (Some password) =>
      let new_key := account_key account_id username host in
      match store_set s new_key password with
      | (s, Err e) => (s, Err e)
      | (s, Ok _) =>
          match store_set s legacy [] with
          | (s, Err e) => (s, Err e)
          | (s, Ok _) => (s, Ok true)
          end
      end
  end.

(** ** Lemmas and properties *)

Lemma keys_differ id u h : account_key id u h <> legacy_account_key u h.
Proof.
  unfold account_key, legacy_account_key. intros E. apply (f_equal length) in E. rewrite !length_app in E.
  change (length (lit "/")) with 1%nat in E. lia.
Qed.

(** Migrating moves a credential and loses none.  When it reports
    success the new key holds the legacy password and the legacy key an empty
    one; when it reports nothing to do the keyring is unchanged; when it fails
    the legacy password is still there; and no other key changes. *)
Theorem migrate_effect s id u h :
  let new_key := account_key id u h in let legacy := legacy_account_key u h in
  let '(s', r) := migrate_one s id u h in
  (forall k, k <> new_key -> k <> legacy -> s' !! k = s !! k) /\
  match r with
  | Ok true => exists p, s !! legacy = Some p /\ s' !! new_key = Some p /\ s' !! legacy = Some []
  | Ok false => s !! legacy = None /\ s' = s
  | Err _ => s' !! legacy = s !! legacy
  end.
Proof.
  intros new_key legacy. pose proof (keys_differ id u h) as Hne. unfold migrate_one, store_get, store_set.
  fold new_key legacy. fold new_key legacy in Hne. destruct (get_err legacy); [done|].
  destruct (s !! legacy) as [p|] eqn:El; [|done].
  destruct (set_err new_key); [done|]. destruct (set_err legacy).
  - split; [intros k Hn _; by rewrite lookup_insert_ne|]. by rewrite lookup_insert_ne.
  - split; [intros k Hn Hl; by rewrite !lookup_insert_ne|]. exists p. split; [done|].
    split; [by rewrite lookup_insert_ne, lookup_insert_eq|by rewrite lookup_insert_eq].
Qed.
End store.

Definition usable (r : result ConfigError (option rstr)) : option rstr :=
  match r with Ok (Some ((_ :: _) as p)) => Some p | _ => None end.
Definition failed (r : result ConfigError (option rstr)) : option ConfigError :=
  match r with Err e => Some e | Ok _ => None end.
Definition defined env (name : rstr) : option rstr :=
  match env name with Some ((_ :: _) as v) => Some v | _ => None end.

Lemma non_empty_defined env name : non_empty env name = (fun v => (name, v)) <$> defined env name.
Proof. unfold non_empty, defined. by destruct (env name) as [[]|]. Qed.

(** The sources in order, each with the password it has, if any. *)
Definition sources get env (id u h : rstr) (policy : ResolutionPolicy) : list (option (rstr * CredentialSource)) :=
  let kr := get (account_key id u h) in let lg := get (legacy_account_key u h) in
  [(fun p => (p, Keyring)) <$> usable kr;
   (if bool_decide (failed kr = None) then (fun p => (p, LegacyKeyring)) <$> usable lg else None)] ++
  match fallback_mode policy with
  | KeyringOnly => []
  | KeyringThenEnv =>
      [(fun p => (p, EnvVar)) <$> defined env (env_var_name (protocol policy));
       (fun p => (p, EnvVar)) <$> defined env PASSWORD_ENV_VAR]
  end.

#[local] Instance ConfigError_none_dec (o : option ConfigError) : Decision (o = None).
Proof. destruct o; [by right|by left]. Defined.

(** The first source that has a password gives it.  In order: the
    keyring under the account's key; the keyring under the legacy key, unless
    the first read failed; and, only in keyring-then-env mode, the
    protocol's variable and then the shared one.  An empty value is no
    password, so none is ever returned.  When no source has one the error is
    the keyring's if it failed, and says what was tried otherwise; in
    keyring-only mode the environment makes no difference. *)
Theorem credential_precedence get env id u h policy :
  resolve_credential get env id u h policy =
    match head (omap (fun o => o) (sources get env id u h policy)) with
    | Some r => Ok r
    | None =>
        match failed (get (account_key id u h)), failed (get (legacy_account_key u h)) with
        | Some e, _ | None, Some e => Err e
        | None, None => Err (CNoCredential h (hash_account_tag u h)
            (build_no_credential_reason id policy (account_key id u h) (legacy_account_key u h)))
        end
    end /\
  (forall p src, resolve_credential get env id u h policy = Ok (p, src) -> p <> []) /\
  (fallback_mode policy = KeyringOnly -> forall env',
     resolve_credential get env' id u h policy = resolve_credential get env id u h policy).
Proof.
  assert (Heq : forall env, resolve_credential get env id u h policy =
    match head (omap (fun o => o) (sources get env id u h policy)) with
    | Some r => Ok r
    | None =>
        match failed (get (account_key id u h)), failed (get (legacy_account_key u h)) with
        | Some e, _ | None, Some e => Err e
        | None, None => Err (CNoCredential h (hash_account_tag u h)
            (build_no_credential_reason id policy (account_key id u h) (legacy_account_key u h)))
        end
    end).
  { intros env0. unfold resolve_credential, sources, resolve_env_fallback.
    rewrite !non_empty_defined. destruct policy as [fb pr]. cbn [fallback_mode protocol].
    destruct (get (account_key id u h)) as [[[|c p]|]|e]; cbn; try done;
      destruct (get (legacy_account_key u h)) as [[[|d q]|]|e']; cbn; try done;
      destruct fb; cbn; try done;
      destruct (defined env0 (env_var_name pr)); cbn; try done;
      destruct (defined env0 PASSWORD_ENV_VAR); done. }
  split; [apply Heq|]. split.
  - intros p src. rewrite Heq. destruct (head _) as [r|] eqn:E; [|by repeat case_match].
    intros [= ->]. apply head_Some_elem_of, list_elem_of_omap in E as (o & Ho & E). cbn in E. subst o. unfold sources in Ho.
    assert (Hu : forall r (q : rstr) (s s' : CredentialSource), Some (q, s') = (fun p => (p, s)) <$> usable r -> q <> [])
      by (intros [[[|c q']|]|] q s s'; cbn; [done|by intros [= -> _]|done|done]).
    assert (Hd : forall n (q : rstr) (s s' : CredentialSource), Some (q, s') = (fun p : rstr => (p, s)) <$> defined env n -> q <> [])
      by (intros n q s s'; unfold defined; destruct (env n) as [[|c q']|]; cbn; [done|by intros [= -> _]|done]).
    rewrite elem_of_app, !elem_of_cons, elem_of_nil in Ho.
    destruct Ho as [[Ho|[Ho|[]]]|Ho]; [by eapply Hu|case_bool_decide; [by eapply Hu|done]|].
    destruct (fallback_mode policy); [|by apply elem_of_nil in Ho].
    rewrite !elem_of_cons, elem_of_nil in Ho. destruct Ho as [Ho|[Ho|[]]]; by eapply Hd.
  - intros Hf env'. rewrite !Heq. unfold sources. by rewrite Hf.
Qed.
End credentials.

(** ** At concrete inputs *)

Definition no_error (k : rstr) : option ConfigError := None.
Definition env_only_shared (name : rstr) : option rstr :=
  if str_eqb name PASSWORD_ENV_VAR then Some (lit "hunter2") else if str_eqb name IMAP_PASSWORD_ENV_VAR then Some [] else None.
Definition env_policy : ResolutionPolicy := mkPolicy KeyringThenEnv PImap.

(** The account's key holds an empty password and the scoped variable is
    empty: the shared variable decides. *)
Lemma credential_precedence_witness :
  resolve_credential (fun bs => bs) (store_get no_error {[account_key (lit "work") (lit "ann") (lit "mail.example.org") := []]})
    env_only_shared (lit "work") (lit "ann") (lit "mail.example.org") env_policy = Ok (lit "hunter2", EnvVar) /\
  lit "hunter2" <> [].
Proof.
  assert (E : resolve_credential (fun bs => bs)
    (store_get no_error {[account_key (lit "work") (lit "ann") (lit "mail.example.org") := []]})
    env_only_shared (lit "work") (lit "ann") (lit "mail.example.org") env_policy = Ok (lit "hunter2", EnvVar)) by (vm_compute; reflexivity).
  split; [exact E|]. exact (proj1 (proj2 (credential_precedence (fun bs => bs) _ _ _ _ _ _)) _ _ E).
Defined.

(** Migrating a second time overwrites the migrated password with the empty
    text the first run left under the legacy key, and reports success. *)
Lemma second_migration_loses_credential s id u h p :
  s !! legacy_account_key u h = Some p ->
  let '(s1, r1) := migrate_one no_error no_error s id u h in
  let '(s2, r2) := migrate_one no_error no_error s1 id u h in
  r1 = Ok true /\ s1 !! account_key id u h = Some p /\ r2 = Ok true /\ s2 !! account_key id u h = Some [].
Proof.
  intros Hs. pose proof (keys_differ id u h) as Hne.
  unfold migrate_one, store_get, store_set, no_error. rewrite Hs, lookup_insert_eq.
  split; [done|]. split; [by rewrite lookup_insert_ne, lookup_insert_eq|]. split; [done|].
  by rewrite lookup_insert_ne, lookup_insert_eq.
Qed.

(** A keyring error for an account whose user name is an e-mail address names
    as host the rest of the user name with the host, and its tag is not the
    one the other credential error has for the same account. *)
Lemma keychain_error_misattributed :
  let user := lit "ann@example.org" in let host := lit "mail.example.org" in
  (forall sha source, exists tag, keychain_error sha (account_key (lit "work") user host) source =
     CKeychain (lit "example.org@mail.example.org") tag source) /\
  exists sha, hash_account_tag sha user host <>
    (split_account_for_error sha (account_key (lit "work") user host)).2.
Proof.
  split; [intros sha source; eexists; reflexivity|]. exists (fun bs => bs). vm_compute. discriminate.
Qed.
