(* ===== verification/Connect.v ===== *)
(** * Opening an IMAP session (crates/rimap-imap/src: connection/handshake.rs,
    login.rs, mod.rs; tls.rs, auth.rs, preflight.rs)

    From dialling to a logged-in session, with the deadline over it and the one
    audit record it leaves; and the probe that stops before login.  The server
    is an argument: what each read returns and after how long.  So are rustls
    and the digest ([tls_library]), the credential resolver and the audit
    sink. *)

From Stdlib Require Import ZArith Lia.
From stdpp Require Import base option list numbers strings gmap.
From S2P Require Import Prelude RustStr Tools Errors ImapErrors Session Names AuditRecord Config.
Local Open Scope Z_scope.

(** ** Configuration *)

(** Durations in milliseconds. *)
(* [crates/rimap-imap/src/connection/mod.rs:57-84] ConnectionConfig *)
Record ConnectionConfig := mkConnection {
  cc_account : option rstr; cc_account_id : rstr; cc_host : rstr; cc_port : Z; cc_encryption : ImapEncryption;
  cc_username : rstr; cc_pinned_fingerprint : option (list Z); cc_connect_timeout : Z; cc_command_timeout : Z;
  cc_max_fetch_body_bytes : Z; cc_max_append_bytes : Z }.

(* [crates/rimap-imap/src/connection/mod.rs:105-133] ConnectionConfig::new *)
Definition connection_new (account_id host : rstr) (port : Z) (encryption : ImapEncryption) (username : rstr)
    (connect_timeout command_timeout max_fetch_body_bytes max_append_bytes : Z) : ConnectionConfig :=
  mkConnection (as_optional account_id) account_id host port encryption username None connect_timeout command_timeout
    max_fetch_body_bytes max_append_bytes.

(* [crates/rimap-server/src/boot/registry.rs:244-261] build_account_connection *)
Definition build_account_connection (id : rstr) (acfg : ValidatedAccountConfig) : ConnectionConfig :=
  let imap := v_imap acfg in
  let config := connection_new id (imap_host imap) (imap_port imap) (imap_encryption imap) (imap_username imap)
    (imap_connect_timeout imap * 1000) (imap_command_timeout imap * 1000)
    (max_fetch_body_bytes (v_limits acfg)) (max_append_bytes (v_limits acfg)) in
  mkConnection (cc_account config) (cc_account_id config) (cc_host config) (cc_port config) (cc_encryption config)
    (cc_username config) (v_tls_fingerprint acfg) (cc_connect_timeout config) (cc_command_timeout config)
    (cc_max_fetch_body_bytes config) (cc_max_append_bytes config).

(** ** The server and the libraries *)

(** What an await comes to: an answer after some milliseconds, none, or the
    future is dropped at it. *)
Inductive await (X : Type) := Answers (after : Z) (x : X) | Silent | Cut.
Arguments Answers {X} _ _.
Arguments Silent {X}.
Arguments Cut {X}.

Inductive greeting_status := GreetingOk | GreetingBye | GreetingPreauth | GreetingOther.
Inductive capability := Imap4rev1 | AuthMechanism (name : rstr) | Atom (name : rstr).
(** An untagged response a command leaves on its channel. *)
Inductive untagged := CapabilityList (caps : list capability) | OtherResponse.
(** [e] is the error's text. *)
Inductive tagged := TaggedOk | TaggedNo | TaggedBad (e : rstr) | CommandFails (e : rstr).

(** [secure] tells the TLS stream from the bare one. *)
Record server := mkServer {
  sv_dial : await (result rstr unit);
  sv_greeting : forall secure : bool, await (result rstr (option greeting_status));
  sv_capability : forall secure : bool, await (result rstr (list untagged));
  sv_starttls : await tagged;
  sv_certificate : await (result rstr (list Z));
  sv_finished : await (result rstr unit);
  sv_login : await tagged;
  sv_session_capabilities : await (result rstr (list capability)) }.

Record tls_library := mkTls {
  from_cert_der : list Z -> list Z;
  chain_verdict : rstr -> list Z -> result rstr unit;
  general_error : rstr -> rstr;
  valid_server_name : rstr -> bool;
  client_config : result rstr unit }.

(** ** Attempts *)

(** What the client does, in order; [secure] again tells the streams apart. *)
Inductive step :=
  | Dial (host : rstr) (port : Z)
  | ReadGreeting (secure : bool)
  | Send (secure : bool) (command : rstr)
  | TlsHello (host : rstr)
  | TlsFinish
  | Resolve (account username host : rstr)
  | Login (username password : rstr).

(** The clock, and what an attempt has published so far: the fingerprint seen
    by the verifier and the credential's source. *)
Record attempt_state := mkAttempt { now : Z; last_observed : option (list Z); progress_source : option CredentialSource }.
Definition advance (t : Z) (st : attempt_state) : attempt_state := mkAttempt t (last_observed st) (progress_source st).

Inductive ended (A : Type) := Done (a : A) | Failed (e : ImapError) | Lapsed | Dropped.
Arguments Done {A} _.
Arguments Failed {A} _.
Arguments Lapsed {A}.
Arguments Dropped {A}.

(** A program under a deadline. *)
Definition connecting (A : Type) : Type := Z -> attempt_state -> list step * attempt_state * ended A.
#[export] Instance connecting_ret : MRet connecting := fun A a _ st => ([], st, Done a).
#[export] Instance connecting_bind : MBind connecting := fun A B f m deadline st =>
  match m deadline st with
  | (l, st, Done a) => let '(l', st, r) := f a deadline st in (l ++ l', st, r)
  | (l, st, Failed e) => (l, st, Failed e)
  | (l, st, Lapsed) => (l, st, Lapsed)
  | (l, st, Dropped) => (l, st, Dropped)
  end.
Definition try {A} (r : result ImapError A) : connecting A :=
  fun _ st => ([], st, match r with Ok a => Done a | Err e => Failed e end).

(** A future that is ready is taken, whatever the time. *)
Definition on_wire {X} (s : step) (a : await X) : connecting X := fun deadline st =>
  match a with
  | Answers d x =>
      if (d =? 0) || (now st + d <=? deadline) then ([s], advance (now st + d) st, Done x)
      else ([s], advance (Z.max (now st) deadline) st, Lapsed)
  | Silent => ([s], advance (Z.max (now st) deadline) st, Lapsed)
  | Cut => ([s], st, Dropped)
  end.

(** [timeout] over what is left of [total] since [started]. *)
Definition within {A} (started total : Z) (op : rstr) (m : connecting A) : connecting A := fun _ st =>
  match m (Z.max (now st) (started + total)) st with
  | (l, st, Lapsed) => (l, st, Failed (ITimeout op))
  | r => r
  end.

(** ** The certificate verifiers *)

Inductive verifier := Pinning (pinned : list Z) | Capturing | CaptureOnly.

Section connect.
Context (tls : tls_library).

(* [crates/rimap-imap/src/tls.rs:76-94] PinningVerifier::verify_server_cert *)
Definition pinning_verdict (pinned der : list Z) : result rstr unit :=
  let observed := from_cert_der tls der in
  if bool_decide (pinned = observed) then Ok tt
  else Err (general_error tls (lit "tls fingerprint mismatch: observed=" ++ fingerprint_to_hex observed
              ++ lit ", expected=" ++ fingerprint_to_hex pinned)).

(* [crates/rimap-imap/src/tls.rs:130-142] CapturingVerifier::verify_server_cert *)
Definition capturing_verdict (host : rstr) (der : list Z) : result rstr unit := chain_verdict tls host der.

(* [crates/rimap-imap/src/tls.rs:200-211] CaptureOnlyVerifier::verify_server_cert *)
Definition capture_only_verdict (der : list Z) : result rstr unit := Ok tt.

(** [OnceLock::set] of the fingerprint, which each of the three does first. *)
Definition observe (der : list Z) : connecting unit := fun _ st =>
  ([], mkAttempt (now st) (match last_observed st with Some o => Some o | None => Some (from_cert_der tls der) end)
         (progress_source st), Done tt).

Definition verify_server_cert (v : verifier) (host : rstr) (der : list Z) : connecting unit :=
  _ ← observe der;
  try (map_err (fun e => ITlsHandshake (general_error tls e))
    (match v with
     | Pinning pinned => pinning_verdict pinned der
     | Capturing => capturing_verdict host der
     | CaptureOnly => capture_only_verdict der
     end)).

(* [crates/rimap-imap/src/tls.rs:249-305] build_tls_config *)
Definition build_tls_config (pinned : option (list Z)) : result ImapError verifier :=
  _ ← map_err ITlsHandshake (client_config tls);
  Ok (match pinned with Some pin => Pinning pin | None => Capturing end).

(* [crates/rimap-imap/src/tls.rs:321-340] build_tls_config_capture_only *)
Definition build_tls_config_capture_only : result ImapError verifier :=
  _ ← map_err ITlsHandshake (client_config tls);
  Ok CaptureOnly.

(** ** The handshake *)

Context (srv : server).

(* [crates/rimap-imap/src/connection/handshake.rs:94-109] capability_advertised *)
Definition capability_advertised (items : list untagged) (atom : rstr) : bool :=
  existsb (fun item =>
    match item with
    | CapabilityList caps =>
        existsb (fun cap => match cap with Atom name => eq_ignore_ascii_case name atom | _ => false end) caps
    | OtherResponse => false
    end) items.

(* [crates/rimap-imap/src/connection/handshake.rs:113-115] drain_for_logindisabled *)
Definition drain_for_logindisabled (items : list untagged) : bool := capability_advertised items (lit "LOGINDISABLED").
(* [crates/rimap-imap/src/connection/handshake.rs:193-195] drain_for_starttls *)
Definition drain_for_starttls (items : list untagged) : bool := capability_advertised items (lit "STARTTLS").

(** A command answered on the channel it was given. *)
Definition run_capability (secure : bool) : connecting (list untagged) :=
  r ← on_wire (Send secure (lit "CAPABILITY")) (sv_capability srv secure);
  try (map_err IProtocol r).

(* [crates/rimap-imap/src/connection/handshake.rs:122-189] starttls_negotiate *)
Definition starttls_negotiate : connecting unit :=
  greeting ← on_wire (ReadGreeting false) (sv_greeting srv false);
  greeting ← try (match greeting with
    | Err e => Err (IConnect (lit "read greeting: " ++ e))
    | Ok None => Err (IStarttls UnexpectedBye)
    | Ok (Some GreetingBye) => Err (IStarttls UnexpectedBye)
    | Ok (Some GreetingPreauth) => Err (IStarttls UnexpectedPreauth)
    | Ok (Some g) => Ok g
    end);
  items ← run_capability false;
  _ ← try (if drain_for_starttls items then Ok tt else Err (IStarttls StarttlsCapabilityMissing));
  reply ← on_wire (Send false (lit "STARTTLS")) (sv_starttls srv);
  try (match reply with
    | TaggedOk => Ok tt
    | TaggedNo => Err (IStarttls (ServerRefused RefusedNo))
    | TaggedBad _ => Err (IStarttls (ServerRefused RefusedBad))
    | CommandFails e => Err (IProtocol e)
    end).

(* [crates/rimap-imap/src/connection/handshake.rs:227-229] map_tls_handshake_error *)
Definition map_tls_handshake_error (e : rstr) : ImapError := ITlsHandshake (general_error tls e).

(* [crates/rimap-imap/src/connection/handshake.rs:199-211] tls_handshake *)
Definition tls_handshake (v : verifier) (host : rstr) : connecting unit :=
  _ ← try (if valid_server_name tls host then Ok tt else Err (IConnect (lit "invalid server name for TLS")));
  certificate ← on_wire (TlsHello host) (sv_certificate srv);
  der ← try (map_err map_tls_handshake_error certificate);
  _ ← verify_server_cert v host der;
  finished ← on_wire TlsFinish (sv_finished srv);
  try (map_err map_tls_handshake_error finished).

(* [crates/rimap-imap/src/connection/handshake.rs:215-222] starttls_upgrade *)
Definition starttls_upgrade (v : verifier) (host : rstr) : connecting unit :=
  _ ← starttls_negotiate;
  tls_handshake v host.

(** ** Login *)

(* [crates/rimap-imap/src/connection/login.rs:545-550] advertises *)
Definition advertises (caps : list capability) (probe : rstr) : bool :=
  existsb (fun cap => match cap with Atom atom => eq_ignore_ascii_case atom probe | Imap4rev1 | AuthMechanism _ => false end) caps.

(* [crates/rimap-imap/src/connection/login.rs:569-571] carries_rev1 *)
Definition carries_rev1 (caps : list capability) : bool :=
  existsb (fun cap => match cap with Imap4rev1 => true | _ => false end) caps.

(* [crates/rimap-imap/src/connection/login.rs:244-264] Connection::read_capabilities *)
Definition classify_capabilities (caps : list capability) : ServerCapabilities :=
  let rev2 := advertises caps (lit "IMAP4rev2") in
  if negb (carries_rev1 caps) && negb rev2 then Unknown
  else Known (advertises caps (lit "MOVE") || rev2) (advertises caps (lit "UIDPLUS") || rev2).

(* [crates/rimap-imap/src/connection/login.rs:231-265] Connection::read_capabilities *)
Definition read_capabilities : connecting ServerCapabilities :=
  r ← on_wire (Send true (lit "CAPABILITY")) (sv_session_capabilities srv);
  mret (match r with Ok caps => classify_capabilities caps | Err _ => Unknown end).

Context (cfg : ConnectionConfig).
(** [CredentialResolver::resolve], and the time it blocks for. *)
Context (resolve : rstr -> rstr -> rstr -> result rstr (rstr * CredentialSource)) (resolve_time : Z).

(** [OnceLock::set] of the source. *)
(* [crates/rimap-imap/src/connection/mod.rs:424-426] ConnectProgress::record_credential_source *)
Definition record_credential_source (s : CredentialSource) : connecting unit := fun _ st =>
  ([], mkAttempt (now st) (last_observed st) (match progress_source st with Some s0 => Some s0 | None => Some s end), Done tt).

(** The call blocks: no deadline cuts it. *)
Definition resolve_credential : connecting (result rstr (rstr * CredentialSource)) := fun _ st =>
  ([Resolve (cc_account_id cfg) (cc_username cfg) (cc_host cfg)], advance (now st + resolve_time) st,
   Done (resolve (cc_account_id cfg) (cc_username cfg) (cc_host cfg))).

(* [crates/rimap-imap/src/connection/login.rs:54-146] Connection::imap_login *)
Definition imap_login (already_greeted : bool) : connecting ServerCapabilities :=
  _ ← (if already_greeted then mret tt
       else greeting ← on_wire (ReadGreeting true) (sv_greeting srv true);
            try (match greeting with
              | Err e => Err (IConnect e)
              | Ok None => Err (IAuth ServerRejected)
              | Ok (Some GreetingBye) => Err (IAuth ServerRejected)
              | Ok (Some _) => Ok tt
              end));
  items ← run_capability true;
  _ ← try (if drain_for_logindisabled items then Err (IAuth (AuthCapabilityMissing (lit "LOGIN"))) else Ok tt);
  resolved ← resolve_credential;
  '(password, source) ← try (map_err (fun reason => IAuth (CredentialUnavailable reason)) resolved);
  _ ← record_credential_source source;
  reply ← on_wire (Login (cc_username cfg) password) (sv_login srv);
  _ ← try (match reply with
    | TaggedOk => Ok tt
    | TaggedNo => Err (IAuth LoginRejected)
    | TaggedBad e | CommandFails e => Err (IProtocol e)
    end);
  read_capabilities.

(** ** The whole attempt *)

(** The time of the step is asked for where it starts. *)
Definition clock : connecting Z := fun _ st => ([], st, Done (now st)).

(* [crates/rimap-imap/src/connection/handshake.rs:30-83] Connection::connect_with_bundle *)
Definition connect_with_bundle (v : verifier) : connecting ServerCapabilities :=
  let total_deadline := cc_connect_timeout cfg in
  started ← clock;
  dialled ← within started total_deadline (lit "tcp_connect") (on_wire (Dial (cc_host cfg) (cc_port cfg)) (sv_dial srv));
  _ ← try (map_err IConnect dialled);
  already_greeted ← match cc_encryption cfg with
    | ImapTls => _ ← within started total_deadline (lit "tls_handshake") (tls_handshake v (cc_host cfg)); mret false
    | ImapStarttls => _ ← within started total_deadline (lit "starttls_upgrade") (starttls_upgrade v (cc_host cfg)); mret true
    end;
  within started total_deadline (lit "imap_login") (imap_login already_greeted).

(* [crates/rimap-imap/src/connection/mod.rs:543-557] enrich_tls_handshake_error *)
Definition enrich_tls_handshake_error (err : ImapError) (observed pinned : option (list Z)) : ImapError :=
  match err with
  | ITlsHandshake inner =>
      match pinned, observed with
      | Some expected, Some observed =>
          if bool_decide (expected <> observed) then ITls (fingerprint_to_hex observed) (fingerprint_to_hex expected)
          else ITlsHandshake inner
      | _, _ => ITlsHandshake inner
      end
  | other => other
  end.

(** ** Its audit record *)

(* [crates/rimap-imap/src/auth.rs:10-27] AuthContext *)
Record AuthContext := mkAuthContext {
  ac_account : option rstr; ac_host : rstr; ac_port : Z; ac_username : rstr;
  ac_pinned : option (list Z); ac_observed : option (list Z); ac_credential_source : option CredentialSource }.

(* [crates/rimap-imap/src/auth.rs:30-35] AuthContext::fingerprint_match *)
Definition context_fingerprint_match (ctx : AuthContext) : option bool :=
  match ac_pinned ctx, ac_observed ctx with Some p, Some o => Some (bool_decide (p = o)) | _, _ => None end.

(* [crates/rimap-imap/src/auth.rs:37-68] AuthContext::event *)
Definition auth_event (ctx : AuthContext) (ok : bool) (error_code : option ErrorCode) : AuthEvent :=
  mkAuthEvent (ac_account ctx) ok (ac_host ctx) (ac_port ctx) (ac_username ctx)
    (fingerprint_to_hex <$> ac_observed ctx) (context_fingerprint_match ctx) error_code (ac_credential_source ctx).

(* [crates/rimap-imap/src/auth.rs:72-74] auth_success *)
Definition auth_success (ctx : AuthContext) : AuthEvent := auth_event ctx true None.
(* [crates/rimap-imap/src/auth.rs:77-79] auth_failure *)
Definition auth_failure (ctx : AuthContext) (error_code : ErrorCode) : AuthEvent := auth_event ctx false (Some error_code).

(* [crates/rimap-imap/src/connection/mod.rs:731-746] Connection::auth_context *)
Definition auth_context (st : attempt_state) : AuthContext :=
  mkAuthContext (cc_account cfg) (cc_host cfg) (cc_port cfg) (cc_username cfg) (cc_pinned_fingerprint cfg)
    (last_observed st) (progress_source st).

(** What becomes of a record given to the sink. *)
Inductive sink_answer := SinkOk | SinkErr (message : rstr) | SinkPanics.
(** The write runs on this thread, under no deadline of the connection's; how
    long it takes is the sink's. *)
Context (sink : AuthEvent -> sink_answer) (write_time : AuthEvent -> Z).

(* [crates/rimap-imap/src/connection/login.rs:437-461] Connection::emit_auth *)
Definition emit_auth (event : AuthEvent) : result ImapError unit :=
  match sink event with
  | SinkOk => Ok tt
  | SinkErr message => Err (IAudit (lit "emit_auth") message)
  | SinkPanics => Err (IAudit (lit "emit_auth") (lit "auth-event sink panicked"))
  end.

(** What an attempt leaves behind: its steps, its state when it came to its
    verdict, the records given to the sink, the calls to
    [note_auth_write_lost], the result, [None] when the future was dropped, and
    the time when its record was written. *)
Record connect_report := mkReport {
  cr_steps : list step; cr_state : attempt_state; cr_events : list AuthEvent; cr_lost : nat;
  cr_result : option (result ImapError ServerCapabilities); cr_ended : Z }.

(** A record whose loss is counted and not returned. *)
(* [crates/rimap-imap/src/connection/login.rs:498-507] Connection::emit_auth_blocking *)
Definition emit_auth_blocking (event : AuthEvent) : list AuthEvent * nat :=
  ([event], match emit_auth event with Ok _ => 0%nat | Err _ => 1%nat end).

(** The guard's drop, for a connect that never returned. *)
(* [crates/rimap-imap/src/connection/mod.rs:516-525] AuthEmitGuard::drop *)
Definition emit_guard_drop (st : attempt_state) : list AuthEvent * nat :=
  emit_auth_blocking (auth_failure (auth_context st) ECancelled).

(* [crates/rimap-imap/src/connection/mod.rs:764-821] Connection::connect_inner *)
Definition connect_inner (st : attempt_state) : connect_report :=
  match build_tls_config (cc_pinned_fingerprint cfg) with
  | Err e => mkReport [] st [] 0 (Some (Err e)) (now st)
  | Ok v =>
      let '(l, st, r) := connect_with_bundle v (now st) st in
      let ctx := auth_context st in
      match r with
      | Done caps =>
          let event := auth_success ctx in
          mkReport l st [event] 0 (Some (_ ← emit_auth event; Ok caps)) (now st + write_time event)
      | Failed e =>
          let err := enrich_tls_handshake_error e (last_observed st) (cc_pinned_fingerprint cfg) in
          let event := auth_failure ctx (imap_code err) in
          let '(events, lost) := emit_auth_blocking event in
          mkReport l st events lost (Some (Err err)) (now st + write_time event)
      | Dropped | Lapsed =>
          let '(events, lost) := emit_guard_drop st in
          mkReport l st events lost None (now st + write_time (auth_failure ctx ECancelled))
      end
  end.

(** ** The probe *)

(* [crates/rimap-imap/src/preflight.rs:27-39] collect_capabilities *)
Fixpoint collect_capabilities (caps : list capability) (out : list rstr) : list rstr :=
  match caps with
  | [] => out
  | cap :: caps =>
      let upper := match cap with
        | Imap4rev1 => lit "IMAP4REV1"
        | AuthMechanism mech => lit "AUTH=" ++ to_ascii_uppercase mech
        | Atom name => to_ascii_uppercase name
        end in
      collect_capabilities caps (if negb (bool_decide (upper = [])) && negb (bool_decide (upper ∈ out)) then out ++ [upper] else out)
  end.

(* [crates/rimap-imap/src/preflight.rs:44-54] PreflightInfo *)
Record PreflightInfo := mkPreflight { pi_capabilities : list rstr; pi_tls_fingerprint : list Z }.

(** An error of [m] rewritten with the fingerprint seen so far. *)
Definition enriching {A} (m : connecting A) : connecting A := fun deadline st =>
  match m deadline st with
  | (l, st, Failed e) => (l, st, Failed (enrich_tls_handshake_error e (last_observed st) (cc_pinned_fingerprint cfg)))
  | r => r
  end.
Definition observed_fingerprint : connecting (option (list Z)) := fun _ st => ([], st, Done (last_observed st)).

(* [crates/rimap-imap/src/preflight.rs:76-180] probe_preflight *)
Definition probe_preflight : connecting PreflightInfo :=
  v ← try (match cc_pinned_fingerprint cfg with
    | Some _ => build_tls_config (cc_pinned_fingerprint cfg)
    | None => build_tls_config_capture_only
    end);
  let total_deadline := cc_connect_timeout cfg in
  started ← clock;
  dialled ← within started total_deadline (lit "tcp_connect") (on_wire (Dial (cc_host cfg) (cc_port cfg)) (sv_dial srv));
  _ ← try (map_err IConnect dialled);
  already_greeted ← match cc_encryption cfg with
    | ImapTls => _ ← within started total_deadline (lit "tls_handshake") (enriching (tls_handshake v (cc_host cfg))); mret false
    | ImapStarttls => _ ← within started total_deadline (lit "starttls_upgrade") (enriching (starttls_upgrade v (cc_host cfg))); mret true
    end;
  _ ← (if (already_greeted : bool) then mret tt
       else greeting ← within started total_deadline (lit "imap_greeting") (on_wire (ReadGreeting true) (sv_greeting srv true));
            try (match greeting with
              | Err e => Err (IConnect e)
              | Ok None => Err (IConnect (lit "server closed before greeting"))
              | Ok (Some _) => Ok tt
              end));
  asked ← clock;
  items ← within asked (cc_command_timeout cfg) (lit "imap_capability") (run_capability true);
  let caps := fold_left (fun out item => match item with CapabilityList list => collect_capabilities list out | OtherResponse => out end)
    items [] in
  observed ← observed_fingerprint;
  fp ← try (match observed with
    | Some fp => Ok fp
    | None => Err (ITlsHandshake (general_error tls (lit "verifier did not capture fingerprint")))
    end);
  mret (mkPreflight caps fp).
End connect.

(** ** How programs compose *)

Lemma bind_inv {A B} (m : connecting A) (f : A -> connecting B) d st l st' r : (m ≫= f) d st = (l, st', r) ->
  (exists l1 st1 a l2, m d st = (l1, st1, Done a) /\ f a d st1 = (l2, st', r) /\ l = l1 ++ l2) \/
  ((m d st).1 = (l, st') /\ (forall a, (m d st).2 <> Done a) /\ (forall b, r <> Done b)).
Proof.
  unfold mbind, connecting_bind. destruct (m d st) as [[l1 st1] [a|e| |]].
  - destruct (f a d st1) as [[l2 st2] r2] eqn:E. intros [= <- <- <-]. left. by exists l1, st1, a, l2.
  - intros [= <- <- <-]. by right.
  - intros [= <- <- <-]. by right.
  - intros [= <- <- <-]. by right.
Qed.
Lemma bind_done {A B} (m : connecting A) (f : A -> connecting B) d st l st' b : (m ≫= f) d st = (l, st', Done b) ->
  exists l1 st1 a l2, m d st = (l1, st1, Done a) /\ f a d st1 = (l2, st', Done b) /\ l = l1 ++ l2.
Proof. intros [H|(_ & _ & H)]%bind_inv; [done|by destruct (H b)]. Qed.

Lemma within_done {A} started total op (m : connecting A) d st l st' a :
  within started total op m d st = (l, st', Done a) -> m (Z.max (now st) (started + total)) st = (l, st', Done a).
Proof. unfold within. destruct (m _ st) as [[? ?] []]; congruence. Qed.
Lemma within_parts {A} started total op (m : connecting A) d st :
  (within started total op m d st).1 = (m (Z.max (now st) (started + total)) st).1.
Proof. unfold within. by destruct (m _ st) as [[? ?] []]. Qed.
Lemma enriching_parts cfg {A} (m : connecting A) d st : (enriching cfg m d st).1 = (m d st).1.
Proof. unfold enriching. by destruct (m d st) as [[? ?] []]. Qed.
Lemma enriching_done cfg {A} (m : connecting A) d st l st' a : enriching cfg m d st = (l, st', Done a) -> m d st = (l, st', Done a).
Proof. unfold enriching. destruct (m d st) as [[? ?] []]; congruence. Qed.
Lemma try_done {A} (r : result ImapError A) d st l st' a : try r d st = (l, st', Done a) -> r = Ok a /\ l = [] /\ st' = st.
Proof. unfold try. destruct r; [|done]. by intros [= <- <- <-]. Qed.
Lemma wire_done {X} s (a : await X) d st l st' x : on_wire s a d st = (l, st', Done x) ->
  l = [s] /\ (exists t, a = Answers t x /\ st' = advance (now st + t) st).
Proof. unfold on_wire. destruct a as [t y| |]; [|done..]. destruct (_ || _); intros [= <- <- <-]. split; [done|]. by exists t. Qed.

(** What a program may do to the log and the state. *)
Definition does {A} (P : step -> Prop) (R : attempt_state -> attempt_state -> Prop) (m : connecting A) : Prop :=
  forall d st, Forall P (m d st).1.1 /\ R st (m d st).1.2.

Section does.
Context (P : step -> Prop) (R : attempt_state -> attempt_state -> Prop) `{!Reflexive R, !Transitive R}.
Lemma does_ret {A} (a : A) : does P R (mret a).
Proof. intros d st. by split; [constructor|]. Qed.
Lemma does_try {A} (r : result ImapError A) : does P R (try r).
Proof. intros d st. by split; [constructor|]. Qed.
Lemma does_clock : does P R clock.
Proof. intros d st. by split; [constructor|]. Qed.
Lemma does_bind {A B} (m : connecting A) (f : A -> connecting B) : does P R m -> (forall a, does P R (f a)) -> does P R (m ≫= f).
Proof.
  intros Hm Hf d st. unfold mbind, connecting_bind. destruct (Hm d st) as [Hl Hr]. destruct (m d st) as [[l st1] [a|e| |]]; cbn in *; try done.
  destruct (Hf a d st1) as [Hl' Hr']. destruct (f a d st1) as [[l' st2] r]. cbn in *. split; [by apply Forall_app|]. by etrans.
Qed.
Lemma does_within {A} started total op (m : connecting A) : does P R m -> does P R (within started total op m).
Proof. intros Hm d st. rewrite within_parts. apply Hm. Qed.
Lemma does_enriching cfg {A} (m : connecting A) : does P R m -> does P R (enriching cfg m).
Proof. intros Hm d st. rewrite enriching_parts. apply Hm. Qed.
End does.
Lemma does_weaken {A} (P P' : step -> Prop) (R R' : attempt_state -> attempt_state -> Prop) (m : connecting A) :
  (forall s, P s -> P' s) -> (forall st st', R st st' -> R' st st') -> does P R m -> does P' R' m.
Proof. intros HP HR Hm d st. destruct (Hm d st) as [Hl Hr]. split; [|by apply HR]. eapply Forall_impl; [done|]. apply HP. Qed.

(** The clock apart, nothing changes. *)
Definition published_nothing (st st' : attempt_state) : Prop :=
  last_observed st' = last_observed st /\ progress_source st' = progress_source st.
#[export] Instance published_refl : Reflexive published_nothing.
Proof. by intros st. Qed.
#[export] Instance published_trans : Transitive published_nothing.
Proof. intros st1 st2 st3 [E1 E2] [E3 E4]. split; congruence. Qed.
Lemma does_wire {X} (P : step -> Prop) s (a : await X) : P s -> does P published_nothing (on_wire s a).
Proof. intros Hs d st. unfold on_wire. destruct a; [destruct (_ || _)|..]; cbn; by split; [apply Forall_singleton|]. Qed.

Create HintDb connect.
#[export] Hint Resolve does_ret does_try does_clock does_bind does_within does_enriching does_wire published_refl published_trans : connect.

(** ** The parts of an attempt *)

Definition before_tls (s : step) : Prop :=
  match s with
  | Dial _ _ | ReadGreeting false => True
  | Send false c => c = lit "CAPABILITY" \/ c = lit "STARTTLS"
  | _ => False
  end.
Definition over_tls (s : step) : Prop :=
  match s with ReadGreeting true | Send true _ | Resolve _ _ _ | Login _ _ => True | _ => False end.
Definition credential_step (s : step) : Prop := match s with Resolve _ _ _ | Login _ _ => True | _ => False end.
Lemma before_no_credential l : Forall before_tls l -> Forall (fun s => ~ credential_step s) l.
Proof. intros H. eapply Forall_impl; [exact H|]. intros [] Hb Hc; cbn in *; done. Qed.

Section parts.
Context (tls : tls_library) (srv : server).

Lemma starttls_does : does before_tls published_nothing (starttls_negotiate srv).
Proof.
  unfold starttls_negotiate, run_capability.
  repeat (first [apply does_bind; [typeclasses eauto| |intros ?] | (apply does_wire; cbn; by auto) | (apply does_try; typeclasses eauto)]).
Qed.

(** What the certificate's verifier stands for. *)
Definition accepts (v : verifier) (host : rstr) (der : list Z) : Prop :=
  match v with Pinning pin => from_cert_der tls der = pin | Capturing => chain_verdict tls host der = Ok tt | CaptureOnly => True end.
Definition presented (der : list Z) : Prop := exists t, sv_certificate srv = Answers t (Ok der).

(** The fingerprint kept is the first one seen. *)
Definition observed_from (st st' : attempt_state) : Prop :=
  progress_source st' = progress_source st /\
  (last_observed st' = last_observed st \/
   exists der, presented der /\ last_observed st' = Some (default (from_cert_der tls der) (last_observed st))).
Definition seen (st st' : attempt_state) (der : list Z) : Prop :=
  progress_source st' = progress_source st /\ last_observed st' = Some (default (from_cert_der tls der) (last_observed st)).

Lemma verify_inv v host der d st l st' r : verify_server_cert tls v host der d st = (l, st', r) ->
  l = [] /\ seen st st' der /\ now st' = now st /\ (forall a, r = Done a -> accepts v host der) /\
  (forall e, r = Failed e -> exists e', e = ITlsHandshake e').
Proof.
  unfold verify_server_cert, mbind, connecting_bind. cbn. intros [= <- <- <-]. split; [done|]. split.
  { split; [done|]. cbn. by destruct (last_observed st). }
  split; [done|]. destruct v as [pin| |]; cbn.
  - unfold pinning_verdict. case_bool_decide; cbn; split; [by intros [] _|done|done|]. intros e [= <-]. by eexists.
  - unfold capturing_verdict. destruct (chain_verdict tls host der) as [[]|e] eqn:E; cbn; split; try done. intros ? [= <-]. by eexists.
  - split; [done|]. by intros e [=].
Qed.

Lemma handshake_inv v host d st l st' r : tls_handshake tls srv v host d st = (l, st', r) ->
  observed_from st st' /\ (l = [] \/ l = [TlsHello host] \/ l = [TlsHello host; TlsFinish]) /\
  (forall a, r = Done a -> l = [TlsHello host; TlsFinish] /\ exists der, presented der /\ accepts v host der /\ seen st st' der).
Proof.
  unfold tls_handshake. intros [H|(E & _ & Hd)]%bind_inv.
  2: { unfold try in E. cbn in E. injection E as <- <-. split; [by split; [|left]|]. split; [by left|]. intros a ->. by destruct (Hd a). }
  destruct H as (l1 & st1 & [] & l2 & (_ & -> & ->)%try_done & H & ->). cbn [app].
  apply bind_inv in H as [(l1 & st1 & cert & l3 & (-> & t & Et & ->)%wire_done & H & ->)|(E & _ & Hd)].
  2: { unfold on_wire in E. split; [|split; [|intros a ->; by destruct (Hd a)]].
       - destruct (sv_certificate srv); [destruct (_ || _)|..]; cbn in E; injection E as <- <-; by split; [|left].
       - right. left. destruct (sv_certificate srv); [destruct (_ || _)|..]; by injection E as <- <-. }
  apply bind_inv in H as [(l1 & st1 & der & l4 & (Ec & -> & ->)%try_done & H & ->)|(E & _ & Hd)].
  2: { unfold try in E. cbn in E. injection E as <- <-. split; [by split; [|left]|]. split; [by right; left|]. intros a ->. by destruct (Hd a). }
  destruct cert as [der'|e]; [|done]. cbn in Ec. injection Ec as ->. assert (Hp : presented der) by by exists t.
  apply bind_inv in H as [(l1 & st1 & [] & l5 & Hv & H & ->)|(E & Hn & Hd)].
  2: { destruct (verify_server_cert _ _ _ _ _ _) as [[l1 st1] r1] eqn:Ev. cbn in E. injection E as <- <-.
       destruct (verify_inv _ _ _ _ _ _ _ _ Ev) as (-> & [Hs Hl] & _). cbn in Hs, Hl.
       split; [split; [done|right; by exists der]|]. split; [by right; left|]. intros a ->. by destruct (Hd a). }
  destruct (verify_inv _ _ _ _ _ _ _ _ Hv) as (-> & [Hs Hl] & _ & Ha & _). cbn in Hs, Hl. specialize (Ha tt eq_refl). cbn [app].
  assert (Hfin : forall st2, published_nothing st1 st2 -> observed_from st st2 /\ seen st st2 der).
  { intros st2 [E1 E2]. unfold observed_from, seen. rewrite E1, E2, Hs, Hl. split; [|done]. split; [done|]. right. by exists der. }
  assert (Hlog : (on_wire TlsFinish (sv_finished srv) d st1).1.1 = [TlsFinish] /\ published_nothing st1 (on_wire TlsFinish (sv_finished srv) d st1).1.2).
  { split; [|by apply (does_wire (fun _ => True))]. unfold on_wire. by destruct (sv_finished srv); [destruct (_ || _)|..]. }
  apply bind_inv in H as [(l1 & st2 & fin & l6 & Hf & H & ->)|(E & _ & Hd)].
  - rewrite Hf in Hlog. cbn in Hlog. destruct Hlog as [-> Hpub]. unfold try in H. injection H as <- <- <-. destruct (Hfin _ Hpub) as [Ho Hse].
    split; [done|]. split; [by right; right|]. intros a _. split; [done|]. by exists der.
  - rewrite E in Hlog. cbn in Hlog. destruct Hlog as [-> Hpub]. destruct (Hfin _ Hpub) as [Ho Hse]. split; [done|]. split; [by right; right|].
    intros a ->. by destruct (Hd a).
Qed.
End parts.

Section login.
Context (srv : server) (cfg : ConnectionConfig)
  (resolve : rstr -> rstr -> rstr -> result rstr (rstr * CredentialSource)) (resolve_time : Z).
Abbreviation resolved := (resolve (cc_account_id cfg) (cc_username cfg) (cc_host cfg)).
Abbreviation resolving := (Resolve (cc_account_id cfg) (cc_username cfg) (cc_host cfg)).

(** The server's capability list before login does not forbid it. *)
Definition login_enabled : Prop :=
  exists t items, sv_capability srv true = Answers t (Ok items) /\ drain_for_logindisabled items = false.

Definition before_resolve (s : step) : Prop := over_tls s /\ ~ credential_step s.

Lemma greeting_does already_greeted : does before_resolve published_nothing
  (if already_greeted : bool then mret tt
   else greeting ← on_wire (ReadGreeting true) (sv_greeting srv true);
        try (match greeting with
          | Err e => Err (IConnect e)
          | Ok None => Err (IAuth ServerRejected)
          | Ok (Some GreetingBye) => Err (IAuth ServerRejected)
          | Ok (Some _) => Ok tt
          end)).
Proof.
  destruct already_greeted; [apply does_ret; typeclasses eauto|].
  apply does_bind; [typeclasses eauto|apply does_wire; by split; cbn; auto|intros ?; apply does_try; typeclasses eauto].
Qed.

(** How a login goes: up to the credential, and from it. *)
Inductive login_run (st : attempt_state) : list step -> attempt_state -> ended ServerCapabilities -> Prop :=
  | run_stops l st' r : Forall before_resolve l -> published_nothing st st' -> (forall c, r <> Done c) -> login_run st l st' r
  | run_unresolved l st' e r : Forall before_resolve l -> published_nothing st st' -> login_enabled -> resolved = Err e ->
      r = Failed (IAuth (CredentialUnavailable e)) -> login_run st (l ++ [resolving]) st' r
  | run_refused l st' p s r : Forall before_resolve l -> login_enabled -> resolved = Ok (p, s) ->
      last_observed st' = last_observed st -> progress_source st' = Some (default s (progress_source st)) ->
      (forall c, r <> Done c) -> login_run st (l ++ [resolving; Login (cc_username cfg) p]) st' r
  | run_logs_in l st' p s r t : Forall before_resolve l -> login_enabled -> resolved = Ok (p, s) ->
      last_observed st' = last_observed st -> progress_source st' = Some (default s (progress_source st)) ->
      sv_login srv = Answers t TaggedOk ->
      (forall c, r = Done c -> c = Unknown \/ exists t' caps, sv_session_capabilities srv = Answers t' (Ok caps) /\ c = classify_capabilities caps) ->
      login_run st (l ++ [resolving; Login (cc_username cfg) p; Send true (lit "CAPABILITY")]) st' r.

Lemma read_capabilities_inv d st l st' r : read_capabilities srv d st = (l, st', r) ->
  l = [Send true (lit "CAPABILITY")] /\ published_nothing st st' /\
  (forall c, r = Done c -> c = Unknown \/ exists t caps, sv_session_capabilities srv = Answers t (Ok caps) /\ c = classify_capabilities caps).
Proof.
  unfold read_capabilities. intros [(l1 & st1 & a & l2 & (-> & t & Ea & ->)%wire_done & H & ->)|(E & _ & Hd)]%bind_inv.
  - injection H as <- <- <-. split; [done|]. split; [done|]. intros c [= <-]. destruct a as [caps|e]; [right; by exists t, caps|by left].
  - unfold on_wire in E. split; [|split; [|intros c ->; by destruct (Hd c)]].
    + destruct (sv_session_capabilities srv); [destruct (_ || _)|..]; by injection E as <- <-.
    + destruct (sv_session_capabilities srv); [destruct (_ || _)|..]; by injection E as <- <-.
Qed.

Lemma run_capability_does secure : does (fun s => s = Send secure (lit "CAPABILITY")) published_nothing (run_capability srv secure).
Proof. unfold run_capability. apply does_bind; [typeclasses eauto|by apply does_wire|intros ?; apply does_try; typeclasses eauto]. Qed.
Lemma run_capability_done secure d st l st' items : run_capability srv secure d st = (l, st', Done items) ->
  exists t, sv_capability srv secure = Answers t (Ok items).
Proof.
  unfold run_capability. intros (l1 & st1 & a & l2 & (_ & t & Ea & _)%wire_done & (Er & _)%try_done & _)%bind_done.
  destruct a as [items'|e]; [|done]. cbn in Er. injection Er as ->. by exists t.
Qed.
Lemma wire_log {X} s (a : await X) d st : (on_wire s a d st).1.1 = [s] /\ published_nothing st (on_wire s a d st).1.2.
Proof. unfold on_wire. by destruct a; [destruct (_ || _)|..]. Qed.

(** The part of a login that has the credential. *)
Lemma login_rest_inv d st l st' r p :
  (reply ← on_wire (Login (cc_username cfg) p) (sv_login srv);
   _ ← try (match reply with
     | TaggedOk => Ok tt
     | TaggedNo => Err (IAuth LoginRejected)
     | TaggedBad e | CommandFails e => Err (IProtocol e)
     end);
   read_capabilities srv) d st = (l, st', r) ->
  published_nothing st st' /\
  ((l = [Login (cc_username cfg) p] /\ forall c, r <> Done c) \/
   (l = [Login (cc_username cfg) p; Send true (lit "CAPABILITY")] /\ (exists t, sv_login srv = Answers t TaggedOk) /\
    forall c, r = Done c -> c = Unknown \/ exists t caps, sv_session_capabilities srv = Answers t (Ok caps) /\ c = classify_capabilities caps)).
Proof.
  intros [(l1 & st1 & a & l2 & Hw & H & ->)|(E & _ & Hd)]%bind_inv.
  2: { destruct (wire_log (Login (cc_username cfg) p) (sv_login srv) d st) as [Hl Hp]. rewrite E in Hl, Hp. cbn in Hl, Hp. split; [done|].
       left. split; [done|]. intros c ->. by destruct (Hd c). }
  destruct (wire_log (Login (cc_username cfg) p) (sv_login srv) d st) as [_ Hp]. rewrite Hw in Hp. cbn in Hp.
  apply wire_done in Hw as (-> & t & Ea & _).
  apply bind_inv in H as [(l1 & st2 & [] & l3 & (Ea' & -> & ->)%try_done & H & ->)|(E & _ & Hd)].
  - destruct (read_capabilities_inv _ _ _ _ _ H) as (-> & Hp2 & Hc). split; [by etrans|]. right. split; [done|].
    split; [|done]. destruct a; try done. by exists t.
  - injection E as <- <-. split; [done|]. left. split; [done|]. intros c ->. by destruct (Hd c).
Qed.

Lemma login_inv already_greeted d st l st' r :
  imap_login srv cfg resolve resolve_time already_greeted d st = (l, st', r) -> login_run st l st' r.
Proof.
  unfold imap_login. intros [H|(E & _ & Hd)]%bind_inv.
  2: { destruct (greeting_does already_greeted d st) as [Hl Hp]. rewrite E in Hl, Hp. cbn in *. apply run_stops; [done|done|]. intros c ->. by destruct (Hd c). }
  destruct H as (l1 & st1 & [] & l2 & Hg & H & ->).
  destruct (greeting_does already_greeted d st) as [Hl1 Hp1]. rewrite Hg in Hl1, Hp1. cbn in Hl1, Hp1. clear Hg.
  assert (Hcap : Forall before_resolve (run_capability srv true d st1).1.1 /\ published_nothing st1 (run_capability srv true d st1).1.2).
  { apply (does_weaken (fun s => s = Send true (lit "CAPABILITY")) _ published_nothing); [intros ? ->; split; cbn; tauto|done|apply run_capability_does]. }
  apply bind_inv in H as [(l3 & st2 & items & l4 & Hc & H & ->)|(E & _ & Hd)].
  2: { rewrite E in Hcap. cbn in Hcap. destruct Hcap as [Hl2 Hp2]. apply run_stops; [by apply Forall_app|by etrans|]. intros c ->. by destruct (Hd c). }
  rewrite Hc in Hcap. cbn in Hcap. destruct Hcap as [Hl2 Hp2]. apply run_capability_done in Hc as [t Hc].
  apply bind_inv in H as [(l5 & st3 & [] & l6 & (Ei & -> & ->)%try_done & H & ->)|(E & _ & Hd)].
  2: { injection E as <- <-. rewrite app_nil_r. apply run_stops; [by apply Forall_app|by etrans|]. intros c ->. by destruct (Hd c). }
  assert (Hen : login_enabled) by (exists t, items; split; [done|]; by destruct (drain_for_logindisabled items)).
  assert (Hl : Forall before_resolve (l1 ++ l3)) by by apply Forall_app. cbn [app]. rewrite (assoc_L (++)).
  apply bind_inv in H as [(l7 & st4 & a & l8 & Hr & H & ->)|(_ & Hd & _)]; [|exact (False_ind _ (Hd resolved eq_refl))].
  unfold resolve_credential in Hr. injection Hr as <- <- <-.
  destruct resolved as [[p s]|e] eqn:Er.
  2: { unfold try, mbind, connecting_bind in H. cbn in H. injection H as <- <- <-. cbn [app]. apply run_unresolved with e; try done.
       by etrans; [|by etrans]. }
  apply bind_inv in H as [(l9 & st5 & [p0 s0] & l10 & (E & -> & ->)%try_done & H & ->)|(_ & Hd & _)];
    [|exact (False_ind _ (Hd (p, s) eq_refl))].
  cbn in E. injection E as <- <-. cbn [app].
  apply bind_inv in H as [(l11 & st6 & [] & l12 & Hrec & H & ->)|(_ & Hd & _)]; [|exact (False_ind _ (Hd tt eq_refl))].
  unfold record_credential_source in Hrec. injection Hrec as <- <-. cbn [app].
  apply login_rest_inv in H as [[Hq1 Hq2] H]. cbn in Hq1, Hq2. destruct Hp1 as [E1 E2], Hp2 as [E3 E4].
  assert (Hlo : last_observed st' = last_observed st) by congruence.
  assert (Hps : progress_source st' = Some (default s (progress_source st))) by (rewrite Hq2, <- E2, <- E4; by destruct (progress_source st2)).
  destruct H as [[-> Hd]|(-> & [t' Ho] & Hcs)]; [by apply run_refused with s|by apply run_logs_in with s t'].
Qed.
End login.

Section attempt.
Context (tls : tls_library) (srv : server) (cfg : ConnectionConfig)
  (resolve : rstr -> rstr -> rstr -> result rstr (rstr * CredentialSource)) (resolve_time : Z).

(** The stream is secured: what was said before, and by whom the certificate
    was accepted. *)
Definition secured (v : verifier) (st : attempt_state) (l : list step) (st' : attempt_state) : Prop :=
  exists pre der, l = pre ++ [TlsHello (cc_host cfg); TlsFinish] /\ Forall before_tls pre /\
    presented srv der /\ accepts tls v (cc_host cfg) der /\ seen tls st st' der.
Definition no_credential (l : list step) : Prop := Forall (fun s => ~ credential_step s) l.

Lemma observed_after st st1 st' : published_nothing st st1 -> observed_from tls srv st1 st' -> observed_from tls srv st st'.
Proof. intros [E1 E2] [E3 E4]. unfold observed_from. by rewrite <- E1, <- E2. Qed.

Lemma handshake_phase v d st l st' r : tls_handshake tls srv v (cc_host cfg) d st = (l, st', r) ->
  observed_from tls srv st st' /\ no_credential l /\ (forall a, r = Done a -> secured v st l st').
Proof.
  intros (Ho & Hl & Hd)%handshake_inv. split; [done|]. split.
  - destruct Hl as [-> |[-> | ->]]; repeat constructor; by intros [].
  - intros a Ha. destruct (Hd a Ha) as (-> & der & Hp & Hac & Hs). exists [], der. by split_and!.
Qed.

Lemma starttls_phase v d st l st' r : starttls_upgrade tls srv v (cc_host cfg) d st = (l, st', r) ->
  observed_from tls srv st st' /\ no_credential l /\ (forall a, r = Done a -> secured v st l st').
Proof.
  unfold starttls_upgrade. destruct (starttls_does srv d st) as [Hl Hp].
  intros [(l1 & st1 & [] & l2 & Hn & H & ->)|(E & _ & Hd)]%bind_inv.
  - rewrite Hn in Hl, Hp. cbn in Hl, Hp. destruct (handshake_phase _ _ _ _ _ _ H) as (Ho & Hc & Hdone).
    split; [by eapply observed_after|]. split; [apply Forall_app; split; [by apply before_no_credential|done]|].
    intros a Ha. destruct (Hdone a Ha) as (pre & der & -> & Hpre & Hpr & Hac & [E1 E2]). exists (l1 ++ pre), der.
    split; [by rewrite <- app_assoc|]. split; [by apply Forall_app|]. split; [done|]. split; [done|]. destruct Hp as [E3 E4].
    split; [congruence|]. by rewrite E2, E3.
  - rewrite E in Hl, Hp. cbn in Hl, Hp. split; [split; [apply Hp|by left; apply Hp]|]. split; [by apply before_no_credential|].
    intros a ->. by destruct (Hd a).
Qed.

Definition lapse_is {A} (op : rstr) (r : ended A) : ended A := match r with Lapsed => Failed (ITimeout op) | r => r end.
Lemma within_inv {A} started total op (m : connecting A) d st l st' r : within started total op m d st = (l, st', r) ->
  exists r0, m (Z.max (now st) (started + total)) st = (l, st', r0) /\ r = lapse_is op r0.
Proof. unfold within. destruct (m _ st) as [[l0 st0] []]; intros [= <- <- <-]; by eexists. Qed.
Lemma lapse_done {A} op (r : ended A) a : lapse_is op r = Done a -> r = Done a.
Proof. by destruct r. Qed.

Inductive connect_run (v : verifier) (st : attempt_state) : list step -> attempt_state -> ended ServerCapabilities -> Prop :=
  | connect_stops l st' r : no_credential l -> observed_from tls srv st st' -> (forall c, r <> Done c) -> connect_run v st l st' r
  | connect_enters l1 st1 l2 st' r : secured v st l1 st1 -> login_run srv cfg resolve st1 l2 st' r ->
      connect_run v st (l1 ++ l2) st' (lapse_is (lit "imap_login") r).

Lemma connect_inv v d st l st' r :
  connect_with_bundle tls srv cfg resolve resolve_time v d st = (l, st', r) -> connect_run v st l st' r.
Proof.
  unfold connect_with_bundle. intros H.
  apply bind_inv in H as [(l0 & st0 & started & l1 & Hc & H & ->)|(_ & Hd & _)]; [|exact (False_ind _ (Hd (now st) eq_refl))].
  unfold clock in Hc. injection Hc as <- <- <-. cbn [app].
  assert (Hdial : forall t, Forall before_tls (within (now st) t (lit "tcp_connect") (on_wire (Dial (cc_host cfg) (cc_port cfg)) (sv_dial srv)) d st).1.1 /\
    published_nothing st (within (now st) t (lit "tcp_connect") (on_wire (Dial (cc_host cfg) (cc_port cfg)) (sv_dial srv)) d st).1.2).
  { intros t. by apply does_within, does_wire. }
  apply bind_inv in H as [(l2 & st2 & dialled & l3 & Hw & H & ->)|(E & _ & Hd)]; specialize (Hdial (cc_connect_timeout cfg)).
  2: { rewrite E in Hdial. destruct Hdial as [Hl [E1 E2]]. cbn in *. apply connect_stops; [by apply before_no_credential|by split; [|left]|].
       intros c ->. by destruct (Hd c). }
  rewrite Hw in Hdial. destruct Hdial as [Hl Hp]. cbn in Hl, Hp. clear Hw.
  apply bind_inv in H as [(l4 & st4 & [] & l5 & (Ed & -> & ->)%try_done & H & ->)|(E & _ & Hd)].
  2: { injection E as <- <-. rewrite app_nil_r. destruct Hp as [E1 E2]. apply connect_stops; [by apply before_no_credential|by split; [|left]|].
       intros c ->. by destruct (Hd c). }
  cbn [app]. set (phase := match cc_encryption cfg with ImapTls => _ | ImapStarttls => _ end) in H.
  assert (Hphase : forall d l st' r, phase d st2 = (l, st', r) ->
    observed_from tls srv st2 st' /\ no_credential l /\ (forall a, r = Done a -> secured v st2 l st')).
  { subst phase. intros d1 l6 st6 r6 Hph. destruct (cc_encryption cfg);
      (apply bind_inv in Hph as [(l7 & st7 & [] & l8 & Hw & Hph & ->)|(E & _ & Hd)];
       [injection Hph as <- <- <-; rewrite app_nil_r|];
       [|destruct (within _ _ _ _ _ _) as [[l7 st7] r7] eqn:Hw in E; cbn in E; injection E as -> ->];
       apply within_inv in Hw as (r0 & Hw & Hr);
       [|try (apply handshake_phase in Hw); try (apply starttls_phase in Hw); destruct Hw as (Ho & Hn & _); split; [done|]; split; [done|];
         intros a ->; by destruct (Hd a)];
       try (apply handshake_phase in Hw); try (apply starttls_phase in Hw); destruct Hw as (Ho & Hn & Hdone); split; [done|]; split; [done|];
       intros _ _; symmetry in Hr; apply lapse_done in Hr; by apply (Hdone tt)). }
  apply bind_inv in H as [(l6 & st6 & greeted & l7 & Hph & H & ->)|(E & _ & Hd)].
  - destruct (Hphase _ _ _ _ Hph) as (_ & _ & Hs). destruct (Hs greeted eq_refl) as (pre & der & -> & Hpre & Hpr & Hac & [E1 E2]).
    apply within_inv in H as (r0 & H & ->). apply login_inv in H. rewrite (assoc_L (++)). apply connect_enters with st6; [|done].
    destruct Hp as [E3 E4]. exists (l2 ++ pre), der. split; [by rewrite <- (assoc_L (++))|]. split; [by apply Forall_app|].
    split; [done|]. split; [done|]. split; [congruence|]. by rewrite E2, E3.
  - destruct (phase _ st2) as [[l8 st8] r8] eqn:Hph in E. cbn in E. injection E as -> ->.
    destruct (Hphase _ _ _ _ Hph) as (Ho & Hn & _). apply connect_stops.
    + apply Forall_app. split; [by apply before_no_credential|done].
    + by eapply observed_after.
    + intros c ->. by destruct (Hd c).
Qed.
End attempt.

(** ** Time *)

(** A program ends at its deadline, but for what it blocks. *)
Definition lasts (extra : Z) {A} (m : connecting A) : Prop := forall d st, now (m d st).1.2 <= Z.max (now st) d + extra.
Section lasts.
Lemma lasts_ret {A} (a : A) : lasts 0 (mret a).
Proof. intros d st. cbn. lia. Qed.
Lemma lasts_try {A} (r : result ImapError A) : lasts 0 (try r).
Proof. intros d st. cbn. lia. Qed.
Lemma lasts_wire {X} s (a : await X) : lasts 0 (on_wire s a).
Proof.
  intros d st. unfold on_wire. destruct a as [t x| |]; [|cbn; lia..]. destruct (_ || _) eqn:E; cbn; [|lia].
  apply orb_true_iff in E as [?%Z.eqb_eq|?%Z.leb_le]; lia.
Qed.
Lemma lasts_bind {A B} e e' (m : connecting A) (f : A -> connecting B) :
  0 <= e -> 0 <= e' -> lasts e m -> (forall a, lasts e' (f a)) -> lasts (e + e') (m ≫= f).
Proof.
  intros He He' Hm Hf d st. specialize (Hm d st). unfold mbind, connecting_bind. destruct (m d st) as [[l st1] [a|err| |]]; cbn in *; try lia.
  specialize (Hf a d st1). destruct (f a d st1) as [[l' st2] r]. cbn in *. lia.
Qed.
Lemma lasts_bind0 {A B} e (m : connecting A) (f : A -> connecting B) :
  0 <= e -> lasts 0 m -> (forall a, lasts e (f a)) -> lasts e (m ≫= f).
Proof. intros He Hm Hf. rewrite <- (Z.add_0_l e). by apply lasts_bind. Qed.
Lemma lasts_weaken {A} e e' (m : connecting A) : e <= e' -> lasts e m -> lasts e' m.
Proof. intros He Hm d st. specialize (Hm d st). lia. Qed.
End lasts.
Ltac lasts := repeat (intros; match goal with
  | |- lasts _ (_ ≫= _) => apply lasts_bind0
  | |- lasts _ (try _) => eapply lasts_weaken; [|apply lasts_try]
  | |- lasts _ (mret _) => eapply lasts_weaken; [|apply lasts_ret]
  | |- lasts _ (on_wire _ _) => eapply lasts_weaken; [|apply lasts_wire]
  | |- lasts _ (match ?x with _ => _ end) => destruct x
  | |- lasts _ (fun _ _ => _) => intros ? ?; cbn; lia
  | |- _ <= _ => lia
  end).

Section time.
Context (tls : tls_library) (srv : server) (cfg : ConnectionConfig)
  (resolve : rstr -> rstr -> rstr -> result rstr (rstr * CredentialSource)) (resolve_time : Z) (Hblock : 0 <= resolve_time).

Lemma lasts_starttls : lasts 0 (starttls_negotiate srv).
Proof. unfold starttls_negotiate, run_capability. lasts. Qed.
Lemma lasts_handshake v host : lasts 0 (tls_handshake tls srv v host).
Proof. unfold tls_handshake, verify_server_cert, observe. lasts. Qed.
Lemma lasts_upgrade v host : lasts 0 (starttls_upgrade tls srv v host).
Proof. unfold starttls_upgrade. apply lasts_bind0; [done|apply lasts_starttls|intros; apply lasts_handshake]. Qed.
Lemma lasts_login greeted : lasts resolve_time (imap_login srv cfg resolve resolve_time greeted).
Proof.
  unfold imap_login, run_capability, read_capabilities, record_credential_source.
  apply lasts_bind0; [done|lasts|]. intros []. apply lasts_bind0; [done|lasts|]. intros items.
  apply lasts_bind0; [done|lasts|]. intros []. apply (lasts_weaken (resolve_time + 0)); [lia|].
  apply lasts_bind; [done|done| |]; [intros d st; unfold resolve_credential; cbn; lia|]. lasts.
Qed.

(** Begun by [limit], a program ends by [limit']. *)
Definition ends_by (limit limit' : Z) {A} (m : connecting A) : Prop := forall d st, now st <= limit -> now (m d st).1.2 <= limit'.
Lemma ends_bind {A B} limit limit' (m : connecting A) (f : A -> connecting B) :
  limit <= limit' -> ends_by limit limit m -> (forall a, ends_by limit limit' (f a)) -> ends_by limit limit' (m ≫= f).
Proof.
  intros Hle Hm Hf d st Hn. specialize (Hm d st Hn). unfold mbind, connecting_bind. destruct (m d st) as [[l st1] [a|err| |]]; cbn in *; try lia.
  specialize (Hf a d st1 Hm). by destruct (f a d st1) as [[l' st2] r].
Qed.
Lemma ends_try {A} limit (r : result ImapError A) : ends_by limit limit (try r).
Proof. by intros d st H. Qed.
Lemma ends_ret {A} limit (a : A) : ends_by limit limit (mret a).
Proof. by intros d st H. Qed.
Lemma ends_within {A} started total op (m : connecting A) e :
  0 <= e -> lasts e m -> ends_by (started + total) (started + total + e) (within started total op m).
Proof. intros He Hm d st Hn. rewrite within_parts. specialize (Hm (Z.max (now st) (started + total)) st). lia. Qed.
Lemma ends_budget {A} started total op (m : connecting A) : lasts 0 m -> ends_by (started + total) (started + total) (within started total op m).
Proof. intros Hm d st Hn. pose proof (ends_within started total op m 0 (Z.le_refl 0) Hm d st Hn). lia. Qed.
Lemma lasts_enriching {A} e (m : connecting A) : lasts e m -> lasts e (enriching cfg m).
Proof. intros Hm d st. rewrite enriching_parts. apply Hm. Qed.

(** A program that begins by reading the clock. *)
Lemma ends_clock {A} d st limit (f : Z -> connecting A) : now (f (now st) d st).1.2 <= limit -> now ((clock ≫= f) d st).1.2 <= limit.
Proof. unfold mbind, connecting_bind, clock. by destruct (f (now st) d st) as [[l st'] r]. Qed.
Lemma ends_from {A} d st limit limit' (m : connecting A) : ends_by limit limit' m -> now st <= limit -> now (m d st).1.2 <= limit'.
Proof. auto. Qed.

Lemma connect_ends v d st : 0 <= cc_connect_timeout cfg ->
  now (connect_with_bundle tls srv cfg resolve resolve_time v d st).1.2 <= now st + cc_connect_timeout cfg + resolve_time.
Proof.
  intros Ht. unfold connect_with_bundle. apply ends_clock, (ends_from _ _ (now st + cc_connect_timeout cfg)); [|lia].
  apply ends_bind; [lia|apply ends_budget, lasts_wire|]. intros dialled.
  apply ends_bind; [lia|apply ends_try|]. intros [].
  apply ends_bind; [lia| |intros; apply ends_within; [done|apply lasts_login]].
  destruct (cc_encryption cfg); (apply ends_bind; [done| |intros; apply ends_ret]); apply ends_budget;
    [apply lasts_handshake|apply lasts_upgrade].
Qed.

Lemma ends_weaken {A} a a' b b' (m : connecting A) : a' <= a -> b <= b' -> ends_by a b m -> ends_by a' b' m.
Proof. intros Ha Hb Hm d st H. specialize (Hm d st). lia. Qed.
Lemma ends_then_clock {A} limit limit' (f : Z -> connecting A) :
  (forall t, t <= limit -> ends_by t limit' (f t)) -> ends_by limit limit' (clock ≫= f).
Proof. intros Hf d st H. apply ends_clock. by apply (Hf (now st)). Qed.

Lemma probe_ends d st : 0 <= cc_connect_timeout cfg -> 0 <= cc_command_timeout cfg ->
  now (probe_preflight tls srv cfg d st).1.2 <= now st + cc_connect_timeout cfg + cc_command_timeout cfg.
Proof.
  intros Ht Hc. set (c := cc_command_timeout cfg) in *.
  assert (Hlast : forall L items, ends_by L L (let caps := fold_left (fun out item => match item with CapabilityList list => collect_capabilities list out | OtherResponse => out end) items [] in
     observed ← observed_fingerprint;
     fp ← try (match observed with Some fp => Ok fp | None => Err (ITlsHandshake (general_error tls (lit "verifier did not capture fingerprint"))) end);
     mret (mkPreflight caps fp))).
  { intros L items. cbv zeta. apply ends_bind; [done|by intros ? ? ?|]. intros observed. apply ends_bind; [done|apply ends_try|]. intros fp. apply ends_ret. }
  assert (Hcap : forall t L, t <= L -> ends_by t (L + c) (items ← within t c (lit "imap_capability") (run_capability srv true);
     let caps := fold_left (fun out item => match item with CapabilityList list => collect_capabilities list out | OtherResponse => out end) items [] in
     observed ← observed_fingerprint;
     fp ← try (match observed with Some fp => Ok fp | None => Err (ITlsHandshake (general_error tls (lit "verifier did not capture fingerprint"))) end);
     mret (mkPreflight caps fp))).
  { intros t L Htl. apply (ends_weaken (t + c) t (t + c) (L + c)); [lia|lia|].
    apply ends_bind; [done|apply ends_budget; unfold run_capability; lasts|]. intros items. apply Hlast. }
  unfold probe_preflight. apply (ends_from _ _ (now st)); [|lia].
  apply ends_bind; [lia|apply ends_try|]. intros v. intros d0 st0 H0. cbv zeta. apply ends_clock.
  set (L := now st0 + cc_connect_timeout cfg). assert (HL : L <= now st + cc_connect_timeout cfg) by lia.
  apply (ends_from _ _ L); [|lia]. apply (ends_weaken L L (L + c)); [lia|lia|].
  apply ends_bind; [lia|apply ends_budget, lasts_wire|]. intros dialled.
  apply ends_bind; [lia|apply ends_try|]. intros [].
  apply ends_bind; [lia| |].
  { destruct (cc_encryption cfg); (apply ends_bind; [done| |intros; apply ends_ret]); apply ends_budget, lasts_enriching;
      [apply lasts_handshake|apply lasts_upgrade]. }
  intros greeted. apply ends_bind; [lia| |].
  { destruct greeted; [apply ends_ret|]. apply ends_bind; [lia|apply ends_budget, lasts_wire|]. intros; apply ends_try. }
  intros []. apply ends_then_clock. intros t Htl. by apply Hcap.
Qed.
End time.

(** ** What an attempt guarantees *)

Section guarantees.
Context (tls : tls_library) (srv : server) (cfg : ConnectionConfig)
  (resolve : rstr -> rstr -> rstr -> result rstr (rstr * CredentialSource)) (resolve_time : Z) (sink : AuthEvent -> sink_answer) (write_time : AuthEvent -> Z).
Abbreviation attempt t := (connect_inner tls srv cfg resolve resolve_time sink write_time (mkAttempt t None None)).
Abbreviation resolved := (resolve (cc_account_id cfg) (cc_username cfg) (cc_host cfg)).
Abbreviation pin := (cc_pinned_fingerprint cfg).

(** The certificate is the pinned one, or the roots vouch for it. *)
Definition trusted (der : list Z) : Prop :=
  match pin with Some fp => from_cert_der tls der = fp | None => chain_verdict tls (cc_host cfg) der = Ok tt end.

Lemma build_accepts v der : build_tls_config tls pin = Ok v -> accepts tls v (cc_host cfg) der -> trusted der.
Proof.
  unfold build_tls_config. destruct (client_config tls); [|done]. intros [= <-]. unfold trusted. by destruct pin.
Qed.
Lemma attempt_run t v : build_tls_config tls pin = Ok v ->
  exists r, connect_run tls srv cfg resolve v (mkAttempt t None None) (cr_steps (attempt t)) (cr_state (attempt t)) r.
Proof.
  intros Hv. unfold connect_inner. rewrite Hv. destruct (connect_with_bundle _ _ _ _ _ _ _ _) as [[l st'] r] eqn:E.
  apply connect_inv in E. exists r. by destruct r.
Qed.
Lemma attempt_unbuilt t e : build_tls_config tls pin = Err e -> cr_steps (attempt t) = [].
Proof. intros He. unfold connect_inner. by rewrite He. Qed.

Lemma before_over l : Forall before_resolve l -> Forall over_tls l /\ no_credential l.
Proof. intros H. split; eapply Forall_impl; try done; by intros s []. Qed.

(** The part of a run after the stream is secured. *)
Lemma login_steps st l st' r : login_run srv cfg resolve st l st' r ->
  Forall over_tls l /\ (no_credential l \/ login_enabled srv) /\
  (forall u p, Login u p ∈ l -> u = cc_username cfg /\ exists s, resolved = Ok (p, s)).
Proof.
  assert (Hno : forall l u p, Forall before_resolve l -> Login u p ∈ l -> False).
  { intros l0 u p Hl Hin. rewrite Forall_forall in Hl. by destruct (Hl _ Hin) as [_ []]. }
  assert (Hlog : forall l0 rest u p p0 s0, Forall before_resolve l0 -> resolved = Ok (p0, s0) ->
    (forall s, s ∈ rest -> s = Resolve (cc_account_id cfg) (cc_username cfg) (cc_host cfg) \/ s = Login (cc_username cfg) p0 \/ s = Send true (lit "CAPABILITY")) ->
    Login u p ∈ l0 ++ rest -> u = cc_username cfg /\ exists s, resolved = Ok (p, s)).
  { intros l0 rest u p p0 s0 Hl Hr Hrest [Hin|Hin]%elem_of_app; [by destruct (Hno _ _ _ Hl Hin)|].
    destruct (Hrest _ Hin) as [[=]|[[= -> ->]|[=]]]. split; [done|]. by exists s0. }
  intros [l0 st0 r0 Hl Hp Hd|l0 st0 e r0 Hl Hp He Hr ->|l0 st0 p s r0 Hl He Hr _ _ _|l0 st0 p s r0 t Hl He Hr _ _ _ _];
    destruct (before_over _ Hl) as [Ho Hn].
  - split; [done|]. split; [by left|]. intros u p Hin. by destruct (Hno _ _ _ Hl Hin).
  - split; [apply Forall_app; split; [done|by repeat constructor]|]. split; [by right|].
    intros u p [Hin|Hin%list_elem_of_singleton]%elem_of_app; [by destruct (Hno _ _ _ Hl Hin)|done].
  - split; [apply Forall_app; split; [done|by repeat constructor]|]. split; [by right|].
    intros u q. apply Hlog with p s; try done. intros x Hx. rewrite !elem_of_cons, elem_of_nil in Hx. tauto.
  - split; [apply Forall_app; split; [done|by repeat constructor]|]. split; [by right|].
    intros u q. apply Hlog with p s; try done. intros x Hx. rewrite !elem_of_cons, elem_of_nil in Hx. tauto.
Qed.

(** C10: no credential before the server is authenticated.  Either an attempt
    neither resolves a credential nor logs in, or it does so only after a TLS
    handshake that ran to its end with the server's certificate accepted: the
    pinned one where the account pins one, else one the roots vouch for.
    Before that handshake nothing is sent but CAPABILITY and STARTTLS, and
    nothing after it is sent on the bare stream; what the server said on the
    encrypted stream does not disable login; and what is sent is the
    account's user name with the resolver's password for it. *)
Theorem credentials_guarded t :
  no_credential (cr_steps (attempt t)) \/
  exists pre post der, cr_steps (attempt t) = pre ++ [TlsHello (cc_host cfg); TlsFinish] ++ post /\
    Forall before_tls pre /\ Forall over_tls post /\ presented srv der /\ trusted der /\ login_enabled srv /\
    (forall u p, Login u p ∈ post -> u = cc_username cfg /\ exists s, resolved = Ok (p, s)).
Proof.
  destruct (build_tls_config tls pin) as [v|e] eqn:Ev; [|left; rewrite (attempt_unbuilt t e Ev); constructor].
  destruct (attempt_run t v Ev) as [r Hr]. set (l := cr_steps (attempt t)) in *. destruct Hr as [l st' r Hn _ _|l1 st1 l2 st' r Hs Hl].
  { by left. }
  destruct Hs as (pre & der & -> & Hpre & Hpr & Hac & _). destruct (login_steps _ _ _ _ Hl) as (Ho & Hen & Hlog).
  destruct Hen as [Hen|Hen].
  - left. apply Forall_app. split; [|done]. apply Forall_app. split; [by apply before_no_credential|]. repeat constructor; by intros [].
  - right. exists pre, l2, der. split; [by rewrite <- (assoc_L (++))|]. split_and!; try done. by apply (build_accepts v).
Qed.

(** What the record says of the run it records. *)
Definition records (t : Z) (ev : AuthEvent) : Prop :=
  ae_account ev = cc_account cfg /\ ae_host ev = cc_host cfg /\ ae_port ev = cc_port cfg /\ ae_username ev = cc_username cfg /\
  match AuditRecord.tls_fingerprint_sha256 ev with
  | Some hex => exists der, presented srv der /\ hex = fingerprint_to_hex (from_cert_der tls der) /\
      fingerprint_match ev = (fun fp => bool_decide (fp = from_cert_der tls der)) <$> pin
  | None => fingerprint_match ev = None /\ no_credential (cr_steps (attempt t))
  end /\
  (forall s, ae_credential_source ev = Some s <->
     Exists credential_step (cr_steps (attempt t)) /\ exists p, resolved = Ok (p, s)).

(** The state a run ends in, against its log. *)
Lemma run_state t v l st' r : connect_run tls srv cfg resolve v (mkAttempt t None None) l st' r ->
  (match last_observed st' with
   | Some fp => exists der, presented srv der /\ fp = from_cert_der tls der
   | None => no_credential l end) /\
  (forall s, progress_source st' = Some s <-> Exists credential_step l /\ exists p, resolved = Ok (p, s)).
Proof.
  assert (Hno : forall l, no_credential l -> ~ Exists credential_step l) by (intros l0 H1 H2; by apply Exists_not_Forall in H1; [|eapply Exists_impl; [exact H2|auto]]).
  intros [l0 st0 r0 Hn [Hps Hlo] _|l1 st1 l2 st2 r0 (pre & der & -> & Hpre & Hpr & _ & [Hps Hlo]) Hl]; cbn in *.
  - rewrite Hps. split.
    + destruct Hlo as [-> |(der & Hpr & ->)]; [done|]. by exists der.
    + intros s. split; [done|]. intros [He _]. by destruct (Hno _ Hn).
  - assert (Hn1 : no_credential (pre ++ [TlsHello (cc_host cfg); TlsFinish])).
    { apply Forall_app. split; [by apply before_no_credential|]. repeat constructor; by intros []. }
    assert (Hcred : forall l x, Exists credential_step ((pre ++ [TlsHello (cc_host cfg); TlsFinish]) ++ l ++ Resolve (cc_account_id cfg) (cc_username cfg) (cc_host cfg) :: x)).
    { intros l0 x. apply Exists_app. right. apply Exists_app. right. by left. }
    destruct Hl as [l0 st0 r0 Hl [E1 E2] Hd|l0 st0 e r0 Hl [E1 E2] He Hr ->|l0 st0 p s r0 Hl He Hr E1 E2 _|l0 st0 p s r0 t0 Hl He Hr E1 E2 _ _];
      rewrite E1, Hlo, E2; (split; [by exists der|]); intros s'; rewrite Hps; cbn.
    + split; [done|]. intros [Hex _]. destruct (before_over _ Hl) as [_ Hn2]. exfalso. apply (Hno _ (proj2 (Forall_app _ _ _) (conj Hn1 Hn2))), Hex.
    + split; [done|]. intros [_ [p Hp]]. congruence.
    + split; [intros [= <-]; split; [apply Hcred|by exists p]|]. intros [_ [p' Hp]]. congruence.
    + split; [intros [= <-]; split; [apply Hcred|by exists p]|]. intros [_ [p' Hp]]. congruence.
Qed.

Lemma connected_logged_in v st l st' r : connect_run tls srv cfg resolve v st l st' r -> forall c, r = Done c ->
  exists t, sv_login srv = Answers t TaggedOk.
Proof.
  intros [l0 st0 r0 _ _ Hd|l1 st1 l2 st2 r0 _ Hl] c Hr; [by destruct (Hd c)|]. apply lapse_done in Hr.
  destruct Hl as [? ? ? _ _ Hd|? ? ? ? _ _ _ _ ->|? ? ? ? ? _ _ _ _ _ Hd|? ? ? ? ? t _ _ _ _ _ Ht _];
    [by destruct (Hd c)|done|by destruct (Hd c)|by exists t].
Qed.

Lemma event_records t v ok code r : build_tls_config tls pin = Ok v ->
  connect_run tls srv cfg resolve v (mkAttempt t None None) (cr_steps (attempt t)) (cr_state (attempt t)) r ->
  records t (auth_event (auth_context cfg (cr_state (attempt t))) ok code).
Proof.
  intros Hv Hr. destruct (run_state _ _ _ _ _ Hr) as [Ho Hs]. unfold records, auth_event, context_fingerprint_match. cbn.
  split; [done|]. split; [done|]. split; [done|]. split; [done|]. split; [|done].
  destruct (last_observed _) as [fp|]; cbn.
  - destruct Ho as (der & Hp & ->). exists der. split; [done|]. split; [done|]. by destruct pin.
  - split; [by destruct pin|done].
Qed.

(** C19: every attempt to connect leaves exactly one audit record, however it
    ends.  The record names the account, host, port and user of the
    configuration; carries the digest of the certificate the server presented,
    with the comparison to the pin, and is without one only when no credential
    was touched; and names the credential's source just when one was
    resolved.  A session is returned only with a success record the sink
    took; an error comes with a failure record of its own code, unless the
    login succeeded and its record was refused; an attempt that was dropped is
    recorded as cancelled.  A refused failure record is counted as lost and
    does not replace the error.  When no TLS configuration can be built there
    is no attempt and no record. *)
Theorem auth_record_exact t :
  match client_config tls with
  | Err e => cr_steps (attempt t) = [] /\ cr_events (attempt t) = [] /\ cr_result (attempt t) = Some (Err (ITlsHandshake e))
  | Ok _ => exists ev, cr_events (attempt t) = [ev] /\ records t ev /\
      match cr_result (attempt t) with
      | Some (Ok caps) => ae_ok ev = true /\ ae_error_code ev = None /\ sink ev = SinkOk /\
          (exists t', sv_login srv = Answers t' TaggedOk)
      | Some (Err e) =>
          (ae_ok ev = true /\ sink ev <> SinkOk /\ imap_code e = EInternal) \/
          (ae_ok ev = false /\ ae_error_code ev = Some (imap_code e))
      | None => ae_ok ev = false /\ ae_error_code ev = Some ECancelled
      end /\
      (cr_lost (attempt t) = 1%nat <-> ae_ok ev = false /\ sink ev <> SinkOk)
  end.
Proof.
  destruct (client_config tls) as [[]|e] eqn:Ec.
  2: { unfold connect_inner, build_tls_config. by rewrite Ec. }
  assert (Ev : exists v, build_tls_config tls pin = Ok v) by (unfold build_tls_config; rewrite Ec; by eexists).
  destruct Ev as [v Hv]. destruct (attempt_run t v Hv) as [r Hr].
  pose proof (fun ok code => event_records t v ok code r Hv Hr) as Hrec. clear Hr r.
  revert Hrec. unfold connect_inner, records, emit_guard_drop, emit_auth_blocking, emit_auth, auth_success, auth_failure. rewrite Hv.
  destruct (connect_with_bundle _ _ _ _ _ _ _ _) as [[l st'] r] eqn:E.
  destruct r as [caps|err| |]; cbn [cr_steps cr_state cr_events cr_result cr_lost]; intros Hrec; eexists; (split; [reflexivity|]); (split; [apply Hrec|]).
  - apply connect_inv in E. assert (Hlogin : exists t', sv_login srv = Answers t' TaggedOk).
    { by apply (connected_logged_in _ _ _ _ _ E caps). }
    destruct (sink _); cbn; (split; [auto|]); naive_solver.
  - destruct (sink _); cbn; (split; [by right|]); naive_solver.
  - destruct (sink _); cbn; (split; [done|]); naive_solver.
  - destruct (sink _); cbn; (split; [done|]); naive_solver.
Qed.
End guarantees.

(** Whatever is under a deadline ends with a result of its own. *)
Definition never_lapses {A} (m : connecting A) : Prop := forall d st, (m d st).2 <> Lapsed.
Lemma never_bind {A B} (m : connecting A) (f : A -> connecting B) : never_lapses m -> (forall a, never_lapses (f a)) -> never_lapses (m ≫= f).
Proof.
  intros Hm Hf d st. specialize (Hm d st). unfold mbind, connecting_bind. destruct (m d st) as [[l st1] [a|e| |]]; try done.
  specialize (Hf a d st1). by destruct (f a d st1) as [[l' st2] r].
Qed.
Lemma never_within {A} started total op (m : connecting A) : never_lapses (within started total op m).
Proof. intros d st. unfold within. by destruct (m _ st) as [[l st1] []]. Qed.
Lemma never_try {A} (r : result ImapError A) : never_lapses (try r).
Proof. intros d st. by destruct r. Qed.
Lemma connect_never_lapses tls srv cfg resolve rt v : never_lapses (connect_with_bundle tls srv cfg resolve rt v).
Proof.
  unfold connect_with_bundle. apply never_bind; [by intros ? ?|]. intros started. apply never_bind; [apply never_within|]. intros dialled.
  apply never_bind; [apply never_try|]. intros []. apply never_bind; [|intros; apply never_within].
  destruct (cc_encryption cfg); (apply never_bind; [apply never_within|by intros ? ? ?]).
Qed.

(** C29: an attempt to connect comes to its verdict within the account's connect
    timeout and the time its credential resolver blocks for, however the
    server behaves, and always comes to one unless it is dropped.  Writing the
    one record of it follows, outside that deadline (validate/limits.rs says
    so): the attempt returns as much later as that write takes, and at once if
    there is none.  The probe, which writes no record, takes no longer than the
    connect and the command timeout together. *)
Theorem connect_bounded tls srv cfg resolve resolve_time sink write_time t :
  0 <= cc_connect_timeout cfg -> 0 <= cc_command_timeout cfg -> 0 <= resolve_time ->
  (let rep := connect_inner tls srv cfg resolve resolve_time sink write_time (mkAttempt t None None) in
   now (cr_state rep) <= t + cc_connect_timeout cfg + resolve_time /\
   cr_ended rep = now (cr_state rep) + foldr Z.add 0 (map write_time (cr_events rep)) /\ (length (cr_events rep) <= 1)%nat) /\
  (forall v, (connect_with_bundle tls srv cfg resolve resolve_time v t (mkAttempt t None None)).2 <> Lapsed) /\
  now (probe_preflight tls srv cfg t (mkAttempt t None None)).1.2 <= t + cc_connect_timeout cfg + cc_command_timeout cfg.
Proof.
  intros Hc Hm Hr. split; [|split; [intros v; apply connect_never_lapses|by apply probe_ends]].
  unfold connect_inner. destruct (build_tls_config _ _) as [v|e]; [|cbn; lia].
  pose proof (connect_ends tls srv cfg resolve resolve_time Hr v t (mkAttempt t None None) Hc) as H.
  change (now (mkAttempt t None None)) with t in *. destruct (connect_with_bundle _ _ _ _ _ _ _ _) as [[l st'] r].
  cbn in H. destruct r; cbn; (split; [exact H|]); (split; [lia|]); cbn; lia.
Qed.

(** ** What a capability list says *)

Definition lists (caps : list capability) (name : rstr) : Prop :=
  exists atom, Atom atom ∈ caps /\ to_ascii_lowercase atom = to_ascii_lowercase name.
Lemma advertises_lists caps name : advertises caps name = true <-> lists caps name.
Proof.
  unfold advertises, lists. rewrite existsb_exists. split.
  - intros ([|?|atom] & Hin%list_elem_of_In & E); try done. exists atom. split; [done|]. by apply bool_decide_eq_true in E.
  - intros (atom & Hin & E). exists (Atom atom). split; [by apply list_elem_of_In|]. by apply bool_decide_eq_true.
Qed.
Lemma carries_rev1_iff caps : carries_rev1 caps = true <-> Imap4rev1 ∈ caps.
Proof.
  unfold carries_rev1. rewrite existsb_exists. split.
  - intros ([|?|?] & Hin%list_elem_of_In & E); done.
  - intros Hin. exists Imap4rev1. split; [by apply list_elem_of_In|done].
Qed.

(** A session knows its server's extensions only from a capability list.
    It is recorded as known when the answer after login names a revision, and
    then MOVE and UIDPLUS are held to be there just when the list names them,
    in whatever case, or names IMAP4rev2; an answer that names no revision, or
    an error, is recorded as unknown, never as a server without them. *)
Theorem capabilities_honest tls srv cfg resolve resolve_time sink write_time t caps :
  cr_result (connect_inner tls srv cfg resolve resolve_time sink write_time (mkAttempt t None None)) = Some (Ok caps) ->
  caps = Unknown \/
  exists t' listed, sv_session_capabilities srv = Answers t' (Ok listed) /\ caps = classify_capabilities listed /\
    (caps = Unknown <-> Imap4rev1 ∉ listed /\ ~ lists listed (lit "IMAP4rev2")) /\
    forall has_move has_uidplus, caps = Known has_move has_uidplus ->
      (has_move = true <-> lists listed (lit "MOVE") \/ lists listed (lit "IMAP4rev2")) /\
      (has_uidplus = true <-> lists listed (lit "UIDPLUS") \/ lists listed (lit "IMAP4rev2")).
Proof.
  unfold connect_inner. destruct (build_tls_config _ _) as [v|e]; [|done].
  destruct (connect_with_bundle _ _ _ _ _ _ _ _) as [[l st'] r] eqn:E. destruct r as [c|e| |]; cbn; try done.
  intros H. assert (Hc : c = caps) by (destruct (emit_auth sink _) as [[]|]; by injection H). subst c. clear H.
  apply connect_inv in E. assert (Hcs : caps = Unknown \/ exists t' listed, sv_session_capabilities srv = Answers t' (Ok listed) /\ caps = classify_capabilities listed).
  { remember (Done caps) as r eqn:Er. destruct E as [? ? ? _ _ Hd|? ? ? ? r _ Hl]; [by destruct (Hd caps)|]. apply lapse_done in Er.
    destruct Hl as [? ? ? _ _ Hd|? ? ? ? _ _ _ _ ->|? ? ? ? ? _ _ _ _ _ Hd|? ? ? ? ? ? _ _ _ _ _ _ Hcs];
      [by destruct (Hd caps)|done|by destruct (Hd caps)|by apply Hcs]. }
  destruct Hcs as [-> |(t' & listed & Es & ->)]; [by left|]. right. exists t', listed. split; [done|]. split; [done|].
  clear E. unfold classify_capabilities. pose proof (carries_rev1_iff listed) as Hc. pose proof (advertises_lists listed (lit "IMAP4rev2")) as Hr.
  pose proof (advertises_lists listed (lit "MOVE")) as Hm. pose proof (advertises_lists listed (lit "UIDPLUS")) as Hu.
  destruct (carries_rev1 listed), (advertises listed (lit "IMAP4rev2")); cbn; (split; [clear Hm Hu; naive_solver|]);
    intros m u Hk; first [done|injection Hk as <- <-]; rewrite !orb_true_iff, Hm, Hu; clear - Hr; intuition congruence.
Qed.

(** ** The probe *)

Section probe.
Context (tls : tls_library) (srv : server) (cfg : ConnectionConfig).
Abbreviation probe t := (probe_preflight tls srv cfg t (mkAttempt t None None)).

Lemma collect_sound caps : forall out, NoDup out -> Forall (fun c => c <> [] /\ to_ascii_uppercase c = c) out ->
  NoDup (collect_capabilities caps out) /\ Forall (fun c => c <> [] /\ to_ascii_uppercase c = c) (collect_capabilities caps out).
Proof.
  assert (Hup : forall s, to_ascii_uppercase (to_ascii_uppercase s) = to_ascii_uppercase s).
  { intros s. unfold to_ascii_uppercase. rewrite map_map. apply map_ext. intros c. unfold ascii_upper, is_ascii_lowercase, between.
    destruct ((97 <=? c) && (c <=? 122)) eqn:E; [|by rewrite E]. apply andb_true_iff in E as [?%Z.leb_le ?%Z.leb_le].
    destruct ((97 <=? c - 32) && (c - 32 <=? 122)) eqn:E'; [|done]. apply andb_true_iff in E' as [?%Z.leb_le ?%Z.leb_le]. lia. }
  induction caps as [|cap caps IH]; intros out Hn Hf; [done|]. cbn [collect_capabilities]. cbv zeta.
  match goal with |- context [if negb (bool_decide (?x = [])) && _ then _ else _] => set (upper := x) end.
  assert (Hu : to_ascii_uppercase upper = upper).
  { subst upper. destruct cap; [reflexivity| |apply Hup]. unfold to_ascii_uppercase. rewrite map_app. f_equal. apply Hup. }
  destruct (bool_decide (upper = [])) eqn:E1; cbn; [by apply IH|].
  destruct (bool_decide (upper ∈ out)) eqn:E2; cbn; [by apply IH|]. apply bool_decide_eq_false in E1, E2. apply IH.
  - apply NoDup_app. split; [done|]. split; [|apply NoDup_singleton]. intros x Hx ->%list_elem_of_singleton. done.
  - apply Forall_app. split; [done|]. by apply Forall_singleton.
Qed.

Lemma handshake_does v host : does (fun s => ~ credential_step s) (fun _ _ => True) (tls_handshake tls srv v host).
Proof.
  intros d st. split; [|done]. destruct (tls_handshake tls srv v host d st) as [[l st'] r] eqn:E.
  apply handshake_inv in E as (_ & [-> |[-> | ->]] & _); repeat constructor; by intros [].
Qed.
Lemma probe_does : does (fun s => ~ credential_step s) (fun _ _ => True) (probe_preflight tls srv cfg).
Proof.
  assert (Hw : forall X s (a : await X), ~ credential_step s -> does (fun s => ~ credential_step s) (fun _ _ => True) (on_wire s a)).
  { intros X s a Hs. apply (does_weaken (fun s => ~ credential_step s) _ published_nothing); [done|done|by apply does_wire]. }
  assert (Hup : forall v host, does (fun s => ~ credential_step s) (fun _ _ => True) (starttls_upgrade tls srv v host)).
  { intros v host. apply does_bind; [done| |intros; apply handshake_does].
    apply (does_weaken before_tls _ published_nothing); [|done|apply starttls_does]. intros [] Hb Hc; cbn in *; done. }
  unfold probe_preflight, run_capability, observed_fingerprint, clock.
  repeat (intros; match goal with
    | |- does _ _ (_ ≫= _) => apply does_bind; [done| |]
    | |- does _ _ (within _ _ _ _) => apply does_within
    | |- does _ _ (enriching _ _) => apply does_enriching
    | |- does _ _ (tls_handshake _ _ _ _) => apply handshake_does
    | |- does _ _ (starttls_upgrade _ _ _ _) => apply Hup
    | |- does _ _ (try _) => by apply does_try
    | |- does _ _ (mret _) => by apply does_ret
    | |- does _ _ (on_wire _ _) => by apply Hw; cbn; auto
    | |- does _ _ (match ?x with _ => _ end) => destruct x
    | |- does _ _ (fun _ _ => _) => by intros ? ?
    end).
Qed.

Lemma probe_phase v enc started d st l st' (b : bool) :
  match enc with
  | ImapTls => _ ← within started (cc_connect_timeout cfg) (lit "tls_handshake") (enriching cfg (tls_handshake tls srv v (cc_host cfg))); mret false
  | ImapStarttls => _ ← within started (cc_connect_timeout cfg) (lit "starttls_upgrade") (enriching cfg (starttls_upgrade tls srv v (cc_host cfg))); mret true
  end d st = (l, st', Done b) -> secured tls srv cfg v st l st'.
Proof.
  destruct enc; intros (l1 & st1 & [] & l2 & Hp%within_done%enriching_done & H & ->)%bind_done; injection H as <- <- <-; rewrite app_nil_r.
  - apply handshake_phase in Hp as (_ & _ & Hs). by apply (Hs tt).
  - apply starttls_phase in Hp as (_ & _ & Hs). by apply (Hs tt).
Qed.

(** The probe asks for no credential and never logs in.  The fingerprint it
    reports is the digest of the certificate the server presented, the pinned
    one when there is a pin; without a pin any certificate is reported.  The
    capabilities it reports are in upper case, without repetitions. *)
Theorem probe_sound t :
  no_credential (probe t).1.1 /\
  (forall info, (probe t).2 = Done info ->
     (exists der, presented srv der /\ pi_tls_fingerprint info = from_cert_der tls der) /\
     (forall fp, cc_pinned_fingerprint cfg = Some fp -> pi_tls_fingerprint info = fp) /\
     NoDup (pi_capabilities info) /\ Forall (fun c => c <> [] /\ to_ascii_uppercase c = c) (pi_capabilities info)).
Proof.
  split; [apply probe_does|]. intros info. destruct (probe t) as [[l st] r] eqn:E. cbn. intros ->. unfold probe_preflight in E.
  apply bind_done in E as (l0 & st0 & v & l1 & (Ev & -> & ->)%try_done & E & _).
  apply bind_done in E as (l2 & st2 & started & l3 & Hc & E & _). unfold clock in Hc. injection Hc as <- <- <-.
  apply bind_done in E as (l4 & st4 & dialled & l5 & Hw & E & _).
  assert (Hp : published_nothing (mkAttempt t None None) st4).
  { pose proof (does_within (fun _ => True) published_nothing t (cc_connect_timeout cfg) (lit "tcp_connect") _ (does_wire (fun _ => True) (Dial (cc_host cfg) (cc_port cfg)) (sv_dial srv) I) t (mkAttempt t None None)) as [_ H].
    change (now (mkAttempt t None None)) with t in Hw. rewrite Hw in H. exact H. }
  apply bind_done in E as (l6 & st6 & [] & l7 & (_ & -> & ->)%try_done & E & _).
  apply bind_done in E as (l8 & st8 & greeted & l9 & Hph & E & _). apply probe_phase in Hph as (pre & der & _ & _ & Hpr & Hac & [_ Hlo]).
  destruct Hp as [Hp _]. rewrite Hp in Hlo. cbn in Hlo.
  assert (Hkeep : forall (X : Type) (m : connecting X) d s l s' x, does (fun _ => True) published_nothing m -> m d s = (l, s', Done x) -> last_observed s' = last_observed s).
  { intros X m d s l' s' x Hm Hr. destruct (Hm d s) as [_ Hq]. rewrite Hr in Hq. apply Hq. }
  apply bind_done in E as (l10 & st10 & [] & l11 & Hg & E & _). apply Hkeep in Hg.
  2: { destruct greeted; [apply does_ret; typeclasses eauto|]. apply does_bind; [typeclasses eauto|by apply does_within, does_wire|intros; apply does_try; typeclasses eauto]. }
  apply bind_done in E as (l12 & st12 & asked & l13 & Hc & E & _). unfold clock in Hc. injection Hc as <- <- <-.
  apply bind_done in E as (l14 & st14 & items & l15 & Hi & E & _). apply Hkeep in Hi.
  2: { apply does_within. apply (does_weaken (fun s => s = Send true (lit "CAPABILITY")) _ published_nothing); [done|done|apply run_capability_does]. }
  cbv zeta in E. apply bind_done in E as (l16 & st16 & observed & l17 & Ho & E & _). unfold observed_fingerprint in Ho. injection Ho as <- <- <-.
  apply bind_done in E as (l18 & st18 & fp & l19 & (Ef & -> & ->)%try_done & E & _). injection E as _ _ <-. cbn.
  rewrite Hi, Hg, Hlo in Ef. injection Ef as <-. split; [by exists der|]. split.
  - intros fp Ep. rewrite Ep in Ev. unfold build_tls_config in Ev. destruct (client_config tls); [|done]. injection Ev as <-. exact Hac.
  - assert (Hfold : forall its out, NoDup out /\ Forall (fun c => c <> [] /\ to_ascii_uppercase c = c) out ->
      NoDup (fold_left (fun out item => match item with CapabilityList list => collect_capabilities list out | OtherResponse => out end) its out) /\
      Forall (fun c => c <> [] /\ to_ascii_uppercase c = c) (fold_left (fun out item => match item with CapabilityList list => collect_capabilities list out | OtherResponse => out end) its out)).
    { induction its as [|[caps|] its IH]; intros out H; [done| |]; cbn [fold_left]; apply IH; [destruct H; by apply collect_sound|done]. }
    apply Hfold. split; constructor.
Qed.
End probe.

(** ** Runs *)

Module Sample.
Definition tls : tls_library :=
  mkTls (fun der => der) (fun _ der => if bool_decide (der = [1]) then Ok tt else Err (lit "UnknownIssuer"))
    (fun e => lit "unexpected error: " ++ e) (fun host => negb (bool_decide (host = []))) (Ok tt).
Definition srv (der : list Z) : server :=
  mkServer (Answers 1 (Ok tt)) (fun _ => Answers 1 (Ok (Some GreetingOk)))
    (fun secure => Answers 1 (Ok [CapabilityList (Imap4rev1 :: if secure then [AuthMechanism (lit "plain")] else [Atom (lit "starttls")])]))
    (Answers 1 TaggedOk) (Answers 1 (Ok der)) (Answers 1 (Ok tt)) (Answers 1 TaggedOk)
    (Answers 1 (Ok [Imap4rev1; Atom (lit "Move")])).
Definition cfg (pin : option (list Z)) : ConnectionConfig :=
  mkConnection None (lit "default") (lit "imap.example.org") 143 ImapStarttls (lit "ann") pin 10000 30000 0 0.
Definition resolve (_ _ _ : rstr) : result rstr (rstr * CredentialSource) := Ok (lit "secret", Keyring).
Definition run pin der := connect_inner tls (srv der) (cfg pin) resolve 0 (fun _ => SinkOk) (fun _ => 0) (mkAttempt 0 None None).

Example logs_in : cr_steps (run None [1]) =
    [Dial (lit "imap.example.org") 143; ReadGreeting false; Send false (lit "CAPABILITY"); Send false (lit "STARTTLS");
     TlsHello (lit "imap.example.org"); TlsFinish; Send true (lit "CAPABILITY"); Resolve (lit "default") (lit "ann") (lit "imap.example.org");
     Login (lit "ann") (lit "secret"); Send true (lit "CAPABILITY")] /\
  cr_result (run None [1]) = Some (Ok (Known true false)).
Proof. vm_compute. auto. Qed.

(** The record is documented to carry no fingerprint unless the handshake
    completed, and no verdict only when nothing is pinned. *)
Lemma fingerprint_of_failed_handshake :
  cr_result (run (Some [2]) [1]) = Some (Err (ITls (fingerprint_to_hex [1]) (fingerprint_to_hex [2]))) /\
  map (fun ev => (AuditRecord.tls_fingerprint_sha256 ev, fingerprint_match ev)) (cr_events (run (Some [2]) [1])) =
    [(Some (fingerprint_to_hex [1]), Some false)].
Proof. vm_compute. auto. Qed.
Lemma pinned_without_verdict :
  let silent := mkServer Silent (fun _ => Silent) (fun _ => Silent) Silent Silent Silent Silent Silent in
  map (fun ev => (fingerprint_match ev, ae_error_code ev))
    (cr_events (connect_inner tls silent (cfg (Some [2])) resolve 0 (fun _ => SinkOk) (fun _ => 0) (mkAttempt 0 None None))) = [(None, Some ETimeout)].
Proof. vm_compute. auto. Qed.

Lemma credentials_guarded_witness :
  exists pre post der, cr_steps (run None [1]) = pre ++ [TlsHello (lit "imap.example.org"); TlsFinish] ++ post /\ trusted tls (cfg None) der.
Proof.
  destruct (credentials_guarded tls (srv [1]) (cfg None) resolve 0 (fun _ => SinkOk) (fun _ => 0) 0) as [H|(pre & post & der & E & _ & _ & _ & Ht & _)].
  - exfalso. assert (Hin : Resolve (lit "default") (lit "ann") (lit "imap.example.org") ∈ cr_steps (run None [1])).
    { vm_compute. do 7 right. left. }
    unfold no_credential in H. rewrite Forall_forall in H. exact (H _ Hin I).
  - exists pre, post, der. exact (conj E Ht).
Defined.
Lemma connect_bounded_witness :
  now (cr_state (run None [1])) <= 10000 /\ cr_ended (run None [1]) = now (cr_state (run None [1])).
Proof.
  destruct (proj1 (connect_bounded tls (srv [1]) (cfg None) resolve 0 (fun _ => SinkOk) (fun _ => 0) 0
    ltac:(vm_compute; discriminate) ltac:(vm_compute; discriminate) ltac:(vm_compute; discriminate))) as (Hn & He & _).
  split; [exact Hn|]. unfold run. rewrite He. vm_compute. reflexivity.
Defined.
Lemma capabilities_honest_witness :
  exists t listed, sv_session_capabilities (srv [1]) = Answers t (Ok listed) /\ Known true false = classify_capabilities listed.
Proof.
  destruct (capabilities_honest tls (srv [1]) (cfg None) resolve 0 (fun _ => SinkOk) (fun _ => 0) 0 (Known true false)) as [H|(t & listed & Es & Ec & _)].
  - vm_compute. reflexivity.
  - discriminate H.
  - exists t, listed. exact (conj Es Ec).
Defined.
Lemma auth_record_exact_witness : exists ev, cr_events (run None [1]) = [ev].
Proof. destruct (auth_record_exact tls (srv [1]) (cfg None) resolve 0 (fun _ => SinkOk) (fun _ => 0) 0) as (ev & E & _). exists ev. exact E. Defined.
End Sample.
