(* ===== verification/Smtp.v ===== *)
(** * The ways out: SMTP delivery and IMAP APPEND
    (crates/rimap-smtp/src/client.rs, error.rs; crates/rimap-imap/src/ops/append.rs)

    What a message is handed to and how the answer is classified.  The lettre
    crate's transport is an argument: the addresses it accepts, and how its
    dialog with the relay ends. *)

From Stdlib Require Import ZArith Lia.
From stdpp Require Import base option list numbers strings gmap.
From S2P Require Import Prelude RustStr Tools Errors ImapErrors Names Fetch Mailbox Config.
Local Open Scope Z_scope.

(** ** [str::split_whitespace] *)

Fixpoint words_from (w s : rstr) : list rstr :=
  let flush := match w with [] => [] | _ => [w] end in
  match s with
  | [] => flush
  | c :: s' => if is_whitespace c then flush ++ words_from [] s' else words_from (w ++ [c]) s'
  end.
Definition split_whitespace (s : rstr) : list rstr := words_from [] s.

Definition word (w : rstr) : Prop := w <> [] /\ Forall (fun c => is_whitespace c = false) w.

Lemma words_from_spec s : forall w, Forall (fun c => is_whitespace c = false) w ->
  Forall word (words_from w s) /\ (forall u c, u ∈ words_from w s -> c ∈ u -> c ∈ w \/ c ∈ s).
Proof.
  induction s as [|c s IH]; intros w Hw; cbn [words_from].
  - destruct w as [|d w]; split.
    + constructor.
    + by intros u c ?%elem_of_nil.
    + by apply Forall_singleton.
    + intros u c ->%list_elem_of_singleton Hc. by left.
  - destruct (is_whitespace c) eqn:Ec.
    + destruct (IH [] (Forall_nil_2 _)) as [Hf Hs]. split.
      * apply Forall_app. split; [|done]. destruct w as [|e w]; [constructor|by apply Forall_singleton].
      * intros u d [Hu|Hu]%elem_of_app Hd.
        -- destruct w as [|e w]; [by apply elem_of_nil in Hu|]. apply list_elem_of_singleton in Hu as ->. by left.
        -- destruct (Hs u d Hu Hd) as [H%elem_of_nil|H]; [done|]. right. by right.
    + destruct (IH (w ++ [c])) as [Hf Hs].
      { apply Forall_app. split; [done|]. by repeat constructor. }
      split; [done|]. intros u d Hu Hd. destruct (Hs u d Hu Hd) as [H|H]; [|right; by right].
      apply elem_of_app in H as [H| ->%list_elem_of_singleton]; [by left|]. right. by left.
Qed.

(** A word passes whole, and a separator ends it. *)
Lemma words_from_word w v s : Forall (fun c => is_whitespace c = false) v -> words_from w (v ++ s) = words_from (w ++ v) s.
Proof.
  revert w. induction v as [|c v IH]; intros w Hv; [by rewrite app_nil_r|].
  apply Forall_cons in Hv as [Hc Hv]. cbn [app words_from]. rewrite Hc, IH by done. by rewrite <- app_assoc.
Qed.
Lemma split_join_words ws : Forall word ws -> split_whitespace (join [32] ws) = ws.
Proof.
  unfold split_whitespace. induction 1 as [|w ws [Hne Hw] Hws IH]; [done|].
  destruct ws as [|v ws].
  - cbn [join]. rewrite <- (app_nil_r w) at 1. rewrite words_from_word by done. by destruct w.
  - rewrite join_cons by done. rewrite words_from_word by done. cbn [app words_from].
    change (is_whitespace 32) with true. cbv iota. rewrite IH. by destruct w.
Qed.

(** ** Errors *)

(* [crates/rimap-smtp/src/error.rs:9-34] SmtpError *)
Inductive SmtpError :=
  | SConnection (source : rstr)
  | STlsFailed (source : rstr)
  | SRejected (reason : rstr)
  | SAuth (reason : rstr)
  | STimedOut
  | STransport (source : rstr).

(* [crates/rimap-smtp/src/error.rs:11-33] Display for SmtpError *)
Definition smtp_to_string (e : SmtpError) : rstr :=
  match e with
  | SConnection _ => lit "SMTP connection failed"
  | STlsFailed _ => lit "SMTP TLS handshake failed"
  | SRejected reason => lit "SMTP send rejected: " ++ reason
  | SAuth reason => lit "SMTP authentication failed: " ++ reason
  | STimedOut => lit "SMTP operation timed out"
  | STransport source => lit "SMTP error: " ++ source
  end.

(* [crates/rimap-smtp/src/error.rs:42-49] RimapError::from *)
Definition smtp_code (e : SmtpError) : ErrorCode :=
  match e with
  | SConnection _ => EConnectionLost
  | STlsFailed _ => ETls
  | SRejected _ => ESmtpProtocol
  | SAuth _ => EAuth
  | STimedOut => ETimeout
  | STransport _ => EInternal
  end.

(* [crates/rimap-smtp/src/error.rs:36-56] RimapError::from *)
Definition rimap_of_smtp (e : SmtpError) : RimapError := RSmtp (smtp_code e) (smtp_to_string e).

(** What the code asks of a lettre error: its predicates, its reply status, its
    text, and for each error of its source chain whether it is an I/O error
    around a rustls error. *)
Record lettre_error := mkLettre {
  le_is_timeout : bool; le_is_tls : bool; le_status : option Z; le_is_response : bool; le_is_client : bool;
  le_chain : list bool; le_text : rstr }.

(* [crates/rimap-smtp/src/client.rs:153-156] code_is_auth *)
Definition code_is_auth (code : Z) : bool := existsb (Z.eqb code) [534; 535; 538; 432].

(* [crates/rimap-smtp/src/client.rs:164-176] sanitize_reason *)
Definition sanitize_reason (raw : rstr) : rstr :=
  let cleaned := map (fun c => if is_control c then 32 else c) raw in
  let collapsed := join (lit " ") (split_whitespace cleaned) in
  if (length collapsed <=? 200)%nat then collapsed else firstn 200 collapsed ++ [0x2026].

(* [crates/rimap-smtp/src/client.rs:187-203] is_tls_error *)
Definition is_tls_error (e : lettre_error) : bool := le_is_tls e || existsb id (le_chain e).

(* [crates/rimap-smtp/src/client.rs:211-224] SmtpErrorShape *)
Inductive SmtpErrorShape := ShapeRejected | ShapeAuth | ShapeTimeout | ShapeTls | ShapeClient | ShapeOther.

(* [crates/rimap-smtp/src/client.rs:227-251] SmtpErrorShape::of *)
Definition shape_of (e : lettre_error) : SmtpErrorShape :=
  if le_is_timeout e then ShapeTimeout
  else if is_tls_error e then ShapeTls
  else match le_status e with
  | Some code => if code_is_auth code then ShapeAuth else ShapeRejected
  | None => if le_is_response e then ShapeRejected else if le_is_client e then ShapeClient else ShapeOther
  end.

(* [crates/rimap-smtp/src/client.rs:255-268] classify_smtp_error *)
Definition classify_smtp_error (e : lettre_error) : SmtpError :=
  match shape_of e with
  | ShapeRejected => SRejected (sanitize_reason (le_text e))
  | ShapeAuth => SAuth (sanitize_reason (le_text e))
  | ShapeTimeout => STimedOut
  | ShapeTls => STlsFailed (le_text e)
  | ShapeClient => SConnection (le_text e)
  | ShapeOther => STransport (le_text e)
  end.

(** ** The client *)

(* [crates/rimap-smtp/src/client.rs:24-29] SendEnvelope *)
Record SendEnvelope := mkEnvelope { env_from : rstr; env_to : list rstr }.

Inductive transport_kind := Relay | StarttlsRelay | BuilderDangerous.
(* [crates/rimap-smtp/src/client.rs:46-49] SmtpClient *)
Record SmtpClient := mkSmtpClient {
  cl_kind : transport_kind; cl_host : rstr; cl_port : Z; cl_user : rstr; cl_password : rstr; deadline : Z }.

(** [tls_parameters] is what [relay] and [starttls_relay] can fail with. *)
(* [crates/rimap-smtp/src/client.rs:57-82] SmtpClient::new *)
Definition smtp_client_new (tls_parameters : rstr -> option rstr) (config : SmtpConfig) (password : rstr)
    : result SmtpError SmtpClient :=
  let timeout := smtp_command_timeout config in
  let built kind := Ok (mkSmtpClient kind (smtp_host config) (smtp_port config) (smtp_username config) password timeout) in
  match smtp_encryption config with
  | SmtpTls => match tls_parameters (smtp_host config) with Some e => Err (SConnection e) | None => built Relay end
  | SmtpStarttls =>
      match tls_parameters (smtp_host config) with Some e => Err (SConnection e) | None => built StarttlsRelay end
  | SmtpNone => built BuilderDangerous
  end.

(** How the dialog ends: a positive reply, an error, or the deadline. *)
Inductive dialog := Replied (code : rstr) (lines : list rstr) | Failed (e : lettre_error) | DeadlineElapsed.

Section client.
Context {address : Type} (parse_address : rstr -> result rstr address).

Fixpoint parse_recipients (addrs : list rstr) : result SmtpError (list address) :=
  match addrs with
  | [] => Ok []
  | a :: addrs' =>
      parsed ← map_err (fun e => SRejected (lit "invalid recipient address: " ++ e)) (parse_address a);
      rest ← parse_recipients addrs';
      Ok (parsed :: rest)
  end.

(** [lettre::address::Envelope::new] refuses an empty list of recipients. *)
Definition lettre_envelope_new (from : address) (to : list address) : result rstr (address * list address) :=
  match to with [] => Err (lit "missing destination address, invalid envelope") | _ => Ok (from, to) end.

(* [crates/rimap-smtp/src/client.rs:114-133] build_lettre_envelope *)
Definition build_lettre_envelope (env : SendEnvelope) : result SmtpError (address * list address) :=
  from ← map_err (fun e => SRejected (lit "invalid From address: " ++ e)) (parse_address (env_from env));
  to ← parse_recipients (env_to env);
  map_err (fun e => SRejected (lit "envelope: " ++ e)) (lettre_envelope_new from to).

(* [crates/rimap-smtp/src/client.rs:136-142] format_response *)
Definition format_response (code : rstr) (lines : list rstr) : rstr := code ++ lit " " ++ join (lit " ") lines.

(** The dialogs begun, and the answer. *)
(* [crates/rimap-smtp/src/client.rs:94-108] SmtpClient::send_raw *)
Definition send_raw (transport : (address * list address) -> list Z -> dialog) (envelope : SendEnvelope) (raw : list Z)
    : list ((address * list address) * list Z) * result SmtpError rstr :=
  match build_lettre_envelope envelope with
  | Err e => ([], Err e)
  | Ok env =>
      ([(env, raw)],
       match transport env raw with
       | Replied code lines => Ok (format_response code lines)
       | Failed e => Err (classify_smtp_error e)
       | DeadlineElapsed => Err STimedOut
       end)
  end.
End client.

(** ** APPEND *)

(* [crates/rimap-imap/src/ops/append.rs:41-49] check_append_size *)
Definition check_append_size (message : list Z) (max_append_bytes : Z) : result ImapError unit :=
  if max_append_bytes <? Z.of_nat (length message) then Err (ISizeLimit max_append_bytes) else Ok tt.

Fixpoint push_keywords (s : rstr) (keywords : list rstr) : result ImapError rstr :=
  match keywords with
  | [] => Ok s
  | kw :: keywords' =>
      _ ← validate_keyword kw;
      push_keywords ((match s with [] => [] | _ => s ++ [32] end) ++ kw) keywords'
  end.
(* [crates/rimap-imap/src/ops/append.rs:57-68] build_flags_string *)
Definition build_flags_string (flags : list Flag) (keywords : list rstr) : result ImapError rstr :=
  s ← flags_string flags; push_keywords s keywords.

(** [server] is the command's answer for the folder, the flags argument and the
    literal; the result carries no UID. *)
(* [crates/rimap-imap/src/ops/append.rs:16-38] append *)
Definition append_op (server : rstr -> option rstr -> list Z -> result ImapError unit) (folder : rstr) (message : list Z)
    (flags : list Flag) (keywords : list rstr) (max_append_bytes : Z) : result ImapError (option Z) :=
  _ ← check_append_size message max_append_bytes;
  flag_str ← build_flags_string flags keywords;
  let flags_arg := match flag_str with [] => None | _ => Some (lit "(" ++ flag_str ++ lit ")") end in
  _ ← server folder flags_arg message;
  Ok None.

(** ** What the relay says is shown clean *)

Lemma collapsed_chars raw c :
  c ∈ join (lit " ") (split_whitespace (map (fun c => if is_control c then 32 else c) raw)) ->
  is_control c = false /\ (is_whitespace c = true -> c = 32).
Proof.
  set (cleaned := map _ raw). intros Hc.
  destruct (words_from_spec cleaned [] (Forall_nil_2 _)) as [Hw Hs]. fold (split_whitespace cleaned) in Hw, Hs.
  assert (Hjoin : forall ws : list rstr, c ∈ join (lit " ") ws -> c = 32 \/ exists w, w ∈ ws /\ c ∈ w).
  { induction ws as [|w ws IH]; [by intros ?%elem_of_nil|]. destruct ws as [|v ws].
    - intros H. right. exists w. split; [by left|done].
    - rewrite join_cons by done. intros [H|[H%list_elem_of_singleton|H]%elem_of_app]%elem_of_app.
      + right. exists w. split; [by left|done].
      + by left.
      + destruct (IH H) as [?|(u & Hu & ?)]; [by left|]. right. exists u. split; [by right|done]. }
  destruct (Hjoin _ Hc) as [->|(w & Hin & Hcw)]; [by split|].
  rewrite Forall_forall in Hw. destruct (Hw w Hin) as [_ Hnw]. rewrite Forall_forall in Hnw. specialize (Hnw c Hcw).
  split; [|by rewrite Hnw]. destruct (Hs w c Hin Hcw) as [H%elem_of_nil|H]; [done|].
  unfold cleaned in H. apply list_elem_of_fmap in H as (d & -> & _). by destruct (is_control d) eqn:E.
Qed.

(** A reply of the relay is shown within 201 characters, free of control
    characters, on one line; a short one keeps its words. *)
Lemma reason_clean raw :
  Forall (fun c => is_control c = false /\ (is_whitespace c = true -> c = 32)) (sanitize_reason raw) /\
  (length (sanitize_reason raw) <= 201)%nat /\
  ((length (sanitize_reason raw) <= 200)%nat ->
     split_whitespace (sanitize_reason raw) = split_whitespace (map (fun c => if is_control c then 32 else c) raw)).
Proof.
  unfold sanitize_reason. set (cleaned := map _ raw). set (collapsed := join _ _).
  assert (Hc : Forall (fun c => is_control c = false /\ (is_whitespace c = true -> c = 32)) collapsed).
  { apply Forall_forall. intros c. apply collapsed_chars. }
  destruct (Nat.leb_spec (length collapsed) 200) as [Hl|Hl].
  - split; [done|]. split; [lia|]. intros _. apply split_join_words.
    by apply (words_from_spec cleaned []), Forall_nil_2.
  - rewrite length_app, length_take. cbn [length]. split; [|split; [lia|intros ?; exfalso; lia]]. apply Forall_app. split; [by apply Forall_take|].
    by repeat constructor.
Qed.

(** Every end of a delivery has its code, and the relay's words are shown
    clean.  Nothing is sent unless every address parses and there is a
    recipient, and then one dialog with exactly those addresses and bytes.
    The call succeeds exactly when the relay replied positively; an address
    that does not parse is a protocol error, the deadline a timeout, a negative
    reply an authentication failure for the four credential codes and a protocol
    error for every other, never an internal error; the message of a negative
    reply is at most 229 characters and has no control character. *)
Theorem delivery_classified {address} (parse_address : rstr -> result rstr address) transport envelope raw :
  let '(dialogs, answer) := send_raw parse_address transport envelope raw in
  (dialogs = [] \/ exists from to, dialogs = [((from, to), raw)] /\ to <> [] /\
     parse_address (env_from envelope) = Ok from /\ Forall2 (fun a p => parse_address a = Ok p) (env_to envelope) to) /\
  (is_ok answer = true <-> exists env code lines, dialogs = [(env, raw)] /\ transport env raw = Replied code lines) /\
  (forall e, answer = Err e ->
     (dialogs = [] -> smtp_code e = ESmtpProtocol) /\
     (forall env, dialogs = [(env, raw)] ->
        (transport env raw = DeadlineElapsed -> smtp_code e = ETimeout) /\
        (forall le status, transport env raw = Failed le -> le_is_timeout le = false -> is_tls_error le = false ->
           le_status le = Some status ->
           smtp_code e = (if code_is_auth status then EAuth else ESmtpProtocol) /\
           (length (smtp_to_string e) <= 229)%nat /\ Forall (fun c => is_control c = false) (smtp_to_string e)))).
Proof.
  unfold send_raw. destruct (build_lettre_envelope parse_address envelope) as [[from to]|e] eqn:Eb.
  - assert (Hb : parse_address (env_from envelope) = Ok from /\ to <> [] /\
                 Forall2 (fun a p => parse_address a = Ok p) (env_to envelope) to).
    { unfold build_lettre_envelope in Eb. destruct (parse_address (env_from envelope)) as [f|]; [|done]. cbn in Eb.
      apply bind_ok in Eb as (ps & Hp & Eb).
      assert (Hps : Forall2 (fun a p => parse_address a = Ok p) (env_to envelope) ps).
      { clear Eb. revert ps Hp. induction (env_to envelope) as [|a l IH]; cbn [parse_recipients]; intros ps Hp.
        - injection Hp as <-. constructor.
        - apply bind_ok in Hp as (p & Ha & (rest & Hr & [= <-])%bind_ok). constructor; [|by apply IH].
          by destruct (parse_address a); [injection Ha as ->|]. }
      destruct ps as [|p ps]; [done|]. injection Eb as <- <-. done. }
    destruct Hb as (Hf & Hne & Hto). split; [right; by exists from, to|]. split.
    + split.
      * intros Hok. destruct (transport (from, to) raw) as [code lines| |] eqn:Et; [|done..].
        by exists (from, to), code, lines.
      * intros (env & code & lines & [= <-] & Et). by rewrite Et.
    + intros e He. split; [done|]. intros env [= <-]. split.
      * intros Et. rewrite Et in He. by injection He as <-.
      * intros le status Et Hto' Htls Hst. rewrite Et in He. injection He as <-.
        unfold classify_smtp_error, shape_of. rewrite Hto', Htls, Hst.
        destruct (reason_clean (le_text le)) as (Hc & Hl & _).
        assert (Hc' : Forall (fun c => is_control c = false) (sanitize_reason (le_text le))).
        { eapply Forall_impl; [exact Hc|]. by intros c [? _]. }
        destruct (code_is_auth status); cbn [smtp_code smtp_to_string]; rewrite length_app.
        -- split; [done|]. split; [change (length (lit "SMTP authentication failed: ")) with 28%nat; lia|].
           apply Forall_app. split; [|done]. by repeat constructor.
        -- split; [done|]. split; [change (length (lit "SMTP send rejected: ")) with 20%nat; lia|].
           apply Forall_app. split; [|done]. by repeat constructor.
  - split; [by left|]. split; [split; [done|]; by intros (? & ? & ? & ? & _)|].
    intros e' [= <-]. split; [|done]. intros _. unfold build_lettre_envelope in Eb.
    destruct (parse_address (env_from envelope)) as [f|]; [cbn in Eb|by injection Eb as <-].
    assert (Hp : forall l e', parse_recipients parse_address l = Err e' -> smtp_code e' = ESmtpProtocol).
    { induction l as [|a l IH]; cbn [parse_recipients]; [done|]. intros e'. destruct (parse_address a); cbn.
      - destruct (parse_recipients parse_address l) eqn:El; cbn; [done|]. intros [= <-]. by apply IH.
      - by intros [= <-]. }
    destruct (parse_recipients parse_address (env_to envelope)) as [ps|] eqn:Ep; cbn in Eb.
    + destruct ps; [by injection Eb as <-|done].
    + injection Eb as <-. by eapply Hp.
Qed.

(** ** APPEND sends what it was given, flags as atoms *)

Lemma push_keywords_ok keywords : forall s out, push_keywords s keywords = Ok out ->
  Forall (fun kw => validate_keyword kw = Ok tt) keywords /\
  exists ps, out = join [32] ps /\ ((s = [] /\ ps = keywords) \/ (s <> [] /\ ps = s :: keywords)).
Proof.
  induction keywords as [|kw keywords IH]; intros s out; cbn [push_keywords].
  - intros [= <-]. split; [constructor|]. destruct s as [|c s]; [exists []; auto|exists [c :: s]; auto].
  - intros ([] & Hv & Hp)%bind_ok. destruct (IH _ _ Hp) as (Hf & ps & -> & Hcase).
    split; [by constructor|].
    assert (Hkw : kw <> []) by (by intros ->).
    destruct Hcase as [[He _]|[_ ->]].
    { destruct kw; [done|]. by destruct s. }
    destruct s as [|c s].
    + exists (kw :: keywords). auto.
    + exists ((c :: s) :: kw :: keywords). split; [|by right]. cbn [app].
      destruct keywords as [|k ks]; [cbn; by rewrite <- app_assoc|].
      rewrite !join_cons by done. cbn. by rewrite <- !app_assoc.
Qed.

(** What APPEND was given to is exactly what it was handed: the folder, the
    message within the limit, and between the parentheses only flags and
    keywords, none of which can close them. *)
Lemma append_op_faithful server folder message flags keywords limit uid :
  append_op server folder message flags keywords limit = Ok uid ->
  uid = None /\ Z.of_nat (length message) <= limit /\
  exists atoms, flag_atoms flags = Ok atoms /\ Forall (fun kw => validate_keyword kw = Ok tt) keywords /\
    server folder (match join [32] (atoms ++ keywords) with [] => None | s => Some (lit "(" ++ s ++ lit ")") end) message = Ok tt.
Proof.
  unfold append_op, check_append_size. destruct (Z.ltb_spec limit (Z.of_nat (length message))); [done|]. cbn.
  intros (flag_str & Hf & ([] & Hs & [= <-])%bind_ok)%bind_ok. split; [done|]. split; [lia|].
  unfold build_flags_string, flags_string in Hf. apply bind_ok in Hf as (s & (atoms & Ha & [= <-])%bind_ok & Hp).
  exists atoms. split; [done|]. apply push_keywords_ok in Hp as (Hk & ps & -> & Hps). split; [done|].
  assert (E : join [32] ps = join [32] (atoms ++ keywords)).
  { destruct Hps as [[He ->]|[He ->]].
    - destruct atoms as [|a atoms]; [done|]. exfalso.
      assert (Hne : a <> []).
      { destruct flags as [|f fs]; [done|]. cbn in Ha. apply bind_ok in Ha as (a' & Hfa & (r & _ & [= <- <-])%bind_ok).
        destruct f; cbn in Hfa; try (by injection Hfa as <-). intros ->.
        by apply bind_ok in Hfa as ([] & Hv & [= ->]). }
      change (lit " ") with [32] in He. destruct atoms as [|a2 atoms]; [done|]. rewrite join_cons in He by done. by destruct a.
    - destruct atoms as [|a atoms]; [by destruct He|]. destruct keywords as [|k ks]; [by rewrite app_nil_r|].
      change (lit " ") with [32]. rewrite join_cons by done. rewrite <- join_app by done. done. }
  rewrite <- E. by destruct (join [32] ps).
Qed.

(** A relay that refuses the credentials, with a line break in its words. *)
Lemma delivery_classified_witness :
  let refusal := mkLettre false false (Some 535) false false [] (lit "5.7.8" ++ [13; 10] ++ lit "bad  credentials") in
  let answer := (send_raw (fun a => Ok a) (fun _ _ => Failed refusal) (mkEnvelope (lit "a@b") [lit "c@d"]) [1]).2 in
  answer = Err (SAuth (lit "5.7.8 bad credentials")) /\ is_ok answer = false.
Proof.
  intros refusal answer.
  pose proof (delivery_classified (fun a => Ok a) (fun _ _ => Failed refusal) (mkEnvelope (lit "a@b") [lit "c@d"]) [1]) as H.
  split; [vm_compute; reflexivity|]. apply not_true_iff_false. intros Hok.
  destruct (proj1 (proj1 (proj2 H)) Hok) as (env & code & lines & _ & Ht). discriminate Ht.
Defined.
