(* ===== verification/Compose.v ===== *)
(** * Composing mail (crates/rimap-server/src/tools/compose: message_builder.rs,
    create_draft.rs, send_email.rs, forward.rs; rimap-content/src/lib.rs)

    From the arguments to what is handed to the relay and to APPEND.  The
    mail-builder crate is an argument, given the record of what the code sets
    on its builder; [ComposeApi] is the account: its servers and the sandbox. *)

From Stdlib Require Import ZArith Lia.
From stdpp Require Import base option list numbers strings gmap.
From S2P Require Import Prelude RustStr Tools Errors Program ImapErrors Names Fetch Mailbox Validation ToolCall Content Unicode Sandbox Filename ContentMeta Lookalike Html Parse Retrieval Folders Config Smtp.
Local Open Scope Z_scope.

(** ** Inputs and limits *)

(* [crates/rimap-server/src/tools/compose/message_builder.rs:20-25] AddressInput *)
Record AddressInput := mkAddress { ad_name : option rstr; ad_address : rstr }.

(* [crates/rimap-server/src/tools/compose/message_builder.rs:27-27] MAX_RECIPIENTS *)
Definition MAX_RECIPIENTS : Z := 100.
(* [crates/rimap-server/src/tools/compose/message_builder.rs:28-28] MAX_SUBJECT_LEN *)
Definition MAX_SUBJECT_LEN : Z := 1000.
(* [crates/rimap-server/src/tools/compose/message_builder.rs:29-29] MAX_BODY_BYTES *)
Definition MAX_COMPOSE_BODY_BYTES : Z := 1048576.
(* [crates/rimap-server/src/tools/compose/message_builder.rs:30-30] MAX_REFERENCES *)
Definition MAX_REFERENCES : nat := 50.
(* [crates/rimap-server/src/tools/compose/message_builder.rs:33-33] MAX_ATTACHMENTS *)
Definition MAX_ATTACHMENTS : Z := 20.
(* [crates/rimap-server/src/tools/compose/message_builder.rs:38-38] MAX_ATTACHMENT_BYTES *)
Definition MAX_ATTACHMENT_BYTES : Z := 10 * 1048576.
(* [crates/rimap-server/src/tools/compose/message_builder.rs:43-43] MAX_TOTAL_MESSAGE_BYTES *)
Definition MAX_TOTAL_MESSAGE_BYTES : Z := 25 * 1048576.
(* [crates/rimap-server/src/tools/compose/message_builder.rs:52-52] MAX_FORWARD_ORIGINAL_BYTES *)
Definition MAX_FORWARD_ORIGINAL_BYTES : Z := 25 * 1048576.

(* [crates/rimap-server/src/tools/compose/message_builder.rs:62-71] AttachmentInput *)
Record AttachmentInput := mkAttachmentInput { at_path : rstr; at_filename : option rstr; at_content_type : option rstr }.

(* [crates/rimap-server/src/tools/compose/message_builder.rs:76-103] ComposeInput *)
Record ComposeInput := mkCompose {
  ci_to : list AddressInput; ci_cc : option (list AddressInput); ci_bcc : option (list AddressInput);
  ci_subject : rstr; ci_body_text : rstr; ci_body_html : option rstr; ci_attachments : option (list AttachmentInput);
  ci_in_reply_to_uid : option Z; ci_in_reply_to_folder : option rstr }.

(* [crates/rimap-server/src/tools/compose/forward.rs:22-38] ForwardInput *)
Record ForwardInput := mkForward {
  fi_folder : rstr; fi_uid : Z; fi_to : list AddressInput; fi_cc : option (list AddressInput);
  fi_bcc : option (list AddressInput); fi_comment : option rstr }.

(** ** Validation *)

Definition opt_list {A} (o : option (list A)) : list A := default [] o.
Definition count {A} (l : list A) : Z := Z.of_nat (length l).

(* [crates/rimap-server/src/tools/compose/message_builder.rs:354-364] validate_header_text *)
Definition validate_header_text (field value : rstr) : result RimapError unit :=
  if existsb (fun b => (b =? 13) || (b =? 10) || (b =? 0) || (b =? 60) || (b =? 62)) (str_bytes value)
  then Err (invalid_input (field ++ lit " contains forbidden characters")) else Ok tt.

(* [crates/rimap-server/src/tools/compose/message_builder.rs:366-374] validate_addresses *)
Fixpoint validate_addresses (field : rstr) (addrs : list AddressInput) : result RimapError unit :=
  match addrs with
  | [] => Ok tt
  | addr :: addrs' =>
      _ ← validate_header_text (field ++ lit " address") (ad_address addr);
      _ ← match ad_name addr with Some name => validate_header_text (field ++ lit " name") name | None => Ok tt end;
      validate_addresses field addrs'
  end.
Definition validate_optional (field : rstr) (addrs : option (list AddressInput)) : result RimapError unit :=
  match addrs with Some l => validate_addresses field l | None => Ok tt end.

(** A token character of RFC 2045. *)
(* [crates/rimap-server/src/tools/compose/message_builder.rs:327-330] is_token_char *)
Definition is_token_char (b : Z) : bool :=
  is_ascii_graphic b && negb (existsb (Z.eqb b) [40; 41; 60; 62; 64; 44; 59; 58; 92; 34; 47; 91; 93; 63; 61]).

(* [crates/rimap-server/src/tools/compose/message_builder.rs:326-342] validate_content_type *)
Definition validate_content_type (value : rstr) : result RimapError unit :=
  let reject := invalid_input (lit "attachment content_type is not a valid MIME type") in
  match split_once 47 value with
  | None => Err reject
  | Some (ty, sub) =>
      if bool_decide (ty = []) || bool_decide (sub = []) then Err reject
      else if negb (forallb is_token_char (str_bytes ty)) || negb (forallb is_token_char (str_bytes sub)) then Err reject
      else Ok tt
  end.

(* [crates/rimap-server/src/tools/compose/message_builder.rs:300-312] validate_attachments *)
Fixpoint validate_each_attachment (attachments : list AttachmentInput) : result RimapError unit :=
  match attachments with
  | [] => Ok tt
  | att :: attachments' =>
      _ ← ensure (negb (bool_decide (at_path att = []))) (invalid_input (lit "attachment path must not be empty"));
      _ ← match at_filename att with Some name => validate_header_text (lit "attachment filename") name | None => Ok tt end;
      _ ← match at_content_type att with Some ct => validate_content_type ct | None => Ok tt end;
      validate_each_attachment attachments'
  end.
(* [crates/rimap-server/src/tools/compose/message_builder.rs:291-314] validate_attachments *)
Definition validate_attachments (attachments : list AttachmentInput) : result RimapError unit :=
  _ ← ensure (count attachments <=? MAX_ATTACHMENTS)
        (invalid_input (lit "too many attachments (" ++ to_decimal (count attachments) ++ lit "); max is "
           ++ to_decimal MAX_ATTACHMENTS));
  validate_each_attachment attachments.

Definition too_many_recipients (total : Z) : RimapError :=
  invalid_input (lit "too many recipients (" ++ to_decimal total ++ lit "); max is " ++ to_decimal MAX_RECIPIENTS).
Definition too_large (what : rstr) (n limit : Z) : RimapError :=
  invalid_input (what ++ to_decimal n ++ lit " bytes); max is " ++ to_decimal limit).

(* [crates/rimap-server/src/tools/compose/message_builder.rs:106-169] validate_compose_input *)
Definition validate_compose_input (input : ComposeInput) : result RimapError unit :=
  _ ← ensure (negb (count (ci_to input) =? 0)) (invalid_input (lit "at least one To recipient is required"));
  let total_recipients := count (ci_to input) + count (opt_list (ci_cc input)) + count (opt_list (ci_bcc input)) in
  _ ← ensure (total_recipients <=? MAX_RECIPIENTS) (too_many_recipients total_recipients);
  _ ← ensure (str_len (ci_subject input) <=? MAX_SUBJECT_LEN)
        (too_large (lit "subject too long (") (str_len (ci_subject input)) MAX_SUBJECT_LEN);
  _ ← ensure (str_len (ci_body_text input) <=? MAX_COMPOSE_BODY_BYTES)
        (too_large (lit "body_text too large (") (str_len (ci_body_text input)) MAX_COMPOSE_BODY_BYTES);
  _ ← match ci_body_html input with
      | Some ((_ :: _) as html) => ensure (str_len html <=? MAX_COMPOSE_BODY_BYTES)
          (too_large (lit "body_html too large (") (str_len html) MAX_COMPOSE_BODY_BYTES)
      | _ => Ok tt
      end;
  _ ← match ci_attachments input with Some attachments => validate_attachments attachments | None => Ok tt end;
  _ ← validate_addresses (lit "To") (ci_to input);
  _ ← validate_optional (lit "CC") (ci_cc input);
  _ ← validate_optional (lit "BCC") (ci_bcc input);
  _ ← ensure (negb (existsb (fun b => (b =? 13) || (b =? 10) || (b =? 0)) (str_bytes (ci_subject input))))
        (invalid_input (lit "subject contains forbidden characters"));
  match ci_in_reply_to_folder input with
  | Some folder => validate_folder_input (lit "in_reply_to_folder") folder | None => Ok tt end.

(* [crates/rimap-server/src/tools/compose/message_builder.rs:175-199] validate_recipient_set *)
Definition validate_recipient_set (to : list AddressInput) (cc bcc : option (list AddressInput)) : result RimapError unit :=
  _ ← ensure (negb (count to =? 0)) (invalid_input (lit "at least one To recipient is required"));
  let total := count to + count (opt_list cc) + count (opt_list bcc) in
  _ ← ensure (total <=? MAX_RECIPIENTS) (too_many_recipients total);
  _ ← validate_addresses (lit "To") to;
  _ ← validate_optional (lit "CC") cc;
  validate_optional (lit "BCC") bcc.

(* [crates/rimap-server/src/tools/compose/forward.rs:136-152] validate_comment *)
Definition validate_comment (comment : option rstr) : result RimapError rstr :=
  match comment with
  | None => Ok []
  | Some comment =>
      if MAX_COMPOSE_BODY_BYTES <? str_len comment
      then Err (too_large (lit "comment too large (") (str_len comment) MAX_COMPOSE_BODY_BYTES)
      else if existsb (Z.eqb 0) (str_bytes comment) then Err (invalid_input (lit "comment contains a NUL byte"))
      else Ok comment
  end.

(** ** What is set on the builder *)

(** [mail_builder]'s address value: one address, or a list. *)
Inductive BuilderAddress := OneAddress (a : AddressInput) | AddressList (l : list AddressInput).
(** A part: its content type, the [name] parameter, the file name of its
    disposition, its bytes. *)
Record MimePart := mkMimePart { mp_type : rstr; mp_name : option rstr; mp_filename : rstr; mp_bytes : list Z }.
Record MessageBuilder := mkBuilder {
  b_from : rstr; b_to : BuilderAddress; b_cc : option BuilderAddress; b_bcc : option BuilderAddress;
  b_subject : rstr; b_text_body : rstr; b_message_id : rstr;
  b_in_reply_to : option rstr; b_references : option (list rstr);
  b_html_body : option rstr; b_attachments : list MimePart }.

Definition set_threading (in_reply_to : rstr) (refs : list rstr) (b : MessageBuilder) : MessageBuilder :=
  mkBuilder (b_from b) (b_to b) (b_cc b) (b_bcc b) (b_subject b) (b_text_body b) (b_message_id b)
    (Some in_reply_to) (Some refs) (b_html_body b) (b_attachments b).
Definition set_html (html : rstr) (b : MessageBuilder) : MessageBuilder :=
  mkBuilder (b_from b) (b_to b) (b_cc b) (b_bcc b) (b_subject b) (b_text_body b) (b_message_id b)
    (b_in_reply_to b) (b_references b) (Some html) (b_attachments b).
Definition push_parts (parts : list MimePart) (b : MessageBuilder) : MessageBuilder :=
  mkBuilder (b_from b) (b_to b) (b_cc b) (b_bcc b) (b_subject b) (b_text_body b) (b_message_id b)
    (b_in_reply_to b) (b_references b) (b_html_body b) (b_attachments b ++ parts).

(* [crates/rimap-server/src/tools/compose/message_builder.rs:417-423] addresses_to_builder *)
Definition addresses_to_builder (addrs : list AddressInput) : BuilderAddress :=
  match addrs with [a] => OneAddress a | _ => AddressList addrs end.
Definition nonempty_addresses (addrs : option (list AddressInput)) : option BuilderAddress :=
  match addrs with Some ((_ :: _) as l) => Some (addresses_to_builder l) | _ => None end.
Definition builder_addresses (a : BuilderAddress) : list AddressInput :=
  match a with OneAddress a => [a] | AddressList l => l end.

(* [crates/rimap-server/src/tools/compose/message_builder.rs:433-444] cap_references *)
Definition cap_references (refs : list rstr) : list rstr :=
  if (length refs <=? MAX_REFERENCES)%nat then refs
  else match refs with
  | [] => []
  | root :: rest => root :: skipn (length rest - (MAX_REFERENCES - 1)) rest
  end.

(* [crates/rimap-server/src/tools/compose/message_builder.rs:210-230] forwarded_subject *)
Definition forwarded_subject (original : option rstr) : rstr :=
  let cleaned := trim (List.filter (fun c => negb (is_control c)) (default [] original)) in
  let subject := match cleaned with [] => lit "Fwd:" | _ => lit "Fwd: " ++ cleaned end in
  if str_len subject <=? MAX_SUBJECT_LEN then subject else char_prefix MAX_SUBJECT_LEN subject.

(** ** The account and the libraries *)

Class ComposeApi := {
  api_username : rstr;
  api_special_use : SpecialUseMap;
  api_fetch_body : rstr -> Z -> result ImapError (list Z);
  api_append_message : rstr -> list Z -> list Flag -> list rstr -> result ImapError (option Z);
  api_smtp : option (SendEnvelope -> list Z -> result SmtpError rstr);
  api_read_file : rstr -> Z -> result RimapError (list Z);
  (** A read returns no more than it was allowed. *)
  read_within : forall path cap bytes, 0 <= cap -> api_read_file path cap = Ok bytes -> count bytes <= cap;
}.

Inductive out_call :=
  | CallFetchBody (folder : rstr) (uid : Z)
  | CallReadFile (path : rstr) (cap : Z)
  | CallSend (envelope : SendEnvelope) (raw : list Z)
  | CallAppend (folder : rstr) (raw : list Z) (flags : list Flag) (keywords : list rstr).
Abbreviation outgoing := (logged out_call).

(* [crates/rimap-server/src/tools/compose/message_builder.rs:481-486] AttachmentSummary *)
Record AttachmentSummary := mkSummary { as_filename : rstr; as_bytes : Z }.
(* [crates/rimap-server/src/tools/compose/message_builder.rs:489-496] BuiltMessage *)
Record BuiltMessage := mkBuilt {
  bm_raw : list Z; bm_warnings : list SecurityWarning; bm_attachments : list AttachmentSummary }.
(* [crates/rimap-server/src/tools/compose/message_builder.rs:521-525] AttachmentRead *)
Record AttachmentRead := mkRead { ar_filename : rstr; ar_content_type : rstr; ar_bytes : list Z }.

(* [crates/rimap-server/src/tools/compose/send_email.rs:16-29] SentCopyInfo *)
Record SentCopyInfo := mkSentCopy { sc_folder : rstr; sc_uid : option Z; sc_failed : bool; sc_failure_code : option ErrorCode }.
(* [crates/rimap-server/src/tools/compose/send_email.rs:34-41] SentCopyInfo::succeeded *)
Definition copy_succeeded (folder : rstr) (uid : option Z) : SentCopyInfo := mkSentCopy folder uid false None.
(* [crates/rimap-server/src/tools/compose/send_email.rs:45-52] SentCopyInfo::failed *)
Definition copy_failed (folder : rstr) (code : ErrorCode) : SentCopyInfo := mkSentCopy folder None true (Some code).

(* [crates/rimap-server/src/tools/compose/send_email.rs:57-69] SendEmailMeta *)
Record SendEmailMeta := mkSendMeta {
  se_sent : bool; se_message_id : option rstr; se_smtp_status : rstr; se_sent_copy : SentCopyInfo;
  se_attachments : list AttachmentSummary }.
(* [crates/rimap-server/src/tools/compose/forward.rs:42-55] ForwardMeta *)
Record ForwardMeta := mkForwardMeta {
  fw_sent : bool; fw_message_id : option rstr; fw_smtp_status : rstr; fw_source_folder : rstr; fw_source_uid : Z;
  fw_sent_copy : SentCopyInfo }.
(* [crates/rimap-server/src/tools/compose/create_draft.rs:15-27] CreateDraftMeta *)
Record CreateDraftMeta := mkDraftMeta {
  cd_folder : rstr; cd_uid : option Z; cd_message_id : option rstr; cd_keywords : list rstr;
  cd_attachments : list AttachmentSummary }.

Definition addresses (l : list AddressInput) : list rstr := map ad_address l.

Section compose.
Context `{UnicodeLib, DomainLib, ComposeApi} (registrable : rstr -> option rstr)
  (parse_document : rstr -> list node) (ammonia_clean : rstr -> rstr) (mail_parser : list Z -> SafeParse)
  (sniff_mime : list Z -> option rstr) (write_to_vec : MessageBuilder -> result rstr (list Z)) (pid nanos : Z).

Definition parsed_mail (raw : list Z) : option Message := match mail_parser raw with Parsed m => Some m | _ => None end.

(* [crates/rimap-content/src/lib.rs:46-51] extract_message_id *)
Definition extract_message_id (raw : list Z) : option rstr := m ← parsed_mail raw; m_message_id m.
(* [crates/rimap-content/src/lib.rs:63-68] extract_subject *)
Definition extract_subject (raw : list Z) : option rstr := m ← parsed_mail raw; m_subject m.

(* [crates/rimap-content/src/lib.rs:80-89] OutboundHtml *)
Record OutboundHtml := mkOutbound { oh_body_html : rstr; oh_warnings : list SecurityWarning }.
(* [crates/rimap-content/src/lib.rs:104-110] sanitize_outbound_html *)
Definition sanitize_outbound_html (raw : rstr) : result ContentError OutboundHtml :=
  result ← html_sanitize registrable url_links parse_document ammonia_clean (str_bytes raw) (Some (lit "utf-8"));
  Ok (mkOutbound (hr_body_html result) (hr_warnings result)).

(** ** Building *)

(* [crates/rimap-server/src/tools/compose/message_builder.rs:377-383] generate_message_id *)
Definition generate_message_id (from_addr : rstr) : rstr :=
  let domain := match rsplit_once 64 from_addr with Some (_, d) => d | None => from_addr end in
  to_decimal pid ++ lit "." ++ to_decimal nanos ++ lit "@" ++ domain.

(* [crates/rimap-server/src/tools/compose/message_builder.rs:392-415] build_message_headers *)
Definition build_message_headers (from_addr : rstr) (input : ComposeInput) (include_bcc : bool) : MessageBuilder :=
  mkBuilder from_addr (addresses_to_builder (ci_to input)) (nonempty_addresses (ci_cc input))
    (if include_bcc then nonempty_addresses (ci_bcc input) else None)
    (ci_subject input) (ci_body_text input) (generate_message_id from_addr) None None None [].

(* [crates/rimap-server/src/tools/compose/message_builder.rs:451-474] apply_threading_headers *)
Definition apply_threading_headers (builder : MessageBuilder) (reply_uid : Z) (in_reply_to_folder : option rstr)
    : outgoing MessageBuilder :=
  let folder := default (lit "INBOX") in_reply_to_folder in
  raw ← (([CallFetchBody folder reply_uid], map_err rimap_of_imap (api_fetch_body folder reply_uid)) : outgoing (list Z));
  let headers := extract_threading_headers (parsed_mail raw) in
  match th_message_id headers with
  | None => mret builder
  | Some msg_id => mret (set_threading msg_id (cap_references (th_references headers ++ [msg_id])) builder)
  end.

(* [crates/rimap-server/src/tools/compose/message_builder.rs:501-508] attachment_filename *)
Definition attachment_filename (att : AttachmentInput) : rstr :=
  default (lit "attachment") (path_file_name (default (at_path att) (at_filename att))).
(* [crates/rimap-server/src/tools/compose/message_builder.rs:512-517] attachment_content_type *)
Definition attachment_content_type (att : AttachmentInput) (bytes : list Z) : rstr :=
  match at_content_type att with
  | Some ct => ct | None => default (lit "application/octet-stream") (sniff_mime bytes) end.

(* [crates/rimap-server/src/tools/compose/message_builder.rs:550-566] read_attachments *)
Fixpoint read_each (total : Z) (inputs : list AttachmentInput) : outgoing (list AttachmentRead) :=
  match inputs with
  | [] => mret []
  | att :: inputs' =>
      let remaining := Z.max 0 (MAX_TOTAL_MESSAGE_BYTES - total) in
      let cap := Z.min remaining MAX_ATTACHMENT_BYTES in
      bytes ← (([CallReadFile (at_path att) cap], api_read_file (at_path att) cap) : outgoing (list Z));
      rest ← read_each (total + count bytes) inputs';
      mret (mkRead (attachment_filename att) (attachment_content_type att bytes) bytes :: rest)
  end.

Definition html_of (input : ComposeInput) : option rstr :=
  match ci_body_html input with Some h => if body_html_is_present h then Some h else None | None => None end.

(* [crates/rimap-server/src/tools/compose/message_builder.rs:535-568] read_attachments *)
Definition read_attachments (input : ComposeInput) : outgoing (list AttachmentRead) :=
  match ci_attachments input with
  | None => mret []
  | Some inputs =>
      read_each (str_len (ci_body_text input) + match html_of input with Some h => str_len h | None => 0 end) inputs
  end.

(* [crates/rimap-server/src/tools/compose/message_builder.rs:600-619] assemble_message *)
Definition part_of (read : AttachmentRead) : MimePart :=
  mkMimePart (ar_content_type read) (Some (ar_filename read)) (ar_filename read) (ar_bytes read).

(* [crates/rimap-server/src/tools/compose/message_builder.rs:580-628] assemble_message *)
Definition assemble_message (builder : MessageBuilder) (input : ComposeInput) (reads : list AttachmentRead)
    : result RimapError BuiltMessage :=
  '(builder, security_warnings) ← match html_of input with
    | Some html =>
        sanitized ← map_err (fun e => invalid_input (lit "body_html: " ++ content_error_message e)) (sanitize_outbound_html html);
        Ok (set_html (oh_body_html sanitized) builder, oh_warnings sanitized)
    | None => Ok (builder, [])
    end;
  let attachments := map (fun read => mkSummary (ar_filename read) (count (ar_bytes read))) reads in
  raw ← map_err (fun _ => RInternalSourced (lit "failed to build message")) (write_to_vec (push_parts (map part_of reads) builder));
  Ok (mkBuilt raw security_warnings attachments).

(* [crates/rimap-server/src/tools/compose/message_builder.rs:633-653] build_message *)
Definition build_message (from_addr : rstr) (input : ComposeInput) (include_bcc : bool) : outgoing BuiltMessage :=
  let builder := build_message_headers from_addr input include_bcc in
  builder ← match ci_in_reply_to_uid input with
            | Some reply_uid => apply_threading_headers builder reply_uid (ci_in_reply_to_folder input)
            | None => mret builder
            end;
  reads ← read_attachments input;
  check (assemble_message builder input reads).

(* [crates/rimap-server/src/tools/compose/message_builder.rs:248-286] build_forward_message *)
Definition build_forward_message (from_addr : rstr) (to : list AddressInput) (cc : option (list AddressInput))
    (subject comment_body : rstr) (original_raw : list Z) (threading : ThreadingHeaders) : result RimapError (list Z) :=
  let builder := mkBuilder from_addr (addresses_to_builder to) (nonempty_addresses cc) None subject comment_body
    (generate_message_id from_addr) None None None [] in
  let builder := match th_message_id threading with
    | Some ((_ :: _) as orig_id) => set_threading orig_id (cap_references (th_references threading ++ [orig_id])) builder
    | _ => builder
    end in
  let builder := push_parts [mkMimePart (lit "message/rfc822") None (lit "forwarded.eml") original_raw] builder in
  map_err (fun _ => RInternalSourced (lit "failed to build forward message")) (write_to_vec builder).

(** ** The handlers *)

(* [crates/rimap-server/src/tools/compose/create_draft.rs:41-73] handle *)
Definition create_draft (input : ComposeInput) : outgoing (ToolResponse CreateDraftMeta unit) :=
  _ ← check (validate_compose_input input);
  built ← build_message api_username input true;
  let drafts_folder := default (lit "Drafts") (drafts api_special_use) in
  _ ← check (validate_folder_input (lit "drafts folder") drafts_folder);
  uid ← (([CallAppend drafts_folder (bm_raw built) [Draft] [lit "$PendingReview"]],
          map_err rimap_of_imap (api_append_message drafts_folder (bm_raw built) [Draft] [lit "$PendingReview"])) : outgoing (option Z));
  mret (with_warnings (meta_only (mkDraftMeta drafts_folder uid (extract_message_id (bm_raw built)) [lit "$PendingReview"]
          (bm_attachments built))) (bm_warnings built)).

(* [crates/rimap-server/src/tools/compose/send_email.rs:200-210] build_envelope *)
Definition build_envelope (from_addr : rstr) (input : ComposeInput) : SendEnvelope :=
  mkEnvelope from_addr (addresses (ci_to input) ++ addresses (opt_list (ci_cc input)) ++ addresses (opt_list (ci_bcc input))).
(* [crates/rimap-server/src/tools/compose/forward.rs:157-167] build_envelope *)
Definition forward_envelope (from_addr : rstr) (input : ForwardInput) : SendEnvelope :=
  mkEnvelope from_addr (addresses (fi_to input) ++ addresses (opt_list (fi_cc input)) ++ addresses (opt_list (fi_bcc input))).

(* [crates/rimap-server/src/tools/compose/send_email.rs:179-194] build_sent_copy_info *)
Definition build_sent_copy_info (sent_folder : rstr) (append_outcome : option (result ErrorCode (option Z))) : SentCopyInfo :=
  match append_outcome with
  | Some (Ok uid) => mkSentCopy sent_folder uid false None
  | Some (Err code) => mkSentCopy sent_folder None true (Some code)
  | None => mkSentCopy sent_folder None true (Some EInvalidInput)
  end.

(** The conversion of [smtp.send_raw]'s error by [?]. *)
Definition call_send (smtp : SendEnvelope -> list Z -> result SmtpError rstr) (envelope : SendEnvelope) (raw : list Z)
    : outgoing rstr := ([CallSend envelope raw], map_err rimap_of_smtp (smtp envelope raw)).

(* [crates/rimap-server/src/tools/compose/send_email.rs:83-163] handle *)
Definition send_email (input : ComposeInput) : outgoing (ToolResponse SendEmailMeta unit) :=
  _ ← check (validate_compose_input input);
  smtp ← check (match api_smtp with Some s => Ok s | None => Err (RConfig (lit "send_email requires SMTP configuration")) end);
  built ← build_message api_username input false;
  let raw_msg := bm_raw built in
  _ ← call_send smtp (build_envelope api_username input) raw_msg;
  let sent_folder := default (lit "Sent") (sent_folder api_special_use) in
  append_outcome ← match folder_name_new sent_folder with
    | Err _ => mret None
    | Ok _ => ([CallAppend sent_folder raw_msg [Seen] []],
               Ok (Some (map_err imap_code (api_append_message sent_folder raw_msg [Seen] []))))
    end : outgoing (option (result ErrorCode (option Z)));
  mret (with_warnings (meta_only (mkSendMeta true (extract_message_id raw_msg) (lit "delivered")
          (build_sent_copy_info sent_folder append_outcome) (bm_attachments built))) (bm_warnings built)).

(* [crates/rimap-server/src/tools/compose/forward.rs:172-198] append_sent_copy *)
Definition append_sent_copy (raw_msg : list Z) : outgoing SentCopyInfo :=
  let sent_folder := default (lit "Sent") (sent_folder api_special_use) in
  match folder_name_new sent_folder with
  | Err _ => mret (copy_failed sent_folder EInvalidInput)
  | Ok _ => ([CallAppend sent_folder raw_msg [Seen] []],
             Ok match api_append_message sent_folder raw_msg [Seen] [] with
                | Ok uid => copy_succeeded sent_folder uid
                | Err e => copy_failed sent_folder (imap_code e)
                end)
  end.

(* [crates/rimap-server/src/tools/compose/forward.rs:68-130] handle *)
Definition forward (input : ForwardInput) : outgoing (ToolResponse ForwardMeta unit) :=
  _ ← check (validate_folder_input (lit "folder") (fi_folder input));
  _ ← check (validate_recipient_set (fi_to input) (fi_cc input) (fi_bcc input));
  comment_body ← check (validate_comment (fi_comment input));
  smtp ← check (match api_smtp with Some s => Ok s | None => Err (RConfig (lit "forward requires SMTP configuration")) end);
  original ← (([CallFetchBody (fi_folder input) (fi_uid input)],
               map_err rimap_of_imap (api_fetch_body (fi_folder input) (fi_uid input))) : outgoing (list Z));
  _ ← check (ensure (count original <=? MAX_FORWARD_ORIGINAL_BYTES)
        (too_large (lit "source message too large to forward (") (count original) MAX_FORWARD_ORIGINAL_BYTES));
  let subject := forwarded_subject (extract_subject original) in
  let threading := extract_threading_headers (parsed_mail original) in
  raw_msg ← check (build_forward_message api_username (fi_to input) (fi_cc input) subject comment_body original threading);
  _ ← call_send smtp (forward_envelope api_username input) raw_msg;
  sent_copy ← append_sent_copy raw_msg;
  mret (meta_only (mkForwardMeta true (extract_message_id raw_msg) (lit "delivered") (fi_folder input) (fi_uid input) sent_copy)).
End compose.

(** ** The account: its connection, its relay and the download sandbox *)

(** [panicked] says whether the blocking task of a read panics. *)
Program Definition account_api (username : rstr) (special : SpecialUseMap)
    (fetch_body : rstr -> Z -> result ImapError (list Z))
    (append_server : rstr -> option rstr -> list Z -> result ImapError unit) (max_append_bytes : Z)
    {address : Type} (parse_address : rstr -> result rstr address) (transport : option ((address * list address) -> list Z -> dialog))
    (sys : system) (open_dir : rstr -> option read_dir) (download_dir : rstr) (panicked : bool) : ComposeApi :=
  {| api_username := username; api_special_use := special; api_fetch_body := fetch_body;
     api_append_message := fun folder raw flags keywords => append_op append_server folder raw flags keywords max_append_bytes;
     api_smtp := (fun t envelope raw => (send_raw parse_address t envelope raw).2) <$> transport;
     api_read_file := fun path cap =>
       if panicked then Err (RInternalSourced (lit "spawn_blocking panicked"))
       else read_sandboxed_file sys open_dir download_dir path cap |}.
Next Obligation.
  intros ? ? ? ? ? ? ? ? sys open_dir download_dir [] path cap bytes Hcap; [done|].
  by apply read_sandboxed_file_within.
Qed.

(** ** Validation, read back *)

Lemma ensure_ok {E} b (e : E) : ensure b e = Ok tt <-> b = true.
Proof. by destruct b. Qed.

(** No byte that ends a header line or an address. *)
Definition header_text (bad : list Z) (s : rstr) : Prop := Forall (fun c => c ∉ bad) s.
Definition line_breaks : list Z := [13; 10; 0].
Definition header_breaks : list Z := [13; 10; 0; 60; 62].

Lemma no_byte_no_char (f : Z -> bool) bad (s : rstr) : forallb (fun b => f b && (b <? 128)) bad = true ->
  existsb f (str_bytes s) = false -> header_text bad s.
Proof.
  intros Hbad He. apply Forall_forall. intros c Hc Hin. rewrite forallb_forall in Hbad.
  apply list_elem_of_In, Hbad, andb_true_iff in Hin as [Hf Hlt%Z.ltb_lt].
  apply not_true_iff_false in He. apply He, existsb_exists. exists c. split; [|done].
  apply list_elem_of_In. by apply ascii_char_byte.
Qed.
Lemma validate_header_text_ok field s : validate_header_text field s = Ok tt -> header_text header_breaks s.
Proof.
  unfold validate_header_text. destruct (existsb _ _) eqn:E; [done|]. intros _. revert E. by apply no_byte_no_char.
Qed.

Definition safe_address (a : AddressInput) : Prop :=
  header_text header_breaks (ad_address a) /\ forall name, ad_name a = Some name -> header_text header_breaks name.
Lemma validate_addresses_ok field addrs : validate_addresses field addrs = Ok tt -> Forall safe_address addrs.
Proof.
  induction addrs as [|a addrs IH]; cbn [validate_addresses]; [constructor|].
  intros ([] & Ha & ([] & Hn & Hr)%bind_ok)%bind_ok. constructor; [|by apply IH].
  split; [by eapply validate_header_text_ok|]. intros name En. rewrite En in Hn. by eapply validate_header_text_ok.
Qed.
Lemma validate_optional_ok field addrs : validate_optional field addrs = Ok tt -> Forall safe_address (opt_list addrs).
Proof. destruct addrs as [l|]; cbn; [apply validate_addresses_ok|constructor]. Qed.

(** A token of RFC 2045, without the characters its grammar reserves. *)
Definition token (s : rstr) : Prop := s <> [] /\ forallb is_token_char (str_bytes s) = true.
Lemma validate_content_type_ok value : validate_content_type value = Ok tt ->
  exists ty sub, value = ty ++ [47] ++ sub /\ token ty /\ token sub.
Proof.
  unfold validate_content_type. destruct (split_once 47 value) as [[ty sub]|] eqn:E; [|done].
  repeat case_bool_decide; [done..|]. destruct (forallb is_token_char (str_bytes ty)) eqn:Et; [|done].
  destruct (forallb is_token_char (str_bytes sub)) eqn:Es; [|done]. intros _.
  apply split_once_Some in E as [-> _]. by exists ty, sub.
Qed.

Definition checked_attachment (att : AttachmentInput) : Prop :=
  (forall name, at_filename att = Some name -> header_text header_breaks name) /\
  (forall ct, at_content_type att = Some ct -> exists ty sub, ct = ty ++ [47] ++ sub /\ token ty /\ token sub).
Lemma validate_attachments_ok atts : validate_attachments atts = Ok tt ->
  count atts <= MAX_ATTACHMENTS /\ Forall checked_attachment atts.
Proof.
  unfold validate_attachments. intros ([] & Hc%ensure_ok & He)%bind_ok. split; [by apply Z.leb_le|]. clear Hc.
  induction atts as [|a atts IH]; cbn [validate_each_attachment] in He; [constructor|].
  apply bind_ok in He as ([] & _ & ([] & Hn & ([] & Hct & Hr)%bind_ok)%bind_ok). constructor; [|by apply IH].
  split.
  - intros name En. rewrite En in Hn. by eapply validate_header_text_ok.
  - intros ct Ec. rewrite Ec in Hct. by apply validate_content_type_ok.
Qed.

Definition recipients (to : list AddressInput) (cc bcc : option (list AddressInput)) : list AddressInput :=
  to ++ opt_list cc ++ opt_list bcc.

(** What a validated input satisfies. *)
Record valid_compose (input : ComposeInput) : Prop := {
  vc_recipients : 1 <= count (recipients (ci_to input) (ci_cc input) (ci_bcc input)) <= MAX_RECIPIENTS;
  vc_to : ci_to input <> [];
  vc_addresses : Forall safe_address (recipients (ci_to input) (ci_cc input) (ci_bcc input));
  vc_subject : str_len (ci_subject input) <= MAX_SUBJECT_LEN /\ header_text line_breaks (ci_subject input);
  vc_text : str_len (ci_body_text input) <= MAX_COMPOSE_BODY_BYTES;
  vc_html : forall html, ci_body_html input = Some html -> str_len html <= MAX_COMPOSE_BODY_BYTES;
  vc_attachments : count (opt_list (ci_attachments input)) <= MAX_ATTACHMENTS /\
    Forall checked_attachment (opt_list (ci_attachments input)) }.

Lemma recipients_count to cc bcc : count (recipients to cc bcc) = count to + count (opt_list cc) + count (opt_list bcc).
Proof. unfold count, recipients. rewrite !length_app. lia. Qed.

Lemma recipient_checks to cc bcc :
  negb (count to =? 0) = true -> (count to + count (opt_list cc) + count (opt_list bcc) <=? MAX_RECIPIENTS) = true ->
  validate_addresses (lit "To") to = Ok tt -> validate_optional (lit "CC") cc = Ok tt ->
  validate_optional (lit "BCC") bcc = Ok tt ->
  1 <= count (recipients to cc bcc) <= MAX_RECIPIENTS /\ Forall safe_address (recipients to cc bcc).
Proof.
  intros H1%negb_true_iff%Z.eqb_neq H2%Z.leb_le Hto%validate_addresses_ok Hcc%validate_optional_ok Hbcc%validate_optional_ok.
  split; [rewrite recipients_count; unfold count in *; lia|]. unfold recipients. by rewrite !Forall_app.
Qed.

Lemma validate_compose_ok input : validate_compose_input input = Ok tt -> valid_compose input.
Proof.
  unfold validate_compose_input. cbv zeta.
  intros ([] & H1%ensure_ok & ([] & H2%ensure_ok & ([] & H3%ensure_ok & ([] & H4%ensure_ok & ([] & H5 &
    ([] & H6 & ([] & H7 & ([] & H8 & ([] & H9 & ([] & H10%ensure_ok & _)%bind_ok)%bind_ok)%bind_ok)%bind_ok)%bind_ok)
    %bind_ok)%bind_ok)%bind_ok)%bind_ok)%bind_ok.
  destruct (recipient_checks _ _ _ H1 H2 H7 H8 H9) as [Hn Ha].
  split; [done|by intros E; rewrite E in H1|done| |by apply Z.leb_le| |].
  - split; [by apply Z.leb_le|]. apply negb_true_iff in H10. revert H10. by apply no_byte_no_char.
  - intros html Eh. rewrite Eh in H5. destruct html as [|c html]; [done|]. by apply ensure_ok, Z.leb_le in H5.
  - destruct (ci_attachments input) as [atts|]; [by apply validate_attachments_ok|]. split; [done|constructor].
Qed.

Lemma validate_recipients_ok to cc bcc : validate_recipient_set to cc bcc = Ok tt ->
  1 <= count (recipients to cc bcc) <= MAX_RECIPIENTS /\ Forall safe_address (recipients to cc bcc).
Proof.
  unfold validate_recipient_set. cbv zeta.
  intros ([] & H1%ensure_ok & ([] & H2%ensure_ok & ([] & H3 & ([] & H4 & H5)%bind_ok)%bind_ok)%bind_ok)%bind_ok.
  by apply recipient_checks.
Qed.
Lemma recipient_to to cc bcc : validate_recipient_set to cc bcc = Ok tt -> to <> [].
Proof. by intros H ->. Qed.

(** ** What the handlers do *)

Section handlers.
Context `{UnicodeLib, DomainLib, ComposeApi} (registrable : rstr -> option rstr)
  (parse_document : rstr -> list node) (ammonia_clean : rstr -> rstr) (mail_parser : list Z -> SafeParse)
  (sniff_mime : list Z -> option rstr) (write_to_vec : MessageBuilder -> result rstr (list Z)) (pid nanos : Z).
Abbreviation building := (build_message registrable parse_document ammonia_clean mail_parser sniff_mime write_to_vec pid nanos).
Abbreviation assembling := (assemble_message registrable parse_document ammonia_clean write_to_vec).
Abbreviation drafting := (create_draft registrable parse_document ammonia_clean mail_parser sniff_mime write_to_vec pid nanos).
Abbreviation sending := (send_email registrable parse_document ammonia_clean mail_parser sniff_mime write_to_vec pid nanos).
Abbreviation forwarding := (forward mail_parser write_to_vec pid nanos).
Abbreviation forwarded := (build_forward_message write_to_vec pid nanos).

(** Calls that hand nothing out. *)
Definition quiet (c : out_call) : Prop := match c with CallFetchBody _ _ | CallReadFile _ _ => True | _ => False end.

Lemma read_each_quiet inputs : forall total, Forall quiet (read_each sniff_mime total inputs).1.
Proof.
  induction inputs as [|a inputs IH]; intros total; cbn [read_each]; [constructor|].
  apply calls_bind; [by repeat constructor|]. intros bytes _. apply calls_bind; [apply IH|]. intros rest _. constructor.
Qed.
Lemma build_quiet from input include_bcc : Forall quiet (building from input include_bcc).1.
Proof.
  unfold build_message. apply calls_bind.
  - destruct (ci_in_reply_to_uid input); [|constructor]. unfold apply_threading_headers.
    apply calls_bind; [by repeat constructor|]. intros raw _. destruct (th_message_id _); constructor.
  - intros b _. apply calls_bind; [|intros reads _; constructor].
    unfold read_attachments. destruct (ci_attachments input); [apply read_each_quiet|constructor].
Qed.

(** The copy kept in the Sent folder is reported as it went. *)
Definition copy_reported (raw : list Z) (calls : list out_call) (copy : SentCopyInfo) : Prop :=
  let folder := default (lit "Sent") (sent_folder api_special_use) in
  match folder_name_new folder with
  | Err _ => calls = [] /\ copy = copy_failed folder EInvalidInput
  | Ok _ => calls = [CallAppend folder raw [Seen] []] /\
      copy = match api_append_message folder raw [Seen] [] with
             | Ok uid => copy_succeeded folder uid | Err e => copy_failed folder (imap_code e) end
  end.

(** ** What an answer says of the delivery *)

Section delivery.
(** The account's relay: the addresses lettre accepts, and how its dialog with
    the relay ends. *)
Context {address : Type} (parse_address : rstr -> result rstr address) (relay : option ((address * list address) -> list Z -> dialog)).
Hypothesis relay_is : api_smtp = (fun t envelope raw => (send_raw parse_address t envelope raw).2) <$> relay.

(** The code of the error a dialog without a positive reply ends in.  A negative
    reply has a status: the relay refused.  Without one, whatever the code,
    nobody knows what the relay did with the message. *)
Definition code_for (d : dialog) : option ErrorCode :=
  match d with
  | Replied _ _ => None
  | DeadlineElapsed => Some ETimeout
  | Failed e =>
      Some (if le_is_timeout e then ETimeout else if is_tls_error e then ETls else
            match le_status e with
            | Some status => if bool_decide (status ∈ [432; 534; 535; 538]) then EAuth else ESmtpProtocol
            | None => if le_is_response e then ESmtpProtocol else if le_is_client e then EConnectionLost else EInternal
            end)
  end.

(** A success: one message was handed to the client, which reached the relay
    and got a positive reply.  An error: nothing was handed to the client; or it
    refused an address and opened no dialog; or its one dialog ended without a
    positive reply, and the code says how. *)
Definition truthful {M} (sent : M -> bool) (copy : M -> SentCopyInfo) (m : outgoing (ToolResponse M unit)) : Prop :=
  match m with
  | (calls, Ok resp) => exists pre envelope raw post t env code lines,
      calls = pre ++ CallSend envelope raw :: post /\ Forall quiet pre /\
      relay = Some t /\ build_lettre_envelope parse_address envelope = Ok env /\ t env raw = Replied code lines /\
      sent (resp_meta resp) = true /\ copy_reported raw post (copy (resp_meta resp))
  | (calls, Err e) => Forall quiet calls \/ exists pre envelope raw t,
      calls = pre ++ [CallSend envelope raw] /\ Forall quiet pre /\ relay = Some t /\
      match build_lettre_envelope parse_address envelope with
      | Err _ => exists text, e = RSmtp ESmtpProtocol text
      | Ok env => exists code text, code_for (t env raw) = Some code /\ e = RSmtp code text
      end
  end.

Lemma truthful_quiet {A M} sent (copy : M -> SentCopyInfo) (m : outgoing A) f :
  Forall quiet m.1 -> (forall a, m.2 = Ok a -> truthful sent copy (f a)) -> truthful sent copy (m ≫= f).
Proof.
  destruct m as [cs [a|e]]; unfold mbind, logged_bind; cbn [fst snd]; [|by left]. intros Hcs Hf. specialize (Hf a eq_refl).
  destruct (f a) as [cs' [resp|e]]; cbn [truthful] in *.
  - destruct Hf as (pre & envelope & raw & post & t & env & code & lines & -> & Hq & Hrest).
    exists (cs ++ pre), envelope, raw, post, t, env, code, lines. rewrite <- app_assoc. split; [done|]. split; [by apply Forall_app|done].
  - destruct Hf as [Hq|(pre & envelope & raw & t & -> & Hq & Hrest)]; [left; by apply Forall_app|]. right.
    exists (cs ++ pre), envelope, raw, t. rewrite <- app_assoc. split; [done|]. split; [by apply Forall_app|done].
Qed.
Lemma truthful_check {A M} sent (copy : M -> SentCopyInfo) (r : result RimapError A) f :
  (forall a, r = Ok a -> truthful sent copy (f a)) -> truthful sent copy (check r ≫= f).
Proof. intros Hf. apply truthful_quiet; [constructor|exact Hf]. Qed.

Lemma refused_address_code envelope e : build_lettre_envelope parse_address envelope = Err e -> smtp_code e = ESmtpProtocol.
Proof.
  unfold build_lettre_envelope. destruct (parse_address _); [|by intros [= <-]]. cbn.
  assert (Hr : forall l e', parse_recipients parse_address l = Err e' -> smtp_code e' = ESmtpProtocol).
  { induction l as [|x l IH]; cbn; [done|]. destruct (parse_address x); [|by intros e' [= <-]]. cbn.
    intros e'. destruct (parse_recipients _ l) as [rest|e''] eqn:E; [done|]. intros [= <-]. by apply IH. }
  destruct (parse_recipients _ _) as [to|e'] eqn:E; cbn; [|intros [= <-]; by eapply Hr]. by destruct to; intros [= <-].
Qed.

Lemma classified_code e : code_for (Failed e) = Some (smtp_code (classify_smtp_error e)).
Proof.
  unfold code_for, classify_smtp_error, shape_of. destruct (le_is_timeout e); [done|]. destruct (is_tls_error e); [done|].
  destruct (le_status e) as [c|]; [|by destruct (le_is_response e), (le_is_client e)].
  replace (code_is_auth c) with (bool_decide (c ∈ [432; 534; 535; 538])); [by case_bool_decide|].
  apply Bool.eq_iff_eq_true. rewrite bool_decide_eq_true. unfold code_is_auth. cbn [existsb].
  rewrite !elem_of_cons, elem_of_nil, !orb_true_iff, !Z.eqb_eq. naive_solver.
Qed.

Lemma truthful_send {M} sent (copy : M -> SentCopyInfo) smtp envelope raw post resp :
  api_smtp = Some smtp -> sent (resp_meta resp) = true -> copy_reported raw post (copy (resp_meta resp)) ->
  truthful sent copy (call_send smtp envelope raw ≫= fun _ => (post, Ok resp)).
Proof.
  rewrite relay_is. destruct relay as [t|] eqn:Et; [|done]. intros [= <-] Hsent Hc.
  unfold call_send, mbind, logged_bind, send_raw. destruct (build_lettre_envelope parse_address envelope) as [env|e] eqn:Eb; cbn [snd map_err truthful].
  - destruct (t env raw) as [code lines|le|] eqn:Ed; cbn [snd map_err truthful].
    + exists [], envelope, raw, post, t, env, code, lines. by split_and!.
    + right. exists [], envelope, raw, t. split_and!; [done|constructor|done|]. rewrite Eb, Ed.
      exists (smtp_code (classify_smtp_error le)). eexists. split; [apply classified_code|reflexivity].
    + right. exists [], envelope, raw, t. split_and!; [done|constructor|done|]. rewrite Eb, Ed. exists ETimeout. by eexists.
  - right. exists [], envelope, raw, t. split_and!; [done|constructor|done|]. rewrite Eb.
    apply refused_address_code in Eb. unfold rimap_of_smtp. rewrite Eb. by eexists.
Qed.
Lemma smtp_configured (message : rstr) smtp :
  match api_smtp with Some s => Ok s | None => Err (RConfig message) end = Ok smtp -> api_smtp = Some smtp.
Proof. by destruct api_smtp as [s|]; intros [= ->]. Qed.

Lemma send_email_truthful input : truthful se_sent se_sent_copy (sending input).
Proof.
  unfold send_email. apply truthful_check. intros [] _. apply truthful_check. intros smtp Hs%smtp_configured.
  apply truthful_quiet; [apply build_quiet|]. intros built _. cbv zeta.
  unfold build_sent_copy_info. destruct (folder_name_new _) as [n|e] eqn:En.
  - apply (truthful_send _ _ _ _ _ [_] (with_warnings _ _)); [done..|]. unfold copy_reported. rewrite En.
    split; [done|]. cbn. by destruct (api_append_message _ _ _ _).
  - apply (truthful_send _ _ _ _ _ [] (with_warnings _ _)); [done..|]. unfold copy_reported. by rewrite En.
Qed.

Lemma forward_truthful input : truthful fw_sent fw_sent_copy (forwarding input).
Proof.
  unfold forward. apply truthful_check. intros [] _. apply truthful_check. intros [] _. apply truthful_check. intros comment _.
  apply truthful_check. intros smtp Hs%smtp_configured. apply truthful_quiet; [by repeat constructor|]. intros original _.
  apply truthful_check. intros [] _. cbv zeta. apply truthful_check. intros raw _.
  unfold append_sent_copy. cbv zeta. destruct (folder_name_new _) as [n|e] eqn:En.
  - apply (truthful_send _ _ _ _ _ [_] (meta_only _)); [done..|]. unfold copy_reported. by rewrite En.
  - apply (truthful_send _ _ _ _ _ [] (meta_only _)); [done..|]. unfold copy_reported. by rewrite En.
Qed.
End delivery.

(** ** What is built *)

Definition total_bytes (parts : list MimePart) : Z := foldr (fun p n => count (mp_bytes p) + n) 0 parts.

(** What the handlers set from the input, whatever else was added. *)
Record sets_headers (from : rstr) (input : ComposeInput) (include_bcc : bool) (b : MessageBuilder) : Prop := {
  sh_from : b_from b = from;
  sh_to : b_to b = addresses_to_builder (ci_to input);
  sh_cc : b_cc b = nonempty_addresses (ci_cc input);
  sh_bcc : b_bcc b = if include_bcc then nonempty_addresses (ci_bcc input) else None;
  sh_subject : b_subject b = ci_subject input;
  sh_text : b_text_body b = ci_body_text input;
  sh_references : (length (opt_list (b_references b)) <= MAX_REFERENCES)%nat }.

Lemma cap_references_length refs : (length (cap_references refs) <= MAX_REFERENCES)%nat.
Proof.
  unfold cap_references. destruct (Nat.leb_spec (length refs) MAX_REFERENCES) as [Hl|Hl]; [done|].
  destruct refs as [|root rest]; [cbn in Hl; lia|]. cbn [length]. rewrite length_drop. unfold MAX_REFERENCES in *. lia.
Qed.

Definition read_of (att : AttachmentInput) (read : AttachmentRead) : Prop :=
  ar_filename read = attachment_filename att /\ ar_content_type read = attachment_content_type sniff_mime att (ar_bytes read).

Lemma read_each_spec inputs : forall total cs reads, 0 <= total <= MAX_TOTAL_MESSAGE_BYTES ->
  read_each sniff_mime total inputs = (cs, Ok reads) ->
  Forall2 read_of inputs reads /\ Forall (fun r => count (ar_bytes r) <= MAX_ATTACHMENT_BYTES) reads /\
  total + total_bytes (map part_of reads) <= MAX_TOTAL_MESSAGE_BYTES.
Proof.
  induction inputs as [|att inputs IH]; intros total cs reads Ht; cbn [read_each].
  - intros [= <- <-]. split; [constructor|]. split; [constructor|]. cbn. lia.
  - intros (cs1 & bytes & cs2 & Hr & (cs3 & rest & cs4 & He & Hret & _)%logged_bind_ok & _)%logged_bind_ok.
    injection Hr as _ Hr. injection Hret as _ <-. apply read_within in Hr; [|unfold MAX_ATTACHMENT_BYTES; lia].
    assert (0 <= count bytes) by (unfold count; lia).
    apply IH in He as (Hf & Hl & Hb); [|unfold MAX_TOTAL_MESSAGE_BYTES, MAX_ATTACHMENT_BYTES in *; lia].
    split; [by constructor|]. split; [constructor; [cbn; lia|done]|]. cbn [map total_bytes foldr part_of mp_bytes ar_bytes].
    change (foldr _ 0 (map part_of rest)) with (total_bytes (map part_of rest)). lia.
Qed.

Lemma set_threading_headers from input include_bcc b i refs :
  sets_headers from input include_bcc b -> sets_headers from input include_bcc (set_threading i (cap_references refs) b).
Proof. intros []. split; try done. apply cap_references_length. Qed.

Lemma building_spec from input include_bcc cs built : building from input include_bcc = (cs, Ok built) ->
  exists b reads, write_to_vec b = Ok (bm_raw built) /\ sets_headers from input include_bcc b /\
    b_attachments b = map part_of reads /\
    bm_attachments built = map (fun r => mkSummary (ar_filename r) (count (ar_bytes r))) reads /\
    (valid_compose input ->
       Forall2 read_of (opt_list (ci_attachments input)) reads /\
       Forall (fun r => count (ar_bytes r) <= MAX_ATTACHMENT_BYTES) reads /\
       str_len (ci_body_text input) + match html_of input with Some h => str_len h | None => 0 end
         + total_bytes (map part_of reads) <= MAX_TOTAL_MESSAGE_BYTES).
Proof.
  unfold build_message. cbv zeta.
  intros (cs1 & b0 & cs2 & Hb0 & (cs3 & reads & cs4 & Hr & Ha & _)%logged_bind_ok & _)%logged_bind_ok.
  assert (Hset : sets_headers from input include_bcc b0 /\ b_attachments b0 = []).
  { assert (Hs0 : sets_headers from input include_bcc (build_message_headers pid nanos from input include_bcc)).
    { split; try done. cbn. lia. }
    destruct (ci_in_reply_to_uid input) as [uid|]; [|by injection Hb0 as _ <-].
    unfold apply_threading_headers in Hb0. apply logged_bind_ok in Hb0 as (cs5 & raw & cs6 & _ & Hm & _). destruct (th_message_id _) as [m|].
    - injection Hm as _ <-. split; [by apply set_threading_headers|done].
    - by injection Hm as _ <-. }
  destruct Hset as [Hset Hno]. injection Ha as _ Ha. unfold assemble_message in Ha.
  apply bind_ok in Ha as ([b1 ws] & Hh & (raw & Hw & [= <-])%bind_ok).
  assert (Hb1 : sets_headers from input include_bcc b1 /\ b_attachments b1 = []).
  { destruct (html_of input) as [html|]; [|by injection Hh as <- _].
    apply bind_ok in Hh as (oh & _ & [= <- _]). split; [|done]. by destruct Hset; split. }
  destruct Hb1 as [Hb1 Hno1]. exists (push_parts (map part_of reads) b1), reads. split.
  { by destruct (write_to_vec _); [injection Hw as ->|]. }
  split; [by destruct Hb1; split|]. split; [cbn; by rewrite Hno1|]. split; [done|].
  intros Hv. unfold read_attachments in Hr.
  assert (Hstart : 0 <= str_len (ci_body_text input) + match html_of input with Some h => str_len h | None => 0 end
                     <= MAX_TOTAL_MESSAGE_BYTES).
  { pose proof (vc_text _ Hv) as Ht. pose proof (str_len_nonneg (ci_body_text input)). unfold html_of.
    destruct (ci_body_html input) as [h|] eqn:Eh; [|unfold MAX_TOTAL_MESSAGE_BYTES, MAX_COMPOSE_BODY_BYTES in *; lia].
    pose proof (vc_html _ Hv h Eh). pose proof (str_len_nonneg h).
    destruct (body_html_is_present h); unfold MAX_TOTAL_MESSAGE_BYTES, MAX_COMPOSE_BODY_BYTES in *; lia. }
  destruct (ci_attachments input) as [atts|]; [by apply read_each_spec in Hr|].
  injection Hr as _ <-. cbn. split; [constructor|]. split; [constructor|]. lia.
Qed.

(** ** What is handed out was built from the input *)

Definition handed_out (c : out_call) : option (list Z) :=
  match c with CallSend _ raw | CallAppend _ raw _ _ => Some raw | _ => None end.
Lemma quiet_hands_nothing (P : out_call -> Prop) cs : (forall c, quiet c -> P c) -> Forall quiet cs -> Forall P cs.
Proof. intros HP Hq. by eapply Forall_impl. Qed.

(** Every call that hands out bytes satisfies [P], in a bind: a quiet part, then
    the rest. *)
Lemma hands_bind {A B} (P : out_call -> Prop) (m : outgoing A) (f : A -> outgoing B) :
  (forall c, quiet c -> P c) -> Forall quiet m.1 -> (forall a, m.2 = Ok a -> Forall P (f a).1) -> Forall P (m ≫= f).1.
Proof. intros HP Hq Hf. apply calls_bind; [by eapply quiet_hands_nothing|done]. Qed.

Definition built_by (input : ComposeInput) (include_bcc : bool) (raw : list Z) : Prop :=
  validate_compose_input input = Ok tt /\
  exists cs built, building api_username input include_bcc = (cs, Ok built) /\ raw = bm_raw built.
Definition forwarded_by (input : ForwardInput) (raw : list Z) : Prop :=
  validate_recipient_set (fi_to input) (fi_cc input) (fi_bcc input) = Ok tt /\
  exists comment original, validate_comment (fi_comment input) = Ok comment /\
    api_fetch_body (fi_folder input) (fi_uid input) = Ok original /\ count original <= MAX_FORWARD_ORIGINAL_BYTES /\
    forwarded api_username (fi_to input) (fi_cc input) (forwarded_subject (extract_subject mail_parser original)) comment
      original (extract_threading_headers (parsed_mail mail_parser original)) = Ok raw.

Lemma building_result input include_bcc built :
  (building api_username input include_bcc).2 = Ok built ->
  exists cs, building api_username input include_bcc = (cs, Ok built).
Proof. destruct (building _ _ _) as [cs r]. intros [= ->]. by exists cs. Qed.

Lemma sending_hands input : Forall (fun c => match c with
    | CallSend envelope raw => envelope = build_envelope api_username input /\ built_by input false raw
    | CallAppend _ raw flags keywords => flags = [Seen] /\ keywords = [] /\ built_by input false raw
    | _ => True end) (sending input).1.
Proof.
  unfold send_email. apply hands_bind; [by intros []|constructor|]. intros [] Hv. apply hands_bind; [by intros []|constructor|].
  intros smtp _. apply hands_bind; [by intros []|apply build_quiet|]. intros built Hb.
  assert (Hby : built_by input false (bm_raw built)).
  { split; [done|]. destruct (building_result _ _ _ Hb) as [cs Hcs]. by exists cs, built. }
  cbv zeta. apply calls_bind; [by apply Forall_singleton|]. intros status _. apply calls_bind; [|constructor].
  destruct (folder_name_new _); [by apply Forall_singleton|constructor].
Qed.
Lemma drafting_hands input : Forall (fun c => match c with
    | CallSend _ _ => False
    | CallAppend _ raw flags keywords => flags = [Draft] /\ keywords = [lit "$PendingReview"] /\ built_by input true raw
    | _ => True end) (drafting input).1.
Proof.
  unfold create_draft. apply hands_bind; [by intros []|constructor|]. intros [] Hv.
  apply hands_bind; [by intros []|apply build_quiet|]. intros built Hb.
  assert (Hby : built_by input true (bm_raw built)).
  { split; [done|]. destruct (building_result _ _ _ Hb) as [cs Hcs]. by exists cs, built. }
  cbv zeta. apply hands_bind; [by intros []|constructor|]. intros [] _. apply calls_bind; [by apply Forall_singleton|constructor].
Qed.
Lemma forwarding_hands input : Forall (fun c => match c with
    | CallSend envelope raw => envelope = forward_envelope api_username input /\ forwarded_by input raw
    | CallAppend _ raw flags keywords => flags = [Seen] /\ keywords = [] /\ forwarded_by input raw
    | _ => True end) (forwarding input).1.
Proof.
  unfold forward. apply hands_bind; [by intros []|constructor|]. intros [] _. apply hands_bind; [by intros []|constructor|].
  intros [] Hv. apply hands_bind; [by intros []|constructor|]. intros comment Hc. apply hands_bind; [by intros []|constructor|].
  intros smtp _. apply hands_bind; [by intros []|by repeat constructor|]. intros original Ho.
  apply hands_bind; [by intros []|constructor|]. intros [] Hl%ensure_ok%Z.leb_le. cbv zeta.
  apply hands_bind; [by intros []|constructor|]. intros raw Hr.
  assert (Hby : forwarded_by input raw).
  { split; [done|]. exists comment, original. split; [done|]. split; [|by split].
    cbn in Ho. destruct (api_fetch_body _ _) as [bytes|e]; [by injection Ho as ->|done]. }
  apply calls_bind; [by apply Forall_singleton|]. intros status _. apply calls_bind; [|constructor].
  unfold append_sent_copy. cbv zeta. destruct (folder_name_new _); [by apply Forall_singleton|constructor].
Qed.

(** C13: blind recipients are delivered to and never written down.  For every
    list of blind recipients, the bytes send_email and forward hand to the
    relay and keep as the sent copy are those of the same call without any,
    while the envelope names every To, Cc and Bcc address, in order; a draft
    sends nothing, is marked for review, and keeps its Bcc header. *)
Theorem blind_recipients_hidden input finput bcc :
  let with_bcc b := mkCompose (ci_to input) (ci_cc input) b (ci_subject input) (ci_body_text input) (ci_body_html input)
    (ci_attachments input) (ci_in_reply_to_uid input) (ci_in_reply_to_folder input) in
  let forward_with b := mkForward (fi_folder finput) (fi_uid finput) (fi_to finput) (fi_cc finput) b (fi_comment finput) in
  Forall (fun c =>
    (forall raw, handed_out c = Some raw ->
       exists cs built, building api_username (with_bcc None) false = (cs, Ok built) /\ raw = bm_raw built) /\
    (forall envelope raw, c = CallSend envelope raw ->
       env_to envelope = addresses (recipients (ci_to input) (ci_cc input) bcc))) (sending (with_bcc bcc)).1 /\
  Forall (fun c =>
    (forall raw, handed_out c = Some raw -> exists comment original,
       validate_comment (fi_comment finput) = Ok comment /\ api_fetch_body (fi_folder finput) (fi_uid finput) = Ok original /\
       forwarded api_username (fi_to finput) (fi_cc finput) (forwarded_subject (extract_subject mail_parser original))
         comment original (extract_threading_headers (parsed_mail mail_parser original)) = Ok raw) /\
    (forall envelope raw, c = CallSend envelope raw ->
       env_to envelope = addresses (recipients (fi_to finput) (fi_cc finput) bcc))) (forwarding (forward_with bcc)).1 /\
  Forall (fun c => match c with
    | CallSend _ _ => False
    | CallAppend _ raw flags keywords => flags = [Draft] /\ keywords = [lit "$PendingReview"] /\
        exists b, write_to_vec b = Ok raw /\ b_bcc b = nonempty_addresses bcc
    | _ => True end) (drafting (with_bcc bcc)).1.
Proof.
  cbv zeta. split; [|split].
  - eapply Forall_impl; [apply sending_hands|]. cbv beta. intros c Hc. split.
    + intros raw Hr. assert (Hb : built_by (mkCompose (ci_to input) (ci_cc input) bcc (ci_subject input) (ci_body_text input)
        (ci_body_html input) (ci_attachments input) (ci_in_reply_to_uid input) (ci_in_reply_to_folder input)) false raw).
      { destruct c; try done; injection Hr as ->; tauto. }
      destruct Hb as (_ & cs & built & Hb & ->). by exists cs, built.
    + intros envelope raw ->. destruct Hc as [-> _]. cbn. unfold recipients, addresses. by rewrite !map_app.
  - eapply Forall_impl; [apply forwarding_hands|]. cbv beta. intros c Hc. split.
    + intros raw Hr. assert (Hb : forwarded_by (mkForward (fi_folder finput) (fi_uid finput) (fi_to finput) (fi_cc finput) bcc
        (fi_comment finput)) raw) by (destruct c; try done; injection Hr as ->; tauto).
      destruct Hb as (_ & comment & original & Hv & Ho & _ & Hf). by exists comment, original.
    + intros envelope raw ->. destruct Hc as [-> _]. cbn. unfold recipients, addresses. by rewrite !map_app.
  - eapply Forall_impl; [apply drafting_hands|]. cbv beta. intros c Hc. destruct c as [| |envelope raw|folder raw flags keywords]; try done.
    destruct Hc as (-> & -> & _ & cs & built & Hb & ->). split; [done|]. split; [done|].
    apply building_spec in Hb as (b & reads & Hw & Hset & _). exists b. split; [done|]. apply Hset.
Qed.

(** ** Limits and headers *)

Definition all_addresses (b : MessageBuilder) : list AddressInput :=
  builder_addresses (b_to b) ++ from_option builder_addresses [] (b_cc b) ++ from_option builder_addresses [] (b_bcc b).

(** A message with at most [budget] bytes of text and parts, none over [max_part]. *)
Record within (max_part budget : Z) (b : MessageBuilder) : Prop := {
  w_recipients : builder_addresses (b_to b) <> [] /\ count (all_addresses b) <= 100;
  w_subject : str_len (b_subject b) <= 1000;
  w_parts : count (b_attachments b) <= 20 /\ Forall (fun p => count (mp_bytes p) <= max_part) (b_attachments b);
  w_total : str_len (b_text_body b) + total_bytes (b_attachments b) <= budget;
  w_references : (length (opt_list (b_references b)) <= 50)%nat }.

Lemma builder_addresses_all l : builder_addresses (addresses_to_builder l) = l.
Proof. by destruct l as [|a [|b l]]. Qed.
Lemma nonempty_addresses_all o : from_option builder_addresses [] (nonempty_addresses o) = opt_list o.
Proof. destruct o as [[|a l]|]; [done| |done]. apply builder_addresses_all. Qed.

Lemma all_addresses_of from input include_bcc b : sets_headers from input include_bcc b ->
  all_addresses b = ci_to input ++ opt_list (ci_cc input) ++ (if include_bcc then opt_list (ci_bcc input) else []).
Proof.
  intros Hs. unfold all_addresses. rewrite (sh_to _ _ _ _ Hs), (sh_cc _ _ _ _ Hs), (sh_bcc _ _ _ _ Hs).
  rewrite builder_addresses_all, nonempty_addresses_all. destruct include_bcc; [|done]. by rewrite nonempty_addresses_all.
Qed.
Lemma all_addresses_sub from input include_bcc b : sets_headers from input include_bcc b ->
  all_addresses b ⊆ recipients (ci_to input) (ci_cc input) (ci_bcc input) /\
  count (all_addresses b) <= count (recipients (ci_to input) (ci_cc input) (ci_bcc input)).
Proof.
  intros Hs. rewrite (all_addresses_of _ _ _ _ Hs), recipients_count. unfold recipients, count. split.
  - destruct include_bcc; set_solver.
  - rewrite !length_app. destruct include_bcc; cbn; lia.
Qed.

Lemma builder_of_forward input raw : forwarded_by input raw ->
  exists comment original b, validate_comment (fi_comment input) = Ok comment /\ count original <= MAX_FORWARD_ORIGINAL_BYTES /\
    write_to_vec b = Ok raw /\ b_to b = addresses_to_builder (fi_to input) /\ b_cc b = nonempty_addresses (fi_cc input) /\
    b_bcc b = None /\ b_subject b = forwarded_subject (extract_subject mail_parser original) /\ b_text_body b = comment /\
    b_attachments b = [mkMimePart (lit "message/rfc822") None (lit "forwarded.eml") original] /\
    (length (opt_list (b_references b)) <= MAX_REFERENCES)%nat.
Proof.
  intros (_ & comment & original & Hc & _ & Hl & Hf). unfold build_forward_message in Hf. cbv zeta in Hf.
  set (b0 := mkBuilder _ _ _ _ _ _ _ _ _ _ _) in Hf.
  set (b1 := match th_message_id _ with Some _ => _ | None => _ end) in Hf.
  exists comment, original, (push_parts [mkMimePart (lit "message/rfc822") None (lit "forwarded.eml") original] b1).
  assert (Hsame : b_to b1 = b_to b0 /\ b_cc b1 = b_cc b0 /\ b_bcc b1 = b_bcc b0 /\ b_subject b1 = b_subject b0 /\
    b_text_body b1 = b_text_body b0 /\ b_attachments b1 = [] /\ (length (opt_list (b_references b1)) <= MAX_REFERENCES)%nat).
  { subst b1. destruct (th_message_id _) as [[|c m]|]; split_and!; try done; try apply cap_references_length; cbn; lia. }
  destruct Hsame as (E1 & E2 & E3 & E4 & E5 & E6 & E7).
  cbn [push_parts b_to b_cc b_bcc b_subject b_text_body b_attachments b_references].
  rewrite E1, E2, E3, E4, E5, E6. split_and!; try done. by destruct (write_to_vec _); [injection Hf as ->|].
Qed.

Lemma forwarded_subject_clean original :
  str_len (forwarded_subject original) <= MAX_SUBJECT_LEN /\
  Forall (fun c => is_control c = false) (forwarded_subject original) /\
  exists rest, forwarded_subject original = lit "Fwd:" ++ rest.
Proof.
  unfold forwarded_subject. set (kept := List.filter _ _). set (cleaned := trim kept). cbv zeta.
  assert (Hk : Forall (fun c => is_control c = false) cleaned).
  { apply Forall_forall. intros c Hc. assert (Hin : c ∈ kept).
    { subst cleaned. unfold trim, trim_matches, trim_end_matches, trim_start_matches in Hc.
      apply list_elem_of_In, in_rev, list_elem_of_In in Hc.
      destruct (drop_while_suffix is_whitespace (rev (drop_while is_whitespace kept))) as (p1 & E1 & _).
      destruct (drop_while_suffix is_whitespace kept) as (p2 & E2 & _).
      rewrite E2. apply elem_of_app. right. apply list_elem_of_In, in_rev. rewrite E1. apply in_or_app. right.
      by apply list_elem_of_In. }
    apply list_elem_of_In, List.filter_In in Hin as [_ Hn]. by apply negb_true_iff. }
  set (subject := match cleaned with [] => _ | _ => _ end).
  assert (Hs : Forall (fun c => is_control c = false) subject /\ exists rest, subject = lit "Fwd:" ++ rest).
  { subst subject. destruct cleaned as [|c cleaned]; split.
    - by repeat constructor.
    - by exists [].
    - apply Forall_app. split; [by repeat constructor|done].
    - by exists (32 :: c :: cleaned). }
  destruct Hs as [Hc [rest Er]]. destruct (Z.leb_spec (str_len subject) MAX_SUBJECT_LEN) as [Hl|Hl].
  - split; [done|]. split; [done|]. by exists rest.
  - split; [by apply char_prefix_within|]. split.
    + destruct (char_prefix_prefix MAX_SUBJECT_LEN subject) as [k Hk']. rewrite Hk' in Hc. by apply Forall_app in Hc as [? _].
    + rewrite Er, char_prefix_keeps by (vm_compute; discriminate). by eexists.
Qed.

(** C22: no composed message outgrows its limits.  Whatever bytes a handler
    hands to the relay or to APPEND are those of a message with at least one
    recipient and at most 100, a subject of at most 1000 bytes, at most 50
    references, 20 parts and 1 MiB of text, which in a forward is the comment.
    A draft or a mail has at most 10 MiB in a part and 25 MiB in its text, the
    HTML it was given and its parts together; a forward has at most 25 MiB in
    its one part, the original. *)
Theorem composed_within_limits input finput :
  Forall (fun c => forall raw, handed_out c = Some raw -> exists b, write_to_vec b = Ok raw /\ str_len (b_text_body b) <= 1024 * 1024 /\
    within (10 * 1024 * 1024)
      (25 * 1024 * 1024 - match html_of input with Some h => str_len h | None => 0 end) b)
    ((sending input).1 ++ (drafting input).1) /\
  Forall (fun c => forall raw, handed_out c = Some raw -> exists b, write_to_vec b = Ok raw /\ str_len (b_text_body b) <= 1024 * 1024 /\
    within (25 * 1024 * 1024) (26 * 1024 * 1024) b) (forwarding finput).1.
Proof.
  assert (Hby : forall include_bcc raw, built_by input include_bcc raw -> exists b, write_to_vec b = Ok raw /\ str_len (b_text_body b) <= 1024 * 1024 /\
    within MAX_ATTACHMENT_BYTES (MAX_TOTAL_MESSAGE_BYTES - match html_of input with Some h => str_len h | None => 0 end) b).
  { intros include_bcc raw (Hv%validate_compose_ok & cs & built & Hb & ->).
    apply building_spec in Hb as (b & reads & Hw & Hs & Hat & _ & Hreads). destruct (Hreads Hv) as (Hf & Hl & Ht).
    exists b. split; [done|]. destruct (all_addresses_sub _ _ _ _ Hs) as [_ Hcount]. split.
    { rewrite (sh_text _ _ _ _ Hs). apply (vc_text _ Hv). }
    split.
    - split; [|pose proof (vc_recipients _ Hv); unfold MAX_RECIPIENTS in *; lia]. rewrite (sh_to _ _ _ _ Hs), builder_addresses_all.
      intros E. pose proof (vc_to _ Hv). by rewrite E in *.
    - rewrite (sh_subject _ _ _ _ Hs). apply (vc_subject _ Hv).
    - rewrite Hat. split; [|by apply Forall_map]. unfold count. rewrite length_map, <- (Forall2_length _ _ _ Hf).
      apply (vc_attachments _ Hv).
    - rewrite (sh_text _ _ _ _ Hs), Hat. lia.
    - apply (sh_references _ _ _ _ Hs). }
  split.
  - apply Forall_app. split; [eapply Forall_impl; [apply sending_hands|]|eapply Forall_impl; [apply drafting_hands|]];
      cbv beta; intros c Hc raw Hr; destruct c; try done; injection Hr as ->; eapply Hby; apply Hc.
  - eapply Forall_impl; [apply forwarding_hands|]. cbv beta. intros c Hc raw Hr.
    assert (Hf : forwarded_by finput raw) by (destruct c; try done; injection Hr as ->; tauto).
    destruct (validate_recipients_ok _ _ _ (proj1 Hf)) as (Hn & _). pose proof (recipient_to _ _ _ (proj1 Hf)) as Hto.
    apply builder_of_forward in Hf as (comment & original & b & Hcm & Hl & Hw & E1 & E2 & E3 & E4 & E5 & E6 & E7).
    exists b. split; [done|].
    assert (Ht : str_len comment <= MAX_COMPOSE_BODY_BYTES).
    { unfold validate_comment in Hcm. destruct (fi_comment finput) as [t|]; [|injection Hcm as <-; cbn; unfold MAX_COMPOSE_BODY_BYTES; lia].
      destruct (Z.ltb_spec MAX_COMPOSE_BODY_BYTES (str_len t)); [done|]. destruct (existsb _ _); [done|]. injection Hcm as ->. lia. }
    split; [rewrite E5; exact Ht|]. split; [| | | |done].
    + unfold all_addresses. rewrite E1, E2, E3, builder_addresses_all, nonempty_addresses_all. split; [done|].
      rewrite recipients_count in Hn. unfold count in *. cbn. rewrite app_nil_r, length_app. unfold MAX_RECIPIENTS in *. lia.
    + rewrite E4. apply forwarded_subject_clean.
    + rewrite E6. split; [done|]. by apply Forall_singleton.
    + rewrite E5, E6. cbn [total_bytes foldr mp_bytes]. unfold MAX_FORWARD_ORIGINAL_BYTES, MAX_COMPOSE_BODY_BYTES in *. lia.
Qed.

(** A part made from an attachment: its name is one path component, and what
    the caller wrote is checked. *)
Definition safe_part (att : AttachmentInput) (p : MimePart) : Prop :=
  ~ 47 ∈ mp_filename p /\ mp_name p = Some (mp_filename p) /\
  (is_Some (at_filename att) -> header_text header_breaks (mp_filename p)) /\
  (is_Some (at_content_type att) -> exists ty sub, mp_type p = ty ++ [47] ++ sub /\ token ty /\ token sub).

Lemma part_safe att read : checked_attachment att -> read_of att read -> safe_part att (part_of read).
Proof.
  intros [Hname Htype] [En Et]. unfold safe_part. cbn. rewrite En. unfold attachment_filename.
  assert (Hatt : forall s : list Z, (forall c, c ∈ s -> c ∈ lit "attachment") -> header_text header_breaks s /\ ~ 47 ∈ s).
  { intros s Hs. split; [apply Forall_forall; intros c Hc Hb|intros Hc]; apply Hs in Hc; vm_compute in Hc; set_solver. }
  split_and!; [|done| |].
  - destruct (path_file_name _) as [n|] eqn:E; cbn; [by apply (file_name_plain _ _ E)|]. by apply Hatt.
  - intros [name Ename]. rewrite Ename. cbn. destruct (path_file_name name) as [n|] eqn:E; cbn; [|by apply Hatt].
    specialize (Hname name Ename). unfold header_text in *. rewrite Forall_forall in Hname. apply Forall_forall.
    intros c Hc. apply Hname. by apply (file_name_chars name n).
  - intros [ct Ect]. rewrite Et. unfold attachment_content_type. rewrite Ect. by apply Htype.
Qed.

Lemma parts_safe atts reads : Forall checked_attachment atts -> Forall2 read_of atts reads ->
  Forall2 safe_part atts (map part_of reads).
Proof.
  intros Hc Hf. induction Hf as [|att read atts reads Hr Hf IH]; [constructor|]. apply Forall_cons in Hc as [Ha Hc].
  constructor; [by apply part_safe|by apply IH].
Qed.

(** C23: nothing a caller writes breaks out of its header.  In every message
    handed out the addresses and display names have no line break, NUL or
    angle bracket and the subject no line break or NUL; the name of a part is
    one path component, free of those characters when the caller chose it, and
    a content type the caller chose is two tokens around a slash.  A forward's
    subject, taken from a hostile message, begins with Fwd: and has no control
    character at all. *)
Theorem composed_headers_safe input finput :
  Forall (fun c => forall raw, handed_out c = Some raw -> exists b, write_to_vec b = Ok raw /\
    Forall safe_address (all_addresses b) /\ header_text line_breaks (b_subject b) /\
    Forall2 safe_part (opt_list (ci_attachments input)) (b_attachments b))
    ((sending input).1 ++ (drafting input).1) /\
  Forall (fun c => forall raw, handed_out c = Some raw -> exists b, write_to_vec b = Ok raw /\
    Forall safe_address (all_addresses b) /\ Forall (fun c => is_control c = false) (b_subject b) /\
    (exists rest, b_subject b = lit "Fwd:" ++ rest) /\
    Forall (fun p => mp_type p = lit "message/rfc822" /\ mp_filename p = lit "forwarded.eml") (b_attachments b))
    (forwarding finput).1.
Proof.
  assert (Hby : forall include_bcc raw, built_by input include_bcc raw -> exists b, write_to_vec b = Ok raw /\
    Forall safe_address (all_addresses b) /\ header_text line_breaks (b_subject b) /\
    Forall2 safe_part (opt_list (ci_attachments input)) (b_attachments b)).
  { intros include_bcc raw (Hv%validate_compose_ok & cs & built & Hb & ->).
    apply building_spec in Hb as (b & reads & Hw & Hs & Hat & _ & Hreads). destruct (Hreads Hv) as (Hf & _).
    exists b. split; [done|]. split; [|split].
    - pose proof (vc_addresses _ Hv) as Ha. rewrite Forall_forall in *. intros a Hin. apply Ha.
      by apply (all_addresses_sub _ _ _ _ Hs).
    - rewrite (sh_subject _ _ _ _ Hs). apply (vc_subject _ Hv).
    - rewrite Hat. pose proof (proj2 (vc_attachments _ Hv)) as Hc. by apply parts_safe. }
  split.
  - apply Forall_app. split; [eapply Forall_impl; [apply sending_hands|]|eapply Forall_impl; [apply drafting_hands|]];
      cbv beta; intros c Hc raw Hr; destruct c; try done; injection Hr as ->; eapply Hby; apply Hc.
  - eapply Forall_impl; [apply forwarding_hands|]. cbv beta. intros c Hc raw Hr.
    assert (Hf : forwarded_by finput raw) by (destruct c; try done; injection Hr as ->; tauto).
    destruct (validate_recipients_ok _ _ _ (proj1 Hf)) as (_ & Ha).
    apply builder_of_forward in Hf as (comment & original & b & _ & _ & Hw & E1 & E2 & E3 & E4 & _ & E6 & _).
    exists b. split; [done|]. destruct (forwarded_subject_clean (extract_subject mail_parser original)) as (_ & Hc1 & Hc2).
    rewrite E4, E6. split; [|split; [done|split; [done|by apply Forall_singleton]]].
    unfold all_addresses. rewrite E1, E2, E3, builder_addresses_all, nonempty_addresses_all. cbn. rewrite app_nil_r.
    unfold recipients in Ha. rewrite !Forall_app in Ha. apply Forall_app. tauto.
Qed.
End handlers.

(** ** Deliveries over the account's own relay *)

(** C12: an answer about a delivery is true.  send_email and forward hand at
    most one message to the SMTP client, only after everything that can be
    refused was read and checked.  They answer with success exactly when every
    address parsed and the client's one dialog with the relay ended in a
    positive reply, whatever becomes of the copy for the Sent folder, whose fate
    the answer states.  They answer with an error, and keep no copy, otherwise:
    when nothing was handed to the client; when it refused an address, with
    ERR_SMTP_PROTOCOL and no dialog opened; on a negative reply, the relay's
    refusal, with ERR_AUTH for the statuses 432, 534, 535 and 538 and
    ERR_SMTP_PROTOCOL for others; and when no usable reply came.  Then the fate
    is unknown, the relay may have accepted the message: the code is ERR_TIMEOUT
    for the deadline and lettre's timeouts, ERR_TLS, ERR_CONNECTION_LOST or
    ERR_INTERNAL for failures of the transport, and ERR_SMTP_PROTOCOL, as for a
    refusal, for a reply lettre cannot read. *)
Theorem delivery_reported `{UnicodeLib, DomainLib} registrable parse_document ammonia_clean mail_parser sniff_mime write_to_vec pid nanos
    username special fetch_body append_server max_append_bytes {address : Type} (parse_address : rstr -> result rstr address) relay
    sys open_dir download_dir panicked input finput :
  let api := account_api username special fetch_body append_server max_append_bytes parse_address relay sys open_dir download_dir panicked in
  truthful (H1 := api) parse_address relay se_sent se_sent_copy
    (send_email (H1 := api) registrable parse_document ammonia_clean mail_parser sniff_mime write_to_vec pid nanos input) /\
  truthful (H1 := api) parse_address relay fw_sent fw_sent_copy (forward (H1 := api) mail_parser write_to_vec pid nanos finput).
Proof. split; [by apply send_email_truthful|by apply forward_truthful]. Qed.

(** ** At concrete inputs *)

(** Compatibility normalisation of the fullwidth angle brackets. *)
Definition wide_bracket (c : Z) : Z := if c =? 0xFF1C then 60 else if c =? 0xFF1E then 62 else c.
#[local] Instance bracket_unicode : UnicodeLib.
Proof.
  refine {| decode := fun bytes _ => utf8_decode bytes; normalize_nfkc := map wide_bracket; graphemes := map (fun c => [c]) |}.
  - induction s; cbn; congruence.
  - intros s. apply Forall_forall. by intros g (c & -> & _)%list_elem_of_fmap.
  - intros s Hs. induction Hs as [|c s Hc Hs IH]; [done|]. cbn. rewrite IH. f_equal. unfold wide_bracket.
    rewrite (proj2 (Z.eqb_neq _ _)), (proj2 (Z.eqb_neq _ _)) by lia. done.
Defined.
#[local] Instance ascii_domains : DomainLib := {|
  script := fun _ => Latin; domain_to_ascii := Some; domain_to_unicode := fun s => s; url_links := fun _ => [];
  confusables := fun _ => None |}.

Definition original_mail : Message :=
  mkMessage None None None None (Some (lit "Hello" ++ [13; 10] ++ lit "Bcc: eve@x")) None
    (Some (lit "a@b" ++ [0xFF1E; 0xFF1C] ++ lit "c@d")) HEmpty HEmpty HEmpty HEmpty HEmpty [] [] [] [] [].

(** The brackets are stripped before the text is normalised, and normalising
    brings them back: one hostile Message-ID becomes two in the references of a
    reply. *)
Lemma angle_brackets_return :
  th_message_id (extract_threading_headers (Some original_mail)) = Some (lit "a@b><c@d").
Proof. vm_compute. reflexivity. Qed.

(** The default name of an attachment is the last component of its path, and
    nothing checks it as a chosen name is checked. *)
Lemma path_name_unchecked :
  let named := mkAttachmentInput (lit "/dl/a" ++ [13; 10] ++ lit "b") None None in
  let chosen := mkAttachmentInput (lit "/dl/f") (Some (lit "a" ++ [13; 10] ++ lit "b")) None in
  validate_attachments [named] = Ok tt /\ attachment_filename named = lit "a" ++ [13; 10] ++ lit "b" /\
  is_ok (validate_attachments [chosen]) = false.
Proof. vm_compute. auto. Qed.

(** A relay that accepts, an IMAP server that refuses the copy. *)
#[local] Instance sample_account_api : ComposeApi :=
  account_api (lit "ann@x.org") use_map_empty (fun _ _ => Ok (lit "raw"))
    (fun _ _ _ => Err IConnectionLost) 1000
    (fun a => if existsb (Z.eqb 64) a then Ok a else Err (lit "missing @"))
    (Some (fun '(_, to) _ => if bool_decide (lit "bad@x" ∈ to) then Failed (mkLettre false false (Some 550) false false [] (lit "no" ++ [10] ++ lit "such user"))
             else Replied (lit "250") [lit "ok"]))
    linked_system (fun _ => Some sample_read_dir) (lit "/dl") false.

Definition sample_write (b : MessageBuilder) : result rstr (list Z) :=
  Ok (b_subject b ++ [10] ++ concat (addresses (all_addresses b)) ++ concat (map mp_bytes (b_attachments b))).
Definition sample_input (to : rstr) : ComposeInput :=
  mkCompose [mkAddress None to] None (Some [mkAddress None (lit "blind@x")]) (lit "Hi") (lit "text") None
    (Some [mkAttachmentInput (lit "/dl/sub/f") (Some (lit "report.pdf")) None]) None None.
Abbreviation send_sample := (send_email (fun _ => None) (fun _ => []) (fun s => s) (fun _ => Parsed original_mail) (fun _ => None) sample_write 7 9).

(** The sent copy fails without failing the call; a refusal does, with the
    relay's words on one line; an address that does not parse reaches nobody. *)
Example send_sample_runs :
  send_sample (sample_input (lit "bob@x")) =
    ([CallReadFile (lit "/dl/sub/f") MAX_ATTACHMENT_BYTES;
      CallSend (mkEnvelope (lit "ann@x.org") [lit "bob@x"; lit "blind@x"]) (lit "Hi" ++ [10] ++ lit "bob@x" ++ [5; 6]);
      CallAppend (lit "Sent") (lit "Hi" ++ [10] ++ lit "bob@x" ++ [5; 6]) [Seen] []],
     Ok (meta_only (mkSendMeta true (m_message_id original_mail) (lit "delivered")
           (copy_failed (lit "Sent") EConnectionLost) [mkSummary (lit "report.pdf") 2]))) /\
  (send_sample (sample_input (lit "bad@x"))).2 = Err (RSmtp ESmtpProtocol (lit "SMTP send rejected: no such user")) /\
  (send_sample (sample_input (lit "nobody"))).2 =
    Err (RSmtp ESmtpProtocol (lit "SMTP send rejected: invalid recipient address: missing @")).
Proof. vm_compute. auto. Qed.

(** A forward's subject keeps no line break of the message it forwards. *)
Example forwarded_subject_flat : forwarded_subject (m_subject original_mail) = lit "Fwd: HelloBcc: eve@x".
Proof. vm_compute. reflexivity. Qed.
