(* ===== verification/Connection.v ===== *)
(** * The connection's calls (crates/rimap-imap/src/connection/dispatch.rs)

    Each method of [Connection] hands its operation to [with_session], under a
    name and with an idempotency that decides whether it may be sent again.
    Here the operations of the other files run on the cached session of
    [Session]: what a caller is told and what has reached the server by then,
    whatever becomes of the session meanwhile. *)

From Stdlib Require Import ZArith Lia Sorted.
From stdpp Require Import base option list strings sets gmap.
From S2P Require Import Prelude RustStr Tools Errors ImapErrors Names UidSet Fetch Session Mailbox Folders SearchKey SearchTool Smtp MailTools.
Local Open Scope Z_scope.

(** ** The errors of the client library *)

Inductive io_kind := ConnectionReset | ConnectionAborted | BrokenPipe | UnexpectedEof | NotConnected | OtherKind.
(** async-imap's [Error]: the variants told apart, its text, and the errors of
    its source chain, with the kind of those that are [io::Error]s. *)
Inductive async_variant := AsyncConnectionLost | AsyncIo (kind : io_kind) | AsyncNo | AsyncOther.
Record async_error := mkAsync { ay_variant : async_variant; ay_text : rstr; ay_sources : list (option io_kind) }.

(* [crates/rimap-imap/src/ops/folders.rs:265-274] is_dead_tcp_kind *)
Definition is_dead_tcp_kind (kind : io_kind) : bool := match kind with OtherKind => false | _ => true end.

(* [crates/rimap-imap/src/ops/folders.rs:226-258] is_connection_lost *)
Definition is_connection_lost (err : async_error) : bool :=
  match ay_variant err with
  | AsyncConnectionLost => true
  | v => (match v with AsyncIo kind => is_dead_tcp_kind kind | _ => false end)
         || existsb (fun cause => match cause with Some kind => is_dead_tcp_kind kind | None => false end) (ay_sources err)
  end.

(* [crates/rimap-imap/src/ops/folders.rs:218-224] map_err *)
Definition map_async_err (err : async_error) : ImapError :=
  if is_connection_lost err then IConnectionLost else IProtocol (ay_text err).

(* [crates/rimap-imap/src/ops/folders.rs:169-177] map_select_err *)
Definition map_select_err (err : async_error) (folder : rstr) : ImapError :=
  match ay_variant err with AsyncNo => IFolderNotFound folder | _ => map_async_err err end.

(** ** SELECT and SEARCH *)

(* [crates/rimap-imap/src/types.rs:152-168] SelectedFolder *)
Record SelectedFolder := mkSelected {
  sf_name : rstr; sf_exists : Z; sf_recent : Z; sf_uid_validity : option Z; sf_uid_next : option Z; sf_read_only : bool }.
Record mailbox_entry := mkMailboxEntry { mb_exists : Z; mb_recent : Z; mb_uid_validity : option Z; mb_uid_next : option Z }.

Section ops.
(** The server's answers to SELECT or EXAMINE and to UID SEARCH. *)
Context (on_select : rstr -> bool -> result async_error mailbox_entry) (on_search : rstr -> result async_error (list Z)).

(* [crates/rimap-imap/src/ops/folders.rs:130-155] select *)
Definition select_op (folder : rstr) (read_only : bool) : result ImapError SelectedFolder :=
  _ ← validate_server_folder_name folder;
  mailbox ← map_err (fun e => map_select_err e folder) (on_select folder read_only);
  Ok (mkSelected folder (mb_exists mailbox) (mb_recent mailbox) (mb_uid_validity mailbox) (mb_uid_next mailbox) read_only).

(* [crates/rimap-imap/src/ops/search.rs:18-25] SearchOutcome *)
Record SearchOutcome := mkSearchOutcome { so_uids : list Z; so_uidvalidity : option Z }.

(* [crates/rimap-imap/src/ops/search.rs:27-51] search *)
Definition search_op (folder : rstr) (query : SearchQuery) : result ImapError SearchOutcome :=
  selected ← select_op folder true;
  key ← search_key_text query;
  uids ← map_err map_async_err (on_search key);
  Ok (mkSearchOutcome (sorted_uids uids) (sf_uid_validity selected)).

(* [crates/rimap-imap/src/ops/search.rs:91-116] thread_related *)
Definition thread_related_op (folder : rstr) (own_message_id : option rstr) (ancestor_ids : list rstr) : result ImapError SearchOutcome :=
  key ← thread_key own_message_id ancestor_ids;
  match key with
  | None => selected ← select_op folder true; Ok (mkSearchOutcome [] (sf_uid_validity selected))
  | Some key => search_op folder (Raw key)
  end.
End ops.

(** ** A call on the cached session *)

(** An attempt may be cut once the server has given some of its replies: the
    command's deadline elapses, or the caller drops the future. *)
Inductive cut := CutElapses | CutDrops.
Record attempt_env := mkAttemptEnv {
  at_lock_elapses : bool; at_connects : connect_end; at_cut : option (nat * cut); at_poisoned : bool }.

(** What the server answers on a session; conversations take their replies from
    a list, the other operations ask. *)
Record session_server := mkSessionServer {
  ss_replies : list reply; ss_fetch : Fetch.server; ss_list : rstr -> result ImapError (list (result ImapError list_entry));
  ss_status : rstr -> rstr -> result ImapError status_entry; ss_select : rstr -> bool -> result async_error mailbox_entry;
  ss_search : rstr -> result async_error (list Z); ss_append : rstr -> option rstr -> list Z -> result ImapError unit;
  ss_create : rstr -> result ImapError unit; ss_delete : rstr -> result ImapError unit; ss_rename : rstr -> rstr -> result ImapError unit }.

(** What one call meets: its two attempts, what others do to the connection
    between them, and the servers of the sessions. *)
Record network := mkNetwork {
  nw_first : attempt_env; nw_second : attempt_env; nw_between : conn_state -> conn_state; nw_server : session -> session_server }.

Definition ends {A} (e : attempt_env) (r : result ImapError A) : body_end A :=
  match at_cut e with None => Returns r | Some (_, CutElapses) => BodyElapses | Some (_, CutDrops) => BodyDropped end.
Definition section_of {A} (e : attempt_env) (body : session -> result ImapError A) : section_env A :=
  mkEnv A (at_lock_elapses e) (at_connects e) (fun s => ends e (body s)) (at_poisoned e).
(** The replies a cut attempt gets. *)
Definition heard (e : attempt_env) (rs : list reply) : list reply :=
  match at_cut e with None => rs | Some (k, _) => take k rs end.

Abbreviation call_report A := (conn_state * list (section_report A))%type.
(** What the caller is told; nothing if it left. *)
Definition told {A} (x : call_report A) : option (result ImapError A) := r ← last x.2; outcome r.

Section calls.
Context (nw : network) (max_fetch_body_bytes max_append_bytes : Z).
Implicit Types st : conn_state.

Definition on_session {A} (op : rstr) (i : Idempotency) (body : session_server -> result ImapError A) st : call_report A :=
  with_session op i (section_of (nw_first nw) (fun s => body (nw_server nw s))) (section_of (nw_second nw) (fun s => body (nw_server nw s)))
    (nw_between nw) st.
(** A conversation, on a session's own capabilities. *)
Definition converse {A} (op : rstr) (i : Idempotency) (c : ServerCapabilities -> conv A) st : call_report A :=
  let body e s := answered (c (capabilities s) (heard e (ss_replies (nw_server nw s)))) in
  with_session op i (section_of (nw_first nw) (body (nw_first nw))) (section_of (nw_second nw) (body (nw_second nw))) (nw_between nw) st.

(* [crates/rimap-imap/src/connection/dispatch.rs:201-209] Connection::list_folders *)
Definition list_folders (pattern : rstr) st : call_report (list Folder) :=
  on_session (lit "list") ReadOnly (fun srv => Folders.list_folders (ss_list srv pattern)) st.
(* [crates/rimap-imap/src/connection/dispatch.rs:221-229] Connection::list_folders_with_status *)
Definition list_folders_with_status (pattern : rstr) st : call_report (list (Folder * option FolderStatus)) :=
  on_session (lit "list_folders_with_status") ReadOnly (fun srv => list_with_status (ss_status srv) (ss_list srv pattern)) st.
(* [crates/rimap-imap/src/connection/dispatch.rs:236-245] Connection::status *)
Definition status (folder : rstr) (items : StatusItems) st : call_report FolderStatus :=
  on_session (lit "status") ReadOnly (fun srv => Folders.status (ss_status srv) folder items) st.
(* [crates/rimap-imap/src/connection/dispatch.rs:252-261] Connection::select *)
Definition select (folder : rstr) (read_only : bool) st : call_report SelectedFolder :=
  on_session (lit "select") ReadOnly (fun srv => select_op (ss_select srv) folder read_only) st.
(* [crates/rimap-imap/src/connection/dispatch.rs:271-280] Connection::search *)
Definition search (folder : rstr) (query : SearchQuery) st : call_report SearchOutcome :=
  on_session (lit "search") ReadOnly (fun srv => search_op (ss_select srv) (ss_search srv) folder query) st.
(* [crates/rimap-imap/src/connection/dispatch.rs:290-308] Connection::thread_related *)
Definition thread_related (folder : rstr) (own_message_id : option rstr) (ancestor_ids : list rstr) st : call_report SearchOutcome :=
  on_session (lit "thread_related") ReadOnly
    (fun srv => thread_related_op (ss_select srv) (ss_search srv) folder own_message_id ancestor_ids) st.
(* [crates/rimap-imap/src/connection/dispatch.rs:322-336] Connection::fetch *)
Definition fetch (folder : rstr) (uids : list Z) (spec : FetchSpec) (expected_uidvalidity : option Z) st
    : call_report (list FetchedMessage * option Z) :=
  on_session (lit "fetch") ReadOnly (fun srv => Fetch.fetch (ss_fetch srv) folder uids spec expected_uidvalidity) st.
(* [crates/rimap-imap/src/connection/dispatch.rs:399-427] Connection::fetch_body_with_limit *)
Definition fetch_body_with_limit (folder : rstr) (uid : Z) (expected_uidvalidity : option Z) (limit : Z) st : call_report (list Z) :=
  on_session (lit "fetch_body") ReadOnly
    (fun srv => Fetch.fetch_body_with_limit (ss_fetch srv) (ss_fetch srv) folder uid expected_uidvalidity limit) st.
(* [crates/rimap-imap/src/connection/dispatch.rs:370-383] Connection::fetch_body *)
Definition fetch_body (folder : rstr) (uid : Z) (expected_uidvalidity : option Z) st : call_report (list Z) :=
  fetch_body_with_limit folder uid expected_uidvalidity max_fetch_body_bytes st.

(* [crates/rimap-imap/src/connection/dispatch.rs:444-463] Connection::store_flags *)
Definition store_flags (folder : rstr) (uids : list Z) (flags : list Flag) (action : FlagAction) (expected : option Z) st
    : call_report (list Z * option Z) :=
  converse (lit "store") Mutating (fun _ => connection_store folder uids flags action expected) st.
(* [crates/rimap-imap/src/connection/dispatch.rs:487-508] Connection::move_messages *)
Definition move_messages (source_folder dest_folder : rstr) (uids : list Z) (expected : option Z) st : call_report MoveOutcome :=
  converse (lit "move") Mutating (fun caps => connection_move caps source_folder dest_folder uids expected) st.
(* [crates/rimap-imap/src/connection/dispatch.rs:524-539] Connection::append_message *)
Definition append_message (folder : rstr) (message : list Z) (flags : list Flag) (keywords : list rstr) st : call_report (option Z) :=
  on_session (lit "append") Mutating (fun srv => append_op (ss_append srv) folder message flags keywords max_append_bytes) st.
(* [crates/rimap-imap/src/connection/dispatch.rs:562-583] Connection::delete_message *)
Definition delete_message (folder : rstr) (uid : Z) (trash_folder : rstr) (expected : option Z) st : call_report (DeleteResult * option Z) :=
  converse (lit "delete_message") Mutating (fun caps => connection_delete caps folder uid trash_folder expected) st.
(* [crates/rimap-imap/src/connection/dispatch.rs:596-607] Connection::expunge *)
Definition expunge (folder : rstr) st : call_report (list Z * Z) :=
  converse (lit "expunge") Mutating (fun _ => connection_expunge folder) st.
(* [crates/rimap-imap/src/connection/dispatch.rs:616-621] Connection::create_folder *)
Definition create_folder (name : rstr) st : call_report unit :=
  on_session (lit "create_folder") Mutating (fun srv => Folders.create_folder (ss_create srv) name) st.
(* [crates/rimap-imap/src/connection/dispatch.rs:632-640] Connection::rename_folder *)
Definition rename_folder (old_name new_name : rstr) st : call_report unit :=
  on_session (lit "rename_folder") Mutating (fun srv => Folders.rename_folder (ss_rename srv) old_name new_name) st.
(* [crates/rimap-imap/src/connection/dispatch.rs:650-655] Connection::delete_folder *)
Definition delete_folder (name : rstr) st : call_report unit :=
  on_session (lit "delete_folder") Mutating (fun srv => Folders.delete_folder (ss_delete srv) name) st.
End calls.

(* [crates/rimap-imap/src/connection/mod.rs:641-648] Connection::capabilities *)
Definition cached_capabilities (st : conn_state) : ServerCapabilities :=
  match slot st with Some s => capabilities s | None => Unknown end.

(** ** One attempt, read back *)

Lemma attempt_shape {A} op (env : section_env A) st st' r : attempt op env st = (st', r) ->
  match ran_on r with
  | Some s => outcome r = body_result op (body env s)
  | None => forall a, outcome r <> Some (Ok a)
  end.
Proof.
  unfold attempt. destruct (lock_elapses env); [by intros [= _ <-]|]. destruct (take_poisoned st) as [st1 p].
  destruct (slot st1); [by intros [= _ <-]|]. destruct (connects env); by intros [= _ <-].
Qed.

Lemma ends_ok {A} op e (r : result ImapError A) a : body_result op (ends e r) = Some (Ok a) -> at_cut e = None /\ r = Ok a.
Proof. unfold ends. destruct (at_cut e) as [[k []]|]; cbn; [done..|]. by intros [= ->]. Qed.

(** An answer comes from an attempt that was not cut, on a session at a
    response boundary. *)
Lemma with_session_ok {A} op i e1 e2 (b1 b2 : session -> result ImapError A) between st a :
  no_stale_session st -> (forall st, no_stale_session st -> no_stale_session (between st)) ->
  told (with_session op i (section_of e1 b1) (section_of e2 b2) between st) = Some (Ok a) ->
  exists e b s, (e = e1 /\ b = b1 \/ i = ReadOnly /\ e = e2 /\ b = b2) /\ at_cut e = None /\ synced s = true /\ b s = Ok a.
Proof.
  intros Hst Hbet. unfold told, with_session. destruct (attempt op (section_of e1 b1) st) as [st1 r1] eqn:E1.
  destruct (attempt_invariant _ _ _ _ _ Hst E1) as [Hst1 Hs1]. apply attempt_shape in E1.
  assert (Hfirst : outcome r1 = Some (Ok a) -> exists e b s, (e = e1 /\ b = b1 \/ i = ReadOnly /\ e = e2 /\ b = b2) /\
    at_cut e = None /\ synced s = true /\ b s = Ok a).
  { intros Ho. destruct (ran_on r1) as [s|]; [|by destruct (E1 a)]. rewrite Ho in E1. symmetry in E1. apply ends_ok in E1 as [Hc Hb].
    exists e1, b1, s. split; [by left|]. split; [done|]. split; [by apply Hs1|done]. }
  destruct (outcome r1) as [o|] eqn:Eo; [|cbn; by rewrite Eo].
  destruct (should_reconnect i o) eqn:Er; [|cbn; rewrite Eo; exact Hfirst].
  destruct (attempt op (section_of e2 b2) (between st1)) as [st2 r2] eqn:E2. cbn. intros Ho.
  destruct (attempt_invariant _ _ _ _ _ (Hbet _ Hst1) E2) as [_ Hs2]. apply attempt_shape in E2.
  destruct (ran_on r2) as [s|]; [|by destruct (E2 a)]. rewrite Ho in E2. symmetry in E2. apply ends_ok in E2 as [Hc Hb].
  exists e2, b2, s. split; [right; by destruct i|]. split; [done|]. split; [by apply Hs2|done].
Qed.

(** What a reading call returns is one live session's.  A search returns the
    UIDs the server found for the query's key, ascending and without zero, with
    the UIDVALIDITY of the very folder selected for it; a fetched body fits its
    limit, and with an expected UIDVALIDITY comes from a folder that has it. *)
Theorem answers_from_one_session nw max st : no_stale_session st -> 0 <= max < u64_max ->
  (forall st, no_stale_session st -> no_stale_session (nw_between nw st)) ->
  (forall folder query out, told (search nw folder query st) = Some (Ok out) ->
     exists s key raw mb, synced s = true /\ search_key_text query = Ok key /\ ss_search (nw_server nw s) key = Ok raw /\
       ss_select (nw_server nw s) folder true = Ok mb /\ so_uidvalidity out = mb_uid_validity mb /\
       (NoDup raw -> Forall (fun u => 0 <= u) raw -> StronglySorted Z.lt (so_uids out) /\ forall u, u ∈ so_uids out <-> u ∈ raw /\ u <> 0)) /\
  (forall folder uid expected body, told (fetch_body nw max folder uid expected st) = Some (Ok body) ->
     Z.of_nat (length body) <= max /\ exists s stream, synced s = true /\
       uid_fetch (ss_fetch (nw_server nw s)) (to_decimal uid) (lit "BODY.PEEK[]") = Ok stream /\ body = bodies_of stream /\
       forall v, expected = Some v -> examine (ss_fetch (nw_server nw s)) folder = Ok (Some v)).
Proof.
  intros Hst Hmax Hbet. split.
  - intros folder query out (e & b & s & Hb & _ & Hs & Hout)%with_session_ok; [|done..]. assert (Ho : search_op (ss_select (nw_server nw s))
      (ss_search (nw_server nw s)) folder query = Ok out) by (destruct Hb as [[_ ->]|(_ & _ & ->)]; exact Hout). clear Hb Hout. revert Ho.
    unfold search_op, select_op. destruct (validate_server_folder_name folder); [|done]. cbn.
    destruct (ss_select _ folder true) as [mb|] eqn:Em; [|done]. cbn. destruct (search_key_text query) as [key|] eqn:Ek; [|done]. cbn.
    destruct (ss_search _ key) as [raw|] eqn:Er; [|done]. cbn. intros [= <-]. exists s, key, raw, mb.
    do 5 (split; [done|]). intros. by apply sorted_uids_spec.
  - intros folder uid expected body (e & b & s & Hb & _ & Hs & Hout)%with_session_ok; [|done..].
    assert (Ho : Fetch.fetch_body_with_limit (ss_fetch (nw_server nw s)) (ss_fetch (nw_server nw s)) folder uid expected max = Ok body)
      by (destruct Hb as [[_ ->]|(_ & _ & ->)]; exact Hout). apply fetch_body_ok in Ho as (Hv & Hlen & stream & Hf & ->); [|done].
    split; [done|]. exists s, stream. do 3 (split; [done|]). intros v Hexp. by apply Hv.
Qed.

(** ** A mutating call *)

Section mutating.
Context (nw : network) (partial : command -> Z -> bool) (unheard : command -> bool) (box : gmap Z bool).

(** What one conversation leaves behind, complete or cut: nothing was sent, or
    it ran on one session at a response boundary, with that session's
    capabilities and the replies it got, and the caller is told its answer
    unless it was cut. *)
Definition carried {A} (op : rstr) (c : ServerCapabilities -> conv A)
    (post : ServerCapabilities -> result ImapError A -> mailbox -> Prop) (x : call_report A) : Prop :=
  exists r, x.2 = [r] /\
    match ran_on r with
    | None => forall a, outcome r <> Some (Ok a)
    | Some s =>
        let rs := heard (nw_first nw) (ss_replies (nw_server nw s)) in
        let y := c (capabilities s) rs in
        synced s = true /\ post (capabilities s) (answered y) (replay partial unheard (sent y) rs (mkMailbox box ∅)) /\
        outcome r = match at_cut (nw_first nw) with
                    | None => Some (answered y)
                    | Some (_, CutElapses) => Some (Err (ITimeout op))
                    | Some (_, CutDrops) => None
                    end
    end.

Lemma converse_carried {A} op (c : ServerCapabilities -> conv A) (post : ServerCapabilities -> result ImapError A -> mailbox -> Prop) st :
  no_stale_session st ->
  (forall caps rs, post caps (answered (c caps rs)) (replay partial unheard (sent (c caps rs)) rs (mkMailbox box ∅))) ->
  carried op c post (converse nw op Mutating c st).
Proof.
  intros Hst Hpost. unfold carried, converse, with_session.
  match goal with |- context [attempt op ?env st] => destruct (attempt op env st) as [st1 r1] eqn:E1 end.
  exists r1. split.
  { destruct (outcome r1) as [o|]; [|done]. by destruct o as [|[]]. }
  destruct (attempt_invariant _ _ _ _ _ Hst E1) as [_ Hs]. apply attempt_shape in E1.
  destruct (ran_on r1) as [s|]; [|exact E1]. split; [by apply Hs|]. split; [apply Hpost|].
  rewrite E1. cbn [body section_of]. unfold ends. by destruct (at_cut (nw_first nw)) as [[k []]|].
Qed.

(** C4: mail survives whatever happens to a session.  However the lock, the
    lazy connect, a poisoned or stale session, the command's deadline or a
    dropped caller fall, and at whichever reply the server stops, a move and a
    delete each run on one session at most, never a second time; they run on a
    session with no unread response, and decide by what that very session
    advertised.  A message of the folder is still there or has a copy by then,
    unless the server has neither MOVE nor UIDPLUS and it was already marked
    \Deleted; this holds also when the library passes a NO or BAD to STORE or
    EXPUNGE for success (unheard).  A caller that is told of success: every
    named message has a copy, and exactly the named messages have left (with
    the sweep, if it says so) when the server has MOVE or no such refusal goes
    unheard; a delete within Trash has marked the message, under the same
    condition on refusals. *)
Theorem mail_survives_the_session st : no_stale_session st ->
  (forall src dst uids expected, uids <> [] -> Forall (fun u => 0 <= u) uids ->
     carried (lit "move") (fun caps => connection_move caps src dst uids expected) (fun caps => move_post unheard caps uids box)
       (move_messages nw src dst uids expected st)) /\
  (forall folder uid trash expected, 0 <= uid ->
     carried (lit "delete_message") (fun caps => connection_delete caps folder uid trash expected)
       (fun caps => delete_post unheard caps uid (eq_ignore_ascii_case folder trash) box)
       (delete_message nw folder uid trash expected st)).
Proof.
  intros Hst. split.
  - intros src dst uids expected Hne Hpos. apply (converse_carried _ _ (fun caps => move_post unheard caps uids box)); [done|]. intros caps rs.
    pose proof (move_triple partial unheard caps uids box Hne Hpos src dst expected rs _ eq_refl) as Ht.
    destruct (connection_move _ _ _ _ _ rs) as [[cs rs'] r]. apply Ht.
  - intros folder uid trash expected Hu.
    apply (converse_carried _ _ (fun caps => delete_post unheard caps uid (eq_ignore_ascii_case folder trash) box)); [done|]. intros caps rs.
    pose proof (delete_triple partial unheard caps uid box Hu folder trash expected rs _ eq_refl) as Ht.
    destruct (connection_delete _ _ _ _ _ rs) as [[cs rs'] r]. apply Ht.
Qed.
End mutating.

(** ** The interface of the mailbox tools *)

Section api.
(** When each call finds the connection, and what it meets; no caller that has
    left reads an answer. *)
Context (moment : imap_call -> network * conn_state).

Definition answer_at {A} (c : imap_call) (run : network -> conn_state -> call_report A) : result ImapError A :=
  let '(nw, st) := moment c in default (Err IConnectionLost) (told (run nw st)).

Lemma answer_at_converse {A} call op (c : ServerCapabilities -> conv A) a :
  answer_at call (fun nw => converse nw op Mutating c) = Ok a -> exists caps rs, answered (c caps rs) = Ok a.
Proof.
  unfold answer_at. destruct (moment call) as [nw st]. unfold told, converse, with_session.
  match goal with |- context [attempt op ?env st] => destruct (attempt op env st) as [st1 r1] eqn:E1 end.
  apply attempt_shape in E1. destruct (outcome r1) as [o|] eqn:Eo; [|cbn; by rewrite Eo].
  replace (should_reconnect Mutating o) with false by (by destruct o as [|[]]). cbn. rewrite Eo. cbn. intros ->.
  destruct (ran_on r1) as [s|]; [|by destruct (E1 a)]. symmetry in E1. apply ends_ok in E1 as [_ Ha]. by eexists _, _.
Qed.

(** The tools of [MailTools] run over the connection as it is. *)
Program Definition connection_api : ImapApi := {|
  api_store_flags f us fl act ex := answer_at (CallStore f us fl act ex) (fun nw => store_flags nw f us fl act ex);
  api_move_messages s d us ex := answer_at (CallMove s d us ex) (fun nw => move_messages nw s d us ex);
  api_delete_message f u t ex := answer_at (CallDelete f u t ex) (fun nw => delete_message nw f u t ex);
  api_expunge f := answer_at (CallExpunge f) (fun nw => expunge nw f);
  api_fetch f us spec ex := answer_at (CallFetch f us spec ex) (fun nw => fetch nw f us spec ex);
  api_status f items := answer_at (CallStatus f items) (fun nw => status nw f items);
  api_create_folder f := answer_at (CallCreate f) (fun nw => create_folder nw f);
  api_rename_folder f g := answer_at (CallRename f g) (fun nw => rename_folder nw f g);
  api_delete_folder f := answer_at (CallDeleteFolder f) (fun nw => delete_folder nw f) |}.
Next Obligation.
  intros src dst uids expected o Hne Hpos (caps & rs & Ho)%answer_at_converse. by eapply conversation_move_reports.
Qed.
Next Obligation.
  intros f uid trash expected d uv Hu (caps & rs & Ho)%answer_at_converse. by eapply conversation_delete_reports.
Qed.
End api.

(** ** At concrete inputs *)

Definition quiet (connects : connect_end) (c : option (nat * cut)) : attempt_env := mkAttemptEnv false connects c false.
Definition sample_session_server (replies : nat) : session_server :=
  mkSessionServer (repeat (ReplyOk (Some 9) []) replies) (Fetch.mkServer (fun _ => Ok (Some 9)) (fun _ _ => Ok []))
    (fun _ => Ok []) (fun _ _ => Ok (mkStatus 2 0 None None None)) (fun _ _ => Ok (mkMailboxEntry 2 0 (Some 9) None))
    (fun _ => Ok [4; 2]) (fun _ _ _ => Ok tt) (fun _ => Ok tt) (fun _ => Ok tt) (fun _ _ => Ok tt).
(** Session 1 is dead; its successor, session 2, answers. *)
Definition idle_network (c : option (nat * cut)) : network :=
  mkNetwork (quiet (Connected 2 (Known true true)) c) (quiet (Connected 2 (Known true true)) None) (fun st => st)
    (fun s => if session_id s =? 1 then
       mkSessionServer [] (Fetch.mkServer (fun _ => Err IConnectionLost) (fun _ _ => Err IConnectionLost))
         (fun _ => Err IConnectionLost) (fun _ _ => Err IConnectionLost) (fun _ _ => Err (mkAsync AsyncConnectionLost (lit "connection lost") []))
         (fun _ => Err (mkAsync AsyncConnectionLost (lit "connection lost") [])) (fun _ _ _ => Err IConnectionLost)
         (fun _ => Err IConnectionLost) (fun _ => Err IConnectionLost) (fun _ _ => Err IConnectionLost)
     else sample_session_server 3).
Definition idle_connection : conn_state := mkConn (Some (mkSession 1 true (Known true true))) false.

(** After an idle disconnect a search reconnects and answers; a move does not
    try again, but the next command finds a new session. *)
Example idle_disconnect :
  told (search (idle_network None) (lit "INBOX") (Raw (lit "ALL")) idle_connection) = Some (Ok (mkSearchOutcome [2; 4] (Some 9))) /\
  let x := move_messages (idle_network None) (lit "INBOX") (lit "Old") [4] None idle_connection in
  told x = Some (Err IConnectionLost) /\ length x.2 = 1%nat /\
  told (status (idle_network None) (lit "INBOX") items_all x.1) = Some (Ok (mkFolderStatus (Some 2) (Some 0) None None None)).
Proof. vm_compute. repeat split. Qed.

(** A move cut after the server moved the message: the caller learns of a
    timeout, and the message is where it was sent. *)
Definition cut_network : network := idle_network (Some (2%nat, CutElapses)).
Definition cut_move : call_report MoveOutcome :=
  move_messages cut_network (lit "INBOX") (lit "Old") [4] None (mkConn None false).

Lemma mail_survives_the_session_witness : told cut_move = Some (Err (ITimeout (lit "move"))) /\ exists r s, cut_move.2 = [r] /\ ran_on r = Some s /\
  let rs := heard (nw_first cut_network) (ss_replies (nw_server cut_network s)) in
  let y := connection_move (capabilities s) (lit "INBOX") (lit "Old") [4] None rs in
  move_post (fun _ => false) (capabilities s) [4] sample_box (answered y) (replay (fun _ _ => false) (fun _ => false) (sent y) rs (mkMailbox sample_box ∅)) /\
  source (replay (fun _ _ => false) (fun _ => false) (sent y) rs (mkMailbox sample_box ∅)) !! 4 = None.
Proof.
  split; [vm_compute; reflexivity|].
  destruct (proj1 (mail_survives_the_session cut_network (fun _ _ => false) (fun _ => false) sample_box (mkConn None false) I) (lit "INBOX") (lit "Old") [4] None)
    as (r & Hr & Hs); [discriminate|apply List.Forall_cons; [lia|constructor]|].
  change (cut_move.2 = [r]) in Hr. assert (Hran : ran_on r = Some (mkSession 2 true (Known true true))).
  { assert (H : map ran_on cut_move.2 = [Some (mkSession 2 true (Known true true))]) by (vm_compute; reflexivity). rewrite Hr in H. by injection H. }
  rewrite Hran in Hs. exists r, (mkSession 2 true (Known true true)). split; [exact Hr|]. split; [exact Hran|].
  split; [apply Hs|vm_compute; reflexivity].
Defined.
