(* ===== verification/Registry.v ===== *)
(** * Booting an account and choosing one (crates/rimap-server/src/boot:
    discovery.rs, tool_matrix.rs, registry.rs; tools/admin/accounts.rs)

    The folder policy of an account from its configuration and the server's
    listing, the record of it in the audit trail, and the registry of
    accounts with its active selection. *)

From Stdlib Require Import ZArith Lia.
From stdpp Require Import base option list numbers strings gmap.
From S2P Require Import Prelude RustStr Tools Errors ImapErrors Names Authz AuditRecord Retrieval Folders MailTools Config.
Local Open Scope Z_scope.

(** ** The policy matrix *)

(* [crates/rimap-server/src/boot/tool_matrix.rs:52-52] FOLDER_NAME_AUDIT_CAP *)
Definition FOLDER_NAME_AUDIT_CAP : Z := 512.
(* [crates/rimap-server/src/boot/tool_matrix.rs:55-55] FOLDER_AUDIT_ABRIDGED *)
Definition FOLDER_AUDIT_ABRIDGED : rstr := 0x2026 :: lit "[abridged]".

(* [crates/rimap-server/src/boot/tool_matrix.rs:63-75] cap_folder_name_for_audit *)
Definition cap_folder_name_for_audit (name : rstr) : rstr :=
  if str_len name <=? FOLDER_NAME_AUDIT_CAP then name
  else char_prefix FOLDER_NAME_AUDIT_CAP name ++ FOLDER_AUDIT_ABRIDGED.

(* [crates/rimap-server/src/boot/tool_matrix.rs:145-155] folder_entries *)
Definition folder_entries (folders : list rstr) (account_written : bool) : list AuditRecord.FolderEntry :=
  let source := if account_written then FolderAccount else FolderInherited in
  map (fun folder => AuditRecord.mkFolderEntry (cap_folder_name_for_audit folder) source) folders.

Section boot.
Context `{FolderText}.

(* [crates/rimap-server/src/boot/tool_matrix.rs:166-191] protected_entries *)
Definition protected_entries (acfg : ValidatedAccountConfig) (resolved_protected : option (list rstr))
    : list AuditRecord.FolderEntry :=
  let configured := protected_folders (v_security acfg) in
  match resolved_protected with
  | None => folder_entries configured (v_account_written_protected acfg)
  | Some resolved =>
      let configured_source := if v_account_written_protected acfg then FolderAccount else FolderInherited in
      map (fun folder =>
        let norm := normalize_folder_name folder in
        let source := if existsb (fun c => str_eqb (normalize_folder_name c) norm) configured
          then configured_source else FolderDiscovered in
        AuditRecord.mkFolderEntry (cap_folder_name_for_audit folder) source) resolved
  end.

(* [crates/rimap-server/src/boot/tool_matrix.rs:104-138] account_tool_matrix *)
Definition account_tool_matrix (acfg : ValidatedAccountConfig) (resolved_protected : option (list rstr))
    : AccountToolMatrix :=
  let tools := omap (fun tool =>
    verdict ← v_tool_overrides acfg !! tool;
    Some (mkToolVerdict tool (match verdict with Allow => true | Deny => false end)
      (if bool_decide (tool ∈ v_account_written_tools acfg) then FromAccount else Inherited))) all_tools in
  mkAccountToolMatrix (v_id acfg) (posture (v_security acfg)) tools (protected_entries acfg resolved_protected)
    (match resolved_protected with Some _ => Ran | None => NotRun end)
    (folder_entries (expunge_folders (v_security acfg)) (v_account_written_expunge acfg)).

(* [crates/rimap-server/src/boot/tool_matrix.rs:194-202] render_verdict *)
Definition render_verdict (v : ToolVerdict) : rstr :=
  as_str (tv_tool v) ++ lit "=" ++ (if tv_allow v then lit "allow" else lit "deny") ++ lit "("
  ++ match tv_source v with FromAccount => lit "account" | Inherited => lit "inherited" end ++ lit ")".

(* [crates/rimap-server/src/boot/tool_matrix.rs:229-237] render_folder_entry *)
Definition render_folder_entry (e : AuditRecord.FolderEntry) : rstr :=
  AuditRecord.fe_folder e ++ lit "("
  ++ match fe_source e with
     | FolderAccount => lit "account" | FolderInherited => lit "inherited" | FolderDiscovered => lit "discovered" end
  ++ lit ")".

(* [crates/rimap-server/src/boot/tool_matrix.rs:240-250] render_folder_list *)
Definition render_folder_list (entries : list AuditRecord.FolderEntry) : rstr :=
  match entries with [] => lit "none" | _ => join (lit " ") (map render_folder_entry entries) end.

(** ** Discovery *)

(* [crates/rimap-server/src/boot/discovery.rs:145-156] merge_protected_folders *)
Definition merge_protected_folders (configured discovered : list rstr) : list rstr :=
  fold_left (fun protected name =>
    if existsb (fun p => str_eqb (normalize_folder_name p) (normalize_folder_name name)) protected
    then protected else protected ++ [name]) discovered configured.

(* [crates/rimap-server/src/boot/discovery.rs:42-47] ResolvedFolderPolicy *)
Record ResolvedFolderPolicy := mkPolicyPair { special_use_map : SpecialUseMap; policy_guard : FolderGuard }.

Inductive boot_error := ListingFailed (e : ImapError) | AuditFailed (message : rstr).

(** [log] is the fsynced write of the record. *)
(* [crates/rimap-server/src/boot/discovery.rs:79-120] resolve_folder_policy *)
Definition resolve_folder_policy (acfg : ValidatedAccountConfig) (listed : result ImapError (list Folder))
    (log : FolderPolicy -> option rstr) : list FolderPolicy * result boot_error ResolvedFolderPolicy :=
  match listed with
  | Err e => ([], Err (ListingFailed e))
  | Ok folders =>
      let special_use := from_folders folders in
      let protected := merge_protected_folders (protected_folders (v_security acfg)) (all_discovered special_use) in
      let guard := folder_guard_new protected (expunge_folders (v_security acfg)) in
      let matrix := account_tool_matrix acfg (Some protected) in
      let record := mkFolderPolicy (am_account matrix) (am_protected_folders matrix) (am_special_use matrix)
        (am_expunge_folders matrix) in
      match log record with
      | Some e => ([record], Err (AuditFailed e))
      | None => ([record], Ok (mkPolicyPair special_use guard))
      end
  end.

(** ** Lemmas *)

Lemma merge_keeps discovered : forall configured,
  (forall p, p ∈ configured -> p ∈ merge_protected_folders configured discovered) /\
  (forall p, p ∈ merge_protected_folders configured discovered -> p ∈ configured \/ p ∈ discovered) /\
  (forall n, n ∈ discovered -> exists p, p ∈ merge_protected_folders configured discovered /\
     normalize_folder_name p = normalize_folder_name n).
Proof.
  unfold merge_protected_folders.
  induction discovered as [|d discovered IH]; intros configured; cbn [fold_left].
  - split; [done|]. split; [by left|]. by intros n ?%elem_of_nil.
  - set (next := if existsb _ configured then configured else configured ++ [d]).
    destruct (IH next) as (Hk & Hs & Hd).
    assert (Hc : forall p, p ∈ configured -> p ∈ next).
    { intros p Hp. subst next. case_match; [done|]. apply elem_of_app. by left. }
    split; [auto|]. split.
    + intros p Hp. destruct (Hs p Hp) as [Hn|Hn]; [|right; by right]. subst next.
      destruct (existsb _ configured); [by left|]. apply elem_of_app in Hn as [Hn| ->%list_elem_of_singleton]; [by left|].
      right. by left.
    + intros n [->|Hn]%elem_of_cons; [|by apply Hd].
      destruct (existsb _ configured) eqn:E; subst next; cbv beta iota in *.
      * apply existsb_exists in E as (p & Hp%list_elem_of_In & Ep%str_eqb_eq). exists p. split; [by apply Hk|done].
      * exists d. split; [|done]. apply Hk, elem_of_app. right. by left.
Qed.

(** ** The folder policy *)

(** No folder tool gets past its checks with this name for a folder. *)
Definition untouchable `{ImapApi} (a : account) (name : rstr) : Prop :=
  (serve a (CreateFolder name)).1 = [] /\ (serve a (DeleteFolder name)).1 = [] /\
  forall other, (serve a (RenameFolder name other)).1 = [] /\ (serve a (RenameFolder other name)).1 = [].

Lemma protected_untouchable `{ImapApi} prot exp special name p :
  p ∈ prot -> normalize_folder_name name = normalize_folder_name p ->
  untouchable (mkAccount (folder_guard_new prot exp) special) name.
Proof.
  intros Hp En. set (a := mkAccount _ special).
  assert (Hno : forall r, name ∈ names_changed r -> (serve a r).1 = []).
  { intros r Hr. pose proof (serve_obeys prot exp special r) as [_ Hg]. fold a in Hg.
    destruct (serve a r).1 as [|c cs]; [done|]. exfalso.
    destruct (proj1 Hg) as (_ & Hc & _); [done|]. rewrite Forall_forall in Hc.
    destruct (Hc name Hr) as [_ Hc']. by apply (Hc' p Hp). }
  split; [apply Hno; by left|]. split; [apply Hno; by left|].
  intros other. split; apply Hno; [by left|by right; left].
Qed.

(** The entry recorded for a protected folder. *)
Definition classified (acfg : ValidatedAccountConfig) (p : rstr) (e : AuditRecord.FolderEntry) : Prop :=
  AuditRecord.fe_folder e = cap_folder_name_for_audit p /\
  (fe_source e = FolderDiscovered <->
     forall c, c ∈ protected_folders (v_security acfg) -> normalize_folder_name c <> normalize_folder_name p).

Lemma protected_entries_classified acfg protected :
  Forall2 (classified acfg) protected (protected_entries acfg (Some protected)).
Proof.
  unfold protected_entries. induction protected as [|p protected IH]; cbn [map]; constructor; [|exact IH].
  split; [done|]. cbn [fe_source]. destruct (existsb _ _) eqn:E.
  - apply existsb_exists in E as (c & Hc%list_elem_of_In & Ec%str_eqb_eq).
    split; [by destruct (v_account_written_protected acfg)|]. intros Hn. by destruct (Hn c Hc).
  - split; [|done]. intros _ c Hc Ec. apply not_true_iff_false in E. apply E, existsb_exists.
    exists c. split; [by apply list_elem_of_In|by apply str_eqb_eq].
Qed.


(** A recorded name is at most 525 bytes, whatever the server listed. *)
Lemma cap_folder_name_bound name : str_len (cap_folder_name_for_audit name) <= 525.
Proof.
  unfold cap_folder_name_for_audit, FOLDER_NAME_AUDIT_CAP. destruct (Z.leb_spec (str_len name) 512); [lia|].
  rewrite str_len_app. change (str_len FOLDER_AUDIT_ABRIDGED) with 13.
  pose proof (char_prefix_within 512 name ltac:(lia)). lia.
Qed.
End boot.

(** ** The registry *)

(** What the registry needs of an account's state. *)
Class AccountLike (S : Type) := { as_id : S -> rstr; smtp_present : S -> bool }.

Section registry.
Context {L AccountState : Type} `{Limiter L} `{AccountLike AccountState}.

(* [crates/rimap-server/src/boot/registry.rs:102-114] AccountRegistry *)
Record AccountRegistry := mkRegistry {
  reg_accounts : gmap rstr AccountState; active : option rstr; infrastructure_limiter : L }.

(* [crates/rimap-server/src/boot/registry.rs:119-127] AccountRegistry::new *)
Definition registry_new (accounts : gmap rstr AccountState) : AccountRegistry :=
  mkRegistry accounts None (direct (PerSecond 5 10)).

(* [crates/rimap-server/src/boot/registry.rs:138-142] AccountRegistry::check_infrastructure_rate *)
Definition check_infrastructure_rate (r : AccountRegistry) (now : duration) : AccountRegistry * result RimapError unit :=
  let '(l, wait) := limiter_check (infrastructure_limiter r) now in
  (mkRegistry (reg_accounts r) (active r) l,
   match wait with None => Ok tt | Some wait => Err (RRateLimited (Z.min u64_max (as_millis wait))) end).

(* [crates/rimap-server/src/boot/registry.rs:223-225] AccountRegistry::account_name_strings *)
Definition account_name_strings (r : AccountRegistry) : list rstr := map fst (btree_iter (reg_accounts r)).

(* [crates/rimap-server/src/boot/registry.rs:236-239] AccountRegistry::find_by_name *)
Definition find_by_name (r : AccountRegistry) (name : rstr) : option AccountState :=
  match account_id_new name with Ok id => reg_accounts r !! id | Err _ => None end.

(* [crates/rimap-server/src/boot/registry.rs:164-185] AccountRegistry::resolve *)
Definition resolve (r : AccountRegistry) (explicit : option rstr) : result RimapError AccountState :=
  match explicit with
  | Some name =>
      match find_by_name r name with Some s => Ok s | None => Err (RUnknownAccount name (account_name_strings r)) end
  | None =>
      match btree_iter (reg_accounts r) with
      | [(_, state)] => Ok state
      | _ => Err (RNoAccount (account_name_strings r))
      end
  end.

(* [crates/rimap-server/src/boot/registry.rs:204-217] AccountRegistry::set_active *)
Definition set_active (r : AccountRegistry) (name : rstr) : AccountRegistry * result RimapError (option rstr) :=
  match account_id_new name with
  | Ok id =>
      if bool_decide (is_Some (reg_accounts r !! id))
      then (mkRegistry (reg_accounts r) (Some id) (infrastructure_limiter r), Ok (active r))
      else (r, Err (RUnknownAccount name (account_name_strings r)))
  | Err _ => (r, Err (RUnknownAccount name (account_name_strings r)))
  end.

(* [crates/rimap-server/src/tools/admin/accounts.rs:19-24] UseAccountMeta *)
Record UseAccountMeta := mkUseAccount { ua_account : rstr; ua_previous : option rstr }.
(* [crates/rimap-server/src/tools/admin/accounts.rs:28-33] AccountEntry *)
Record AccountEntry := mkAccountEntry { ae_name : rstr; ae_smtp_configured : bool }.
(* [crates/rimap-server/src/tools/admin/accounts.rs:37-42] ListAccountsMeta *)
Record ListAccountsMeta := mkListAccounts { la_accounts : list AccountEntry; la_count : Z }.

(* [crates/rimap-server/src/tools/admin/accounts.rs:59-83] handle_use_account *)
Definition handle_use_account (r : AccountRegistry) (name : rstr)
    : AccountRegistry * result RimapError (ToolResponse UseAccountMeta unit) :=
  if existsb is_rejected_display_codepoint name
  then (r, Err (invalid_input (lit "account: disallowed bidi/zero-width/tag codepoint in name")))
  else match account_id_new name with
  | Err _ => (r, Err (invalid_input (lit "invalid account name")))
  | Ok _ =>
      let '(r', res) := set_active r name in
      (r', previous ← res; Ok (meta_only (mkUseAccount name previous)))
  end.

(* [crates/rimap-server/src/tools/admin/accounts.rs:96-111] handle_list_accounts *)
Definition handle_list_accounts (r : AccountRegistry) : result RimapError (ToolResponse ListAccountsMeta unit) :=
  let accounts := map (fun p => mkAccountEntry (as_id p.2) (smtp_present p.2)) (btree_iter (reg_accounts r)) in
  Ok (meta_only (mkListAccounts accounts (Z.of_nat (length accounts)))).

(** ** The active account is always a configured one *)

(** A session's uses of the registry. *)
Inductive registry_step : AccountRegistry -> AccountRegistry -> Prop :=
  | step_use r name : registry_step r (handle_use_account r name).1
  | step_rate r now : registry_step r (check_infrastructure_rate r now).1.

Definition registry_ok (accounts : gmap rstr AccountState) (r : AccountRegistry) : Prop :=
  reg_accounts r = accounts /\ forall id, active r = Some id -> is_Some (accounts !! id).

Lemma use_account_ok accounts r name : registry_ok accounts r -> registry_ok accounts (handle_use_account r name).1.
Proof.
  intros Hr. unfold handle_use_account. case_match; [done|]. destruct (account_id_new name) as [id|] eqn:Ei; [|done].
  unfold set_active. rewrite Ei. case_bool_decide as Hid; cbn [fst]; [|done].
  destruct Hr as [Ha _]. split; [done|]. cbn. intros i [= <-]. by rewrite <- Ha.
Qed.

(** Accounts are chosen among those configured.  Whatever names
    use_account is called with, in any order with rate checks, the set of
    accounts never changes and the active one is always in it; an explicit
    name resolves, in any letter case, exactly to the account of that name;
    without a name the account resolves exactly when there is one. *)
Theorem registry_sound accounts r : rtc registry_step (registry_new accounts) r ->
  registry_ok accounts r /\
  (forall name, resolve r (Some name) = match accounts !! to_ascii_lowercase name with
     | Some s => if is_ok (account_id_new name) then Ok s else Err (RUnknownAccount name (account_name_strings r))
     | None => Err (RUnknownAccount name (account_name_strings r)) end) /\
  (forall s, resolve r None = Ok s <-> exists id, accounts = {[id := s]}).
Proof.
  intros Hsteps. assert (Hok : registry_ok accounts r).
  { assert (Hnew : registry_ok accounts (registry_new accounts)) by (split; [done|by intros id]).
    revert Hnew. induction Hsteps as [|r1 r2 r3 Hstep _ IH]; [done|]. intros Hr. apply IH.
    destruct Hstep as [r1 name|r1 now]; [by apply use_account_ok|].
    unfold check_infrastructure_rate. destruct (limiter_check _ now) as [l w]. exact Hr. }
  split; [done|]. destruct Hok as [Ha _]. split.
  - intros name. unfold resolve, find_by_name. rewrite Ha. destruct (account_id_new name) as [id|] eqn:Ei; cbn [is_ok].
    + apply account_id_new_ok in Ei as (_ & _ & _ & ->). by destruct (accounts !! _).
    + by destruct (accounts !! _).
  - intros s. unfold resolve. rewrite Ha. pose proof (btree_iter_perm accounts) as Hp. split.
    + destruct (btree_iter accounts) as [|[id s'] [|? ?]] eqn:E; try done. intros [= ->]. exists id.
      symmetry in Hp. apply Permutation_singleton_r in Hp. apply map_to_list_inj. by rewrite Hp, map_to_list_singleton.
    + intros [id ->]. rewrite map_to_list_singleton in Hp. apply Permutation_singleton_r in Hp. by rewrite Hp.
Qed.
End registry.

(** ** At concrete inputs *)

#[local] Existing Instances MailTools.ascii_text MailTools.sample_api.

Definition sample_account : ValidatedAccountConfig :=
  mkValidated (lit "work") (imap_new (lit "mail.example.org") 993 (lit "ann")) None
    (mkSecurity DraftSafe ∅ default_protected_folders [lit "Bin"] lookalike_default) limits_default
    {[Flag := Deny; Search := Allow]} {[Flag]} false true None KeyringOnly.
Definition sample_listing : list Folder :=
  [mkFolder (lit "INBOX") [] None None; mkFolder (lit "Bin") [] None (Some STrash); mkFolder (lit "sent") [] None (Some SSent)].
Definition sample_record : FolderPolicy :=
  mkFolderPolicy (lit "work")
    [AuditRecord.mkFolderEntry (lit "INBOX") FolderInherited; AuditRecord.mkFolderEntry (lit "Sent") FolderInherited;
     AuditRecord.mkFolderEntry (lit "Drafts") FolderInherited; AuditRecord.mkFolderEntry (lit "Trash") FolderInherited;
     AuditRecord.mkFolderEntry (lit "Bin") FolderDiscovered] Ran
    [AuditRecord.mkFolderEntry (lit "Bin") FolderAccount].
Definition sample_policy : ResolvedFolderPolicy :=
  mkPolicyPair (from_folders sample_listing)
    (folder_guard_new (default_protected_folders ++ [lit "Bin"]) [lit "Bin"]).


(** A folder the configuration lists as expungeable and the server lists with
    a special use ends up in both lists, which the validation of the
    configuration rules out for the lists it sees; the protection then stops
    at deleting the folder, not at expunging it. *)
Lemma discovered_conflict :
  let a := mkAccount (policy_guard sample_policy) (special_use_map sample_policy) in
  (serve a (DeleteFolder (lit "Bin"))).1 = [] /\
  is_ok (check_expunge (policy_guard sample_policy) (lit "Bin")) = true.
Proof. vm_compute. auto. Qed.

#[local] Instance sample_like : AccountLike (rstr * bool) := { as_id := fst; smtp_present := snd }.
Definition sample_accounts : gmap rstr (rstr * bool) :=
  {[lit "work" := (lit "work", true); lit "home" := (lit "home", false)]}.
Lemma registry_sound_witness :
  resolve (handle_use_account (registry_new (L := Z) sample_accounts) (lit "Work")).1 (Some (lit "WORK")) =
    Ok (lit "work", true).
Proof.
  refine (eq_trans (proj1 (proj2 (registry_sound sample_accounts _ (rtc_once _ _ (step_use _ (lit "Work"))))) (lit "WORK")) _).
  vm_compute. reflexivity.
Defined.

(** The answer of use_account repeats the caller's spelling, not the active
    account's identifier. *)
Lemma answer_keeps_spelling :
  active (handle_use_account (registry_new (L := Z) sample_accounts) (lit "WORK")).1 = Some (lit "work") /\
  (fun r => ua_account (resp_meta r)) <$> (handle_use_account (registry_new (L := Z) sample_accounts) (lit "WORK")).2 =
    Ok (lit "WORK").
Proof. vm_compute. auto. Qed.
