(* ===== verification/Startup.v ===== *)
(** * Starting and ending the server (crates/rimap-server/src: main.rs,
    boot/audit_init.rs, cli/mod.rs, cli/dry_run.rs; crates/rimap-audit/src/writer/core.rs)

    The audit log is opened and its first record written; the accounts are
    booted in order; the transport runs; the last record is written.  What the
    file system, the network and the transport do at each point is an
    argument. *)

From Stdlib Require Import ZArith Lia.
From stdpp Require Import base option list numbers strings gmap.
From S2P Require Import Prelude RustStr Tools Errors Json McpErrors ImapErrors Names Breaker Authz AuditRecord AuditWriter AuditFiles Folders Retrieval Config Credentials Connect Smtp Registry Wire.
Local Open Scope Z_scope.

(** ** Opening the audit log *)

(* [crates/rimap-audit/src/writer/core.rs:60-92] AuditOptions *)
Record AuditOptions := mkAuditOptions {
  ao_path : rstr; ao_rotate_bytes : Z; ao_rotate_keep : Z; ao_retention_seconds : option Z; ao_fail_open : bool;
  ao_write_deadline_seconds : Z; ao_initial_seq : Z }.

(* [crates/rimap-audit/src/writer/core.rs:122-132] AuditOptions::new *)
Definition audit_options_new (path : rstr) (initial_seq : Z) : AuditOptions :=
  mkAuditOptions path 0 0 None false 15 initial_seq.

(** What the system answers while the log is opened.  [parent_missing]: the
    path has a parent and it does not exist. *)
Inductive lock_answer := LockTaken | LockBusy | LockFails.
Record opening := mkOpening {
  parent_missing : bool; parent_created : bool; file_opens : bool; lock : lock_answer; metadata_reads : bool }.

(** The file the path names, created when there is none. *)
Definition open_active (d : disk) : disk * nat :=
  match AuditWriter.active d with
  | Some f => (d, f)
  | None => (mkDisk (Some (fresh d)) (<[fresh d := []]> (files d)) (S (fresh d)), fresh d)
  end.

(** The mode setters log their failures only. *)
(* [crates/rimap-audit/src/writer/core.rs:178-258] AuditWriter::open *)
Definition audit_open (opts : AuditOptions) (x : opening) (pid : Z) (d : disk)
    : disk * result AuditError (WorkerConfig * AuditWriter.state) :=
  if parent_missing x && negb (parent_created x) then (d, Err AParentDir)
  else if negb (file_opens x) then (d, Err AOpen)
  else
    let '(d, f) := open_active d in
    match lock x with
    | LockBusy => (d, Err ALocked)
    | LockFails => (d, Err AOpen)
    | LockTaken =>
        if negb (metadata_reads x) then (d, Err AOpen)
        else (d, Ok (mkWorkerConfig (ao_rotate_bytes opts) (ao_rotate_keep opts) (ao_retention_seconds opts),
                     AuditWriter.mkState (mkAuditWriter (ao_fail_open opts) pid 0 0 (ao_initial_seq opts)) d
                       (mkInner f [] (Z.of_nat (length (content d f))))))
    end.

(* [crates/rimap-audit/src/record/ids.rs:27-27] Seq::FIRST *)
Definition SEQ_FIRST : Z := 1.
(* [crates/rimap-audit/src/record/ids.rs:31-33] Seq::next *)
Definition seq_next (s : Z) : Z := Z.min u64_max (s + 1).

(** The build's version and commit, and SHA-256. *)
Record build_info := mkBuild { version : rstr; commit : rstr; sha256 : list Z -> list Z }.

Section start.
Context `{FolderText} `{RecordJson} (build : build_info).

(** A file that cannot be read is hashed as empty. *)
(* [crates/rimap-server/src/boot/audit_init.rs:105-122] compute_config_hash *)
Definition compute_config_hash (read : option (list Z)) : rstr := hex_encode false (sha256 build (default [] read)).

(* [crates/rimap-server/src/boot/audit_init.rs:27-33] init_audit_writer_multi *)
Definition options_of (audit : AuditConfig) (initial_seq : Z) : AuditOptions :=
  mkAuditOptions (audit_path audit) (Config.rotate_bytes audit) (Config.rotate_keep audit) (Config.retention_seconds audit)
    (Config.fail_open audit) (write_deadline_seconds audit) initial_seq.

(* [crates/rimap-server/src/boot/audit_init.rs:44-98] init_audit_writer_multi *)
Definition start_inputs (multi : ValidatedMultiConfig) (config_path : rstr) (config_hash : rstr) (trailing : TrailingState)
    (inode : Z) : ProcessStartInputs :=
  let accounts := map snd (btree_iter (Config.accounts multi)) in
  let single_account := (length accounts =? 1)%nat in
  let posture := if single_account then (fun a => Config.posture (v_security a)) <$> head accounts else None in
  let summaries := if single_account then None
    else Some (map (fun a => mkAccountSummary (v_id a) (Config.posture (v_security a)) (imap_host (v_imap a))) accounts) in
  mkProcessStartInputs (version build) (commit build) posture summaries
    (map (fun a => account_tool_matrix a None) accounts) config_path config_hash trailing inode.

(** What the start of the log meets: the answers above, the process's id, the
    inode query, the configuration's bytes, the clock, and the first write. *)
Record start_env := mkStart {
  se_opening : opening; se_pid : Z; se_inode : option Z; se_config : option (list Z); se_now : Z; se_io : io; se_timeout : bool }.

(* [crates/rimap-server/src/boot/audit_init.rs:17-103] init_audit_writer_multi *)
Definition init_audit_writer_multi (multi : ValidatedMultiConfig) (config_path : rstr) (e : start_env) (d : disk)
    : disk * result AuditError (WorkerConfig * AuditWriter.state) :=
  match read_trailing_state (content d <$> AuditWriter.active d) with
  | Err err => (d, Err err)
  | Ok trailing =>
      let initial_seq := match last_seq trailing with None => SEQ_FIRST | Some s => seq_next s end in
      match audit_open (options_of (vm_audit multi) initial_seq) (se_opening e) (se_pid e) d with
      | (d, Err err) => (d, Err err)
      | (d, Ok (cfg, st)) =>
          match se_inode e with
          | None => (d, Err (ARead None))
          | Some current =>
              let inputs := start_inputs multi config_path (compute_config_hash (se_config e)) trailing current in
              let '(st, r) := log_process_start cfg (se_io e) (se_timeout e) (se_now e) st inputs in
              (on_disk st, _ ← r; Ok (cfg, st))
          end
      end
  end.
End start.

(** ** Booting the accounts *)

(* [crates/rimap-audit/src/writer/log.rs:147-152] AuditWriter::log_process_end *)
Definition log_process_end `{RecordJson} (cfg : WorkerConfig) (x : io) (timed_out : bool) (now : Z) (st : AuditWriter.state)
    (p : ProcessEnd) : AuditWriter.state * result AuditError Z := emit cfg x timed_out now st (PProcessEnd p).
(* [crates/rimap-audit/src/writer/log.rs:166-171] AuditWriter::log_folder_policy *)
Definition log_folder_policy `{RecordJson} (cfg : WorkerConfig) (x : io) (timed_out : bool) (now : Z) (st : AuditWriter.state)
    (p : FolderPolicy) : AuditWriter.state * result AuditError Z := emit cfg x timed_out now st (PFolderPolicy p).

Inductive BootError :=
  | BuildingGuard (e : AuthzError)
  | ResolvingPolicy (e : boot_error)
  | ResolvingSmtpCredential (account : rstr) (e : ConfigError)
  | BuildingSmtp (account : rstr) (e : SmtpError).

Section boot.
Context `{FolderText} {L : Type} `{Limiter L}.

(* [crates/rimap-server/src/main.rs:790-805] build_account_guard *)
Definition build_account_guard (acfg : ValidatedAccountConfig) : result AuthzError (DispatchGuard L) :=
  let matrix := matrix_build (Config.posture (v_security acfg)) (v_tool_overrides acfg) in
  let limits := v_limits acfg in
  let breaker_cfg := mkBreakerConfig (circuit_breaker_error_threshold limits)
    (from_secs (circuit_breaker_window_seconds limits)) (starting_cooldown default_spec) (max_cooldown default_spec)
    (auth_starting_cooldown default_spec) (auth_max_cooldown default_spec) in
  let breaker := new breaker_cfg in
  governor ← governor_new (commands_per_second limits) (drafts_per_minute limits) (sends_per_minute limits);
  Ok (mkGuard matrix breaker_cfg breaker governor).

(** What the accounts' boots find: SHA-256, the keyring, the environment, what
    TLS set-up fails with, each account's folder listing, and what its policy's
    record fails with. *)
Record boot_env := mkBootEnv {
  be_sha : list Z -> list Z; be_keyring : keyring; be_env : rstr -> option rstr;
  be_tls_parameters : rstr -> option rstr;
  be_listing : rstr -> result ImapError (list Folder); be_log : FolderPolicy -> option rstr }.
Context (env : boot_env).

(* [crates/rimap-server/src/main.rs:768-787] build_smtp_client *)
Definition build_smtp_client (acfg : ValidatedAccountConfig) : result BootError (option SmtpClient) :=
  match v_smtp acfg with
  | None => Ok None
  | Some smtp_cfg =>
      '(smtp_password, _) ← map_err (ResolvingSmtpCredential (v_id acfg))
        (Credentials.resolve_credential (be_sha env) (keyring_get_password (be_sha env) (be_keyring env)) (be_env env) (v_id acfg) (smtp_username smtp_cfg) (smtp_host smtp_cfg)
           (mkPolicy (v_fallback_mode acfg) PSmtp));
      client ← map_err (BuildingSmtp (v_id acfg)) (smtp_client_new (be_tls_parameters env) smtp_cfg smtp_password);
      Ok (Some client)
  end.

(* [crates/rimap-server/src/boot/registry.rs:54-78] AccountState *)
Record BootedAccount := mkBooted {
  bo_id : rstr; bo_imap : ConnectionConfig; bo_smtp : option SmtpClient; bo_guard : DispatchGuard L;
  bo_folder_guard : FolderGuard; bo_download_dir : rstr; bo_special_use : SpecialUseMap; bo_tool_call_timeout : duration }.

#[export] Instance booted_like : AccountLike BootedAccount :=
  { as_id := bo_id; smtp_present := fun b => match bo_smtp b with Some _ => true | None => false end }.

(** One account: the records it leaves, and its state. *)
(* [crates/rimap-server/src/main.rs:716-762] build_registry *)
Definition boot_account (download_dir : rstr) (id : rstr) (acfg : ValidatedAccountConfig)
    : list FolderPolicy * result BootError BootedAccount :=
  match build_account_guard acfg with
  | Err e => ([], Err (BuildingGuard e))
  | Ok guard =>
      let conn_cfg := build_account_connection id acfg in
      let '(records, policy) := resolve_folder_policy acfg (be_listing env id) (be_log env) in
      (records,
       policy ← map_err ResolvingPolicy policy;
       smtp ← build_smtp_client acfg;
       Ok (mkBooted id conn_cfg smtp guard (policy_guard policy) download_dir (special_use_map policy)
             (from_secs (tool_call_timeout_seconds (v_limits acfg)))))
  end.

(** The accounts in order, up to the first that fails. *)
Fixpoint boot_accounts (download_dir : rstr) (todo : list (rstr * ValidatedAccountConfig)) (states : gmap rstr BootedAccount)
    : list FolderPolicy * result BootError (gmap rstr BootedAccount) :=
  match todo with
  | [] => ([], Ok states)
  | (id, acfg) :: todo =>
      let '(records, r) := boot_account download_dir id acfg in
      match r with
      | Err e => (records, Err e)
      | Ok state => let '(records', r) := boot_accounts download_dir todo (<[id := state]> states) in (records ++ records', r)
      end
  end.

(* [crates/rimap-server/src/main.rs:708-765] build_registry *)
Definition build_registry (multi : ValidatedMultiConfig) (download_dir : rstr)
    : list FolderPolicy * result BootError (gmap rstr BootedAccount) :=
  boot_accounts download_dir (btree_iter (Config.accounts multi)) ∅.
End boot.

(** ** The command line *)

(* [crates/rimap-server/src/cli/mod.rs:183-221] AuditAction *)
Record merge_args := mkMergeArgs {
  ma_path : rstr; ma_since : option rstr; ma_until : option rstr; ma_tool : option rstr; ma_kind : option rstr;
  ma_process : option rstr; ma_account : option rstr }.
(* [crates/rimap-server/src/cli/mod.rs:94-179] Command *)
Inductive Command :=
  | Login (account host username : rstr)
  | MigrateKeyring (account host username : rstr)
  | AuditMerge (args : merge_args).
(* [crates/rimap-server/src/cli/mod.rs:57-80] Cli *)
Record Cli := mkCli { cli_config : option rstr; cli_dry_run : bool; cli_command : option Command }.

Inductive invocation := RunCommand (c : Command) | RunDryRun | RunServer.

(* [crates/rimap-server/src/main.rs:197-252] dispatch_subcommand *)
Definition dispatch (cli : Cli) : invocation :=
  match cli_command cli with
  | Some c => RunCommand c
  | None => if cli_dry_run cli then RunDryRun else RunServer
  end.

(** [platform] is the platform's configuration directory. *)
(* [crates/rimap-config/src/loader.rs:33-44] resolve_config_path *)
Definition resolve_config_path (explicit : option rstr) (env : rstr -> option rstr) (platform : option rstr) : option rstr :=
  match explicit with
  | Some p => Some p
  | None =>
      match env (lit "RUSTY_IMAP_MCP_CONFIG") with
      | Some ((_ :: _) as v) => Some v
      | _ => (fun dir => dir ++ lit "/config.toml") <$> platform
      end
  end.

(** Errors with the context they gathered; [Plain] carries only a text. *)
Inductive RunError :=
  | NoConfigPath
  | LoadingConfig (path : rstr) (e : ConfigError)
  | OpeningAudit (path : rstr) (e : AuditError)
  | PreparingDownloads (e : rstr)
  | CreatingRuntime (e : rstr)
  | BuildingRegistry (e : BootError)
  | InvalidAccount (account : rstr) (e : InvalidAccountName)
  | StoringCredential (username host : rstr) (e : ConfigError)
  | MigratingCredential (account host : rstr) (e : ConfigError)
  | Plain (text : rstr).

(* [crates/rimap-server/src/main.rs:674-681] resolve_cli_config_path *)
Definition resolve_cli_config_path (cli : Cli) (env : rstr -> option rstr) (platform : option rstr) : result RunError rstr :=
  match cli_config cli with
  | Some p => Ok p
  | None => match resolve_config_path None env platform with Some p => Ok p | None => Err NoConfigPath end
  end.

(** [migrate] is [migrate_one] on the keyring; the line printed is returned. *)
(* [crates/rimap-server/src/main.rs:915-931] run_migrate_keyring *)
Definition run_migrate_keyring (migrate : rstr -> result ConfigError bool) (account host : rstr) : result RunError rstr :=
  account_id ← map_err (InvalidAccount account) (account_id_new account);
  migrated ← map_err (MigratingCredential account host) (migrate account_id);
  Ok (if migrated : bool then lit "migrated credential for account `" ++ account ++ lit "`"
      else lit "no legacy credential found for account `" ++ account ++ lit "` (host `" ++ host ++ lit "`); nothing to migrate").

(* [crates/rimap-server/src/main.rs:899-908] run_login_command *)
Definition run_login_command (login : rstr -> result ConfigError unit) (account username host : rstr) : result RunError rstr :=
  account_id ← map_err (InvalidAccount account) (account_id_new account);
  _ ← map_err (StoringCredential username host) (login account_id);
  Ok (lit "credential stored for " ++ username ++ lit "@" ++ host).

(** What is printed to standard error, or logged. *)
Inductive startup_report := Guidance (path : rstr) | LoggedError (e : RunError).

(** The error is looked for under its context. *)
(* [crates/rimap-server/src/main.rs:64-72] emit_startup_error *)
Definition emit_startup_error (e : RunError) : startup_report :=
  match e with LoadingConfig _ (CNotFound path) => Guidance path | _ => LoggedError e end.

(** ** Downloads *)

(** The file system's answers: creating the directory, making a temporary one,
    setting its mode. *)
Record dir_env := mkDirEnv {
  de_create_all : rstr -> option rstr; de_tempdir : rstr -> result rstr rstr; de_chmod_0700 : rstr -> option rstr }.

(* [crates/rimap-server/src/main.rs:814-843] resolve_download_dir_multi *)
Definition resolve_download_dir (fs : dir_env) (multi : ValidatedMultiConfig) : result RunError rstr :=
  let dir_str := download_dir (vm_attachments multi) in
  dir ← match dir_str with
    | _ :: _ => match de_create_all fs dir_str with
        | Some e => Err (PreparingDownloads (lit "creating attachment download_dir at " ++ dir_str ++ lit ": " ++ e))
        | None => Ok dir_str
        end
    | [] => map_err (fun e => PreparingDownloads (lit "creating per-process tempdir for attachments: " ++ e))
        (de_tempdir fs (lit "rusty-imap-mcp-"))
    end;
  match de_chmod_0700 fs dir with
  | Some e => Err (PreparingDownloads (lit "setting 0700 perms on " ++ dir ++ lit ": " ++ e))
  | None => Ok dir
  end.

(** ** The transport *)

(** The rmcp library's errors; [OtherInit] carries the text of every other one,
    a request it did not get included. *)

(* [crates/rimap-server/src/main.rs:97-100] InitOutcome *)
Inductive init_error :=
  | ExpectedInitializeRequest (msg : client_message)
  | InitializeFailed (code : Z) (message : rstr)
  | OtherInit (text : rstr).
Inductive InitOutcome := InitOk | InitBridge (r : result rstr unit) | InitRmcp (e : init_error).

(** How the service ends against its bridges: a bridge's end first, and then
    the service's, or the service's first. *)
Inductive race := BridgeFirst (bridge : result rstr unit) (service : result rstr unit) | ServiceFirst (service : result rstr unit).

(* [crates/rimap-server/src/main.rs:472-493] run_service_until_done *)
Definition service_outcome (r : race) : result rstr unit :=
  match r with
  | BridgeFirst (Err e) _ => Err (lit "validator bridge: " ++ e)
  | BridgeFirst (Ok _) service | ServiceFirst service => map_err (fun e => lit "MCP server error: " ++ e) service
  end.

(* [crates/rimap-server/src/main.rs:647-649] initialize_failure_is_handled_rejection *)
Definition initialize_failure_is_handled_rejection (code : Z) : bool := code =? -32602.

(* [crates/rimap-server/src/main.rs:656-670] handle_initialize_failed *)
Definition handle_initialize_failed (code : Z) (message : rstr) : result rstr unit :=
  if initialize_failure_is_handled_rejection code then Ok tt
  else Err (lit "MCP server init failed: code " ++ (if code <? 0 then lit "-" ++ to_decimal (- code) else to_decimal code)
            ++ lit ": " ++ message).

Section transport.
Context `{JsonText}.

(** [written]: what writing and flushing the envelope fails with.  The second
    component is whether the bridges were shut down. *)
(* [crates/rimap-server/src/main.rs:576-592] emit_pre_init_error_envelope *)
Definition emit_pre_init_error_envelope (msg : client_message) (written : option rstr) : result rstr unit :=
  match synthesize_pre_init_error_envelope msg with
  | None => Ok tt
  | Some _ => match written with Some e => Err e | None => Ok tt end
  end.

(* [crates/rimap-server/src/main.rs:613-638] handle_init_failure *)
Definition handle_init_failure (e : init_error) (written : option rstr) (shutdown_after_failure : result rstr unit)
    : result rstr unit * bool :=
  match e with
  | ExpectedInitializeRequest msg =>
      match emit_pre_init_error_envelope msg written with
      | Err e => (Err e, false)
      | Ok _ => (map_err (fun e => lit "validator bridge after pre-init: " ++ e) shutdown_after_failure, true)
      end
  | InitializeFailed code message =>
      (match shutdown_after_failure with
       | Ok _ => handle_initialize_failed code message
       | Err e => Err (lit "validator bridge after init failure: " ++ e)
       end, true)
  | OtherInit text => (Err (lit "MCP server init: " ++ text), true)
  end.

(** What happens to the transport once the accounts are booted. *)
Record transport_env := mkTransport {
  tr_init : InitOutcome; tr_intercepted : bool; tr_written : option rstr; tr_undrained : Z; tr_race : race;
  tr_drain : result rstr unit; tr_shutdown_after_failure : result rstr unit; tr_drainer_aborted : Z }.

(* [crates/rimap-server/src/main.rs:113-126] ServeOutcome *)
Record ServeOutcome := mkServeOutcome { so_result : result RunError unit; so_undrained : Z; so_drainer_aborted : Z }.

(* [crates/rimap-server/src/main.rs:174-185] intercepted_clean_exit *)
Definition intercepted_clean_exit (undrained : Z) : ServeOutcome := mkServeOutcome (Ok tt) undrained 0.

(* [crates/rimap-server/src/main.rs:320-462] serve_mcp *)
Definition serve_mcp {A} (registry : result BootError A) (t : transport_env) : ServeOutcome :=
  match registry with
  | Err e => mkServeOutcome (Err (BuildingRegistry e)) 0 0
  | Ok _ =>
      if tr_intercepted t then intercepted_clean_exit (tr_undrained t)
      else match tr_init t with
      | InitBridge bridge_result =>
          let primary := match bridge_result with
            | Ok _ => lit "validator bridges exited before init completed"
            | Err e => lit "validator bridge during init: " ++ e
            end in
          mkServeOutcome (Err (Plain primary)) (tr_undrained t) 0
      | InitRmcp e =>
          mkServeOutcome (map_err Plain (handle_init_failure e (tr_written t) (tr_shutdown_after_failure t)).1) (tr_undrained t) 0
      | InitOk =>
          let service := service_outcome (tr_race t) in
          let shutdown := map_err (fun e => lit "validator bridge shutdown: " ++ e)
            (match service with Ok _ => tr_drain t | Err _ => tr_shutdown_after_failure t end) in
          let mcp_result := match service, shutdown with Err e, _ | Ok _, Err e => Err (Plain e) | Ok _, Ok _ => Ok tt end in
          mkServeOutcome mcp_result (tr_undrained t) (tr_drainer_aborted t)
      end
  end.
End transport.

(** ** The whole run *)

(* [crates/rimap-server/src/main.rs:77-90] format_missing_config_guidance *)
Definition format_missing_config_guidance (path : rstr) : rstr :=
  join [10] [
    lit "No configuration file was found at:"; lit "    " ++ path; [];
    lit "Create one to get started. See the annotated example configuration and the quickstart guide for your provider:";
    lit "    config.example.toml               - annotated example configuration";
    lit "    docs/quickstart-gmail.md          - Gmail setup";
    lit "    docs/quickstart-proton-bridge.md  - Proton Mail Bridge setup"; [];
    lit "You can point at a different location with --config <PATH> or the RUSTY_IMAP_MCP_CONFIG environment variable."; []].

Section run.
Context `{FolderText} `{RecordJson} `{JsonText} {L : Type} `{Limiter L} (build : build_info).

(** The last record, from the writer's counters and the transport's. *)
(* [crates/rimap-server/src/main.rs:539-563] emit_process_end *)
Definition process_end_of (w : AuditWriter) (o : ServeOutcome) : ProcessEnd :=
  mkProcessEnd (match so_result o with Ok _ => Eof | Err _ => EndError end) (tool_calls w) (suppressed_failures w)
    (so_undrained o) (so_drainer_aborted o).

(** What a run of the server meets.  [re_between] is everything written to the
    log between its first and last record. *)
Record run_env := mkRunEnv {
  re_cli_env : rstr -> option rstr; re_platform : option rstr;
  re_loads : rstr -> result ConfigError ValidatedMultiConfig; re_start : start_env; re_dirs : dir_env;
  re_runtime : result rstr unit; re_boot : boot_env; re_transport : transport_env;
  re_between : AuditWriter.state -> AuditWriter.state; re_end_io : io; re_end_timeout : bool; re_end_now : Z }.

(** The result, the log as it is left, and the records the run itself emits
    (the boots' and its last), accepted or not. *)
Record run_report := mkRun { rr_result : result RunError unit; rr_disk : disk; rr_policies : list FolderPolicy; rr_end : option ProcessEnd }.

(* [crates/rimap-server/src/main.rs:265-307] run_server *)
Definition run_server (cli : Cli) (e : run_env) (d : disk) : run_report :=
  match resolve_cli_config_path cli (re_cli_env e) (re_platform e) with
  | Err err => mkRun (Err err) d [] None
  | Ok config_path =>
      match re_loads e config_path with
      | Err err => mkRun (Err (LoadingConfig config_path err)) d [] None
      | Ok multi =>
          match init_audit_writer_multi build multi config_path (re_start e) d with
          | (d, Err err) => mkRun (Err (OpeningAudit (audit_path (vm_audit multi)) err)) d [] None
          | (d, Ok (cfg, st)) =>
              match resolve_download_dir (re_dirs e) multi with
              | Err err => mkRun (Err err) d [] None
              | Ok dir =>
                  match re_runtime e with
                  | Err err => mkRun (Err (CreatingRuntime err)) d [] None
                  | Ok _ =>
                      let '(policies, registry) := build_registry (L := L) (re_boot e) multi dir in
                      let outcome := serve_mcp registry (re_transport e) in
                      let st := re_between e st in
                      let process_end := process_end_of (writer st) outcome in
                      let '(st, _) := log_process_end cfg (re_end_io e) (re_end_timeout e) (re_end_now e) st process_end in
                      mkRun (so_result outcome) (on_disk st) policies (Some process_end)
                  end
              end
          end
      end
  end.
End run.

(** ** The dry run *)

Section dry_run.
Context `{FolderText}.

(* [crates/rimap-server/src/cli/dry_run.rs:168-186] write_folder_section *)
Definition folder_section (header : rstr) (entries : list AuditRecord.FolderEntry) : list rstr :=
  match entries with
  | [] => [header ++ lit ": none"]
  | _ => (header ++ lit ":") :: map (fun e => lit "  " ++ render_folder_entry e) entries
  end.

(* [crates/rimap-server/src/cli/dry_run.rs:147-161] write_folder_policy_sections *)
Definition folder_policy_sections (m : AccountToolMatrix) : list rstr :=
  let header := match am_special_use m with
    | NotRun => lit "Protected folders (configured; server special-use folders are added at boot)"
    | Ran => lit "Protected folders"
    end in
  folder_section header (am_protected_folders m) ++ folder_section (lit "Expunge folders") (am_expunge_folders m).

(* [crates/rimap-server/src/cli/dry_run.rs:117-134] write_explicit_overrides_section *)
Definition explicit_overrides_section (m : AccountToolMatrix) : list rstr :=
  match am_tools m with
  | [] => [lit "Explicit tool overrides: none"]
  | tools => lit "Explicit tool overrides:" :: map (fun v => lit "  " ++ render_verdict v) tools
  end.

(* [crates/rimap-server/src/cli/dry_run.rs:65-110] write_fingerprint_section *)
Definition fingerprint_section (result : result ImapError PreflightInfo) (pinned : option (list Z)) : list rstr :=
  let title := lit "TLS fingerprint (sha256):" in
  match result, pinned with
  | Ok info, None =>
      let fp := fingerprint_to_hex (pi_tls_fingerprint info) in
      [title; lit "  " ++ fp;
       lit "  (add `tls_fingerprint_sha256 = " ++ [34] ++ fp ++ [34] ++ lit "` under [imap] in config.toml to pin)"]
  | Ok info, Some pin =>
      let fp := fingerprint_to_hex (pi_tls_fingerprint info) in
      [title; lit "  " ++ fp ++ (if bool_decide (pi_tls_fingerprint info = pin) then lit "  (matches configured pin)"
                                 else lit "  (pin mismatch " ++ [0x2014] ++ lit " unexpected state, please report)")]
  | Err (ITls observed expected), _ =>
      [title; lit "  observed: " ++ observed; lit "  expected: " ++ expected ++ lit "  (configured pin)";
       lit "  hint: re-run the openssl command from the quickstart and update tls_fingerprint_sha256"]
  | Err _, _ => []
  end.

(** The account's lines; [probe] is how its preflight ends. *)
(* [crates/rimap-server/src/cli/dry_run.rs:214-262] run *)
Definition dry_run_account (several : bool) (id : rstr) (acfg : ValidatedAccountConfig) (probe : result ImapError PreflightInfo) : list rstr :=
  let matrix := matrix_build (Config.posture (v_security acfg)) (v_tool_overrides acfg) in
  let policy := account_tool_matrix acfg None in
  let conn_cfg := build_account_connection id acfg in
  let at_ := lit "Capabilities (" ++ cc_host conn_cfg ++ lit ":" ++ to_decimal (cc_port conn_cfg) ++ lit "):" in
  (if several then [lit "Account: " ++ id] else [])
  ++ [lit "Effective matrix (posture = " ++ posture_as_str (matrix_posture matrix) ++ lit ")"]
  ++ omap (fun '(tool, allowed) =>
       if is_infrastructure tool then None
       else Some (lit "  " ++ (if (allowed : bool) then lit "[ok ]" else lit "[deny]") ++ lit " " ++ as_str tool)) (matrix_rows matrix)
  ++ [lit "Infrastructure tools (always available):"]
  ++ map (fun tool => lit "  [ok ] " ++ as_str tool) (List.filter is_infrastructure all_tools)
  ++ explicit_overrides_section policy
  ++ folder_policy_sections policy
  ++ match probe with
     | Ok info => at_ :: map (fun cap => lit "  [ok ] " ++ cap) (pi_capabilities info)
     | Err e => [at_ ++ lit " unavailable (" ++ imap_to_string e ++ lit ")"]
     end
  ++ fingerprint_section probe (cc_pinned_fingerprint conn_cfg).

(** The log is opened and locked for the time of the run; nothing is written. *)
(* [crates/rimap-server/src/cli/dry_run.rs:195-263] run *)
Definition dry_run (loaded : result ConfigError ValidatedMultiConfig) (path : rstr) (x : opening) (pid : Z)
    (probe : rstr -> result ImapError PreflightInfo) (d : disk) : disk * result RunError (list rstr) :=
  match loaded with
  | Err e => (d, Err (LoadingConfig path e))
  | Ok multi =>
      match audit_open (options_of (vm_audit multi) SEQ_FIRST) x pid d with
      | (d, Err e) => (d, Err (OpeningAudit (audit_path (vm_audit multi)) e))
      | (d, Ok _) =>
          let accounts := btree_iter (Config.accounts multi) in
          (d, Ok (concat (map (fun '(id, acfg) => dry_run_account (1 <? length accounts)%nat id acfg (probe id)) accounts)))
      end
  end.
End dry_run.

(** ** The first record continues the chain *)

Lemma open_active_content d d' f : open_active d = (d', f) ->
  AuditWriter.active d' = Some f /\ content d' f = (match AuditWriter.active d with Some g => content d g | None => [] end).
Proof.
  unfold open_active. destruct (AuditWriter.active d) as [g|] eqn:E; intros [= <- <-]; [done|]. split; [done|].
  unfold content. cbn. by rewrite lookup_insert_eq.
Qed.

(** C17: a start continues the history of the log it finds.  When the server
    starts, it holds the lock; its first record is process_start, numbered one
    after the last record found (from 1 in a new log, and no further than the
    largest number), naming that record's number and process, and flagging the
    file when its inode is not the one recorded.  Where the write is not
    suppressed or rotated, the record is one line appended to what was there;
    the numbers go on from it. *)
Theorem start_continues_chain `{FolderText} `{RecordJson} build multi config_path e d d' cfg st :
  init_audit_writer_multi build multi config_path e d = (d', Ok (cfg, st)) ->
  exists trailing p, read_trailing_state (content d <$> AuditWriter.active d) = Ok trailing /\ lock (se_opening e) = LockTaken /\
    let s0 := match last_seq trailing with None => 1 | Some s => Z.min u64_max (s + 1) end in
    let r := mkAuditRecord s0 (se_now e) (se_pid e) (PProcessStart p) in
    previous_last_seq p = last_seq trailing /\ previous_process_id p = last_process_id trailing /\
    (audit_file_inode_changed p = true <-> exists i, last_recorded_inode trailing = Some i /\ se_inode e <> Some i) /\
    next_seq (writer st) = (s0 + 1) mod 2 ^ 64 /\ w_process_id (writer st) = se_pid e /\
    (Config.fail_open (vm_audit multi) = false -> se_timeout e = false ->
     rotation_due cfg (Z.of_nat (length (default [] (content d <$> AuditWriter.active d)))) = false ->
     exists f line, to_vec r = Some line /\ AuditWriter.active d' = Some f /\
       content d' f = default [] (content d <$> AuditWriter.active d) ++ line ++ [10]).
Proof.
  unfold init_audit_writer_multi. destruct (read_trailing_state _) as [trailing|err] eqn:Et; [|done].
  set (s0 := match last_seq trailing with None => SEQ_FIRST | Some s => seq_next s end).
  unfold audit_open. destruct (parent_missing _ && _); [done|]. destruct (file_opens _); [|done]. cbn [negb].
  destruct (open_active d) as [d1 f] eqn:Eo. apply open_active_content in Eo as [Ha Hc].
  destruct (lock (se_opening e)) eqn:El; [|done|done]. destruct (metadata_reads _); [|done]. cbn [negb].
  destruct (se_inode e) as [current|] eqn:Ei; [|done]. unfold options_of. cbn [ao_rotate_bytes ao_rotate_keep ao_retention_seconds ao_fail_open ao_initial_seq].
  set (cfg0 := mkWorkerConfig _ _ _). set (inputs := start_inputs _ _ _ _ _ _). set (p := process_start_of inputs).
  unfold log_process_start, emit, allocate_seq. cbn [writer w_fail_open w_process_id suppressed_failures tool_calls next_seq on_disk inner]. fold p.
  set (st0 := AuditWriter.mkState _ d1 _). set (r := mkAuditRecord _ _ _ _).
  destruct (write_record cfg0 (se_io e) (se_timeout e) st0 r) as [st1 res] eqn:Ew. intros Heq.
  assert (Hres : res = Ok tt) by (destruct res as [[]|]; [done|]; by destruct st1). subst res. cbn in Heq. injection Heq as <- <- <-.
  exists trailing, p. split; [done|]. split; [done|]. cbv zeta. split; [done|]. split; [done|]. split.
  { cbn. destruct (last_recorded_inode trailing) as [i|]; [|by split; [|intros (? & ? & _)]].
    rewrite negb_true_iff, Z.eqb_neq. split; [intros Hne; exists i; split; [done|congruence]|]. intros (j & [= <-] & Hj) ->. done. }
  destruct (write_record_ok _ _ _ _ _ _ Ew) as (Hn & Hp & Hw). split; [exact Hn|]. split; [exact Hp|].
  intros Hfo Hto Hdue. destruct (Hw Hfo Hto) as (line & i & Hv & Hpw). change (on_disk st0) with d1 in Hpw. exists f, line. split; [exact Hv|].
  assert (Hold : content d1 f = default [] (content d <$> AuditWriter.active d)) by (rewrite Hc; by destruct (AuditWriter.active d)).
  apply perform_write_fresh in Hpw as [Hcont Hact].
  - split; [by rewrite Hact|]. by rewrite Hcont, Hold.
  - cbn [inner bytes_written]. by rewrite Hold.
Qed.

(** ** How a run ends *)

(** A transport the run counts as clean: the request that came too early was
    answered, or the session ended with its input and both bridges closed, or
    the initialize was refused with its answer on the wire. *)
Definition clean_end `{JsonText} (t : transport_env) : Prop :=
  tr_intercepted t = true \/
  match tr_init t with
  | InitOk => service_outcome (tr_race t) = Ok tt /\ tr_drain t = Ok tt
  | InitBridge _ => False
  | InitRmcp (ExpectedInitializeRequest msg) =>
      (synthesize_pre_init_error_envelope msg = None \/ tr_written t = None) /\ tr_shutdown_after_failure t = Ok tt
  | InitRmcp (InitializeFailed code _) => code = -32602 /\ tr_shutdown_after_failure t = Ok tt
  | InitRmcp (OtherInit _) => False
  end.

Lemma serve_mcp_ok `{JsonText} {A} (registry : result BootError A) t :
  so_result (serve_mcp registry t) = Ok tt <-> (exists a, registry = Ok a) /\ clean_end t.
Proof.
  unfold serve_mcp, clean_end. destruct registry as [a|e]; [|split; [done|naive_solver]].
  destruct (tr_intercepted t); [cbn; naive_solver|]. destruct (tr_init t) as [|b|[msg|code m|text]]; cbn [so_result].
  - destruct (service_outcome _) as [[]|e]; [|naive_solver]. destruct (tr_drain t) as [[]|e]; cbn; naive_solver.
  - naive_solver.
  - unfold handle_init_failure, emit_pre_init_error_envelope. rewrite map_err_ok.
    destruct (synthesize_pre_init_error_envelope msg), (tr_written t), (tr_shutdown_after_failure t) as [[]|]; cbn; naive_solver.
  - unfold handle_init_failure, handle_initialize_failed, initialize_failure_is_handled_rejection. rewrite map_err_ok.
    destruct (tr_shutdown_after_failure t) as [[]|], (Z.eqb_spec code (-32602)); cbn; naive_solver.
  - cbn. naive_solver.
Qed.

Lemma download_dir_error fs multi err : resolve_download_dir fs multi = Err err -> exists x, err = PreparingDownloads x.
Proof.
  unfold resolve_download_dir. set (dir := match download_dir _ with [] => _ | _ => _ end). intros Hr.
  assert (Hd : forall e, dir = Err e -> exists x, e = PreparingDownloads x).
  { subst dir. intros e. destruct (download_dir _) as [|z l].
    - destruct (de_tempdir _ _); intros [= <-]; eauto.
    - destruct (de_create_all _ _); intros [= <-]; eauto. }
  destruct dir as [a|e]; cbn [result_bind] in Hr; [|injection Hr as <-; eauto].
  change (match de_chmod_0700 fs a with Some e => Err (PreparingDownloads (lit "setting 0700 perms on " ++ a ++ lit ": " ++ e)) | None => Ok a end = Err err) in Hr.
  destruct (de_chmod_0700 _ _); [injection Hr as <-; eauto|done].
Qed.

(** The initialization of the session went through. *)
Definition init_done (t : transport_env) : bool := match tr_init t with InitOk => true | _ => false end.

(** C16: a run of the server is accounted for at its end.  Without a last
    record it failed before the accounts were booted, with an error of one of
    the five steps before that, and nothing but the log's opening was written.
    Otherwise exactly one last record is handed to the log, after everything
    else.  It holds the writer's counts of calls and lost records; the
    dispatches the drain left behind if the accounts booted, else 0; and the
    records the drainer's abort lost if a session was served (the accounts
    booted, no early request was intercepted, the initialization went through),
    else 0.  Its reason is Eof where the run succeeds and Error where it does not; and the run succeeds
    exactly when every account booted and the transport ended cleanly, even
    when the last record could not be written. *)
Theorem run_ends_recorded `{FolderText} `{RecordJson} `{JsonText} `{Limiter L} build cli e d :
  let rep := run_server (L := L) build cli e d in
  match rr_end rep with
  | None => rr_policies rep = [] /\ exists err, rr_result rep = Err err /\
      match err with
      | NoConfigPath | LoadingConfig _ _ => rr_disk rep = d
      | OpeningAudit _ _ | PreparingDownloads _ | CreatingRuntime _ =>
          exists path multi, re_loads e path = Ok multi /\ rr_disk rep = (init_audit_writer_multi build multi path (re_start e) d).1
      | _ => False
      end
  | Some p => exists path multi d1 cfg st dir,
      re_loads e path = Ok multi /\ init_audit_writer_multi build multi path (re_start e) d = (d1, Ok (cfg, st)) /\
      resolve_download_dir (re_dirs e) multi = Ok dir /\
      let boot := build_registry (L := L) (re_boot e) multi dir in
      let before := re_between e st in
      rr_policies rep = boot.1 /\
      total_tool_calls p = tool_calls (writer before) /\ records_lost p = suppressed_failures (writer before) /\
      undrained_dispatches p = (if is_ok boot.2 then tr_undrained (re_transport e) else 0) /\
      drainer_aborted_records p =
        (if is_ok boot.2 && negb (tr_intercepted (re_transport e)) && init_done (re_transport e)
         then tr_drainer_aborted (re_transport e) else 0) /\
      rr_disk rep = on_disk (log_process_end cfg (re_end_io e) (re_end_timeout e) (re_end_now e) before p).1 /\
      (pe_reason p = Eof /\ rr_result rep = Ok tt \/ pe_reason p = EndError /\ exists err, rr_result rep = Err err) /\
      (rr_result rep = Ok tt <-> is_ok boot.2 = true /\ clean_end (re_transport e))
  end.
Proof.
  cbv zeta. unfold run_server. destruct (resolve_cli_config_path _ _ _) as [path|err] eqn:Ep.
  2: { cbn. split; [done|]. exists err. split; [done|]. unfold resolve_cli_config_path in Ep. destruct (cli_config cli); [done|].
       destruct (resolve_config_path _ _ _); [done|]. by injection Ep as <-. }
  destruct (re_loads e path) as [multi|err] eqn:El; [|cbn; split; [done|]; by eexists].
  destruct (init_audit_writer_multi build multi path (re_start e) d) as [d1 [[cfg st]|err]] eqn:Ei.
  2: { cbn. split; [done|]. eexists; split; [done|]. exists path, multi. by rewrite Ei. }
  destruct (resolve_download_dir (re_dirs e) multi) as [dir|err] eqn:Ed.
  2: { cbn. split; [done|]. exists err. split; [done|]. unfold resolve_download_dir in Ed.
       apply download_dir_error in Ed as [x ->]. exists path, multi. by rewrite Ei. }
  destruct (re_runtime e) as [u|err]; [|cbn; split; [done|]; eexists; split; [done|]; exists path, multi; by rewrite Ei].
  destruct (build_registry (re_boot e) multi dir) as [policies registry] eqn:Er.
  set (outcome := serve_mcp registry (re_transport e)). set (p := process_end_of _ _).
  destruct (log_process_end _ _ _ _ _ p) as [st' r] eqn:Ew. cbn [rr_end rr_policies rr_disk rr_result].
  exists path, multi, d1, cfg, st, dir. cbv zeta. rewrite Er. do 3 (split; [done|]). do 3 (split; [done|]). split; [|split; [|split; [by rewrite Ew|split]]].
  - subst p outcome. unfold serve_mcp. destruct registry; [|done]. cbn. by repeat case_match.
  - subst p outcome. unfold serve_mcp. destruct registry; [|done]. cbn. unfold init_done. destruct (tr_intercepted _); [done|].
    by destruct (tr_init _).
  - subst p. unfold process_end_of. cbn. destruct (so_result outcome) as [[]|]; eauto.
  - unfold outcome. rewrite serve_mcp_ok. destruct registry; cbn; naive_solver.
Qed.

(** ** The accounts that boot *)

Section booted.
Context `{FolderText} {L : Type} `{Limiter L} (env : boot_env) (dir : rstr).

(** What a booted account is made of: the configuration's own posture, limits
    and folders, and a breaker that has seen nothing. *)
Lemma boot_account_ok id acfg records b : boot_account (L := L) env dir id acfg = (records, Ok b) ->
  bo_id b = id /\ bo_imap b = build_account_connection id acfg /\ bo_download_dir b = dir /\
  matrix (bo_guard b) = matrix_build (Config.posture (v_security acfg)) (v_tool_overrides acfg) /\
  Breaker.state (breaker (bo_guard b)) = Closed /\
  (is_Some (bo_smtp b) <-> is_Some (v_smtp acfg)) /\
  exists policy, resolve_folder_policy acfg (be_listing env id) (be_log env) = (records, Ok policy) /\
    bo_folder_guard b = policy_guard policy /\ bo_special_use b = special_use_map policy.
Proof.
  unfold boot_account. destruct (build_account_guard acfg) as [g|e] eqn:Eg; [|done].
  destruct (resolve_folder_policy _ _ _) as [rs [policy|e]]; [|done]. cbn [map_err].
  destruct (build_smtp_client env acfg) as [smtp|e] eqn:Es; [|done]. intros [= <- <-]. cbn.
  split_and!; [done|done|done| | | |by exists policy].
  - unfold build_account_guard in Eg. destruct (governor_new _ _ _); [|done]. by injection Eg as <-.
  - unfold build_account_guard in Eg. destruct (governor_new _ _ _); [|done]. by injection Eg as <-.
  - unfold build_smtp_client in Es. destruct (v_smtp acfg) as [s|]; [|by injection Es as <-].
    destruct (map_err _ (Credentials.resolve_credential _ _ _ _ _ _ _)) as [[pw src]|e]; [|done].
    cbn in Es. destruct (map_err _ (smtp_client_new _ _ _)) as [c|e]; [|done]. injection Es as <-. split; eauto.
Qed.

Notation boots p := (boot_account (L := L) env dir p.1 p.2).

(** The accounts boot one after the other. *)
Lemma boot_accounts_spec : forall todo states,
  match boot_accounts env dir todo states with
  | (records, Ok out) => records = concat (map (fun p => (boots p).1) todo) /\
      exists bs, Forall2 (fun p b => (boots p).2 = Ok b) todo bs /\
        out = fold_left (fun m x => <[x.1 := x.2]> m) (zip todo.*1 bs) states
  | (records, Err e) => exists pre id acfg rest, todo = pre ++ (id, acfg) :: rest /\
      Forall (fun p => is_ok (boots p).2 = true) pre /\ (boot_account env dir id acfg).2 = Err e /\
      records = concat (map (fun p => (boots p).1) (pre ++ [(id, acfg)]))
  end.
Proof.
  induction todo as [|[id acfg] todo IH]; intros states; cbn [boot_accounts]; [split; [done|]; by exists []|].
  destruct (boot_account env dir id acfg) as [rs r] eqn:Eb. destruct r as [b|e].
  2: { exists [], id, acfg, todo. cbn. rewrite Eb. cbn. by rewrite app_nil_r. }
  specialize (IH (<[id := b]> states)). destruct (boot_accounts _ _ _ _) as [rs' [out|e]].
  - destruct IH as (-> & bs & Hbs & ->). cbn. rewrite Eb. split; [done|]. exists (b :: bs). split; [|done].
    constructor; [|done]. cbn. by rewrite Eb.
  - destruct IH as (pre & id' & acfg' & rest & -> & Hpre & He & ->). exists ((id, acfg) :: pre), id', acfg', rest.
    split_and!; [done| |done|cbn; by rewrite Eb]. constructor; [cbn; by rewrite Eb|done].
Qed.

(** Looking up what was inserted under distinct keys. *)
Lemma fold_insert_lookup {A} : forall (ks : list rstr) (bs : list A) (m : gmap rstr A) i k b, NoDup ks ->
  ks !! i = Some k -> bs !! i = Some b -> fold_left (fun m x => <[x.1 := x.2]> m) (zip ks bs) m !! k = Some b.
Proof.
  assert (Hout : forall (ks : list rstr) (bs : list A) (m : gmap rstr A) k, k ∉ ks ->
    fold_left (fun m x => <[x.1 := x.2]> m) (zip ks bs) m !! k = m !! k).
  { induction ks as [|k' ks IH]; intros [|b bs] m k Hk; cbn; try done. apply not_elem_of_cons in Hk as [Hne Hk].
    rewrite IH by done. by rewrite lookup_insert_ne. }
  induction ks as [|k' ks IH]; intros [|b' bs] m i k b Hnd Hk Hb; [done|done|by destruct i|]. apply NoDup_cons in Hnd as [Hn Hnd].
  destruct i as [|i]; cbn in *; [|by eapply IH]. injection Hk as <-. injection Hb as <-. by rewrite Hout, lookup_insert_eq.
Qed.

Lemma fold_insert_inv {A} : forall (ks : list rstr) (bs : list A) (m : gmap rstr A) k b,
  fold_left (fun m x => <[x.1 := x.2]> m) (zip ks bs) m !! k = Some b ->
  m !! k = Some b \/ exists i, ks !! i = Some k /\ bs !! i = Some b.
Proof.
  induction ks as [|k' ks IH]; intros [|b' bs] m k b; cbn; [auto|auto|auto|]. intros [Hm|(i & Hk & Hb)]%IH; [|right; by exists (S i)].
  destruct (decide (k = k')) as [->|]; [|left; by rewrite lookup_insert_ne in Hm].
  rewrite lookup_insert_eq in Hm. injection Hm as ->. right. by exists 0%nat.
Qed.

(** The server starts with every configured account or with none.  Where all
    boot, exactly the configured accounts are registered, each under its
    identifier as it booted, and there is a folder_policy record for each, in the order of the
    identifiers; where one fails, the records are those of the accounts before
    it and its own. *)
Theorem boot_complete multi :
  match build_registry (L := L) env multi dir with
  | (records, Ok states) =>
      (forall id acfg, Config.accounts multi !! id = Some acfg -> exists b, (boot_account env dir id acfg).2 = Ok b /\ states !! id = Some b) /\
      (forall id b, states !! id = Some b -> exists acfg, Config.accounts multi !! id = Some acfg /\ (boot_account env dir id acfg).2 = Ok b) /\
      records = concat (map (fun p => (boots p).1) (btree_iter (Config.accounts multi)))
  | (records, Err e) => exists pre id acfg rest, btree_iter (Config.accounts multi) = pre ++ (id, acfg) :: rest /\
      Forall (fun p => is_ok (boots p).2 = true) pre /\ (boot_account env dir id acfg).2 = Err e /\
      records = concat (map (fun p => (boots p).1) (pre ++ [(id, acfg)]))
  end.
Proof.
  unfold build_registry. pose proof (boot_accounts_spec (btree_iter (Config.accounts multi)) ∅) as Hb.
  destruct (boot_accounts _ _ _ _) as [records [states|e]]; [|done]. destruct Hb as (-> & bs & Hbs & ->). split; [|split; [|done]].
  2: { intros id b [Hb|(i & Hk & Hb)]%fold_insert_inv; [by rewrite lookup_empty in Hb|].
       destruct (Forall2_lookup_r _ _ _ _ _ Hbs Hb) as ([id' acfg] & Hi & Hok). rewrite list_lookup_fmap, Hi in Hk. injection Hk as ->.
       exists acfg. split; [|exact Hok]. apply elem_of_map_to_list. rewrite <- btree_iter_perm. by eapply list_elem_of_lookup_2. }
  intros id acfg Hid. destruct (btree_iter_map (Config.accounts multi)) as [Hnd _].
  assert (Hin : (id, acfg) ∈ btree_iter (Config.accounts multi)) by (rewrite btree_iter_perm; by apply elem_of_map_to_list).
  apply list_elem_of_lookup in Hin as [i Hi]. destruct (Forall2_lookup_l _ _ _ _ _ Hbs Hi) as (b & Hb & Hok).
  exists b. split; [done|]. eapply fold_insert_lookup; [done| |done]. by rewrite list_lookup_fmap, Hi.
Qed.
End booted.

(** ** What the dry run shows *)

Definition content_tools : list ToolName := List.filter (fun t => negb (is_infrastructure t)) all_tools.

Lemma verdict_rows (m : EffectiveMatrix) : omap (fun '(tool, allowed) =>
    if is_infrastructure tool then None
    else Some (lit "  " ++ (if (allowed : bool) then lit "[ok ]" else lit "[deny]") ++ lit " " ++ as_str tool)) (matrix_rows m) =
  map (fun t => lit "  " ++ (if is_ok (matrix_check m t) then lit "[ok ]" else lit "[deny]") ++ lit " " ++ as_str t) content_tools.
Proof.
  unfold matrix_rows, content_tools. induction all_tools as [|t l IH]; [done|]. cbn [map omap list_omap List.filter].
  destruct (is_infrastructure t); cbn [negb]; [exact IH|]. cbn [map]. f_equal; [|exact IH].
  unfold matrix_check. by destruct (matrix_allows m t).
Qed.

(** The rows of a dry run are the server's own decisions: the line of a content
    tool says ok exactly where the guard the account boots with lets the tool
    pass its matrix. *)
Theorem dry_run_rows `{FolderText} `{Limiter L} several id acfg probe (g : DispatchGuard L) :
  build_account_guard acfg = Ok g ->
  exists title rest, dry_run_account several id acfg probe =
    (if several then [lit "Account: " ++ id] else []) ++ title ::
    map (fun t => lit "  " ++ (if is_ok (matrix_check (matrix g) t) then lit "[ok ]" else lit "[deny]") ++ lit " " ++ as_str t) content_tools
    ++ rest.
Proof.
  intros Hg. assert (matrix g = matrix_build (Config.posture (v_security acfg)) (v_tool_overrides acfg)) as ->.
  { unfold build_account_guard in Hg. destruct (governor_new _ _ _); [|done]. by injection Hg as <-. }
  unfold dry_run_account. rewrite verdict_rows. by eexists _, _.
Qed.

(** It writes no record: every file of the log keeps its contents. *)
Theorem dry_run_writes_nothing `{FolderText} loaded path x pid probe d f :
  (forall g, fresh d <= g -> files d !! g = None)%nat ->
  content (dry_run loaded path x pid probe d).1 f = content d f.
Proof.
  intros Hfresh. unfold dry_run. destruct loaded as [multi|e]; [|done].
  assert (Ho : content (audit_open (options_of (vm_audit multi) SEQ_FIRST) x pid d).1 f = content d f).
  { unfold audit_open. destruct (_ && _); [done|]. destruct (negb _); [done|].
    assert (Hd : content (open_active d).1 f = content d f).
    { unfold open_active. destruct (AuditWriter.active d); [done|]. unfold content. cbn.
      destruct (decide (f = fresh d)) as [->|]; [by rewrite lookup_insert_eq, Hfresh|by rewrite lookup_insert_ne]. }
    destruct (open_active d) as [d1 g]. destruct (lock x); [|done|done]. by destruct (negb _). }
  destruct (audit_open _ _ _ _) as [d1 [c|e]]; exact Ho.
Qed.

(** ** At concrete inputs *)

#[local] Existing Instance AuditWriter.header_json.

Definition sample_build : build_info := mkBuild (lit "0.1.0") (lit "abc123") (fun bs => firstn 32 (bs ++ repeat 0 32)).
Definition sample_multi : ValidatedMultiConfig :=
  mkValidatedMulti {[lit "work" := sample_account]} (mkAudit (lit "/var/log/audit.jsonl") 0 0 None 600 15 false None)
    (mkAttachments []).
Definition sample_start : start_env :=
  mkStart (mkOpening false false true LockTaken true) 42 (Some 9) (Some [1; 2]) 1700 all_ok false.
(** A log that an earlier process, numbered 7, left at its fifth record. *)
Definition sample_old : list Z :=
  default [] (to_vec (mkAuditRecord 5 1600 7 (PConfig (mkConfigEvent (lit "/etc/r.toml") (lit "00"))))) ++ [10].
Definition sample_disk : disk := mkDisk (Some 0%nat) {[0%nat := sample_old]} 1.

Lemma start_continues_chain_witness : exists d' cfg st line,
  init_audit_writer_multi sample_build sample_multi (lit "/etc/c.toml") sample_start sample_disk = (d', Ok (cfg, st)) /\
  next_seq (writer st) = 7 /\ content d' 0 = sample_old ++ line ++ [10].
Proof.
  destruct (init_audit_writer_multi sample_build sample_multi (lit "/etc/c.toml") sample_start sample_disk)
    as [d' [[cfg st]|e]] eqn:E; [|vm_compute in E; discriminate].
  destruct (start_continues_chain _ _ _ _ _ _ _ _ E) as (trailing & p & Ht & _ & _ & _ & _ & Hn & _ & Hw).
  assert (Hl : last_seq trailing = Some 5) by (vm_compute in Ht; injection Ht as <-; reflexivity). rewrite Hl in Hn.
  assert (Hd : rotation_due cfg (Z.of_nat (length (default [] (content sample_disk <$> AuditWriter.active sample_disk)))) = false)
    by (vm_compute in E; injection E as _ <- _; reflexivity).
  destruct (Hw eq_refl eq_refl Hd) as (f & line & _ & Ha & Hc).
  assert (f = 0%nat) as -> by (vm_compute in E; injection E as <- _ _; cbn in Ha; congruence).
  exists d', cfg, st, line. split; [reflexivity|]. split; [rewrite Hn; reflexivity|exact Hc].
Defined.

(** ** What the documents say *)

(** The reasons a signal is documented to leave are never written. *)
Lemma never_a_signal w o : pe_reason (process_end_of w o) <> SignalInt /\ pe_reason (process_end_of w o) <> SignalTerm.
Proof. unfold process_end_of. cbn. by destruct (so_result o). Qed.

(** A failure after the first record and before the transport leaves no last
    record. *)
Lemma failed_start_is_open_ended `{JsonText} : let rep := run_server (L := Z) sample_build (mkCli (Some (lit "/etc/c.toml")) false None)
    (mkRunEnv (fun _ => None) None (fun _ => Ok sample_multi) sample_start
       (mkDirEnv (fun _ => None) (fun _ => Err (lit "no space left")) (fun _ => None)) (Ok tt)
       (mkBootEnv (fun bs => bs) (mkKeyring (fun _ => None) (fun _ => Ok None) (fun _ => None)) (fun _ => None) (fun _ => None) (fun _ => Ok []) (fun _ => None))
       (mkTransport InitOk false None 0 (ServiceFirst (Ok tt)) (Ok tt) (Ok tt) 0) (fun st => st) all_ok false 1701) sample_disk in
  is_ok (rr_result rep) = false /\ rr_end rep = None /\ (length sample_old < length (content (rr_disk rep) 0%nat))%nat.
Proof. vm_compute. split_and!; [done|done|lia]. Qed.

(** A subcommand and --dry-run together are accepted, and the subcommand runs. *)
Lemma subcommand_wins config c : dispatch (mkCli config true (Some c)) = RunCommand c.
Proof. done. Qed.
