(* ===== verification/Export.v ===== *)
(** * The export tool (crates/rimap-server/src/tools/retrieval/export_messages.rs)

    From the arguments to the mbox in the download directory.  The account's
    IMAP operations are the class [ExportSource], as in the code, with the laws
    the tool relies on; [account_source] gives them for the modelled fetch. *)

From Stdlib Require Import ZArith Lia.
From stdpp Require Import base option list numbers strings sets gmap.
From S2P Require Import Prelude RustStr Errors ImapErrors UidSet Fetch.
From S2P Require Import Validation Mbox Sandbox.
Local Open Scope Z_scope.

(* [crates/rimap-server/src/tools/retrieval/export_messages.rs:17-17] MAX_EXPORT_TOTAL_BYTES *)
Definition MAX_EXPORT_TOTAL_BYTES : Z := 100 * 1024 * 1024.
(* [crates/rimap-server/src/tools/retrieval/export_messages.rs:104-104] MAX_EXPORT_UIDS *)
Definition MAX_EXPORT_UIDS : Z := 100.

(* [crates/rimap-server/src/tools/retrieval/export_messages.rs:21-45] ExportMessagesInput *)
Record ExportMessagesInput := mkExportInput {
  e_folder : rstr;
  e_uids : list Z;
  e_expected_uidvalidity : Z;
  e_dest_dir : option rstr;
  e_filename : option rstr;
  e_max_total_bytes : option Z;
  e_allow_partial : option bool }.

(* [crates/rimap-server/src/tools/retrieval/export_messages.rs:49-52] ExportedUid *)
Record ExportedUid := mkExported { x_uid : Z; x_size_bytes : Z }.

(* [crates/rimap-server/src/tools/retrieval/export_messages.rs:60-63] ExportFailReason *)
Inductive ExportFailReason := NotFound | Oversize.
#[export] Instance ExportFailReason_eq_dec : EqDecision ExportFailReason.
Proof. solve_decision. Defined.

(* [crates/rimap-server/src/tools/retrieval/export_messages.rs:67-70] FailedUid *)
Record FailedUid := mkFailed { failed_uid : Z; failed_reason : ExportFailReason }.

(* [crates/rimap-server/src/tools/retrieval/export_messages.rs:74-99] ExportMessagesMeta *)
Record ExportMessagesMeta := mkExportMeta {
  x_folder : rstr;
  x_complete : bool;
  x_path : option rstr;
  x_partial_path : option rstr;
  x_sha256 : rstr;
  x_message_count : Z;
  x_total_bytes : Z;
  x_uid_validity : Z;
  x_succeeded : list ExportedUid;
  x_failed : list FailedUid }.

(** ** Arguments *)

(* [crates/rimap-server/src/tools/retrieval/export_messages.rs:124-130] validate_uids *)
Fixpoint dedup_uids (seen : list Z) (uids : list Z) : list Z :=
  match uids with
  | [] => []
  | u :: uids =>
      if existsb (Z.eqb u) seen then dedup_uids seen uids else u :: dedup_uids (u :: seen) uids
  end.

(* [crates/rimap-server/src/tools/retrieval/export_messages.rs:113-132] validate_uids *)
Definition validate_uids (uids : list Z) : result RimapError (list Z) :=
  match uids with
  | [] => Err (invalid_input (lit "uids must not be empty"))
  | _ =>
      if MAX_EXPORT_UIDS <? Z.of_nat (length uids)
      then Err (invalid_input (lit "uids exceeds the maximum of " ++ to_decimal MAX_EXPORT_UIDS ++ lit " per export"))
      else Ok (dedup_uids [] uids)
  end.

(* [crates/rimap-server/src/tools/retrieval/export_messages.rs:135-137] clamp_total_bytes *)
Definition clamp_total_bytes (requested : option Z) : Z :=
  match requested with Some n => Z.min n MAX_EXPORT_TOTAL_BYTES | None => MAX_EXPORT_TOTAL_BYTES end.

(* [crates/rimap-server/src/tools/retrieval/export_messages.rs:165-167] sanitize_filename_prefix *)
Definition prefix_byte (b : Z) : bool := is_ascii_alphanumeric b || (b =? 46) || (b =? 95) || (b =? 45).

(* [crates/rimap-server/src/tools/retrieval/export_messages.rs:154-175] sanitize_filename_prefix *)
Definition sanitize_filename_prefix (prefix : option rstr) : result RimapError rstr :=
  match prefix with
  | None => Ok (lit "messages")
  | Some raw =>
      let trimmed := trim raw in
      let valid := negb (str_eqb trimmed []) && (str_len trimmed <=? 64)
        && match str_bytes trimmed with b :: _ => is_ascii_alphanumeric b | [] => false end
        && forallb prefix_byte (str_bytes trimmed) in
      if valid then Ok trimmed
      else Err (invalid_input (lit "filename prefix must match [A-Za-z0-9][A-Za-z0-9._-]{0,63} (conservative ASCII basename)"))
  end.

(** ** The source of messages *)

(* [crates/rimap-server/src/tools/retrieval/export_messages.rs:182-211] ExportSource *)
Class ExportSource := {
  fetch_sizes : rstr -> list Z -> Z -> result RimapError (list (Z * option Z) * option Z);
  fetch_one_body : rstr -> Z -> Z -> Z -> result RimapError (list Z);
  (** A reported UIDVALIDITY is the expected one. *)
  fetch_sizes_pinned folder uids expected sizes v :
    fetch_sizes folder uids expected = Ok (sizes, Some v) -> v = expected;
  (** A body is no longer than its limit. *)
  fetch_one_body_within folder uid expected limit body : 0 <= limit < u64_max ->
    fetch_one_body folder uid expected limit = Ok body -> Z.of_nat (length body) <= limit }.

(* [crates/rimap-server/src/tools/retrieval/export_messages.rs:664-671] PreflightSize *)
Inductive PreflightSize := Absent | PresentUnknown | Present (size : Z).

(* [crates/rimap-server/src/tools/retrieval/export_messages.rs:655-660] UidPlan *)
Inductive UidPlan := Skip (reason : ExportFailReason) | DoFetch.

(* [crates/rimap-server/src/tools/retrieval/export_messages.rs:676-684] classify_uid *)
Definition classify_uid (size : PreflightSize) (per_msg_cap : Z) : UidPlan :=
  match size with
  | Absent => Skip NotFound
  | Present sz => if per_msg_cap <? sz then Skip Oversize else DoFetch
  | PresentUnknown => DoFetch
  end.

(* [crates/rimap-server/src/tools/retrieval/export_messages.rs:311-315] FetchLimits *)
Record FetchLimits := mkLimits { expected : Z; per_msg_cap : Z; budget : Z }.

(* [crates/rimap-server/src/tools/retrieval/export_messages.rs:296-305] RunPlan *)
Record RunPlan := mkPlan {
  p_folder : rstr;
  p_dest : DestDir;
  p_prefix : rstr;
  p_uids : list Z;
  p_expected : Z;
  p_budget : Z;
  p_per_msg_cap : Z;
  p_allow_partial : bool }.

(* [crates/rimap-server/src/tools/retrieval/export_messages.rs:329-338] incomplete_export_error *)
Definition incomplete_export_error (failed_uids : list Z) : RimapError :=
  invalid_input (lit "export incomplete (set allow_partial=true to override); failed UIDs: " ++
    join (lit ", ") (map to_decimal failed_uids)).

(* [crates/rimap-server/src/tools/retrieval/export_messages.rs:605-608] FetchOutcome *)
Record FetchOutcome := mkOutcome { o_uid : Z; o_result : result ExportFailReason (list Z) }.

(* [crates/rimap-server/src/tools/retrieval/export_messages.rs:611-621] Outcome *)
Inductive Outcome :=
  | Abort (failed : list FailedUid)
  | Proceed (complete : bool) (bodies : list (list Z)) (succeeded : list ExportedUid) (failed : list FailedUid).

(* [crates/rimap-server/src/tools/retrieval/export_messages.rs:626-651] plan_outcome *)
Fixpoint partition_outcomes (outcomes : list FetchOutcome) : list (list Z) * list ExportedUid * list FailedUid :=
  match outcomes with
  | [] => ([], [], [])
  | o :: os =>
      let '(bodies, succeeded, failed) := partition_outcomes os in
      match o_result o with
      | Ok body => (body :: bodies, mkExported (o_uid o) (Z.of_nat (length body)) :: succeeded, failed)
      | Err reason => (bodies, succeeded, mkFailed (o_uid o) reason :: failed)
      end
  end.

(* [crates/rimap-server/src/tools/retrieval/export_messages.rs:626-651] plan_outcome *)
Definition plan_outcome (outcomes : list FetchOutcome) (allow_partial : bool) : Outcome :=
  let '(bodies, succeeded, failed) := partition_outcomes outcomes in
  let complete := match failed with [] => true | _ => false end in
  if negb complete && negb allow_partial then Abort failed else Proceed complete bodies succeeded failed.

Section export.
Context `{src : ExportSource}.

(* [crates/rimap-server/src/tools/retrieval/export_messages.rs:476-483] preflight_sizes *)
Definition size_map (sizes : list (Z * option Z)) : gmap Z PreflightSize :=
  fold_left (fun m p => <[p.1 := match p.2 with Some sz => Present sz | None => PresentUnknown end]> m) sizes ∅.

(* [crates/rimap-server/src/tools/retrieval/export_messages.rs:490-498] preflight_sizes *)
Definition eligible_sum (uids : list Z) (size_by_uid : gmap Z PreflightSize) (limits : FetchLimits) : Z :=
  foldr Z.add 0 (omap (fun u => match size_by_uid !! u with
                                | Some (Present sz) => if sz <=? per_msg_cap limits then Some sz else None
                                | _ => None
                                end) uids).

(* [crates/rimap-server/src/tools/retrieval/export_messages.rs:460-505] preflight_sizes *)
Definition preflight_sizes (folder : rstr) (uids : list Z) (limits : FetchLimits)
    : result RimapError (gmap Z PreflightSize) :=
  '(sizes, uid_validity_opt) ← fetch_sizes folder uids (expected limits);
  match uid_validity_opt with
  | None => Err (invalid_input (lit "server omitted UIDVALIDITY; export_messages requires it to guard the mailbox"))
  | Some _ =>
      let size_by_uid := size_map sizes in
      if budget limits <? eligible_sum uids size_by_uid limits
      then Err (invalid_input (lit "export exceeds max_total_bytes"))
      else Ok size_by_uid
  end.

Definition size_of (size_by_uid : gmap Z PreflightSize) (u : Z) : PreflightSize := default Absent (size_by_uid !! u).

(** The body fetches made, each with its limit, and the outcome. *)
(* [crates/rimap-server/src/tools/retrieval/export_messages.rs:523-574] fetch_bodies *)
Fixpoint fetch_bodies (folder : rstr) (uids : list Z) (size_by_uid : gmap Z PreflightSize) (limits : FetchLimits)
    (running : Z) : list (Z * Z) * result RimapError (list FetchOutcome) :=
  match uids with
  | [] => ([], Ok [])
  | uid :: uids =>
      match classify_uid (size_of size_by_uid uid) (per_msg_cap limits) with
      | Skip reason =>
          let '(calls, r) := fetch_bodies folder uids size_by_uid limits running in
          (calls, cons (mkOutcome uid (Err reason)) <$> r)
      | DoFetch =>
          let body_limit := Z.min (per_msg_cap limits) (Z.max 0 (budget limits - running)) in
          match fetch_one_body folder uid (expected limits) body_limit with
          | Err e => ([(uid, body_limit)], Err e)
          | Ok body =>
              let running := u64_saturating_add running (Z.of_nat (length body)) in
              if budget limits <? running
              then ([(uid, body_limit)], Err (invalid_input (lit "export exceeds max_total_bytes")))
              else
                let '(calls, r) := fetch_bodies folder uids size_by_uid limits running in
                ((uid, body_limit) :: calls, cons (mkOutcome uid (Ok body)) <$> r)
          end
      end
  end.

Definition is_skip (p : UidPlan) : bool := match p with Skip _ => true | DoFetch => false end.

(** What one call reads from its surroundings besides the account: the digest,
    what happens around the write, the temporary name and the file's token. *)
Context (sha256_hex : list Z -> rstr) (w : write_world) (tmp token : rstr).

(** The directory afterwards, the body fetches made, and the result. *)
(* [crates/rimap-server/src/tools/retrieval/export_messages.rs:340-449] run_export *)
Definition run_export (plan : RunPlan) (d : dir) : dir * list (Z * Z) * result RimapError ExportMessagesMeta :=
  let limits := mkLimits (p_expected plan) (p_per_msg_cap plan) (p_budget plan) in
  match preflight_sizes (p_folder plan) (p_uids plan) limits with
  | Err e => (d, [], Err e)
  | Ok size_by_uid =>
      let preflight_failed :=
        List.filter (fun u => is_skip (classify_uid (size_of size_by_uid u) (p_per_msg_cap plan))) (p_uids plan) in
      if negb (p_allow_partial plan) && negb (bool_decide (preflight_failed = []))
      then (d, [], Err (incomplete_export_error preflight_failed))
      else
        let '(calls, outcomes) := fetch_bodies (p_folder plan) (p_uids plan) size_by_uid limits 0 in
        match outcomes with
        | Err e => (d, calls, Err e)
        | Ok outcomes =>
            match plan_outcome outcomes (p_allow_partial plan) with
            | Abort failed => (d, calls, Err (incomplete_export_error (map failed_uid failed)))
            | Proceed complete bodies succeeded failed =>
                let mbox := build_mbox bodies in
                let total_bytes := Z.of_nat (length mbox) in
                if p_budget plan <? total_bytes
                then (d, calls, Err (invalid_input (lit "framed mbox exceeds max_total_bytes")))
                else
                  let meta path partial_path := mkExportMeta (p_folder plan) complete path partial_path
                    (sha256_hex mbox) (Z.of_nat (length succeeded)) total_bytes (p_expected plan) succeeded failed in
                  match succeeded with
                  | [] => (d, calls, Ok (meta None None))
                  | _ =>
                      let suffix := if complete : bool then lit "mbox" else lit "partial.mbox" in
                      let filename := p_prefix plan ++ lit "-" ++ token ++ lit "." ++ suffix in
                      let '(d, written) := write_attachment w tmp (p_dest plan) filename mbox d in
                      (d, calls, written ← written;
                         Ok (if complete : bool then meta (Some written) None else meta None (Some written)))
                  end
            end
        end
  end.

(* [crates/rimap-server/src/tools/retrieval/export_messages.rs:265-292] handle *)
Definition handle_export (sys : system) (download_dir : rstr) (max_fetch_body_bytes : Z)
    (input : ExportMessagesInput) (d : dir) : dir * list (Z * Z) * result RimapError ExportMessagesMeta :=
  match
    (_ ← validate_folder_input (lit "folder") (e_folder input);
     prefix ← sanitize_filename_prefix (e_filename input);
     uids ← validate_uids (e_uids input);
     dest ← resolve_dest_dir_async sys (e_dest_dir input) download_dir;
     Ok (mkPlan (e_folder input) dest prefix uids (e_expected_uidvalidity input)
       (clamp_total_bytes (e_max_total_bytes input)) max_fetch_body_bytes (default false (e_allow_partial input))))
  with
  | Err e => (d, [], Err e)
  | Ok plan => run_export plan d
  end.
End export.

(** The token: nanoseconds and a counter, in hexadecimal. *)
Definition pad_hex (width : nat) (n : Z) : rstr :=
  let h := to_hex n in replicate (width - length h) 48 ++ h.

(* [crates/rimap-server/src/tools/retrieval/export_messages.rs:579-589] export_token *)
Definition export_token (nanos seq : Z) : rstr := pad_hex 16 (Z.min u64_max nanos) ++ pad_hex 4 seq.

(** ** The outcomes *)

Lemma dedup_uids_spec uids : forall seen,
  NoDup (dedup_uids seen uids) /\ Forall (fun u => ~ u ∈ seen) (dedup_uids seen uids) /\
  dedup_uids seen uids `sublist_of` uids /\ (forall u, u ∈ uids -> u ∈ seen \/ u ∈ dedup_uids seen uids).
Proof.
  induction uids as [|u uids IH]; intros seen; cbn [dedup_uids].
  - split_and!; [constructor|constructor|done|]. intros u. by rewrite elem_of_nil.
  - destruct (existsb (Z.eqb u) seen) eqn:E.
    + assert (Hu : u ∈ seen).
      { apply existsb_exists in E as (x & Hx & ->%Z.eqb_eq). by apply list_elem_of_In. }
      destruct (IH seen) as (H1 & H2 & H3 & H4). split_and!; [done|done|by constructor|].
      intros v [->|Hv]%elem_of_cons; [by left|by apply H4].
    + assert (Hu : ~ u ∈ seen).
      { intros Hu. assert (existsb (Z.eqb u) seen = true); [|congruence].
        apply existsb_exists. exists u. split; [by apply list_elem_of_In|apply Z.eqb_refl]. }
      destruct (IH (u :: seen)) as (H1 & H2 & H3 & H4). rewrite Forall_forall in H2. split_and!.
      * constructor; [|done]. intros Hx. apply (H2 u Hx). left.
      * constructor; [done|]. apply Forall_forall. intros v Hv. specialize (H2 v Hv). set_solver.
      * by constructor.
      * intros v [->|Hv]%elem_of_cons; [right; left|]. destruct (H4 v Hv) as [[->|]%elem_of_cons|]; [right; left|by left|right; by right].
Qed.

Definition body_of (o : FetchOutcome) : option (list Z) := match o_result o with Ok b => Some b | Err _ => None end.

Lemma partition_spec os bodies succeeded failed : partition_outcomes os = (bodies, succeeded, failed) ->
  bodies = omap body_of os /\
  succeeded = omap (fun o => match o_result o with Ok b => Some (mkExported (o_uid o) (Z.of_nat (length b))) | Err _ => None end) os /\
  failed = omap (fun o => match o_result o with Ok _ => None | Err r => Some (mkFailed (o_uid o) r) end) os.
Proof.
  revert bodies succeeded failed. induction os as [|o os IH]; intros bodies succeeded failed; cbn [partition_outcomes].
  - by intros [= <- <- <-].
  - destruct (partition_outcomes os) as [[b s] f]. destruct (IH b s f eq_refl) as (-> & -> & ->).
    destruct (o_result o) eqn:Eo; intros [= <- <- <-]; cbn [omap list_omap]; unfold body_of; rewrite !Eo; done.
Qed.

Definition total_len (bodies : list (list Z)) : Z := foldr (fun b n => Z.of_nat (length b) + n) 0 bodies.

Section outcomes.
Context `{src : ExportSource}.
Implicit Types (sizes : gmap Z PreflightSize) (limits : FetchLimits).

(** What a UID's preflight entry decides, and the body fetch behind it. *)
Definition settled folder sizes limits (calls : list (Z * Z)) (u : Z) (o : FetchOutcome) : Prop :=
  o_uid o = u /\
  match classify_uid (size_of sizes u) (per_msg_cap limits) with
  | Skip reason => o_result o = Err reason
  | DoFetch => exists limit body, (u, limit) ∈ calls /\ fetch_one_body folder u (expected limits) limit = Ok body /\
      o_result o = Ok body
  end.

Lemma settled_more folder sizes limits calls c u o :
  settled folder sizes limits calls u o -> settled folder sizes limits (c :: calls) u o.
Proof.
  intros [H1 H2]. split; [done|]. destruct (classify_uid _ _); [done|].
  destruct H2 as (limit & body & Hc & Hr). exists limit, body. split; [by right|done].
Qed.

Lemma fetch_bodies_spec folder uids sizes limits : 0 <= budget limits < u64_max -> 0 <= per_msg_cap limits ->
  forall running calls r, 0 <= running <= budget limits ->
  fetch_bodies folder uids sizes limits running = (calls, r) ->
  Forall (fun c => classify_uid (size_of sizes c.1) (per_msg_cap limits) = DoFetch /\
                   0 <= c.2 <= per_msg_cap limits /\ c.2 <= budget limits) calls /\
  map fst calls `sublist_of` uids /\
  (forall outcomes, r = Ok outcomes -> Forall2 (settled folder sizes limits calls) uids outcomes /\
     running + total_len (omap body_of outcomes) <= budget limits).
Proof.
  intros Hb Hcap. induction uids as [|u uids IH]; intros running calls r Hrun; cbn [fetch_bodies].
  - intros [= <- <-]. split_and!; [done|done|]. intros ? [= <-]. split; [done|]. cbn. lia.
  - destruct (classify_uid (size_of sizes u) (per_msg_cap limits)) as [reason|] eqn:Ec.
    + destruct (fetch_bodies folder uids sizes limits running) as [calls' r'] eqn:Ef.
      intros [= <- <-]. destruct (IH _ _ _ Hrun Ef) as (H1 & H2 & H3). split_and!; [done|by constructor|].
      intros outcomes Ho. destruct r' as [os|]; [|done]. cbn in Ho. simplify_eq.
      destruct (H3 os eq_refl) as [H4 H5]. split; [|done].
      constructor; [|done]. split; [done|]. by rewrite Ec.
    + set (limit := Z.min (per_msg_cap limits) (Z.max 0 (budget limits - running))).
      assert (Hlim : 0 <= limit <= per_msg_cap limits /\ limit <= budget limits - running) by lia.
      destruct (fetch_one_body folder u (expected limits) limit) as [body|] eqn:Eb.
      2:{ intros [= <- <-]. split_and!; [|cbn; apply sublist_skip, sublist_nil_l|done].
          constructor; [|done]. cbn. rewrite Ec. split_and!; [done|lia..]. }
      apply fetch_one_body_within in Eb as Hl; [|lia].
      assert (Hadd : u64_saturating_add running (Z.of_nat (length body)) = running + Z.of_nat (length body))
        by (unfold u64_saturating_add; lia).
      rewrite Hadd. destruct (Z.ltb_spec (budget limits) (running + Z.of_nat (length body))); [lia|].
      destruct (fetch_bodies folder uids sizes limits _) as [calls' r'] eqn:Ef. intros [= <- <-].
      destruct (IH (running + Z.of_nat (length body)) _ _ ltac:(lia) Ef) as (H1 & H2 & H3). split_and!.
      * constructor; [|done]. cbn. rewrite Ec. split_and!; [done|lia..].
      * cbn. by constructor.
      * intros outcomes Ho. destruct r' as [os|]; [|done]. cbn in Ho. simplify_eq.
        destruct (H3 os eq_refl) as [H4 H5]. split.
        -- constructor.
           ++ split; [done|]. rewrite Ec. exists limit, body. split; [left|done].
           ++ eapply Forall2_impl; [exact H4|]. intros x y. apply settled_more.
        -- cbn [omap list_omap]. unfold body_of at 1. cbn. unfold total_len in *. cbn [foldr]. lia.
Qed.

(** The outcomes split the requested UIDs by their preflight entries. *)
Lemma settled_partition folder sizes limits calls uids os :
  Forall2 (settled folder sizes limits calls) uids os ->
  let fetched := List.filter (fun u => negb (is_skip (classify_uid (size_of sizes u) (per_msg_cap limits)))) uids in
  let '(bodies, succeeded, failed) := partition_outcomes os in
  map x_uid succeeded = fetched /\ map x_size_bytes succeeded = map (fun b => Z.of_nat (length b)) bodies /\
  Forall2 (fun u body => exists limit, fetch_one_body folder u (expected limits) limit = Ok body) fetched bodies /\
  map failed_uid failed = List.filter (fun u => is_skip (classify_uid (size_of sizes u) (per_msg_cap limits))) uids /\
  Forall (fun f => classify_uid (size_of sizes (failed_uid f)) (per_msg_cap limits) = Skip (failed_reason f)) failed.
Proof.
  cbn zeta. induction 1 as [|u o uids os [<- Ho] _ IH]; [done|]. cbn [partition_outcomes List.filter].
  destruct (partition_outcomes os) as [[b s] f]. destruct IH as (H1 & H2 & H3 & H4 & H5).
  destruct (classify_uid (size_of sizes (o_uid o)) (per_msg_cap limits)) as [reason|] eqn:Ec; cbn [is_skip negb].
  - rewrite Ho. split_and!; [done|done|done|by cbn; f_equal|by constructor].
  - destruct Ho as (limit & body & _ & Hb & ->). split_and!; [by cbn; f_equal|by cbn; f_equal| |done|done].
    constructor; [by exists limit|done].
Qed.
End outcomes.

(** ** The whole call *)

Section run.
Context `{src : ExportSource} (sha256_hex : list Z -> rstr) (w : write_world) (tmp token : rstr).
Context (plan : RunPlan) (d : dir).

Definition plan_limits : FetchLimits := mkLimits (p_expected plan) (p_per_msg_cap plan) (p_budget plan).
Definition plan_class (sizes : gmap Z PreflightSize) (u : Z) : UidPlan :=
  classify_uid (size_of sizes u) (p_per_msg_cap plan).

(** A plan as [handle_export] makes it. *)
Definition good_plan : Prop :=
  canonical (p_dest plan) <> [] /\ 0 <= p_budget plan < u64_max /\ 0 <= p_per_msg_cap plan.

Definition proceeded (sizes : gmap Z PreflightSize) (calls : list (Z * Z)) (complete : bool) (bodies : list (list Z))
    (succeeded : list ExportedUid) (failed : list FailedUid) : Prop :=
  (p_allow_partial plan = false -> Forall (fun u => plan_class sizes u = DoFetch) (p_uids plan)) /\
  exists outcomes, fetch_bodies (p_folder plan) (p_uids plan) sizes plan_limits 0 = (calls, Ok outcomes) /\
    partition_outcomes outcomes = (bodies, succeeded, failed) /\
    complete = match failed with [] => true | _ => false end /\
    Z.of_nat (length (build_mbox bodies)) <= p_budget plan.

Definition export_meta complete bodies succeeded failed path partial_path : ExportMessagesMeta :=
  mkExportMeta (p_folder plan) complete path partial_path (sha256_hex (build_mbox bodies))
    (Z.of_nat (length succeeded)) (Z.of_nat (length (build_mbox bodies))) (p_expected plan) succeeded failed.

(** The ways a call can end. *)
Lemma run_export_cases d' calls r : run_export sha256_hex w tmp token plan d = (d', calls, r) ->
  (exists sizes, preflight_sizes (p_folder plan) (p_uids plan) plan_limits = Ok sizes /\
     exists complete bodies succeeded failed, proceeded sizes calls complete bodies succeeded failed /\
       ((succeeded = [] /\ d' = d /\ r = Ok (export_meta complete bodies succeeded failed None None)) \/
        exists filename written, succeeded <> [] /\
          write_attachment w tmp (p_dest plan) filename (build_mbox bodies) d = (d', written) /\
          r = (p ← written; Ok (if complete then export_meta complete bodies succeeded failed (Some p) None
                                else export_meta complete bodies succeeded failed None (Some p))))) \/
  (d' = d /\ (exists e, r = Err e) /\
     (calls = [] \/ exists sizes res, fetch_bodies (p_folder plan) (p_uids plan) sizes plan_limits 0 = (calls, res) /\
        preflight_sizes (p_folder plan) (p_uids plan) plan_limits = Ok sizes /\
        (p_allow_partial plan = false -> Forall (fun u => plan_class sizes u = DoFetch) (p_uids plan)))).
Proof.
  unfold run_export. fold plan_limits.
  destruct (preflight_sizes _ _ _) as [sizes|e] eqn:Es; [|intros [= <- <- <-]; right; by eauto 6].
  destruct (negb (p_allow_partial plan) && _) eqn:Ea; [intros [= <- <- <-]; right; by eauto 6|].
  assert (Hall : p_allow_partial plan = false -> Forall (fun u => plan_class sizes u = DoFetch) (p_uids plan)).
  { intros Hp. rewrite Hp in Ea. cbn in Ea. apply negb_false_iff, bool_decide_eq_true_1 in Ea.
    apply Forall_forall. intros u Hu. unfold plan_class.
    destruct (classify_uid _ _) eqn:Ec; [|done].
    assert (Hin : In u (List.filter (fun u => is_skip (classify_uid (size_of sizes u) (p_per_msg_cap plan))) (p_uids plan))).
    { apply filter_In. split; [by apply list_elem_of_In|by rewrite Ec]. }
    by rewrite Ea in Hin. }
  destruct (fetch_bodies _ _ _ _ _) as [calls' res] eqn:Ef.
  destruct res as [outcomes|e]; [|intros [= <- <- <-]; right; split_and!; eauto; right; by eauto 6].
  unfold plan_outcome. destruct (partition_outcomes outcomes) as [[bodies succeeded] failed] eqn:Ep.
  set (complete := match failed with [] => true | _ => false end).
  destruct (negb complete && _); [intros [= <- <- <-]; right; split_and!; eauto; right; by eauto 6|].
  destruct (Z.ltb_spec (p_budget plan) (Z.of_nat (length (build_mbox bodies))));
    [intros [= <- <- <-]; right; split_and!; eauto; right; by eauto 6|].
  intros Hr. left. exists sizes. split; [done|]. exists complete, bodies, succeeded, failed.
  destruct succeeded as [|s succeeded].
  - simplify_eq. split; [split; [done|by exists outcomes]|]. by left.
  - destruct (write_attachment _ _ _ _ _ _) as [d2 written] eqn:Ew. simplify_eq.
    split; [split; [done|by exists outcomes]|]. right. by eauto 6.
Qed.

(** A message can be exported: the server's size reply has it, and the size in
    its last mention, if it names one, is within the cap. *)
Definition exportable (reported : list (Z * option Z)) (cap u : Z) : Prop :=
  exists before size after, reported = before ++ (u, size) :: after /\ u ∉ map fst after /\ forall n, size = Some n -> n <= cap.

Lemma size_map_snoc l p : size_map (l ++ [p]) =
  <[p.1 := match p.2 with Some sz => Present sz | None => PresentUnknown end]> (size_map l).
Proof. unfold size_map. by rewrite fold_left_app. Qed.

Lemma fetched_exportable reported cap u : classify_uid (size_of (size_map reported) u) cap = DoFetch <-> exportable reported cap u.
Proof.
  unfold exportable, size_of. induction reported as [|[v size] l IH] using rev_ind.
  { cbn. rewrite lookup_empty. split; [done|]. by intros ([|] & ? & ? & ? & _). }
  rewrite size_map_snoc. cbn [fst snd]. destruct (decide (v = u)) as [->|Hne].
  - rewrite lookup_insert_eq. cbn. split.
    + intros Hc. exists l, size, []. split; [done|]. split; [apply not_elem_of_nil|]. intros n ->. cbn in Hc.
      destruct (Z.ltb_spec cap n); [done|lia].
    + intros (before & size' & after & He & Hn & Hs). destruct after as [|x after _] using rev_ind.
      * apply app_inj_tail in He as [_ [= ->]]. destruct size' as [n|]; [|done]. cbn. specialize (Hs n eq_refl).
        destruct (Z.ltb_spec cap n); [lia|done].
      * rewrite app_comm_cons, app_assoc in He. apply app_inj_tail in He as [_ <-]. destruct Hn. rewrite map_app. apply elem_of_app. right. left.
  - rewrite lookup_insert_ne by done. rewrite IH. split.
    + intros (before & size' & after & -> & Hn & Hs). exists before, size', (after ++ [(v, size)]). rewrite <- app_assoc. split; [done|].
      split; [|done]. rewrite map_app, not_elem_of_app. split; [done|]. cbn. by intros ?%list_elem_of_singleton.
    + intros (before & size' & after & He & Hn & Hs). destruct after as [|x after _] using rev_ind.
      * apply app_inj_tail in He as [_ [= -> _]]. done.
      * rewrite app_comm_cons, app_assoc in He. apply app_inj_tail in He as [-> <-]. exists before, size', after. split; [done|].
        rewrite map_app, not_elem_of_app in Hn. by split; [apply Hn|].
Qed.

(** C24: A finished export says what it did and did what it says. The UIDs it
    fetched are the requested ones that the server's answer to the size request
    mentions, and not with a size above the cap, in the caller's order, the failed ones are the others with the right reason, and
    complete means none failed. Unless no message was fetched, one new file in
    the destination, at the path and of the size and digest reported, holds
    exactly these messages: an mboxrd reader finds them one by one, whatever
    their bytes. The path is reported as complete or as partial accordingly, and
    the mailbox had the expected UIDVALIDITY when the sizes were read. *)
Theorem export_faithful d' calls meta : good_plan ->
  run_export sha256_hex w tmp token plan d = (d', calls, Ok meta) ->
  exists sizes reported bodies,
    fetch_sizes (p_folder plan) (p_uids plan) (p_expected plan) = Ok (reported, Some (x_uid_validity meta)) /\
    sizes = size_map reported /\
    (forall u, u ∈ map x_uid (x_succeeded meta) <-> u ∈ p_uids plan /\ exportable reported (p_per_msg_cap plan) u) /\
    map x_uid (x_succeeded meta) = List.filter (fun u => negb (is_skip (plan_class sizes u))) (p_uids plan) /\
    map x_size_bytes (x_succeeded meta) = map (fun b => Z.of_nat (length b)) bodies /\
    Forall2 (fun u body => exists limit, fetch_one_body (p_folder plan) u (p_expected plan) limit = Ok body)
      (map x_uid (x_succeeded meta)) bodies /\
    map failed_uid (x_failed meta) = List.filter (fun u => is_skip (plan_class sizes u)) (p_uids plan) /\
    Forall (fun f => plan_class sizes (failed_uid f) = Skip (failed_reason f)) (x_failed meta) /\
    (x_complete meta = true <-> x_failed meta = []) /\
    (p_allow_partial plan = false -> x_complete meta = true) /\
    x_message_count meta = Z.of_nat (length bodies) /\
    total_len bodies <= p_budget plan /\ x_total_bytes meta <= p_budget plan /\
    (bodies = [] -> d' = d /\ x_path meta = None /\ x_partial_path meta = None) /\
    (bodies <> [] -> exists name mbox,
       x_path meta = (if x_complete meta then Some (path_join (canonical (p_dest plan)) name) else None) /\
       x_partial_path meta = (if x_complete meta then None else Some (path_join (canonical (p_dest plan)) name)) /\
       plain_name name /\ d !! name = None /\ d' !! name = Some (RegularFile mbox) /\
       x_total_bytes meta = Z.of_nat (length mbox) /\ x_sha256 meta = sha256_hex mbox /\
       read_mbox mbox = map end_line bodies).
Proof.
  intros (Hc & Hb & Hcap) H. apply run_export_cases in H as [(sizes & Hs & H)|(_ & [e [=]] & _)].
  destruct H as (complete & bodies & succeeded & failed & (Hall & os & Hf & Hp & Hcm & Hlen) & Hend).
  destruct (fetch_bodies_spec (p_folder plan) (p_uids plan) sizes plan_limits Hb Hcap 0 _ _ ltac:(cbn; lia) Hf) as (_ & _ & Ho).
  destruct (Ho os eq_refl) as [Hset Htot]. pose proof (settled_partition _ _ _ _ _ _ Hset) as Hpart.
  rewrite Hp in Hpart. destruct Hpart as (P1 & P2 & P3 & P4 & P5).
  apply partition_spec in Hp as (Eb & _ & _). rewrite <- Eb in Htot.
  unfold preflight_sizes in Hs. destruct (fetch_sizes _ _ _) as [[reported [v|]]|] eqn:Efs; cbn in Hs; [|done..].
  destruct (_ <? _); [done|]. injection Hs as <-. apply fetch_sizes_pinned in Efs as Hv. cbn in Hv. subst v.
  assert (Hsb : length succeeded = length bodies).
  { apply (f_equal length) in P2. by rewrite !length_map in P2. }
  assert (Hmeta : forall p q, meta = export_meta complete bodies succeeded failed p q ->
    x_succeeded meta = succeeded /\ x_failed meta = failed /\ x_complete meta = complete /\
    x_uid_validity meta = p_expected plan /\ x_total_bytes meta = Z.of_nat (length (build_mbox bodies)) /\
    x_sha256 meta = sha256_hex (build_mbox bodies) /\ x_message_count meta = Z.of_nat (length bodies) /\
    x_path meta = p /\ x_partial_path meta = q) by (intros p q ->; cbn; by rewrite Hsb).
  assert (Hcpl : complete = true <-> failed = []) by (subst complete; by destruct failed).
  assert (Hpart : p_allow_partial plan = false -> complete = true).
  { intros Hq. apply Hcpl. specialize (Hall Hq). destruct failed as [|f failed]; [done|].
    apply Forall_cons in P5 as [P5 _]. assert (Hin : failed_uid f ∈ p_uids plan).
    { apply list_elem_of_In. eapply filter_In. rewrite <- P4. by left. }
    rewrite Forall_forall in Hall. specialize (Hall _ Hin). unfold plan_class in Hall. cbn in P5. congruence. }
  assert (Hex : forall u, u ∈ map x_uid succeeded <-> u ∈ p_uids plan /\ exportable reported (p_per_msg_cap plan) u).
  { intros u. rewrite P1, list_elem_of_In, filter_In, <- fetched_exportable, <- list_elem_of_In. unfold plan_class.
    destruct (classify_uid _ _); naive_solver. }
  rewrite P1 in Hex.
  exists (size_map reported), reported, bodies.
  destruct Hend as [(Hsn & -> & [= Em])|(filename & written & Hsn & Ew & Er)].
  - destruct (Hmeta _ _ Em) as (-> & -> & -> & -> & -> & -> & -> & -> & ->). rewrite P1.
    split_and!; try done. intros Hne. subst succeeded. by destruct bodies.
  - destruct written as [p|e]; [|done]. cbn in Er. injection Er as Em.
    pose proof (write_effect w tmp (p_dest plan) filename (build_mbox bodies) d Hc) as Hw. rewrite Ew in Hw.
    destruct Hw as (_ & _ & Hw & _). destruct (Hw p eq_refl) as (name & Hpl & Hn1 & Hn2 & -> & _).
    assert (Em' : meta = export_meta complete bodies succeeded failed
      (if complete then Some (path_join (canonical (p_dest plan)) name) else None)
      (if complete then None else Some (path_join (canonical (p_dest plan)) name))) by (rewrite Em; by destruct complete).
    destruct (Hmeta _ _ Em') as (-> & -> & -> & -> & -> & -> & -> & -> & ->). rewrite P1.
    split_and!; try done.
    + intros ->. by destruct succeeded.
    + intros _. exists name, (build_mbox bodies). split_and!; try done; apply read_build.
Qed.
End run.

Section handler.
Context `{src : ExportSource} (sha256_hex : list Z -> rstr) (w : write_world) (tmp token : rstr).
Context (sys : system) (download_dir : rstr) (max_fetch_body_bytes : Z).
Implicit Types (d : dir).

(** The handler stops before any effect, or runs a plan within the bounds. *)
Lemma handle_export_cases input d d' calls r : download_dir <> [] -> 0 <= max_fetch_body_bytes ->
  (forall n, e_max_total_bytes input = Some n -> 0 <= n) ->
  handle_export sha256_hex w tmp token sys download_dir max_fetch_body_bytes input d = (d', calls, r) ->
  (d' = d /\ calls = [] /\ exists e, r = Err e) \/
  exists prefix dest,
    let plan := mkPlan (e_folder input) dest prefix (dedup_uids [] (e_uids input)) (e_expected_uidvalidity input)
      (clamp_total_bytes (e_max_total_bytes input)) max_fetch_body_bytes (default false (e_allow_partial input)) in
    good_plan plan /\ NoDup (p_uids plan) /\ Z.of_nat (length (p_uids plan)) <= 100 /\
    p_budget plan <= MAX_EXPORT_TOTAL_BYTES /\
    components download_dir `prefix_of` components (canonical dest) /\
    run_export sha256_hex w tmp token plan d = (d', calls, r).
Proof.
  intros Hdl Hcap Hmax. unfold handle_export.
  destruct (validate_folder_input _ _); cbn; [|intros [= <- <- <-]; left; by eauto].
  destruct (sanitize_filename_prefix _) as [prefix|]; cbn; [|intros [= <- <- <-]; left; by eauto].
  destruct (validate_uids (e_uids input)) as [uids|] eqn:Eu; cbn; [|intros [= <- <- <-]; left; by eauto].
  destruct (resolve_dest_dir_async _ _ _) as [dest|] eqn:Ed; cbn; [|intros [= <- <- <-]; left; by eauto].
  apply resolve_within in Ed as [Hne Hpre]; [|done].
  assert (Hbud : 0 <= clamp_total_bytes (e_max_total_bytes input) <= MAX_EXPORT_TOTAL_BYTES).
  { unfold clamp_total_bytes, MAX_EXPORT_TOTAL_BYTES. destruct (e_max_total_bytes input); [specialize (Hmax _ eq_refl)|]; lia. }
  assert (Huids : uids = dedup_uids [] (e_uids input) /\ Z.of_nat (length (e_uids input)) <= 100).
  { unfold validate_uids, MAX_EXPORT_UIDS in Eu. destruct (e_uids input) as [|u us]; [done|].
    destruct (Z.ltb_spec 100 (Z.of_nat (length (u :: us)))); by simplify_eq. }
  destruct Huids as [-> Hlen]. destruct (dedup_uids_spec (e_uids input) []) as (Hnd & _ & Hsub & _).
  apply sublist_length in Hsub. intros Hrun. right. exists prefix, dest. cbn.
  split_and!; [|done|lia|lia|done|done]. unfold good_plan; cbn. split_and!; [done|lia| |done].
  change u64_max with 18446744073709551615. unfold MAX_EXPORT_TOTAL_BYTES in Hbud. lia.
Qed.

(** C25: However an export into a set download directory ends, it never changes or removes a file, and when it
    fails it leaves none: only the temporary file can remain, when removing it
    fails. It asks for the body of each requested UID at most once, for at most
    100 of them, each with a limit within the account's cap and 100 MiB, and
    only for messages that the server's answer to the size request mentions,
    and not with a size above the cap. Without allow_partial, a call that
    succeeds or fetches any body has every requested message mentioned there so:
    one that is missing or too large makes the call fail before any body is
    fetched. *)
Theorem export_all_or_nothing input d d' calls r : download_dir <> [] -> 0 <= max_fetch_body_bytes ->
  (forall n, e_max_total_bytes input = Some n -> 0 <= n) ->
  handle_export sha256_hex w tmp token sys download_dir max_fetch_body_bytes input d = (d', calls, r) ->
  (forall n x, d !! n = Some x -> d' !! n = Some x) /\
  (forall e, r = Err e -> forall n x, d' !! n = Some x ->
     d !! n = Some x \/ from_others w 0 1000 n x \/ (n = tmp /\ unlink_fails w = true)) /\
  NoDup (map fst calls) /\ Z.of_nat (length calls) <= 100 /\
  Forall (fun c => c.1 ∈ e_uids input /\ 0 <= c.2 <= Z.min max_fetch_body_bytes MAX_EXPORT_TOTAL_BYTES) calls /\
  (calls <> [] \/ is_ok r = true -> exists reported v,
     fetch_sizes (e_folder input) (dedup_uids [] (e_uids input)) (e_expected_uidvalidity input) = Ok (reported, Some v) /\
     Forall (fun c => exportable reported max_fetch_body_bytes c.1) calls /\
     (default false (e_allow_partial input) = false -> Forall (exportable reported max_fetch_body_bytes) (e_uids input))).
Proof.
  intros Hdl Hcap Hmax Hrun.
  apply handle_export_cases in Hrun as [(-> & -> & e & ->)|(prefix & dest & Hgood & Hnd & Hlen & Hbud & _ & Hrun)];
    [| |done..].
  { split_and!; [done|by left|constructor|done|done|]. by intros [|]. }
  set (plan := mkPlan _ _ _ _ _ _ _ _) in *. destruct Hgood as (Hc & Hb & _).
  (* the file system *)
  assert (Hfs : (forall n x, d !! n = Some x -> d' !! n = Some x) /\
    (forall e, r = Err e -> forall n x, d' !! n = Some x ->
       d !! n = Some x \/ from_others w 0 1000 n x \/ (n = tmp /\ unlink_fails w = true))).
  { apply run_export_cases in Hrun as [(sizes & _ & complete & bodies & succeeded & failed & _ & H)|(-> & _ & _)];
      [|split; [done|by left]].
    destruct H as [(_ & -> & _)|(filename & written & _ & Ew & Er)]; [split; [done|by left]|].
    pose proof (write_effect w tmp (p_dest plan) filename (build_mbox bodies) d Hc) as Hw. rewrite Ew in Hw.
    destruct Hw as (H1 & H2 & _). split; [exact H1|]. intros e ->. destruct written; [done|].
    intros n x Hx. destruct (H2 n x Hx) as [?|[?|[?|[]]]]; auto. }
  destruct Hfs as [H1 H2]. split; [exact H1|]. split; [exact H2|].
  (* the fetches *)
  assert (Hcalls : calls = [] /\ is_ok r = false \/ exists sizes res,
    fetch_bodies (p_folder plan) (p_uids plan) sizes (plan_limits plan) 0 = (calls, res) /\
    preflight_sizes (p_folder plan) (p_uids plan) (plan_limits plan) = Ok sizes /\
    (p_allow_partial plan = false -> Forall (fun u => plan_class plan sizes u = DoFetch) (p_uids plan))).
  { apply run_export_cases in Hrun as [(sizes & Hs & complete & bodies & succeeded & failed & (Hall & os & Hf & _) & _)|(_ & H)];
      [right; by eauto 6|]. destruct H as [[e ->] [->|H]]; [by left|by right]. }
  destruct Hcalls as [[-> Hr]|(sizes & res & Hf & Hs & Hall)].
  { split_and!; [constructor|done|constructor|]. intros [?|Hr']; congruence. }
  destruct (fetch_bodies_spec (p_folder plan) (p_uids plan) sizes (plan_limits plan) Hb Hcap 0 _ _ ltac:(cbn in Hb |- *; lia) Hf)
    as (Hc1 & Hc2 & _).
  destruct (dedup_uids_spec (e_uids input) []) as (_ & _ & Hsub & Hin).
  apply sublist_length in Hc2 as Hc3. rewrite length_map in Hc3.
  split_and!; [by eapply sublist_NoDup|lia| |].
  - apply Forall_forall. intros c Hc'. rewrite Forall_forall in Hc1. destruct (Hc1 c Hc') as (_ & Hl & Hl'). cbn in Hl, Hl', Hbud.
    split; [|lia]. apply elem_of_sublist with (2 := Hsub). apply elem_of_sublist with (2 := Hc2). by apply list_elem_of_fmap_2.
  - intros _. unfold preflight_sizes in Hs. cbn in Hs.
    destruct (fetch_sizes _ _ _) as [[reported [v|]]|] eqn:Efs; cbn in Hs; [|done..].
    destruct (_ <? _); [done|]. injection Hs as <-. exists reported, v. split_and!; [done| |].
    + eapply Forall_impl; [exact Hc1|]. intros c (Hx & _). by apply fetched_exportable.
    + intros Hp. specialize (Hall Hp). rewrite Forall_forall in Hall. apply Forall_forall. intros u Hu.
      apply fetched_exportable, Hall. destruct (Hin u Hu) as [?%elem_of_nil|]; done.
Qed.

End handler.

(** ** The account's source *)

Section account.

(** The servers answering the size preflight and, per UID, the two SELECTs of
    a body fetch. *)
Context (srv_sizes : server) (srv_body1 srv_body2 : Z -> server).

(* [crates/rimap-server/src/tools/retrieval/export_messages.rs:219-233] fetch_sizes *)
Definition account_fetch_sizes (folder : rstr) (uids : list Z) (expected : Z)
    : result RimapError (list (Z * option Z) * option Z) :=
  '(msgs, uid_validity) ← map_err rimap_of_imap
     (fetch srv_sizes folder uids (mkSpec false false false false true) (Some expected));
  Ok (map (fun m => (f_uid m, f_size m)) msgs, uid_validity).

(* [crates/rimap-server/src/tools/retrieval/export_messages.rs:235-246] fetch_one_body *)
Definition account_fetch_one_body (folder : rstr) (uid expected body_limit : Z) : result RimapError (list Z) :=
  map_err rimap_of_imap
    (fetch_body_with_limit (srv_body1 uid) (srv_body2 uid) folder uid (Some expected) body_limit).

Lemma account_sizes_pinned folder uids expected sizes v :
  account_fetch_sizes folder uids expected = Ok (sizes, Some v) -> v = expected.
Proof.
  unfold account_fetch_sizes, fetch. destruct (examine srv_sizes folder) as [o|]; cbn [mbind result_bind map_err]; [|done].
  unfold check_uidvalidity. destruct o as [a|].
  - destruct (Z.eqb_spec a expected) as [->|]; cbn [negb mbind result_bind map_err]; [|done].
    destruct uids; cbn [mbind result_bind map_err]; [congruence|]. destruct (uid_fetch _ _ _); cbn; [|done].
    destruct (collect _ _); cbn; congruence.
  - cbn [mbind result_bind]. destruct uids; cbn [mbind result_bind map_err]; [congruence|].
    destruct (uid_fetch _ _ _); cbn; [|done]. destruct (collect _ _); cbn; congruence.
Qed.

Lemma account_body_within folder uid expected limit body : 0 <= limit < u64_max ->
  account_fetch_one_body folder uid expected limit = Ok body -> Z.of_nat (length body) <= limit.
Proof.
  intros Hl. unfold account_fetch_one_body. destruct (fetch_body_with_limit _ _ _ _ _ _) as [b|] eqn:E; [|done].
  intros [= ->]. by apply fetch_body_ok in E as (_ & ? & _).
Qed.

Definition account_source : ExportSource :=
  Build_ExportSource account_fetch_sizes account_fetch_one_body account_sizes_pinned account_body_within.
End account.

(** An export of two UIDs, one of them missing. *)
Definition sample_source : ExportSource :=
  account_source sample_server (fun _ => sample_server) (fun _ => sample_server).
Definition quiet_world : write_world := mkWriteWorld false None false (fun _ => false) (fun _ => ∅).
Definition sample_plan : RunPlan :=
  mkPlan (lit "INBOX") (mkDestDir (lit "/dl")) (lit "series") [7; 9] 3 1000 50 true.
Definition sample_system : system := mkSystem (fun p => Ok p) (fun _ => true).
Definition sample_export_input : ExportMessagesInput :=
  mkExportInput (lit "INBOX") [7; 9; 7] 3 None (Some (lit " series ")) (Some 1000) (Some true).
Definition sample_run := run_export (src := sample_source) (fun _ => lit "digest") quiet_world (lit ".t") (lit "00") sample_plan ∅.
Definition sample_meta : ExportMessagesMeta := match sample_run.2 with Ok m => m | Err _ => mkExportMeta [] true None None [] 0 0 0 [] [] end.

Lemma export_faithful_witness :
  sample_run.2 = Ok sample_meta /\ x_partial_path sample_meta = Some (lit "/dl/series-00.partial.mbox") /\
  map failed_uid (x_failed sample_meta) = [9] /\ x_total_bytes sample_meta <= 1000.
Proof.
  assert (H : sample_run = (sample_run.1.1, sample_run.1.2, Ok sample_meta)) by (vm_compute; reflexivity).
  split; [by rewrite H|]. split; [vm_compute; reflexivity|]. split; [vm_compute; reflexivity|].
  assert (Hg : good_plan sample_plan) by (split; [discriminate|split; [split; [discriminate|reflexivity]|discriminate]]).
  destruct (@export_faithful sample_source (fun _ => lit "digest") quiet_world (lit ".t") (lit "00") sample_plan ∅
    sample_run.1.1 sample_run.1.2 sample_meta Hg H)
    as (? & ? & ? & _ & _ & _ & _ & _ & _ & _ & _ & _ & _ & _ & _ & Ht & _).
  exact Ht.
Defined.

Lemma export_all_or_nothing_witness :
  let res := handle_export (src := sample_source) (fun _ => lit "digest") quiet_world (lit ".t") (lit "00") sample_system
    (lit "/dl") 50 sample_export_input {[lit "old" := RegularFile [1]]} in
  res.1.2 = [(7, 50)] /\ res.1.1 !! lit "old" = Some (RegularFile [1]) /\ is_ok res.2 = true.
Proof.
  intros res. split; [vm_compute; reflexivity|]. split; [|vm_compute; reflexivity].
  assert (H : handle_export (src := sample_source) (fun _ => lit "digest") quiet_world (lit ".t") (lit "00") sample_system
    (lit "/dl") 50 sample_export_input {[lit "old" := RegularFile [1]]} = (res.1.1, res.1.2, res.2))
    by (destruct res as [[? ?] ?] eqn:E; exact E).
  refine (proj1 (@export_all_or_nothing sample_source (fun _ => lit "digest") quiet_world (lit ".t") (lit "00") sample_system
    (lit "/dl") 50 sample_export_input _ _ _ _ _ _ _ H) _ _ _); [discriminate|discriminate| |vm_compute; reflexivity].
  intros n [= <-]. discriminate.
Defined.
