(* ===== verification/Provenance.v ===== *)
(** * What a result leaves in the audit log
    (crates/rimap-server/src/mcp/result_provenance.rs)

    The summary of a successful result for the [tool_end] record, and the
    export tool's result as the JSON it is read from. *)

From Stdlib Require Import ZArith Lia.
From stdpp Require Import base option list strings.
From S2P Require Import Prelude RustStr Tools Errors Json AuditRecord.
From S2P Require Import Export.
Local Open Scope Z_scope.

Definition default_summary : ResultSummary := mkResultSummary [] 0 false [] None None None [] [] [].

(** [Value::get] with a key: only an object has entries. *)
Definition json_get (v : json) (key : rstr) : option json := match v with JObj m => jget m key | _ => None end.

(* [crates/rimap-server/src/mcp/result_provenance.rs:121-125] string_field *)
Definition string_field (meta : json) (key : rstr) : option rstr := json_get meta key ≫= as_json_str.

(* [crates/rimap-server/src/mcp/result_provenance.rs:128-141] uid_list *)
Definition uid_list (meta : json) (key : rstr) : list Z :=
  match json_get meta key ≫= as_array with
  | None => []
  | Some arr =>
      omap (fun entry => uid ← json_get entry (lit "uid") ≫= as_u64; if uid <=? u32_max then Some uid else None) arr
  end.

(* [crates/rimap-server/src/mcp/result_provenance.rs:61-83] compose_provenance *)
Definition compose_provenance (value : json) : ResultSummary :=
  let attachments := match (json_get value (lit "meta") ≫= (fun m => json_get m (lit "attachments"))) ≫= as_array with
    | None => []
    | Some arr =>
        omap (fun entry => filename ← string_field entry (lit "filename");
                bytes ← json_get entry (lit "bytes") ≫= as_u64;
                Some (mkAttachmentProvenance filename bytes)) arr
    end in
  mkResultSummary [] 0 false [] None None None [] [] attachments.

(* [crates/rimap-server/src/mcp/result_provenance.rs:92-104] export_provenance *)
Definition export_provenance (value : json) : ResultSummary :=
  match json_get value (lit "meta") with
  | None => default_summary
  | Some meta =>
      mkResultSummary [] 0 false []
        (match string_field meta (lit "path") with Some p => Some p | None => string_field meta (lit "partial_path") end)
        (string_field meta (lit "sha256"))
        (json_get meta (lit "total_bytes") ≫= as_u64)
        (uid_list meta (lit "succeeded")) (uid_list meta (lit "failed")) []
  end.

(* [crates/rimap-server/src/mcp/result_provenance.rs:110-119] download_provenance *)
Definition download_provenance (value : json) : ResultSummary :=
  match json_get value (lit "meta") with
  | None => default_summary
  | Some meta =>
      mkResultSummary [] 0 false [] (string_field meta (lit "path")) (string_field meta (lit "sha256"))
        (json_get meta (lit "size_bytes") ≫= as_u64) [] [] []
  end.

(* [crates/rimap-server/src/mcp/result_provenance.rs:21-54] result_provenance *)
Definition result_provenance (tool : ToolName) (value : json) : ResultSummary :=
  match tool with
  | ExportMessages => export_provenance value
  | DownloadAttachment => download_provenance value
  | CreateDraft | CreateDraftHtml | SendEmail => compose_provenance value
  | _ => default_summary
  end.

(** ** The export result as JSON *)

(** The derived serialisations; [None] paths are skipped. *)
(* [crates/rimap-server/src/tools/retrieval/export_messages.rs:47-63] Serialize *)
Definition exported_json (x : ExportedUid) : json :=
  JObj [(lit "size_bytes", JInt (x_size_bytes x)); (lit "uid", JInt (x_uid x))].
Definition reason_str (r : ExportFailReason) : rstr := match r with NotFound => lit "not_found" | Oversize => lit "oversize" end.
Definition failed_json (f : FailedUid) : json :=
  JObj [(lit "reason", JStr (reason_str (failed_reason f))); (lit "uid", JInt (failed_uid f))].
Definition optional_entry (key : rstr) (v : option rstr) : list (rstr * json) :=
  match v with Some s => [(key, JStr s)] | None => [] end.

(* [crates/rimap-server/src/tools/retrieval/export_messages.rs:72-99] Serialize *)
Definition export_meta_json (m : ExportMessagesMeta) : json :=
  JObj ([(lit "complete", JBool (x_complete m)); (lit "failed", JArr (map failed_json (x_failed m)));
         (lit "folder", JStr (x_folder m)); (lit "message_count", JInt (x_message_count m))]
        ++ optional_entry (lit "partial_path") (x_partial_path m) ++ optional_entry (lit "path") (x_path m)
        ++ [(lit "sha256", JStr (x_sha256 m)); (lit "succeeded", JArr (map exported_json (x_succeeded m)));
            (lit "total_bytes", JInt (x_total_bytes m)); (lit "uid_validity", JInt (x_uid_validity m))]).

(* [crates/rimap-server/src/mcp/response.rs:43-51] meta_only *)
Definition meta_only_json (meta : json) : json := JObj [(lit "meta", meta)].

Lemma uid_entries {A} (f : A -> json) (uid : A -> Z) l :
  (forall a, json_get (f a) (lit "uid") = Some (JInt (uid a))) -> Forall (fun a => in_u32 (uid a)) l ->
  omap (fun entry => u ← json_get entry (lit "uid") ≫= as_u64; if u <=? u32_max then Some u else None) (map f l) = map uid l.
Proof.
  intros Hf. induction 1 as [|a l Ha _ IH]; [done|]. cbn [map omap list_omap]. rewrite Hf. cbn.
  unfold in_u32 in Ha. assert (u32_max <= u64_max) by (by vm_compute).
  replace ((0 <=? uid a) && (uid a <=? u64_max)) with true by lia. cbn.
  rewrite (proj2 (Z.leb_le _ _)) by lia. by rewrite <- IH.
Qed.

(** The audit record of a successful export says exactly what the export
    did: from the JSON of its result, the summary recovers the artifact's path,
    whether complete or partial, its digest and size, and the lists of exported
    and failed UIDs, unchanged and in order. *)
Theorem export_provenance_exact m :
  Forall (fun x => in_u32 (x_uid x)) (x_succeeded m) -> Forall (fun f => in_u32 (failed_uid f)) (x_failed m) ->
  in_u64 (x_total_bytes m) ->
  result_provenance ExportMessages (meta_only_json (export_meta_json m)) =
    mkResultSummary [] 0 false [] (match x_path m with Some p => Some p | None => x_partial_path m end)
      (Some (x_sha256 m)) (Some (x_total_bytes m)) (map x_uid (x_succeeded m)) (map failed_uid (x_failed m)) [].
Proof.
  intros Hs Hf Ht. unfold result_provenance, export_provenance. cbn [meta_only_json json_get].
  replace (jget [(lit "meta", export_meta_json m)] (lit "meta")) with (Some (export_meta_json m)) by done.
  assert (Hget : forall key v, jget (match export_meta_json m with JObj e => e | _ => [] end) key = v ->
    json_get (export_meta_json m) key = v) by done.
  assert (Hsucc : json_get (export_meta_json m) (lit "succeeded") = Some (JArr (map exported_json (x_succeeded m)))).
  { apply Hget. destruct m as [? ? path partial]. by destruct path, partial. }
  assert (Hfail : json_get (export_meta_json m) (lit "failed") = Some (JArr (map failed_json (x_failed m)))).
  { apply Hget. destruct m as [? ? path partial]. by destruct path, partial. }
  assert (Htot : json_get (export_meta_json m) (lit "total_bytes") = Some (JInt (x_total_bytes m))).
  { apply Hget. destruct m as [? ? path partial]. by destruct path, partial. }
  unfold uid_list. rewrite Hsucc, Hfail, Htot. cbn [mbind option_bind as_array].
  rewrite (uid_entries exported_json x_uid), (uid_entries failed_json failed_uid) by done.
  cbn [as_u64]. unfold in_u64 in Ht. replace ((0 <=? x_total_bytes m) && (x_total_bytes m <=? u64_max)) with true by lia.
  unfold string_field. f_equal; destruct m as [? ? path partial]; by destruct path, partial.
Qed.

Lemma export_provenance_exact_witness :
  artifact_path (result_provenance ExportMessages (meta_only_json (export_meta_json sample_meta))) =
    Some (lit "/dl/series-00.partial.mbox") /\
  uids_failed (result_provenance ExportMessages (meta_only_json (export_meta_json sample_meta))) = [9].
Proof.
  assert (Es : x_succeeded sample_meta = [mkExported 7 3]) by (vm_compute; reflexivity).
  assert (Ef : x_failed sample_meta = [mkFailed 9 NotFound]) by (vm_compute; reflexivity).
  assert (Et : x_total_bytes sample_meta = 56) by (vm_compute; reflexivity).
  assert (Ep : x_path sample_meta = None /\ x_partial_path sample_meta = Some (lit "/dl/series-00.partial.mbox"))
    by (vm_compute; split; reflexivity).
  destruct Ep as [Ep Eq].
  assert (Hu : forall n, 0 <= n <= 100 -> in_u32 n) by (intros n Hn; split; [lia|]; change u32_max with 4294967295; lia).
  rewrite (export_provenance_exact sample_meta).
  - rewrite Ep, Eq, Ef. split; reflexivity.
  - rewrite Es. apply Forall_singleton, Hu. cbn. lia.
  - rewrite Ef. apply Forall_singleton, Hu. cbn. lia.
  - rewrite Et. split; [lia|]. change u64_max with 18446744073709551615. lia.
Defined.
