(* ===== verification/Envelope.v ===== *)
(** * The audit envelope of a tool call
    (crates/rimap-server/src/mcp/audit_envelope.rs)

    One call of [run_with_audit_envelope]: the operations on the audit log it
    submits, in order, and what it answers.  The future that runs it can be
    dropped at each of its three awaits; the clock, the body and the outcome of
    the start record's write are what the call meets. *)

From Stdlib Require Import ZArith Lia.
From stdpp Require Import base option list strings.
From S2P Require Import Prelude RustStr Tools Errors Json Redact AuditRecord.
From S2P Require Import McpErrors Provenance.
Local Open Scope Z_scope.

(* [crates/rimap-audit/src/writer/log.rs:212-229] ToolEndInputs *)
Record ToolEndInputs := mkToolEndInputs {
  tei_start_seq : Z; tei_tool : ToolName; tei_account : option rstr; tei_status : ToolStatus;
  tei_error_code : option ErrorCode; tei_duration_ms : Z; tei_result_summary : ResultSummary;
  tei_provenance : Provenance }.

(* [crates/rimap-audit/src/writer/log.rs:252-270] ToolEndInputs::new *)
Definition tool_end_new (start_seq : Z) (tool : ToolName) (status : ToolStatus) (error_code : option ErrorCode)
    (duration_ms : Z) (provenance : Provenance) : ToolEndInputs :=
  mkToolEndInputs start_seq tool None status error_code duration_ms default_summary provenance.

(* [crates/rimap-audit/src/writer/log.rs:274-285] From<ToolEndInputs> *)
Definition tool_end_of (i : ToolEndInputs) : ToolEnd :=
  mkToolEnd (tei_account i) (tei_start_seq i) (tei_tool i) (tei_status i) (tei_error_code i) (tei_duration_ms i)
    (tei_result_summary i) (tei_provenance i).

(* [crates/rimap-server/src/mcp/dispatch.rs:64-67] PostureContext *)
Inductive PostureContext := PAccount (p : Posture) | PInfrastructure.
(* [crates/rimap-server/src/mcp/dispatch.rs:73-78] PostureContext::posture *)
Definition posture_of (p : PostureContext) : option Posture := match p with PAccount p => Some p | PInfrastructure => None end.

(* [crates/rimap-server/src/mcp/audit_envelope.rs:30-34] ToolOutcome *)
Record ToolOutcome := mkToolOutcome { to_status : ToolStatus; to_error_code : option ErrorCode; to_summary : ResultSummary }.

(** The join of a blocking task. *)
Inductive join (A : Type) := Joined (a : A) | Panicked.
Arguments Joined {A} _.
Arguments Panicked {A}.

(* [crates/rimap-server/src/mcp/mod.rs:39-44] spawn_blocking_panic_error *)
Definition spawn_blocking_panic_error : RimapError := RInternalSourced (lit "spawn_blocking panicked").

(** Where the call's future is dropped, if it is: while it waits for the start
    record's write, in the body, or while it waits for the end record's write. *)
Inductive drop_point := InStart | InBody | InEnd.

(** What one call meets. *)
Record call_env := mkCallEnv {
  start_join : join (result rstr Z);   (* the seq, or the audit error's text *)
  body : result RimapError json;
  dropped : option drop_point;
  elapsed_ms : Z;
  channel_takes : bool }.              (* try_send finds room and a receiver *)

(** Operations submitted to the log: writes handed to the tracked blocking pool,
    which run even if the future is dropped, and cancellations queued. *)
Inductive audit_op := WriteStart (i : ToolStartInputs) | WriteEnd (i : ToolEndInputs) | QueueEnd (i : ToolEndInputs).

Record report := mkReport {
  ops : list audit_op;
  body_polled : bool;
  answer : option (ErrorData + CallToolResult) }.

Definition clamp_ms (ms : Z) : Z := if ms <=? u64_max then ms else u64_max.

(** A start record's arguments are redacted again; every other record is left
    as it is. *)
(* [crates/rimap-audit/src/redact.rs:306-319] redact *)
Definition redact `{Digest} (record : AuditRecord) (salt : list Z) : AuditRecord :=
  match payload record with
  | PToolStart start =>
      mkAuditRecord (seq record) (ts record) (process_id record)
        (PToolStart (mkToolStart (ts_account start) (ts_tool start) (posture_effective start)
           (redact_apply (redaction_schema (ts_tool start)) salt (arguments_redacted start)) (arguments_hash_sha256 start)))
  | _ => record
  end.

(** Only the arguments of a record change, and they become what they would be
    from any other arguments that look the same through the schema. *)
Lemma redact_hides `{Digest} record salt start m m' : payload record = PToolStart start -> arguments_redacted start = JObj m ->
  Forall2 (fun '(k, v) '(k', v') =>
    k = k' /\ observe (policy_for (redaction_schema (ts_tool start)) k) v
            = observe (policy_for (redaction_schema (ts_tool start)) k) v') m m' ->
  redact record salt =
  redact (mkAuditRecord (seq record) (ts record) (process_id record)
            (PToolStart (mkToolStart (ts_account start) (ts_tool start) (posture_effective start) (JObj m') (arguments_hash_sha256 start)))) salt.
Proof.
  unfold redact. intros -> Ha Hm. cbn [payload seq ts process_id ts_account ts_tool posture_effective arguments_redacted arguments_hash_sha256].
  rewrite Ha. by rewrite (redact_entries_observe _ salt _ _ Hm).
Qed.

Section envelope.
Context `{Digest} (salt : list Z) (rc : rmcp_codes).

(* [crates/rimap-server/src/mcp/audit_envelope.rs:124-126] redact_tool_args *)
Definition redact_tool_args (tool : ToolName) (args : json) : json := redact_apply (redaction_schema tool) salt args.

(** The window is fixed and the buffer of message identifiers is not fed. *)
Definition no_provenance : Provenance := mkProvenance 60 [].

(** The write is submitted before the first await: a drop while waiting for it
    does not undo it. *)
(* [crates/rimap-server/src/mcp/audit_envelope.rs:178-215] emit_tool_end *)
Definition emit_tool_end (start_seq : Z) (tool : ToolName) (account : option rstr) (duration_ms : Z)
    (outcome : ToolOutcome) : audit_op :=
  let inputs := tool_end_new start_seq tool (to_status outcome) (to_error_code outcome) duration_ms no_provenance in
  WriteEnd (mkToolEndInputs (tei_start_seq inputs) (tei_tool inputs) account (tei_status inputs)
    (tei_error_code inputs) (tei_duration_ms inputs) (to_summary outcome) (tei_provenance inputs)).

(** The guard dropped while armed. *)
(* [crates/rimap-server/src/mcp/audit_envelope.rs:259-290] AuditEnvelopeGuard::drop *)
Definition guard_drop (start_seq : Z) (tool : ToolName) (account : option rstr) (elapsed_ms : Z) : audit_op :=
  let c := tool_end_new start_seq tool StatusCancelled (Some ECancelled) (clamp_ms elapsed_ms) no_provenance in
  QueueEnd (mkToolEndInputs (tei_start_seq c) (tei_tool c) account (tei_status c) (tei_error_code c)
    (tei_duration_ms c) (tei_result_summary c) (tei_provenance c)).

(* [crates/rimap-server/src/mcp/audit_envelope.rs:88-99] run_with_audit_envelope *)
Definition outcome_of (tool : ToolName) (result : result RimapError json) : ToolOutcome :=
  match result with
  | Ok value => mkToolOutcome StatusOk None (result_provenance tool value)
  | Err e => mkToolOutcome StatusError (Some (rimap_code e)) default_summary
  end.

(* [crates/rimap-server/src/mcp/audit_envelope.rs:109-117] run_with_audit_envelope *)
Definition answer_of (result : result RimapError json) : ErrorData + CallToolResult :=
  match result with
  | Ok value => inr (mkCallResult [] (Some value) false)
  | Err e => error_answer rc e
  end.

(* [crates/rimap-server/src/mcp/audit_envelope.rs:41-171] run_with_audit_envelope *)
Definition run_with_audit_envelope (env : call_env) (tool : ToolName) (audit_account : option rstr)
    (posture : PostureContext) (args : jmap) : report :=
  let args_value := JObj args in
  let start := WriteStart (mkToolStartInputs tool audit_account (posture_of posture)
    (redact_tool_args tool args_value) (hash_arguments args_value)) in
  match dropped env, start_join env with
  | Some InStart, _ => mkReport [start] false None
  | _, Panicked => mkReport [start] false (Some (inl (to_mcp_error rc spawn_blocking_panic_error)))
  | _, Joined (Err audit_err) =>
      mkReport [start] false (Some (inl (mkErrorData (INTERNAL_ERROR rc) (lit "audit write failed: " ++ audit_err) None)))
  | Some InBody, Joined (Ok start_seq) =>
      mkReport (start :: (if channel_takes env then [guard_drop start_seq tool audit_account (elapsed_ms env)] else [])) true None
  | other, Joined (Ok start_seq) =>
      mkReport [start; emit_tool_end start_seq tool audit_account (clamp_ms (elapsed_ms env)) (outcome_of tool (body env))]
        true (match other with Some _ => None | None => Some (answer_of (body env)) end)
  end.

(** ** Theorems *)

(** C32: Every tool call that starts is accounted for. Its start record comes
    first and holds only the redacted arguments and their hash. The body runs
    exactly if that write succeeded and the call was not dropped before; then,
    unless it is dropped in its body with no room in the cancellation channel,
    there is exactly one end record, for the same tool and account and with the
    start's sequence number, whose status and code agree: ok without a code,
    error with the error's own code, cancelled with the cancellation code when
    the body was dropped. If the start record cannot be written the call fails
    without running, and the client is told so. *)
Theorem envelope_pairs env tool account posture args :
  let rep := run_with_audit_envelope env tool account posture args in
  (exists i rest, ops rep = WriteStart i :: rest /\
     i = mkToolStartInputs tool account (posture_of posture) (redact_apply (redaction_schema tool) salt (JObj args))
           (hash_arguments (JObj args)) /\
     (rest = [] \/ exists e, (rest = [WriteEnd e] \/ rest = [QueueEnd e]) /\
        start_join env = Joined (Ok (tei_start_seq e)) /\ tei_tool e = tool /\ tei_account e = account /\
        tei_duration_ms e = clamp_ms (elapsed_ms env)) /\
     (rest = [] <-> body_polled rep = false \/ (dropped env = Some InBody /\ channel_takes env = false))) /\
  (body_polled rep = true <-> (exists s, start_join env = Joined (Ok s)) /\ dropped env <> Some InStart) /\
  (forall e, WriteEnd e ∈ ops rep -> dropped env <> Some InBody /\
     match body env with
     | Ok v => tei_status e = StatusOk /\ tei_error_code e = None /\ tei_result_summary e = result_provenance tool v
     | Err err => tei_status e = StatusError /\ tei_error_code e = Some (rimap_code err) /\ tei_result_summary e = default_summary
     end) /\
  (forall e, QueueEnd e ∈ ops rep -> dropped env = Some InBody /\
     tei_status e = StatusCancelled /\ tei_error_code e = Some ECancelled) /\
  (dropped env = None -> exists a, answer rep = Some a /\
     (body_polled rep = true -> a = answer_of (body env)) /\ (body_polled rep = false -> exists ed, a = inl ed)).
Proof.
  destruct env as [sj b dr ms ct]. cbn zeta. unfold run_with_audit_envelope. cbn [dropped start_join body elapsed_ms channel_takes].
  destruct dr as [[]|], sj as [[s|er]|], ct; cbn [ops body_polled answer];
    refine (conj _ (conj _ (conj _ (conj _ _)))).
  all: try (eexists _, _; refine (conj eq_refl (conj eq_refl (conj _ _)));
    [ first [ left; reflexivity
            | right; eexists; split; [first [left; reflexivity | right; reflexivity]|]; repeat split; reflexivity ]
    | split; [ first [ discriminate | intros _; left; reflexivity | intros _; right; split; reflexivity ]
             | first [ intros _; reflexivity | intros [?|[? ?]]; discriminate ] ] ]; fail).
  all: try (split; [ first [ discriminate | intros _; split; [by eexists|discriminate] ]
                   | intros [[? Hs] Hd]; first [ discriminate | reflexivity | by destruct Hd ] ]; fail).
  all: try (unfold emit_tool_end, guard_drop; intros e; rewrite ?elem_of_cons, elem_of_nil; intros;
    destruct_or?; simplify_eq; split; [done|]; first [ done | by destruct b ]).
  all: try (unfold emit_tool_end, guard_drop; intros e; rewrite ?elem_of_cons, elem_of_nil; intros;
    destruct_or?; simplify_eq; done).
  all: try discriminate.
  all: intros _; eexists; (split; [reflexivity|]); split; first [ discriminate | done | intros _; by eexists ].
Qed.

(** A call dropped while its start record is written leaves the record without
    an end. *)
Lemma start_left_open env tool account posture args : dropped env = Some InStart ->
  exists i, ops (run_with_audit_envelope env tool account posture args) = [WriteStart i].
Proof. intros Hd. unfold run_with_audit_envelope. rewrite Hd. by eexists. Qed.

(** The records of a call say nothing of two argument lists that redaction maps
    to the same, their hash apart. *)
Lemma envelope_redacted env tool account posture args args' :
  redact_tool_args tool (JObj args) = redact_tool_args tool (JObj args') ->
  hash_arguments (JObj args) = hash_arguments (JObj args') ->
  ops (run_with_audit_envelope env tool account posture args) = ops (run_with_audit_envelope env tool account posture args').
Proof. intros H1 H2. unfold run_with_audit_envelope. by rewrite H1, H2. Qed.
End envelope.

#[local] Instance sample_digest : Digest := { sha256 := fun _ => [1; 2]; json_to_vec := fun _ => [] }.

Definition sample_call (d : option drop_point) : report :=
  run_with_audit_envelope [7] (mkRmcpCodes 1 2 3) (mkCallEnv (Joined (Ok 41)) (Err (RRateLimited 5)) d 12 true)
    Search (Some (lit "work")) (PAccount Readonly) [(lit "query", JStr (lit "secret"))].

Example cancelled_call : map (fun o => match o with WriteStart _ => 0 | WriteEnd e => tei_start_seq e | QueueEnd e => - tei_start_seq e end)
  (ops (sample_call (Some InBody))) = [0; -41].
Proof. vm_compute. reflexivity. Qed.
