(* ===== verification/Drain.v ===== *)
(** * Shutdown: the dispatch drain, the cancellation drainer and process_end
    (crates/rimap-server/src/mcp/drain.rs, crates/rimap-audit/src/cancellation.rs,
    crates/rimap-server/src/main.rs)

    A step relation over the process: dispatches and the audit writes they hand
    to the blocking pool run concurrently with the main thread's shutdown.  A
    step is one access to shared state; the number and order of the writes of a
    dispatch are arbitrary, as is when timers fire. *)

From Stdlib Require Import ZArith Lia.
From stdpp Require Import base option list numbers gmap relations.
From S2P Require Import Prelude.
Local Open Scope Z_scope.

(** ** The drain *)

(* [crates/rimap-server/src/mcp/drain.rs:49-55] DrainCell *)
Record DrainCell := mkDrain { inflight : Z; cancel : bool }.

(* [crates/rimap-server/src/mcp/drain.rs:60-67] DispatchDrain::new *)
Definition drain_new : DrainCell := mkDrain 0 false.
(* [crates/rimap-server/src/mcp/drain.rs:185-190] Registration::open *)
Definition registration_open (d : DrainCell) : DrainCell := mkDrain (inflight d + 1) (cancel d).
(* [crates/rimap-server/src/mcp/drain.rs:194-199] Registration::drop *)
Definition registration_drop (d : DrainCell) : DrainCell := mkDrain (Z.max 0 (inflight d - 1)) (cancel d).
(* [crates/rimap-server/src/mcp/drain.rs:158-158] DispatchDrain::shutdown *)
Definition request_cancel (d : DrainCell) : DrainCell := mkDrain (inflight d) true.
(** [None] while the wait goes on; [expired] is the budget's timer. *)
(* [crates/rimap-server/src/mcp/drain.rs:159-167] DispatchDrain::shutdown *)
Definition drain_result (d : DrainCell) (expired : bool) : option Z :=
  if inflight d =? 0 then Some 0 else if expired then Some (inflight d) else None.

(** ** The process *)

(** A dispatch: spawned by rmcp; registered, before its first look at the
    cancel flag; its body being polled; its body being dropped, where guards
    write and send; done. *)
Inductive phase := Spawned | Registered | Running | Unwinding | Done.
#[export] Instance phase_eq_dec : EqDecision phase.
Proof. solve_decision. Defined.

(** A tracked write of dispatch [i], queued or landed, holding a registration. *)
Inductive tracked := Queued (i : nat) | Landed (i : nat).

(** The task of [spawn_drainer]: waiting, or waiting for the write it handed to
    the blocking pool; a task that is aborted or panics leaves that write. *)
Inductive drainer_state :=
  | Idle | Writing (i : nat) | Exited | Aborted (left : option nat) | Panicked (left : option nat).

Inductive stage :=
  | Starting | Serving
  | Draining (init_ok : bool)
  | Answering (undrained : Z)
  | Closing (init_ok : bool) (undrained : Z)
  | Joining (undrained : Z)
  | Ending (undrained aborted : Z)
  | Ended (undrained aborted : Z).

(** The two tasks between rmcp and stdio, the answer to a request that came
    before [initialize] (written to stdout by the main thread), and what has
    become of them. An aborted inbound task is [Cancelled] until it yields. *)
Inductive bridge := Open | Cancelled | Closed.
Inductive answer := Unwritten | Written | Unwritable.
Record stdio := mkStdio { inbound : bridge; outbound : bridge; envelope : answer }.

(* [crates/rimap-server/src/mcp/wire_validator/supervisor.rs:95-95] ValidatorSupervisor::shutdown_after_failure *)
Definition abort_inbound (b : stdio) : stdio :=
  mkStdio (match inbound b with Open => Cancelled | x => x end) (outbound b) (envelope b).

(** [drain] and [shutdown_after_failure] both await the two tasks, without a timer. *)
(* [crates/rimap-server/src/mcp/wire_validator/supervisor.rs:67-117] ValidatorSupervisor::{drain, shutdown_after_failure} *)
Definition bridges_ended (b : stdio) : Prop := inbound b = Closed /\ outbound b = Closed.

(** A record in the log. *)
Inductive logged := FromDispatch (i : nat) | FromDrainer (i : nat) | EndRecord (undrained aborted : Z).

Record process := mkProcess {
  drain : DrainCell;
  tasks : gmap nat phase;
  writes : list tracked;
  channel : list nat;
  drainer : drainer_state;
  at_stage : stage;
  log : list logged;
  stdio_of : stdio }.

Definition process_new : process := mkProcess drain_new ∅ [] [] Idle Starting [] (mkStdio Open Open Unwritten).

(* [crates/rimap-audit/src/cancellation.rs:25-25] CHANNEL_CAPACITY *)
Definition CHANNEL_CAPACITY : nat := 1024.

(** ** Steps *)

(** A dispatch, from [track] and the guards dropped with its body. *)
(* [crates/rimap-server/src/mcp/drain.rs:85-106] DispatchDrain::track *)
Inductive dispatch_step (i : nat) : process -> process -> Prop :=
  | spawn d t ws ch dr lg br : t !! i = None ->
      dispatch_step i (mkProcess d t ws ch dr Serving lg br) (mkProcess d (<[i := Spawned]> t) ws ch dr Serving lg br)
  | register d t ws ch dr st lg br : t !! i = Some Spawned ->
      dispatch_step i (mkProcess d t ws ch dr st lg br) (mkProcess (registration_open d) (<[i := Registered]> t) ws ch dr st lg br)
  | refuse d t ws ch dr st lg br : t !! i = Some Registered -> cancel d = true ->
      dispatch_step i (mkProcess d t ws ch dr st lg br) (mkProcess (registration_drop d) (<[i := Done]> t) ws ch dr st lg br)
  | enter d t ws ch dr st lg br : t !! i = Some Registered -> cancel d = false ->
      dispatch_step i (mkProcess d t ws ch dr st lg br) (mkProcess d (<[i := Running]> t) ws ch dr st lg br)
  | write_sync d t ws ch dr st lg br : t !! i = Some Running ->
      dispatch_step i (mkProcess d t ws ch dr st lg br) (mkProcess d t ws ch dr st (lg ++ [FromDispatch i]) br)
  | leave d t ws ch dr st lg br : t !! i = Some Running ->
      dispatch_step i (mkProcess d t ws ch dr st lg br) (mkProcess d (<[i := Unwinding]> t) ws ch dr st lg br)
  | guard_write d t ws ch dr st lg br : t !! i = Some Unwinding ->
      dispatch_step i (mkProcess d t ws ch dr st lg br) (mkProcess d t ws ch dr st (lg ++ [FromDispatch i]) br)
  | guard_send d t ws ch dr st lg br : t !! i = Some Unwinding -> (length ch < CHANNEL_CAPACITY)%nat ->
      dr = Idle \/ (exists j, dr = Writing j) ->
      dispatch_step i (mkProcess d t ws ch dr st lg br) (mkProcess d t ws (ch ++ [i]) dr st lg br)
  | release d t ws ch dr st lg br : t !! i = Some Unwinding ->
      dispatch_step i (mkProcess d t ws ch dr st lg br) (mkProcess (registration_drop d) (<[i := Done]> t) ws ch dr st lg br).

(** A tracked write: submitted by a running dispatch, it lands, or is dropped
    unrun, and only then releases its registration. *)
(* [crates/rimap-server/src/mcp/drain.rs:124-134] DispatchDrain::spawn_blocking_tracked *)
Inductive write_step : process -> process -> Prop :=
  | submit i d t ws ch dr st lg br : t !! i = Some Running ->
      write_step (mkProcess d t ws ch dr st lg br) (mkProcess (registration_open d) t (ws ++ [Queued i]) ch dr st lg br)
  | land i d t ws1 ws2 ch dr st lg br :
      write_step (mkProcess d t (ws1 ++ Queued i :: ws2) ch dr st lg br)
        (mkProcess d t (ws1 ++ Landed i :: ws2) ch dr st (lg ++ [FromDispatch i]) br)
  | write_release w d t ws1 ws2 ch dr st lg br :
      write_step (mkProcess d t (ws1 ++ w :: ws2) ch dr st lg br) (mkProcess (registration_drop d) t (ws1 ++ ws2) ch dr st lg br).

(** It ends when the channel is empty and every sender is gone: the server's,
    dropped with the service, and those of the dispatches. *)
(* [crates/rimap-audit/src/cancellation.rs:76-102] spawn_drainer *)
Inductive drainer_step : process -> process -> Prop :=
  | recv i d t ws ch st lg br :
      drainer_step (mkProcess d t ws (i :: ch) Idle st lg br) (mkProcess d t ws ch (Writing i) st lg br)
  | drainer_write i d t ws ch st lg br :
      drainer_step (mkProcess d t ws ch (Writing i) st lg br) (mkProcess d t ws ch Idle st (lg ++ [FromDrainer i]) br)
  | drainer_exit d t ws st lg br : st <> Serving -> map_Forall (fun _ p => p = Done) t ->
      drainer_step (mkProcess d t ws [] Idle st lg br) (mkProcess d t ws [] Exited st lg br)
  | drainer_panic dr left d t ws ch st lg br : (dr = Idle /\ left = None) \/ (exists i, dr = Writing i /\ left = Some i) ->
      drainer_step (mkProcess d t ws ch dr st lg br) (mkProcess d t ws ch (Panicked left) st lg br)
  | stray_write i d t ws ch dr dr' st lg br :
      (dr = Aborted (Some i) /\ dr' = Aborted None) \/ (dr = Panicked (Some i) /\ dr' = Panicked None) ->
      drainer_step (mkProcess d t ws ch dr st lg br) (mkProcess d t ws ch dr' st (lg ++ [FromDrainer i]) br).

(** What stdio does: the client closes stdin or a bridge fails, the runtime
    lets go of an aborted bridge, the outbound bridge has flushed its last
    frame or failed, and the early answer is on stdout or cannot be written.
    None of these need ever happen. *)
Inductive stdio_step : process -> process -> Prop :=
  | inbound_ends d t ws ch dr st lg br : inbound br <> Closed ->
      stdio_step (mkProcess d t ws ch dr st lg br) (mkProcess d t ws ch dr st lg (mkStdio Closed (outbound br) (envelope br)))
  | outbound_ends d t ws ch dr st lg br : outbound br <> Closed ->
      stdio_step (mkProcess d t ws ch dr st lg br) (mkProcess d t ws ch dr st lg (mkStdio (inbound br) Closed (envelope br)))
  | answered d t ws ch dr u lg br a : envelope br = Unwritten -> a <> Unwritten ->
      stdio_step (mkProcess d t ws ch dr (Answering u) lg br)
        (mkProcess d t ws ch dr (Answering u) lg (mkStdio (inbound br) (outbound br) a)).

(** The count reported and the task left behind; [None] while the wait goes on.
    [expired] is the budget's timer; an aborted or panicked task is a join error. *)
(* [crates/rimap-server/src/main.rs:512-530] join_drainer *)
Definition join_drainer (dr : drainer_state) (expired : bool) : option (Z * drainer_state) :=
  match dr with
  | Exited => Some (0, Exited)
  | Aborted w => Some (0, Aborted w)
  | Panicked w => Some (0, Panicked w)
  | Idle => if expired then Some (1, Aborted None) else None
  | Writing i => if expired then Some (1, Aborted (Some i)) else None
  end.

(** What the join leaves, by cases. *)
Lemma join_drainer_cases dr expired a dr' : join_drainer dr expired = Some (a, dr') ->
  (a = 0 /\ dr' = dr /\ (dr = Exited \/ exists w, dr = Aborted w \/ dr = Panicked w)) \/
  (a = 1 /\ ((dr = Idle /\ dr' = Aborted None) \/ exists i, dr = Writing i /\ dr' = Aborted (Some i))).
Proof. destruct dr, expired; cbn; intros [= <- <-]; eauto 10. Qed.

(** The main thread: [serve_mcp] and the end of [run_server]. *)
(* [crates/rimap-server/src/main.rs:326-462] serve_mcp *)
Inductive main_step : process -> process -> Prop :=
  | registry_failed d t ws ch dr lg br :
      main_step (mkProcess d t ws ch dr Starting lg br) (mkProcess d t ws ch dr (Ending 0 0) lg br)
  | init_failed d t ws ch dr lg br :
      main_step (mkProcess d t ws ch dr Starting lg br) (mkProcess (request_cancel d) t ws ch dr (Draining false) lg br)
  | serve d t ws ch dr lg br :
      main_step (mkProcess d t ws ch dr Starting lg br) (mkProcess d t ws ch dr Serving lg br)
  | shutdown d t ws ch dr lg br :
      main_step (mkProcess d t ws ch dr Serving lg br) (mkProcess (request_cancel d) t ws ch dr (Draining true) lg br)
  | drained ok (failed : bool) expired u d t ws ch dr lg br : drain_result d expired = Some u -> (ok = false -> failed = true) ->
      main_step (mkProcess d t ws ch dr (Draining ok) lg br)
        (mkProcess d t ws ch dr (Closing ok u) lg (if failed then abort_inbound br else br))
  | drained_unanswered expired u d t ws ch dr lg br : drain_result d expired = Some u ->
      main_step (mkProcess d t ws ch dr (Draining false) lg br) (mkProcess d t ws ch dr (Answering u) lg br)
  | answer_written u d t ws ch dr lg br : envelope br = Written ->
      main_step (mkProcess d t ws ch dr (Answering u) lg br) (mkProcess d t ws ch dr (Closing false u) lg (abort_inbound br))
  | answer_failed u d t ws ch dr lg br : envelope br = Unwritable ->
      main_step (mkProcess d t ws ch dr (Answering u) lg br) (mkProcess d t ws ch dr (Ending u 0) lg br)
  | closed ok u d t ws ch dr lg br : bridges_ended br ->
      main_step (mkProcess d t ws ch dr (Closing ok u) lg br)
        (mkProcess d t ws ch dr (if ok : bool then Joining u else Ending u 0) lg br)
  | joined u expired a d t ws ch dr dr' lg br : join_drainer dr expired = Some (a, dr') ->
      main_step (mkProcess d t ws ch dr (Joining u) lg br) (mkProcess d t ws ch dr' (Ending u a) lg br)
  | emit_process_end u a d t ws ch dr lg br :
      main_step (mkProcess d t ws ch dr (Ending u a) lg br) (mkProcess d t ws ch dr (Ended u a) (lg ++ [EndRecord u a]) br).

Inductive step (s s' : process) : Prop :=
  | step_dispatch i : dispatch_step i s s' -> step s s'
  | step_write : write_step s s' -> step s s'
  | step_drainer : drainer_step s s' -> step s s'
  | step_stdio : stdio_step s s' -> step s s'
  | step_main : main_step s s' -> step s s'.

Definition reachable (s : process) : Prop := rtc step process_new s.

(** ** The registrations count what can still write *)

Definition registered (p : phase) : Z := match p with Registered | Running | Unwinding => 1 | Spawned | Done => 0 end.

Definition task_registrations (t : gmap nat phase) : Z := map_fold (fun _ p n => registered p + n) 0 t.

Lemma task_registrations_insert t i p : t !! i = None ->
  task_registrations (<[i := p]> t) = registered p + task_registrations t.
Proof. intros Hi. unfold task_registrations. rewrite map_fold_insert_L; [done|intros; lia|done]. Qed.

Lemma task_registrations_update t i p q : t !! i = Some q ->
  task_registrations (<[i := p]> t) = task_registrations t - registered q + registered p.
Proof.
  intros Hi. rewrite <- (insert_delete_id t i q Hi) at 2. rewrite <- insert_delete_eq.
  rewrite !task_registrations_insert by apply lookup_delete_eq. lia.
Qed.

Lemma registered_bounds p : 0 <= registered p <= 1.
Proof. destruct p; cbn; lia. Qed.

Lemma task_registrations_nonneg t : 0 <= task_registrations t.
Proof.
  induction t as [|j q t Hj IH] using map_ind; [done|].
  rewrite task_registrations_insert by done. pose proof (registered_bounds q). lia.
Qed.

Lemma task_registrations_bound t i p : t !! i = Some p -> registered p <= task_registrations t.
Proof.
  intros Hi. rewrite <- (insert_delete_id t i p Hi), task_registrations_insert by apply lookup_delete_eq.
  pose proof (task_registrations_nonneg (delete i t)). lia.
Qed.

(** Nothing can write but what is already in the drainer's hands. *)
Definition no_active (t : gmap nat phase) (ws : list tracked) : Prop :=
  ws = [] /\ forall i p, t !! i = Some p -> p <> Running /\ p <> Unwinding.

Definition drainer_quiet (ch : list nat) (dr : drainer_state) : Prop :=
  ch = [] /\ match dr with Idle | Exited | Aborted None | Panicked None => True | _ => False end.

Definition not_panicked (dr : drainer_state) : Prop := match dr with Panicked _ => False | _ => True end.

Definition no_end (lg : list logged) : Prop := forall u a, ~ EndRecord u a ∈ lg.

(** Late dispatches are refused. *)
Definition refuses (d : DrainCell) (t : gmap nat phase) : Prop := cancel d = true \/ t = ∅.

Definition at_rest (d : DrainCell) (t : gmap nat phase) (ws : list tracked) (ch : list nat) (dr : drainer_state) : Prop :=
  refuses d t /\ no_active t ws /\ (not_panicked dr -> drainer_quiet ch dr).

Definition rests (s : process) : Prop := at_rest (drain s) (tasks s) (writes s) (channel s) (drainer s).

(** No dispatch exists yet, and none will. *)
Definition unserved (s : process) : Prop :=
  tasks s = ∅ /\ writes s = [] /\ (not_panicked (drainer s) -> drainer_quiet (channel s) (drainer s)).

Definition stage_inv (s : process) : Prop :=
  match at_stage s with
  | Starting => unserved s /\ no_end (log s)
  | Draining false => unserved s /\ cancel (drain s) = true /\ no_end (log s)
  | Serving => no_end (log s)
  | Draining true => cancel (drain s) = true /\ no_end (log s)
  | Closing true u | Joining u => cancel (drain s) = true /\ (u = 0 -> no_active (tasks s) (writes s)) /\ no_end (log s)
  | Answering u | Closing false u => (u = 0 -> rests s) /\ no_end (log s)
  | Ending u a => (u = 0 -> a = 0 -> rests s) /\ no_end (log s)
  | Ended u a => exists lg1 lg2, log s = lg1 ++ EndRecord u a :: lg2 /\ no_end lg1 /\ no_end lg2 /\
      (u = 0 -> a = 0 -> rests s /\ (not_panicked (drainer s) -> lg2 = []))
  end.

Definition counts (s : process) : Prop :=
  inflight (drain s) = task_registrations (tasks s) + Z.of_nat (length (writes s)).

Definition exited_empty (s : process) : Prop := drainer s = Exited -> channel s = [].

(** A step is one of its kinds, with the state before it in sight. *)
Ltac cases_of_step Hinv H :=
  revert Hinv; destruct H as [? H|H|H|H|H]; destruct H; intros Hinv.

Lemma counts_step s s' : counts s -> step s s' -> counts s'.
Proof.
  unfold counts. intros Hc H. pose proof task_registrations_nonneg as Hpos.
  cases_of_step Hc H; cbn [drain tasks writes registration_open registration_drop request_cancel inflight] in *;
    try exact Hc;
    try (rewrite task_registrations_insert by done; cbn [registered]; lia);
    try (match goal with Hi : ?t !! ?i = Some ?q |- context [task_registrations (<[?i := ?p]> ?t)] =>
           rewrite (task_registrations_update t i p q Hi); pose proof (task_registrations_bound t i q Hi);
           cbn [registered] in *; lia end);
    rewrite ?length_app in *; cbn [length] in *; try lia.
  specialize (Hpos t). lia.
Qed.

Lemma exited_step s s' : exited_empty s -> step s s' -> exited_empty s'.
Proof.
  unfold exited_empty. intros He H. cases_of_step He H; cbn [drainer channel] in *; try done; try naive_solver.
  destruct (join_drainer_cases _ _ _ _ H) as [(_ & -> & _)|(_ & [[_ ->]|(? & _ & ->)])]; done.
Qed.

(** Only the join aborts the drainer. *)
Definition aborted_last (s : process) : Prop :=
  (exists left, drainer s = Aborted left) -> exists u a, at_stage s = Ending u a \/ at_stage s = Ended u a.

Lemma aborted_step s s' : aborted_last s -> step s s' -> aborted_last s'.
Proof.
  unfold aborted_last. intros Ha H [left Hl]. cases_of_step Ha H; cbn in *; try done; try eauto;
    subst; try (destruct Ha as (? & ? & [?|?]); [by eexists|congruence..]); naive_solver.
Qed.


(** ** The invariant *)

Lemma no_end_snoc lg e : no_end lg -> (forall u a, e <> EndRecord u a) -> no_end (lg ++ [e]).
Proof. intros H He u a [?|E%list_elem_of_singleton]%elem_of_app; [by eapply H|by eapply He]. Qed.

Lemma no_active_insert t i p ws : no_active t ws -> p <> Running -> p <> Unwinding -> no_active (<[i := p]> t) ws.
Proof.
  intros [-> H] H1 H2. split; [done|]. intros j q. destruct (decide (i = j)) as [->|].
  - rewrite lookup_insert_eq. by intros [= <-].
  - rewrite lookup_insert_ne by done. apply H.
Qed.

Lemma not_in_empty {A} (t : gmap nat A) i x : t = ∅ -> t !! i = Some x -> False.
Proof. intros ->. by rewrite lookup_empty. Qed.

(** A step of anything but the main thread. *)
Inductive other_step (s s' : process) : Prop :=
  | other_dispatch i : dispatch_step i s s' -> other_step s s'
  | other_write : write_step s s' -> other_step s s'
  | other_drainer : drainer_step s s' -> other_step s s'
  | other_stdio : stdio_step s s' -> other_step s s'.

(** It leaves the stage, appends no end record, and keeps the flag. *)
Lemma other_step_frame s s' : other_step s s' ->
  at_stage s' = at_stage s /\ cancel (drain s') = cancel (drain s) /\ (not_panicked (drainer s') -> not_panicked (drainer s)) /\
  (log s' = log s \/ exists e, log s' = log s ++ [e] /\ forall u a, e <> EndRecord u a).
Proof.
  intros [i H|H|H|H]; destruct H; cbn; split_and!; try done; try (by left); try (right; eexists; split; [reflexivity|done]);
    naive_solver.
Qed.

(** Where late dispatches are refused and nothing is active, it stays so. *)
Lemma other_step_rest s s' : at_stage s <> Serving -> other_step s s' ->
  refuses (drain s) (tasks s) -> no_active (tasks s) (writes s) ->
  refuses (drain s') (tasks s') /\ no_active (tasks s') (writes s') /\
  (drainer_quiet (channel s) (drainer s) -> not_panicked (drainer s') ->
     drainer_quiet (channel s') (drainer s') /\ log s' = log s).
Proof.
  intros Hst H Href [Hws Hna].
  assert (Hidle : forall i p, tasks s !! i = Some p -> p = Running \/ p = Unwinding -> False).
  { intros i p Hi Hp. destruct (Hna i p Hi). naive_solver. }
  assert (Hcut : forall i p, tasks s !! i = Some p -> cancel (drain s) = true).
  { intros i p Hi. destruct Href as [|Ht]; [done|]. by apply not_in_empty in Hi. }
  assert (Hkeep : forall i p q, tasks s !! i = Some q -> p <> Running -> p <> Unwinding ->
    refuses (drain s) (<[i := p]> (tasks s)) /\ no_active (<[i := p]> (tasks s)) (writes s)).
  { intros i p q Hi H1 H2. split; [left; by eapply Hcut|]. by apply no_active_insert. }
  destruct H as [i H|H|H|H]; destruct H; cbn in *; subst; try done;
    try (exfalso; by eauto);
    try (match goal with Hi : _ !! _ = Some ?q |- _ => by edestruct (Hkeep _ Registered q Hi) as [? ?] end);
    try (match goal with Hi : _ !! _ = Some ?q |- _ => by edestruct (Hkeep _ Done q Hi) as [? ?] end);
    try (match goal with Hc : cancel _ = false |- _ => exfalso; erewrite Hcut in Hc by eassumption; done end);
    try (by destruct ws1);
    try (split; [done|]; split; [done|]; intros [? Hq] ?; try done; naive_solver).
Qed.

Lemma unserved_step s s' : at_stage s <> Serving -> other_step s s' -> unserved s -> unserved s'.
Proof.
  intros Hst H (Ht & Hw & Hq).
  assert (Href : refuses (drain s) (tasks s)) by by right.
  assert (Hna : no_active (tasks s) (writes s)).
  { split; [done|]. intros i p Hi. by apply not_in_empty in Hi. }
  destruct (other_step_rest s s' Hst H Href Hna) as (_ & _ & Hquiet).
  destruct (other_step_frame s s' H) as (_ & _ & Hnp & _).
  split_and!; [| |intros Hnp'; apply Hquiet; auto];
    destruct H as [i H|H|H|H]; destruct H; cbn in *; subst; try done;
    try (by exfalso; eapply not_in_empty); by destruct ws1.
Qed.

Lemma rests_step s s' : at_stage s <> Serving -> other_step s s' -> rests s ->
  rests s' /\ (not_panicked (drainer s') -> log s' = log s).
Proof.
  intros Hst H (Href & Hna & Hq).
  destruct (other_step_rest s s' Hst H Href Hna) as (Href' & Hna' & Hquiet).
  destruct (other_step_frame s s' H) as (_ & _ & Hnp & _).
  split; [split_and!; [done|done|]|]; intros Hnp'; apply Hquiet; auto.
Qed.

Lemma no_end_frame lg lg' : no_end lg ->
  (lg' = lg \/ exists e, lg' = lg ++ [e] /\ forall u a, e <> EndRecord u a) -> no_end lg'.
Proof. intros H [->|(e & -> & He)]; [done|by apply no_end_snoc]. Qed.

Lemma other_step_inv s s' : other_step s s' -> stage_inv s -> stage_inv s'.
Proof.
  intros H. destruct (other_step_frame s s' H) as (Est & Ec & Hnp & Hlog).
  unfold stage_inv. rewrite Est, Ec. pose proof (no_end_frame (log s) (log s')) as Hne.
  destruct (at_stage s) as [| |[]|u|[] u|u|u a|u a] eqn:Es.
  - intros [Hu Hn]. split; [eapply unserved_step; [|done..]; congruence|auto].
  - auto.
  - intros [? ?]. auto.
  - intros (Hu & ? & ?). split_and!; [eapply unserved_step; [|done..]; congruence|done|auto].
  - intros [Hr ?]. split; [|auto]. intros ->. eapply rests_step; [|done|auto]; congruence.
  - intros (Hc & Hna & ?). split_and!; [done| |auto]. intros ->.
    eapply (other_step_rest s s'); [congruence|done|by left|auto].
  - intros [Hr ?]. split; [|auto]. intros ->. eapply rests_step; [|done|auto]; congruence.
  - intros (Hc & Hna & ?). split_and!; [done| |auto]. intros ->.
    eapply (other_step_rest s s'); [congruence|done|by left|auto].
  - intros [Hr ?]. split; [|auto]. intros -> ->. eapply rests_step; [|done|auto]; congruence.
  - intros (lg1 & lg2 & E & H1 & H2 & Hr). destruct Hlog as [El|(e & El & He)].
    + exists lg1, lg2. rewrite El. split_and!; [done..|]. intros -> ->. destruct (Hr eq_refl eq_refl) as [Hrs Hl].
      destruct (rests_step s s') as [Hrs' _]; [congruence|done|done|]. auto.
    + exists lg1, (lg2 ++ [e]). rewrite El, E, <- app_assoc. split_and!; [done..|by apply no_end_snoc|].
      intros -> ->. destruct (Hr eq_refl eq_refl) as [Hrs Hl].
      destruct (rests_step s s') as [Hrs' Hsame]; [congruence|done|done|]. split; [done|].
      intros Hp. specialize (Hsame Hp). rewrite El in Hsame. apply (f_equal length) in Hsame.
      rewrite length_app in Hsame. cbn in Hsame. lia.
Qed.

(** A drained count of zero leaves no dispatch active and no write pending. *)
Lemma counts_zero s : counts s -> inflight (drain s) = 0 -> no_active (tasks s) (writes s).
Proof.
  unfold counts. intros Hc H0. pose proof (task_registrations_nonneg (tasks s)).
  split; [destruct (writes s); cbn [length] in Hc; [done|lia]|].
  intros i p Hi. pose proof (task_registrations_bound _ _ _ Hi). split; intros ->; cbn [registered] in *; lia.
Qed.

Lemma drain_result_zero d expired : drain_result d expired = Some 0 -> inflight d = 0.
Proof. unfold drain_result. destruct (Z.eqb_spec (inflight d) 0); [done|]. destruct expired; congruence. Qed.

Lemma main_step_inv s s' : counts s -> exited_empty s -> aborted_last s -> main_step s s' -> stage_inv s -> stage_inv s'.
Proof.
  intros Hc He Hab H. destruct H; unfold stage_inv, rests, at_rest, unserved;
    cbn [drain tasks writes channel drainer at_stage log].
  - intros [(-> & -> & Hq) Hn]. split; [|done]. intros _ _. split; [by right|]. split; [|done].
    split; [done|]. intros i p Hi. by apply not_in_empty in Hi.
  - intros [Hu Hn]. done.
  - intros [_ Hn]. done.
  - done.
  - pose proof (drain_result_zero d expired) as Hz. destruct ok; cbn [at_stage] in *.
    + intros [? ?]. split_and!; [done| |done]. intros ->. apply (counts_zero _ Hc). auto.
    + intros ((Ht & Hw & Hq) & Hcut & Hn). split; [|done]. intros ->. split; [by left|]. split; [|done].
      apply (counts_zero _ Hc). auto.
  - pose proof (drain_result_zero d expired) as Hz. intros ((Ht & Hw & Hq) & Hcut & Hn). split; [|done].
    intros ->. split; [by left|]. split; [|done]. apply (counts_zero _ Hc). auto.
  - done.
  - intros [Hr Hn]. split; [|done]. intros -> _. auto.
  - destruct ok; cbn [at_stage]; [done|]. intros [Hr Hn]. split; [|done]. intros -> _. auto.
  - intros (Hcut & Hna & Hn). split; [|done]. intros -> ->. split; [by left|]. split; [auto|].
    destruct dr as [|i| |left|left]; [by destruct expired|by destruct expired| | |]; cbn in H; simplify_eq; [|..]; [|exfalso|done].
    + intros _. split; [by apply He|done].
    + destruct Hab as (u & a & [?|?]); [by eexists|done..].
  - intros [Hr Hn]. exists lg, []. split_and!; [done..| |auto]. intros u0 a0 E. by apply elem_of_nil in E.
Qed.

Lemma step_kind s s' : step s s' -> other_step s s' \/ main_step s s'.
Proof. destruct 1; eauto using other_step. Qed.

Lemma reachable_inv s : reachable s -> stage_inv s /\ counts s /\ exited_empty s.
Proof.
  intros Hr. assert (H : stage_inv s /\ counts s /\ exited_empty s /\ aborted_last s); [|tauto].
  revert s Hr. unfold reachable.
  apply (rtc_ind_r (fun s => stage_inv s /\ counts s /\ exited_empty s /\ aborted_last s)).
  - split_and!; [|reflexivity|done|by intros [left [=]]]. split; [split_and!; done|]. intros u a E. by apply elem_of_nil in E.
  - intros s1 s2 _ H12 (Hi & Hc & He & Ha). split_and!; [|by eapply counts_step|by eapply exited_step|by eapply aborted_step].
    destruct (step_kind s1 s2 H12); [by eapply other_step_inv|by eapply main_step_inv].
Qed.

Lemma process_end_last s l1 l2 : reachable s -> not_panicked (drainer s) ->
  log s = l1 ++ EndRecord 0 0 :: l2 -> l2 = [].
Proof.
  intros Hr Hp E. destruct (reachable_inv s Hr) as (Hi & _ & _). unfold stage_inv in Hi.
  assert (Hin : EndRecord 0 0 ∈ log s) by (rewrite E; set_solver).
  assert (Hno : ~ no_end (log s)) by (intros Hn; by apply (Hn 0 0)).
  destruct (at_stage s) as [| |[]|u|[] u|u|u a|u a]; try (exfalso; apply Hno; tauto).
  destruct Hi as (lg1 & lg2 & El & H1 & H2 & Hrest).
  rewrite El in Hin. apply elem_of_app in Hin as [Hin|Hin]; [by apply H1 in Hin|].
  apply elem_of_cons in Hin as [[= <- <-]|Hin]; [|by apply H2 in Hin].
  destruct (Hrest eq_refl eq_refl) as [_ Hl]. rewrite (Hl Hp) in El.
  destruct l2 as [|x l2 _] using rev_ind; [done|]. exfalso.
  rewrite E, app_comm_cons, app_assoc in El. apply app_inj_tail in El as [El _].
  apply (H1 0 0). rewrite <- El. set_solver.
Qed.

(** ** A dispatch not yet entered when the shutdown begins *)

Definition held (i : nat) (dr : drainer_state) : Prop :=
  dr = Writing i \/ dr = Aborted (Some i) \/ dr = Panicked (Some i).

(** A record of dispatch [i] is in the log, or on its way. *)
Definition trace_of (i : nat) (s : process) : Prop :=
  Queued i ∈ writes s \/ i ∈ channel s \/ held i (drainer s) \/ FromDispatch i ∈ log s \/ FromDrainer i ∈ log s.

Definition entered (i : nat) (s : process) : Prop :=
  tasks s !! i = Some Running \/ tasks s !! i = Some Unwinding.

(** A record appears only for a dispatch that is in its body. *)
Lemma trace_step i s s' : step s s' -> trace_of i s' -> trace_of i s \/ entered i s.
Proof.
  intros H Ht. revert Ht. destruct H as [j H|H|H|H|H]; destruct H; unfold trace_of, held, entered; cbn;
    rewrite ?elem_of_app, ?elem_of_cons, ?elem_of_nil; intros Ht;
    try (left; exact Ht);
    repeat match goal with
    | H : join_drainer _ _ = _ |- _ => apply join_drainer_cases in H
    | H : _ \/ _ |- _ => destruct H
    | H : _ /\ _ |- _ => destruct H
    | H : exists _, _ |- _ => destruct H
    | H : False |- _ => destruct H
    end; simplify_eq; eauto 12.
Qed.

(** Once the flag is up no dispatch enters its body. *)
Lemma entered_step i s s' : cancel (drain s) = true -> step s s' -> entered i s' -> entered i s.
Proof.
  unfold entered. intros Hc H Ht. cases_of_step Ht H; cbn in *; try done; try congruence;
    (match goal with |- context [_ !! i] => idtac end);
    match type of Ht with context [<[?j := _]> _ !! _] => destruct (decide (j = i)) as [->|Hne];
      [rewrite lookup_insert_eq in Ht|by rewrite lookup_insert_ne in Ht] end; naive_solver.
Qed.

Lemma cancel_step s s' : cancel (drain s) = true -> step s s' -> cancel (drain s') = true.
Proof. intros Hc H. cases_of_step Hc H; cbn in *; done. Qed.

(** Leaving the body is final, so a dispatch outside it and without a trace was never in it. *)
Lemma silent_run i s s' : cancel (drain s) = true -> ~ entered i s -> ~ trace_of i s -> rtc step s s' -> ~ trace_of i s'.
Proof.
  intros Hc He Ht Hrun. induction Hrun as [s|s1 s2 s3 H12 _ IH]; [done|].
  apply IH; [by eapply cancel_step| |].
  - intros H. by apply He, (entered_step i s1 s2).
  - intros H. by destruct (trace_step i s1 s2).
Qed.

Definition not_begun (p : option phase) : Prop := p = None \/ p = Some Spawned \/ p = Some Registered.

Lemma not_begun_step i s s' : step s s' -> not_begun (tasks s' !! i) -> not_begun (tasks s !! i).
Proof.
  unfold not_begun. intros H Ht. cases_of_step Ht H; cbn in *; try done;
    match type of Ht with context [<[?j := _]> _ !! _] => destruct (decide (j = i)) as [->|Hne];
      [rewrite lookup_insert_eq in Ht|by rewrite lookup_insert_ne in Ht] end; naive_solver.
Qed.

Lemma not_begun_silent s i : reachable s -> not_begun (tasks s !! i) -> ~ trace_of i s.
Proof.
  intros Hr. revert i. pattern s. revert s Hr. unfold reachable.
  apply (rtc_ind_r (fun s => forall i, not_begun (tasks s !! i) -> ~ trace_of i s)).
  - intros i _ [H|[H|[H|[H|H]]]]; cbn in H; try by apply elem_of_nil in H. unfold held in H. naive_solver.
  - intros s1 s2 _ H12 IH i Hb Ht. assert (Hb1 : not_begun (tasks s1 !! i)) by by eapply not_begun_step.
    destruct (trace_step i s1 s2 H12 Ht) as [Ht1|He]; [by apply (IH i)|].
    unfold not_begun, entered in *. intuition congruence.
Qed.

(** ** The shutdown ends *)

Definition shutting_down (s : process) : Prop := at_stage s <> Starting /\ at_stage s <> Serving.

(** The waits without a timer: for the two bridges, and for the write of an
    early answer. *)
Definition stdio_settled (s : process) : Prop :=
  match at_stage s with
  | Closing _ _ => inbound (stdio_of s) = Closed /\ outbound (stdio_of s) = Closed
  | Answering _ => envelope (stdio_of s) <> Unwritten
  | _ => True
  end.

Definition has_ended (s : process) : Prop := exists u a, at_stage s = Ended u a.

(** A run with [n] steps of the main thread among any steps of the others. *)
Inductive run : nat -> process -> process -> Prop :=
  | run_nil s : run 0 s s
  | run_main n s1 s2 s3 : main_step s1 s2 -> run n s2 s3 -> run (S n) s1 s3
  | run_other n s1 s2 s3 : other_step s1 s2 -> run n s2 s3 -> run n s1 s3.

(** Each stage is so many steps of the main thread from the end, at most. *)
Definition steps_left (st : stage) : nat :=
  match st with
  | Starting | Serving | Draining _ => 4
  | Answering _ | Closing true _ => 3
  | Closing false _ | Joining _ => 2
  | Ending _ _ => 1
  | Ended _ _ => 0
  end.

Lemma main_step_nearer s s' : shutting_down s -> main_step s s' ->
  shutting_down s' /\ (steps_left (at_stage s') < steps_left (at_stage s))%nat.
Proof.
  intros [H1 H2] H. destruct H; cbn in *; try done; try destruct ok; cbn; split_and!; try done; lia.
Qed.

Lemma run_bounded n s s' : shutting_down s -> run n s s' ->
  shutting_down s' /\ (n + steps_left (at_stage s') <= steps_left (at_stage s))%nat.
Proof.
  intros Hs Hr. induction Hr as [s|n s1 s2 s3 H _ IH|n s1 s2 s3 H _ IH]; [split; [done|lia]| |].
  - destruct (main_step_nearer s1 s2 Hs H) as [Hs2 Hl]. destruct (IH Hs2). split; [done|lia].
  - destruct (other_step_frame s1 s2 H) as (E & _). unfold shutting_down in *. rewrite E in IH. auto.
Qed.

Lemma shutdown_stages s : shutting_down s -> (steps_left (at_stage s) <= 4)%nat.
Proof. intros _. destruct (at_stage s) as [| |[]| |[]| | |]; cbn; lia. Qed.

(** The main thread waits for its timers, the bridges and the early answer only. *)
Lemma main_enabled s : shutting_down s -> ~ has_ended s -> stdio_settled s -> exists s', main_step s s'.
Proof.
  intros [H1 H2] He Hw. destruct s as [d t ws ch dr st lg br]. unfold has_ended, stdio_settled in *. cbn in *.
  destruct st as [| |ok|u|ok u|u|u a|u a]; try done.
  - destruct (inflight d =? 0) eqn:E; eexists; apply (drained ok true true); try done;
      unfold drain_result; by rewrite E.
  - destruct br as [i o e]. cbn in Hw. destruct e; [done|eexists; by apply answer_written|eexists; by apply answer_failed].
  - eexists. by apply closed.
  - assert (Hj : exists a dr', join_drainer dr true = Some (a, dr')) by (destruct dr; cbn; eauto).
    destruct Hj as (a & dr' & Hj). eexists. by eapply joined.
  - eexists. apply emit_process_end.
  - exfalso. eauto.
Qed.

Lemma main_blocked s s' : main_step s s' -> ~ has_ended s /\ stdio_settled s.
Proof.
  intros H. unfold has_ended, stdio_settled, bridges_ended in *.
  split; [intros (? & ? & E)|]; destruct H; cbn in *; try done; congruence.
Qed.

Lemma other_step_settled s s' : other_step s s' -> stdio_settled s -> stdio_settled s'.
Proof.
  intros H. unfold stdio_settled. destruct H as [i H|H|H|H]; destruct H; cbn; try done; destruct st; naive_solver.
Qed.

(** On every failed start the inbound bridge is aborted before it is awaited. *)
Lemma inbound_aborted s u : reachable s -> at_stage s = Closing false u -> inbound (stdio_of s) <> Open.
Proof.
  intros Hr. revert u. pattern s. revert s Hr. unfold reachable.
  apply (rtc_ind_r (fun s => forall u, at_stage s = Closing false u -> inbound (stdio_of s) <> Open)); [done|].
  intros s1 s2 _ H IH u E. cases_of_step E H; cbn in *; try done; simplify_eq; try (by eapply IH).
  - match goal with Hf : _ = false -> _ |- _ => rewrite Hf by done end. by destruct br as [[] ? ?].
  - by destruct br as [[] ? ?].
  - by destruct ok.
Qed.

(** ** Properties *)

(** C31: process_end with both counts zero is final: when the shutdown reports
    that no dispatch was left undrained and the cancellation drainer was not
    aborted, no record of any dispatch, tracked write, or drainer follows it in
    the log, whatever the interleaving - unless the drainer task panicked. *)
Theorem process_end_terminal s l1 l2 : reachable s -> not_panicked (drainer s) ->
  log s = l1 ++ EndRecord 0 0 :: l2 -> l2 = [].
Proof. exact (process_end_last s l1 l2). Qed.

(** A dispatch that has not looked at the cancel flag when the shutdown
    raises it never writes: it is refused when it looks, and no record of it
    enters the log, not directly, through a tracked write, or through the
    drainer, in any continuation of the run. *)
Theorem late_dispatch_silent s s' i : reachable s -> cancel (drain s) = true -> not_begun (tasks s !! i) ->
  rtc step s s' -> ~ entered i s' /\ ~ trace_of i s'.
Proof.
  intros Hr Hc Hb Hrun.
  assert (He : ~ entered i s) by (unfold not_begun, entered in *; intuition congruence).
  split; [|by eapply silent_run; [done..|by apply not_begun_silent|]].
  clear Hr Hb. induction Hrun as [s|s1 s2 s3 H12 _ IH]; [done|].
  apply IH; [by eapply cancel_step|]. intros H. by apply He, (entered_step i s1 s2).
Qed.

(** C33: The shutdown ends, and what it waits for: once it has begun, in every
    run the main thread takes at most four more steps, whatever the dispatches,
    the tracked writes and the drainer do or fail to do, and nothing takes it
    back. Until process_end is recorded it has a step to take, its timers
    included, except in two places where the code has no timer: the await of
    the two stdio bridges (supervisor.drain, shutdown_after_failure), which
    lasts until both have ended, and the write of the answer to a request that
    came before initialize. There it waits as long as stdio does, possibly for
    ever; no step of the rest of the process can start such a wait again. After
    a failed start the inbound bridge has been aborted before the await, so it
    is not the client's closing of stdin that is awaited. *)
Theorem shutdown_ends s : reachable s -> shutting_down s ->
  ((exists s', main_step s s') <-> ~ has_ended s /\ stdio_settled s) /\
  (forall s', other_step s s' -> at_stage s' = at_stage s /\ (stdio_settled s -> stdio_settled s')) /\
  (forall n s', run n s s' -> (n <= 4)%nat /\ shutting_down s' /\ (n = 4%nat -> has_ended s')) /\
  (forall u, at_stage s = Closing false u -> inbound (stdio_of s) <> Open).
Proof.
  intros Hr Hs. split_and!.
  - split; [intros [s' H]; by eapply main_blocked|intros [He Hw]; by apply main_enabled].
  - intros s' H. split; [by apply other_step_frame|by apply other_step_settled].
  - intros n s' H. destruct (run_bounded n s s' Hs H) as [Hs' Hl]. pose proof (shutdown_stages s Hs).
    split; [lia|]. split; [done|]. intros ->. unfold has_ended.
    destruct (at_stage s') as [| |[]| |[]| | |] eqn:E; cbn in Hl; try lia; eauto.
  - intros u. by apply inbound_aborted.
Qed.

(** ** Runs *)

(** A dispatch cancelled mid-call, whose pairing record goes through the drainer. *)
Definition cancelled_log : list logged := [FromDispatch 0; FromDrainer 0].

Lemma cancelled_run : exists t, t !! 1%nat = None /\
  reachable (mkProcess (mkDrain 0 true) t [] [] Exited (Ended 0 0) (cancelled_log ++ [EndRecord 0 0]) (mkStdio Closed Closed Unwritten)).
Proof.
  exists (<[0%nat:=Done]> (<[0%nat:=Unwinding]> (<[0%nat:=Running]> (<[0%nat:=Registered]> (<[0%nat:=Spawned]> ∅))))).
  split; [reflexivity|]. unfold reachable, process_new.
  eapply rtc_l; [apply step_main, serve|].
  eapply rtc_l; [apply (step_dispatch _ _ 0%nat), spawn; reflexivity|].
  eapply rtc_l; [apply (step_dispatch _ _ 0%nat), register; reflexivity|].
  eapply rtc_l; [apply (step_dispatch _ _ 0%nat), enter; reflexivity|].
  eapply rtc_l; [apply (step_dispatch _ _ 0%nat), write_sync; reflexivity|].
  eapply rtc_l; [apply step_main, shutdown|].
  eapply rtc_l; [apply (step_dispatch _ _ 0%nat), leave; reflexivity|].
  eapply rtc_l; [apply (step_dispatch _ _ 0%nat), guard_send; [reflexivity|cbn; unfold CHANNEL_CAPACITY; lia|by left]|].
  eapply rtc_l; [apply (step_dispatch _ _ 0%nat), release; reflexivity|].
  eapply rtc_l; [apply step_drainer, recv|].
  eapply rtc_l; [apply step_drainer, drainer_write|].
  eapply rtc_l; [apply step_main, (drained true false false 0); [reflexivity|done]|].
  eapply rtc_l; [apply step_stdio, inbound_ends; discriminate|].
  eapply rtc_l; [apply step_stdio, outbound_ends; discriminate|].
  eapply rtc_l; [apply step_main, closed; split; reflexivity|].
  eapply rtc_l; [apply step_drainer, drainer_exit|]; [discriminate| |].
  { intros i p Hi. destruct (decide (i = 0%nat)) as [->|Hne].
    - rewrite lookup_insert_eq in Hi. congruence.
    - rewrite !lookup_insert_ne in Hi by done. done. }
  eapply rtc_l; [apply step_main, (joined _ false); reflexivity|].
  eapply rtc_l; [apply step_main, emit_process_end|]. apply rtc_refl.
Qed.

Lemma process_end_terminal_witness : exists s, reachable s /\ not_panicked (drainer s) /\
  log s = cancelled_log ++ EndRecord 0 0 :: [] /\
  forall l2, log s = cancelled_log ++ EndRecord 0 0 :: l2 -> l2 = [].
Proof.
  destruct cancelled_run as (t & _ & Hr). eexists. split; [exact Hr|]. split; [exact I|]. split; [reflexivity|].
  intros l2 E. exact (process_end_terminal _ cancelled_log l2 Hr I E).
Defined.

Lemma late_dispatch_silent_witness : exists s, reachable s /\ cancel (drain s) = true /\
  not_begun (tasks s !! 1%nat) /\ (forall s', rtc step s s' -> ~ entered 1 s' /\ ~ trace_of 1 s').
Proof.
  destruct cancelled_run as (t & Ht & Hr). eexists. split; [exact Hr|]. split; [reflexivity|].
  assert (Hb : not_begun (t !! 1%nat)) by (left; exact Ht). split; [exact Hb|].
  intros s' Hrun. exact (late_dispatch_silent _ s' 1 Hr eq_refl Hb Hrun).
Defined.

Lemma shutdown_ends_witness : exists s s', reachable s /\ shutting_down s /\ stdio_settled s /\ ~ has_ended s /\
  main_step s s' /\ ~ (exists s2, main_step s' s2).
Proof.
  pose (s := mkProcess (mkDrain 0 true) ∅ [] [] Idle (Draining true) [] (mkStdio Open Open Unwritten)).
  pose (s' := mkProcess (mkDrain 0 true) ∅ [] [] Idle (Closing true 0) [] (mkStdio Open Open Unwritten)).
  assert (Hr : reachable s).
  { eapply rtc_l; [apply step_main, serve|]. eapply rtc_l; [apply step_main, shutdown|]. apply rtc_refl. }
  assert (Hm : main_step s s') by (by apply (drained true false false 0)).
  assert (Hr' : reachable s') by (eapply rtc_r; [exact Hr|by apply step_main]).
  exists s, s'. split; [exact Hr|]. split; [by split|]. split; [exact I|]. split; [by intros (? & ? & [=])|].
  split; [exact Hm|]. intros H2.
  assert (Hs' : shutting_down s') by (by split).
  destruct (proj1 (proj1 (shutdown_ends s' Hr' Hs')) H2) as [_ [E _]]. discriminate E.
Defined.

(** The exception of the first property: a drainer that panicked while its
    write was on the blocking pool is reported as a clean exit. *)
Lemma panicked_drainer_unreported : exists s, reachable s /\ log s = [EndRecord 0 0; FromDrainer 0].
Proof.
  eexists. split.
  - unfold reachable, process_new.
    eapply rtc_l; [apply step_main, serve|].
    eapply rtc_l; [apply (step_dispatch _ _ 0%nat), spawn; reflexivity|].
    eapply rtc_l; [apply (step_dispatch _ _ 0%nat), register; reflexivity|].
    eapply rtc_l; [apply (step_dispatch _ _ 0%nat), enter; reflexivity|].
    eapply rtc_l; [apply (step_dispatch _ _ 0%nat), leave; reflexivity|].
    eapply rtc_l; [apply (step_dispatch _ _ 0%nat), guard_send; [reflexivity|cbn; unfold CHANNEL_CAPACITY; lia|by left]|].
    eapply rtc_l; [apply (step_dispatch _ _ 0%nat), release; reflexivity|].
    eapply rtc_l; [apply step_drainer, recv|].
    eapply rtc_l; [apply step_drainer, drainer_panic; right; eauto|].
    eapply rtc_l; [apply step_main, shutdown|].
    eapply rtc_l; [apply step_main, (drained true false false 0); [reflexivity|done]|].
  eapply rtc_l; [apply step_stdio, inbound_ends; discriminate|].
  eapply rtc_l; [apply step_stdio, outbound_ends; discriminate|].
  eapply rtc_l; [apply step_main, closed; split; reflexivity|].
    eapply rtc_l; [apply step_main, (joined _ false); reflexivity|].
    eapply rtc_l; [apply step_main, emit_process_end|].
    eapply rtc_l; [apply step_drainer, stray_write; right; eauto|]. apply rtc_refl.
  - reflexivity.
Qed.
