(* ===== verification/Server.v ===== *)
(** * A tool call from the wire to its answer (crates/rimap-server/src/mcp:
    server.rs, dispatch.rs)

    The parts meet here: the name is parsed ([ToolCall]), the account resolved
    ([Registry]), the call enclosed in its audit records ([Envelope]), guarded
    and accounted for ([Authz]), and handed to the tool's handler.  Handlers
    are named; what running one answers is an argument. *)

From Stdlib Require Import ZArith Lia.
From stdpp Require Import base option list numbers strings gmap.
From S2P Require Import Prelude RustStr Tools Errors Json Redact McpErrors Names ToolCall Breaker Authz AuditRecord Config Credentials Connect Registry Startup Envelope Catalog.
Local Open Scope Z_scope.

(** The handlers of crates/rimap-server/src/tools. *)
Inductive Handler :=
  | HListFolders | HMarkRead | HMarkUnread | HFlag | HUnflag | HMoveMessage | HSearch | HFetchMessage
  | HListAttachments | HDownloadAttachment | HExportMessages | HCreateDraft | HSendEmail | HForward
  | HDeleteMessage | HExpunge | HCreateFolder | HRenameFolder | HDeleteFolder | HAddLabel | HRemoveLabel | HListLabels.

(* [crates/rimap-server/src/mcp/dispatch.rs:238-301] ImapMcpServer::dispatch_tool *)
Definition handler_of (tool : ToolName) : option Handler :=
  match tool with
  | ListFolders => Some HListFolders
  | MarkRead => Some HMarkRead
  | MarkUnread => Some HMarkUnread
  | Flag => Some HFlag
  | Unflag => Some HUnflag
  | MoveMessage => Some HMoveMessage
  | Search | SearchAdvanced => Some HSearch
  | FetchMessage | FetchMessageHtml => Some HFetchMessage
  | ListAttachments => Some HListAttachments
  | DownloadAttachment => Some HDownloadAttachment
  | ExportMessages => Some HExportMessages
  | CreateDraft | CreateDraftHtml => Some HCreateDraft
  | SendEmail => Some HSendEmail
  | Forward => Some HForward
  | DeleteMessage => Some HDeleteMessage
  | Expunge => Some HExpunge
  | CreateFolder => Some HCreateFolder
  | RenameFolder => Some HRenameFolder
  | DeleteFolder => Some HDeleteFolder
  | AddLabel => Some HAddLabel
  | RemoveLabel => Some HRemoveLabel
  | ListLabels => Some HListLabels
  | UseAccount | ListAccounts => None
  end.

(** [run] is the handler on the arguments: deserialization, the handler's own
    work, and serialization. *)
(* [crates/rimap-server/src/mcp/dispatch.rs:221-303] ImapMcpServer::dispatch_tool *)
Definition dispatch_tool (run : Handler -> dispatch_future json) (tool : ToolName) : dispatch_future json :=
  match handler_of tool with
  | Some h => run h
  | None => Finishes (Err (RInternal (lit "infrastructure tools must not reach dispatch_tool")))
  end.

Record CallToolRequest := mkRequest { rq_name : rstr; rq_arguments : option jmap }.

(** A value as serde_json writes it. *)
Definition use_account_json (r : Retrieval.ToolResponse UseAccountMeta unit) : json :=
  let m := Retrieval.resp_meta r in
  JObj [(lit "meta", JObj [(lit "account", JStr (ua_account m));
    (lit "previous", match ua_previous m with Some p => JStr p | None => JNull end)])].
Definition list_accounts_json (r : Retrieval.ToolResponse ListAccountsMeta unit) : json :=
  let m := Retrieval.resp_meta r in
  JObj [(lit "meta", JObj [
    (lit "accounts", JArr (map (fun e => JObj [(lit "name", JStr (ae_name e)); (lit "smtp_configured", JBool (ae_smtp_configured e))])
      (la_accounts m)));
    (lit "count", JInt (la_count m))])].

(** ** Announcing a changed list *)

(* [crates/rimap-server/src/mcp/server.rs:768-778] active_selection_changes_advertisement *)
Definition active_selection_changes_advertisement (prior now : option rstr) (account_count : nat) : bool :=
  match prior, now with
  | None, None => false
  | None, Some _ | Some _, None => (1 <? account_count)%nat
  | Some p, Some n => negb (str_eqb p n)
  end.

Section server.
Context `{Schemas} `{Digest} {L : Type} `{Limiter L} (salt : list Z) (rc : rmcp_codes).
(** [serde_text]: what serde says of arguments without an account name. *)
Context (serde_text : jmap -> rstr).

(** The drain is modelled in [Drain], the audit writer in [AuditWriter]. *)
(* [crates/rimap-server/src/mcp/server.rs:100-120] ImapMcpServer *)
Record ImapMcpServer := mkServer { registry : AccountRegistry (L := L) (AccountState := BootedAccount (L := L)) }.

Definition accounts (s : ImapMcpServer) : gmap rstr (BootedAccount (L := L)) := reg_accounts (registry s).

Definition with_guard (s : ImapMcpServer) (a : BootedAccount (L := L)) (g : DispatchGuard L) : ImapMcpServer :=
  let a' := mkBooted (bo_id a) (bo_imap a) (bo_smtp a) g (bo_folder_guard a) (bo_download_dir a) (bo_special_use a) (bo_tool_call_timeout a) in
  mkServer (mkRegistry (<[bo_id a := a']> (accounts s)) (active (registry s)) (infrastructure_limiter (registry s))).

(** What a call meets: the start record's write, where its future is dropped
    outside the handler, the time it takes, the cancellation channel, the clock
    before and after, and the handlers. *)
Record call_meets := mkMeets {
  cm_start : Envelope.join (result rstr Z); cm_drop_start : bool; cm_drop_end : bool; cm_elapsed_ms : Z; cm_channel_takes : bool;
  cm_pre : duration; cm_post : duration; cm_run : Handler -> BootedAccount (L := L) -> jmap -> dispatch_future json }.

(** What a call leaves: its operations on the audit log, the account and the
    handler it ran, whether it marked the account's session unusable, its
    answer, and whether it announced a changed tool list. *)
Record outcome := mkOutcome {
  oc_ops : list audit_op; oc_ran : option (rstr * Handler); oc_poisons : bool;
  oc_answer : option (ErrorData + CallToolResult); oc_notifies : bool }.

(** The body runs once the start record is written. *)
Definition body_runs (x : call_meets) : bool :=
  negb (cm_drop_start x) && match cm_start x with Joined (Ok _) => true | _ => false end.

(** Stands for the body's answer where the envelope does not look at it. *)
Definition unanswered : result RimapError json := Err (RInternal []).

(* [crates/rimap-server/src/mcp/server.rs:157-196] ImapMcpServer::dispatch_account_scoped *)
Definition dispatch_account_scoped (s : ImapMcpServer) (account : BootedAccount (L := L)) (tool : ToolName) (args : jmap) (x : call_meets)
    : option (ImapMcpServer * outcome) :=
  let envelope body dropped := run_with_audit_envelope salt rc (mkCallEnv (cm_start x) body dropped (cm_elapsed_ms x) (cm_channel_takes x))
    tool (as_optional (bo_id account)) (PAccount (matrix_posture (matrix (bo_guard account)))) args in
  let outcome_of (rep : Envelope.report) ran poisons := mkOutcome (ops rep) ran poisons (Envelope.answer rep) false in
  if body_runs x then
    '(g, rep) ← Authz.dispatch_account_scoped (bo_guard account) (bo_tool_call_timeout account) tool (cm_pre x) (cm_post x)
      (dispatch_tool (fun h => cm_run x h account args) tool);
    let e := match Authz.answer rep with
      | None => envelope unanswered (Some InBody)
      | Some r => envelope r (if cm_drop_end x then Some InEnd else None)
      end in
    Some (with_guard s account g,
          outcome_of e (if handler_ran rep then (fun h => (bo_id account, h)) <$> handler_of tool else None) (poisoned rep))
  else Some (s, outcome_of (envelope unanswered (if cm_drop_start x then Some InStart else None)) None false).

(** [UseAccountInput]'s deserialization. *)
Definition parse_use_account (args : jmap) : result RimapError rstr :=
  match jget args (lit "account") ≫= as_json_str with
  | Some name => Ok name
  | None => Err (invalid_input (lit "invalid arguments: " ++ serde_text args))
  end.

(* [crates/rimap-server/src/mcp/dispatch.rs:323-373] ImapMcpServer::dispatch_infrastructure *)
Definition infrastructure_body (s : ImapMcpServer) (tool : ToolName) (args : jmap) (now : duration) : ImapMcpServer * result RimapError json :=
  let '(r, rate) := check_infrastructure_rate (registry s) now in
  match rate with
  | Err e => (mkServer r, Err e)
  | Ok _ =>
      match tool with
      | UseAccount =>
          match parse_use_account args with
          | Err e => (mkServer r, Err e)
          | Ok name => let '(r, res) := handle_use_account r name in (mkServer r, resp ← res; Ok (use_account_json resp))
          end
      | ListAccounts => (mkServer r, resp ← handle_list_accounts r; Ok (list_accounts_json resp))
      | _ => (mkServer r, Err (RInternal (lit "not an infrastructure tool: " ++ as_str tool)))
      end
  end.

(* [crates/rimap-server/src/mcp/dispatch.rs:309-376] ImapMcpServer::dispatch_infrastructure *)
Definition dispatch_infrastructure (s : ImapMcpServer) (tool : ToolName) (args : jmap) (x : call_meets) : ImapMcpServer * outcome :=
  let envelope body dropped := run_with_audit_envelope salt rc (mkCallEnv (cm_start x) body dropped (cm_elapsed_ms x) (cm_channel_takes x))
    tool None PInfrastructure args in
  let outcome_of (rep : Envelope.report) := mkOutcome (ops rep) None false (Envelope.answer rep) false in
  if body_runs x then
    let '(s, body) := infrastructure_body s tool args (cm_pre x) in
    (s, outcome_of (envelope body (if cm_drop_end x then Some InEnd else None)))
  else (s, outcome_of (envelope unanswered (if cm_drop_start x then Some InStart else None))).

(** Where a request goes. *)
Inductive routed := Refused (e : ErrorData) | Infrastructure (tool : ToolName) | Scoped (account : BootedAccount (L := L)) (tool : ToolName).

(* [crates/rimap-server/src/mcp/server.rs:648-697] ImapMcpServer::dispatch_call_tool *)
Definition route (s : ImapMcpServer) (request : CallToolRequest) : routed :=
  let '(namespaced_account, bare_name) := split_tool_name (rq_name request) in
  match tool_from_str bare_name with
  | Err unknown => Refused (invalid_params rc (lit "unknown tool name `" ++ unknown ++ lit "`"))
  | Ok parsed_tool =>
      match tool_defs parsed_tool with
      | None => Refused (mkErrorData (RESOURCE_NOT_FOUND rc) (lit "tool `" ++ rq_name request ++ lit "` is not available") None)
      | Some _ =>
          let tool_name := refine_tool_name parsed_tool (rq_arguments request) in
          match validate_bare_tool_namespace (is_legacy_single_account (account_ids (accounts s))) (rq_name request) with
          | Err m => Refused (invalid_params rc m)
          | Ok _ =>
              if is_infrastructure tool_name then
                match namespaced_account with
                | Some _ => Refused (invalid_params rc (lit "infrastructure tools cannot be namespaced"))
                | None => Infrastructure tool_name
                end
              else
                match resolve (registry s) namespaced_account with
                | Err e => Refused (to_mcp_error rc e)
                | Ok account => Scoped account tool_name
                end
          end
      end
  end.

(** [None]: the breaker's clock arithmetic panicked. *)
(* [crates/rimap-server/src/mcp/server.rs:643-748] ImapMcpServer::dispatch_call_tool *)
Definition dispatch_call_tool (s : ImapMcpServer) (request : CallToolRequest) (x : call_meets) : option (ImapMcpServer * outcome) :=
  let args := default [] (rq_arguments request) in
  match route s request with
  | Refused e => Some (s, mkOutcome [] None false (Some (inl e)) false)
  | Infrastructure tool_name =>
      let prior_active := active (registry s) in
      let '(s, o) := dispatch_infrastructure s tool_name args x in
      let notifies := match oc_answer o with Some (inr _) => bool_decide (tool_name = UseAccount) | _ => false end
        && active_selection_changes_advertisement prior_active (active (registry s)) (size (accounts s)) in
      Some (s, mkOutcome (oc_ops o) (oc_ran o) (oc_poisons o) (oc_answer o) notifies)
  | Scoped account tool_name => dispatch_account_scoped s account tool_name args x
  end.

(** ** What makes a server well formed *)

(** Each account is registered under its identifier, which is one, and the
    active account is registered. *)
Definition server_ok (s : ImapMcpServer) : Prop :=
  map_Forall (fun id a => bo_id a = id /\ exists name, account_id_new name = Ok id) (accounts s) /\
  (forall id, active (registry s) = Some id -> is_Some (accounts s !! id)).

(** ** Routing *)

Lemma tool_defs_name t d : tool_defs t = Some d -> t_name d = as_str t.
Proof. unfold tool_defs. destruct (tool_def_parts t) as [[title descr]|]; [|done]. by intros [= <-]. Qed.

Definition is_sub_capability (t : ToolName) : bool :=
  match t with SearchAdvanced | FetchMessageHtml | CreateDraftHtml => true | _ => false end.

Lemma tool_defs_none t : match tool_defs t with Some _ => false | None => true end = is_sub_capability t.
Proof. by destruct t. Qed.

Lemma tool_defs_some t : is_Some (tool_defs t) <-> is_sub_capability t = false.
Proof.
  rewrite <- tool_defs_none. split; [by intros [d ->]|]. destruct (tool_defs t); [intros _; by eexists|done].
Qed.

Lemma listed_undotted t : is_Some (tool_defs t) -> existsb (Z.eqb 46) (as_str t) = false.
Proof. rewrite tool_defs_some. by destruct t. Qed.

(** A listed tool called by its bare name is either an infrastructure tool or
    called on the server's only account, named default. *)
Lemma bare_call_legacy ids t : is_Some (tool_defs t) -> is_infrastructure t = false ->
  is_ok (validate_bare_tool_namespace (is_legacy_single_account ids) (as_str t)) = true -> ids = [DEFAULT_ACCOUNT_NAME].
Proof.
  intros Hd Hi. unfold validate_bare_tool_namespace, is_bare_simple_tool_name. rewrite (listed_undotted t Hd), tool_from_str_as_str.
  assert ((match t with UseAccount | ListAccounts => false | _ => true end) = true) as -> by (by destruct t).
  destruct (is_legacy_single_account ids) eqn:El; [|done]. intros _. unfold is_legacy_single_account in El.
  destruct ids as [|id [|? ?]]; try done. unfold as_optional in El. destruct (str_eqb id _) eqn:E; [|done].
  by apply str_eqb_eq in E as ->.
Qed.

Lemma refine_infrastructure t args : is_infrastructure (refine_tool_name t args) = is_infrastructure t.
Proof. unfold refine_tool_name. destruct args, t; cbn; try done; by case_match. Qed.

Lemma resolve_some s name a : server_ok s -> resolve (registry s) (Some name) = Ok a ->
  accounts s !! to_ascii_lowercase name = Some a /\ bo_id a = to_ascii_lowercase name.
Proof.
  intros [Hok _]. unfold resolve, find_by_name. destruct (account_id_new name) as [id|] eqn:Ei; [|done].
  apply account_id_new_ok in Ei as (_ & _ & _ & ->). destruct (reg_accounts (registry s) !! _) as [a'|] eqn:E; [|done].
  intros [= <-]. split; [done|]. by apply (Hok _ _ E).
Qed.

Lemma single_account_ids (m : gmap rstr (BootedAccount (L := L))) id : account_ids m = [id] -> exists a, m = {[id := a]}.
Proof.
  unfold account_ids. pose proof (btree_iter_perm m) as Hp. destruct (btree_iter m) as [|[i a] [|? ?]]; cbn; try done.
  intros [= ->]. exists a. symmetry in Hp. apply Permutation_singleton_r in Hp. apply map_to_list_inj. by rewrite Hp, map_to_list_singleton.
Qed.

Lemma resolve_none s id a : resolve (registry s) None = Ok a -> account_ids (accounts s) = [id] -> accounts s = {[id := a]}.
Proof.
  intros Hr Hs. destruct (single_account_ids _ _ Hs) as [b Hb]. rewrite Hb. unfold resolve in Hr. unfold accounts in Hb. rewrite Hb in Hr.
  pose proof (btree_iter_perm ({[id := b]} : gmap rstr (BootedAccount (L := L)))) as Hp. rewrite map_to_list_singleton in Hp.
  apply Permutation_singleton_r in Hp. rewrite Hp in Hr. by injection Hr as <-.
Qed.

(** The account a name addresses. *)
Definition addressed (s : ImapMcpServer) (ns : option rstr) (a : BootedAccount (L := L)) : Prop :=
  accounts s !! bo_id a = Some a /\
  match ns with
  | Some name => to_ascii_lowercase name = bo_id a
  | None => accounts s = {[DEFAULT_ACCOUNT_NAME := a]}
  end.

Lemma route_scoped s rq a t : server_ok s -> route s rq = Scoped a t ->
  exists ns bare base, split_tool_name (rq_name rq) = (ns, bare) /\ bare = as_str base /\ is_Some (tool_defs base) /\
    t = refine_tool_name base (rq_arguments rq) /\ is_infrastructure t = false /\ addressed s ns a.
Proof.
  intros Hok. unfold route. destruct (split_tool_name (rq_name rq)) as [ns bare] eqn:Es.
  destruct (tool_from_str bare) as [base|] eqn:Et; [|done]. destruct (tool_defs base) as [d|] eqn:Ed; [|done].
  destruct (validate_bare_tool_namespace _ _) as [[]|] eqn:Ev; [|done].
  destruct (is_infrastructure (refine_tool_name _ _)) eqn:Ei; [by destruct ns|].
  destruct (resolve (registry s) ns) as [a'|] eqn:Er; [|done]. intros [= <- <-].
  apply tool_name_iff in Et. exists ns, bare, base. split_and!; try done.
  destruct ns as [name|].
  - apply resolve_some in Er as [Ha Hid]; [|done]. split; [by rewrite Hid|done].
  - assert (Hraw : rq_name rq = as_str base).
    { unfold split_tool_name in Es. repeat (case_match; simplify_eq; try done). }
    rewrite refine_infrastructure in Ei. rewrite Hraw in Ev.
    assert (Hids : account_ids (accounts s) = [DEFAULT_ACCOUNT_NAME]).
    { apply (bare_call_legacy _ base); [by eexists|done|by rewrite Ev]. }
    pose proof (resolve_none _ _ _ Er Hids) as Hs. split; [|done].
    destruct Hok as [Hok _]. assert (Ha : accounts s !! DEFAULT_ACCOUNT_NAME = Some a') by (by rewrite Hs, lookup_singleton_eq).
    destruct (Hok _ _ Ha) as [-> _]. done.
Qed.

(** ** What a call does *)

(** An answer that reports failure. *)
Definition is_failure (a : ErrorData + CallToolResult) : bool := match a with inl _ => true | inr r => cr_is_error r end.

Lemma error_answer_failure e : is_failure (error_answer rc e) = true.
Proof. unfold error_answer. by destruct (is_tool_execution_error e). Qed.

(** The envelope of a call whose body does not run. *)
Lemma not_run_ops b d x tool account posture args :
  body_runs x = false -> d = (if cm_drop_start x then Some InStart else None) ->
  let rep := run_with_audit_envelope salt rc (mkCallEnv (cm_start x) b d (cm_elapsed_ms x) (cm_channel_takes x)) tool account posture args in
  (exists i, ops rep = [WriteStart i]) /\ (forall a, Envelope.answer rep = Some a -> is_failure a = true).
Proof.
  unfold body_runs, run_with_audit_envelope. cbn [start_join dropped]. intros Hb ->.
  destruct (cm_drop_start x); [split; [by eexists|done]|]. destruct (cm_start x) as [[seq|e]|]; [done| |]; cbn; (split; [by eexists|by intros a [= <-]]).
Qed.

(** The envelope of a call whose body runs: the start record and at most one
    end record. *)
Lemma run_ops b d x tool account posture args : body_runs x = true -> d <> Some InStart ->
  exists seq, cm_start x = Joined (Ok seq) /\
  let rep := run_with_audit_envelope salt rc (mkCallEnv (cm_start x) b d (cm_elapsed_ms x) (cm_channel_takes x)) tool account posture args in
  (exists i rest, ops rep = WriteStart i :: rest /\ tsi_tool i = tool /\ tsi_account i = account /\ (length rest <= 1)%nat) /\
  (forall a, Envelope.answer rep = Some a -> a = answer_of rc b).
Proof.
  unfold body_runs, run_with_audit_envelope. cbn [start_join dropped]. intros Hb Hd.
  destruct (cm_drop_start x); [done|]. destruct (cm_start x) as [[seq|e]|]; [|done|done]. exists seq. split; [done|].
  destruct d as [[]|]; [done| | |]; cbn; (split; [|by intros a [= <-]]); eexists _, _; (split; [done|]); cbn;
    (split; [done|]); (split; [done|]); try case_match; cbn; lia.
Qed.

Lemma admitted_runs {A} (g g' : DispatchGuard L) (f : dispatch_future A) ceiling t_post rep :
  (let '(res, poison) := with_tool_call_ceiling ceiling f in
   match res with
   | None => Some (g, Authz.mkReport true poison None)
   | Some (Ok a) => Some (guard_on_success g t_post, Authz.mkReport true poison (Some (Ok a)))
   | Some (Err e) =>
       match rimap_error_to_breaker_reason e with
       | Some reason => g' ← guard_on_failure g reason t_post; Some (g', Authz.mkReport true poison (Some (Err e)))
       | None => Some (g, Authz.mkReport true poison (Some (Err e)))
       end
   end) = Some (g', rep) -> matrix g' = matrix g /\ handler_ran rep = true.
Proof.
  destruct (with_tool_call_ceiling ceiling f) as [[[v|e]|] p]; [by intros [= <- <-]| |by intros [= <- <-]].
  destruct (rimap_error_to_breaker_reason e) as [reason|]; [|by intros [= <- <-]]. unfold guard_on_failure.
  destruct (on_failure _ _ _ _); [|done]. by intros [= <- <-].
Qed.

Lemma dispatch_admits {A} (g g' : DispatchGuard L) ceiling t t1 t2 (f : dispatch_future A) rep :
  Authz.dispatch_account_scoped g ceiling t t1 t2 f = Some (g', rep) ->
  matrix g' = matrix g /\
  ((pre_dispatch g t t1).2 = Ok tt /\ handler_ran rep = true \/
   exists e, (pre_dispatch g t t1).2 = Err e /\ rep = Authz.mkReport false false (Some (Err (rimap_of_authz e)))).
Proof.
  unfold Authz.dispatch_account_scoped. destruct (pre_dispatch g t t1) as [g1 r] eqn:Ep.
  apply pre_dispatch_frame in Ep as (Hm & _ & _). destruct r as [[]|e]; [|intros [= <- <-]; split; [done|right; by exists e]].
  intros [Hm' Hran]%admitted_runs. split; [congruence|by left].
Qed.

(** What an account-scoped call does: the promoted tool's handler behind the
    guard, or a failure. *)
Lemma scoped_gated s a t args x s' o : is_infrastructure t = false ->
  dispatch_account_scoped s a t args x = Some (s', o) ->
  (exists g, accounts s' = accounts s \/ matrix g = matrix (bo_guard a) /\ s' = with_guard s a g) /\ active (registry s') = active (registry s) /\
  match oc_ran o with
  | Some (id, h) => handler_of t = Some h /\ bo_id a = id /\
      matrix_allows (matrix (bo_guard a)) t = true /\ breaker_admits (breaker (bo_guard a)) (cm_pre x) = true /\
      buckets_admit (governor (bo_guard a)) t (cm_pre x) = true /\
      exists seq i rest, cm_start x = Joined (Ok seq) /\ oc_ops o = WriteStart i :: rest /\ tsi_tool i = t /\
        tsi_account i = as_optional id /\ (length rest <= 1)%nat
  | None => oc_poisons o = false /\ forall ans, oc_answer o = Some ans -> is_failure ans = true
  end.
Proof.
  intros Hi. unfold dispatch_account_scoped. destruct (body_runs x) eqn:Eb.
  2: { intros [= <- <-]. cbn [oc_ran oc_poisons oc_answer]. split; [exists (bo_guard a); by left|]. split; [done|]. split; [done|].
       apply (not_run_ops _ _ x _ _ _ _ Eb eq_refl). }
  destruct (Authz.dispatch_account_scoped _ _ _ _ _ _) as [[g rep]|] eqn:Ed; [|done]. cbn. intros [= <- <-]. cbn [oc_ran oc_poisons oc_answer oc_ops].
  apply dispatch_admits in Ed as [Hm Hcase]. split; [exists g; by right|]. split; [done|].
  destruct Hcase as [[Hpre ->]|(e & Hpre & ->)].
  - destruct (handler_of t) as [h|] eqn:Eh; [|by destruct t]. cbn [fmap option_fmap option_map].
    apply pre_dispatch_admits in Hpre as (Hal & Hbr & Hbu). do 5 (split; [done|]).
    set (d := match Authz.answer rep with Some _ => if cm_drop_end x then Some InEnd else None | None => Some InBody end).
    set (b := match Authz.answer rep with Some r => r | None => unanswered end).
    destruct (run_ops b d x t (as_optional (bo_id a)) (PAccount (matrix_posture (matrix (bo_guard a)))) args Eb) as (seq & Hseq & (i & rest & Hr) & _).
    { subst d. destruct (Authz.answer rep), (cm_drop_end x); discriminate. }
    exists seq, i, rest. subst b d. destruct (Authz.answer rep); tauto.
  - cbn. split; [done|]. intros ans Hans. destruct (run_ops (Err (rimap_of_authz e)) (if cm_drop_end x then Some InEnd else None) x t (as_optional (bo_id a))
      (PAccount (matrix_posture (matrix (bo_guard a)))) args Eb) as (seq & _ & _ & Hanswer); [by destruct (cm_drop_end x)|].
    apply Hanswer in Hans as ->. apply error_answer_failure.
Qed.

(** C1: no handler runs but behind every gate.  When a call runs a handler, it
    runs one, and: the request's name splits into a namespace and a listed tool;
    the account is the one the namespace spells, in any letter case, or, for a
    bare name, the server's only one; the tool is the one the arguments promote
    the name to, and the handler is that tool's; the account's own posture and
    overrides allow the promoted tool, its breaker admits a call and its buckets
    have a cell; and the start record, naming the tool and the account, was
    written before.  No other account and not the active selection is touched.
    When it runs none, then for a tool of an account every answer is a
    failure, no account's session is marked and no mailbox was reached. *)
Theorem call_tool_gated s rq x s' o : server_ok s -> dispatch_call_tool s rq x = Some (s', o) ->
  match oc_ran o with
  | Some (id, h) => exists a ns base t,
      split_tool_name (rq_name rq) = (ns, as_str base) /\ is_sub_capability base = false /\
      t = refine_tool_name base (rq_arguments rq) /\ is_infrastructure t = false /\ handler_of t = Some h /\
      bo_id a = id /\ addressed s ns a /\
      matrix_allows (matrix (bo_guard a)) t = true /\ breaker_admits (breaker (bo_guard a)) (cm_pre x) = true /\
      buckets_admit (governor (bo_guard a)) t (cm_pre x) = true /\
      (exists seq i rest, cm_start x = Joined (Ok seq) /\ oc_ops o = WriteStart i :: rest /\ tsi_tool i = t /\
         tsi_account i = as_optional id /\ (length rest <= 1)%nat) /\
      (forall id', id' <> id -> accounts s' !! id' = accounts s !! id') /\ active (registry s') = active (registry s)
  | None => oc_poisons o = false /\
      ((exists t, route s rq = Infrastructure t) \/
       (forall a, oc_answer o = Some a -> is_failure a = true) /\ active (registry s') = active (registry s))
  end.
Proof.
  intros Hok. unfold dispatch_call_tool. destruct (route s rq) as [e|t|a t] eqn:Er.
  - intros [= <- <-]. cbn. split; [done|]. right. split; [by intros a [= <-]|done].
  - unfold dispatch_infrastructure. destruct (body_runs x); [destruct (infrastructure_body _ _ _ _)|]; intros [= <- <-]; cbn; eauto.
  - destruct (route_scoped _ _ _ _ Hok Er) as (ns & bare & base & Hsp & -> & Hd & -> & Hi & Ha).
    intros Hd'. destruct (scoped_gated _ _ _ _ _ _ _ Hi Hd') as ([g Hs] & Hact & Hran).
    destruct (oc_ran o) as [[id h]|]; [|tauto]. destruct Hran as (Hh & <- & Hm & Hbr & Hbu & Hops).
    exists a, ns, base, (refine_tool_name base (rq_arguments rq)). apply tool_defs_some in Hd. split_and!; try done; try apply Ha.
    intros id' Hne. destruct Hs as [->|[_ ->]]; [done|]. unfold with_guard, accounts. cbn. by rewrite lookup_insert_ne.
Qed.

(** ** A session *)

(** Calls arrive one after the other, whatever they meet. *)
Definition session_step (s s' : ImapMcpServer) : Prop := exists rq x o, dispatch_call_tool s rq x = Some (s', o).

(** What a call leaves as it was: the accounts, up to their guards' breakers
    and buckets. *)
Definition same_accounts (m m' : gmap rstr (BootedAccount (L := L))) : Prop :=
  forall id, match m !! id, m' !! id with
  | Some a, Some a' => bo_id a' = bo_id a /\ bo_imap a' = bo_imap a /\ bo_folder_guard a' = bo_folder_guard a /\
      bo_download_dir a' = bo_download_dir a /\ bo_special_use a' = bo_special_use a /\
      matrix (bo_guard a') = matrix (bo_guard a)
  | None, None => True
  | _, _ => False
  end.

#[export] Instance same_accounts_preorder : PreOrder same_accounts.
Proof.
  split.
  - intros m id. by destruct (m !! id).
  - intros m1 m2 m3 H12 H23 id. specialize (H12 id). specialize (H23 id).
    destruct (m1 !! id), (m2 !! id), (m3 !! id); try done. naive_solver congruence.
Qed.

Lemma guarded_same s a g : server_ok s -> accounts s !! bo_id a = Some a -> matrix g = matrix (bo_guard a) ->
  same_accounts (accounts s) (accounts (with_guard s a g)).
Proof.
  intros _ Ha Hm id. unfold with_guard. change (accounts (mkServer ?r)) with (reg_accounts r). cbn [reg_accounts].
  destruct (decide (id = bo_id a)) as [->|]; [|rewrite lookup_insert_ne by done; by destruct (accounts s !! id)].
  by rewrite Ha, lookup_insert_eq.
Qed.

Lemma server_ok_same s s' : server_ok s -> same_accounts (accounts s) (accounts s') ->
  (forall id, active (registry s') = Some id -> is_Some (accounts s' !! id)) -> server_ok s'.
Proof.
  intros [Hok _] Hs Hact. split; [|exact Hact]. intros id a' Ha'. specialize (Hs id). rewrite Ha' in Hs.
  destruct (accounts s !! id) as [a|] eqn:Ha; [|done]. destruct Hs as (-> & _). by apply (Hok _ _ Ha).
Qed.

(** An infrastructure call changes the selection at most, and only to a
    registered account. *)
Lemma infrastructure_same s t args now : server_ok s ->
  let s' := (infrastructure_body s t args now).1 in
  accounts s' = accounts s /\ (forall id, active (registry s') = Some id -> is_Some (accounts s' !! id)).
Proof.
  intros [_ Hact]. unfold infrastructure_body. destruct (check_infrastructure_rate (registry s) now) as [r rate] eqn:Er.
  unfold check_infrastructure_rate in Er. destruct (limiter_check _ now) as [l w]. injection Er as <- _.
  destruct rate; [|by cbn]. destruct t; try (by cbn). destruct (parse_use_account args) as [name|]; [|by cbn].
  set (r := mkRegistry _ _ l). pose proof (use_account_ok (accounts s) r name) as Hu.
  destruct (handle_use_account r name) as [r' res]. cbn in *. destruct Hu as [Ha Hr]; [by split|]. split; [exact Ha|].
  unfold accounts in *. cbn. by rewrite Ha.
Qed.

Lemma step_same s rq x s' o : server_ok s -> dispatch_call_tool s rq x = Some (s', o) ->
  server_ok s' /\ same_accounts (accounts s) (accounts s').
Proof.
  intros Hok. unfold dispatch_call_tool. destruct (route s rq) as [e|t|a t] eqn:Er.
  - by intros [= <- <-].
  - unfold dispatch_infrastructure. destruct (body_runs x); [|by intros [= <- <-]].
    pose proof (infrastructure_same s t (default [] (rq_arguments rq)) (cm_pre x) Hok) as [Ha Hact].
    destruct (infrastructure_body _ _ _ _) as [s1 body]. cbn [fst] in *. intros [= <- <-].
    assert (Hs : same_accounts (accounts s) (accounts s1)) by (by rewrite Ha). split; [|done]. by eapply server_ok_same.
  - destruct (route_scoped _ _ _ _ Hok Er) as (_ & _ & _ & _ & _ & _ & _ & Hi & [Ha _]). intros Hd.
    destruct (scoped_gated _ _ _ _ _ _ _ Hi Hd) as ([g Hs] & Hact & _).
    assert (Hs' : same_accounts (accounts s) (accounts s')).
    { destruct Hs as [->|[Hm ->]]; [done|]. by apply guarded_same. }
    split; [|done]. apply (server_ok_same _ _ Hok Hs'). rewrite Hact. intros id Hid. destruct Hok as [_ Hreg].
    destruct (Hreg _ Hid) as [a' Ha']. specialize (Hs' id). rewrite Ha' in Hs'. destruct (accounts s' !! id); [by eexists|done].
Qed.

Lemma session_same s s' : server_ok s -> rtc session_step s s' -> server_ok s' /\ same_accounts (accounts s) (accounts s').
Proof.
  intros Hok Hsteps. revert Hok. induction Hsteps as [s|s1 s2 s3 (rq & x & o & Hd) _ IH]; intros Hok; [done|].
  destruct (step_same _ _ _ _ _ Hok Hd) as [Hok2 H12]. destruct (IH Hok2) as [Hok3 H23]. split; [done|]. by transitivity (accounts s2).
Qed.

(** The server as it starts. *)
Definition server_new (states : gmap rstr (BootedAccount (L := L))) : ImapMcpServer := mkServer (registry_new states).

Context `{FolderText}.

Lemma booted_ok fs config multi env dir records states :
  validate_multi fs config = Ok multi -> build_registry env multi dir = (records, Ok states) -> server_ok (server_new states).
Proof.
  intros Hv Hb. pose proof (boot_complete env dir multi) as Hc. rewrite Hb in Hc. destruct Hc as (_ & Hc & _).
  split; [|by intros id]. intros id b Hl. destruct (Hc _ _ Hl) as (acfg & Ha & Hok). split; [|by apply (validated_ids _ _ _ Hv _ _ Ha)].
  destruct (boot_account env dir id acfg) as [rs r] eqn:E. cbn in Hok. subst r. by apply boot_account_ok in E as (-> & _).
Qed.

(** C3: whatever a session asks, the configuration bounds it.  From a validated
    configuration and a complete boot, after any sequence of calls with any
    outcomes, the accounts are those configured, each with the connection and
    the effective matrix of its own configuration and the folder guard it booted
    with; the active account is one of them; and when the next call runs a
    handler, it is on a configured account, for a tool that the configuration's
    posture and overrides for that account allow, promoted by its arguments. *)
Theorem session_confined fs config multi env dir records states s :
  validate_multi fs config = Ok multi -> build_registry env multi dir = (records, Ok states) ->
  rtc session_step (server_new states) s ->
  (forall id, match Config.accounts multi !! id, accounts s !! id with
   | Some acfg, Some a => bo_id a = id /\ bo_imap a = build_account_connection id acfg /\
       matrix (bo_guard a) = matrix_build (Config.posture (v_security acfg)) (v_tool_overrides acfg) /\
       exists rs policy, resolve_folder_policy acfg (be_listing env id) (be_log env) = (rs, Ok policy) /\ bo_folder_guard a = policy_guard policy
   | None, None => True
   | _, _ => False
   end) /\
  (forall id, active (registry s) = Some id -> is_Some (Config.accounts multi !! id)) /\
  (forall rq x s' o id h, dispatch_call_tool s rq x = Some (s', o) -> oc_ran o = Some (id, h) ->
     exists acfg base, Config.accounts multi !! id = Some acfg /\
       let t := refine_tool_name base (rq_arguments rq) in
       handler_of t = Some h /\ effective (Config.posture (v_security acfg)) (v_tool_overrides acfg) t = true).
Proof.
  intros Hv Hb Hsteps. pose proof (booted_ok _ _ _ _ _ _ _ Hv Hb) as Hok0. pose proof (session_same _ _ Hok0 Hsteps) as [Hok Hs].
  pose proof (boot_complete env dir multi) as Hc. rewrite Hb in Hc. destruct Hc as (Hc1 & Hc2 & _). change (accounts (server_new states)) with states in Hs.
  assert (Hacc : forall id, match Config.accounts multi !! id, accounts s !! id with
   | Some acfg, Some a => bo_id a = id /\ bo_imap a = build_account_connection id acfg /\
       matrix (bo_guard a) = matrix_build (Config.posture (v_security acfg)) (v_tool_overrides acfg) /\
       exists rs policy, resolve_folder_policy acfg (be_listing env id) (be_log env) = (rs, Ok policy) /\ bo_folder_guard a = policy_guard policy
   | None, None => True
   | _, _ => False
   end).
  { intros id. specialize (Hs id). destruct (Config.accounts multi !! id) as [acfg|] eqn:Ea.
    - destruct (Hc1 _ _ Ea) as (b & Hbo & Hbs). rewrite Hbs in Hs. destruct (accounts s !! id) as [a|]; [|done].
      destruct Hs as (-> & -> & -> & _ & _ & ->). destruct (boot_account env dir id acfg) as [rs r] eqn:E. cbn in Hbo. subst r.
      apply boot_account_ok in E as (-> & -> & _ & -> & _ & _ & policy & Hp & -> & _). do 3 (split; [done|]). by exists rs, policy.
    - destruct (states !! id) as [b|] eqn:Eb; [|done]. destruct (Hc2 _ _ Eb) as (acfg & ? & _). congruence. }
  split; [exact Hacc|]. split.
  - intros id Hid. destruct Hok as [_ Hact]. destruct (Hact _ Hid) as [a Ha]. specialize (Hacc id). rewrite Ha in Hacc.
    destruct (Config.accounts multi !! id); [by eexists|done].
  - intros rq x s' o id h Hd Hran. unfold dispatch_call_tool in Hd. destruct (route s rq) as [e|t|a t] eqn:Er.
    + by injection Hd as <- <-.
    + unfold dispatch_infrastructure in Hd. destruct (body_runs x); [destruct (infrastructure_body _ _ _ _)|]; by injection Hd as <- <-.
    + destruct (route_scoped _ _ _ _ Hok Er) as (ns & bare & base & _ & _ & _ & -> & Hi & [Ha _]).
      destruct (scoped_gated _ _ _ _ _ _ _ Hi Hd) as (_ & _ & Hg). rewrite Hran in Hg. destruct Hg as (Hh & Hid & Hm & _).
      specialize (Hacc id). rewrite <- Hid, Ha in Hacc. rewrite <- Hid.
      destruct (Config.accounts multi !! bo_id a) as [acfg|]; [|done]. destruct Hacc as (_ & _ & Hmx & _).
      exists acfg, base. split; [done|]. split; [exact Hh|]. by rewrite Hmx, matrix_allows_build in Hm.
Qed.

(** ** What is advertised can be called *)

Lemma elem_of_advertised m t : t ∈ advertised m <-> matrix_allows m t = true.
Proof. unfold advertised. rewrite list_elem_of_In, List.filter_In, <- list_elem_of_In. pose proof (all_tools_complete t). tauto. Qed.

Lemma elem_of_entries bare active id (a : BootedAccount (L := L)) d : d ∈ account_entries bare active id a <->
  (active = None \/ active = Some id) /\ exists t def, matrix_allows (matrix (bo_guard a)) t = true /\ tool_defs t = Some def /\
    d = build_advertised_tool def id (matrix_posture (matrix (bo_guard a))) (negb bare).
Proof.
  unfold account_entries.
  assert (Hsel : (match active with Some n => negb (str_eqb id n) | None => false end) = false <-> active = None \/ active = Some id).
  { destruct active as [n|]; [|tauto]. rewrite negb_false_iff, str_eqb_eq. naive_solver. }
  destruct (match active with Some n => negb (str_eqb id n) | None => false end).
  - rewrite elem_of_nil. split; [done|]. intros [?%Hsel _]. done.
  - rewrite list_elem_of_omap. split.
    + intros (t & Ht%elem_of_advertised & Hd). split; [by apply Hsel|].
      destruct (tool_defs t) as [def|] eqn:E; [|done]. injection Hd as <-. eauto 6.
    + intros (_ & t & def & Ht & Hd & ->). exists t. split; [by apply elem_of_advertised|]. by rewrite Hd.
Qed.

Lemma elem_of_catalog (m : gmap rstr (BootedAccount (L := L))) active d : d ∈ build_tool_catalog_for m active <->
  (exists t, is_infrastructure t = true /\ tool_defs t = Some d) \/
  ~ ((1 < size m)%nat /\ active = None) /\ exists id a, m !! id = Some a /\ d ∈ account_entries (is_legacy_single_account (account_ids m)) active id a.
Proof.
  unfold build_tool_catalog_for. set (infra := omap tool_defs [UseAccount; ListAccounts]).
  assert (Hinfra : d ∈ infra <-> exists t, is_infrastructure t = true /\ tool_defs t = Some d).
  { subst infra. rewrite list_elem_of_omap. split.
    - intros (t & Ht & Hd). exists t. rewrite !elem_of_cons, elem_of_nil in Ht. by destruct Ht as [->|[->|[]]].
    - intros (t & Ht & Hd). exists t. rewrite !elem_of_cons. destruct t; naive_solver. }
  destruct ((1 <? size m)%nat && bool_decide (active = None)) eqn:Eh.
  - rewrite andb_true_iff, Nat.ltb_lt, bool_decide_eq_true in Eh. rewrite Hinfra. tauto.
  - rewrite andb_false_iff, Nat.ltb_ge, bool_decide_eq_false in Eh. rewrite elem_of_app, Hinfra, list_elem_of_In, List.in_concat.
    setoid_rewrite List.in_map_iff. apply or_iff_compat_l. split.
    + intros (l & ([id a] & <- & Hin) & Hd). split; [intros [? ?]; destruct Eh; [lia|done]|]. exists id, a.
      apply list_elem_of_In in Hin. apply list_elem_of_In in Hd. rewrite btree_iter_perm in Hin. apply elem_of_map_to_list in Hin. done.
    + intros (_ & id & a & Ha & Hd). eexists. split; [|by apply list_elem_of_In]. exists (id, a). split; [done|].
      apply list_elem_of_In. rewrite btree_iter_perm. by apply elem_of_map_to_list.
Qed.

(** The wire name of an account's tool. *)
Definition wire_name (s : ImapMcpServer) (id : rstr) (t : ToolName) : rstr :=
  if is_legacy_single_account (account_ids (accounts s)) then as_str t else id ++ lit "." ++ as_str t.

Lemma advertised_name s def id p t : tool_defs t = Some def ->
  t_name (build_advertised_tool def id p (negb (is_legacy_single_account (account_ids (accounts s))))) = wire_name s id t.
Proof.
  intros Hd. unfold build_advertised_tool, wire_name. destruct (is_legacy_single_account _); cbn; by rewrite (tool_defs_name _ _ Hd).
Qed.


(** A namespaced or, in the legacy server, bare name of a listed tool reaches
    its account. *)
Lemma route_wire_name s id a t args : server_ok s -> accounts s !! id = Some a -> is_sub_capability t = false ->
  is_infrastructure t = false -> route s (mkRequest (wire_name s id t) args) = Scoped a (refine_tool_name t args).
Proof.
  intros [Hok _] Ha Hsub Hi. destruct (Hok _ _ Ha) as (Hid & name & Hn). apply tool_defs_some in Hsub as [def Hd].
  unfold route, wire_name. cbn [rq_name rq_arguments]. destruct (is_legacy_single_account _) eqn:El.
  - assert (split_tool_name (as_str t) = (None, as_str t)) as -> by (unfold split_tool_name; by rewrite tool_from_str_as_str).
    rewrite tool_from_str_as_str, Hd, refine_infrastructure, Hi. unfold validate_bare_tool_namespace. cbn [negb andb].
    unfold is_legacy_single_account in El. destruct (account_ids (accounts s)) as [|id' [|? ?]] eqn:Ei; try done.
    destruct (single_account_ids _ _ Ei) as [b Hb]. unfold accounts in Ha, Hb. rewrite Hb in Ha.
    apply lookup_singleton_Some in Ha as [-> ->]. unfold resolve. rewrite Hb.
    pose proof (btree_iter_perm ({[id := a]} : gmap rstr (BootedAccount (L := L)))) as Hp. rewrite map_to_list_singleton in Hp.
    apply Permutation_singleton_r in Hp. by rewrite Hp.
  - rewrite (split_namespaced _ _ _ Hn), tool_from_str_as_str, Hd, refine_infrastructure, Hi.
    unfold validate_bare_tool_namespace, is_bare_simple_tool_name.
    assert (existsb (Z.eqb 46) (id ++ lit "." ++ as_str t) = true) as ->.
    { apply List.existsb_exists. exists 46. split; [|done]. apply List.in_or_app. right. by left. }
    cbn [andb negb]. unfold resolve, find_by_name. rewrite (account_id_idempotent _ _ Hn). unfold accounts in Ha. by rewrite Ha.
Qed.

Lemma route_infrastructure s t args : is_infrastructure t = true -> route s (mkRequest (as_str t) args) = Infrastructure t.
Proof.
  intros Hi. unfold route. cbn [rq_name rq_arguments].
  assert (split_tool_name (as_str t) = (None, as_str t)) as -> by (unfold split_tool_name; by rewrite tool_from_str_as_str).
  rewrite tool_from_str_as_str. assert (is_Some (tool_defs t)) as [def ->] by (apply tool_defs_some; by destruct t).
  assert (is_ok (validate_bare_tool_namespace (is_legacy_single_account (account_ids (accounts s))) (as_str t)) = true) as Hv.
  { unfold validate_bare_tool_namespace, is_bare_simple_tool_name. rewrite tool_from_str_as_str.
    destruct t; try done; destruct (is_legacy_single_account _); reflexivity. }
  destruct (validate_bare_tool_namespace _ _); [|done]. rewrite refine_infrastructure, Hi. f_equal. destruct args, t; done.
Qed.

(** C15: what the list advertises can be called, and nothing the active account
    allows is missing.  Each entry of the list is an infrastructure tool, whose
    name calls it; or a tool that some account's posture and overrides allow,
    listed under that account's name for it.  If that tool is not itself an
    infrastructure tool, the name leads, with whatever arguments, to that
    account and to the tool as the arguments promote it.  (An override can
    allow use_account or list_accounts for an account; where names carry the
    account, that entry is listed and a call by its name refused: see
    infrastructure_override_shown.)  An account that is active, or the only one
    while none is, has every tool it allows in the list, sub-capabilities apart;
    and such a tool, infrastructure tools again apart, answers to its name even
    where another account is active. *)
Theorem advertised_callable s : server_ok s ->
  let catalog := build_tool_catalog_for (accounts s) (active (registry s)) in
  (forall d args, d ∈ catalog ->
    (exists t, is_infrastructure t = true /\ t_name d = as_str t /\ route s (mkRequest (t_name d) args) = Infrastructure t) \/
    (exists id a t, accounts s !! id = Some a /\ matrix_allows (matrix (bo_guard a)) t = true /\ t_name d = wire_name s id t /\
       (is_infrastructure t = false -> route s (mkRequest (t_name d) args) = Scoped a (refine_tool_name t args)))) /\
  (forall id a t, accounts s !! id = Some a -> matrix_allows (matrix (bo_guard a)) t = true -> is_sub_capability t = false ->
    (active (registry s) = Some id \/ active (registry s) = None /\ size (accounts s) = 1%nat ->
       exists d, d ∈ catalog /\ t_name d = wire_name s id t) /\
    (is_infrastructure t = false -> forall args, route s (mkRequest (wire_name s id t) args) = Scoped a (refine_tool_name t args))).
Proof.
  intros Hok catalog. split.
  - intros d args [(t & Hi & Hd)|(_ & id & a & Ha & He)]%elem_of_catalog.
    + left. exists t. rewrite (tool_defs_name _ _ Hd). split_and!; [done|done|by apply route_infrastructure].
    + right. apply elem_of_entries in He as (_ & t & def & Hm & Hd & ->). exists id, a, t.
      rewrite (advertised_name s _ _ _ _ Hd). split_and!; [done|done|done|]. intros Hi.
      apply route_wire_name; [done|done|apply tool_defs_some; by eexists|done].
  - intros id a t Ha Hm Hsub. split; [|by intros; apply route_wire_name]. intros Hact.
    pose proof Hsub as [def Hd]%tool_defs_some. eexists. split; [|apply (advertised_name s _ _ (matrix_posture (matrix (bo_guard a))) _ Hd)].
    apply elem_of_catalog. right. split; [intros [Hsz Hnone]; destruct Hact as [|[_ ?]]; [congruence|lia]|].
    exists id, a. split; [exact Ha|]. apply elem_of_entries. split; [destruct Hact as [|[? _]]; auto|]. eauto 6.
Qed.

(** The change notice of use_account is exact for what the lists depend on: it
    is sent only where the selection changed, and always where a multi-account
    server's list now shows another account. *)
Lemma notice_follows_selection prior now n :
  active_selection_changes_advertisement prior now n = true <-> prior <> now /\ (is_Some prior /\ is_Some now \/ (1 < n)%nat).
Proof.
  unfold active_selection_changes_advertisement. destruct prior as [p|], now as [q|].
  - rewrite negb_true_iff. unfold str_eqb. rewrite bool_decide_eq_false. split; [|naive_solver]. intros Hne. split; [congruence|]. left. split; by eexists.
  - rewrite Nat.ltb_lt. split; [intros; split; [done|by right]|]. intros [_ [[_ [? ?]]|?]]; done.
  - rewrite Nat.ltb_lt. split; [intros; split; [done|by right]|]. intros [_ [[[? ?] _]|?]]; done.
  - naive_solver.
Qed.

(** ** What the documents say *)

(** The bare name of a sub-capability is said to stay valid; no sub-capability
    has a definition, so every such name is answered as not available. *)
Lemma dotted_capability_unavailable s t args : is_sub_capability t = true ->
  route s (mkRequest (as_str t) args) = Refused (mkErrorData (RESOURCE_NOT_FOUND rc) (lit "tool `" ++ as_str t ++ lit "` is not available") None).
Proof. intros Ht. destruct t; done. Qed.

(** An allow override of an infrastructure tool is said to have no effect: in a
    server with namespaces the list then names it under the account, and a call
    by that name is refused. *)
Lemma infrastructure_override_shown s id a : server_ok s -> accounts s !! id = Some a -> active (registry s) = Some id ->
  is_legacy_single_account (account_ids (accounts s)) = false -> matrix_allows (matrix (bo_guard a)) UseAccount = true ->
  (exists d, d ∈ build_tool_catalog_for (accounts s) (active (registry s)) /\ t_name d = id ++ lit "." ++ lit "use_account") /\
  exists m, route s (mkRequest (id ++ lit "." ++ lit "use_account") None) = Refused (invalid_params rc m).
Proof.
  intros [Hok _] Ha Hact Hl Hm. destruct (Hok _ _ Ha) as (_ & name & Hn). split.
  - assert (is_Some (tool_defs UseAccount)) as [def Hd] by (by apply tool_defs_some). eexists. split.
    + apply elem_of_catalog. right. split; [intros [_ Hnone]; congruence|]. exists id, a. split; [exact Ha|].
      apply elem_of_entries. split; [auto|]. exists UseAccount, def. auto.
    + rewrite (advertised_name s _ _ (matrix_posture (matrix (bo_guard a))) _ Hd). unfold wire_name. by rewrite Hl.
  - change (lit "use_account") with (as_str UseAccount). eexists. unfold route. cbn [rq_name rq_arguments].
    rewrite (split_namespaced _ _ _ Hn), tool_from_str_as_str. assert (is_Some (tool_defs UseAccount)) as [def ->] by (by apply tool_defs_some).
    assert (is_ok (validate_bare_tool_namespace (is_legacy_single_account (account_ids (accounts s))) (id ++ lit "." ++ as_str UseAccount)) = true) as Hv.
    { unfold validate_bare_tool_namespace, is_bare_simple_tool_name.
      assert (existsb (Z.eqb 46) (id ++ lit "." ++ as_str UseAccount) = true) as ->; [|by rewrite andb_false_r].
      apply List.existsb_exists. exists 46. split; [|done]. apply List.in_or_app. right. by left. }
    destruct (validate_bare_tool_namespace _ _); [|done]. reflexivity.
Qed.
End server.

(** use_account and list_accounts are documented to bypass rate limiting; an
    exhausted process-wide limiter refuses them. *)
Lemma infrastructure_rate_limited `{Limiter L} serde_text (s : ImapMcpServer (L := L)) t args now wait :
  (limiter_check (infrastructure_limiter (registry s)) now).2 = Some wait ->
  (infrastructure_body serde_text s t args now).2 = Err (RRateLimited (Z.min u64_max (as_millis wait))).
Proof.
  intros Hw. unfold infrastructure_body, check_infrastructure_rate. destruct (limiter_check _ now) as [l w]. cbn in Hw. by subst w.
Qed.

(** ** At concrete inputs *)

#[local] Instance no_schemas : Schemas := { input_schema := fun _ => []; output_schema := fun _ => [] }.
#[local] Instance short_digest : Digest := { sha256 := fun _ => [1; 2]; json_to_vec := fun _ => [] }.

Definition sample_booted (id : rstr) : BootedAccount (L := Z) :=
  mkBooted id (mkConnection (as_optional id) id (lit "imap.example.org") 993 ImapTls (lit "ann") None 10000 30000 0 0) None
    (sample_guard (new default_spec) 9) (folder_guard_new [] []) (lit "/tmp/d") (Folders.from_folders []) (from_secs 60).
Definition sample_server : ImapMcpServer (L := Z) :=
  mkServer (mkRegistry {[lit "work" := sample_booted (lit "work"); lit "home" := sample_booted (lit "home")]} (Some (lit "home")) 3).

Lemma sample_server_ok : server_ok sample_server.
Proof.
  split.
  2: { intros id Hid. injection Hid as <-. exists (sample_booted (lit "home")). unfold accounts, sample_server. cbn [registry reg_accounts].
       rewrite lookup_insert_ne by discriminate. apply lookup_singleton_eq. }
  unfold accounts, sample_server. cbn [registry reg_accounts]. apply map_Forall_insert_2; [|apply map_Forall_singleton].
  - split; [done|]. exists (lit "work"). vm_compute. reflexivity.
  - split; [done|]. exists (lit "home"). vm_compute. reflexivity.
Qed.

Definition sample_meets : call_meets (L := Z) :=
  mkMeets (Joined (Ok 41)) false false 12 true (from_secs 100) (from_secs 101) (fun _ _ _ => Finishes (Ok (JObj []))).
Definition sample_request : CallToolRequest := mkRequest (lit "WORK.search") (Some [(lit "subject", JStr (lit "hi"))]).

(** A read-only account's search runs; the account is spelt in capitals. *)
Lemma call_tool_gated_witness : exists s' o,
  dispatch_call_tool [7] (mkRmcpCodes 1 2 3) (fun _ => []) sample_server sample_request sample_meets = Some (s', o) /\
  oc_ran o = Some (lit "work", HSearch) /\ active (registry s') = Some (lit "home") /\
  accounts s' !! lit "home" = accounts sample_server !! lit "home".
Proof.
  assert (Hran : (fun p => oc_ran p.2) <$> dispatch_call_tool [7] (mkRmcpCodes 1 2 3) (fun _ => []) sample_server sample_request sample_meets
    = Some (Some (lit "work", HSearch))) by (vm_compute; reflexivity).
  destruct (dispatch_call_tool [7] (mkRmcpCodes 1 2 3) (fun _ => []) sample_server sample_request sample_meets) as [[s' o]|] eqn:E; [|done].
  injection Hran as Hran. exists s', o. split; [reflexivity|]. split; [exact Hran|].
  pose proof (call_tool_gated [7] (mkRmcpCodes 1 2 3) (fun _ => []) _ _ _ _ _ sample_server_ok E) as Hg.
  rewrite Hran in Hg. destruct Hg as (a & ns & base & t & _ & _ & _ & _ & _ & _ & _ & _ & _ & _ & _ & Hother & Hact).
  split; [rewrite Hact; reflexivity|apply Hother; discriminate].
Defined.

(** The same account's send_email is refused; search.advanced too, as the
    arguments promote the call. *)
Example refused_calls : map (fun r => oc_ran <$> (snd <$> dispatch_call_tool [7] (mkRmcpCodes 1 2 3) (fun _ => []) sample_server r sample_meets))
  [mkRequest (lit "work.send_email") None; mkRequest (lit "work.search") (Some [(lit "body", JStr (lit "x"))]);
   mkRequest (lit "search") None; mkRequest (lit "list_accounts") None] = [Some None; Some None; Some None; Some None].
Proof. vm_compute. reflexivity. Qed.

Lemma advertised_callable_witness :
  route (mkRmcpCodes 1 2 3) sample_server (mkRequest (wire_name sample_server (lit "work") FetchMessage) None) =
    Scoped (sample_booted (lit "work")) (refine_tool_name FetchMessage None).
Proof.
  apply (proj2 (proj2 (advertised_callable (mkRmcpCodes 1 2 3) sample_server sample_server_ok) (lit "work")
    (sample_booted (lit "work")) FetchMessage (lookup_insert_eq _ _ _) ltac:(vm_compute; reflexivity) eq_refl) eq_refl None).
Defined.

(** Fifty-one tools take three pages. *)
Definition long_catalog : list Tool := repeat (mkTool (lit "search") None None None (annotation_hints Search) [] []) 51.

Lemma pages_cover_catalog_witness : walk (mkRmcpCodes 1 2 3) (fun s => s) 3 long_catalog None = Some long_catalog.
Proof. apply (pages_cover_catalog (mkRmcpCodes 1 2 3) (fun s => s) long_catalog). vm_compute. discriminate. Defined.

(** Two accounts boot from a configuration, and the session selects one. *)
Definition sample_boot : boot_env :=
  mkBootEnv (fun bs => bs) (mkKeyring (fun _ => None) (fun _ => Ok (Some (lit "secret"))) (fun _ => None)) (fun _ => None) (fun _ => None)
    (fun _ => Ok []) (fun _ => None).

Lemma session_confined_witness : exists multi records states s' o,
  validate_multi sample_fs sample_config = Ok multi /\
  build_registry (L := Z) sample_boot multi (lit "/srv/mail") = (records, Ok states) /\
  dispatch_call_tool [7] (mkRmcpCodes 1 2 3) (fun _ => []) (server_new states)
    (mkRequest (lit "use_account") (Some [(lit "account", JStr (lit "Work"))])) sample_meets = Some (s', o) /\
  forall id, active (registry s') = Some id -> is_Some (Config.accounts multi !! id).
Proof.
  set (rq := mkRequest (lit "use_account") (Some [(lit "account", JStr (lit "Work"))])).
  assert (Hok : match validate_multi sample_fs sample_config with
    | Ok multi => is_ok (build_registry (L := Z) sample_boot multi (lit "/srv/mail")).2 | Err _ => false end = true) by (vm_compute; reflexivity).
  destruct (validate_multi sample_fs sample_config) as [multi|e] eqn:Ev; [|discriminate Hok].
  destruct (build_registry (L := Z) sample_boot multi (lit "/srv/mail")) as [records [states|e]] eqn:Eb; [|discriminate Hok].
  destruct (dispatch_call_tool [7] (mkRmcpCodes 1 2 3) (fun _ => []) (server_new states) rq sample_meets) as [[s' o]|] eqn:Ed.
  - exists multi, records, states, s', o. split; [reflexivity|]. split; [exact Eb|]. split; [exact Ed|].
    exact (proj1 (proj2 (session_confined [7] (mkRmcpCodes 1 2 3) (fun _ => []) sample_fs sample_config multi sample_boot
      (lit "/srv/mail") records states s' Ev Eb (rtc_once _ _ (ex_intro _ rq (ex_intro _ sample_meets (ex_intro _ o Ed))))))).
  - exfalso. revert Ed. unfold dispatch_call_tool. change rq with (mkRequest (as_str UseAccount) (rq_arguments rq)).
    rewrite route_infrastructure by reflexivity. by destruct (dispatch_infrastructure _ _ _ _ _ _ _).
Defined.
