(* ===== verification/AuthLog.v ===== *)
(** * Connections and the log they leave (crates/rimap-audit/src/writer/log.rs)

    [Connect] hands the record of an attempt to an [AuthEventSink]; here the
    sink is the audit writer, so that an attempt and the log file it is recorded
    in are one run. *)

From Stdlib Require Import ZArith Lia.
From stdpp Require Import base option list numbers strings gmap.
From S2P Require Import Prelude RustStr Tools Errors ImapErrors AuditRecord AuditWriter AuditFiles AuditReader Session Connect.
Local Open Scope Z_scope.

Section log.
Context `{RecordJson} (wcfg : WorkerConfig) (x : io) (timed_out : bool) (when : Z).

(* [crates/rimap-audit/src/writer/log.rs:89-94] AuditWriter::log_auth *)
Definition log_auth (st : AuditWriter.state) (payload : AuthEvent) : AuditWriter.state * result AuditError Z :=
  emit wcfg x timed_out when st (PAuth payload).

(** The message holds the error's code and not the log's path. *)
(* [crates/rimap-audit/src/writer/log.rs:45-69] AuthEventSink::emit_auth *)
Definition writer_emit_auth (st : AuditWriter.state) (event : AuthEvent) : AuditWriter.state * sink_answer :=
  let '(st, r) := log_auth st event in
  (st, match r with
       | Ok _ => SinkOk
       | Err err => SinkErr (lit "audit emit_auth: " ++ code_as_str (audit_code err))
       end).

(* [crates/rimap-audit/src/writer/log.rs:79-81] AuthEventSink::note_auth_write_lost *)
Definition note_auth_write_lost (st : AuditWriter.state) : AuditWriter.state :=
  AuditWriter.mkState (count_suppressed_failure (writer st)) (on_disk st) (inner st).

(** An attempt hands its sink one record at most, so the writer it finds is the
    one before the attempt. *)
Section attempt.
Context (tls : tls_library) (srv : server) (cfg : ConnectionConfig)
  (resolve : rstr -> rstr -> rstr -> result rstr (rstr * CredentialSource)) (resolve_time : Z) (write_time : AuthEvent -> Z).

(* [crates/rimap-imap/src/connection/mod.rs:764-821] Connection::connect_inner *)
Definition audited_connect (st : AuditWriter.state) (t : Z) : AuditWriter.state * connect_report :=
  let rep := connect_inner tls srv cfg resolve resolve_time (fun ev => (writer_emit_auth st ev).2) write_time (mkAttempt t None None) in
  (Nat.iter (cr_lost rep) note_auth_write_lost (fold_left (fun st ev => (writer_emit_auth st ev).1) (cr_events rep) st), rep).

(** The record's line ends the file that is open after the write, and nothing
    is counted. *)
Definition logged (st st' : AuditWriter.state) (ev : AuthEvent) : Prop :=
  exists line, to_vec (mkAuditRecord (next_seq (writer st)) when (w_process_id (writer st)) (PAuth ev)) = Some line /\
    appended wcfg (on_disk st) (inner st) (on_disk st') (inner st') (line ++ [10]) /\
    suppressed_failures (writer st') = suppressed_failures (writer st).

(** The hole is in the count of lost records. *)
Definition counted_lost (st st' : AuditWriter.state) : Prop :=
  suppressed_failures (writer st') = (suppressed_failures (writer st) + 1) mod 2 ^ 64.

Lemma sink_cases st ev : file_known (on_disk st) (inner st) ->
  let '(st', a) := writer_emit_auth st ev in
  next_seq (writer st') = (next_seq (writer st) + 1) mod 2 ^ 64 /\
  match a with
  | SinkOk => logged st st' ev \/ w_fail_open (writer st) = true /\ counted_lost st st'
  | _ => a <> SinkPanics /\ suppressed_failures (writer st') = suppressed_failures (writer st)
  end.
Proof.
  intros Hk. unfold writer_emit_auth, log_auth. destruct (emit _ _ _ _ _ _) as [st' r] eqn:E.
  apply emit_record in E as (Hs & _ & Hr); [|done]. destruct r as [q|e]; split; [done| |done|by destruct Hr].
  destruct Hr as [-> [(_ & line & Hv & Hc & Hn)|Hl]]; [left; by exists line|by right].
Qed.

Local Ltac taken Hc := let Hn := fresh in
  destruct Hc as [Hn [Hc|[_ Hc]]]; (split; [exact Hn|]); do 4 (split; [reflexivity|]); (split; [|done]); [by left|by right; left].
Local Ltac refused Hc := let Hn := fresh in let Hk := fresh in
  destruct Hc as [Hn [_ Hk]]; split; [exact Hn|]; do 4 (split; [reflexivity|]); split; [|done];
  right; left; unfold counted_lost; cbn; rewrite Hk; done.

(** C18: no attempt to reach a mailbox escapes the log.  An attempt uses one
    sequence number, and its record is a line on the log, or it is counted
    among the lost records that the process reports when it ends, or it had
    logged in and its session was refused because the record could not be
    written.  Where the log is not set to fail open, a session is handed out
    only after the line that says so, with the account, host, port and user of
    the configuration, is on the log.  On the log means: at the end of the file
    that is open after the write, following all that file held and the bytes
    still buffered for it, or alone in the fresh active file where a rotation
    was due.  The one assumption is that the file the writer has open is an
    allocated one (file_known), which every write keeps.  An attempt whose TLS
    configuration cannot be built opens no connection and has no record. *)
Theorem attempts_on_record st t : file_known (on_disk st) (inner st) ->
  let '(st', rep) := audited_connect st t in
  match client_config tls with
  | Err e => st' = st /\ cr_steps rep = [] /\ cr_result rep = Some (Err (ITlsHandshake e))
  | Ok _ => exists ev, cr_events rep = [ev] /\ next_seq (writer st') = (next_seq (writer st) + 1) mod 2 ^ 64 /\
      ae_account ev = cc_account cfg /\ ae_host ev = cc_host cfg /\ ae_port ev = cc_port cfg /\ ae_username ev = cc_username cfg /\
      (logged st st' ev \/ counted_lost st st' \/
       (ae_ok ev = true /\ exists message, cr_result rep = Some (Err (IAudit (lit "emit_auth") message)))) /\
      (forall caps, cr_result rep = Some (Ok caps) -> w_fail_open (writer st) = false -> ae_ok ev = true /\ logged st st' ev)
  end.
Proof.
  intros Hk. unfold audited_connect, connect_inner. set (sink := fun ev => (writer_emit_auth st ev).2).
  destruct (client_config tls) as [[]|e] eqn:Ec; [|by unfold build_tls_config; rewrite Ec].
  assert (Ev : exists v, build_tls_config tls (cc_pinned_fingerprint cfg) = Ok v) by (unfold build_tls_config; rewrite Ec; by eexists).
  destruct Ev as [v ->]. destruct (connect_with_bundle _ _ _ _ _ _ _ _) as [[l st1] r].
  assert (Hs : forall ev, sink ev = (writer_emit_auth st ev).2) by done.
  unfold emit_guard_drop, emit_auth_blocking, emit_auth.
  destruct r as [caps|err| |]; cbn [cr_events cr_result cr_lost fold_left]; eexists; (split; [reflexivity|]); rewrite !Hs.
  - set (ev := auth_success _). pose proof (sink_cases st ev Hk) as Hc. destruct (writer_emit_auth st ev) as [st' a].
    destruct Hc as [Hn Hc]. split; [by destruct a|]. do 4 (split; [reflexivity|]). destruct a as [|m|]; [|destruct Hc as [Hne _]..].
    + split; [destruct Hc as [Hl|[_ Hl]]; [by left|by right; left]|]. intros caps' _ Hfo. split; [done|]. destruct Hc as [Hl|[Hf _]]; [exact Hl|congruence].
    + split; [|done]. right. right. split; [done|]. by eexists.
    + done.
  - set (ev := auth_failure _ _). pose proof (sink_cases st ev Hk) as Hc. destruct (writer_emit_auth st ev) as [st' [|m|]]; [taken Hc|refused Hc..].
  - set (ev := auth_failure _ _). pose proof (sink_cases st ev Hk) as Hc. destruct (writer_emit_auth st ev) as [st' [|m|]]; [taken Hc|refused Hc..].
  - set (ev := auth_failure _ _). pose proof (sink_cases st ev Hk) as Hc. destruct (writer_emit_auth st ev) as [st' [|m|]]; [taken Hc|refused Hc..].
Qed.
End attempt.
End log.

(** ** At a concrete input *)

#[local] Existing Instance AuditWriter.header_json.

Definition sample_connect (x : io) : AuditWriter.state * connect_report :=
  audited_connect sample_cfg x false 100 Sample.tls (Sample.srv [1]) (Sample.cfg None) Sample.resolve 0 (fun _ => 0) (sample_writer false) 0.

(** A disk that takes nothing: the login went through, and there is no session. *)
Example unrecorded_login_refused : cr_result (sample_connect (mkIo true true true None None (Some 0%nat) (Some 0%nat) true)).2 =
  Some (Err (IAudit (lit "emit_auth") (lit "audit emit_auth: ERR_INTERNAL"))).
Proof. vm_compute. reflexivity. Qed.

Lemma attempts_on_record_witness : exists ev line,
  cr_events (sample_connect all_ok).2 = [ev] /\ content (on_disk (sample_connect all_ok).1) 0 = line ++ [10].
Proof.
  assert (Hok : exists caps, cr_result (sample_connect all_ok).2 = Some (Ok caps)) by (eexists; vm_compute; reflexivity).
  destruct Hok as [caps Hok].
  pose proof (attempts_on_record sample_cfg all_ok false 100 Sample.tls (Sample.srv [1]) (Sample.cfg None) Sample.resolve 0 (fun _ => 0)
    (sample_writer false) 0 (Nat.lt_succ_diag_r 0)) as Ht.
  change (audited_connect _ _ _ _ _ _ _ _ _ _ _ _) with (sample_connect all_ok) in Ht.
  destruct (sample_connect all_ok) as [st' rep]. destruct Ht as (ev & He & _ & _ & _ & _ & _ & _ & Ht).
  destruct (Ht caps Hok eq_refl) as (_ & line & _ & (Hf & _ & Hc) & _). rewrite Hf in Hc. exists ev, line. split; [exact He|exact Hc].
Defined.
