(* ===== verification/Audited.v ===== *)
(** * Tool calls with the log they leave

    [Server] says which records a call submits, [AuditWriter] what becomes of a
    record that is submitted.  Here the start record's write decides whether the
    body runs, as it does in run_with_audit_envelope, and the end record is
    written after it. *)

From Stdlib Require Import ZArith Lia.
From stdpp Require Import base option list numbers strings gmap.
From S2P Require Import Prelude RustStr Tools Errors Json Redact McpErrors Names ToolCall Breaker Authz AuditRecord AuditWriter Config Connect Registry Startup Envelope Catalog Server.
Local Open Scope Z_scope.

(** ** Files only grow *)

Definition grows (d d' : disk) : Prop :=
  (fresh d <= fresh d')%nat /\ forall f, (f < fresh d)%nat -> content d f `prefix_of` content d' f.

#[export] Instance grows_preorder : PreOrder grows.
Proof.
  split; [by intros d|]. intros d1 d2 d3 [H1 G1] [H2 G2]. split; [lia|]. intros f Hf.
  transitivity (content d2 f); [by apply G1|apply G2; lia].
Qed.

Lemma append_grows d f bs : grows d (append d f bs).
Proof.
  split; [done|]. intros g _. rewrite content_append. destruct (Nat.eqb_spec f g) as [->|]; [by eexists|done].
Qed.

Lemma flush_grows fail d f b : grows d (flush_buf fail d f b).1.1.
Proof. unfold flush_buf. destruct fail; apply append_grows. Qed.

Lemma write_all_grows x d f b line : grows d (write_all x d f b line).1.1.
Proof.
  unfold write_all. destruct (_ <? _)%nat; [done|].
  set (t := if (_ <? _)%nat then _ else _). assert (Ht : grows d t.1.1) by (subst t; destruct (_ <? _)%nat; [apply flush_grows|done]).
  destruct t as [[d1 b1] [u|e]]; [|exact Ht]. cbn in Ht. destruct (_ <=? _)%nat; [|exact Ht].
  destruct (direct_write x); cbn; (etransitivity; [exact Ht|apply append_grows]).
Qed.

Lemma rotate_grows x d : grows d (rotate_file x d).1.
Proof.
  unfold rotate_file. destruct (AuditWriter.active d); [|done]. destruct (negb (rename_ok x)); [done|]. destruct (negb (open_ok x)); [done|].
  assert (Hg : grows d (mkDisk (Some (fresh d)) (<[fresh d := []]> (files d)) (S (fresh d)))).
  { split; cbn; [lia|]. intros f Hf. unfold content. cbn. by rewrite lookup_insert_ne by lia. }
  cbn. by destruct (negb (lock_ok x)).
Qed.

Lemma perform_write_grows cfg x d i line fs : grows d (perform_write cfg x d i line fs).1.1.
Proof.
  unfold perform_write. assert (Hr : grows d (rotate_if_due cfg x d i).1.1).
  { unfold rotate_if_due. destruct (_ && _); [|done]. pose proof (rotate_grows x d) as Hg. destruct (rotate_file x d) as [d1 [f|e]]; [|exact Hg].
    cbn in Hg. pose proof (flush_grows (close_flush x) d1 (file i) (buf i)) as Hf. destruct (flush_buf _ d1 _ _) as [[d2 b2] r2].
    cbn in *. by transitivity d1. }
  destruct (rotate_if_due cfg x d i) as [[d1 i1] [u|e]]; [|exact Hr]. cbn in Hr.
  pose proof (write_all_grows x d1 (file i1) (buf i1) line) as Hw. destruct (write_all _ _ _ _ _) as [[d2 b2] [u2|e]]; [|by transitivity d1]. cbn in Hw.
  pose proof (flush_grows (flush x) d2 (file i1) b2) as Hf. destruct (flush_buf _ d2 _ _) as [[d3 b3] [u3|e]]; cbn in *; (transitivity d1; [done|]); by transitivity d2.
Qed.

Lemma emit_grows `{RecordJson} cfg x timed_out now st p : grows (on_disk st) (on_disk (emit cfg x timed_out now st p).1).
Proof.
  unfold emit, allocate_seq. set (r := mkAuditRecord _ _ _ _). set (st1 := AuditWriter.mkState _ _ _).
  assert (Hw : grows (on_disk st) (on_disk (write_record cfg x timed_out st1 r).1)).
  { unfold write_record, write_record_inner. destruct (to_vec r) as [line|]; [|done]. unfold request.
    pose proof (perform_write_grows cfg x (on_disk st1) (inner st1) (line ++ [10]) (needs_fsync (payload r))) as Hp.
    destruct (perform_write _ _ _ _ _ _) as [[d i] res]. change (on_disk st1) with (on_disk st) in Hp. cbn in Hp.
    destruct timed_out; [cbn; by destruct (w_fail_open _)|]. destruct res as [u|e]; [exact Hp|].
    destruct e; cbn; try exact Hp; by destruct (w_fail_open _). }
  destruct (write_record cfg x timed_out st1 r) as [st2 res]. exact Hw.
Qed.

(** ** A call and its records *)

Section audited.
Context `{Schemas} `{Digest} `{RecordJson} {L : Type} `{Limiter L} (salt : list Z) (rc : rmcp_codes) (serde_text : jmap -> rstr).
(** How an audit error is shown. *)
Context (audit_text : AuditError -> rstr).

(** The start record a call submits. *)
Definition start_of (s : ImapMcpServer (L := L)) (rq : CallToolRequest) : option ToolStartInputs :=
  let args := JObj (default [] (rq_arguments rq)) in
  let inputs tool account posture :=
    mkToolStartInputs tool account (posture_of posture) (redact_tool_args salt tool args) (hash_arguments args) in
  match route rc s rq with
  | Refused _ => None
  | Infrastructure tool => Some (inputs tool None PInfrastructure)
  | Scoped a tool => Some (inputs tool (as_optional (bo_id a)) (PAccount (matrix_posture (matrix (bo_guard a)))))
  end.

(* [crates/rimap-audit/src/writer/log.rs:134-139] AuditWriter::log_tool_end *)
Definition log_tool_end (cfg : WorkerConfig) (x : io) (timed_out : bool) (now : Z) (st : AuditWriter.state) (inputs : ToolEndInputs)
    : AuditWriter.state * result AuditError Z :=
  emit cfg x timed_out now st (PToolEnd (tool_end_of inputs)).

(** What the log's two writes of a call meet. *)
Record audit_env := mkAuditEnv {
  au_cfg : WorkerConfig; au_start_io : io; au_start_timeout : bool; au_start_now : Z;
  au_end_io : io; au_end_timeout : bool; au_end_now : Z }.

Definition with_start (x : call_meets (L := L)) (r : result AuditError Z) : call_meets :=
  mkMeets (Joined (map_err audit_text r)) (cm_drop_start x) (cm_drop_end x) (cm_elapsed_ms x) (cm_channel_takes x)
    (cm_pre x) (cm_post x) (cm_run x).

(** An end record reaches the log directly or through the drainer. *)
Definition end_of (ops : list audit_op) : option ToolEndInputs :=
  match ops with
  | [WriteStart _; WriteEnd i] | [WriteStart _; QueueEnd i] => Some i
  | _ => None
  end.

(* [crates/rimap-server/src/mcp/audit_envelope.rs:41-171] run_with_audit_envelope *)
Definition audited_call (e : audit_env) (st : AuditWriter.state) (s : ImapMcpServer) (rq : CallToolRequest) (x : call_meets)
    : option (AuditWriter.state * ImapMcpServer * outcome) :=
  match start_of s rq with
  | None => '(s', o) ← dispatch_call_tool salt rc serde_text s rq x; Some (st, s', o)
  | Some i =>
      let '(st, r) := log_tool_start (au_cfg e) (au_start_io e) (au_start_timeout e) (au_start_now e) st i in
      '(s', o) ← dispatch_call_tool salt rc serde_text s rq (with_start x r);
      let st := match end_of (oc_ops o) with
        | Some i => (log_tool_end (au_cfg e) (au_end_io e) (au_end_timeout e) (au_end_now e) st i).1
        | None => st
        end in
      Some (st, s', o)
  end.

(** The record the log writes is the one the call submits first. *)
Lemma run_head env tool account posture args : exists rest,
  ops (run_with_audit_envelope salt rc env tool account posture args) =
    WriteStart (mkToolStartInputs tool account (posture_of posture) (redact_tool_args salt tool (JObj args)) (hash_arguments (JObj args))) :: rest.
Proof. unfold run_with_audit_envelope. destruct (dropped env) as [[]|], (start_join env) as [[]|]; by eexists. Qed.

Lemma start_submitted s rq x s' o : dispatch_call_tool salt rc serde_text s rq x = Some (s', o) ->
  match start_of s rq with
  | Some i => exists rest, oc_ops o = WriteStart i :: rest
  | None => oc_ops o = []
  end.
Proof.
  unfold dispatch_call_tool, start_of. destruct (route rc s rq) as [err|t|a t]; [by intros [= _ <-]| |].
  - unfold dispatch_infrastructure. destruct (body_runs x); [destruct (infrastructure_body _ _ _ _ _)|]; intros [= _ <-]; apply run_head.
  - unfold dispatch_account_scoped. destruct (body_runs x); [|intros [= _ <-]; apply run_head].
    destruct (Authz.dispatch_account_scoped _ _ _ _ _ _) as [[g rep]|]; [|done]. intros [= _ <-]. destruct (Authz.answer rep); cbn [oc_ops]; apply run_head.
Qed.

(** A start record whose write was answered with success is on the log. *)
Lemma log_tool_start_ok cfg x timed_out now st i st' seq : w_fail_open (writer st) = false -> file_known (on_disk st) (inner st) ->
  log_tool_start cfg x timed_out now st i = (st', Ok seq) ->
  seq = next_seq (writer st) /\ file_known (on_disk st') (inner st') /\
  exists line, to_vec (mkAuditRecord (next_seq (writer st)) now (w_process_id (writer st)) (PToolStart (tool_start_of i))) = Some line /\
    appended cfg (on_disk st) (inner st) (on_disk st') (inner st') (line ++ [10]).
Proof.
  intros Hfo Hk. unfold log_tool_start. destruct (emit _ _ _ _ _ _) as [st1 res] eqn:E.
  apply emit_record in E as (_ & Hk1 & Hr); [|done]. destruct res as [q|e]; [|done]. intros [= <- <-].
  destruct Hr as [-> [(_ & line & Hv & Hc & _)|[Hf _]]]; [|congruence]. split; [done|]. split; [exact Hk1|]. by exists line.
Qed.

End audited.

(** ** At a concrete input *)

#[local] Existing Instances AuditWriter.header_json Server.no_schemas Server.short_digest.

Definition sample_env : audit_env := mkAuditEnv sample_cfg all_ok false 100 all_ok false 101.

(** Bytes left in the buffer by an earlier failure go out before the line. *)
Definition buffered_writer : AuditWriter.state :=
  AuditWriter.mkState (writer (sample_writer false)) empty_disk (mkInner 0 [1; 2; 10] 3).

